(* ===== verification/_CoqProject ===== *)
-Q . S2P
Prelude.v
Tx.v
GoString.v
GoTime.v
Sha256.v
Json.v
Base64.v
Exchange.v
Float.v
Time.v
Calendar.v
Indent.v
Domain.v
Database.v
Schema.v
Attempts.v
Receipts.v
Wallets.v
Journal.v
Config.v
Strconv.v
Environ.v
Url.v
Node.v
Scanner.v
Installation.v
Filesystem.v
Encoding.v
Ledgerfile.v
Ledgerlogic.v
Ledgersafe.v
Durability.v
Ledgerrefine.v
Guarded.v
Lifecycle.v
Addrgen.v
Opening.v
Main.v
Request.v
Signer.v
Planner.v
Coordinator.v
Service.v
Worker.v
Demo.v
Unmatched.v
Stored.v
Rely.v
Programs.v
Calls.v
Coordination.v
Custody.v
Concurrency.v
Interleaving.v
Recovery.v
Results.v
Cursor.v
Access.v
Effects.v
Http.v
Front.v
Tenancy.v
Gateway.v
Triple.v
Mock.v
Registry.v
Readiness.v
Serving.v
Reads.v
Snapshots.v
Deposits.v
Paging.v
Transactions.v
Tracing.v
Broadcast.v
Broadcasting.v
Router.v
Startup.v
Admission.v
