(* ===== verification/Prelude.v ===== *)
(** * Verification of juno-exchange-gateway

    The gateway stands between an exchange and a shielded-pool wallet.  It
    allocates deposit addresses, answers balance and deposit queries, and builds,
    signs, broadcasts and reconciles withdrawals.  It never holds a spending key:
    a planner process builds a plan, a signer service signs it, a node and a
    scanner say what happened on chain.  What it must not get wrong: give the
    same note to two withdrawals, release notes of a transaction that may still
    confirm, hand out one deposit index twice, answer an idempotent request
    twice, or serve from a state it cannot trust.

    ** The program's parts and the files that model them

    - [Prelude]: Go errors and results, lists and options, shared tactics.
    - [Tx]: SQL statements and transactions ([BeginTx], [Rollback], [Commit]) as
      runs over a list of driver outcomes.
    - [GoString], [GoTime], [Sha256], [Json], [Indent], [Base64], [Float], [Time],
      [Calendar], [Url], [Strconv]: the parts of Go's standard library the source
      computes with: [strings], [strconv], [hex], [time], [crypto/sha256],
      [encoding/json], [encoding/base64], [net/url].
    - [Domain]: [internal/domain/types.go].
    - [Database]: the tables of [internal/storage/sqlite/sqlite.go] and the rows
      of [internal/storage/storage.go]; [Schema]: [Open] and its migrations.
    - [Attempts]: [internal/storage/sqlite/attempts.go], one definition per
      method; [Journal] runs any sequence of its writes and of the receipts' and
      wallets' writes ([store_op]).
    - [Receipts], [Wallets]: the other methods of [sqlite.go].
    - [Config], [Environ]: [internal/config/config.go]: [Config.Validate] and its
      helpers; [Environ.Load], the environment and the JSON files.
    - [Installation]: [internal/installation/state.go] and [checksum.go], over the
      manifest.  [Filesystem], [Encoding], [Ledgerfile]: the same operations down to
      their system calls and the manifest's JSON; [Ledgerlogic], [Ledgersafe],
      [Durability]: what holds of them however processes interleave and wherever
      they are killed or the machine crashes; [Ledgerrefine]: the operations on a
      manifest that is there, run alone, do what [Installation] says.
    - [Guarded]: [internal/storage/guarded/guarded.go].
    - [Lifecycle]: [internal/lifecycle/lifecycle.go].
    - [Exchange], [Node], [Scanner]: an exchange of an HTTP client, and the clients
      of node and scanner, [internal/adapters/node/client.go] and
      [internal/adapters/scanner/client.go]; [Addrgen]: the address deriver,
      [internal/adapters/addrgen/addrgen.go].
    - [Opening], [Main], [Startup]: the commands of
      [cmd/juno-exchange-gateway/main.go], which call [Environ], [Lifecycle] and
      [Addrgen]; [Opening] puts [storage.Open] among their calls; [Startup] is what [serve] builds
      before it listens: the API of [Router] and the coordinator of [Front].
    - [Request], [Signer], [Planner], [Coordinator], [Service], [Worker]: the
      package [internal/coordinator] but for its HTTP handlers: [types.go],
      [signer.go] and [errors.go], [planner.go], [inventory.go], and the request
      half and worker half of [service.go]; [Front]: the handlers, [http.go].
    - The public API, package [internal/api]: [Http] (requests and bodies),
      [Gateway] (its world and its monad), [Access] ([auth.go], [ratelimit.go]),
      [Cursor] ([cursor.go]), [Effects] ([wallet_effects.go]), [Registry]
      ([registry.go]), and of [api.go]: [Readiness], [Reads], [Deposits],
      [Transactions], [Broadcast] and [Router] (routes, scopes, middleware).
    - [Demo], [Rely]: a concrete coordinator world for witnesses, and a
      rely-guarantee judgement for the theorems of [Coordination], [Custody],
      [Recovery] and [Results]; [Unmatched] is what becomes of an answer of the
      signer that does not match the plan; [Stored] and [Tenancy] go from there to what is
      stored and to the HTTP surface.
    - [Programs], [Calls], [Concurrency], [Interleaving]: the same coordinator
      cut at its calls, the goroutines of [Service.Start] as a transition system
      over their shared tables, queue and in-flight set, and the theorems of
      [Custody] carried over to every interleaving.
    - [Triple], [Mock]: Hoare triples for the handlers of the public API, and
      concrete services for witnesses, for the theorems of [Serving], [Snapshots],
      [Paging], [Tracing], [Broadcasting] and [Admission].

    ** How state and operations correspond to the code

    A table is a finite map from its primary key (a [Record] field of
    [Database.db]); a store method is a [Definition] of the method's name which
    takes the outcomes of its driver calls and the tables, and gives its result
    and the tables it leaves.  A method that the code wraps in a transaction is
    wrapped in [Tx.run_tx]: a failed statement leaves the tables as they were.

    A command works on the ledger, the rows, and the rest of the database's file
    ([Opening.machine]): [storage.Open] runs [Schema.Open] on that file before the
    command looks at its acknowledgement.

    The installation manifest is a file of its own.  In [Installation] it is an
    optional [Manifest]: a locked section takes the file system's answer, and a
    failed replacement can leave the old or the new file.  In [Ledgerfile] it is
    bytes on a disk ([Filesystem.disk]), and every method is a program of calls
    ([lstat], [open], [flock], [write], [fsync], [rename], ...), each of which can
    fail.  Between two calls other processes make theirs; a crash brings back any
    version of each name since the directory was last synced, and leaves of a file
    that was not synced anything.

    The coordinator runs in the monad of [Coordinator]: call number [n] of a run
    meets the tables as [interfere n] left them, and the answers of node, scanner,
    planner, signer and clock at call [n].  Every interleaving with other
    requests, workers and processes is therefore a choice of [interfere], and a
    theorem for every [interfere] is a theorem about every schedule.  The public
    API does the same with [meanwhile] in the monad of [Gateway].

    What a worker assumes of the others, that on its attempt they make no call but
    cancellation, is not left as an assumption: [Concurrency] runs the goroutines
    themselves, each a program of calls ([Programs.prog]) that [Calls] derives from
    the definitions of [Service] and [Worker] together with the proof that it runs
    as they do, and [Interleaving] proves that whatever a worker does in a schedule
    is a run of [Worker.process] under such an interference.

    The adapters are functions of what becomes of their requests: JSON goes out
    as [Json.Marshal] prints it and comes in through [Json.parse] and one decoder
    per Go type, which keeps [encoding/json]'s rules (case-insensitive keys,
    repeated keys, nulls, unknown fields).

    Integers are [Z]; where Go arithmetic can wrap ([int64], [uint32], [uint64])
    the wrap is written out, and the bounds theorems say where it cannot happen.
    Strings are byte sequences.  An instant is a number of nanoseconds.

    ** What the theorems show

    - Notes: no note is in the plan of two live attempts
      ([Journal.no_note_planned_twice]); the reservation table is exactly the
      notes of the live attempts ([Journal.reservations_are_exact]); a plan is
      reserved exactly when its conditions hold ([Journal.ReserveAttemptPlan_iff]).
    - Custody: every activity of the coordinator is a sequence of journal steps
      (the refinement [Coordination.serve_refines_journal]); from the moment
      signing may have begun the attempt is not cancellable again
      ([Custody.uncertain_signing_holds], with the exception that
      [Unmatched.mismatched_signature_is_cancellable] exhibits); and notes are given
      back after signing only on the scanner's proof
      ([Custody.release_needs_proof]); both hold of one run of a worker and, by
      [Interleaving], of any stretch of the life of the service.
    - Concurrency: no two goroutines ever work on the same attempt
      ([Concurrency.attempts_are_worked_alone]), and a worker's run in any
      interleaving is a run of the model ([Interleaving.workers_run_the_model]).
    - Liveness: scanning with the queue drained in between reaches every attempt
      that is due ([Recovery.recovery_reaches_everyone]).
    - Idempotency: receipts are fenced by generation and replayed once complete
      ([Receipts]), attempts are claimed once ([Journal.claim_idempotent]).
    - Addresses: an index is never handed out twice, by processes that interleave
      their system calls, are killed, and lose power
      ([Durability.reserved_once_across_crashes]; the exception is a state directory
      that was just made, [Durability.fresh_directory_can_be_lost]), nor through a
      restored database ([Guarded.no_index_reused_after_restore]); the calls
      implement the ledger of [Installation] ([Ledgerrefine.operations_refine]);
      recovery restores the addresses ([Lifecycle.Recover_restores], and from the command line
      [Main.recover_command_restores]) and a seal holds until it is lifted
      ([Wallets.seal_persists], [Recovery.sealed_is_inert]).
    - Input validation: what the gateway accepts from requests, configuration,
      planner, signer and scanner ([Request], [Config], [Planner], [Signer],
      [Results], [Domain]), each as an exact decision or an exact result.
    - Authority: a request to the public API acts only under a credential with the
      scope of its route and the grant of its wallet
      ([Admission.only_admitted_requests_act]); through the coordinator's surface a
      credential reaches only its own attempts in its own wallets
      ([Tenancy.requests_stay_within_authority]), and the surface as a whole
      refines the journal ([Tenancy.front_refines_journal]); a command changes the
      ledger or a row only with its acknowledgement ([Main.changes_are_acknowledged]);
      what comes to serve runs on an installation and a registry it has verified
      ([Startup.serving_is_verified]).
    - Broadcasts: at most one transaction per claim goes to the node, and a settled
      answer is replayed ([Broadcasting]); the node client tells a definitive
      rejection from an open outcome exactly ([Node.Broadcast_spec]).
    - Reads: a client that follows the cursors gets every deposit exactly once
      ([Paging.walk_delivers_exactly]); note statuses are of one block
      ([Snapshots]); what a ready gateway has seen ([Serving.checkReady_attests]);
      a scanner event is let through only if it proves what it says ([Effects]);
      what the clients report is consistent and was asked for
      ([Scanner.scanner_answers_are_valid], [Node.Transaction_sound]).
    - Round trips: cursors ([Cursor.decode_encode]), the manifest's text
      ([Encoding.decode_limited]), times ([Calendar]), the stored request
      ([Stored.stored_request_is_decoded]), node replies
      ([Node.call_reads_reply]), derived addresses
      ([Addrgen.program_addresses_are_read]), recovery marks
      ([Main.next_index_flags_are_read]).
    - Schema: from whatever release and after any interruptions, opening completes
      the migration and keeps every row ([Schema.interrupted_migrations_complete]).
    - Configuration: a loaded configuration says what the environment says
      ([Environ.Load_is_explicit]); the exception is a rate that is no number or
      infinite, which is accepted and admits nothing
      ([Access.infinite_rate_admits_nothing]).

    ** Fuel and bounds

    Loops are structural recursions on the lists they range over.  Where the
    code loops until a condition, the fuel is the quantity that decreases
    (remaining indices in [Lifecycle.forEachDerivedAddress], the configured cap in
    [Transactions.effects_fuel], bytes left in the scanners of [GoString],
    [Sha256] and [Strconv]), and the theorem about the loop says
    that the fuel given is enough.  [int64], [uint32] and [uint64] quantities
    carry their ranges as hypotheses only where the type gives them.

    ** What is not modelled

    - Of [cmd/juno-exchange-gateway/main.go], the listening on a socket, the signals
      and the messages on the standard error.
    - The transports of the HTTP clients (proxies, redirects, timeouts, TLS) and
      the processes and sockets themselves: an exchange, a run of a child process
      and a dial have outcomes, which are parameters.
    - [url.Parse]: the parameter of [Config] and [Environ]; the texts of the errors
      of Go's decoders.
    - The wallet locks of [planAttempt] and the mutexes around the in-flight set and
      the recovery cursor: what they guard is one step of [Concurrency], and the
      wallet locks only forbid some of the orders that are proved safe.
    - Logging, metrics and the recovery from panics.
    - The text of the SQL statements: they are the outcomes a run is given.
    - Of the file system under the manifest, where symbolic links lead, directories
      above the state directory, owners and access control: they are the faults a
      call can meet.
    - Everything that is not Go code of the gateway: the website, the compose and
      Docker files, the scripts; and the tests. *)
From stdpp Require Export base strings list gmap fin_maps pretty sorting.
From Stdlib Require Export Ascii ZArith Lia.

Open Scope Z_scope.

(** * Go errors and fallible results *)

(** The errors the source builds: [errors.New] and [fmt.Errorf] texts, [%w]
    wrapping, the sentinels it tests with [errors.Is], and the four error
    structs it tests with [errors.As]. [Foreign] is an error that comes from
    outside the program (database driver, transport, file system). *)
Inductive error : Type :=
  | New (msg : string)
  | Wrap (msg : string) (cause : error)
  | Foreign (msg : string)
  | ErrNoRows
  | ErrAttemptStateConflict
  | ErrNoteReservation
  | ErrAttemptListLimit
  | ErrNoteSummaryLimitExceeded
  | ErrScannerSnapshotChanged
  | UpstreamError (kind : string) (cause : error)
  | OperationError (code message : string) (retryable outcome_unknown : bool)
  | RpcError (code : Z) (message : string)
  | HttpError (status : Z).

#[export] Instance error_eq_dec : EqDecision error.
Proof. solve_decision. Defined.

(** A Go [(T, error)] pair in which exactly one side is meaningful. *)
Inductive result (A : Type) : Type :=
  | Ok (a : A)
  | Err (e : error).
Arguments Ok {A} a.
Arguments Err {A} e.

#[export] Instance result_ret : MRet result := fun A a => Ok a.
#[export] Instance result_bind : MBind result := fun A B f m =>
  match m with Ok a => f a | Err e => Err e end.

Definition is_ok {A} (r : result A) : bool :=
  match r with Ok _ => true | Err _ => false end.

(** [if cond { return err }]. *)
Definition guard_not (c : bool) (e : error) : result unit :=
  if c then Err e else Ok tt.

(** [if err != nil { return wrap(err) }]. *)
Definition map_err {A} (f : error -> error) (r : result A) : result A :=
  match r with Ok a => Ok a | Err e => Err (f e) end.

Lemma result_bind_ok {A B} (m : result A) (f : A -> result B) b :
  m ≫= f = Ok b <-> exists a, m = Ok a /\ f a = Ok b.
Proof. destruct m; cbn; naive_solver. Qed.

Lemma guard_not_ok c e u : guard_not c e = Ok u <-> c = false.
Proof. destruct c, u; cbn; naive_solver. Qed.

Lemma map_err_ok {A} f (r : result A) a : map_err f r = Ok a <-> r = Ok a.
Proof. destruct r; cbn; naive_solver. Qed.

(** [errors.Is]. *)
Fixpoint errors_Is (target e : error) : bool :=
  if decide (e = target) then true
  else match e with
       | Wrap _ cause => errors_Is target cause
       | UpstreamError _ cause => errors_Is target cause
       | _ => false
       end.

(** * Machine integers *)

Definition int64_min : Z := - 2 ^ 63.
Definition int64_max : Z := 2 ^ 63 - 1.
Definition uint32_max : Z := 2 ^ 32 - 1.
Definition uint64_max : Z := 2 ^ 64 - 1.

Definition int64 (z : Z) : Prop := int64_min <= z <= int64_max.
Definition uint32 (z : Z) : Prop := 0 <= z <= uint32_max.
Definition uint64 (z : Z) : Prop := 0 <= z <= uint64_max.

(** Two's complement wrap-around of Go's [int64] and of [uint64]/[uint32]. *)
Definition wrap64 (z : Z) : Z := (z + 2 ^ 63) mod 2 ^ 64 - 2 ^ 63.
Definition wrapu64 (z : Z) : Z := z mod 2 ^ 64.
Definition wrapu32 (z : Z) : Z := z mod 2 ^ 32.

Definition add64 (a b : Z) : Z := wrap64 (a + b).
Definition sub64 (a b : Z) : Z := wrap64 (a - b).
Definition mul64 (a b : Z) : Z := wrap64 (a * b).

Ltac width := unfold int64, uint32, uint64, int64_min, int64_max, uint32_max, uint64_max in *.

Lemma wrap64_id z : int64 z -> wrap64 z = z.
Proof. width. unfold wrap64. intros H. rewrite Z.mod_small; lia. Qed.

Lemma wrap64_range z : int64 (wrap64 z).
Proof.
  width. unfold wrap64.
  pose proof (Z.mod_pos_bound (z + 2 ^ 63) (2 ^ 64) ltac:(lia)). lia.
Qed.

Lemma wrapu32_id z : uint32 z -> wrapu32 z = z.
Proof. width. unfold wrapu32. intros H. apply Z.mod_small. lia. Qed.

Lemma wrapu64_id z : uint64 z -> wrapu64 z = z.
Proof. width. unfold wrapu64. intros H. apply Z.mod_small. lia. Qed.

Lemma add64_id a b : int64 (a + b) -> add64 a b = a + b.
Proof. apply wrap64_id. Qed.
Lemma sub64_id a b : int64 (a - b) -> sub64 a b = a - b.
Proof. apply wrap64_id. Qed.
Lemma mul64_id a b : int64 (a * b) -> mul64 a b = a * b.
Proof. apply wrap64_id. Qed.

(** [arith64]: give [lia] the exactness conditions of every wrapped operation
    of the goal and the hypotheses, so that it can discharge the guards. *)
Ltac note_exact :=
  repeat match goal with
  | |- context [add64 ?a ?b] =>
      lazymatch goal with
      | _ : int64 (a + b) -> add64 a b = a + b |- _ => fail
      | _ => pose proof (add64_id a b) end
  | _ : context [add64 ?a ?b] |- _ =>
      lazymatch goal with
      | _ : int64 (a + b) -> add64 a b = a + b |- _ => fail
      | _ => pose proof (add64_id a b) end
  | |- context [sub64 ?a ?b] =>
      lazymatch goal with
      | _ : int64 (a - b) -> sub64 a b = a - b |- _ => fail
      | _ => pose proof (sub64_id a b) end
  | _ : context [sub64 ?a ?b] |- _ =>
      lazymatch goal with
      | _ : int64 (a - b) -> sub64 a b = a - b |- _ => fail
      | _ => pose proof (sub64_id a b) end
  end.
Ltac arith64 := note_exact; width; lia.

(** [bool_to_prop]: the boolean tests of a validator as propositions. *)
Ltac bool_to_prop :=
  repeat match goal with
  | H : (_ && _) = true |- _ => apply andb_prop in H as [? ?]
  | H : (_ || _) = false |- _ => apply orb_false_elim in H as [? ?]
  | H : negb _ = false |- _ => apply negb_false_iff in H
  | H : negb _ = true |- _ => apply negb_true_iff in H
  | H : String.eqb _ _ = true |- _ => apply String.eqb_eq in H
  | H : String.eqb _ _ = false |- _ => apply String.eqb_neq in H
  | H : bool_decide _ = true |- _ => apply bool_decide_eq_true in H
  | H : bool_decide _ = false |- _ => apply bool_decide_eq_false in H
  | H : (_ <? _) = true |- _ => apply Z.ltb_lt in H
  | H : (_ <? _) = false |- _ => apply Z.ltb_ge in H
  | H : (_ <=? _) = true |- _ => apply Z.leb_le in H
  | H : (_ <=? _) = false |- _ => apply Z.leb_gt in H
  | H : (_ =? _) = true |- _ => apply Z.eqb_eq in H
  | H : (_ =? _) = false |- _ => apply Z.eqb_neq in H
  end.
