(* ===== verification/Tx.v ===== *)
(** SQL statements and transactions.

    The store runs every operation as a sequence of statements over one SQLite
    connection, most of them between [BeginTx] and [Commit] with a deferred
    [Rollback].  Any statement can fail with an error of the driver (I/O,
    [busy], a cancelled context): a run takes the list of these outcomes,
    consumed one per statement, and an exhausted list means no more failures.

    [run_tx] is the [BeginTx] / [defer tx.Rollback()] / [Commit] pattern, and
    the lemmas of this file are the ones every store theorem uses: a run either
    fails and leaves the state as it was, or its body committed. *)
From S2P Require Import Prelude.

Abbreviation faults := (list (option string)).

(** [M S A]: a computation on a store of type [S] that can fail. *)
Definition M (S A : Type) : Type := faults -> S -> result (A * faults * S).

#[export] Instance m_ret {S} : MRet (M S) := fun A a io s => Ok (a, io, s).
#[export] Instance m_bind {S} : MBind (M S) := fun A B f m io s =>
  match m io s with
  | Ok (a, io', s') => f a io' s'
  | Err e => Err e
  end.

Section statements.
Context {S : Type}.

Definition fail {A} (e : error) : M S A := fun _ _ => Err e.

Definition of_result {A} (r : result A) : M S A := fun io s =>
  match r with Ok a => Ok (a, io, s) | Err e => Err e end.

(** The outcome of the next driver call. *)
Definition driver (io : faults) : result unit * faults :=
  match io with
  | [] => (Ok tt, [])
  | None :: io' => (Ok tt, io')
  | Some e :: io' => (Err (Foreign e), io')
  end.

(** One statement: the driver may refuse it, otherwise [f] gives its rows and
    the new tables, or the constraint it violates. [wrap] is the text the
    code puts in front of the driver's error. *)
Definition stmt {A} (wrap : error -> error) (f : S -> result (A * S)) : M S A :=
  fun io s =>
    match driver io with
    | (Err e, _) => Err (wrap e)
    | (Ok _, io') =>
        match f s with
        | Ok (a, s') => Ok (a, io', s')
        | Err e => Err (wrap e)
        end
    end.

Definition query {A} (wrap : error -> error) (f : S -> result A) : M S A :=
  stmt wrap (fun s => a ← f s; Ok (a, s)).

(** How the body of a transaction ends without an error: with [tx.Commit()]
    or by returning first, which rolls back. *)
Inductive tx_end (A : Type) : Type :=
  | Commit (a : A)
  | Rollback (a : A).
Arguments Commit {A} a.
Arguments Rollback {A} a.

Definition run_tx {A} (wbegin wcommit : error -> error) (body : M S (tx_end A))
    (io : faults) (s : S) : result A * S :=
  match driver io with
  | (Err e, _) => (Err (wbegin e), s)
  | (Ok _, io1) =>
      match body io1 s with
      | Err e => (Err e, s)
      | Ok (Rollback a, _, _) => (Ok a, s)
      | Ok (Commit a, io2, s') =>
          match driver io2 with
          | (Err e, _) => (Err (wcommit e), s)
          | (Ok _, _) => (Ok a, s')
          end
      end
  end.

(** A statement sequence outside a transaction: every statement that ran
    stays, so the bodies run this way write in at most their last statement. *)
Definition run_auto {A} (body : M S A) (io : faults) (s : S) : result A * S :=
  match body io s with
  | Ok (a, _, s') => (Ok a, s')
  | Err e => (Err e, s)
  end.
End statements.
Arguments Commit {A} a.
Arguments Rollback {A} a.

Section inversion.
Context {S : Type}.
Implicit Types (io : faults) (s : S).

Lemma m_bind_ok {A B} (m : M S A) (f : A -> M S B) io s b io2 s2 :
  (m ≫= f) io s = Ok (b, io2, s2) <->
  exists a io1 s1, m io s = Ok (a, io1, s1) /\ f a io1 s1 = Ok (b, io2, s2).
Proof.
  unfold mbind, m_bind. destruct (m io s) as [[[a io1] s1]|e]; naive_solver.
Qed.

Lemma m_ret_ok {A} (a b : A) io s io2 s2 :
  (mret a : M S A) io s = Ok (b, io2, s2) <-> b = a /\ io2 = io /\ s2 = s.
Proof. unfold mret, m_ret. naive_solver. Qed.

Lemma fail_ok {A} e io s (b : A) io2 s2 :
  fail e io s = Ok (b, io2, s2) <-> False.
Proof. unfold fail. naive_solver. Qed.

Lemma of_result_ok {A} (r : result A) io s b io2 s2 :
  of_result r io s = Ok (b, io2, s2) <-> r = Ok b /\ io2 = io /\ s2 = s.
Proof. unfold of_result. destruct r; naive_solver. Qed.

Lemma stmt_ok {A} w (f : S -> result (A * S)) io s b io2 s2 :
  stmt w f io s = Ok (b, io2, s2) -> f s = Ok (b, s2).
Proof.
  unfold stmt, driver. destruct io as [|[e|] io]; [|discriminate|];
    destruct (f s) as [[a s']|e']; naive_solver.
Qed.

Lemma query_ok {A} w (f : S -> result A) io s b io2 s2 :
  query w f io s = Ok (b, io2, s2) -> f s = Ok b /\ s2 = s.
Proof.
  intros H%stmt_ok. destruct (f s) as [a|e]; cbn in H; naive_solver.
Qed.

(** A transaction fails or rolls back and nothing changed, or its body
    reached [Commit] and its writes are the new tables. *)
Lemma run_tx_cases {A} wb wc (body : M S (tx_end A)) io s r s' :
  run_tx wb wc body io s = (r, s') ->
  (s' = s /\ exists e, r = Err e) \/
  (s' = s /\ exists a io1 io2 s2, r = Ok a /\ body io1 s = Ok (Rollback a, io2, s2)) \/
  (exists a io1 io2, r = Ok a /\ body io1 s = Ok (Commit a, io2, s')).
Proof.
  unfold run_tx. destruct (driver io) as [[u|e] io1]; [|naive_solver].
  destruct (body io1 s) as [[[[a|a] io2] s2]|e] eqn:Hb; [|naive_solver|naive_solver].
  destruct (driver io2) as [[u'|e] io3]; naive_solver.
Qed.

Lemma run_tx_err_unchanged {A} wb wc (body : M S (tx_end A)) io s e s' :
  run_tx wb wc body io s = (Err e, s') -> s' = s.
Proof. intros [?|[(?&?&?&?&?&?&?)|(?&?&?&?&?)]]%run_tx_cases; naive_solver. Qed.

(** The run of a transaction in which the driver never fails. *)
Lemma run_tx_no_faults {A} wb wc (body : M S (tx_end A)) s :
  run_tx wb wc body [] s =
  match body [] s with
  | Err e => (Err e, s)
  | Ok (Rollback a, _, _) => (Ok a, s)
  | Ok (Commit a, io2, s') =>
      match driver io2 with
      | (Err e, _) => (Err (wc e), s)
      | (Ok _, _) => (Ok a, s')
      end
  end.
Proof. reflexivity. Qed.

Lemma run_auto_cases {A} (body : M S A) io s r s' :
  run_auto body io s = (r, s') ->
  (s' = s /\ exists e, r = Err e) \/
  (exists a io2, r = Ok a /\ body io s = Ok (a, io2, s')).
Proof.
  unfold run_auto. destruct (body io s) as [[[a io2] s2]|e]; naive_solver.
Qed.
End inversion.

(** [tx_inv]: take apart every hypothesis that says a body of statements
    succeeded, down to what each statement read and wrote. *)
Ltac tx_step :=
  match goal with
  | H : (_ ≫= _) _ _ = Ok _ |- _ =>
      apply m_bind_ok in H; destruct H as (? & ? & ? & ? & H)
  | H : mret _ _ _ = Ok _ |- _ => apply m_ret_ok in H; destruct H as (? & ? & ?)
  | H : fail _ _ _ = Ok _ |- _ => apply fail_ok in H; destruct H
  | H : of_result _ _ _ = Ok _ |- _ => apply of_result_ok in H; destruct H as (? & ? & ?)
  | H : query _ _ _ _ = Ok _ |- _ => apply query_ok in H; destruct H as (? & ?)
  | H : stmt _ _ _ _ = Ok _ |- _ => apply stmt_ok in H
  | H : (if ?c then _ else _) _ _ = Ok _ |- _ => destruct c eqn:?
  | H : (match ?c with _ => _ end) _ _ = Ok _ |- _ => destruct c eqn:?
  | H : Err _ = Ok _ |- _ => discriminate H
  | H : Ok _ = Ok _ |- _ => injection H as H
  end; simplify_eq/=.
Ltac tx_inv := repeat tx_step.
