(* ===== verification/GoString.v ===== *)
(** Go strings: byte sequences, with the parts of [strings], [strconv],
    [encoding/hex] and [regexp] the source uses on them.

    A Go string is a sequence of bytes, here a [string] of 8-bit characters.
    [TrimSpace] is exact, multi-byte UTF-8 spaces included. [ToLower] is exact
    for every comparison the source makes with it: the operands it is compared
    with are ASCII, and the two non-ASCII letters with an ASCII lower case
    (U+0130 and U+212A) are folded too; other non-ASCII letters are left alone. *)
From S2P Require Import Prelude.

Abbreviation bytes := (list ascii).

Definition to_bytes (s : string) : bytes := String.list_ascii_of_string s.
Definition of_bytes (l : bytes) : string := String.string_of_list_ascii l.

Definition code (c : ascii) : Z := Z.of_N (Ascii.N_of_ascii c).
Definition in_range (lo hi : Z) (c : ascii) : bool := (lo <=? code c) && (code c <=? hi).

Definition len (s : string) : Z := Z.of_nat (String.length s).

(** * strings.TrimSpace *)

Definition ascii_space (c : ascii) : bool := in_range 9 13 c || (code c =? 32).
(** UTF-8 encodings of the other code points of [unicode.IsSpace]: U+0085,
    U+00A0; U+1680, U+2000-U+200A, U+2028, U+2029, U+202F, U+205F, U+3000. *)
Definition space2 (a b : ascii) : bool :=
  (code a =? 194) && ((code b =? 133) || (code b =? 160)).
Definition space3 (a b c : ascii) : bool :=
  ((code a =? 225) && (code b =? 154) && (code c =? 128)) ||
  ((code a =? 226) && (code b =? 128) &&
     (in_range 128 138 c || (code c =? 168) || (code c =? 169) || (code c =? 175))) ||
  ((code a =? 226) && (code b =? 129) && (code c =? 159)) ||
  ((code a =? 227) && (code b =? 128) && (code c =? 128)).

Fixpoint trim_front (s2 : ascii -> ascii -> bool) (s3 : ascii -> ascii -> ascii -> bool)
    (l : bytes) : bytes :=
  match l with
  | [] => []
  | a :: l1 =>
      if ascii_space a then trim_front s2 s3 l1
      else match l1 with
           | b :: l2 =>
               if s2 a b then trim_front s2 s3 l2
               else match l2 with
                    | c :: l3 => if s3 a b c then trim_front s2 s3 l3 else l
                    | [] => l
                    end
           | [] => l
           end
  end.

Definition TrimSpace (s : string) : string :=
  let front := trim_front space2 space3 (to_bytes s) in
  of_bytes (rev (trim_front (fun a b => space2 b a) (fun a b c => space3 c b a) (rev front))).

(** * strings.ToLower, strings.EqualFold *)

Definition lower_byte (c : ascii) : ascii :=
  if in_range 65 90 c then Ascii.ascii_of_N (Ascii.N_of_ascii c + 32) else c.

Fixpoint lower_bytes (l : bytes) : bytes :=
  match l with
  | [] => []
  | a :: l1 =>
      match l1 with
      | b :: l2 =>
          if (code a =? 196) && (code b =? 176) then "i"%char :: lower_bytes l2
          else match l2 with
               | c :: l3 =>
                   if (code a =? 226) && (code b =? 132) && (code c =? 170)
                   then "k"%char :: lower_bytes l3
                   else lower_byte a :: lower_bytes l1
               | [] => lower_byte a :: lower_bytes l1
               end
      | [] => lower_byte a :: lower_bytes l1
      end
  end.
Definition ToLower (s : string) : string := of_bytes (lower_bytes (to_bytes s)).

(** Simple folding onto lower-case ASCII: letters, U+212A (k), U+017F (s). *)
Fixpoint fold_bytes (l : bytes) : bytes :=
  match l with
  | [] => []
  | a :: l1 =>
      match l1 with
      | b :: l2 =>
          if (code a =? 197) && (code b =? 191) then "s"%char :: fold_bytes l2
          else match l2 with
               | c :: l3 =>
                   if (code a =? 226) && (code b =? 132) && (code c =? 170)
                   then "k"%char :: fold_bytes l3
                   else lower_byte a :: fold_bytes l1
               | [] => lower_byte a :: fold_bytes l1
               end
      | [] => lower_byte a :: fold_bytes l1
      end
  end.
Definition EqualFold (s t : string) : bool :=
  bool_decide (fold_bytes (to_bytes s) = fold_bytes (to_bytes t)).

(** * Prefixes, substrings, cutting *)

Definition HasPrefix (s prefix : string) : bool := String.prefix prefix s.

Fixpoint Contains (s sub : string) : bool :=
  String.prefix sub s ||
  match s with EmptyString => false | String _ s' => Contains s' sub end.

(** [strings.Cut] and [strings.Split] at a one-byte separator. *)
Fixpoint Cut (s : string) (sep : ascii) : string * string * bool :=
  match s with
  | EmptyString => (EmptyString, EmptyString, false)
  | String c s' =>
      if Ascii.eqb c sep then (EmptyString, s', true)
      else let '(before, after, found) := Cut s' sep in (String c before, after, found)
  end.

Fixpoint Split (s : string) (sep : ascii) : list string :=
  match s with
  | EmptyString => [EmptyString]
  | String c s' =>
      if Ascii.eqb c sep then EmptyString :: Split s' sep
      else match Split s' sep with
           | hd :: tl => String c hd :: tl
           | [] => [String c EmptyString]
           end
  end.

(** [strings.Trim(s, cut)] for a one-byte cut set. *)
Fixpoint drop_while (f : ascii -> bool) (l : bytes) : bytes :=
  match l with a :: l' => if f a then drop_while f l' else l | [] => [] end.
Definition TrimByte (s : string) (c : ascii) : string :=
  let front := drop_while (Ascii.eqb c) (to_bytes s) in
  of_bytes (rev (drop_while (Ascii.eqb c) (rev front))).

Definition quote (s : string) : string :=
  String (Ascii.ascii_of_N 34) (s +:+ String (Ascii.ascii_of_N 34) EmptyString).

(** * Character classes and the source's regular expressions *)

Definition is_digit (c : ascii) : bool := in_range 48 57 c.
Definition is_lower (c : ascii) : bool := in_range 97 122 c.
Definition is_upper (c : ascii) : bool := in_range 65 90 c.
Definition is_alnum (c : ascii) : bool := is_digit c || is_lower c || is_upper c.
Definition is_lower_hex (c : ascii) : bool := is_digit c || in_range 97 102 c.
Definition is_hex (c : ascii) : bool := is_lower_hex c || in_range 65 70 c.
Definition one_of (set : string) (c : ascii) : bool :=
  existsb (Ascii.eqb c) (to_bytes set).

Definition all_bytes (f : ascii -> bool) (s : string) : bool := forallb f (to_bytes s).

(** [^[first][rest]{0,n}$] *)
Definition ident_re (first rest : ascii -> bool) (n : Z) (s : string) : bool :=
  match s with
  | EmptyString => false
  | String c s' => first c && all_bytes rest s' && (len s' <=? n)
  end.

(** [^[0-9a-f]{64}$] *)
Definition lower_hex64 (s : string) : bool := (len s =? 64) && all_bytes is_lower_hex s.

(** * strconv *)

Fixpoint digits_value (acc : Z) (l : bytes) : option Z :=
  match l with
  | [] => Some acc
  | c :: l' => if is_digit c then digits_value (acc * 10 + (code c - 48)) l' else None
  end.

(** [strconv.ParseUint(s, 10, bits)]. *)
Definition ParseUint (s : string) (bits : Z) : option Z :=
  match s with
  | EmptyString => None
  | _ => v ← digits_value 0 (to_bytes s); if v <? 2 ^ bits then Some v else None
  end.

(** [strconv.ParseInt(s, 10, 64)]. *)
Definition ParseInt (s : string) : option Z :=
  match s with
  | EmptyString => None
  | String c s' =>
      let neg := Ascii.eqb c "-" in
      let body := if neg || Ascii.eqb c "+" then s' else s in
      v ← ParseUint body 64;
      if neg then (if v <=? 2 ^ 63 then Some (- v) else None)
      else (if v <? 2 ^ 63 then Some v else None)
  end.

(** [hex.DecodeString] succeeds. *)
Definition hex_ok (s : string) : bool := Z.even (len s) && all_bytes is_hex s.

(** 64 lower-case hexadecimal characters, the way the source checks it with
    [hex.DecodeString] and [strings.ToLower]. *)
Definition lower_hex32_bytes (s : string) : bool :=
  (len s =? 64) && hex_ok s && String.eqb s (ToLower s).

(** * Lemmas *)

Lemma lower_byte_hex c : is_hex c = true -> lower_byte c = c <-> is_lower_hex c = true.
Proof. revert c. by intros [[] [] [] [] [] [] [] []]; vm_compute. Qed.

Lemma is_hex_code c : is_hex c = true -> code c < 128.
Proof. by destruct c as [[] [] [] [] [] [] [] []]; vm_compute. Qed.

Lemma is_lower_hex_is_hex c : is_lower_hex c = true -> is_hex c = true.
Proof. unfold is_hex. intros ->. done. Qed.

Lemma lower_bytes_cons a l :
  code a < 128 -> lower_bytes (a :: l) = lower_byte a :: lower_bytes l.
Proof.
  intros Ha. destruct l as [|b [|c l]]; [done| |];
    cbn [lower_bytes]; rewrite (proj2 (Z.eqb_neq (code a) 196)) by lia; [done|].
  rewrite (proj2 (Z.eqb_neq (code a) 226)) by lia. done.
Qed.

Lemma lower_bytes_ascii l :
  forallb (fun c => code c <? 128) l = true -> lower_bytes l = map lower_byte l.
Proof.
  induction l as [|a l IH]; [done|]. cbn [forallb].
  intros [Ha%Z.ltb_lt Hl]%andb_prop. rewrite lower_bytes_cons, IH by done. done.
Qed.

Lemma of_to_bytes s : of_bytes (to_bytes s) = s.
Proof. apply String.string_of_list_ascii_of_string. Qed.
Lemma to_of_bytes l : to_bytes (of_bytes l) = l.
Proof. apply String.list_ascii_of_string_of_list_ascii. Qed.

Lemma forallb_impl {A} (f g : A -> bool) l :
  (forall a, f a = true -> g a = true) -> forallb f l = true -> forallb g l = true.
Proof. intros H. rewrite !forallb_forall. auto. Qed.

(** The [hex.DecodeString] + [ToLower] test is the regular expression. *)
Lemma lower_hex32_bytes_spec s : lower_hex32_bytes s = lower_hex64 s.
Proof.
  unfold lower_hex32_bytes, lower_hex64, hex_ok.
  destruct (Z.eqb_spec (len s) 64) as [Hlen|]; [|done].
  rewrite Hlen. cbn [andb]. change (Z.even 64) with true. cbn [andb].
  unfold all_bytes, ToLower. apply eq_true_iff_eq.
  rewrite andb_true_iff, String.eqb_eq. split.
  - intros [Hhex Hlow].
    assert (Hl : lower_bytes (to_bytes s) = to_bytes s)
      by (rewrite Hlow at 2; by rewrite to_of_bytes).
    rewrite lower_bytes_ascii in Hl.
    2: { revert Hhex. apply forallb_impl. intros c Hc. apply Z.ltb_lt. by apply is_hex_code. }
    revert Hhex Hl. generalize (to_bytes s) as l. clear.
    induction l as [|a l IH]; [done|]. cbn. rewrite !andb_true_iff.
    intros [Ha Hl] [=Hla Hll]. split; [by apply lower_byte_hex|by apply IH].
  - intros Hlow. assert (Hhex : forallb is_hex (to_bytes s) = true)
      by (revert Hlow; apply forallb_impl; apply is_lower_hex_is_hex).
    split; [done|].
    rewrite lower_bytes_ascii.
    2: { revert Hhex. apply forallb_impl. intros c Hc. apply Z.ltb_lt. by apply is_hex_code. }
    rewrite <- (of_to_bytes s) at 1. f_equal. symmetry.
    revert Hlow. generalize (to_bytes s) as l. clear.
    induction l as [|a l IH]; [done|]. cbn. rewrite andb_true_iff.
    intros [Ha Hl]. rewrite IH by done. f_equal.
    apply lower_byte_hex; [by apply is_lower_hex_is_hex|done].
Qed.

Example TrimSpace_ex : TrimSpace " a b  " = "a b"%string.
Proof. reflexivity. Qed.
Example ToLower_ex : ToLower "MainNet" = "mainnet"%string.
Proof. reflexivity. Qed.

Lemma lower_byte_is_hex c : is_hex c = true -> is_lower_hex (lower_byte c) = true.
Proof. destruct c as [[] [] [] [] [] [] [] []]; vm_compute; congruence. Qed.

Lemma code_inj c d : code c = code d -> c = d.
Proof.
  unfold code. intros H%N2Z.inj.
  rewrite <- (Ascii.ascii_N_embedding c), <- (Ascii.ascii_N_embedding d). by rewrite H.
Qed.

Lemma is_digit_code c : is_digit c = true -> 48 <= code c <= 57.
Proof. unfold is_digit, in_range. lia. Qed.

Lemma digits_value_bounds acc l v :
  digits_value acc l = Some v ->
  acc * 10 ^ Z.of_nat (length l) <= v < (acc + 1) * 10 ^ Z.of_nat (length l).
Proof.
  revert acc. induction l as [|c l IH]; intros acc; cbn [digits_value length].
  { intros [= <-]. lia. }
  destruct (is_digit c) eqn:Hc; [|done]. intros Hv. apply is_digit_code in Hc.
  specialize (IH _ Hv). rewrite Nat2Z.inj_succ, Z.pow_succ_r by lia. nia.
Qed.

Lemma digits_value_inj l1 l2 a b v :
  length l1 = length l2 ->
  digits_value a l1 = Some v -> digits_value b l2 = Some v -> a = b /\ l1 = l2.
Proof.
  revert l2 a b. induction l1 as [|c l1 IH]; intros [|d l2] a b Hlen; try discriminate Hlen;
    cbn [digits_value].
  { naive_solver. }
  injection Hlen as Hlen.
  destruct (is_digit c) eqn:Hc, (is_digit d) eqn:Hd; [|done..].
  apply is_digit_code in Hc, Hd. intros H1 H2.
  destruct (IH _ _ _ Hlen H1 H2) as [? ->].
  assert (code c = code d) as ?%code_inj by lia. split; [lia|by subst].
Qed.

(** A decimal number without a needless leading zero. *)
Definition canonical_decimal (s : string) : Prop :=
  s <> ""%string /\ (1 < len s -> head (to_bytes s) <> Some "0"%char).

Lemma length_to_bytes s : length (to_bytes s) = String.length s.
Proof. induction s; cbn; [done|]. by f_equal. Qed.

(** Hexadecimal text in lower case. *)
Lemma ToLower_hex s : all_bytes is_hex s = true ->
  all_bytes is_lower_hex (ToLower s) = true /\ String.length (ToLower s) = String.length s.
Proof.
  unfold all_bytes, ToLower. intros Hs. rewrite to_of_bytes, lower_bytes_ascii.
  2: { revert Hs. apply forallb_impl. intros c Hc. apply Z.ltb_lt. by apply is_hex_code. }
  rewrite <- length_to_bytes, to_of_bytes, length_map, length_to_bytes. split; [|done].
  revert Hs. generalize (to_bytes s). induction l as [|c l IH]; [done|]. cbn. rewrite !andb_true_iff.
  intros [Hc Hl]. split; [by apply lower_byte_is_hex|by apply IH].
Qed.

Lemma canonical_decimal_bound s v :
  canonical_decimal s -> digits_value 0 (to_bytes s) = Some v ->
  (1 < len s -> 10 ^ (len s - 1) <= v) /\ v < 10 ^ len s.
Proof.
  intros [_ Hlead] Hv. pose proof (digits_value_bounds _ _ _ Hv) as Hb.
  rewrite length_to_bytes in Hb. unfold len in *. split; [|lia].
  intros Hl. specialize (Hlead Hl). destruct s as [|c s]; [cbn in Hl; lia|].
  cbn [to_bytes String.list_ascii_of_string digits_value head] in *.
  destruct (is_digit c) eqn:Hc; [|done]. apply is_digit_code in Hc.
  apply digits_value_bounds in Hv. rewrite length_to_bytes in Hv.
  assert (code c <> 48). { intros E. apply Hlead. f_equal. apply code_inj. by rewrite E. }
  cbn [String.length]. replace (Z.of_nat (S (String.length s)) - 1) with (Z.of_nat (String.length s)) by lia.
  pose proof (Z.pow_pos_nonneg 10 (Z.of_nat (String.length s))). nia.
Qed.

(** Two canonical decimals of the same value are the same text. *)
Lemma canonical_decimal_inj s t v :
  canonical_decimal s -> canonical_decimal t ->
  digits_value 0 (to_bytes s) = Some v -> digits_value 0 (to_bytes t) = Some v -> s = t.
Proof.
  intros Hs Ht Hvs Hvt.
  pose proof (canonical_decimal_bound _ _ Hs Hvs) as [Hs1 Hs2].
  pose proof (canonical_decimal_bound _ _ Ht Hvt) as [Ht1 Ht2].
  assert (Hpos : forall u : string, u <> ""%string -> 1 <= len u).
  { intros [|c u] ?; [done|]. unfold len. cbn [String.length]. lia. }
  pose proof (Hpos _ (proj1 Hs)). pose proof (Hpos _ (proj1 Ht)).
  assert (Hlen : len s = len t).
  { destruct (Z.lt_trichotomy (len s) (len t)) as [?|[?|?]]; [exfalso|done|exfalso].
    - pose proof (Z.pow_le_mono_r 10 (len s) (len t - 1)). lia.
    - pose proof (Z.pow_le_mono_r 10 (len t) (len s - 1)). lia. }
  rewrite <- (of_to_bytes s), <- (of_to_bytes t). f_equal.
  eapply digits_value_inj; [|done|done]. rewrite !length_to_bytes. unfold len in Hlen. lia.
Qed.

Lemma ParseUint_digits s bits v :
  ParseUint s bits = Some v -> digits_value 0 (to_bytes s) = Some v /\ v < 2 ^ bits.
Proof.
  unfold ParseUint. destruct s as [|c s]; [done|].
  intros (w & Hw & Hif)%bind_Some. case_match eqn:Hlt; [|done]. simplify_eq.
  split; [done|]. by apply Z.ltb_lt.
Qed.

Lemma ParseUint_range s bits v : ParseUint s bits = Some v -> 0 <= v < 2 ^ bits.
Proof.
  intros H. apply ParseUint_digits in H as [Hd Hlt]. split; [|done].
  apply digits_value_bounds in Hd; lia.
Qed.

Lemma ParseInt_range s v : ParseInt s = Some v -> int64 v.
Proof.
  unfold ParseInt. destruct s as [|c s]; [done|]. destruct (ParseUint _ 64) as [u|] eqn:Hu; [|done].
  apply ParseUint_range in Hu. cbn [mbind option_bind].
  repeat case_match; intros [= <-]; bool_to_prop; width; lia.
Qed.

Lemma Cut_found s sep before after :
  Cut s sep = (before, after, true) -> s = before +:+ String sep after.
Proof.
  revert before after. induction s as [|c s IH]; intros before after; cbn; [done|].
  destruct (Ascii.eqb_spec c sep) as [->|Hc]; [by intros [= <- <-]|].
  destruct (Cut s sep) as [[b a] f]. intros [= <- <- ->].
  by rewrite (IH _ _ eq_refl).
Qed.

(** A list [trim_front] leaves alone. *)
Definition front_trimmed (s2 : ascii -> ascii -> bool) (s3 : ascii -> ascii -> ascii -> bool) (l : bytes) : bool :=
  match l with
  | [] => true
  | a :: l1 => negb (ascii_space a) && match l1 with
      | [] => true
      | b :: l2 => negb (s2 a b) && match l2 with [] => true | c :: _ => negb (s3 a b c) end
      end
  end.

Lemma trim_front_trimmed s2 s3 l : front_trimmed s2 s3 (trim_front s2 s3 l) = true.
Proof.
  induction l as [l IH] using (well_founded_induction (Wf_nat.well_founded_ltof _ (@length ascii))).
  unfold Wf_nat.ltof in IH. destruct l as [|a [|b [|c l]]]; cbn; [done| | |].
  - destruct (ascii_space a) eqn:Ha; cbn; [done|by rewrite Ha].
  - destruct (ascii_space a) eqn:Ha; [apply (IH [b]); cbn; lia|].
    destruct (s2 a b) eqn:Hb; [done|]. cbn. by rewrite Ha, Hb.
  - destruct (ascii_space a) eqn:Ha; [apply (IH (b :: c :: l)); cbn; lia|].
    destruct (s2 a b) eqn:Hb; [apply (IH (c :: l)); cbn; lia|].
    destruct (s3 a b c) eqn:Hc; [apply IH; cbn; lia|]. cbn. by rewrite Ha, Hb, Hc.
Qed.

Lemma trim_front_id s2 s3 l : front_trimmed s2 s3 l = true -> trim_front s2 s3 l = l.
Proof.
  destruct l as [|a [|b [|c l]]]; cbn; intros H; bool_to_prop;
    repeat match goal with H : _ = false |- _ => rewrite H; clear H end; done.
Qed.

Lemma front_trimmed_prefix s2 s3 l l' :
  front_trimmed s2 s3 (l ++ l') = true -> front_trimmed s2 s3 l = true.
Proof.
  destruct l as [|a [|b [|c l]]]; cbn; intros H; bool_to_prop;
    repeat match goal with H : _ = false |- _ => rewrite H; clear H end; done.
Qed.

Lemma trim_front_suffix s2 s3 l : exists p, l = p ++ trim_front s2 s3 l.
Proof.
  induction l as [l IH] using (well_founded_induction (Wf_nat.well_founded_ltof _ (@length ascii))).
  unfold Wf_nat.ltof in IH.
  assert (Hstep : forall p r, l = p ++ r -> (0 < length p)%nat -> trim_front s2 s3 l = trim_front s2 s3 r ->
            exists q, l = q ++ trim_front s2 s3 l).
  { intros p r -> Hp ->. destruct (IH r) as [q Hq]; [rewrite length_app; lia|].
    exists (p ++ q). by rewrite <- app_assoc, <- Hq. }
  destruct (front_trimmed s2 s3 l) eqn:Hf; [exists []; by rewrite trim_front_id|].
  destruct l as [|a [|b [|c l]]]; cbn in Hf; [done| | |].
  - destruct (ascii_space a) eqn:Ha; [|done]. apply (Hstep [a] []); [done|cbn; lia|cbn; by rewrite Ha].
  - destruct (ascii_space a) eqn:Ha; [apply (Hstep [a] [b]); [done|cbn; lia|cbn; by rewrite Ha]|].
    destruct (s2 a b) eqn:Hb; [|done]. apply (Hstep [a; b] []); [done|cbn; lia|cbn; by rewrite Ha, Hb].
  - destruct (ascii_space a) eqn:Ha; [apply (Hstep [a] (b :: c :: l)); [done|cbn; lia|cbn; by rewrite Ha]|].
    destruct (s2 a b) eqn:Hb; [apply (Hstep [a; b] (c :: l)); [done|cbn; lia|cbn; by rewrite Ha, Hb]|].
    destruct (s3 a b c) eqn:Hc; [|done].
    apply (Hstep [a; b; c] l); [done|cbn; lia|cbn; by rewrite Ha, Hb, Hc].
Qed.

Lemma TrimSpace_idem s : TrimSpace (TrimSpace s) = TrimSpace s.
Proof.
  unfold TrimSpace. rewrite !to_of_bytes.
  set (t2 := fun a b => space2 b a). set (t3 := fun a b c => space3 c b a).
  set (front := trim_front space2 space3 (to_bytes s)).
  set (back := trim_front t2 t3 (rev front)).
  destruct (trim_front_suffix t2 t3 (rev front)) as [p Hp]. fold back in Hp.
  assert (Hfr : front = rev back ++ rev p) by (rewrite <- rev_app_distr, <- Hp; by rewrite rev_involutive).
  rewrite (trim_front_id space2 space3 (rev back)).
  - rewrite rev_involutive. rewrite trim_front_id; [done|]. apply trim_front_trimmed.
  - apply front_trimmed_prefix with (rev p). rewrite <- Hfr. apply trim_front_trimmed.
Qed.

(** A byte that neither is a space nor can be part of one. *)
Definition plain_byte (c : ascii) : bool := negb (ascii_space c) && (code c <? 128).

Lemma front_trimmed_plain l :
  forallb plain_byte l = true ->
  front_trimmed space2 space3 l = true /\
  front_trimmed (fun a b => space2 b a) (fun a b c => space3 c b a) l = true.
Proof.
  intros Hl.
  assert (H2 : forall a b, code a < 128 -> space2 a b = false).
  { intros a b Ha. unfold space2. destruct (Z.eqb_spec (code a) 194); [lia|done]. }
  assert (H3 : forall a b c, code a < 128 -> space3 a b c = false).
  { intros a b c Ha. unfold space3. destruct (Z.eqb_spec (code a) 225), (Z.eqb_spec (code a) 226),
      (Z.eqb_spec (code a) 227); try lia; done. }
  unfold plain_byte in Hl. destruct l as [|a [|b [|c l]]]; cbn in *; bool_to_prop;
    rewrite ?H2, ?H3 by done; repeat match goal with H : ascii_space _ = false |- _ => rewrite H; clear H end; done.
Qed.

Lemma TrimSpace_plain s : all_bytes plain_byte s = true -> TrimSpace s = s.
Proof.
  unfold all_bytes, TrimSpace. intros Hs.
  rewrite (trim_front_id space2 space3) by by apply front_trimmed_plain.
  rewrite trim_front_id; [by rewrite rev_involutive, of_to_bytes|].
  apply front_trimmed_plain. rewrite forallb_forall in *. intros c Hc%in_rev. auto.
Qed.

Lemma lower_hex_plain c : is_lower_hex c = true -> plain_byte c = true.
Proof.
  unfold is_lower_hex, is_digit, plain_byte, ascii_space, in_range. intros H.
  destruct (Z.leb_spec 9 (code c)), (Z.leb_spec (code c) 13), (Z.eqb_spec (code c) 32),
    (Z.leb_spec 48 (code c)), (Z.leb_spec (code c) 57), (Z.leb_spec 97 (code c)),
    (Z.leb_spec (code c) 102), (Z.ltb_spec (code c) 128); cbn in *; try done; lia.
Qed.
