(* ===== verification/GoTime.v ===== *)
(** What the program uses of Go's [time] package: the saturating difference of
    two instants and the RFC 3339 text with nanoseconds that every timestamp
    column and audit entry holds.  An instant is the number of nanoseconds since
    Go's zero time, 1 January of year 1, UTC. *)
From S2P Require Import Prelude GoString.

Definition time := Z.

Definition IsZero (t : time) : bool := t =? 0.

(** [now.Sub(t)]: a [time.Duration], which saturates. *)
Definition Sub (now t : time) : Z := Z.max int64_min (Z.min int64_max (now - t)).

Definition nanosecond : Z := 1.
Definition second : Z := 1000000000.
Definition minute : Z := 60 * second.

(** [time.Unix(0, 0)]. *)
Definition unix_epoch : time := 62135596800 * second.

(** [time.Unix(sec, 0)]. *)
Definition Unix (sec : Z) : time := unix_epoch + sec * second.

(** The [n] last decimal digits of [z], most significant first. *)
Fixpoint digits (n : nat) (z : Z) : list ascii :=
  match n with
  | O => []
  | S n' => digits n' (z / 10) ++ [ascii_of_N (Z.to_N (48 + z mod 10))]
  end.

Fixpoint trim_zeros (l : list ascii) : list ascii :=
  match l with
  | [] => []
  | c :: l' => match trim_zeros l' with
               | [] => if bool_decide (c = "0"%char) then [] else [c]
               | t => c :: t
               end
  end.

(** Year, month and day of a day number, counted from 1 January of year 1
    (proleptic Gregorian calendar, years that begin in March). *)
Definition civil (day : Z) : Z * Z * Z :=
  let z := day + 306 in
  let era := z / 146097 in
  let doe := z mod 146097 in
  let yoe := (doe - doe / 1460 + doe / 36524 - doe / 146096) / 365 in
  let doy := doe - (365 * yoe + yoe / 4 - yoe / 100) in
  let mp := (5 * doy + 2) / 153 in
  let d := doy - (153 * mp + 2) / 5 + 1 in
  let m := if mp <? 10 then mp + 3 else mp - 9 in
  (yoe + era * 400 + (if m <=? 2 then 1 else 0), m, d).

Definition FormatRFC3339Nano (t : time) : string :=
  let secs := t / second in
  let '(y, m, d) := civil (secs / 86400) in
  let s := secs mod 86400 in
  let fraction := match trim_zeros (digits 9 (t mod second)) with
                  | [] => []
                  | l => "."%char :: l
                  end in
  of_bytes (digits 4 y ++ ["-"%char] ++ digits 2 m ++ ["-"%char] ++ digits 2 d ++ ["T"%char]
            ++ digits 2 (s / 3600) ++ [":"%char] ++ digits 2 (s / 60 mod 60) ++ [":"%char]
            ++ digits 2 (s mod 60) ++ fraction ++ ["Z"%char]).

(** [Time.UTC().String()]. *)
Definition time_String (t : time) : string :=
  let text := FormatRFC3339Nano t in
  String.substring 0 10 text +:+ " " +:+ String.substring 11 (String.length text - 12) text +:+ " +0000 UTC".

Example format_zero : FormatRFC3339Nano 0 = "0001-01-01T00:00:00Z"%string.
Proof. reflexivity. Qed.
Example format_epoch : FormatRFC3339Nano unix_epoch = "1970-01-01T00:00:00Z"%string.
Proof. reflexivity. Qed.
Example format_leap_day :
  FormatRFC3339Nano (Unix 1709210096 + 120300000) = "2024-02-29T12:34:56.1203Z"%string.
Proof. vm_compute. reflexivity. Qed.
Example time_String_example : time_String (Unix 1709210096 + 120300000) = "2024-02-29 12:34:56.1203 +0000 UTC"%string.
Proof. vm_compute. reflexivity. Qed.
