(* ===== verification/Sha256.v ===== *)
(** SHA-256 (FIPS 180-4) and HMAC-SHA-256, as [crypto/sha256] and [crypto/hmac]
    compute them, over the bytes of a string; [hex.EncodeToString].  The
    installation identity, the address mapping checksum, the receipt digests and
    the cursor signatures of the gateway are built from these. *)
From S2P Require Import Prelude GoString.

(** * 32-bit words *)

Definition w32 (z : Z) : Z := z mod 4294967296.
Definition rotr (n x : Z) : Z := Z.lor (Z.shiftr x n) (w32 (Z.shiftl x (32 - n))).

Definition Ch (x y z : Z) : Z := Z.lxor (Z.land x y) (Z.land (4294967295 - x) z).
Definition Maj (x y z : Z) : Z := Z.lxor (Z.lxor (Z.land x y) (Z.land x z)) (Z.land y z).
Definition Sigma0 (x : Z) : Z := Z.lxor (Z.lxor (rotr 2 x) (rotr 13 x)) (rotr 22 x).
Definition Sigma1 (x : Z) : Z := Z.lxor (Z.lxor (rotr 6 x) (rotr 11 x)) (rotr 25 x).
Definition sigma0 (x : Z) : Z := Z.lxor (Z.lxor (rotr 7 x) (rotr 18 x)) (Z.shiftr x 3).
Definition sigma1 (x : Z) : Z := Z.lxor (Z.lxor (rotr 17 x) (rotr 19 x)) (Z.shiftr x 10).

(** The standard defines its constants by the first primes: 32 bits of the
    fractional parts of their cube roots and square roots. *)
Definition is_prime (n : Z) : bool :=
  forallb (fun d => negb (n mod Z.of_nat d =? 0)) (seq 2 (Z.to_nat (Z.sqrt n - 1))).

Definition first_primes (n : nat) : list Z :=
  take n (List.filter is_prime (map Z.of_nat (seq 2 320))).

(** The largest [r] with [r ^ 3 <= z], [bits] bits long. *)
Fixpoint cube_root (bits : nat) (r z : Z) : Z :=
  match bits with
  | O => r
  | S bits' => let r' := r + 2 ^ Z.of_nat bits' in cube_root bits' (if r' ^ 3 <=? z then r' else r) z
  end.

Definition round_constants : list Z := Eval vm_compute in
  map (fun p => w32 (cube_root 36 0 (p * 2 ^ 96))) (first_primes 64).

Definition initial_hash : list Z := Eval vm_compute in
  map (fun p => w32 (Z.sqrt (p * 2 ^ 64))) (first_primes 8).

(** * Compression *)

(** The message schedule: the last sixteen words, newest first, and the output
    so far in reverse. *)
Fixpoint schedule (n : nat) (recent : list Z) : list Z :=
  match n with
  | O => []
  | S n' =>
      let w := w32 (sigma1 (nth 1 recent 0) + nth 6 recent 0
                    + sigma0 (nth 14 recent 0) + nth 15 recent 0) in
      w :: schedule n' (w :: take 15 recent)
  end.

Definition round (h : list Z) (kw : Z * Z) : list Z :=
  match h with
  | [a; b; c; d; e; f; g; hh] =>
      let t1 := w32 (hh + Sigma1 e + Ch e f g + kw.1 + kw.2) in
      let t2 := w32 (Sigma0 a + Maj a b c) in
      [w32 (t1 + t2); a; b; c; w32 (d + t1); e; f; g]
  | _ => h
  end.

Definition compress (h block : list Z) : list Z :=
  let ws := block ++ schedule 48 (reverse block) in
  zip_with (fun x y => w32 (x + y)) h (fold_left round (zip round_constants ws) h).

(** * Padding and blocks *)

Fixpoint be_bytes (n : nat) (z : Z) : list Z :=
  match n with
  | O => []
  | S n' => be_bytes n' (Z.shiftr z 8) ++ [Z.land z 255]
  end.

Definition pad (msg : list Z) : list Z :=
  let len := Z.of_nat (length msg) in
  msg ++ [128] ++ replicate (Z.to_nat ((55 - len) mod 64)) 0 ++ be_bytes 8 (8 * len).

Fixpoint words (l : list Z) : list Z :=
  match l with
  | a :: b :: c :: d :: rest =>
      Z.lor (Z.shiftl a 24) (Z.lor (Z.shiftl b 16) (Z.lor (Z.shiftl c 8) d)) :: words rest
  | _ => []
  end.

Fixpoint blocks (fuel : nat) (ws h : list Z) : list Z :=
  match fuel, ws with
  | S fuel', _ :: _ => blocks fuel' (drop 16 ws) (compress h (take 16 ws))
  | _, _ => h
  end.

Definition bytes_of (s : string) : list Z := map (fun c => Z.of_N (N_of_ascii c)) (to_bytes s).
Definition string_of (l : list Z) : string := of_bytes (map (fun b => ascii_of_N (Z.to_N b)) l).

(** [sha256.Sum256]: every block takes sixteen words, so the number of words is
    fuel enough. *)
Definition Sum256_bytes (msg : list Z) : list Z :=
  let ws := words (pad msg) in concat (map (be_bytes 4) (blocks (length ws) ws initial_hash)).

Definition Sum256 (s : string) : string := string_of (Sum256_bytes (bytes_of s)).

(** [hmac.New(sha256.New, key)] over the message. *)
Definition HMAC_SHA256 (key msg : string) : string :=
  let k0 := bytes_of key in
  let k := if 64 <? Z.of_nat (length k0) then Sum256_bytes k0 else k0 in
  let k64 := k ++ replicate (64 - length k) 0 in
  string_of (Sum256_bytes (map (Z.lxor 92) k64
    ++ Sum256_bytes (map (Z.lxor 54) k64 ++ bytes_of msg))).

(** * Hexadecimal *)

Definition hex_digit (z : Z) : ascii :=
  ascii_of_N (Z.to_N (if z <? 10 then 48 + z else 87 + z)).

(** [hex.EncodeToString]. *)
Definition EncodeToString (s : string) : string :=
  of_bytes (concat (map (fun b => [hex_digit (b / 16); hex_digit (b mod 16)]) (bytes_of s))).

Arguments Sum256 : simpl never.
Arguments HMAC_SHA256 : simpl never.
Arguments EncodeToString : simpl never.

Example sha256_empty : EncodeToString (Sum256 "") =
  "e3b0c44298fc1c149afbf4c8996fb92427ae41e4649b934ca495991b7852b855"%string.
Proof. vm_compute. reflexivity. Qed.

Example sha256_abc : EncodeToString (Sum256 "abc") =
  "ba7816bf8f01cfea414140de5dae2223b00361a396177a9cb410ff61f20015ad"%string.
Proof. vm_compute. reflexivity. Qed.

Example sha256_two_blocks :
  EncodeToString (Sum256 "abcdbcdecdefdefgefghfghighijhijkijkljklmklmnlmnomnopnopq") =
  "248d6a61d20638b8e5c026930c3e6039a33ce45964ff2167f6ecedd419db06c1"%string.
Proof. vm_compute. reflexivity. Qed.

Example hmac_rfc4231_2 : EncodeToString (HMAC_SHA256 "Jefe" "what do ya want for nothing?") =
  "5bdcc146bf60754e6a042426089575c75a003f089d2739839dec58b964ec3843"%string.
Proof. vm_compute. reflexivity. Qed.

Lemma hex_digit_lower c :
  let b := Z.of_N (N_of_ascii c) in
  is_lower_hex (hex_digit (b / 16)) = true /\ is_lower_hex (hex_digit (b mod 16)) = true.
Proof. revert c. by intros [[] [] [] [] [] [] [] []]. Qed.

Lemma EncodeToString_len s : len (EncodeToString s) = 2 * len s.
Proof.
  unfold len, EncodeToString. rewrite <- !length_to_bytes, to_of_bytes. unfold bytes_of.
  rewrite map_map. induction (to_bytes s) as [|c l IH]; [done|]. cbn [map concat length app]. lia.
Qed.

Lemma EncodeToString_lower s : all_bytes is_lower_hex (EncodeToString s) = true.
Proof.
  unfold all_bytes, EncodeToString. rewrite to_of_bytes. unfold bytes_of. rewrite map_map.
  induction (to_bytes s) as [|c l IH]; [done|]. cbn [map concat forallb app].
  destruct (hex_digit_lower c) as [-> ->]. done.
Qed.

(** The text of 32 bytes is a 64-character lower-case identifier. *)
Lemma EncodeToString_id s : len s = 32 -> lower_hex32_bytes (EncodeToString s) = true.
Proof.
  intros Hs. rewrite lower_hex32_bytes_spec. unfold lower_hex64.
  by rewrite EncodeToString_len, Hs, EncodeToString_lower.
Qed.

Lemma be_bytes_length n z : length (be_bytes n z) = n.
Proof. revert z. induction n as [|n IH]; intros z; cbn; [done|]. rewrite length_app, IH. cbn. lia. Qed.

Lemma compress_length h b : length h = 8%nat -> length (compress h b) = 8%nat.
Proof.
  intros Hh. unfold compress. rewrite length_zip_with.
  assert (Hr : forall l h', length h' = 8%nat -> length (fold_left round l h') = 8%nat).
  { induction l as [|kw l IH]; cbn; intros h' Hh'; [done|]. apply IH.
    destruct h' as [|? [|? [|? [|? [|? [|? [|? [|? [|]]]]]]]]]; done. }
  rewrite Hr by done. lia.
Qed.

Lemma Sum256_bytes_length m : length (Sum256_bytes m) = 32%nat.
Proof.
  unfold Sum256_bytes. generalize (words (pad m)) as ws. intros ws.
  assert (Hb : forall fuel ws h, length h = 8%nat -> length (blocks fuel ws h) = 8%nat).
  { induction fuel as [|fuel IH]; cbn [blocks]; [done|]. intros [|w ws'] h Hh; [done|].
    apply IH. by apply compress_length. }
  specialize (Hb (length ws) ws initial_hash eq_refl).
  destruct (blocks (length ws) ws initial_hash) as [|? [|? [|? [|? [|? [|? [|? [|? [|]]]]]]]]]; try done.
Qed.

Lemma string_of_len l : len (string_of l) = Z.of_nat (length l).
Proof. unfold len, string_of. by rewrite <- length_to_bytes, to_of_bytes, length_map. Qed.

Lemma Sum256_len s : len (Sum256 s) = 32.
Proof. unfold Sum256. by rewrite string_of_len, Sum256_bytes_length. Qed.

Lemma HMAC_SHA256_len key msg : len (HMAC_SHA256 key msg) = 32.
Proof. unfold HMAC_SHA256. by rewrite string_of_len, Sum256_bytes_length. Qed.
