(* ===== verification/Json.v ===== *)
(** [encoding/json]: the scanner and string decoder as [json.Unmarshal] and
    [json.Decoder] run them, the encoder of strings, numbers and objects, and the
    decoding of a value into a Go type.

    The scanner is the byte-by-byte machine of the library, with its stack of open
    arrays and objects: it needs no fuel.  A number keeps its literal, because
    its Go type decides what the literal means. *)
From S2P Require Import Prelude GoString Sha256.

(** * Encoding of strings *)

(** [json.Marshal] of a Go string: escaping of quotes, controls, the three HTML
    characters, U+2028, U+2029 and ill-formed UTF-8. *)
Definition backslash : ascii := ascii_of_N 92.
Definition u_escape (hex : string) : bytes := backslash :: "u"%char :: to_bytes hex.

Definition continuation (c : ascii) : bool := in_range 128 191 c.

(** The length of the UTF-8 sequence at the head, if it is well formed. *)
Definition utf8_head (l : bytes) : option nat :=
  match l with
  | a :: b :: rest =>
      if in_range 194 223 a && continuation b then Some 2%nat
      else match rest with
           | c :: rest' =>
               let second := if code a =? 224 then in_range 160 191 b
                             else if code a =? 237 then in_range 128 159 b else continuation b in
               if in_range 224 239 a && second && continuation c then Some 3%nat
               else match rest' with
                    | d :: _ =>
                        let second := if code a =? 240 then in_range 144 191 b
                                      else if code a =? 244 then in_range 128 143 b else continuation b in
                        if in_range 240 244 a && second && continuation c && continuation d
                        then Some 4%nat else None
                    | [] => None
                    end
           | [] => None
           end
  | _ => None
  end.

Definition escape_ascii (c : ascii) : bytes :=
  if code c =? 34 then [backslash; c]
  else if code c =? 92 then [backslash; backslash]
  else if code c =? 8 then [backslash; "b"%char]
  else if code c =? 12 then [backslash; "f"%char]
  else if code c =? 10 then [backslash; "n"%char]
  else if code c =? 13 then [backslash; "r"%char]
  else if code c =? 9 then [backslash; "t"%char]
  else if (code c <? 32) || (code c =? 60) || (code c =? 62) || (code c =? 38)
  then u_escape "00" ++ to_bytes (EncodeToString (String c EmptyString))
  else [c].

Fixpoint escape (fuel : nat) (l : bytes) : bytes :=
  match fuel, l with
  | S fuel', a :: l' =>
      if code a <? 128 then escape_ascii a ++ escape fuel' l'
      else match utf8_head l with
           | Some n =>
               let seq := take n l in
               (if bool_decide (map code seq = [226; 128; 168]) then u_escape "2028"
                else if bool_decide (map code seq = [226; 128; 169]) then u_escape "2029" else seq)
               ++ escape fuel' (drop n l)
           | None => u_escape "fffd" ++ escape fuel' l'
           end
  | _, _ => []
  end.

Definition Marshal_string (s : string) : string :=
  quote (of_bytes (escape (String.length s) (to_bytes s))).

Definition field (name value : string) : string := quote name +:+ ":" +:+ value.

(** * Values *)

Inductive json : Type :=
  | JNull
  | JBool (b : bool)
  | JNumber (literal : string)
  | JString (s : string)
  | JArray (l : list json)
  | JObject (members : list (string * json)).

(** Induction that reaches the values inside arrays and objects. *)
Lemma json_nested_ind (P : json -> Prop)
    (Hnull : P JNull) (Hbool : forall b, P (JBool b)) (Hnum : forall n, P (JNumber n))
    (Hstr : forall s, P (JString s)) (Harr : forall l, Forall P l -> P (JArray l))
    (Hobj : forall ms, Forall (fun m => P m.2) ms -> P (JObject ms)) j : P j.
Proof.
  revert j. fix IH 1. intros [|b|n|s|l|ms];
    [apply Hnull|apply Hbool|apply Hnum|apply Hstr|apply Harr|apply Hobj].
  - induction l; constructor; auto.
  - induction ms as [|[]]; constructor; cbn; auto.
Qed.

Fixpoint intercalate (l : list bytes) : bytes :=
  match l with
  | [] => []
  | [a] => a
  | a :: l' => a ++ ","%char :: intercalate l'
  end.

Definition quoted (s : string) : bytes := to_bytes (Marshal_string s).

(** [json.Marshal]: no white space. *)
Fixpoint print (j : json) : bytes :=
  match j with
  | JNull => to_bytes "null"
  | JBool true => to_bytes "true"
  | JBool false => to_bytes "false"
  | JNumber literal => to_bytes literal
  | JString s => quoted s
  | JArray l => "["%char :: intercalate (map print l) ++ ["]"%char]
  | JObject ms =>
      "{"%char :: intercalate (map (fun m => quoted m.1 ++ ":"%char :: print m.2) ms) ++ ["}"%char]
  end.

Definition Marshal (j : json) : string := of_bytes (print j).

Definition JInt (z : Z) : json := JNumber (pretty z).

(** * Decoding of strings *)

Definition hex_of (c : ascii) : option Z :=
  if is_digit c then Some (code c - 48)
  else if in_range 97 102 c then Some (code c - 87)
  else if in_range 65 70 c then Some (code c - 55) else None.

(** [getu4]: the rune of four hexadecimal digits. *)
Definition getu4 (a b c d : ascii) : option Z :=
  a ← hex_of a; b ← hex_of b; c ← hex_of c; d ← hex_of d;
  Some (4096 * a + 256 * b + 16 * c + d).

Definition byte_of (z : Z) : ascii := ascii_of_N (Z.to_N z).

(** [utf8.AppendRune]. *)
Definition utf8 (r : Z) : bytes :=
  if r <? 128 then [byte_of r]
  else if r <? 2048 then [byte_of (192 + r / 64); byte_of (128 + r mod 64)]
  else if r <? 65536
  then [byte_of (224 + r / 4096); byte_of (128 + r / 64 mod 64); byte_of (128 + r mod 64)]
  else [byte_of (240 + r / 262144); byte_of (128 + r / 4096 mod 64);
        byte_of (128 + r / 64 mod 64); byte_of (128 + r mod 64)].

Definition RuneError : Z := 65533.
Definition high_surrogate (r : Z) : bool := (55296 <=? r) && (r <? 56320).
Definition low_surrogate (r : Z) : bool := (56320 <=? r) && (r <? 57344).

(** What follows the backslash in a one-letter escape. *)
Definition unescape (c : ascii) : option ascii :=
  if Ascii.eqb c (ascii_of_N 34) || Ascii.eqb c backslash || Ascii.eqb c "/" then Some c
  else if Ascii.eqb c "b" then Some (ascii_of_N 8)
  else if Ascii.eqb c "f" then Some (ascii_of_N 12)
  else if Ascii.eqb c "n" then Some (ascii_of_N 10)
  else if Ascii.eqb c "r" then Some (ascii_of_N 13)
  else if Ascii.eqb c "t" then Some (ascii_of_N 9) else None.

(** [unquoteBytes] on what stands between the quotes; every step consumes a
    byte, so the length is enough fuel. *)
Fixpoint unquote (fuel : nat) (l : bytes) : option bytes :=
  match fuel, l with
  | S fuel', a :: l' =>
      if Ascii.eqb a backslash then
        match l' with
        | u :: a1 :: a2 :: a3 :: a4 :: rest =>
            if Ascii.eqb u "u" then
              r ← getu4 a1 a2 a3 a4;
              if high_surrogate r then
                let pair :=
                  match rest with
                  | e :: v :: b1 :: b2 :: b3 :: b4 :: rest' =>
                      if Ascii.eqb e backslash && Ascii.eqb v "u" then
                        r2 ← getu4 b1 b2 b3 b4;
                        if low_surrogate r2
                        then Some (65536 + (r - 55296) * 1024 + (r2 - 56320), rest') else None
                      else None
                  | _ => None
                  end in
                let '(rune, rest) := default (RuneError, rest) pair in
                t ← unquote fuel' rest; Some (utf8 rune ++ t)
              else t ← unquote fuel' rest;
                   Some (utf8 (if low_surrogate r then RuneError else r) ++ t)
            else c ← unescape u; t ← unquote fuel' (a1 :: a2 :: a3 :: a4 :: rest); Some (c :: t)
        | u :: rest => c ← unescape u; t ← unquote fuel' rest; Some (c :: t)
        | [] => None
        end
      else if code a <? 128 then t ← unquote fuel' l'; Some (a :: t)
      else match utf8_head l with
           | Some n => t ← unquote fuel' (drop n l); Some (take n l ++ t)
           | None => t ← unquote fuel' l'; Some (utf8 RuneError ++ t)
           end
  | _, _ => Some []
  end.

Definition unquote_string (raw : bytes) : option string :=
  t ← unquote (length raw) raw; Some (of_bytes t).

(** * The scanner *)

(** An open array with its elements so far, last first, or an open object with
    its members and, after a key, that key. *)
Inductive frame : Type :=
  | InArray (elements : list json)
  | InObject (members : list (string * json))
  | InMember (key : string) (members : list (string * json)).

Inductive number_state : Type := Neg | State0 | State1 | Dot | Dot0 | E | ESign | E0.

(** The [step] functions of the scanner.  A string keeps its raw bytes, last
    first, and whether it is a key; a literal the bytes still due. *)
Inductive scan_state : Type :=
  | BeginValue
  | BeginValueOrEmpty
  | BeginString
  | BeginStringOrEmpty
  | EndKey
  | EndValue
  | InString (key : bool) (raw : bytes)
  | InStringEsc (key : bool) (raw : bytes)
  | InStringEscU (key : bool) (digits : nat) (raw : bytes)
  | InNumber (n : number_state) (raw : bytes)
  | InLiteral (due : bytes) (value : json).

Inductive scan_result : Type :=
  | Continue (s : scan_state) (stack : list frame)
  | Value (v : json)
  | ValueBefore (v : json)
  | SyntaxError.

Definition isSpace (c : ascii) : bool :=
  (code c =? 32) || (code c =? 9) || (code c =? 13) || (code c =? 10).

Definition push (s : scan_state) (f : frame) (stack : list frame) : scan_result :=
  if (Z.of_nat (length stack) <? 10000) then Continue s (f :: stack) else SyntaxError.

(** A value is complete: it goes into the innermost open array or object. *)
Definition complete (v : json) (stack : list frame) : scan_result :=
  match stack with
  | [] => Value v
  | InArray l :: stack' => Continue EndValue (InArray (v :: l) :: stack')
  | InMember k ms :: stack' => Continue EndValue (InObject ((k, v) :: ms) :: stack')
  | InObject _ :: _ => SyntaxError
  end.

Definition step_value (c : ascii) (stack : list frame) : scan_result :=
  if isSpace c then Continue BeginValue stack
  else if Ascii.eqb c "{" then push BeginStringOrEmpty (InObject []) stack
  else if Ascii.eqb c "[" then push BeginValueOrEmpty (InArray []) stack
  else if code c =? 34 then Continue (InString false []) stack
  else if Ascii.eqb c "-" then Continue (InNumber Neg [c]) stack
  else if Ascii.eqb c "0" then Continue (InNumber State0 [c]) stack
  else if is_digit c then Continue (InNumber State1 [c]) stack
  else if Ascii.eqb c "t" then Continue (InLiteral (to_bytes "rue") (JBool true)) stack
  else if Ascii.eqb c "f" then Continue (InLiteral (to_bytes "alse") (JBool false)) stack
  else if Ascii.eqb c "n" then Continue (InLiteral (to_bytes "ull") JNull) stack
  else SyntaxError.

Definition step_key (c : ascii) (stack : list frame) : scan_result :=
  if isSpace c then Continue BeginString stack
  else if code c =? 34 then Continue (InString true []) stack else SyntaxError.

(** [stateEndValue] inside an array or an object. *)
Definition step_end (c : ascii) (stack : list frame) : scan_result :=
  if isSpace c then Continue EndValue stack
  else match stack with
       | InArray l :: stack' =>
           if Ascii.eqb c "," then Continue BeginValue stack
           else if Ascii.eqb c "]" then complete (JArray (rev l)) stack' else SyntaxError
       | InObject ms :: stack' =>
           if Ascii.eqb c "," then Continue BeginString stack
           else if Ascii.eqb c "}" then complete (JObject (rev ms)) stack' else SyntaxError
       | _ => SyntaxError
       end.

Definition end_string (key : bool) (raw : bytes) (stack : list frame) : scan_result :=
  match unquote_string (rev raw) with
  | None => SyntaxError
  | Some s =>
      if key then match stack with
                  | InObject ms :: stack' => Continue EndKey (InMember s ms :: stack')
                  | _ => SyntaxError
                  end
      else complete (JString s) stack
  end.

(** [None] when the byte does not belong to the number. *)
Definition step_number (n : number_state) (c : ascii) : option number_state :=
  let exponent := Ascii.eqb c "e" || Ascii.eqb c "E" in
  match n with
  | Neg => if Ascii.eqb c "0" then Some State0 else if is_digit c then Some State1 else None
  | State0 => if Ascii.eqb c "." then Some Dot else if exponent then Some E else None
  | State1 => if is_digit c then Some State1
              else if Ascii.eqb c "." then Some Dot else if exponent then Some E else None
  | Dot => if is_digit c then Some Dot0 else None
  | Dot0 => if is_digit c then Some Dot0 else if exponent then Some E else None
  | E => if Ascii.eqb c "+" || Ascii.eqb c "-" then Some ESign
         else if is_digit c then Some E0 else None
  | ESign => if is_digit c then Some E0 else None
  | E0 => if is_digit c then Some E0 else None
  end.

Definition number_complete (n : number_state) : bool :=
  match n with State0 | State1 | Dot0 | E0 => true | _ => false end.

Definition step (s : scan_state) (stack : list frame) (c : ascii) : scan_result :=
  match s with
  | BeginValue => step_value c stack
  | BeginValueOrEmpty =>
      if isSpace c then Continue BeginValueOrEmpty stack
      else if Ascii.eqb c "]" then step_end c stack else step_value c stack
  | BeginString => step_key c stack
  | BeginStringOrEmpty =>
      if isSpace c then Continue BeginStringOrEmpty stack
      else if Ascii.eqb c "}" then step_end c stack else step_key c stack
  | EndKey =>
      if isSpace c then Continue EndKey stack
      else if Ascii.eqb c ":" then Continue BeginValue stack else SyntaxError
  | EndValue => step_end c stack
  | InString key raw =>
      if code c =? 34 then end_string key raw stack
      else if Ascii.eqb c backslash then Continue (InStringEsc key (c :: raw)) stack
      else if code c <? 32 then SyntaxError
      else Continue (InString key (c :: raw)) stack
  | InStringEsc key raw =>
      if Ascii.eqb c "u" then Continue (InStringEscU key 4 (c :: raw)) stack
      else match unescape c with
           | Some _ => Continue (InString key (c :: raw)) stack
           | None => SyntaxError
           end
  | InStringEscU key digits raw =>
      match hex_of c, digits with
      | Some _, S (S _ as left) => Continue (InStringEscU key left (c :: raw)) stack
      | Some _, _ => Continue (InString key (c :: raw)) stack
      | None, _ => SyntaxError
      end
  | InNumber n raw =>
      match step_number n c with
      | Some n' => Continue (InNumber n' (c :: raw)) stack
      | None =>
          if number_complete n then
            match complete (JNumber (of_bytes (rev raw))) stack with
            | Continue _ stack' => step_end c stack'
            | Value v => ValueBefore v
            | other => other
            end
          else SyntaxError
      end
  | InLiteral due v =>
      match due with
      | d :: due' =>
          if Ascii.eqb c d
          then match due' with [] => complete v stack | _ => Continue (InLiteral due' v) stack end
          else SyntaxError
      | [] => SyntaxError
      end
  end.

(** The first value of the input and what follows it; [None] is a syntax error
    or an input that ends inside the value. *)
Fixpoint run (s : scan_state) (stack : list frame) (l : bytes) : option (json * bytes) :=
  match l with
  | [] => match s, stack with
          | InNumber n raw, [] =>
              if number_complete n then Some (JNumber (of_bytes (rev raw)), []) else None
          | _, _ => None
          end
  | c :: l' => match step s stack c with
               | Continue s' stack' => run s' stack' l'
               | Value v => Some (v, l')
               | ValueBefore v => Some (v, l)
               | SyntaxError => None
               end
  end.

(** [Decoder.Decode]: the next value. *)
Definition next_value (l : bytes) : option (json * bytes) := run BeginValue [] l.

(** The input ended before the value did. *)
Fixpoint unfinished (s : scan_state) (stack : list frame) (l : bytes) : bool :=
  match l with
  | [] => true
  | c :: l' => match step s stack c with
               | Continue s' stack' => unfinished s' stack' l'
               | _ => false
               end
  end.

(** [json.Unmarshal]'s parse: one value and white space. *)
Definition parse (s : string) : option json :=
  '(v, rest) ← next_value (to_bytes s);
  if forallb isSpace rest then Some v else None.

Definition dq (s : string) : string :=
  of_bytes (map (fun c => if Ascii.eqb c "'" then ascii_of_N 34 else c) (to_bytes s)).

Example parse_ex :
  parse (dq " {'a' : [1, -2.5e3 ,true,null],'b':{},'c':'x\u00e9\ud83d\ude00\n'} ")
  = Some (JObject [("a", JArray [JNumber "1"; JNumber "-2.5e3"; JBool true; JNull]);
                   ("b", JObject []);
                   ("c", JString ("x" +:+ of_bytes (utf8 233 ++ utf8 128512) +:+ String (ascii_of_N 10) ""))])%string.
Proof. vm_compute. reflexivity. Qed.

Example parse_rejects :
  map (fun s => parse (dq s)) ["{'a':1,}"; "01"; "[1"; "'a"; "{'a' 1}"; "nul"; "1 2"; ""; "-"; "1."]%string
  = replicate 10 None.
Proof. vm_compute. reflexivity. Qed.

(** * Printing and parsing *)

(** Well-formed UTF-8, checked along [escape]'s walk. *)
Fixpoint utf8_valid (fuel : nat) (l : bytes) : bool :=
  match fuel, l with
  | S fuel', a :: l' =>
      if code a <? 128 then utf8_valid fuel' l'
      else match utf8_head l with
           | Some n => utf8_valid fuel' (drop n l)
           | None => false
           end
  | _, [] => true
  | O, _ :: _ => false
  end.
Definition utf8_string (s : string) : bool := utf8_valid (String.length s) (to_bytes s).

(** ASCII text, as the identifier patterns of the source accept it. *)
Definition is_ascii (c : ascii) : bool := code c <? 128.

Lemma ascii_utf8 s : all_bytes is_ascii s = true -> utf8_string s = true.
Proof.
  unfold utf8_string, all_bytes, is_ascii. induction s as [|c s IH]; [done|].
  cbn [String.length]. change (to_bytes (String c s)) with (c :: to_bytes s).
  cbn [forallb utf8_valid]. intros [-> Hs]%andb_prop. auto.
Qed.

Lemma all_bytes_ascii (f : ascii -> bool) s :
  (forall c, f c = true -> is_ascii c = true) -> all_bytes f s = true -> utf8_string s = true.
Proof.
  intros Hf Hs. apply ascii_utf8. unfold all_bytes in *. rewrite forallb_forall in *. auto.
Qed.

Lemma ident_re_utf8 first rest n s :
  (forall c, first c = true -> is_ascii c = true) -> (forall c, rest c = true -> is_ascii c = true) ->
  ident_re first rest n s = true -> utf8_string s = true.
Proof.
  intros Hf Hr. destruct s as [|c s]; [done|]. cbn [ident_re]. intros H. bool_to_prop.
  apply ascii_utf8. unfold all_bytes in *. change (to_bytes (String c s)) with (c :: to_bytes s).
  cbn [forallb]. rewrite Hf by done. cbn. rewrite forallb_forall in *. auto.
Qed.

Definition high (c : ascii) : Prop := 128 <= code c.

Ltac head_cases l :=
  destruct l as [|? [|? [|? [|? ?]]]]; cbn [utf8_head]; try done;
  repeat (case_match; try done).

Lemma utf8_head_high l n : utf8_head l = Some n -> Forall high (take n l) /\ length (take n l) = n.
Proof.
  head_cases l; intros [=]; subst; unfold high, continuation, in_range in *; bool_to_prop; cbn;
    (split; [repeat constructor; lia|done]).
Qed.

Lemma utf8_head_prefix l n t : utf8_head l = Some n -> utf8_head (take n l ++ t) = Some n.
Proof.
  head_cases l; intros [=]; subst; cbn [take app utf8_head];
    repeat match goal with H : _ = _ :> bool |- _ => rewrite H; clear H end; try done.
Qed.

Lemma utf8_head_pos l n : utf8_head l = Some n -> exists k, n = S k.
Proof. head_cases l; intros [=]; subst; eauto. Qed.

(** ** Strings *)

Lemma run_plain key acc st c rest : code c <> 34 -> code c <> 92 -> 32 <= code c ->
  run (InString key acc) st (c :: rest) = run (InString key (c :: acc)) st rest.
Proof.
  intros H1 H2 H3. cbn [run step].
  destruct (Z.eqb_spec (code c) 34); [done|].
  destruct (Ascii.eqb_spec c backslash) as [->|]; [done|].
  destruct (Z.ltb_spec (code c) 32); [lia|done].
Qed.

Lemma run_high key acc st l rest : Forall high l ->
  run (InString key acc) st (l ++ rest) = run (InString key (rev l ++ acc)) st rest.
Proof.
  unfold high. intros Hl. revert acc. induction Hl as [|c l Hc Hl IH]; intros acc; [done|].
  cbn [app rev]. rewrite run_plain by lia. rewrite IH, <- app_assoc. done.
Qed.

Lemma run_escape_ascii key acc st c rest : code c < 128 ->
  run (InString key acc) st (escape_ascii c ++ rest)
  = run (InString key (rev (escape_ascii c) ++ acc)) st rest.
Proof. destruct c as [[] [] [] [] [] [] [] []]; intros Hc; try (exfalso; vm_compute in Hc; done); reflexivity. Qed.

Lemma run_u key acc st hex rest : hex ∈ ["2028"; "2029"; "fffd"]%string ->
  run (InString key acc) st (u_escape hex ++ rest) = run (InString key (rev (u_escape hex) ++ acc)) st rest.
Proof. rewrite !elem_of_cons. intros [->|[->|[->|H]]]; [..|by apply elem_of_nil in H]; reflexivity. Qed.

Lemma run_escape n l key acc st rest :
  run (InString key acc) st (escape n l ++ rest) = run (InString key (rev (escape n l) ++ acc)) st rest.
Proof.
  revert l acc. induction n as [|n IH]; intros [|a l] acc; try done. cbn [escape].
  destruct (Z.ltb_spec (code a) 128).
  { rewrite <- app_assoc, run_escape_ascii, IH, rev_app_distr, <- app_assoc by done. done. }
  destruct (utf8_head (a :: l)) as [k|] eqn:Hk.
  - apply utf8_head_high in Hk as [Hk _].
    repeat case_bool_decide; rewrite <- app_assoc, ?run_u, ?run_high by (done || set_solver);
      rewrite IH, rev_app_distr, <- app_assoc; done.
  - rewrite <- app_assoc, run_u, IH, rev_app_distr, <- app_assoc by set_solver. done.
Qed.

Lemma unquote_escape_ascii n c t : code c < 128 ->
  unquote (S n) (escape_ascii c ++ t) = r ← unquote n t; Some (c :: r).
Proof. destruct c as [[] [] [] [] [] [] [] []]; intros Hc; try (exfalso; vm_compute in Hc; done);
  first [reflexivity | destruct t as [|? [|? [|? [|? ?]]]]; reflexivity]. Qed.

Lemma code_list_inj l l' : map code l = map code l' -> l = l'.
Proof.
  revert l'. induction l as [|c l IH]; intros [|c' l']; cbn; try done.
  intros [=Hc Hl]. f_equal; [by apply code_inj|by apply IH].
Qed.

Lemma unquote_high n l k t : utf8_head l = Some k ->
  unquote (S n) (take k l ++ t) = r ← unquote n t; Some (take k l ++ r).
Proof.
  intros Hk. pose proof (utf8_head_prefix l k t Hk) as Hp.
  apply utf8_head_high in Hk as [Hh Hlen].
  assert (Hd : drop k (take k l ++ t) = t) by (rewrite drop_app_length'; done).
  assert (Ht : take k (take k l ++ t) = take k l) by (rewrite take_app_length'; done).
  destruct (take k l) as [|a s] eqn:Hs; [cbn in Hlen; by destruct (utf8_head_pos _ _ Hp); subst|].
  apply Forall_cons in Hh as [Ha _]. unfold high in Ha. cbn [app unquote].
  destruct (Ascii.eqb_spec a backslash) as [->|]; [vm_compute in Ha; done|].
  destruct (Z.ltb_spec (code a) 128); [lia|].
  cbn [app] in Hp, Hd, Ht. rewrite Hp, Hd, Ht. done.
Qed.

Lemma unquote_escape n l m : utf8_valid n l = true -> (length (escape n l) <= m)%nat ->
  unquote m (escape n l) = Some l.
Proof.
  revert l m. induction n as [|n IH]; intros [|a l] m; try (by destruct m).
  cbn [utf8_valid escape]. destruct (Z.ltb_spec (code a) 128) as [Ha|Ha].
  { intros Hv. rewrite length_app. intros Hm.
    destruct m as [|m]; [destruct (escape_ascii a) eqn:He; [|cbn in Hm; lia]|].
    { exfalso. revert He. unfold escape_ascii. repeat case_match; done. }
    rewrite unquote_escape_ascii by done. rewrite IH; [done|done|].
    assert (0 < length (escape_ascii a))%nat; [|lia].
    unfold escape_ascii. repeat case_match; cbn; lia. }
  destruct (utf8_head (a :: l)) as [k|] eqn:Hk; [|done].
  intros Hv Hm. pose proof (take_drop k (a :: l)) as Hl.
  pose proof (utf8_head_high _ _ Hk) as [_ Hlen].
  destruct (utf8_head_pos _ _ Hk) as [k' ->].
  repeat case_bool_decide; rewrite length_app in Hm; (destruct m as [|m]; [cbn in Hm; lia|]).
  - change (u_escape "2028" ++ ?t) with (u_escape "2028" ++ t).
    transitivity (r ← unquote m (escape n (drop (S k') (a :: l))); Some (utf8 8232 ++ r)); [done|].
    rewrite IH by (done || (cbn in Hm |- *; lia)). cbn [mbind option_bind]. f_equal.
    rewrite <- Hl at 2. f_equal. apply code_list_inj. rewrite H. done.
  - transitivity (r ← unquote m (escape n (drop (S k') (a :: l))); Some (utf8 8233 ++ r)); [done|].
    rewrite IH by (done || (cbn in Hm |- *; lia)). cbn [mbind option_bind]. f_equal.
    rewrite <- Hl at 2. f_equal. apply code_list_inj. rewrite H0. done.
  - rewrite unquote_high by done. rewrite IH; [|done|rewrite Hlen in Hm; lia].
    cbn [mbind option_bind]. f_equal. done.
Qed.

Lemma run_string key s st rest : utf8_string s = true ->
  run (InString key []) st (escape (String.length s) (to_bytes s) ++ ascii_of_N 34 :: rest)
  = match (if key then match st with
                       | InObject ms :: st' => Continue EndKey (InMember s ms :: st')
                       | _ => SyntaxError end
           else complete (JString s) st) with
    | Continue s' st' => run s' st' rest
    | Value v => Some (v, rest)
    | ValueBefore v => Some (v, ascii_of_N 34 :: rest)
    | SyntaxError => None
    end.
Proof.
  intros Hs. rewrite run_escape, app_nil_r. cbn [run step].
  change (code (ascii_of_N 34) =? 34) with true. cbn iota. unfold end_string.
  rewrite rev_involutive. unfold unquote_string. rewrite unquote_escape by done.
  cbn [mbind option_bind]. rewrite of_to_bytes. done.
Qed.

(** ** Values *)

Definition first_number (c : ascii) : option number_state :=
  if Ascii.eqb c "-" then Some Neg else if Ascii.eqb c "0" then Some State0
  else if is_digit c then Some State1 else None.

Fixpoint number_run (n : number_state) (l : bytes) : option number_state :=
  match l with
  | [] => Some n
  | c :: l' => n' ← step_number n c; number_run n' l'
  end.

Definition number_literal (s : string) : bool :=
  match to_bytes s with
  | c :: l => match first_number c ≫= fun n => number_run n l with
              | Some n => number_complete n
              | None => false
              end
  | [] => false
  end.

(** The values [print] can write: well-formed strings and number literals. *)
Fixpoint printable (j : json) : bool :=
  match j with
  | JNumber literal => number_literal literal
  | JString s => utf8_string s
  | JArray l => forallb printable l
  | JObject ms => forallb (fun m => utf8_string m.1 && printable m.2) ms
  | _ => true
  end.

Fixpoint depth (j : json) : Z :=
  match j with
  | JArray l => 1 + foldr Z.max 0 (map depth l)
  | JObject ms => 1 + foldr Z.max 0 (map (fun m => depth m.2) ms)
  | _ => 0
  end.

Definition delimits (rest : bytes) : bool :=
  match rest with c :: _ => isSpace c || one_of ",]}" c | [] => true end.

Definition after (r : scan_result) (rest : bytes) : option (json * bytes) :=
  match r with
  | Continue s st => run s st rest
  | Value v => Some (v, rest)
  | _ => None
  end.

Lemma step_number_delimits n c : isSpace c || one_of ",]}" c = true -> step_number n c = None.
Proof. destruct n, c as [[] [] [] [] [] [] [] []]; by vm_compute. Qed.

Lemma first_number_step c n st : first_number c = Some n -> step BeginValue st c = Continue (InNumber n [c]) st.
Proof. unfold first_number. destruct c as [[] [] [] [] [] [] [] []]; cbn; intros [=]; subst; done. Qed.

Lemma run_number_tail n raw st l rest n' : number_run n l = Some n' -> number_complete n' = true ->
  delimits rest = true ->
  run (InNumber n raw) st (l ++ rest) = after (complete (JNumber (of_bytes (rev raw ++ l))) st) rest.
Proof.
  revert n raw. induction l as [|c l IH]; intros n raw; cbn [number_run app].
  - intros [= ->] Hn Hd. rewrite app_nil_r. destruct rest as [|c rest]; cbn [run].
    + rewrite Hn. by destruct st as [|[]].
    + cbn [step]. rewrite step_number_delimits, Hn by done. by destruct st as [|[]].
  - destruct (step_number n c) as [m|] eqn:Hs; [|done]. cbn [mbind option_bind]. intros Hr Hn Hd.
    cbn [run step]. rewrite Hs, (IH m (c :: raw)) by done. cbn [rev]. by rewrite <- app_assoc.
Qed.

Lemma run_number s st rest : number_literal s = true -> delimits rest = true ->
  run BeginValue st (to_bytes s ++ rest) = after (complete (JNumber s) st) rest.
Proof.
  unfold number_literal. rewrite <- (of_to_bytes s) at 3. destruct (to_bytes s) as [|c l]; [done|].
  destruct (first_number c) as [n|] eqn:Hc; [|done]. cbn [mbind option_bind].
  destruct (number_run n l) as [n'|] eqn:Hr; [|done]. intros Hn Hd.
  cbn [app run]. rewrite (first_number_step c n) by done.
  erewrite (run_number_tail n [c]) by done. done.
Qed.

Lemma to_bytes_app a b : to_bytes (a +:+ b) = to_bytes a ++ to_bytes b.
Proof. induction a as [|x a IH]; [done|]. exact (f_equal (cons x) IH). Qed.

Lemma quoted_eq s rest : quoted s ++ rest
  = ascii_of_N 34 :: escape (String.length s) (to_bytes s) ++ ascii_of_N 34 :: rest.
Proof.
  unfold quoted, Marshal_string, quote. cbn [to_bytes String.list_ascii_of_string app]. f_equal.
  rewrite <- (to_of_bytes (escape _ _)) at 2. generalize (of_bytes (escape (String.length s) (to_bytes s))).
  intros t. change (String.list_ascii_of_string ?x) with (to_bytes x).
  rewrite to_bytes_app, <- app_assoc. done.
Qed.

Lemma run_key s st ms rest : utf8_string s = true ->
  run BeginString (InObject ms :: st) (quoted s ++ ":"%char :: rest)
  = run BeginValue (InMember s ms :: st) rest.
Proof.
  intros Hs. rewrite quoted_eq.
  transitivity (run (InString true []) (InObject ms :: st)
    (escape (String.length s) (to_bytes s) ++ ascii_of_N 34 :: ":"%char :: rest)); [done|].
  rewrite run_string by done. done.
Qed.

(** Which byte a printed value starts with. *)
Lemma print_head j : printable j = true -> exists c l, print j = c :: l /\ isSpace c = false /\ Ascii.eqb c "]" = false.
Proof.
  destruct j as [|[]|n|s|l|ms]; cbn [print printable]; eauto 10.
  unfold number_literal. destruct (to_bytes n) as [|c l]; [done|].
  unfold first_number. intros H. exists c, l. split; [done|].
  destruct c as [[] [] [] [] [] [] [] []]; cbn in H |- *; done.
Qed.

Lemma run_begin_array j st rest : printable j = true ->
  run BeginValueOrEmpty st (print j ++ rest) = run BeginValue st (print j ++ rest).
Proof.
  intros Hj. destruct (print_head j Hj) as (c & l & -> & Hs & Hb). cbn [app run step].
  rewrite Hs, Hb. done.
Qed.

Lemma delimits_close (c : ascii) rest : one_of ",]}" c = true -> delimits (c :: rest) = true.
Proof. cbn [delimits]. intros ->. apply orb_true_r. Qed.

Definition reads (j : json) : Prop := forall st rest,
  printable j = true -> delimits rest = true -> Z.of_nat (length st) + depth j <= 10000 ->
  run BeginValue st (print j ++ rest) = after (complete j st) rest.

Lemma run_elements l acc st rest : Forall reads l -> l <> [] -> forallb printable l = true ->
  Z.of_nat (length st) + 1 + foldr Z.max 0 (map depth l) <= 10000 ->
  run BeginValue (InArray acc :: st) (intercalate (map print l) ++ "]"%char :: rest)
  = after (complete (JArray (rev acc ++ l)) st) rest.
Proof.
  intros Hl. revert acc. induction Hl as [|j l Hj Hl IH]; intros acc Hne Hp Hd; [done|].
  cbn [forallb] in Hp. apply andb_prop in Hp as [Hpj Hp]. cbn [map foldr] in Hd.
  destruct l as [|j' l].
  - cbn [map intercalate]. rewrite Hj by (done || (cbn [length]; lia)).
    transitivity (after (complete (JArray (rev (j :: acc))) st) rest); [by destruct st as [|[]]|done].
  - change (intercalate (map print (j :: j' :: l)))
      with (print j ++ ","%char :: intercalate (map print (j' :: l))).
    rewrite <- app_assoc, Hj by (done || (cbn [length]; lia)). cbn [app].
    transitivity (run BeginValue (InArray (j :: acc) :: st)
      (intercalate (map print (j' :: l)) ++ "]"%char :: rest)); [done|].
    rewrite IH by (done || lia). cbn [rev]. by rewrite <- app_assoc.
Qed.

Lemma run_members ms acc st rest : Forall (fun m => reads m.2) ms -> ms <> [] ->
  forallb (fun m => utf8_string m.1 && printable m.2) ms = true ->
  Z.of_nat (length st) + 1 + foldr Z.max 0 (map (fun m => depth m.2) ms) <= 10000 ->
  run BeginString (InObject acc :: st)
    (intercalate (map (fun m => quoted m.1 ++ ":"%char :: print m.2) ms) ++ "}"%char :: rest)
  = after (complete (JObject (rev acc ++ ms)) st) rest.
Proof.
  intros Hl. revert acc. induction Hl as [|[k j] ms Hj Hl IH]; intros acc Hne Hp Hd; [done|].
  cbn [forallb fst snd] in Hp. apply andb_prop in Hp as [Hpj Hp].
  apply andb_prop in Hpj as [Hk Hpj]. cbn [map foldr fst snd] in Hd, Hj.
  destruct ms as [|m ms].
  - cbn [map intercalate fst snd]. rewrite <- app_assoc. cbn [app].
    rewrite run_key, Hj by (done || (cbn [length]; lia)).
    transitivity (after (complete (JObject (rev ((k, j) :: acc))) st) rest); [by destruct st as [|[]]|done].
  - remember (intercalate (map (fun m => quoted m.1 ++ ":"%char :: print m.2) (m :: ms))) as tail eqn:Ht.
    assert (He : intercalate (map (fun m => quoted m.1 ++ ":"%char :: print m.2) ((k, j) :: m :: ms))
      = (quoted k ++ ":"%char :: print j) ++ ","%char :: tail) by (subst; done).
    rewrite He, <- !app_assoc. cbn [app].
    rewrite run_key, Hj by (done || (cbn [length]; lia)). cbn [app].
    transitivity (run BeginString (InObject ((k, j) :: acc) :: st) (tail ++ "}"%char :: rest)); [done|].
    rewrite IH by (done || lia). cbn [rev]. by rewrite <- app_assoc.
Qed.

Lemma push_ok s f st : Z.of_nat (length st) + 1 <= 10000 -> push s f st = Continue s (f :: st).
Proof. unfold push. intros H. destruct (Z.ltb_spec (Z.of_nat (length st)) 10000); [done|lia]. Qed.

Lemma run_open_array st l : Z.of_nat (length st) + 1 <= 10000 ->
  run BeginValue st ("["%char :: l) = run BeginValueOrEmpty (InArray [] :: st) l.
Proof.
  intros H. transitivity (match push BeginValueOrEmpty (InArray []) st with
    | Continue s' st' => run s' st' l | Value v => Some (v, l)
    | ValueBefore v => Some (v, "["%char :: l) | SyntaxError => None end); [done|].
  by rewrite push_ok.
Qed.

Lemma run_open_object st l : Z.of_nat (length st) + 1 <= 10000 ->
  run BeginValue st ("{"%char :: l) = run BeginStringOrEmpty (InObject [] :: st) l.
Proof.
  intros H. transitivity (match push BeginStringOrEmpty (InObject []) st with
    | Continue s' st' => run s' st' l | Value v => Some (v, l)
    | ValueBefore v => Some (v, "{"%char :: l) | SyntaxError => None end); [done|].
  by rewrite push_ok.
Qed.

Lemma max_depth_nonneg {A} (f : A -> Z) l : 0 <= foldr Z.max 0 (map f l).
Proof. induction l; cbn; lia. Qed.

Lemma run_print j : reads j.
Proof.
  induction j as [|b|n|s|l IH|ms IH] using json_nested_ind; intros st rest Hp Hr Hd.
  - by destruct st as [|[]].
  - by destruct b, st as [|[]].
  - by apply run_number.
  - cbn [print]. rewrite quoted_eq.
    transitivity (run (InString false []) st
      (escape (String.length s) (to_bytes s) ++ ascii_of_N 34 :: rest)); [done|].
    rewrite run_string by done. destruct st as [|[]]; done.
  - cbn [print depth printable] in *. pose proof (max_depth_nonneg depth l).
    cbn [app]. rewrite run_open_array by lia.
    destruct l as [|j l]; [cbn; by destruct st as [|[]]|].
    rewrite <- app_assoc. cbn [app].
    etransitivity; [|by apply (run_elements (j :: l) [] st rest); [..|lia]].
    apply Forall_cons in IH as [IHj IH]. cbn [forallb] in Hp. apply andb_prop in Hp as [Hpj Hp].
    destruct l as [|j' l]; cbn [map intercalate].
    + rewrite run_begin_array by done. done.
    + rewrite <- app_assoc. rewrite run_begin_array by done. done.
  - cbn [print depth printable] in *. pose proof (max_depth_nonneg (fun m => depth m.2) ms).
    cbn [app]. rewrite run_open_object by lia.
    destruct ms as [|m ms]; [cbn; by destruct st as [|[]]|].
    rewrite <- app_assoc. cbn [app].
    etransitivity; [|by apply (run_members (m :: ms) [] st rest); [..|lia]].
    destruct ms as [|m' ms]; cbn [map intercalate]; rewrite <- !app_assoc, !quoted_eq; done.
Qed.

Theorem parse_Marshal j : printable j = true -> depth j <= 10000 -> parse (Marshal j) = Some j.
Proof.
  intros Hp Hd. unfold parse, next_value, Marshal. rewrite to_of_bytes.
  rewrite <- (app_nil_r (print j)). rewrite run_print by (done || (cbn; lia)).
  done.
Qed.

(** ** Integers *)

Definition digit_char (c : ascii) (r : Z) : Prop := is_digit c = true /\ code c - 48 = r.

Lemma pretty_N_char_digit (r : N) : (r < 10)%N -> digit_char (pretty_N_char r) (Z.of_N r).
Proof.
  intros H. assert (Hr : (r = 0 \/ r = 1 \/ r = 2 \/ r = 3 \/ r = 4 \/ r = 5 \/ r = 6 \/ r = 7 \/ r = 8 \/ r = 9)%N) by lia.
  by destruct Hr as [->|[->|[->|[->|[->|[->|[->|[->|[->| ->]]]]]]]]].
Qed.

Lemma pretty_N_go_digits (x : N) s : (0 < x)%N -> exists D,
  to_bytes (pretty_N_go x s) = D ++ to_bytes s /\ forallb is_digit D = true
  /\ (exists c D', D = c :: D' /\ Ascii.eqb c "0" = false)
  /\ forall t, digits_value 0 (D ++ t) = digits_value (Z.of_N x) t.
Proof.
  revert s. induction (N.lt_wf_0 x) as [x _ IH]; intros s Hx.
  rewrite pretty_N_go_step by done.
  destruct (pretty_N_char_digit (x mod 10)) as [Hd Hv]; [by apply N.mod_lt|].
  set (c := pretty_N_char (x mod 10)) in *.
  pose proof (N.div_mod x 10 ltac:(done)) as Hdm.
  destruct (decide (x / 10 = 0)%N) as [Hq|Hq].
  - rewrite Hq, pretty_N_go_0. exists [c]. split; [done|]. cbn [forallb app]. rewrite Hd.
    split; [done|]. split.
    + exists c, []. split; [done|]. destruct (Ascii.eqb_spec c "0") as [Hc|]; [|done].
      exfalso. rewrite Hc in Hv. change (code "0" - 48) with 0 in Hv. lia.
    + intros t. cbn [digits_value]. rewrite Hd. f_equal. lia.
  - assert (Hlt : (x / 10 < x)%N) by by apply N.div_lt.
    assert (Hpos : (0 < x / 10)%N) by by apply N.neq_0_lt_0.
    destruct (IH _ Hlt (String c s) Hpos) as (D & Hb & HD & (c' & D' & -> & Hc') & Hval).
    exists ((c' :: D') ++ [c]). rewrite Hb, <- app_assoc. split; [done|].
    split; [rewrite forallb_app, HD; cbn; by rewrite Hd|].
    split; [by exists c', (D' ++ [c])|].
    intros t. rewrite <- app_assoc, Hval. cbn [app digits_value]. rewrite Hd. f_equal. lia.
Qed.

Lemma number_run_digits D : forallb is_digit D = true -> number_run State1 D = Some State1.
Proof.
  induction D as [|c D IH]; [done|]. cbn [forallb number_run]. intros H. apply andb_prop in H as [Hc HD].
  cbn [step_number]. rewrite Hc. cbn [mbind option_bind]. by apply IH.
Qed.

Lemma pretty_N_literal (p : positive) : exists c D,
  to_bytes (pretty (Npos p)) = c :: D /\ is_digit c = true /\ Ascii.eqb c "0" = false
  /\ forallb is_digit D = true /\ digits_value 0 (c :: D) = Some (Zpos p).
Proof.
  destruct (pretty_N_go_digits (Npos p) "") as (D & Hb & HD & (c & D' & -> & Hc) & Hv); [done|].
  exists c, D'. cbn [forallb] in HD. apply andb_prop in HD as [Hd HD].
  split; [change (pretty (Npos p)) with (pretty_N_go (Npos p) ""); rewrite Hb; apply app_nil_r|].
  repeat split; try done. specialize (Hv []). by rewrite app_nil_r in Hv.
Qed.

Lemma to_bytes_cons c s : to_bytes (String c s) = c :: to_bytes s.
Proof. done. Qed.

Lemma digit_facts c : is_digit c = true -> Ascii.eqb c "0" = false ->
  first_number c = Some State1 /\ Ascii.eqb c "-" = false /\ Ascii.eqb c "+" = false.
Proof. destruct c as [[] [] [] [] [] [] [] []]; by vm_compute. Qed.

Lemma number_literal_pretty (z : Z) : number_literal (pretty z) = true.
Proof.
  destruct z as [|p|p]; [done|..]; destruct (pretty_N_literal p) as (c & D & Hb & Hc & H0 & HD & _).
  - unfold number_literal. change (pretty (Zpos p)) with (pretty (Npos p)). rewrite Hb.
    destruct (digit_facts c Hc H0) as (-> & _). cbn [mbind option_bind].
    by rewrite number_run_digits.
  - unfold number_literal. change (pretty (Zneg p)) with (String "-" (pretty (Npos p))).
    rewrite to_bytes_cons, Hb. cbn. rewrite H0, Hc. cbn. by rewrite number_run_digits.
Qed.

Lemma ParseUint_pretty (p : positive) bits : Zpos p < 2 ^ bits ->
  ParseUint (pretty (Npos p)) bits = Some (Zpos p).
Proof.
  intros Hb. destruct (pretty_N_literal p) as (c & D & Hp & _ & _ & _ & Hv).
  unfold ParseUint. destruct (pretty (Npos p)) as [|c' s]; [done|].
  rewrite Hp, Hv. cbn [mbind option_bind]. destruct (Z.ltb_spec (Zpos p) (2 ^ bits)); [done|lia].
Qed.

Lemma ParseInt_pretty z : int64 z -> ParseInt (pretty z) = Some z.
Proof.
  width. intros Hz. destruct z as [|p|p]; [done|..];
    pose proof (ParseUint_pretty p 64 ltac:(lia)) as Hu;
    destruct (pretty_N_literal p) as (c & D & Hp & Hc & H0 & _ & _).
  - change (pretty (Zpos p)) with (pretty (Npos p)) in *. unfold ParseInt.
    destruct (pretty (Npos p)) as [|c' s]; [done|]. rewrite to_bytes_cons in Hp.
    injection Hp as -> Hp. destruct (digit_facts c Hc H0) as (_ & -> & ->). cbn [orb].
    rewrite Hu. cbn [mbind option_bind]. destruct (Z.ltb_spec (Zpos p) (2 ^ 63)); [done|lia].
  - change (pretty (Zneg p)) with (String "-" (pretty (Npos p))) in *. unfold ParseInt.
    cbn -[ParseUint]. rewrite Hu. cbn [mbind option_bind].
    destruct (Z.leb_spec (Zpos p) (2 ^ 63)); [done|lia].
Qed.

Lemma ParseUint_pretty_Z z bits : 0 <= z < 2 ^ bits -> ParseUint (pretty z) bits = Some z.
Proof.
  intros Hz. destruct z as [|p|p]; [|change (pretty (Zpos p)) with (pretty (Npos p)); apply ParseUint_pretty; lia|lia].
  change (ParseUint (pretty 0) bits) with (if 0 <? 2 ^ bits then Some 0 else None).
  destruct (Z.ltb_spec 0 (2 ^ bits)); [done|lia].
Qed.

(** * Decoding into Go types *)

(** Decoding writes over the value that is there: [null] leaves it, and a key
    that comes twice is decoded twice.  A type mismatch is an error. *)
Section decoding.
Context {A : Type}.

Definition into_int (parse : string -> option Z) (j : json) (old : Z) : option Z :=
  match j with JNumber literal => parse literal | JNull => Some old | _ => None end.

(** A pointer: [null] makes it nil, anything else is decoded into the value it
    points to. *)
Definition into_ptr (into : json -> A -> option A) (zero : A) (j : json) (old : option A) : option (option A) :=
  match j with
  | JNull => Some None
  | _ => v ← into j (default zero old); Some (Some v)
  end.

Fixpoint into_elements (into : json -> A -> option A) (zero : A) (l : list json) (old : list A) : option (list A) :=
  match l with
  | [] => Some []
  | j :: l' => v ← into j (default zero (head old));
               rest ← into_elements into zero l' (tail old); Some (v :: rest)
  end.

(** A slice keeps the elements it had where the new ones are decoded. *)
Definition into_slice (into : json -> A -> option A) (zero : A) (j : json) (old : list A) : option (list A) :=
  match j with
  | JNull => Some []
  | JArray l => into_elements into zero l old
  | _ => None
  end.

(** One field of a struct: the members whose key is its name, in any case. *)
Definition decode_field (name : string) (into : json -> A -> option A) (old : A)
    (ms : list (string * json)) : option A :=
  foldl (fun acc m => a ← acc; if EqualFold m.1 name then into m.2 a else Some a) (Some old) ms.
End decoding.

Definition into_string (j : json) (old : string) : option string :=
  match j with JString s => Some s | JNull => Some old | _ => None end.
Definition into_bool (j : json) (old : bool) : option bool :=
  match j with JBool b => Some b | JNull => Some old | _ => None end.
Definition into_int64 : json -> Z -> option Z := into_int ParseInt.
Definition into_uint64 : json -> Z -> option Z := into_int (fun s => ParseUint s 64).
Definition into_uint32 : json -> Z -> option Z := into_int (fun s => ParseUint s 32).

(** The members a struct is decoded from. *)
Definition struct_members (j : json) : option (list (string * json)) :=
  match j with JObject ms => Some ms | JNull => Some [] | _ => None end.

(** [DisallowUnknownFields]. *)
Definition known_fields (names : list string) (ms : list (string * json)) : bool :=
  forallb (fun m => existsb (fun name => EqualFold m.1 name) names) ms.

(** [json.Unmarshal] into a variable that holds [zero]. *)
Definition Unmarshal {A} (into : json -> A -> option A) (zero : A) (s : string) : option A :=
  j ← parse s; into j zero.

(** The members a struct is decoded from; [strict] refuses the others. *)
Definition fields_of (strict : bool) (names : list string) (j : json) : option (list (string * json)) :=
  ms ← struct_members j; if strict && negb (known_fields names ms) then None else Some ms.

(** A member left out when its string is empty. *)
Definition omit_empty (name value : string) : list (string * json) :=
  if String.eqb value "" then [] else [(name, JString value)].

Lemma decode_field_inv {A} (P : A -> Prop) name (into : json -> A -> option A) old ms a :
  P old -> (forall j a b, into j a = Some b -> P a -> P b) ->
  decode_field name into old ms = Some a -> P a.
Proof.
  intros Hold Hinto. unfold decode_field.
  assert (Hg : forall acc, (forall x, acc = Some x -> P x) ->
    foldl (fun acc m => a ← acc; if EqualFold m.1 name then into m.2 a else Some a) acc ms = Some a -> P a).
  { induction ms as [|m ms IH]; intros acc Hacc; cbn [foldl]; [apply Hacc|]. apply IH.
    intros x. destruct acc as [y|]; cbn [mbind option_bind]; [|done].
    case_match; [intros Hx; by eapply Hinto, Hacc|intros [= ->]; by apply Hacc]. }
  apply Hg. by intros x [= ->].
Qed.

(** Runs the decoding of a struct from members whose keys are known; [into] of the
    fields stays as it is. *)
Ltac decode_step := cbn [mbind option_bind fields_of struct_members known_fields decode_field foldl fst snd
  forallb existsb andb orb negb app].
Ltac decode_json :=
  decode_step;
  repeat (match goal with
          | |- context [EqualFold ?a ?b] =>
              let v := eval vm_compute in (EqualFold a b) in
              match v with true => idtac | false => idtac end;
              change (EqualFold a b) with v
          end; decode_step).
