(* ===== verification/Base64.v ===== *)
(** [encoding/base64]: the padded standard encoding that the signer's request
    carries and the unpadded URL encoding of the cursors. *)
From S2P Require Import Prelude GoString.

Section alphabet.
Variable char62 char63 : ascii.

Definition base64_digit (n : Z) : ascii :=
  if n =? 62 then char62 else if n =? 63 then char63
  else ascii_of_N (Z.to_N (if n <? 26 then 65 + n else if n <? 52 then 71 + n else n - 4)).

(** The characters of the whole and partial groups of three bytes; [pad] is what
    fills a partial group. *)
Fixpoint base64_chars (pad : bytes) (l : bytes) : bytes :=
  let digit n := base64_digit (n mod 64) in
  match l with
  | [] => []
  | [a] => [digit (code a / 4); digit (16 * code a)] ++ pad ++ pad
  | [a; b] => [digit (code a / 4); digit (16 * code a + code b / 16); digit (4 * code b)] ++ pad
  | a :: b :: c :: rest =>
      digit (code a / 4) :: digit (16 * code a + code b / 16) :: digit (4 * code b + code c / 64)
      :: digit (code c) :: base64_chars pad rest
  end.

Definition base64_value (c : ascii) : option Z :=
  if is_upper c then Some (code c - 65)
  else if is_lower c then Some (code c - 71)
  else if is_digit c then Some (code c + 4)
  else if Ascii.eqb c char62 then Some 62
  else if Ascii.eqb c char63 then Some 63 else None.

(** The bytes of unpadded groups of four characters; trailing bits are dropped. *)
Fixpoint base64_bytes (l : bytes) : option bytes :=
  let byte z := ascii_of_N (Z.to_N (z mod 256)) in
  match l with
  | [] => Some []
  | [_] => None
  | [a; b] => x ← base64_value a; y ← base64_value b; Some [byte (4 * x + y / 16)]
  | [a; b; c] =>
      x ← base64_value a; y ← base64_value b; z ← base64_value c;
      Some [byte (4 * x + y / 16); byte (16 * y + z / 4)]
  | a :: b :: c :: d :: rest =>
      x ← base64_value a; y ← base64_value b; z ← base64_value c; w ← base64_value d;
      r ← base64_bytes rest;
      Some (byte (4 * x + y / 16) :: byte (16 * y + z / 4) :: byte (64 * z + w) :: r)
  end.
End alphabet.

(** [base64.StdEncoding.EncodeToString]. *)
Definition base64_EncodeToString (s : string) : string :=
  of_bytes (base64_chars "+" "/" ["="%char] (to_bytes s)).

Example base64_rfc4648 : map base64_EncodeToString ["f"; "fo"; "foo"; "foobar"; "?>~"]%string
  = ["Zg=="; "Zm8="; "Zm9v"; "Zm9vYmFy"; "Pz5+"]%string.
Proof. vm_compute. reflexivity. Qed.

(** [base64.RawURLEncoding]: its decoder skips line ends. *)
Definition RawURL_EncodeToString (s : string) : string :=
  of_bytes (base64_chars "-" "_" [] (to_bytes s)).

Definition line_end (c : ascii) : bool := (code c =? 10) || (code c =? 13).

Definition RawURL_DecodeString (s : string) : option string :=
  l ← base64_bytes "-" "_" (List.filter (fun c => negb (line_end c)) (to_bytes s)); Some (of_bytes l).

(** * Round trip *)

Definition url_digit : Z -> ascii := base64_digit "-" "_".

Lemma digit_value n : 0 <= n < 64 ->
  base64_value "-" "_" (url_digit n) = Some n /\ line_end (url_digit n) = false
  /\ Ascii.eqb (url_digit n) "." = false.
Proof.
  intros Hn. rewrite <- (Z2Nat.id n) by lia.
  assert (Hk : (Z.to_nat n < 64)%nat) by lia. revert Hk. generalize (Z.to_nat n). clear.
  intros k Hk. do 64 (destruct k as [|k]; [done|]). lia.
Qed.

Lemma byte_code c z : z = code c -> ascii_of_N (Z.to_N (z mod 256)) = c.
Proof.
  intros ->. rewrite Z.mod_small by (unfold code; pose proof (N_ascii_bounded c); lia).
  unfold code. rewrite N2Z.id. apply ascii_N_embedding.
Qed.

Lemma code_bound c : 0 <= code c < 256.
Proof. unfold code. pose proof (N_ascii_bounded c). lia. Qed.

(** Induction by groups of three. *)
Lemma groups_ind (P : bytes -> Prop) : P [] -> (forall a, P [a]) -> (forall a b, P [a; b]) ->
  (forall a b c l, P l -> P (a :: b :: c :: l)) -> forall l, P l.
Proof. intros H0 H1 H2 H3. fix IH 1. intros [|a [|b [|c l]]]; [done..|]. by apply H3, IH. Qed.

Lemma base64_clean l :
  List.filter (fun c => negb (line_end c)) (base64_chars "-" "_" [] l) = base64_chars "-" "_" [] l
  /\ forallb (fun c => negb (Ascii.eqb c ".")) (base64_chars "-" "_" [] l) = true.
Proof.
  assert (Hd : forall z, line_end (url_digit (z mod 64)) = false /\ Ascii.eqb (url_digit (z mod 64)) "." = false)
    by (intros z; apply digit_value, Z.mod_pos_bound; lia).
  induction l as [| | |a b c l [IH1 IH2]] using groups_ind; [done|..]; cbn;
    repeat match goal with |- context [base64_digit _ _ (?z mod 64)] =>
      let H1 := fresh in let H2 := fresh in destruct (Hd z) as [H1 H2]; unfold url_digit in H1, H2;
      rewrite H1, H2; cbn; clear H1 H2; generalize (base64_digit "-" "_" (z mod 64)); intros end;
    rewrite ?IH1, ?IH2; done.
Qed.

Lemma digit_mod z : base64_value "-" "_" (base64_digit "-" "_" (z mod 64)) = Some (z mod 64).
Proof. apply digit_value, Z.mod_pos_bound. lia. Qed.

Lemma byte1 a y : 0 <= a < 256 -> y / 16 = a mod 4 -> 4 * (a / 4 mod 64) + y / 16 = a.
Proof. intros Ha ->. Z.to_euclidean_division_equations. lia. Qed.

Lemma byte2 a b z : 0 <= a < 256 -> 0 <= b < 256 -> z / 4 = b mod 16 ->
  (16 * ((16 * a + b / 16) mod 64) + z / 4) mod 256 = b.
Proof. intros Ha Hb ->. Z.to_euclidean_division_equations. lia. Qed.

Lemma byte3 b c : 0 <= b < 256 -> 0 <= c < 256 ->
  (64 * ((4 * b + c / 64) mod 64) + c mod 64) mod 256 = c.
Proof. intros Hb Hc. Z.to_euclidean_division_equations. lia. Qed.

Lemma high_bits a b : 0 <= a < 256 -> 0 <= b < 256 -> (16 * a + b / 16) mod 64 / 16 = a mod 4.
Proof. intros Ha Hb. Z.to_euclidean_division_equations. lia. Qed.

Lemma middle_bits b c : 0 <= b < 256 -> 0 <= c < 256 -> (4 * b + c / 64) mod 64 / 4 = b mod 16.
Proof. intros Hb Hc. Z.to_euclidean_division_equations. lia. Qed.

Lemma base64_bytes_chars l : base64_bytes "-" "_" (base64_chars "-" "_" [] l) = Some l.
Proof.
  assert (Hc : forall c, ascii_of_N (Z.to_N (code c)) = c)
    by (intros c; unfold code; rewrite N2Z.id; apply ascii_N_embedding).
  assert (Hm : forall c, code c mod 256 = code c)
    by (intros c; apply Z.mod_small, code_bound).
  assert (H16 : forall a, (16 * code a) mod 64 / 16 = code a mod 4).
  { intros a. pose proof (code_bound a). Z.to_euclidean_division_equations. lia. }
  assert (H4 : forall a, (4 * code a) mod 64 / 4 = code a mod 16).
  { intros a. pose proof (code_bound a). Z.to_euclidean_division_equations. lia. }
  induction l as [|a|a b|a b c l IH] using groups_ind; [done|..];
    cbn [base64_chars app base64_bytes]; rewrite !digit_mod; cbn [mbind option_bind];
    rewrite ?IH; cbn [mbind option_bind]; repeat f_equal.
  - rewrite byte1, Hm by (done || apply code_bound). apply Hc.
  - rewrite byte1, Hm by (apply code_bound || apply high_bits; apply code_bound). apply Hc.
  - rewrite byte2 by (apply code_bound || apply H4). apply Hc.
  - rewrite byte1, Hm by (apply code_bound || apply high_bits; apply code_bound). apply Hc.
  - rewrite byte2 by (apply code_bound || apply middle_bits; apply code_bound). apply Hc.
  - rewrite byte3 by apply code_bound. apply Hc.
Qed.

Lemma RawURL_round_trip s : RawURL_DecodeString (RawURL_EncodeToString s) = Some s.
Proof.
  unfold RawURL_DecodeString, RawURL_EncodeToString. rewrite to_of_bytes.
  destruct (base64_clean (to_bytes s)) as [-> _]. rewrite base64_bytes_chars.
  cbn [mbind option_bind]. by rewrite of_to_bytes.
Qed.

(** The encoding never contains the separator of a cursor. *)
Lemma RawURL_no_dot s : forallb (fun c => negb (Ascii.eqb c ".")) (to_bytes (RawURL_EncodeToString s)) = true.
Proof. unfold RawURL_EncodeToString. rewrite to_of_bytes. apply base64_clean. Qed.

Lemma RawURL_nonempty s : RawURL_EncodeToString s = "" -> s = "".
Proof.
  unfold RawURL_EncodeToString. destruct s as [|a [|b [|c s]]]; [done|..]; done.
Qed.
