(* ===== verification/Exchange.v ===== *)
(** What an HTTP client of the program exchanges with a peer: the request it sends,
    and the status and the body it can read of the answer. *)
From S2P Require Import Prelude GoString Base64.

Record http_request := {
  hq_method : string;
  hq_url : string;
  hq_headers : list (string * string);
  hq_body : string
}.

(** What [client.Do] gives: the status and the bytes [io.ReadAll] can read. *)
Record http_response := { StatusCode : Z; Body : result string }.

(** [io.ReadAll(io.LimitReader(body, limit))]. *)
Definition read_limited (limit : Z) (body : result string) : result string :=
  s ← body; Ok (of_bytes (take (Z.to_nat limit) (to_bytes s))).

(** What becomes of a request: its URL cannot be parsed, it gets no answer, or it
    is answered. *)
Inductive exchange : Type :=
  | not_built
  | unanswered (e : error)
  | answered (resp : http_response).

(** [Request.SetBasicAuth]. *)
Definition basic_auth (user password : string) : string * string :=
  ("Authorization", "Basic " +:+ base64_EncodeToString (user +:+ ":" +:+ password))%string.
