(* ===== verification/Float.v ===== *)
(** [float64] numbers in JSON: [strconv.ParseFloat] on a number literal, over
    [spec_float] at precision 53.  The rounding is the library's: to nearest, ties
    to even. *)
From Stdlib Require Import SpecFloat.
From S2P Require Import Prelude GoString Json.

(** The digits at the front, their value after [acc], and how many. *)
Fixpoint take_digits (acc n : Z) (l : bytes) : Z * Z * bytes :=
  match l with
  | c :: l' => if is_digit c then take_digits (10 * acc + (code c - 48)) (n + 1) l' else (acc, n, l)
  | [] => (acc, n, l)
  end.

(** The exponent of a literal stops growing at [10000]. *)
Definition exponent (l : bytes) : Z :=
  match l with
  | c :: l' =>
      if one_of "eE" c then
        match l' with
        | "-"%char :: l'' => - Z.min 100000 (take_digits 0 0 l'').1.1
        | "+"%char :: l'' => Z.min 100000 (take_digits 0 0 l'').1.1
        | _ => Z.min 100000 (take_digits 0 0 l').1.1
        end
      else 0
  | [] => 0
  end.

(** [m * 10^e] for [digits] digits of [m], rounded; [None] is out of range. *)
Definition of_decimal (m digits e : Z) : option spec_float :=
  match m with
  | Zpos p =>
      if 400 <? digits + e then None
      else if digits + e <? -400 then Some (S754_zero false)
      else
        let f := if 0 <=? e then binary_normalize 53 1024 (m * 10 ^ e) 0 false
                 else SFdiv 53 1024 (S754_finite false p 0) (S754_finite false (Z.to_pos (10 ^ (- e))) 0) in
        match f with S754_infinity _ => None | _ => Some f end
  | _ => Some (S754_zero false)
  end.

Definition ParseFloat (literal : string) : option spec_float :=
  let l := to_bytes literal in
  let '(negative, l) := match l with "-"%char :: l' => (true, l') | _ => (false, l) end in
  let '(m, n, rest) := take_digits 0 0 l in
  let '(m, digits, fraction, rest) :=
    match rest with
    | "."%char :: l' => let '(m', n', rest') := take_digits m n l' in (m', n', n' - n, rest')
    | _ => (m, n, 0, rest)
    end in
  f ← of_decimal m digits (exponent rest - fraction);
  Some (if (negative : bool) then SFopp f else f).

Definition into_float64 (j : json) (old : spec_float) : option spec_float :=
  match j with JNumber literal => ParseFloat literal | JNull => Some old | _ => None end.

Example ParseFloat_examples :
  map ParseFloat ["0.1"; "0.99"; "1"; "-2.5e-1"; "5e-324"; "0.000"; "1e400"; "1e-400"]%string =
  [Some (S754_finite false 7205759403792794 (-56)); Some (S754_finite false 8917127262193582 (-53));
   Some (S754_finite false 4503599627370496 (-52)); Some (S754_finite true 4503599627370496 (-54));
   Some (S754_finite false 1 (-1074)); Some (S754_zero false); None; Some (S754_zero false)].
Proof. vm_compute. reflexivity. Qed.
