(* ===== verification/Time.v ===== *)
(** The texts of times in JSON: [time.Time.UnmarshalJSON], RFC 3339 with a strict
    syntax.  The library looks at the JSON text; a text with escapes, which it
    refuses, is not told apart here from the string it stands for. *)
From S2P Require Import Prelude GoString GoTime Json.

Definition leap (y : Z) : bool := (y mod 4 =? 0) && (negb (y mod 100 =? 0) || (y mod 400 =? 0)).

Definition days_in (m y : Z) : Z :=
  if m =? 2 then (if leap y then 29 else 28)
  else if (m =? 4) || (m =? 6) || (m =? 9) || (m =? 11) then 30 else 31.

(** The day number of a date, counted from 1 January of year 1. *)
Definition day_of (y m d : Z) : Z :=
  let y' := if m <=? 2 then y - 1 else y in
  let era := y' / 400 in
  let yoe := y' mod 400 in
  let doy := (153 * (if m <=? 2 then m + 9 else m - 3) + 2) / 5 + d - 1 in
  era * 146097 + (yoe * 365 + yoe / 4 - yoe / 100 + doy) - 306.

(** A number of exactly [n] digits between two bounds. *)
Definition field_at (n : nat) (lo hi : Z) (l : bytes) : option (Z * bytes) :=
  if Nat.ltb (length l) n then None
  else v ← digits_value 0 (take n l);
       if (lo <=? v) && (v <=? hi) then Some (v, drop n l) else None.

Definition literal (c : ascii) (l : bytes) : option bytes :=
  match l with d :: l' => if Ascii.eqb c d then Some l' else None | [] => None end.

Fixpoint digit_prefix (l : bytes) : bytes :=
  match l with c :: l' => if is_digit c then c :: digit_prefix l' else [] | [] => [] end.

(** An optional fraction of a second, in nanoseconds: digits after the ninth are
    dropped. *)
Definition fraction (l : bytes) : Z * bytes :=
  match l with
  | "."%char :: l' =>
      match digit_prefix l' with
      | [] => (0, l)
      | ds => let nine := take 9 (ds ++ repeat "0"%char 9) in
              (default 0 (digits_value 0 nine), drop (length ds) l')
      end
  | _ => (0, l)
  end.

(** The offset of the zone in seconds. *)
Definition zone (l : bytes) : option Z :=
  match l with
  | ["Z"%char] => Some 0
  | s :: l' =>
      if negb (Nat.eqb (length l) 6) || negb (one_of "+-" s) then None
      else '(h, l1) ← field_at 2 0 23 l';
           l2 ← literal ":" l1;
           '(m, _) ← field_at 2 0 59 l2;
           Some ((if Ascii.eqb s "-" then -1 else 1) * (h * 3600 + m * 60))
  | [] => None
  end.

Definition ParseRFC3339 (s : string) : option time :=
  '(y, l) ← field_at 4 0 9999 (to_bytes s); l ← literal "-" l;
  '(mo, l) ← field_at 2 1 12 l; l ← literal "-" l;
  '(d, l) ← field_at 2 1 (days_in mo y) l; l ← literal "T" l;
  '(h, l) ← field_at 2 0 23 l; l ← literal ":" l;
  '(mi, l) ← field_at 2 0 59 l; l ← literal ":" l;
  '(sec, l) ← field_at 2 0 59 l;
  let '(ns, l) := fraction l in
  offset ← zone l;
  Some ((day_of y mo d * 86400 + h * 3600 + mi * 60 + sec - offset) * second + ns).

Definition into_time (j : json) (old : time) : option time :=
  match j with JString s => ParseRFC3339 s | JNull => Some old | _ => None end.

Example times_read :
  map (fun t => ParseRFC3339 (FormatRFC3339Nano t)) [0; unix_epoch; Unix 1709210096 + 120300000]
  = map Some [0; unix_epoch; Unix 1709210096 + 120300000].
Proof. vm_compute. reflexivity. Qed.
Example times_refused :
  map ParseRFC3339 ["2023-02-29T00:00:00Z"; "2024-02-29T24:00:00Z"; "2024-2-29T00:00:00Z"; "2024-02-29T00:00:00,5Z";
    "2024-02-29 00:00:00Z"; "2024-02-29T00:00:00"; "2024-02-29T00:00:00+24:00"]%string = repeat None 7.
Proof. vm_compute. reflexivity. Qed.
Example times_zoned :
  ParseRFC3339 "2024-02-29T12:34:56.1203000009+02:30" = Some (Unix (1709210096 - 9000) + 120300000).
Proof. vm_compute. reflexivity. Qed.
