(* ===== verification/Calendar.v ===== *)
(** The texts of times read back ([Time.MarshalJSON] and [UnmarshalJSON]): the
    calendar's day numbers and their dates are inverse, and so are the text of an
    instant and the instant, for the years 0 to 9999 that the text has room for. *)
From S2P Require Import Prelude GoString GoTime Json Time.

(** * Days and dates *)

Definition yoe_of (doe : Z) : Z := (doe - doe / 1460 + doe / 36524 - doe / 146096) / 365.
Definition doy_of (doe : Z) : Z := doe - (365 * yoe_of doe + yoe_of doe / 4 - yoe_of doe / 100).

Lemma year_of_era doe : 0 <= doe < 146097 -> 0 <= yoe_of doe < 400 /\ 0 <= doy_of doe <= 365.
Proof. intros H. unfold doy_of, yoe_of. Z.div_mod_to_equations. lia. Qed.

(** The 366th day of a year that begins in March is the end of a leap February. *)
Lemma last_day_leap doe : 0 <= doe < 146097 -> doy_of doe = 365 ->
  (yoe_of doe + 1) mod 4 = 0 /\ ((yoe_of doe + 1) mod 100 <> 0 \/ yoe_of doe = 399).
Proof. intros H. unfold doy_of, yoe_of. Z.div_mod_to_equations. lia. Qed.

Lemma day_of_civil day : let '(y, m, d) := civil day in day_of y m d = day.
Proof.
  unfold civil. pose proof (Z.mod_pos_bound (day + 306) 146097 eq_refl) as He.
  pose proof (Z.div_mod (day + 306) 146097 ltac:(lia)) as Hz.
  set (doe := (day + 306) mod 146097) in *. set (era := (day + 306) / 146097) in *.
  destruct (year_of_era doe He) as [Hy Hd].
  fold (yoe_of doe). fold (doy_of doe). set (yoe := yoe_of doe) in *.
  assert (Hdoe : doe = 365 * yoe + yoe / 4 - yoe / 100 + doy_of doe) by (unfold doy_of; fold yoe; lia).
  set (doy := doy_of doe) in *. clearbody yoe doy era doe.
  set (mp := (5 * doy + 2) / 153). assert (Hm : 0 <= mp <= 11) by (subst mp; Z.div_mod_to_equations; lia).
  unfold day_of.
  assert (Hy' : (if (if mp <? 10 then mp + 3 else mp - 9) <=? 2
      then yoe + era * 400 + (if (if mp <? 10 then mp + 3 else mp - 9) <=? 2 then 1 else 0) - 1
      else yoe + era * 400 + (if (if mp <? 10 then mp + 3 else mp - 9) <=? 2 then 1 else 0)) = yoe + era * 400).
  { destruct (_ <=? 2); lia. }
  rewrite Hy', Z.div_add, Z.mod_add, (Z.div_small yoe), (Z.mod_small yoe) by lia.
  assert (Hmp : (if (if mp <? 10 then mp + 3 else mp - 9) <=? 2 then (if mp <? 10 then mp + 3 else mp - 9) + 9
      else (if mp <? 10 then mp + 3 else mp - 9) - 3) = mp).
  { destruct (Z.ltb_spec mp 10); [destruct (Z.leb_spec (mp + 3) 2)|destruct (Z.leb_spec (mp - 9) 2)]; lia. }
  rewrite Hmp. lia.
Qed.

Ltac by_month :=
  match goal with H : 153 * ?mp <= 5 * ?doy + 2 < _, Hd : 0 <= ?doy <= 365 |- _ =>
    let H' := fresh in
    assert (H' : mp = 0 \/ mp = 1 \/ mp = 2 \/ mp = 3 \/ mp = 4 \/ mp = 5 \/ mp = 6 \/ mp = 7 \/ mp = 8 \/ mp = 9
      \/ mp = 10 \/ mp = 11) by lia;
    repeat (destruct H' as [->|H']; [lia|]); subst mp; lia
  end.

(** The dates are dates of the calendar. *)
Lemma civil_valid day : let '(y, m, d) := civil day in 1 <= m <= 12 /\ 1 <= d <= days_in m y.
Proof.
  unfold civil. pose proof (Z.mod_pos_bound (day + 306) 146097 eq_refl) as He.
  set (doe := (day + 306) mod 146097) in *. set (era := (day + 306) / 146097) in *.
  destruct (year_of_era doe He) as [Hy Hd]. pose proof (last_day_leap doe He) as Hleap.
  fold (yoe_of doe). fold (doy_of doe). set (yoe := yoe_of doe) in *. set (doy := doy_of doe) in *.
  clearbody yoe doy era doe.
  set (mp := (5 * doy + 2) / 153).
  assert (Hm : 153 * mp <= 5 * doy + 2 < 153 * mp + 153) by (subst mp; Z.div_mod_to_equations; lia).
  clearbody mp. set (before := (153 * mp + 2) / 5).
  assert (Hb : 5 * before <= 153 * mp + 2 < 5 * before + 5) by (subst before; Z.div_mod_to_equations; lia).
  clearbody before.
  assert (Hmonth : exists m, (if mp <? 10 then mp + 3 else mp - 9) = m /\ (m = mp + 3 /\ mp < 10 \/ m = mp - 9 /\ 10 <= mp)).
  { destruct (Z.ltb_spec mp 10); eauto. }
  destruct Hmonth as (m & -> & Hmonth). unfold days_in. destruct (Z.eqb_spec m 2) as [->|].
  2: { destruct (Z.eqb_spec m 4), (Z.eqb_spec m 6), (Z.eqb_spec m 9), (Z.eqb_spec m 11); cbn [orb]; by_month. }
  destruct (decide (doy = 365)) as [He'|]; [|destruct (leap _); by_month]. change (2 <=? 2) with true. cbv iota.
  destruct (Hleap He') as [H4 H100]. unfold leap.
  replace (yoe + era * 400 + 1) with ((yoe + 1) + (era * 100) * 4) at 1 by lia. rewrite Z.mod_add, H4 by lia.
  replace (yoe + era * 400 + 1) with ((yoe + 1) + (era * 4) * 100) at 1 by lia. rewrite Z.mod_add by lia.
  replace (yoe + era * 400 + 1) with ((yoe + 1) + era * 400) by lia. rewrite Z.mod_add by lia.
  replace ((0 =? 0) && _) with true; [lia|]. symmetry. apply andb_true_intro. split; [done|].
  destruct H100 as [Hn | ->]; [|done]. by apply Z.eqb_neq in Hn as ->.
Qed.

(** * Digits *)

Lemma digit_code r : 0 <= r < 10 -> code (ascii_of_N (Z.to_N (48 + r))) = 48 + r.
Proof. intros H. unfold code. rewrite N_ascii_embedding by lia. lia. Qed.

Lemma is_digit_of r : 0 <= r < 10 -> is_digit (ascii_of_N (Z.to_N (48 + r))) = true.
Proof. intros H. unfold is_digit, in_range. rewrite digit_code by done. lia. Qed.

Lemma digits_value_app acc l l' :
  digits_value acc (l ++ l') = (v ← digits_value acc l; digits_value v l').
Proof. revert acc. induction l as [|c l IH]; intros acc; cbn; [done|]. destruct (is_digit c); [apply IH|done]. Qed.

Lemma digits_length n z : length (digits n z) = n.
Proof. revert z. induction n as [|n IH]; intros z; cbn; [done|]. rewrite length_app, IH. cbn. lia. Qed.

Lemma digits_are_digits n z : forallb is_digit (digits n z) = true.
Proof.
  revert z. induction n as [|n IH]; intros z; cbn [digits]; [done|].
  rewrite forallb_app, IH. cbn [forallb andb]. by rewrite is_digit_of by (apply Z.mod_pos_bound; lia).
Qed.

Lemma digits_value_digits n z : 0 <= z < 10 ^ Z.of_nat n -> digits_value 0 (digits n z) = Some z.
Proof.
  revert z. induction n as [|n IH]; intros z H.
  - change (10 ^ Z.of_nat 0) with 1 in H. cbn. f_equal. lia.
  - rewrite Nat2Z.inj_succ, Z.pow_succ_r in H by lia. cbn [digits].
    rewrite digits_value_app, IH by (split; [apply Z.div_pos|apply Z.div_lt_upper_bound]; lia).
    cbn [mbind option_bind digits_value].
    pose proof (Z.mod_pos_bound z 10 eq_refl). rewrite is_digit_of, digit_code by done. f_equal.
    pose proof (Z.div_mod z 10 ltac:(lia)). lia.
Qed.

Lemma field_at_digits n lo hi z rest : 0 <= z < 10 ^ Z.of_nat n -> lo <= z <= hi ->
  field_at n lo hi (digits n z ++ rest) = Some (z, rest).
Proof.
  intros Hz Hr. unfold field_at. rewrite length_app, digits_length.
  rewrite (proj2 (Nat.ltb_ge _ _)) by lia.
  rewrite take_app_length', drop_app_length' by (by rewrite digits_length).
  rewrite digits_value_digits by done. cbn. by replace ((lo <=? z) && (z <=? hi)) with true by lia.
Qed.

Lemma trim_zeros_prefix l : exists k, l = trim_zeros l ++ repeat "0"%char k /\ length l = (length (trim_zeros l) + k)%nat.
Proof.
  induction l as [|c l (k & Hl & Hk)]; [by exists 0%nat|]. cbn [trim_zeros].
  destruct (trim_zeros l) as [|t ts]; [|exists k; cbn in *; by rewrite Hl, Hk at 1].
  case_bool_decide as Hc; [exists (S k)|exists k]; cbn in *; rewrite Hk; by rewrite Hl at 1; subst.
Qed.

Lemma digit_prefix_all l rest : forallb is_digit l = true ->
  match rest with c :: _ => is_digit c = false | [] => True end -> digit_prefix (l ++ rest) = l.
Proof.
  intros Hl Hr. induction l as [|c l IH]; cbn in *; [by destruct rest; cbn; rewrite ?Hr|].
  apply andb_prop in Hl as [-> Hl]. f_equal. auto.
Qed.

Lemma fraction_digits ns :
  0 <= ns < second ->
  fraction (match trim_zeros (digits 9 ns) with [] => [] | l => "."%char :: l end ++ ["Z"%char]) = (ns, ["Z"%char]).
Proof.
  intros Hns. destruct (trim_zeros_prefix (digits 9 ns)) as (k & Hl & Hk).
  rewrite digits_length in Hk. pose proof (digits_value_digits 9 ns Hns) as Hv.
  pose proof (digits_are_digits 9 ns) as Hd.
  destruct (trim_zeros (digits 9 ns)) as [|t ts].
  - cbn [app] in Hl. rewrite Hl in Hv. cbn in Hk. subst k. cbn in Hv. injection Hv as <-. done.
  - rewrite Hl, forallb_app in Hd. apply andb_prop in Hd as [Hd _].
    change (fraction ("."%char :: (t :: ts) ++ ["Z"%char]) = (ns, ["Z"%char])).
    cbn [fraction]. rewrite (digit_prefix_all (t :: ts) ["Z"%char]) by done.
    replace (take 9 _) with (digits 9 ns).
    + rewrite Hv. by rewrite (drop_app_length' (t :: ts)) by done.
    + rewrite Hl. replace 9%nat with (length (t :: ts) + k)%nat by lia.
      rewrite take_app_add, (Nat.add_comm _ k), repeat_app, take_app_length' by (by rewrite repeat_length).
      done.
Qed.

(** * Instants *)

Definition first_instant : time := day_of 0 1 1 * 86400 * second.
Definition end_of_time : time := day_of 10000 1 1 * 86400 * second.

Lemma year_bounds day : day_of 0 1 1 <= day < day_of 10000 1 1 -> 0 <= (civil day).1.1 <= 9999.
Proof.
  unfold civil. intros H. change (day_of 0 1 1) with (-366) in H. change (day_of 10000 1 1) with 3652059 in H.
  pose proof (Z.mod_pos_bound (day + 306) 146097 eq_refl) as He.
  pose proof (Z.div_mod (day + 306) 146097 ltac:(lia)) as Hz.
  set (doe := (day + 306) mod 146097) in *. set (era := (day + 306) / 146097) in *.
  destruct (year_of_era doe He) as [Hy Hd]. fold (yoe_of doe). fold (doy_of doe).
  assert (Hdoe : doe = 365 * yoe_of doe + yoe_of doe / 4 - yoe_of doe / 100 + doy_of doe) by (unfold doy_of; lia).
  set (yoe := yoe_of doe) in *. set (doy := doy_of doe) in *. clearbody yoe doy era doe. cbn [fst].
  assert (Hmp : 306 <= doy -> 10 <= (5 * doy + 2) / 153) by (Z.div_mod_to_equations; lia).
  assert (Hmp' : doy < 306 -> (5 * doy + 2) / 153 < 10) by (Z.div_mod_to_equations; lia).
  set (mp := (5 * doy + 2) / 153) in *. assert (0 <= mp <= 11) by (subst mp; Z.div_mod_to_equations; lia). clearbody mp.
  assert (Hera : -1 <= era <= 24) by lia.
  assert (Hfirst : era = -1 -> yoe = 399 /\ 306 <= doy) by (intros ->; Z.div_mod_to_equations; lia).
  assert (Hlast : era = 24 -> yoe = 399 -> doy < 306) by (intros -> ->; Z.div_mod_to_equations; lia).
  destruct (Z.ltb_spec mp 10); [destruct (Z.leb_spec (mp + 3) 2)|destruct (Z.leb_spec (mp - 9) 2)]; lia.
Qed.

Lemma two_digits z hi lo rest : 0 <= lo -> lo <= z <= hi -> hi < 100 ->
  field_at 2 lo hi (digits 2 z ++ rest) = Some (z, rest).
Proof. intros. apply field_at_digits; cbn; lia. Qed.

Lemma literal_hit c l : literal c (c :: l) = Some l.
Proof. cbn. by rewrite Ascii.eqb_refl. Qed.

#[local] Ltac reads := cbn [mbind option_bind app]; rewrite ?literal_hit; cbn [mbind option_bind].

Theorem ParseRFC3339_Format t : first_instant <= t < end_of_time -> ParseRFC3339 (FormatRFC3339Nano t) = Some t.
Proof.
  intros Ht. unfold FormatRFC3339Nano.
  pose proof (year_bounds (t / second / 86400)) as Hy. pose proof (civil_valid (t / second / 86400)) as Hv.
  pose proof (day_of_civil (t / second / 86400)) as Hday.
  assert (Hrange : day_of 0 1 1 <= t / second / 86400 < day_of 10000 1 1).
  { unfold first_instant, end_of_time in Ht. unfold second in *. split.
    - apply Z.div_le_lower_bound, Z.div_le_lower_bound; lia.
    - apply Z.div_lt_upper_bound, Z.div_lt_upper_bound; lia. }
  specialize (Hy Hrange). destruct (civil (t / second / 86400)) as [[y m] d]. cbn [fst] in Hy.
  destruct Hv as [Hm Hd]. assert (days_in m y <= 31).
  { unfold days_in. repeat case_match; lia. }
  set (s := (t / second) mod 86400). pose proof (Z.mod_pos_bound (t / second) 86400 eq_refl) as Hs. fold s in Hs.
  pose proof (Z.mod_pos_bound t second eq_refl) as Hns.
  pose proof (fraction_digits (t mod second) Hns) as Hf.
  set (nanos := match trim_zeros (digits 9 (t mod second)) with [] => [] | a :: l => "."%char :: a :: l end ++ ["Z"%char]) in *.
  clearbody nanos. unfold ParseRFC3339. rewrite to_of_bytes. change (?x ++ [?c] ++ ?l) with (x ++ c :: l).
  rewrite field_at_digits by (cbn; lia). reads.
  repeat (rewrite two_digits by (lia || (Z.div_mod_to_equations; lia)); reads).
  rewrite Hf. cbn [zone mbind option_bind]. f_equal.
  rewrite Hday. unfold s, second in *. Z.div_mod_to_equations. lia.
Qed.
