(* ===== verification/Indent.v ===== *)
(** [json.MarshalIndent(v, "", "  ")]: a value on several lines, which the scanner
    reads as the same value, and what the scanner makes of a text that is cut short. *)
From S2P Require Import Prelude GoString Json.

(** * Printing *)

Definition newline (n : nat) : bytes := ascii_of_N 10 :: repeat " "%char (2 * n).

Fixpoint lines (sep : bytes) (l : list bytes) : bytes :=
  match l with
  | [] => []
  | [a] => a
  | a :: l' => a ++ ","%char :: sep ++ lines sep l'
  end.

(** [n]: how deep the value is. *)
Fixpoint print_indent (n : nat) (j : json) : bytes :=
  match j with
  | JArray [] => to_bytes "[]"
  | JArray l => "["%char :: newline (S n) ++ lines (newline (S n)) (map (print_indent (S n)) l) ++ newline n ++ ["]"%char]
  | JObject [] => to_bytes "{}"
  | JObject ms =>
      "{"%char :: newline (S n)
      ++ lines (newline (S n)) (map (fun m => quoted m.1 ++ ":"%char :: " "%char :: print_indent (S n) m.2) ms)
      ++ newline n ++ ["}"%char]
  | _ => print j
  end.

Definition MarshalIndent (j : json) : bytes := print_indent 0 j.

Example indent_ex :
  of_bytes (MarshalIndent (JObject [("a", JArray [JInt 1; JInt 2]); ("b", JObject []); ("c", JString "x")]))
  = String.concat (String (ascii_of_N 10) "")
      [dq "{"; dq "  'a': ["; "    1,"; "    2"; "  ],"; dq "  'b': {},"; dq "  'c': 'x'"; "}"]%string.
Proof. vm_compute. reflexivity. Qed.

(** * Reading *)

Definition skips_spaces (s : scan_state) : bool :=
  match s with
  | BeginValue | BeginValueOrEmpty | BeginString | BeginStringOrEmpty | EndKey | EndValue => true
  | _ => false
  end.

Lemma run_space s st c rest : skips_spaces s = true -> isSpace c = true -> run s st (c :: rest) = run s st rest.
Proof.
  intros Hs Hc. cbn [run]. destruct s; try done; cbn [step];
    unfold step_value, step_key, step_end; rewrite Hc; done.
Qed.

Lemma run_spaces s st ws rest : skips_spaces s = true -> forallb isSpace ws = true ->
  run s st (ws ++ rest) = run s st rest.
Proof.
  intros Hs. induction ws as [|c ws IH]; cbn [forallb app]; [done|].
  intros [Hc Hw]%andb_prop. rewrite run_space by done. auto.
Qed.

Lemma newline_spaces n : forallb isSpace (newline n) = true.
Proof. unfold newline. cbn [forallb]. by induction (2 * n)%nat. Qed.

Lemma delimits_newline n rest : delimits (newline n ++ rest) = true.
Proof. done. Qed.

Definition indented (j : json) : Prop := forall n st rest,
  printable j = true -> delimits rest = true -> Z.of_nat (length st) + depth j <= 10000 ->
  run BeginValue st (print_indent n j ++ rest) = after (complete j st) rest.

(** Before the first element the scanner expects one, or the closing bracket. *)
Lemma run_first_element n j st rest : printable j = true ->
  run BeginValueOrEmpty st (print_indent n j ++ rest) = run BeginValue st (print_indent n j ++ rest).
Proof.
  intros Hj.
  assert (Hhead : exists c l, print_indent n j = c :: l /\ isSpace c = false /\ Ascii.eqb c "]" = false).
  { destruct j as [|[]|num|s|[|]|[|]]; cbn [print_indent]; try (by eauto 10);
      by apply (print_head _ Hj). }
  destruct Hhead as (c & l & -> & Hs & Hb). cbn [app run step]. by rewrite Hs, Hb.
Qed.

Lemma run_lines_elements n l acc st rest : Forall indented l -> l <> [] -> forallb printable l = true ->
  Z.of_nat (length st) + 1 + foldr Z.max 0 (map depth l) <= 10000 ->
  run BeginValue (InArray acc :: st)
    (lines (newline (S n)) (map (print_indent (S n)) l) ++ newline n ++ "]"%char :: rest)
  = after (complete (JArray (rev acc ++ l)) st) rest.
Proof.
  intros Hl. revert acc. induction Hl as [|j l Hj Hl IH]; intros acc Hne Hp Hd; [done|].
  cbn [forallb] in Hp. apply andb_prop in Hp as [Hpj Hp]. cbn [map foldr] in Hd.
  destruct l as [|j' l].
  - cbn [map lines]. rewrite Hj by (done || (cbn [length]; lia)). cbn [complete after].
    rewrite run_spaces by (done || apply newline_spaces).
    transitivity (after (complete (JArray (rev (j :: acc))) st) rest); [by destruct st as [|[]]|done].
  - change (lines ?s (map ?f (j :: j' :: l))) with (f j ++ ","%char :: s ++ lines s (map f (j' :: l))).
    rewrite <- app_assoc, Hj by (done || (cbn [length]; lia)). cbn [app].
    transitivity (run BeginValue (InArray (j :: acc) :: st) (newline (S n) ++
      (lines (newline (S n)) (map (print_indent (S n)) (j' :: l)) ++ newline n ++ "]"%char :: rest))).
    { by rewrite <- app_assoc. }
    rewrite run_spaces, IH by (done || lia || apply newline_spaces). cbn [rev]. by rewrite <- app_assoc.
Qed.

Lemma run_lines_members n ms acc st rest : Forall (fun m => indented m.2) ms -> ms <> [] ->
  forallb (fun m => utf8_string m.1 && printable m.2) ms = true ->
  Z.of_nat (length st) + 1 + foldr Z.max 0 (map (fun m => depth m.2) ms) <= 10000 ->
  run BeginString (InObject acc :: st)
    (lines (newline (S n)) (map (fun m => quoted m.1 ++ ":"%char :: " "%char :: print_indent (S n) m.2) ms)
     ++ newline n ++ "}"%char :: rest)
  = after (complete (JObject (rev acc ++ ms)) st) rest.
Proof.
  intros Hl. revert acc. induction Hl as [|[k j] ms Hj Hl IH]; intros acc Hne Hp Hd; [done|].
  cbn [forallb fst snd] in Hp. apply andb_prop in Hp as [Hpj Hp].
  apply andb_prop in Hpj as [Hk Hpj]. cbn [map foldr fst snd] in Hd, Hj.
  destruct ms as [|m ms].
  - cbn [map lines fst snd]. rewrite <- app_assoc. cbn [app].
    rewrite run_key, run_space, Hj by (done || (cbn [length]; lia)). cbn [complete after].
    rewrite run_spaces by (done || apply newline_spaces).
    transitivity (after (complete (JObject (rev ((k, j) :: acc))) st) rest); [by destruct st as [|[]]|done].
  - set (f := fun m => quoted m.1 ++ ":"%char :: " "%char :: print_indent (S n) m.2) in *.
    change (lines ?s (map f ((k, j) :: m :: ms))) with (f (k, j) ++ ","%char :: s ++ lines s (map f (m :: ms))).
    unfold f at 1. cbn [fst snd]. rewrite <- !app_assoc. cbn [app].
    rewrite run_key, run_space, Hj by (done || (cbn [length]; lia)). cbn [complete after].
    transitivity (run BeginString (InObject ((k, j) :: acc) :: st) (newline (S n) ++
      (lines (newline (S n)) (map f (m :: ms)) ++ newline n ++ "}"%char :: rest))).
    { by rewrite <- app_assoc. }
    rewrite run_spaces, IH by (done || lia || apply newline_spaces). cbn [rev]. by rewrite <- app_assoc.
Qed.

Lemma run_print_indent j : indented j.
Proof.
  induction j as [|b|num|s|l IH|ms IH] using json_nested_ind; intros n st rest Hp Hr Hd;
    [by apply run_print..| |].
  - destruct l as [|j l]; [by apply (run_print (JArray []))|].
    cbn [print_indent]. cbn [depth] in Hd. pose proof (max_depth_nonneg depth (j :: l)).
    cbn [app]. rewrite run_open_array by lia. rewrite <- !app_assoc.
    rewrite run_spaces by (done || apply newline_spaces).
    etransitivity; [|by apply (run_lines_elements n (j :: l) [] st rest); [..|lia]].
    cbn [printable forallb] in Hp. apply andb_prop in Hp as [Hpj _].
    destruct l as [|j' l]; cbn [map lines]; rewrite <- ?app_assoc; by rewrite run_first_element.
  - destruct ms as [|m ms]; [by apply (run_print (JObject []))|].
    cbn [print_indent]. cbn [depth] in Hd. pose proof (max_depth_nonneg (fun m => depth m.2) (m :: ms)).
    cbn [app]. rewrite run_open_object by lia. rewrite <- !app_assoc.
    rewrite run_spaces by (done || apply newline_spaces).
    etransitivity; [|by apply (run_lines_members n (m :: ms) [] st rest); [..|lia]].
    destruct ms as [|m' ms]; cbn [map lines]; rewrite <- !app_assoc, !quoted_eq; done.
Qed.

(** * A text that is cut short *)

Lemma complete_open v st s st' : st <> [] -> complete v st = Continue s st' -> st' <> [].
Proof. by destruct st as [|[] st]; cbn; intros ? [=]; subst. Qed.

Lemma step_end_open c st s st' : st <> [] -> step_end c st = Continue s st' -> st' <> [].
Proof.
  intros Hst. unfold step_end. destruct (isSpace c); [congruence|].
  destruct st as [|[] st]; try done; repeat case_match; intros Hc; try congruence;
    (destruct st; [cbn in Hc; congruence|by eapply complete_open; [|exact Hc]]).
Qed.

(** Inside an array or an object the scanner stays there until its value is complete. *)
Lemma step_open s st c s' st' : st <> [] -> step s st c = Continue s' st' -> st' <> [].
Proof.
  intros Hst. destruct s; cbn [step]; unfold step_value, step_key, push, end_string;
    repeat case_match; intros Hc; try congruence;
    try (by injection Hc as <- <-); try (by eapply step_end_open; [|exact Hc]); try (by eapply complete_open; [|exact Hc]);
    try (by eapply step_end_open; [|exact Hc]; eapply complete_open; [|eassumption]).
Qed.

Lemma run_longer s st l v rest more : st <> [] -> run s st l = Some (v, rest) ->
  run s st (l ++ more) = Some (v, rest ++ more).
Proof.
  revert s st. induction l as [|c l IH]; intros s st Hst; cbn [run app]; [by destruct s, st|].
  destruct (step s st c) eqn:Hs; try done; [|by intros [= -> ->]|by intros [= -> <-]].
  intros H. apply IH; [by eapply step_open|done].
Qed.

(** An object is read only from a text that has all of it. *)
Lemma cut_short l m v : run BeginValue [] ("{"%char :: l ++ m) = Some (v, []) -> m <> [] ->
  run BeginValue [] ("{"%char :: l) = None.
Proof.
  rewrite !run_open_object by (cbn; lia). intros H Hm.
  destruct (run BeginStringOrEmpty [InObject []] l) as [[v' rest]|] eqn:Hr; [|done].
  apply (run_longer _ _ _ _ _ m) in Hr; [|done]. rewrite Hr in H. injection H as _ H.
  by destruct rest, m.
Qed.
