(* ===== verification/Domain.v ===== *)
(** The domain types of [internal/domain/types.go] and their validators: what
    the gateway accepts from the scanner as a balance, a note summary or a
    batch of note statuses.

    The validators run on [int64] and are written here with Go's wrap-around;
    the theorems show that the guards they carry make every sum and product
    exact, so that each validator decides the plain arithmetic statement. *)
From Stdlib Require Import SpecFloat.
From S2P Require Import Prelude GoString GoTime.

(** * Networks *)

(** The named string type [Network]: its three constants, or any other text. *)
Inductive Network : Type := Mainnet | Testnet | Regtest | OtherNetwork (s : string).

#[export] Instance Network_eq_dec : EqDecision Network.
Proof. solve_decision. Defined.

Definition network_string (n : Network) : string :=
  match n with
  | Mainnet => "mainnet" | Testnet => "testnet" | Regtest => "regtest"
  | OtherNetwork s => s
  end.

Definition ParseNetwork (s : string) : result Network :=
  let t := ToLower (TrimSpace s) in
  if String.eqb t "mainnet" then Ok Mainnet
  else if String.eqb t "testnet" then Ok Testnet
  else if String.eqb t "regtest" then Ok Regtest
  else Err (New "network must be mainnet, testnet, or regtest").

Definition AddressHRP (n : Network) : string :=
  match n with
  | Mainnet => "j" | Testnet => "jtest" | Regtest => "jregtest" | OtherNetwork _ => ""
  end.

Definition UFVKHRP (n : Network) : string :=
  match n with
  | Mainnet => "jview" | Testnet => "jviewtest" | Regtest => "jviewregtest" | OtherNetwork _ => ""
  end.

Definition NodeChain (n : Network) : string :=
  match n with
  | Mainnet => "main" | Testnet => "test" | Regtest => "regtest" | OtherNetwork _ => ""
  end.

(** * Node and scanner snapshots *)

Record NodeTip := {
  tip_Network : string;
  tip_Height : Z;
  tip_Hash : string;
  tip_BlockTime : Z;
  tip_Headers : Z;
  tip_InitialBlockDownload : bool;
  tip_VerificationProgress : spec_float
}.

Record ScannerHealth := {
  health_Status : string;
  health_Network : string;
  health_UAHRP : string;
  health_Confirmations : option Z;
  health_EventEpoch : string;
  health_Ready : option bool;
  health_NodeHeight : option Z;
  health_ScannedHeight : option Z;
  health_ScannedHash : string;
  health_ScannerLag : option Z;
  health_MaxReadyLag : option Z;
  health_HistoryComplete : option bool;
  health_PendingSpendsReady : option bool
}.

(** * Address balances *)

Record Balance := {
  bal_WalletID : string;
  bal_RecipientAddress : string;
  bal_AvailableZat : Z;
  bal_PendingIncomingZat : Z;
  bal_PendingOutgoingZat : Z;
  bal_TotalUnspentZat : Z;
  bal_MinConfirmations : Z;
  bal_AsOfNodeHeight : Z;
  bal_AsOfScannerHeight : Z;
  bal_ScannerLag : Z
}.

Definition Balance_ValidFor (b : Balance) (walletID recipientAddress : string)
    (minConfirmations : Z) : bool :=
  if negb (String.eqb (bal_WalletID b) walletID)
     || negb (String.eqb (bal_RecipientAddress b) recipientAddress)
     || negb (bal_MinConfirmations b =? minConfirmations)
     || (bal_AvailableZat b <? 0) || (bal_PendingIncomingZat b <? 0)
     || (bal_PendingOutgoingZat b <? 0) || (bal_TotalUnspentZat b <? 0)
     || (bal_MinConfirmations b <? 0) || (bal_AsOfNodeHeight b <? 0)
     || (bal_AsOfScannerHeight b <? 0) || (bal_ScannerLag b <? 0)
     || (bal_AsOfNodeHeight b <? bal_AsOfScannerHeight b)
     || negb (bal_ScannerLag b =? sub64 (bal_AsOfNodeHeight b) (bal_AsOfScannerHeight b))
     || (bal_TotalUnspentZat b <? bal_AvailableZat b)
     || (bal_TotalUnspentZat b <? bal_PendingIncomingZat b)
     || (bal_TotalUnspentZat b <? bal_PendingOutgoingZat b)
  then false
  else if (sub64 int64_max (bal_PendingIncomingZat b) <? bal_AvailableZat b)
     || (sub64 int64_max (bal_PendingOutgoingZat b)
           <? add64 (bal_AvailableZat b) (bal_PendingIncomingZat b))
  then false
  else add64 (add64 (bal_AvailableZat b) (bal_PendingIncomingZat b)) (bal_PendingOutgoingZat b)
         =? bal_TotalUnspentZat b.

(** What a [Balance] decoded from JSON always satisfies. *)
Definition balance_int64 (b : Balance) : Prop :=
  int64 (bal_AvailableZat b) /\ int64 (bal_PendingIncomingZat b) /\
  int64 (bal_PendingOutgoingZat b) /\ int64 (bal_TotalUnspentZat b) /\
  int64 (bal_AsOfNodeHeight b) /\ int64 (bal_AsOfScannerHeight b).

Definition balance_spec (b : Balance) (walletID recipientAddress : string)
    (minConfirmations : Z) : Prop :=
  bal_WalletID b = walletID /\ bal_RecipientAddress b = recipientAddress /\
  bal_MinConfirmations b = minConfirmations /\ 0 <= minConfirmations /\
  0 <= bal_AvailableZat b /\ 0 <= bal_PendingIncomingZat b /\
  0 <= bal_PendingOutgoingZat b /\
  bal_AvailableZat b + bal_PendingIncomingZat b + bal_PendingOutgoingZat b
    = bal_TotalUnspentZat b /\
  0 <= bal_AsOfScannerHeight b <= bal_AsOfNodeHeight b /\
  bal_ScannerLag b = bal_AsOfNodeHeight b - bal_AsOfScannerHeight b.

(** * Note summaries *)

Record NoteValueSummary := { nv_NoteCount : Z; nv_ValueZat : Z }.

Record SpendableNoteSummary := {
  sp_Value : NoteValueSummary;
  sp_SmallestNoteZat : option Z;
  sp_LargestNoteZat : option Z
}.

Record PendingSpendNoteSummary := {
  ps_Value : NoteValueSummary;
  ps_KnownExpiryCount : Z;
  ps_NextExpiryHeight : option Z;
  ps_LastExpiryHeight : option Z
}.

Record WalletNoteSummary := {
  ws_WalletID : string;
  ws_MinConfirmations : Z;
  ws_MinNoteZat : Z;
  ws_AsOfScannerHeight : Z;
  ws_AsOfScannerHash : string;
  ws_TotalUnspent : NoteValueSummary;
  ws_Spendable : SpendableNoteSummary;
  ws_Immature : NoteValueSummary;
  ws_PendingSpend : PendingSpendNoteSummary;
  ws_BelowMinNote : NoteValueSummary;
  ws_WitnessUnavailable : NoteValueSummary
}.

Definition isLowerHex64 (value : string) : bool :=
  if negb (len value =? 64) then false
  else all_bytes (fun c => in_range 48 57 c || in_range 97 102 c) value.

Definition summary_buckets (s : WalletNoteSummary) : list NoteValueSummary :=
  [sp_Value (ws_Spendable s); ws_Immature s; ps_Value (ws_PendingSpend s);
   ws_BelowMinNote s; ws_WitnessUnavailable s].

(** The loop over the buckets; [None] is its early [return false]. *)
Fixpoint sum_buckets (count value : Z) (buckets : list NoteValueSummary) : option (Z * Z) :=
  match buckets with
  | [] => Some (count, value)
  | b :: rest =>
      if (nv_NoteCount b <? 0) || (nv_ValueZat b <? 0)
         || ((nv_NoteCount b =? 0) && negb (nv_ValueZat b =? 0))
         || (sub64 int64_max (nv_NoteCount b) <? count)
         || (sub64 int64_max (nv_ValueZat b) <? value)
      then None
      else sum_buckets (add64 count (nv_NoteCount b)) (add64 value (nv_ValueZat b)) rest
  end.

Definition spendable_ok (sp : SpendableNoteSummary) (minNoteZat : Z) : bool :=
  let count := nv_NoteCount (sp_Value sp) in
  let value := nv_ValueZat (sp_Value sp) in
  if count =? 0 then
    match sp_SmallestNoteZat sp, sp_LargestNoteZat sp with None, None => true | _, _ => false end
  else
    match sp_SmallestNoteZat sp, sp_LargestNoteZat sp with
    | Some smallest, Some largest =>
        negb ((smallest <=? 0) || (smallest <? minNoteZat) || (largest <? smallest)
              || (value <? largest) || (Z.quot int64_max count <? smallest)
              || (value <? mul64 smallest count)
              || ((largest <=? Z.quot int64_max count) && (mul64 largest count <? value)))
    | _, _ => false
    end.

Definition pending_ok (ps : PendingSpendNoteSummary) (scannerHeight : Z) : bool :=
  if (ps_KnownExpiryCount ps <? 0) || (nv_NoteCount (ps_Value ps) <? ps_KnownExpiryCount ps)
  then false
  else if ps_KnownExpiryCount ps =? 0 then
    match ps_NextExpiryHeight ps, ps_LastExpiryHeight ps with
    | None, None => true | _, _ => false end
  else
    match ps_NextExpiryHeight ps, ps_LastExpiryHeight ps with
    | Some next, Some last => negb ((next <? scannerHeight) || (last <? next))
    | _, _ => false
    end.

Definition below_min_ok (b : NoteValueSummary) (minNoteZat : Z) : bool :=
  if nv_NoteCount b =? 0 then nv_ValueZat b =? 0
  else if minNoteZat =? 0 then nv_ValueZat b =? 0
  else
    let maxBelowValuePerNote := sub64 minNoteZat 1 in
    if maxBelowValuePerNote =? 0 then nv_ValueZat b =? 0
    else (Z.quot int64_max maxBelowValuePerNote <? nv_NoteCount b)
         || (nv_ValueZat b <=? mul64 (nv_NoteCount b) maxBelowValuePerNote).

Definition WalletNoteSummary_ValidFor (s : WalletNoteSummary) (walletID : string)
    (minConfirmations minNoteZat maxNotes : Z) : bool :=
  if negb (String.eqb (ws_WalletID s) walletID)
     || negb (ws_MinConfirmations s =? minConfirmations)
     || negb (ws_MinNoteZat s =? minNoteZat)
     || (minConfirmations <? 0) || (minNoteZat <? 0) || (ws_AsOfScannerHeight s <? 0)
     || negb (isLowerHex64 (ws_AsOfScannerHash s)) || (maxNotes <? 1)
  then false
  else match sum_buckets 0 0 (summary_buckets s) with
  | None => false
  | Some (count, value) =>
      let total := ws_TotalUnspent s in
      if (nv_NoteCount total <? 0) || (nv_ValueZat total <? 0)
         || (maxNotes <? nv_NoteCount total)
         || negb (count =? nv_NoteCount total) || negb (value =? nv_ValueZat total)
      then false
      else spendable_ok (ws_Spendable s) minNoteZat
           && pending_ok (ws_PendingSpend s) (ws_AsOfScannerHeight s)
           && below_min_ok (ws_BelowMinNote s) minNoteZat
  end.

(** * Note statuses *)

Inductive NoteState : Type :=
  | NoteUnknown | NoteUnspent | NotePending | NoteSpent | NoteOther (s : string).

#[export] Instance NoteState_eq_dec : EqDecision NoteState.
Proof. solve_decision. Defined.

Record NoteStatus := {
  ns_NoteID : string;
  ns_State : NoteState;
  ns_SourceHeight : option Z;
  ns_ValueZat : option Z;
  ns_PendingSpentTxID : option string;
  ns_PendingSpentAt : option time;
  ns_PendingSpentExpiryHeight : option Z;
  ns_SpentTxID : option string;
  ns_SpentHeight : option Z;
  ns_SpentConfirmedHeight : option Z
}.

Record WalletNoteStatuses := {
  wns_WalletID : string;
  wns_EventEpoch : string;
  wns_AsOfScannerHeight : Z;
  wns_AsOfScannerHash : string;
  wns_Statuses : list NoteStatus
}.

Definition byte_at (s : string) (i : nat) : option ascii := String.get i s.

Definition ValidNoteID (value : string) : bool :=
  let '(txid, action, found) := Cut value ":" in
  if negb found || Contains action ":" || negb (isLowerHex64 txid) || String.eqb action ""
     || ((1 <? len action) && bool_decide (byte_at action 0 = Some "0"%char))
  then false
  else if negb (all_bytes is_digit action) then false
  else match ParseUint action 32 with Some _ => true | None => false end.

Definition is_none {A} (o : option A) : bool := match o with None => true | Some _ => false end.

Definition validAt (s : NoteStatus) (scannerHeight : Z) : bool :=
  let known :=
    match ns_SourceHeight s, ns_ValueZat s with
    | Some h, Some v => (0 <=? h) && (h <=? scannerHeight) && (0 <=? v)
    | _, _ => false
    end in
  let noSource := is_none (ns_SourceHeight s) && is_none (ns_ValueZat s) in
  let noPending := is_none (ns_PendingSpentTxID s) && is_none (ns_PendingSpentAt s)
                   && is_none (ns_PendingSpentExpiryHeight s) in
  let noSpent := is_none (ns_SpentTxID s) && is_none (ns_SpentHeight s)
                 && is_none (ns_SpentConfirmedHeight s) in
  match ns_State s with
  | NoteUnknown => noSource && noPending && noSpent
  | NoteUnspent => known && noPending && noSpent
  | NotePending =>
      match ns_PendingSpentTxID s, ns_PendingSpentAt s with
      | Some txid, Some pendingAt =>
          if negb known || negb noSpent || negb (isLowerHex64 txid) || IsZero pendingAt
          then false
          else match ns_PendingSpentExpiryHeight s with
               | None => true
               | Some e => scannerHeight <=? e
               end
      | _, _ => false
      end
  | NoteSpent =>
      match ns_SpentTxID s, ns_SpentHeight s, ns_SourceHeight s with
      | Some txid, Some h, Some source =>
          if negb known || negb noPending || negb (isLowerHex64 txid)
             || (h <? source) || (scannerHeight <? h)
          then false
          else match ns_SpentConfirmedHeight s with
               | None => true
               | Some c => (h <=? c) && (c <=? scannerHeight)
               end
      | _, _, _ => false
      end
  | NoteOther _ => false
  end.

(** The loop of [WalletNoteStatuses.ValidFor]: requested IDs and statuses side
    by side (their lengths agree), [seen] the IDs already met. *)
Fixpoint statuses_ok (seen : gset string) (height : Z)
    (noteIDs : list string) (statuses : list NoteStatus) : bool :=
  match noteIDs, statuses with
  | requested :: ids, status :: rest =>
      if negb (ValidNoteID requested) then false
      else if bool_decide (requested ∈ seen) then false
      else if negb (String.eqb (ns_NoteID status) requested) || negb (validAt status height)
      then false
      else statuses_ok ({[requested]} ∪ seen) height ids rest
  | _, _ => true
  end.

Definition WalletNoteStatuses_ValidFor (s : WalletNoteStatuses) (walletID : string)
    (noteIDs : list string) : bool :=
  if negb (String.eqb (wns_WalletID s) walletID) || negb (isLowerHex64 (wns_EventEpoch s))
     || (wns_AsOfScannerHeight s <? 0) || negb (isLowerHex64 (wns_AsOfScannerHash s))
     || negb (Nat.eqb (length (wns_Statuses s)) (length noteIDs))
     || (Z.of_nat (length noteIDs) <? 1) || (200 <? Z.of_nat (length noteIDs))
  then false
  else statuses_ok ∅ (wns_AsOfScannerHeight s) noteIDs (wns_Statuses s).

(** * Other data the adapters exchange *)

Record ScannerEvent := {
  se_ID : Z;
  se_Kind : string;
  se_Height : Z;
  se_Payload : string;
  se_CreatedAt : time
}.

Record EventsPage := {
  ep_Events : list ScannerEvent;
  ep_NextCursor : Z;
  ep_EventEpoch : string
}.

Record BackfillStatus := {
  bf_WalletID : string;
  bf_UFVKFingerprint : string;
  bf_BirthdayHeight : Z;
  bf_NextHeight : Z;
  bf_TargetHeight : Z;
  bf_State : string;
  bf_UpdatedAt : time
}.

Record EventFilter := { ef_Kinds : list string; ef_TxID : string }.

Record Transaction := {
  tx_TxID : string;
  tx_State : string;
  tx_Confirmations : Z;
  tx_BlockHash : string;
  tx_BlockHeight : option Z;
  tx_BlockTime : option Z;
  tx_ExpiryHeight : option Z;
  tx_SerializedSize : option Z;
  tx_OrchardActions : option Z;
  tx_RawTxHex : string
}.

(** [errors.As(err, &UpstreamError{})] and [IsUpstreamKind]. *)
Fixpoint as_upstream (e : error) : option (string * error) :=
  match e with
  | UpstreamError kind cause => Some (kind, cause)
  | Wrap _ cause => as_upstream cause
  | _ => None
  end.
Definition IsUpstreamKind (err : error) (kind : string) : bool :=
  match as_upstream err with Some (k, _) => String.eqb k kind | None => false end.

(** * Specifications and theorems *)

Definition nv_int64 (v : NoteValueSummary) : Prop := int64 (nv_NoteCount v) /\ int64 (nv_ValueZat v).

Definition opt_int64 (o : option Z) : Prop := forall z, o = Some z -> int64 z.

(** What a [WalletNoteSummary] decoded from JSON always satisfies. *)
Definition summary_int64 (s : WalletNoteSummary) : Prop :=
  Forall nv_int64 (summary_buckets s) /\ nv_int64 (ws_TotalUnspent s) /\
  opt_int64 (sp_SmallestNoteZat (ws_Spendable s)) /\
  opt_int64 (sp_LargestNoteZat (ws_Spendable s)).

Definition bucket_ok (b : NoteValueSummary) : Prop :=
  0 <= nv_NoteCount b /\ 0 <= nv_ValueZat b /\ (nv_NoteCount b = 0 -> nv_ValueZat b = 0).

Fixpoint total_count (bs : list NoteValueSummary) : Z :=
  match bs with [] => 0 | b :: bs' => nv_NoteCount b + total_count bs' end.
Fixpoint total_value (bs : list NoteValueSummary) : Z :=
  match bs with [] => 0 | b :: bs' => nv_ValueZat b + total_value bs' end.

(** [count] notes of at least [smallest] and at most [largest] zatoshi can be
    worth [value]. *)
Definition spendable_spec (sp : SpendableNoteSummary) (minNoteZat : Z) : Prop :=
  let count := nv_NoteCount (sp_Value sp) in
  let value := nv_ValueZat (sp_Value sp) in
  (count = 0 /\ sp_SmallestNoteZat sp = None /\ sp_LargestNoteZat sp = None) \/
  (count <> 0 /\ exists smallest largest,
     sp_SmallestNoteZat sp = Some smallest /\ sp_LargestNoteZat sp = Some largest /\
     0 < smallest /\ minNoteZat <= smallest <= largest /\ largest <= value /\
     smallest * count <= value <= largest * count).

Definition pending_spec (ps : PendingSpendNoteSummary) (scannerHeight : Z) : Prop :=
  0 <= ps_KnownExpiryCount ps <= nv_NoteCount (ps_Value ps) /\
  ((ps_KnownExpiryCount ps = 0 /\ ps_NextExpiryHeight ps = None /\ ps_LastExpiryHeight ps = None) \/
   (ps_KnownExpiryCount ps <> 0 /\ exists next last,
      ps_NextExpiryHeight ps = Some next /\ ps_LastExpiryHeight ps = Some last /\
      scannerHeight <= next <= last)).

Definition summary_spec (s : WalletNoteSummary) (walletID : string)
    (minConfirmations minNoteZat maxNotes : Z) : Prop :=
  (ws_WalletID s = walletID /\ ws_MinConfirmations s = minConfirmations /\
   ws_MinNoteZat s = minNoteZat /\ 0 <= minConfirmations /\ 0 <= minNoteZat /\
   0 <= ws_AsOfScannerHeight s /\ isLowerHex64 (ws_AsOfScannerHash s) = true /\ 1 <= maxNotes) /\
  (Forall bucket_ok (summary_buckets s) /\
   total_count (summary_buckets s) = nv_NoteCount (ws_TotalUnspent s) /\
   total_value (summary_buckets s) = nv_ValueZat (ws_TotalUnspent s) /\
   nv_NoteCount (ws_TotalUnspent s) <= maxNotes) /\
  spendable_spec (ws_Spendable s) minNoteZat /\
  pending_spec (ws_PendingSpend s) (ws_AsOfScannerHeight s) /\
  nv_ValueZat (ws_BelowMinNote s)
    <= nv_NoteCount (ws_BelowMinNote s) * Z.max 0 (minNoteZat - 1).

(** an accepted balance is exactly one that is for the request, splits the
    unspent total into non-negative parts and reports the node-scanner lag. *)
Theorem Balance_ValidFor_spec b w r m :
  balance_int64 b -> Balance_ValidFor b w r m = true <-> balance_spec b w r m.
Proof.
  intros (?&?&?&?&?&?). unfold Balance_ValidFor, balance_spec. split.
  - intros Hv. repeat case_match; try done. bool_to_prop.
    assert (bal_ScannerLag b = bal_AsOfNodeHeight b - bal_AsOfScannerHeight b) by arith64.
    repeat split; try done; arith64.
  - intros (-> & -> & -> & Hrest).
    rewrite !String.eqb_refl. cbn [negb orb].
    note_exact. width. repeat case_match; lia.
Qed.

Lemma totals_nonneg bs : Forall bucket_ok bs -> 0 <= total_count bs /\ 0 <= total_value bs.
Proof. induction 1 as [|b bs (?&?&?)]; cbn; lia. Qed.

Lemma sum_buckets_spec bs c v c' v' :
  0 <= c <= int64_max -> 0 <= v <= int64_max -> Forall nv_int64 bs ->
  sum_buckets c v bs = Some (c', v') <->
  Forall bucket_ok bs /\ c' = c + total_count bs /\ v' = v + total_value bs /\
  c' <= int64_max /\ v' <= int64_max.
Proof.
  revert c v. induction bs as [|b bs IH]; intros c v Hc Hv Hbs; cbn.
  { split; [intros [= <- <-]; split; [constructor|]; lia|].
    intros (_ & -> & -> & _). do 2 f_equal; lia. }
  inversion Hbs as [|? ? [? ?] Hbs']; subst. clear Hbs.
  pose proof (totals_nonneg bs) as Hnonneg.
  case_match eqn:Hg.
  - split; [done|]. intros (Hok & -> & -> & ? & ?). exfalso.
    inversion Hok as [|? ? (?&?&?) Hok']; subst. specialize (Hnonneg Hok').
    note_exact. width. lia.
  - bool_to_prop. rewrite IH; [|arith64|arith64|done].
    assert (add64 c (nv_NoteCount b) = c + nv_NoteCount b) as -> by arith64.
    assert (add64 v (nv_ValueZat b) = v + nv_ValueZat b) as -> by arith64.
    rewrite Forall_cons.
    assert (bucket_ok b) by (unfold bucket_ok; lia).
    split; intros (?&?&?&?&?); repeat split; try done; try lia; naive_solver.
Qed.

Lemma mul64_small a b : 0 <= a -> 0 < b -> a <= Z.quot int64_max b -> mul64 a b = a * b.
Proof.
  intros Ha Hb Hq. rewrite Z.quot_div_nonneg in Hq by (width; lia).
  apply mul64_id. pose proof (Z.mul_div_le int64_max b Hb). width. nia.
Qed.

Lemma quot_lt_mul a b : 0 <= a -> 0 < b -> Z.quot int64_max b < a -> int64_max < a * b.
Proof.
  intros Ha Hb Hq. rewrite Z.quot_div_nonneg in Hq by (width; lia).
  pose proof (Z.mul_succ_div_gt int64_max b Hb). nia.
Qed.

Lemma spendable_ok_spec sp m :
  nv_int64 (sp_Value sp) -> bucket_ok (sp_Value sp) ->
  opt_int64 (sp_SmallestNoteZat sp) -> opt_int64 (sp_LargestNoteZat sp) ->
  spendable_ok sp m = true <-> spendable_spec sp m.
Proof.
  intros [Hc Hv] (? & ? & ?) Hs Hl. unfold spendable_ok, spendable_spec.
  set (count := nv_NoteCount (sp_Value sp)) in *. set (value := nv_ValueZat (sp_Value sp)) in *.
  destruct (Z.eqb_spec count 0) as [|Hne].
  { destruct (sp_SmallestNoteZat sp), (sp_LargestNoteZat sp); naive_solver. }
  destruct (sp_SmallestNoteZat sp) as [smallest|]; [|naive_solver].
  destruct (sp_LargestNoteZat sp) as [largest|]; [|naive_solver].
  specialize (Hs _ eq_refl). specialize (Hl _ eq_refl). split.
  - intros Hg. bool_to_prop. right. split; [done|].
    rewrite mul64_small in * by lia.
    exists smallest, largest. repeat split; try done; try lia.
    match goal with H : (_ && _) = false |- _ => apply andb_false_iff in H as [Hb|Hb] end;
      bool_to_prop.
    + pose proof (quot_lt_mul largest count). width. lia.
    + destruct (Z.le_gt_cases largest (Z.quot int64_max count)).
      * rewrite mul64_small in Hb by lia. lia.
      * pose proof (quot_lt_mul largest count). width. lia.
  - intros [[? _]|(_ & s' & l' & [= <-] & [= <-] & ? & ? & ? & ?)]; [done|].
    assert (smallest <= Z.quot int64_max count).
    { destruct (Z.le_gt_cases smallest (Z.quot int64_max count)); [done|].
      pose proof (quot_lt_mul smallest count). width. lia. }
    rewrite (mul64_small smallest) by lia.
    apply negb_true_iff. rewrite !orb_false_iff, andb_false_iff.
    repeat split; try (apply Z.ltb_ge || apply Z.leb_gt; lia).
    destruct (Z.le_gt_cases largest (Z.quot int64_max count)).
    + rewrite (mul64_small largest) by lia. right. apply Z.ltb_ge. lia.
    + left. apply Z.leb_gt. lia.
Qed.

Lemma pending_ok_spec ps h : pending_ok ps h = true <-> pending_spec ps h.
Proof.
  unfold pending_ok, pending_spec.
  destruct (ps_NextExpiryHeight ps), (ps_LastExpiryHeight ps); split;
    repeat case_match; bool_to_prop; try naive_solver lia.

Qed.

Lemma below_min_ok_spec b m :
  nv_int64 b -> bucket_ok b -> int64 m -> 0 <= m ->
  below_min_ok b m = true <-> nv_ValueZat b <= nv_NoteCount b * Z.max 0 (m - 1).
Proof.
  intros [? ?] (? & ? & ?) ? ?. unfold below_min_ok.
  assert (sub64 m 1 = m - 1) as -> by arith64.
  destruct (Z.eqb_spec (nv_NoteCount b) 0); [rewrite Z.eqb_eq; nia|].
  destruct (Z.eqb_spec m 0); [rewrite Z.eqb_eq; nia|].
  destruct (Z.eqb_spec (m - 1) 0); [rewrite Z.eqb_eq; nia|].
  rewrite Z.max_r by lia. rewrite orb_true_iff, Z.ltb_lt, Z.leb_le.
  destruct (Z.le_gt_cases (nv_NoteCount b) (Z.quot int64_max (m - 1))) as [Hle|Hgt].
  - rewrite mul64_small by lia. lia.
  - pose proof (quot_lt_mul (nv_NoteCount b) (m - 1)). width. split; intros _; [lia|by left].
Qed.

(** an accepted note summary is exactly one whose five buckets partition the
    total within the cap, with feasible extremes, expiries and small notes. *)
Theorem WalletNoteSummary_ValidFor_spec s w mc mn maxNotes :
  summary_int64 s -> int64 mn ->
  WalletNoteSummary_ValidFor s w mc mn maxNotes = true <-> summary_spec s w mc mn maxNotes.
Proof.
  intros (Hbs & [Htc Htv] & Hsm & Hlg) Hmn. unfold WalletNoteSummary_ValidFor, summary_spec.
  assert (Hsum := fun c' v' => sum_buckets_spec (summary_buckets s) 0 0 c' v'
            ltac:(width; lia) ltac:(width; lia) Hbs).
  assert (Hsub : Forall bucket_ok (summary_buckets s) -> 0 <= mn ->
    (spendable_ok (ws_Spendable s) mn = true <-> spendable_spec (ws_Spendable s) mn) /\
    (below_min_ok (ws_BelowMinNote s) mn = true <->
     nv_ValueZat (ws_BelowMinNote s) <= nv_NoteCount (ws_BelowMinNote s) * Z.max 0 (mn - 1))).
  { unfold summary_buckets in *. rewrite !Forall_cons in *.
    intros (?&?&?&?&?&_) ?. destruct Hbs as (?&?&?&?&?&_).
    split; [by apply spendable_ok_spec|by apply below_min_ok_spec]. }
  split.
  - intros Hv. case_match eqn:Hg; [done|]. bool_to_prop.
    destruct (sum_buckets 0 0 (summary_buckets s)) as [[c v]|]; [|done].
    destruct (proj1 (Hsum _ _) eq_refl) as (Hok & -> & -> & _).
    destruct (Hsub Hok) as [Hsp Hbe]; [lia|].
    case_match eqn:Hg2; [done|]. bool_to_prop.
    split; [done || (repeat split; done || lia)|]. split; [repeat split; done || lia|].
    split; [by apply Hsp|]. split; [by apply pending_ok_spec|by apply Hbe].
  - intros ((<- & <- & <- & ? & ? & ? & Hhash & ?) & (Hok & Hcount & Hvalue & ?) & Hsp & Hp & Hbe).
    rewrite String.eqb_refl, !Z.eqb_refl, Hhash.
    destruct (Hsub Hok) as [Hsp' Hbe']; [lia|].
    rewrite (proj2 (Hsum (total_count (summary_buckets s)) (total_value (summary_buckets s))))
      by (repeat split; try done; rewrite ?Hcount, ?Hvalue; width; lia).
    rewrite Hcount, Hvalue, !Z.eqb_refl.
    assert (Hnn : 0 <= nv_NoteCount (ws_TotalUnspent s) /\ 0 <= nv_ValueZat (ws_TotalUnspent s)).
    { rewrite <- Hcount, <- Hvalue. by apply totals_nonneg. }
    rewrite (proj2 Hsp' Hsp), (proj2 (pending_ok_spec _ _) Hp), (proj2 Hbe' Hbe).
    repeat case_match; try lia; done.
Qed.

(** The source transaction and the action index a note ID names. *)
Definition note_of_id (s : string) : option (string * Z) :=
  let '(txid, action, _) := Cut s ":" in
  v ← digits_value 0 (to_bytes action); Some (txid, v).

(** two accepted note IDs that name the same action of the same transaction
    are the same string, so set membership on IDs is membership on notes. *)
Theorem ValidNoteID_injective a b :
  ValidNoteID a = true -> ValidNoteID b = true -> note_of_id a = note_of_id b -> a = b.
Proof.
  assert (Hparts : forall s, ValidNoteID s = true -> exists txid action v,
    s = txid +:+ String ":" action /\ canonical_decimal action /\
    digits_value 0 (to_bytes action) = Some v /\ note_of_id s = Some (txid, v)).
  { intros s. unfold ValidNoteID, note_of_id.
    destruct (Cut s ":") as [[txid action] found] eqn:Hcut. intros Hv.
    case_match eqn:Hg; [done|]. case_match; [done|]. case_match eqn:Hp; [|done].
    apply ParseUint_digits in Hp as [Hd _]. bool_to_prop. subst found.
    exists txid, action. eexists. split; [by apply Cut_found|].
    split; [|by rewrite Hd]. split; [done|]. intros Hl Hz.
    match goal with H : (_ && _) = false |- _ => apply andb_false_iff in H as [H|H] end;
      bool_to_prop; [lia|]. destruct action; naive_solver. }
  intros (ta & aa & va & -> & Ca & Da & ->)%Hparts (tb & ab & vb & -> & Cb & Db & ->)%Hparts.
  intros [= <- <-]. do 2 f_equal. by eapply canonical_decimal_inj.
Qed.

Lemma ValidNoteID_injective_witness :
  let id := "00000000000000000000000000000000000000000000000000000000000000ff:10"%string in
  ValidNoteID id = true /\ id = id.
Proof. split; [reflexivity|]. apply ValidNoteID_injective; reflexivity. Defined.

(** The evidence a status must carry in each state at scanner height [h]. *)
Inductive status_evidence (h : Z) (s : NoteStatus) : Prop :=
  | evidence_unknown :
      ns_State s = NoteUnknown -> ns_SourceHeight s = None -> ns_ValueZat s = None ->
      ns_PendingSpentTxID s = None -> ns_PendingSpentAt s = None ->
      ns_PendingSpentExpiryHeight s = None -> ns_SpentTxID s = None ->
      ns_SpentHeight s = None -> ns_SpentConfirmedHeight s = None -> status_evidence h s
  | evidence_unspent source value :
      ns_State s = NoteUnspent -> ns_SourceHeight s = Some source -> ns_ValueZat s = Some value ->
      0 <= source <= h -> 0 <= value ->
      ns_PendingSpentTxID s = None -> ns_PendingSpentAt s = None ->
      ns_PendingSpentExpiryHeight s = None -> ns_SpentTxID s = None ->
      ns_SpentHeight s = None -> ns_SpentConfirmedHeight s = None -> status_evidence h s
  | evidence_pending source value txid seen_at :
      ns_State s = NotePending -> ns_SourceHeight s = Some source -> ns_ValueZat s = Some value ->
      0 <= source <= h -> 0 <= value ->
      ns_PendingSpentTxID s = Some txid -> isLowerHex64 txid = true ->
      ns_PendingSpentAt s = Some seen_at -> seen_at <> 0 ->
      (forall e, ns_PendingSpentExpiryHeight s = Some e -> h <= e) ->
      ns_SpentTxID s = None -> ns_SpentHeight s = None -> ns_SpentConfirmedHeight s = None ->
      status_evidence h s
  | evidence_spent source value txid spent :
      ns_State s = NoteSpent -> ns_SourceHeight s = Some source -> ns_ValueZat s = Some value ->
      0 <= source -> 0 <= value ->
      ns_PendingSpentTxID s = None -> ns_PendingSpentAt s = None ->
      ns_PendingSpentExpiryHeight s = None ->
      ns_SpentTxID s = Some txid -> isLowerHex64 txid = true ->
      ns_SpentHeight s = Some spent -> source <= spent <= h ->
      (forall c, ns_SpentConfirmedHeight s = Some c -> spent <= c <= h) ->
      status_evidence h s.

Lemma is_none_true {A} (o : option A) : is_none o = true -> o = None.
Proof. by destruct o. Qed.

Ltac none_to_prop :=
  repeat match goal with H : is_none _ = true |- _ => apply is_none_true in H end.

Ltac close_evidence := first [eassumption | done | lia | intros ? ?; simplify_eq; lia].

Lemma validAt_sound s h : validAt s h = true -> status_evidence h s.
Proof.
  unfold validAt, IsZero. destruct (ns_State s) eqn:Hst; intros Hv.
  - bool_to_prop. none_to_prop. by apply evidence_unknown.
  - repeat (case_match; try done); bool_to_prop; none_to_prop.
    eapply evidence_unspent; close_evidence.
  - repeat (case_match; try done); bool_to_prop; none_to_prop;
      eapply evidence_pending; close_evidence.
  - repeat (case_match; try done); bool_to_prop; none_to_prop;
      eapply evidence_spent; close_evidence.
  - done.
Qed.

Lemma validAt_complete s h : status_evidence h s -> validAt s h = true.
Proof.
  unfold validAt. intros []; simplify_eq/=;
    repeat match goal with
    | H : ?f s = _ |- _ => rewrite H; clear H
    | H : isLowerHex64 _ = true |- _ => rewrite H; clear H
    end; cbn; unfold IsZero;
    repeat match goal with
    | |- context [ns_PendingSpentExpiryHeight s] => destruct (ns_PendingSpentExpiryHeight s) as [e|]
    | |- context [ns_SpentConfirmedHeight s] => destruct (ns_SpentConfirmedHeight s) as [c|]
    | H : forall e, Some _ = Some e -> _ |- _ => specialize (H _ eq_refl)
    end; repeat case_match; lia.
Qed.

Theorem validAt_spec s h : validAt s h = true <-> status_evidence h s.
Proof. split; [apply validAt_sound|apply validAt_complete]. Qed.

Lemma statuses_ok_spec seen h ids sts :
  length ids = length sts ->
  statuses_ok seen h ids sts = true <->
  NoDup ids /\ (forall i, i ∈ ids -> i ∉ seen) /\
  Forall (fun i => ValidNoteID i = true) ids /\
  map ns_NoteID sts = ids /\ Forall (status_evidence h) sts.
Proof.
  revert seen sts. induction ids as [|i ids IH]; intros seen [|st sts] Hlen; try discriminate Hlen.
  { cbn. split; [|done]. repeat split; try constructor. intros ? ?%elem_of_nil. done. }
  injection Hlen as Hlen. cbn [statuses_ok map]. rewrite NoDup_cons, !Forall_cons, <- validAt_spec.
  assert (Hin : (forall j, j ∈ i :: ids -> j ∉ seen) <->
                i ∉ seen /\ (forall j, j ∈ ids -> j ∉ seen)) by set_solver.
  rewrite Hin. clear Hin.
  split.
  - intros Hv. repeat (case_match; try done). bool_to_prop.
    apply IH in Hv as (? & Hs & ? & ? & ?); [|done]. subst.
    repeat split; try done; set_solver.
  - intros ((Hni & ?) & (Hi & Hs) & (Hid & ?) & [= <- Hm] & (Hva & ?)).
    rewrite Hid, bool_decide_eq_false_2, String.eqb_refl, Hva by done. cbn.
    apply IH; [done|]. subst ids. repeat split; try done. set_solver.
Qed.

Definition statuses_spec (s : WalletNoteStatuses) (walletID : string) (noteIDs : list string) : Prop :=
  wns_WalletID s = walletID /\ isLowerHex64 (wns_EventEpoch s) = true /\
  isLowerHex64 (wns_AsOfScannerHash s) = true /\ 0 <= wns_AsOfScannerHeight s /\
  1 <= Z.of_nat (length noteIDs) <= 200 /\
  NoDup noteIDs /\ Forall (fun i => ValidNoteID i = true) noteIDs /\
  map ns_NoteID (wns_Statuses s) = noteIDs /\
  Forall (status_evidence (wns_AsOfScannerHeight s)) (wns_Statuses s).

Lemma note_statuses_spec s w ids :
  WalletNoteStatuses_ValidFor s w ids = true <-> statuses_spec s w ids.
Proof.
  unfold WalletNoteStatuses_ValidFor, statuses_spec. split.
  - intros Hv. case_match; [done|]. bool_to_prop.
    match goal with H : Nat.eqb _ _ = true |- _ => apply Nat.eqb_eq in H end.
    apply statuses_ok_spec in Hv as (?&?&?&?&?); [|done]. repeat split; done || lia.
  - intros (<- & He & Hh & ? & ? & ? & ? & Hm & ?).
    assert (Hlen : length ids = length (wns_Statuses s)) by (rewrite <- Hm; apply length_map).
    rewrite String.eqb_refl, He, Hh, <- Hlen, Nat.eqb_refl. cbn [negb orb].
    case_match; [lia|]. apply statuses_ok_spec; [done|]. repeat split; done.
Qed.

(** an accepted batch answers the requested IDs one for one, in order and
    without repetition, each with exactly the evidence its state requires. *)
Theorem WalletNoteStatuses_ValidFor_spec s w ids :
  WalletNoteStatuses_ValidFor s w ids = true <-> statuses_spec s w ids.
Proof. apply note_statuses_spec. Qed.

(** * Witnesses *)

Definition example_balance : Balance :=
  {| bal_WalletID := "hot"; bal_RecipientAddress := "j1a"; bal_AvailableZat := 70;
     bal_PendingIncomingZat := 20; bal_PendingOutgoingZat := 10; bal_TotalUnspentZat := 100;
     bal_MinConfirmations := 1; bal_AsOfNodeHeight := 50; bal_AsOfScannerHeight := 48;
     bal_ScannerLag := 2 |}.

Lemma Balance_ValidFor_spec_witness : balance_spec example_balance "hot" "j1a" 1.
Proof.
  assert (Hi : balance_int64 example_balance) by (unfold balance_int64; width; cbn; lia).
  apply (Balance_ValidFor_spec example_balance "hot" "j1a" 1 Hi). reflexivity.
Defined.

Definition nv (count value : Z) : NoteValueSummary := {| nv_NoteCount := count; nv_ValueZat := value |}.

Definition hash_a : string := "00000000000000000000000000000000000000000000000000000000000000ab".

Definition example_summary : WalletNoteSummary :=
  {| ws_WalletID := "hot"; ws_MinConfirmations := 10; ws_MinNoteZat := 5;
     ws_AsOfScannerHeight := 40; ws_AsOfScannerHash := hash_a; ws_TotalUnspent := nv 4 37;
     ws_Spendable := {| sp_Value := nv 2 30; sp_SmallestNoteZat := Some 10; sp_LargestNoteZat := Some 20 |};
     ws_Immature := nv 0 0;
     ws_PendingSpend := {| ps_Value := nv 1 5; ps_KnownExpiryCount := 1;
                           ps_NextExpiryHeight := Some 41; ps_LastExpiryHeight := Some 41 |};
     ws_BelowMinNote := nv 1 2; ws_WitnessUnavailable := nv 0 0 |}.

Lemma WalletNoteSummary_ValidFor_spec_witness : summary_spec example_summary "hot" 10 5 100.
Proof.
  assert (Hi : summary_int64 example_summary).
  { unfold summary_int64, summary_buckets, nv_int64, opt_int64. width. cbn.
    split; [repeat constructor; cbn; lia|]. split; [lia|].
    split; intros z [= <-]; lia. }
  assert (Hm : int64 5) by (width; lia).
  apply (WalletNoteSummary_ValidFor_spec example_summary "hot" 10 5 100 Hi Hm). reflexivity.
Defined.
