(* ===== verification/Database.v ===== *)
(** The gateway's SQLite database (schema of [internal/storage/sqlite/sqlite.go],
    version 4) and the structs of [internal/storage/storage.go].

    A table is a finite map from its primary key; a nullable column is an
    option, a timestamp column the instant its RFC 3339 text denotes, a JSON
    column the value it encodes.  [db_foreign_keys] is the [foreign_keys] pragma
    of the connection.  The statements the stores share are here with what they
    do on a constraint violation; the operations are in the files after this. *)
From S2P Require Import Prelude Tx GoString GoTime Domain.

(** * Rows and tables *)

(** The values of [transaction_attempts.state], or any other text. *)
Inductive AttemptState : Type :=
  | planning | reserved | signing | signing_unknown | signed | broadcast | mined
  | orphaned | expired_pending_reconciliation | final | released | cancelled
  | failed_unsigned | OtherState (s : string).

#[export] Instance AttemptState_eq_dec : EqDecision AttemptState.
Proof. solve_decision. Defined.

Record wallet_row := {
  w_network : string;
  w_ufvk_fingerprint : option string;
  w_birthday_height : Z;
  w_next_backfill_height : Z;
  w_next_address_index : Z;
  w_created_at : time
}.

Record address_row := { ad_address : string; ad_label : string; ad_created_at : time }.

Record receipt_row := {
  r_payload_digest : string;
  r_expected_txid : string;
  r_claim_generation : Z;
  r_complete : bool; (* the CHECK allows the texts 'processing' and 'complete' *)
  r_http_status : option Z;
  r_response_json : option string;
  r_created_at : time;
  r_updated_at : time
}.

Record attempt_row := {
  a_scoped_idempotency_key : string;
  a_request_digest : string;
  a_principal_name : string;
  a_wallet_id : string;
  a_approval_reference : string;
  a_request_json : string;
  a_state : AttemptState;
  a_change_address : option string;
  a_plan_json : option string;
  a_plan_digest : option string;
  a_fee_zat : option string;
  a_expiry_height : option Z;
  a_selected_note_ids : option (list string);
  a_txid : option string;
  a_raw_tx_hex : option string;
  a_output_action_indices : option (list Z);
  a_change_action_index : option Z;
  a_error_code : option string;
  a_error_message : option string;
  a_error_retryable : bool;
  a_created_at : time;
  a_updated_at : time
}.

Record reservation_row := {
  rv_attempt_id : string; rv_plan_digest : string; rv_created_at : time
}.

Record event_row := {
  ev_attempt_id : string;
  ev_state : AttemptState;
  ev_detail : option (string * bool);
  ev_created_at : time
}.

Record db := {
  db_wallets : gmap string wallet_row;
  db_addresses : gmap (string * Z) address_row;
  db_receipts : gmap string receipt_row;
  db_attempts : gmap string attempt_row;
  db_reservations : gmap (string * string * string) reservation_row;
  db_events : list event_row;
  db_metadata : gmap string string;
  db_foreign_keys : bool
}.

(** The database [Open] creates. *)
Definition empty_db (foreign_keys : bool) : db :=
  {| db_wallets := ∅; db_addresses := ∅; db_receipts := ∅; db_attempts := ∅;
     db_reservations := ∅; db_events := []; db_metadata := ∅;
     db_foreign_keys := foreign_keys |}.

Definition set_wallets (d : db) (m : gmap string wallet_row) : db :=
  {| db_wallets := m; db_addresses := db_addresses d; db_receipts := db_receipts d;
     db_attempts := db_attempts d; db_reservations := db_reservations d;
     db_events := db_events d; db_metadata := db_metadata d;
     db_foreign_keys := db_foreign_keys d |}.
Definition set_addresses (d : db) (m : gmap (string * Z) address_row) : db :=
  {| db_wallets := db_wallets d; db_addresses := m; db_receipts := db_receipts d;
     db_attempts := db_attempts d; db_reservations := db_reservations d;
     db_events := db_events d; db_metadata := db_metadata d;
     db_foreign_keys := db_foreign_keys d |}.
Definition set_receipts (d : db) (m : gmap string receipt_row) : db :=
  {| db_wallets := db_wallets d; db_addresses := db_addresses d; db_receipts := m;
     db_attempts := db_attempts d; db_reservations := db_reservations d;
     db_events := db_events d; db_metadata := db_metadata d;
     db_foreign_keys := db_foreign_keys d |}.
Definition set_attempts (d : db) (m : gmap string attempt_row) : db :=
  {| db_wallets := db_wallets d; db_addresses := db_addresses d; db_receipts := db_receipts d;
     db_attempts := m; db_reservations := db_reservations d;
     db_events := db_events d; db_metadata := db_metadata d;
     db_foreign_keys := db_foreign_keys d |}.
Definition set_reservations (d : db) (m : gmap (string * string * string) reservation_row) : db :=
  {| db_wallets := db_wallets d; db_addresses := db_addresses d; db_receipts := db_receipts d;
     db_attempts := db_attempts d; db_reservations := m;
     db_events := db_events d; db_metadata := db_metadata d;
     db_foreign_keys := db_foreign_keys d |}.
Definition set_events (d : db) (l : list event_row) : db :=
  {| db_wallets := db_wallets d; db_addresses := db_addresses d; db_receipts := db_receipts d;
     db_attempts := db_attempts d; db_reservations := db_reservations d;
     db_events := l; db_metadata := db_metadata d;
     db_foreign_keys := db_foreign_keys d |}.
Definition set_metadata (d : db) (m : gmap string string) : db :=
  {| db_wallets := db_wallets d; db_addresses := db_addresses d; db_receipts := db_receipts d;
     db_attempts := db_attempts d; db_reservations := db_reservations d;
     db_events := db_events d; db_metadata := m;
     db_foreign_keys := db_foreign_keys d |}.

(** * The storage structs *)

Record Wallet := {
  Wallet_WalletID : string;
  Wallet_Network : string;
  Wallet_UFVKFingerprint : string;
  Wallet_BirthdayHeight : Z;
  Wallet_NextBackfillHeight : Z
}.

Record Address := {
  Address_WalletID : string;
  Address_Address : string;
  Address_DiversifierIndex : Z;
  Address_Label : string;
  Address_CreatedAt : time
}.

(** [DeriveFunc]: the callback of an allocation. *)
Definition DeriveFunc := Z -> result string.

Record Receipt := {
  Key : string;
  PayloadDigest : string;
  ExpectedTxID : string;
  Generation : Z;
  Receipt_complete : bool;
  ResponseJSON : string;
  HTTPStatus : Z;
  Receipt_UpdatedAt : time
}.

Inductive ClaimState : Type := ClaimAcquired | ClaimInProgress | ClaimReplay | ClaimConflict.

Record ClaimResult := { Claim_State : ClaimState; Claim_Receipt : Receipt }.

Record TransactionAttempt := {
  AttemptID : string;
  ScopedIdempotencyKey : string;
  RequestDigest : string;
  PrincipalName : string;
  WalletID : string;
  ApprovalReference : string;
  RequestJSON : string;
  State : AttemptState;
  ChangeAddress : string;
  PlanJSON : string;
  PlanDigest : string;
  FeeZat : string;
  ExpiryHeight : Z;
  SelectedNoteIDs : list string;
  TxID : string;
  RawTxHex : string;
  OrchardOutputActionIndices : list Z;
  OrchardChangeActionIndex : option Z;
  ErrorCode : string;
  ErrorMessage : string;
  ErrorRetryable : bool;
  CreatedAt : time;
  UpdatedAt : time
}.

Record ActiveAttempt := {
  Active_AttemptID : string;
  Active_PrincipalName : string;
  Active_WalletID : string;
  Active_ApprovalReference : string;
  Active_State : AttemptState;
  Active_ChangeAddress : string;
  Active_PlanDigest : string;
  Active_FeeZat : string;
  Active_ExpiryHeight : Z;
  Active_SelectedNoteIDs : list string;
  Active_TxID : string;
  Active_OrchardOutputActionIndices : list Z;
  Active_OrchardChangeActionIndex : option Z;
  Active_ErrorCode : string;
  Active_ErrorMessage : string;
  Active_ErrorRetryable : bool;
  Active_CreatedAt : time;
  Active_UpdatedAt : time
}.

Record NoteReservation := {
  Reservation_NoteID : string;
  Reservation_AttemptID : string;
  Reservation_State : AttemptState;
  Reservation_ExpiryHeight : Z;
  Reservation_CreatedAt : time
}.

Record AttemptClaimResult := {
  AttemptClaim_State : ClaimState; AttemptClaim_Attempt : TransactionAttempt
}.

(** * Statements *)

(** [fmt.Errorf("text: %w", err)]. *)
Definition wrapf (text : string) (e : error) : error := Wrap text e.
(** [return err]. *)
Definition as_is (e : error) : error := e.

Definition constraint_failed : error := Foreign "constraint failed".

(** [SELECT .. WHERE <primary key> = ?] read with [QueryRow(..).Scan]. *)
Definition row_of {K V} `{Countable K} (m : gmap K V) (k : K) : result V :=
  match m !! k with Some v => Ok v | None => Err ErrNoRows end.

(** The rows a [WHERE] selects, in the order of the text key of [ORDER BY]. *)
Definition rows_where {K V} `{Countable K} (p : K -> V -> bool) (m : gmap K V) : list (K * V) :=
  filter (fun kv => p kv.1 kv.2 = true) (map_to_list m).

Definition order_by {A} (key : A -> string) (l : list A) : list A :=
  merge_sort (fun x y => String.le (key x) (key y)) l.

(** [errors.Is(err, sql.ErrNoRows)]. *)
Fixpoint is_no_rows (e : error) : bool :=
  match e with ErrNoRows => true | Wrap _ c => is_no_rows c | _ => false end.

(** [if errors.Is(err, sql.ErrNoRows)]: a query whose missing row is a case of
    its own, every other failure an error. *)
Definition query_opt {S A} (wrap : error -> error) (f : S -> result A) : M S (option A) :=
  fun io s =>
    match driver io with
    | (Err e, _) => Err (wrap e)
    | (Ok _, io') =>
        match f s with
        | Ok a => Ok (Some a, io', s)
        | Err e => if is_no_rows e then Ok (None, io', s) else Err (wrap e)
        end
    end.

Lemma query_opt_ok {S A} w (f : S -> result A) io s b io2 s2 :
  query_opt w f io s = Ok (b, io2, s2) ->
  s2 = s /\ match b with
            | Some a => f s = Ok a
            | None => exists e, f s = Err e /\ is_no_rows e = true
            end.
Proof.
  unfold query_opt, driver. destruct io as [|[e'|] io]; [|done|];
    destruct (f s) as [a|e]; cbn; try case_match; naive_solver.
Qed.

Lemma row_of_ok {K V} `{Countable K} (m : gmap K V) k v : row_of m k = Ok v <-> m !! k = Some v.
Proof. unfold row_of. case_match; naive_solver. Qed.

Lemma row_of_no_rows {K V} `{Countable K} (m : gmap K V) k e :
  row_of m k = Err e -> m !! k = None.
Proof. unfold row_of. by case_match. Qed.

Lemma elem_of_rows_where {K V} `{Countable K} (p : K -> V -> bool) (m : gmap K V) k v :
  (k, v) ∈ rows_where p m <-> m !! k = Some v /\ p k v = true.
Proof.
  unfold rows_where. rewrite list_elem_of_filter, elem_of_map_to_list. cbn. tauto.
Qed.

Lemma elem_of_order_by {A} (key : A -> string) l x : x ∈ order_by key l <-> x ∈ l.
Proof. unfold order_by. by rewrite merge_sort_Permutation. Qed.

Ltac db_step :=
  match goal with
  | H : query_opt _ _ _ _ = Ok _ |- _ => apply query_opt_ok in H; destruct H as [? H]
  | H : row_of _ _ = Ok _ |- _ => apply row_of_ok in H
  | H : row_of _ _ = Err _ |- _ => apply row_of_no_rows in H
  end; simplify_eq/=.
Ltac db_inv := repeat (tx_step || db_step).
