(* ===== verification/Schema.v ===== *)
(** Opening the database and bringing its schema up to date, [Open] and [migrate]
    of [internal/storage/sqlite/sqlite.go].

    A database file has tables with their columns, indexes, the rows of
    [schema_version] and the rows of the other tables ([Database.db]).  A table that
    is not there has no rows, and where a column is not there its field holds the
    column's default.  The statements of a script that runs outside a transaction
    take effect one by one, and it can stop after any of them. *)
From S2P Require Import Prelude Tx GoString GoTime Domain Database.

(** * Database files *)

Record db_file := {
  tables : gmap string (list string);
  indexes : gset string;
  versions : gset Z;
  rows : db
}.

Definition no_such (what : string) : error := Foreign ("no such " +:+ what).

Definition has_column (f : db_file) (table column : string) : bool :=
  match tables f !! table with Some columns => bool_decide (column ∈ columns) | None => false end.

(** [CREATE TABLE IF NOT EXISTS]. *)
Definition create_table (table : string) (columns : list string) (f : db_file) : result db_file :=
  match tables f !! table with
  | Some _ => Ok f
  | None => Ok {| tables := <[table := columns]> (tables f); indexes := indexes f; versions := versions f; rows := rows f |}
  end.

(** [CREATE INDEX IF NOT EXISTS]; [holds] is what a unique index asks of the rows. *)
Definition create_index (index table : string) (columns : list string) (holds : db -> bool) (f : db_file) : result db_file :=
  if bool_decide (index ∈ indexes f) then Ok f
  else if negb (forallb (has_column f table) columns) then Err (no_such "column")
  else if negb (holds (rows f)) then Err constraint_failed
  else Ok {| tables := tables f; indexes := {[index]} ∪ indexes f; versions := versions f; rows := rows f |}.

(** [ALTER TABLE ... ADD COLUMN]; [fill] gives the rows the default. *)
Definition add_column (table column : string) (fill : db -> db) (f : db_file) : result db_file :=
  match tables f !! table with
  | None => Err (no_such "table")
  | Some columns =>
      if bool_decide (column ∈ columns) then Err (Foreign "duplicate column name")
      else Ok {| tables := <[table := columns ++ [column]]> (tables f); indexes := indexes f; versions := versions f;
                 rows := fill (rows f) |}
  end.

(** [INSERT INTO schema_version], and the variant with [OR IGNORE]. *)
Definition insert_version (or_ignore : bool) (v : Z) (f : db_file) : result db_file :=
  match tables f !! "schema_version"%string with
  | None => Err (no_such "table")
  | Some _ =>
      if bool_decide (v ∈ versions f) then if or_ignore then Ok f else Err constraint_failed
      else Ok {| tables := tables f; indexes := indexes f; versions := {[v]} ∪ versions f; rows := rows f |}
  end.

(** * The schema *)

Definition any_rows (d : db) : bool := true.

Definition schema : list (db_file -> result db_file) :=
  [ create_table "schema_version" ["version"];
    insert_version true 1;
    create_table "wallets" ["wallet_id"; "network"; "birthday_height"; "next_backfill_height"; "next_address_index";
                            "created_at"];
    create_table "addresses" ["wallet_id"; "address"; "diversifier_index"; "label"; "created_at"];
    create_index "idx_addresses_lookup" "addresses" ["wallet_id"; "address"] any_rows;
    create_table "idempotency_receipts" ["idempotency_key"; "payload_digest"; "expected_txid"; "claim_generation"; "state";
                                         "http_status"; "response_json"; "created_at"; "updated_at"];
    create_table "metadata" ["key"; "value"] ]%string.

Definition coordinatorSchema : list (db_file -> result db_file) :=
  [ create_table "transaction_attempts"
      ["attempt_id"; "scoped_idempotency_key"; "request_digest"; "principal_name"; "wallet_id"; "approval_reference";
       "request_json"; "state"; "change_address"; "plan_json"; "plan_digest"; "fee_zat"; "expiry_height";
       "selected_note_ids_json"; "txid"; "raw_tx_hex"; "output_action_indices_json"; "change_action_index"; "error_code";
       "error_message"; "error_retryable"; "created_at"; "updated_at"];
    create_index "idx_transaction_attempts_wallet_state" "transaction_attempts" ["wallet_id"; "state"; "updated_at"] any_rows;
    create_index "idx_transaction_attempts_txid" "transaction_attempts" ["txid"] any_rows;
    create_table "active_note_reservations" ["network"; "wallet_id"; "note_id"; "attempt_id"; "plan_digest"; "created_at"];
    create_index "idx_active_note_reservations_attempt" "active_note_reservations" ["attempt_id"] any_rows;
    create_table "transaction_attempt_events" ["event_id"; "attempt_id"; "state"; "detail_json"; "created_at"];
    create_index "idx_transaction_attempt_events_attempt" "transaction_attempt_events" ["attempt_id"; "event_id"] any_rows
  ]%string.

(** A script outside a transaction; [stop] is where the driver gives up. *)
Fixpoint exec_script (stop : option (nat * string)) (script : list (db_file -> result db_file)) (f : db_file)
    : result unit * db_file :=
  match script, stop with
  | [], None => (Ok tt, f)
  | [], Some (_, e) => (Err (Foreign e), f)
  | _ :: _, Some (O, e) => (Err (Foreign e), f)
  | s :: rest, _ =>
      match s f with
      | Err e => (Err e, f)
      | Ok f' => exec_script (match stop with Some (S k, e) => Some (k, e) | _ => None end) rest f'
      end
  end.

(** A script inside a transaction. *)
Definition run_script (script : list (db_file -> result db_file)) (f : db_file) : result (unit * db_file) :=
  f' ← foldl (fun r s => f ← r; s f) (Ok f) script; Ok (tt, f').

Definition write (s : db_file -> result db_file) (f : db_file) : result (unit * db_file) := f' ← s f; Ok (tt, f').

(** * Migration *)

(** The rows with no fingerprint, and with the first claim generation. *)
Definition without_fingerprint (w : wallet_row) : wallet_row :=
  {| w_network := w_network w; w_ufvk_fingerprint := None; w_birthday_height := w_birthday_height w;
     w_next_backfill_height := w_next_backfill_height w; w_next_address_index := w_next_address_index w;
     w_created_at := w_created_at w |}.
Definition first_generation (r : receipt_row) : receipt_row :=
  {| r_payload_digest := r_payload_digest r; r_expected_txid := r_expected_txid r; r_claim_generation := 1;
     r_complete := r_complete r; r_http_status := r_http_status r; r_response_json := r_response_json r;
     r_created_at := r_created_at r; r_updated_at := r_updated_at r |}.

(** No two wallets of a network share a fingerprint. *)
Definition fingerprints (d : db) : list (string * string) :=
  omap (fun p => match w_ufvk_fingerprint p.2 with Some fp => Some (w_network p.2, fp) | None => None end)
       (map_to_list (db_wallets d)).
Definition unique_fingerprints (d : db) : bool := bool_decide (NoDup (fingerprints d)).

Definition add_fingerprints : M db_file (tx_end unit) :=
  has ← query (wrapf "inspect wallets schema") (fun f => Ok (has_column f "wallets" "ufvk_fingerprint"));
  _ ← (if (has : bool) then mret tt
       else stmt (wrapf "add wallet UFVK fingerprint")
              (write (add_column "wallets" "ufvk_fingerprint" (fun d => set_wallets d (without_fingerprint <$> db_wallets d)))));
  _ ← stmt (wrapf "index wallet UFVK fingerprints")
        (write (create_index "idx_wallets_ufvk_fingerprint" "wallets" ["network"; "ufvk_fingerprint"]%string unique_fingerprints));
  _ ← stmt (wrapf "record gateway schema migration") (write (insert_version false 2));
  mret (Commit tt).

Definition add_generations : M db_file (tx_end unit) :=
  has ← query (wrapf "inspect receipt schema") (fun f => Ok (has_column f "idempotency_receipts" "claim_generation"));
  _ ← (if (has : bool) then mret tt
       else stmt (wrapf "add receipt claim generation")
              (write (add_column "idempotency_receipts" "claim_generation"
                        (fun d => set_receipts d (first_generation <$> db_receipts d)))));
  _ ← stmt (wrapf "record receipt fencing migration") (write (insert_version false 3));
  mret (Commit tt).

Definition add_coordinator : M db_file (tx_end unit) :=
  _ ← stmt (wrapf "create coordinator state") (run_script coordinatorSchema);
  _ ← stmt (wrapf "record coordinator state migration") (write (insert_version false 4));
  mret (Commit tt).

(** What the driver answers: where the script stops, the reading of the version,
    and the statements of the transaction that leaves each version. *)
Record outcomes := { script_stop : option (nat * string); version_read : faults; step_io : Z -> faults }.
Definition no_faults : outcomes := {| script_stop := None; version_read := []; step_io := fun _ => [] |}.

(** [MAX(version)]. *)
Definition max_version (f : db_file) : Z := set_fold Z.max 0 (versions f).

Definition unsupported (version : Z) : error := New ("unsupported gateway schema version " +:+ pretty version).

(** [if version == from { ...; version = from + 1 }]. *)
Definition step (from : Z) (wbegin wcommit : string) (body : M db_file (tx_end unit)) (io : outcomes)
    (state : result Z * db_file) : result Z * db_file :=
  match state with
  | (Ok version, f) =>
      if version =? from then
        let '(r, f') := run_tx (wrapf wbegin) (wrapf wcommit) body (step_io io from) f in
        (match r with Ok _ => Ok (from + 1) | Err e => Err e end, f')
      else state
  | _ => state
  end.

Definition migrate (io : outcomes) (f : db_file) : result unit * db_file :=
  let '(r, f) := exec_script (script_stop io) schema f in
  match r with
  | Err e => (Err (Wrap "migrate gateway state" e), f)
  | Ok _ =>
      let '(version, f) := run_auto (query (wrapf "read gateway schema version") (fun f => Ok (max_version f))) (version_read io) f in
      match version with
      | Err e => (Err e, f)
      | Ok version =>
          if 4 <? version then (Err (unsupported version), f)
          else
            let state := step 1 "begin gateway schema migration" "commit gateway schema migration" add_fingerprints io (Ok version, f) in
            let state := step 2 "begin receipt fencing migration" "commit receipt fencing migration" add_generations io state in
            let state := step 3 "begin coordinator state migration" "commit coordinator state migration" add_coordinator io state in
            match state with
            | (Err e, f) => (Err e, f)
            | (Ok version, f) => if version =? 4 then (Ok tt, f) else (Err (unsupported version), f)
            end
      end
  end.

(** [opened] is [sql.Open]. *)
Definition Open (opened : result unit) (io : outcomes) (f : db_file) : result unit * db_file :=
  match opened with
  | Err e => (Err (Wrap "open gateway state" e), f)
  | Ok _ => migrate io f
  end.

Definition new_file (foreign_keys : bool) : db_file :=
  {| tables := ∅; indexes := ∅; versions := ∅; rows := empty_db foreign_keys |}.

Example new_database : (Open (Ok tt) no_faults (new_file true)).1 = Ok tt /\
  max_version (Open (Ok tt) no_faults (new_file true)).2 = 4.
Proof. vm_compute. done. Qed.

(** * Schemas of the releases *)

Definition base_tables : list string := ["schema_version"; "wallets"; "addresses"; "idempotency_receipts"; "metadata"]%string.
Definition coordinator_tables : list string :=
  ["transaction_attempts"; "active_note_reservations"; "transaction_attempt_events"]%string.
Definition present (f : db_file) (table : string) : Prop := is_Some (tables f !! table).

(** A database that some release left at version [n]; with [0] and [1] the script
    may have stopped half-way. *)
Record legal (n : Z) (f : db_file) : Prop := {
  lg_range : 0 <= n <= 4;
  lg_versions : forall v, v ∈ versions f <-> 1 <= v <= n;
  lg_table : 1 <= n -> present f "schema_version";
  lg_base : 2 <= n -> Forall (present f) base_tables;
  lg_wallets : forall l, tables f !! "wallets"%string = Some l ->
    "network"%string ∈ l /\ ("ufvk_fingerprint"%string ∈ l <-> 2 <= n);
  lg_addresses : forall l, tables f !! "addresses"%string = Some l -> "wallet_id"%string ∈ l /\ "address"%string ∈ l;
  lg_receipts : 3 <= n -> has_column f "idempotency_receipts" "claim_generation" = true;
  lg_index : "idx_wallets_ufvk_fingerprint"%string ∈ indexes f <-> 2 <= n;
  lg_coordinator : forall t, t ∈ coordinator_tables -> (present f t <-> 4 <= n);
  lg_fingerprints : n <= 1 -> forall id w, db_wallets (rows f) !! id = Some w -> w_ufvk_fingerprint w = None;
  lg_generations : has_column f "idempotency_receipts" "claim_generation" = false ->
    forall k r, db_receipts (rows f) !! k = Some r -> r_claim_generation r = 1
}.

(** * Lemmas *)

(** The columns with which a base table is created. *)
Definition base_columns (t : string) (cols : list string) : Prop :=
  t ∉ coordinator_tables /\
  (t = "wallets" -> "network" ∈ cols /\ "ufvk_fingerprint" ∉ cols)%string /\
  (t = "addresses" -> "wallet_id" ∈ cols /\ "address" ∈ cols)%string /\
  (t = "idempotency_receipts" -> "claim_generation" ∈ cols)%string.

Definition keeps (f f' : db_file) : Prop := rows f' = rows f /\ forall t, present f t -> present f' t.

#[local] Ltac base := unfold base_columns, base_tables, coordinator_tables; apply (bool_decide_unpack _); vm_compute; exact I.

#[export] Instance keeps_preorder : PreOrder keeps.
Proof. split; [done|]. intros ??? [] []. split; [congruence|auto]. Qed.

Lemma create_table_legal n t cols f : legal n f -> base_columns t cols -> t ∈ base_tables ->
  exists f', create_table t cols f = Ok f' /\ legal n f' /\ keeps f f' /\ present f' t.
Proof.
  intros Hl (Hnot & Hw & Ha & Hr) Hbase. unfold create_table. destruct (tables f !! t) as [l|] eqn:Ht.
  { exists f. split_and!; [done..|]. by exists l. }
  assert (Hn : ~ 2 <= n).
  { intros Hn. pose proof (lg_base _ _ Hl Hn) as Hall. rewrite Forall_forall in Hall.
    destruct (Hall _ Hbase) as [l Hl']. by rewrite Ht in Hl'. }
  eexists. split; [done|]. assert (Hmono : forall t', present f t' -> is_Some ((<[t := cols]> (tables f) : gmap string (list string)) !! t')).
  { intros t' [l Hl']. destruct (decide (t = t')) as [<-|Hne]; [rewrite lookup_insert_eq; by eexists|].
    rewrite lookup_insert_ne by done. by exists l. }
  assert (Hcol : forall c, t <> "idempotency_receipts"%string ->
    has_column {| tables := <[t := cols]> (tables f); indexes := indexes f; versions := versions f; rows := rows f |}
      "idempotency_receipts" c = has_column f "idempotency_receipts" c).
  { intros c Hne. unfold has_column. cbn [tables]. by rewrite lookup_insert_ne. }
  split; [|split; [done|unfold present; cbn [tables]; rewrite lookup_insert_eq; by eexists]].
  split; cbn [tables indexes versions rows]; try apply Hl.
  - intros H1. by apply Hmono, (lg_table _ _ Hl).
  - intros H2. lia.
  - intros l. destruct (decide (t = "wallets"%string)) as [->|Hne].
    + rewrite lookup_insert_eq. intros [= <-]. destruct (Hw eq_refl). split; [done|]. split; [done|lia].
    + rewrite lookup_insert_ne by done. apply Hl.
  - intros l. destruct (decide (t = "addresses"%string)) as [->|Hne].
    + rewrite lookup_insert_eq. intros [= <-]. by apply Ha.
    + rewrite lookup_insert_ne by done. apply Hl.
  - lia.
  - intros t' Ht'. unfold present. cbn [tables]. rewrite lookup_insert_ne by (by intros ->). by apply Hl.
  - destruct (decide (t = "idempotency_receipts"%string)) as [->|Hne].
    + unfold has_column. cbn [tables]. rewrite lookup_insert_eq. rewrite bool_decide_true by by apply Hr. done.
    + rewrite Hcol by done. apply Hl.
Qed.

Lemma create_index_legal n index table columns holds f :
  legal n f -> index <> "idx_wallets_ufvk_fingerprint"%string -> forallb (has_column f table) columns = true -> holds (rows f) = true ->
  exists f', create_index index table columns holds f = Ok f' /\ legal n f' /\ keeps f f' /\ tables f' = tables f.
Proof.
  intros Hl Hne Hc Hh. unfold create_index. case_bool_decide; [by exists f|]. rewrite Hc, Hh. cbn [negb].
  eexists. split; [done|]. split; [|done]. destruct Hl. split; try done.
  cbn [indexes]. rewrite elem_of_union, elem_of_singleton. rewrite <- lg_index0. split; [by intros [?|?]|auto].
Qed.

Lemma insert_first_legal n f : legal n f -> present f "schema_version" ->
  exists f' n', insert_version true 1 f = Ok f' /\ n <= n' /\ 1 <= n' /\ legal n' f' /\ keeps f f' /\ tables f' = tables f.
Proof.
  intros Hl [l Ht]. unfold insert_version. rewrite Ht. case_bool_decide as Hv.
  { apply (lg_versions _ _ Hl) in Hv. exists f, n. split_and!; done || lia. }
  rewrite (lg_versions _ _ Hl) in Hv. pose proof (lg_range _ _ Hl). assert (n = 0) as -> by lia.
  eexists _, 1. split; [done|]. split; [lia|]. split; [lia|]. split; [|done]. destruct Hl.
  split; cbn [tables indexes versions rows]; try done; try lia.
  - intros v. rewrite elem_of_union, elem_of_singleton, lg_versions0. lia.
  - by exists l.
  - intros _. apply lg_fingerprints0. lia.
Qed.

(** How a script that starts at [f], at version [n], ends. *)
Definition script_ends (n : Z) (f : db_file) (stop : option (nat * string)) (out : result unit * db_file) : Prop :=
  exists n', n <= n' /\ legal n' out.2 /\ keeps f out.2 /\ (stop = None -> out.1 = Ok tt) /\
    (out.1 = Ok tt -> 1 <= n' /\ Forall (present out.2) base_tables).

Lemma script_step n n1 f f1 s script stop :
  s f = Ok f1 -> legal n f -> n <= n1 -> keeps f f1 ->
  (forall stop', script_ends n1 f1 stop' (exec_script stop' script f1)) ->
  script_ends n f stop (exec_script stop (s :: script) f).
Proof.
  intros Hs Hl Hn Hk Hrest. destruct stop as [[[|k] e]|]; cbn [exec_script].
  - exists n. by split_and!.
  - rewrite Hs. destruct (Hrest (Some (k, e))) as (n' & ? & ? & ? & ? & ?). exists n'. split_and!; try done; [lia|by etrans].
  - rewrite Hs. destruct (Hrest None) as (n' & ? & ? & ? & ? & ?). exists n'. split_and!; try done; [lia|by etrans].
Qed.

Lemma schema_legal n f stop : legal n f -> script_ends n f stop (exec_script stop schema f).
Proof.
  intros Hl. unfold schema.
  destruct (create_table_legal n "schema_version" ["version"]%string f) as (f1 & E1 & L1 & K1 & P1); [done|base..|].
  eapply script_step; [exact E1|done|reflexivity|done|]. intros stop1.
  destruct (insert_first_legal n f1 L1 P1) as (f2 & n2 & E2 & Hn & H1 & L2 & K2 & T2).
  eapply script_step; [exact E2|done|exact Hn|done|]. intros stop2.
  assert (P2 : present f2 "schema_version") by by apply K2.
  (** The tables a step creates are there for the steps after it. *)
  assert (Hcreate : forall f t cols rest n, legal n f -> 1 <= n -> base_columns t cols -> t ∈ base_tables ->
    (forall f' stop, legal n f' -> keeps f f' -> present f' t -> script_ends n f' stop (exec_script stop rest f')) ->
    forall stop, script_ends n f stop (exec_script stop (create_table t cols :: rest) f)).
  { intros g t cols rest k Hk Hk1 Hc Ht Hrest stop'. destruct (create_table_legal k t cols g Hk Hc Ht) as (g' & E & L & K & P).
    eapply script_step; [exact E|done|reflexivity|done|]. intros stop0. by apply Hrest. }
  apply Hcreate; [done|done|base..|]. intros f3 stop3 L3 K3 P3.
  apply Hcreate; [done|done|base..|]. intros f4 stop4 L4 K4 P4.
  destruct (create_index_legal n2 "idx_addresses_lookup" "addresses" ["wallet_id"; "address"]%string any_rows f4)
    as (f5 & E5 & L5 & K5 & T5); [done|done| |done|].
  { destruct P4 as [l Hl4]. destruct (lg_addresses _ _ L4 _ Hl4). cbn. unfold has_column. rewrite Hl4.
    by rewrite !bool_decide_true by done. }
  eapply script_step; [exact E5|done|reflexivity|done|]. intros stop5.
  apply Hcreate; [done|done|base..|]. intros f6 stop6 L6 K6 P6.
  apply Hcreate; [done|done|base..|]. intros f7 stop7 L7 K7 P7.
  exists n2. assert (Hall : Forall (present f7) base_tables).
  { repeat (apply Forall_cons; split); [|..|constructor].
    - by apply K7, K6, K5, K4, K3.
    - by apply K7, K6, K5, K4.
    - by apply K7, K6, K5.
    - by apply K7.
    - done. }
  destruct stop7 as [[k e]|]; cbn [exec_script]; by split_and!.
Qed.

(** ** The transactions *)

(** [m] gives [a] and the file [f'], or fails; without faults it does not fail. *)
Definition does {A} (m : M db_file A) (f : db_file) (a : A) (f' : db_file) : Prop :=
  (forall io, (exists e, m io f = Err e) \/ exists io', m io f = Ok (a, io', f')) /\ m [] f = Ok (a, [], f').

Lemma does_ret {A} (a : A) f : does (mret a) f a f.
Proof. split; [intros io; right; by exists io|done]. Qed.

Lemma does_bind {A B} (m : M db_file A) (k : A -> M db_file B) f a f1 b f2 :
  does m f a f1 -> does (k a) f1 b f2 -> does (m ≫= k) f b f2.
Proof.
  intros [Hm Hm0] [Hk Hk0]. unfold does, mbind, m_bind. split.
  - intros io. destruct (Hm io) as [[e ->]|[io' ->]]; [left; by exists e|]. apply Hk.
  - by rewrite Hm0.
Qed.

Lemma does_stmt {A} w (s : db_file -> result (A * db_file)) f a f' : s f = Ok (a, f') -> does (stmt w s) f a f'.
Proof.
  intros Hs. unfold does, stmt. rewrite Hs. split; [|done]. intros [|[e|] io]; cbn [driver];
    [right; by eexists|left; by eexists|right; by eexists].
Qed.

Lemma does_write w s f f' : s f = Ok f' -> does (stmt w (write s)) f tt f'.
Proof. intros Hs. apply does_stmt. unfold write. by rewrite Hs. Qed.

Lemma does_query {A} w (q : db_file -> result A) f a : q f = Ok a -> does (query w q) f a f.
Proof. intros Hq. apply does_stmt. by rewrite Hq. Qed.

Lemma does_tx {A} wb wc (body : M db_file (tx_end A)) f a f' io : does body f (Commit a) f' ->
  run_tx wb wc body io f = (Ok a, f') \/ (exists e, run_tx wb wc body io f = (Err e, f)) /\ io <> [].
Proof.
  intros [Hb Hb0]. destruct io as [|o io].
  - left. unfold run_tx. cbn [driver]. by rewrite Hb0.
  - destruct (run_tx wb wc body (o :: io) f) as [r f1] eqn:Hrun. pose proof Hrun as Hrun'.
    apply run_tx_cases in Hrun as [[-> [e ->]]|[[-> (b & io1 & io2 & s2 & -> & Hroll)]|(b & io1 & io2 & -> & Hcommit)]].
    + right. split; [by exists e|done].
    + exfalso. destruct (Hb io1) as [[e He]|[io' He]]; rewrite He in Hroll; discriminate Hroll.
    + left. destruct (Hb io1) as [[e He]|[io' He]]; rewrite He in Hcommit; [discriminate Hcommit|].
      by injection Hcommit as -> _ ->.
Qed.

(** The version a transaction records. *)
Lemma insert_next n f : legal n f -> n < 4 -> 1 <= n ->
  insert_version false (n + 1) f =
  Ok {| tables := tables f; indexes := indexes f; versions := {[n + 1]} ∪ versions f; rows := rows f |}.
Proof.
  intros Hl Hn H1. unfold insert_version. destruct (lg_table _ _ Hl H1) as [l ->].
  rewrite bool_decide_false; [done|]. rewrite (lg_versions _ _ Hl). lia.
Qed.

Lemma versions_next n f : legal n f -> 1 <= n -> forall v, v ∈ ({[n + 1]} ∪ versions f : gset Z) <-> 1 <= v <= n + 1.
Proof. intros Hl H1 v. rewrite elem_of_union, elem_of_singleton, (lg_versions _ _ Hl). lia. Qed.

Lemma fill_same {A} (g : A -> A) (m : gmap string A) : (forall k a, m !! k = Some a -> g a = a) -> g <$> m = m.
Proof.
  intros Hg. apply map_eq. intros k. rewrite lookup_fmap. destruct (m !! k) as [a|] eqn:Hk; [|done]. cbn. by rewrite (Hg _ _ Hk).
Qed.

Lemma fingerprints_fresh f : legal 1 f -> unique_fingerprints (rows f) = true.
Proof.
  intros Hl. unfold unique_fingerprints. apply bool_decide_eq_true_2. unfold fingerprints.
  assert (Hnil : omap (fun p : string * wallet_row => match w_ufvk_fingerprint p.2 with Some fp => Some (w_network p.2, fp) | None => None end)
    (map_to_list (db_wallets (rows f))) = []); [|rewrite Hnil; constructor].
  assert (Hnone : Forall (fun p : string * wallet_row => w_ufvk_fingerprint p.2 = None) (map_to_list (db_wallets (rows f)))).
  { apply Forall_forall. intros [id w] Hin%elem_of_map_to_list. by apply (lg_fingerprints _ _ Hl ltac:(lia) _ _ Hin). }
  induction Hnone as [|p l Hp _ IH]; [done|]. cbn. by rewrite Hp.
Qed.

Lemma first_step f : legal 1 f -> Forall (present f) base_tables ->
  exists f', does add_fingerprints f (Commit tt) f' /\ legal 2 f' /\ rows f' = rows f.
Proof.
  intros Hl Hp. assert (Hw : present f "wallets") by (rewrite Forall_forall in Hp; apply Hp; base).
  destruct Hw as [l Hw]. destruct (lg_wallets _ _ Hl _ Hw) as [Hnet Hfp].
  assert (Hno : "ufvk_fingerprint"%string ∉ l) by (rewrite Hfp; lia).
  assert (Hrows : set_wallets (rows f) (without_fingerprint <$> db_wallets (rows f)) = rows f).
  { rewrite fill_same; [by destruct (rows f)|]. intros id w Hid.
    pose proof (lg_fingerprints _ _ Hl ltac:(lia) _ _ Hid) as Hn. destruct w. cbn in *. by rewrite Hn. }
  set (f1 := {| tables := <["wallets"%string := l ++ ["ufvk_fingerprint"%string]]> (tables f); indexes := indexes f;
                versions := versions f; rows := rows f |}).
  set (f2 := {| tables := tables f1; indexes := {["idx_wallets_ufvk_fingerprint"%string]} ∪ indexes f;
                versions := versions f; rows := rows f |}).
  exists {| tables := tables f2; indexes := indexes f2; versions := {[1 + 1]} ∪ versions f; rows := rows f |}.
  split; [|split; [|done]].
  - unfold add_fingerprints. eapply does_bind; [apply (does_query _ _ _ false)|].
    { unfold has_column. rewrite Hw. by rewrite bool_decide_false. }
    eapply does_bind; [apply (does_write _ _ f f1)|].
    { unfold add_column. rewrite Hw, bool_decide_false by done. by rewrite Hrows. }
    eapply does_bind; [apply (does_write _ _ f1 f2)|].
    { unfold create_index. rewrite bool_decide_false by (cbn; rewrite (lg_index _ _ Hl); lia).
      assert (Hc : forallb (has_column f1 "wallets") ["network"; "ufvk_fingerprint"]%string = true).
      { cbn. unfold has_column, f1. cbn [tables]. rewrite lookup_insert_eq.
        rewrite !bool_decide_true by set_solver. done. }
      rewrite Hc. cbn [negb]. change (rows f1) with (rows f). by rewrite fingerprints_fresh. }
    eapply does_bind; [|apply does_ret]. apply does_write. unfold insert_version, f2, f1. cbn [tables versions].
    rewrite lookup_insert_ne by done. destruct (lg_table _ _ Hl ltac:(lia)) as [l' ->].
    rewrite bool_decide_false; [done|]. rewrite (lg_versions _ _ Hl). lia.
  - assert (Hmono : forall t, present f t -> is_Some ((<["wallets"%string := l ++ ["ufvk_fingerprint"]%string]> (tables f)
      : gmap string (list string)) !! t)).
    { intros t [l' Hl']. destruct (decide ("wallets"%string = t)) as [<-|Hne]; [rewrite lookup_insert_eq; by eexists|].
      rewrite lookup_insert_ne by done. by exists l'. }
    assert (Hsame : forall c, has_column {| tables := tables f2; indexes := indexes f2; versions := {[1 + 1]} ∪ versions f;
        rows := rows f |} "idempotency_receipts" c = has_column f "idempotency_receipts" c).
    { intros c. unfold has_column, f2, f1. cbn [tables]. by rewrite lookup_insert_ne. }
    split; cbn [tables indexes versions rows f1 f2]; try lia.
    + by apply versions_next.
    + intros _. apply Hmono, (lg_table _ _ Hl). lia.
    + intros _. eapply Forall_impl; [exact Hp|]. apply Hmono.
    + intros l'. rewrite lookup_insert_eq. intros [= <-]. split; [set_solver|]. split; [lia|set_solver].
    + intros l'. rewrite lookup_insert_ne by done. apply Hl.
    + split; [lia|set_solver].
    + intros t Ht. unfold present. cbn [tables f1 f2]. rewrite lookup_insert_ne.
      * pose proof (lg_coordinator _ _ Hl _ Ht) as Hc. unfold present in Hc. rewrite Hc. lia.
      * intros <-. revert Ht. apply (bool_decide_unpack _). by vm_compute.
    + rewrite Hsame. apply Hl.
Qed.

Lemma second_step f : legal 2 f ->
  exists f', does add_generations f (Commit tt) f' /\ legal 3 f' /\ rows f' = rows f.
Proof.
  intros Hl. pose proof (lg_base _ _ Hl ltac:(lia)) as Hp.
  assert (Hr : present f "idempotency_receipts") by (rewrite Forall_forall in Hp; apply Hp; base).
  destruct Hr as [l Hr]. set (l' := if bool_decide ("claim_generation"%string ∈ l) then l else l ++ ["claim_generation"%string]).
  assert (Hin : "claim_generation"%string ∈ l') by (subst l'; case_bool_decide; set_solver).
  set (f1 := {| tables := <["idempotency_receipts"%string := l']> (tables f); indexes := indexes f; versions := versions f;
                rows := rows f |}).
  exists {| tables := tables f1; indexes := indexes f; versions := {[2 + 1]} ∪ versions f; rows := rows f |}. split; [|split; [|done]].
  - unfold add_generations. eapply does_bind; [apply (does_query _ _ _ (bool_decide ("claim_generation"%string ∈ l)))|].
    { unfold has_column. by rewrite Hr. }
    eapply (does_bind _ _ _ tt f1).
    + case_bool_decide as Hc.
      * assert (f1 = f) as ->; [|apply does_ret]. unfold f1, l'. rewrite insert_id by done. by destruct f.
      * apply does_write. unfold add_column. rewrite Hr, bool_decide_false by done. unfold f1, l'.
        do 2 f_equal. rewrite fill_same; [by destruct (rows f)|]. intros k r Hk.
        assert (Hg : r_claim_generation r = 1).
        { apply (lg_generations _ _ Hl) with k; [|done]. unfold has_column. rewrite Hr. by rewrite bool_decide_false. }
        destruct r. cbn in *. by rewrite Hg.
    + eapply does_bind; [|apply does_ret]. apply does_write. unfold insert_version, f1. cbn [tables versions indexes rows].
      rewrite lookup_insert_ne by done. destruct (lg_table _ _ Hl ltac:(lia)) as [l0 ->].
      rewrite bool_decide_false; [done|]. rewrite (lg_versions _ _ Hl). lia.
  - assert (Hmono : forall t, present f t -> is_Some ((<["idempotency_receipts"%string := l']> (tables f)
      : gmap string (list string)) !! t)).
    { intros t [l0 Hl0]. destruct (decide ("idempotency_receipts"%string = t)) as [<-|Hne]; [rewrite lookup_insert_eq; by eexists|].
      rewrite lookup_insert_ne by done. by exists l0. }
    assert (Hhas : has_column {| tables := tables f1; indexes := indexes f; versions := {[2 + 1]} ∪ versions f; rows := rows f |}
      "idempotency_receipts" "claim_generation" = true).
    { unfold has_column, f1. cbn [tables]. rewrite lookup_insert_eq. by apply bool_decide_true. }
    split; cbn [tables indexes versions rows f1]; try lia.
    + by apply versions_next.
    + intros _. apply Hmono, (lg_table _ _ Hl). lia.
    + intros _. eapply Forall_impl; [exact Hp|]. apply Hmono.
    + intros l0. rewrite lookup_insert_ne by done. intros Hl0. destruct (lg_wallets _ _ Hl _ Hl0) as [? Hfp].
      split; [done|]. rewrite Hfp. lia.
    + intros l0. rewrite lookup_insert_ne by done. apply Hl.
    + intros _. exact Hhas.
    + rewrite (lg_index _ _ Hl). lia.
    + intros t Ht. unfold present. cbn [tables f1]. rewrite lookup_insert_ne.
      * pose proof (lg_coordinator _ _ Hl _ Ht) as Hc. unfold present in Hc. rewrite Hc. lia.
      * intros <-. revert Ht. apply (bool_decide_unpack _). by vm_compute.
    + intros Hno. assert (Hc : true = false) by (rewrite <- Hhas; exact Hno). discriminate Hc.
Qed.

(** A step of a script that only adds to the tables and indexes. *)
Definition adds (ts : list (string * list string)) (f f' : db_file) : Prop :=
  tables f' = foldr (fun p m => <[p.1 := p.2]> m) (tables f) ts /\ versions f' = versions f /\ rows f' = rows f /\
  ("idx_wallets_ufvk_fingerprint"%string ∈ indexes f' <-> "idx_wallets_ufvk_fingerprint"%string ∈ indexes f).

Lemma adds_table ts t cols f f1 : adds ts f f1 -> tables f1 !! t = None ->
  exists f2, create_table t cols f1 = Ok f2 /\ adds ((t, cols) :: ts) f f2.
Proof.
  intros (Ht & Hv & Hr & Hi) Hno. unfold create_table. rewrite Hno. eexists. split; [done|].
  split; cbn [tables versions rows indexes foldr fst snd]; [by rewrite Ht|done].
Qed.

Lemma adds_index ts index t cols f f1 : adds ts f f1 -> index <> "idx_wallets_ufvk_fingerprint"%string ->
  forallb (has_column f1 t) cols = true -> exists f2, create_index index t cols any_rows f1 = Ok f2 /\ adds ts f f2.
Proof.
  intros (Ht & Hv & Hr & Hi) Hne Hc. unfold create_index. case_bool_decide; [by exists f1|]. rewrite Hc. cbn [negb any_rows].
  eexists. split; [done|]. split; [done|]. split_and!; [done|done|]. cbn [indexes]. rewrite elem_of_union, elem_of_singleton, Hi.
  split; [by intros [?|?]|auto].
Qed.

Lemma third_step f : legal 3 f ->
  exists f', does add_coordinator f (Commit tt) f' /\ legal 4 f' /\ rows f' = rows f.
Proof.
  intros Hl. assert (Hno : forall t, t ∈ coordinator_tables -> tables f !! t = None).
  { intros t Ht. pose proof (lg_coordinator _ _ Hl _ Ht) as Hc. destruct (tables f !! t) as [l|] eqn:Hl'; [|done].
    assert (4 <= 3) by (apply Hc; by exists l). lia. }
  assert (Hscript : exists f1 ts, run_script coordinatorSchema f = Ok (tt, f1) /\ adds ts f f1 /\ forall t, t ∈ map fst ts <-> t ∈ coordinator_tables).
  { unfold run_script, coordinatorSchema. cbn [foldl mbind result_bind].
    destruct (adds_table [] "transaction_attempts" ["attempt_id"; "scoped_idempotency_key"; "request_digest"; "principal_name";
      "wallet_id"; "approval_reference"; "request_json"; "state"; "change_address"; "plan_json"; "plan_digest"; "fee_zat";
      "expiry_height"; "selected_note_ids_json"; "txid"; "raw_tx_hex"; "output_action_indices_json"; "change_action_index";
      "error_code"; "error_message"; "error_retryable"; "created_at"; "updated_at"]%string f f)
      as (f1 & -> & A1); [by split_and!|apply Hno; base|]. cbn [mbind result_bind].
    assert (H1 : forall t, t <> "transaction_attempts"%string -> tables f1 !! t = tables f !! t).
    { intros t Ht. destruct A1 as [-> _]. cbn. by rewrite lookup_insert_ne. }
    edestruct (adds_index _ "idx_transaction_attempts_wallet_state" "transaction_attempts" ["wallet_id"; "state"; "updated_at"]%string f f1 A1)
      as (f2 & -> & A2); [done| |].
    { unfold has_column. destruct A1 as [-> _]. cbn [foldr fst snd forallb]. rewrite lookup_insert_eq. by vm_compute. }
    cbn [mbind result_bind].
    edestruct (adds_index _ "idx_transaction_attempts_txid" "transaction_attempts" ["txid"]%string f f2 A2) as (f3 & -> & A3); [done| |].
    { unfold has_column. destruct A2 as [-> _]. cbn [foldr fst snd forallb]. rewrite lookup_insert_eq. by vm_compute. }
    cbn [mbind result_bind].
    edestruct (adds_table _ "active_note_reservations" ["network"; "wallet_id"; "note_id"; "attempt_id"; "plan_digest"; "created_at"]%string
      f f3 A3) as (f4 & -> & A4).
    { destruct A3 as [-> _]. cbn [foldr fst snd]. rewrite lookup_insert_ne by done. apply Hno. base. }
    cbn [mbind result_bind].
    edestruct (adds_index _ "idx_active_note_reservations_attempt" "active_note_reservations" ["attempt_id"]%string f f4 A4)
      as (f5 & -> & A5); [done| |].
    { unfold has_column. destruct A4 as [-> _]. cbn [foldr fst snd forallb]. rewrite lookup_insert_eq. by vm_compute. }
    cbn [mbind result_bind].
    edestruct (adds_table _ "transaction_attempt_events" ["event_id"; "attempt_id"; "state"; "detail_json"; "created_at"]%string
      f f5 A5) as (f6 & -> & A6).
    { destruct A5 as [-> _]. cbn [foldr fst snd]. rewrite !lookup_insert_ne by done. apply Hno. base. }
    cbn [mbind result_bind].
    edestruct (adds_index _ "idx_transaction_attempt_events_attempt" "transaction_attempt_events" ["attempt_id"; "event_id"]%string f f6 A6)
      as (f7 & -> & A7); [done| |].
    { unfold has_column. destruct A6 as [-> _]. cbn [foldr fst snd forallb]. rewrite lookup_insert_eq. by vm_compute. }
    eexists f7, _. split; [reflexivity|]. split; [exact A7|]. intros t. cbn. unfold coordinator_tables. set_solver. }
  destruct Hscript as (f1 & ts & Hrun & (Ht & Hv & Hr & Hi) & Hts).
  assert (Hother : forall t, t ∉ coordinator_tables -> tables f1 !! t = tables f !! t).
  { intros t Hnot. rewrite Ht. assert (Hnin : t ∉ map fst ts) by (by rewrite Hts). clear - Hnin.
    induction ts as [|p ts IH]; [done|]. cbn in *. apply not_elem_of_cons in Hnin as [Hne Hnin].
    rewrite lookup_insert_ne by done. by apply IH. }
  assert (Hnew : forall t, t ∈ coordinator_tables -> present f1 t).
  { intros t Hin. unfold present. rewrite Ht. assert (Hin' : t ∈ map fst ts) by (by rewrite Hts). clear - Hin'.
    induction ts as [|p ts IH]; [by apply elem_of_nil in Hin'|]. cbn in *.
    destruct (decide (p.1 = t)) as [<-|Hne]; [rewrite lookup_insert_eq; by eexists|]. rewrite lookup_insert_ne by done.
    apply IH. apply elem_of_cons in Hin' as [->|?]; [done|done]. }
  assert (Hbase : forall t, t ∈ base_tables -> tables f1 !! t = tables f !! t).
  { intros t Hin. apply Hother. revert t Hin. apply Forall_forall. base. }
  assert (Hcol : has_column f1 "idempotency_receipts" "claim_generation" = has_column f "idempotency_receipts" "claim_generation").
  { unfold has_column. rewrite Hbase by base. done. }
  exists {| tables := tables f1; indexes := indexes f1; versions := {[3 + 1]} ∪ versions f; rows := rows f |}. split; [|split; [|done]].
  - unfold add_coordinator. eapply does_bind; [by apply does_stmt|]. eapply does_bind; [|apply does_ret].
    apply does_write. unfold insert_version. rewrite Hbase by base. destruct (lg_table _ _ Hl ltac:(lia)) as [l ->].
    rewrite Hv, Hr. rewrite bool_decide_false; [done|]. rewrite (lg_versions _ _ Hl). lia.
  - split; unfold present; cbn [tables indexes versions rows]; try lia.
    + by apply versions_next.
    + intros _. rewrite Hbase by base. apply (lg_table _ _ Hl). lia.
    + intros _. pose proof (lg_base _ _ Hl ltac:(lia)) as Hp. rewrite Forall_forall in *. intros t Hin.
      unfold present. cbn [tables]. rewrite Hbase by done. by apply Hp.
    + intros l. rewrite Hbase by base. intros Hl0. destruct (lg_wallets _ _ Hl _ Hl0) as [? Hfp]. split; [done|]. rewrite Hfp. lia.
    + intros l. rewrite Hbase by base. apply Hl.
    + intros _. unfold has_column in *. cbn [tables]. rewrite Hcol. by apply (lg_receipts _ _ Hl).
    + rewrite Hi, (lg_index _ _ Hl). lia.
    + intros t Hin. split; [lia|]. intros _. by apply Hnew.
    + unfold has_column in *. cbn [tables]. rewrite Hcol. apply Hl.
Qed.

(** ** The whole migration *)

Lemma max_version_legal n f : legal n f -> max_version f = n.
Proof.
  intros Hl. unfold max_version. assert (Hv : versions f = list_to_set (seqZ 1 n)).
  { apply set_eq. intros v. rewrite (lg_versions _ _ Hl), elem_of_list_to_set, elem_of_seqZ. lia. }
  rewrite Hv. pose proof (lg_range _ _ Hl). assert (Hn : n = 0 \/ n = 1 \/ n = 2 \/ n = 3 \/ n = 4) by lia.
  by destruct Hn as [->|[->|[->|[->| ->]]]].
Qed.

(** How the migration stands after some of its transactions. *)
Definition reached (d : db) (io : outcomes) (n m : Z) (state : result Z * db_file) : Prop :=
  exists n', n <= n' /\ legal n' state.2 /\ Forall (present state.2) base_tables /\ rows state.2 = d /\
    match state.1 with Ok v => v = n' /\ m < v | Err _ => io <> no_faults end.

Lemma step_reached d io from wb wc body state n :
  (forall f, legal from f -> Forall (present f) base_tables ->
     exists f', does body f (Commit tt) f' /\ legal (from + 1) f' /\ rows f' = rows f) ->
  1 <= from -> reached d io n (from - 1) state -> reached d io n from (step from wb wc body io state).
Proof.
  intros Hbody Hfrom (n' & Hn & Hl & Hp & Hr & Hv). unfold step. destruct state as [[v|e] f]; cbn [fst snd] in *; [|by exists n'].
  destruct Hv as [-> Hm]. destruct (Z.eqb_spec n' from) as [->|Hne]; [|exists n'; split_and!; done || (cbn; lia)].
  destruct (Hbody f Hl Hp) as (f' & Hd & Hl' & Hr').
  destruct (does_tx (wrapf wb) (wrapf wc) _ _ _ _ (step_io io from) Hd) as [->|[[e ->] Hio]].
  - exists (from + 1). cbn [fst snd]. split_and!; [lia|done|apply (lg_base _ _ Hl'); lia|congruence|done|lia].
  - exists from. cbn [fst snd]. split_and!; [done..|]. intros ->. by apply Hio.
Qed.

Lemma migrate_reached n f io : legal n f ->
  exists n', n <= n' /\ legal n' (migrate io f).2 /\ rows (migrate io f).2 = rows f /\
    ((migrate io f).1 = Ok tt -> n' = 4) /\ (io = no_faults -> (migrate io f).1 = Ok tt).
Proof.
  intros Hl. unfold migrate. destruct (schema_legal n f (script_stop io) Hl) as (n1 & Hn1 & Hl1 & [Hr1 _] & Hstop & Hok).
  destruct (exec_script _ _ _) as [[u|e] f1]; cbn [fst snd] in *.
  2:{ exists n1. split_and!; [done..|]. intros ->. discriminate (Hstop eq_refl). }
  destruct u. destruct (Hok eq_refl) as [H1 Hp].
  assert (Hread : run_auto (query (wrapf "read gateway schema version") (fun f => Ok (max_version f))) (version_read io) f1
    = (Ok n1, f1) \/ (exists e, run_auto (query (wrapf "read gateway schema version") (fun f => Ok (max_version f))) (version_read io) f1
    = (Err e, f1)) /\ version_read io <> []).
  { unfold run_auto, query, stmt. destruct (version_read io) as [|[e|] l]; cbn [driver mbind result_bind];
      rewrite ?max_version_legal with (n := n1) by done; [by left|right; split; [by eexists|done]|by left]. }
  destruct Hread as [->|[[e ->] Hio]].
  2:{ exists n1. cbn [fst snd]. split_and!; [done..|]. intros ->. by destruct Hio. }
  destruct (Z.ltb_spec 4 n1); [pose proof (lg_range _ _ Hl1); lia|].
  assert (Hstate : reached (rows f) io n1 0 (Ok n1, f1)) by (exists n1; split_and!; done || (cbn; lia)).
  apply (step_reached _ _ 1 "begin gateway schema migration" "commit gateway schema migration" add_fingerprints) in Hstate;
    [|intros g Hg Hgp; by apply first_step|lia].
  apply (step_reached _ _ 2 "begin receipt fencing migration" "commit receipt fencing migration" add_generations) in Hstate;
    [|intros g Hg Hgp; by apply second_step|lia].
  apply (step_reached _ _ 3 "begin coordinator state migration" "commit coordinator state migration" add_coordinator) in Hstate;
    [|intros g Hg Hgp; by apply third_step|lia].
  destruct Hstate as (n' & Hn' & Hl' & _ & Hr' & Hv).
  set (state := step 3 _ _ _ io _) in *. clearbody state. destruct state as [[v|e] f']; cbn [fst snd] in *.
  - destruct Hv as [-> Hv]. pose proof (lg_range _ _ Hl'). assert (n' = 4) as -> by lia. cbn [Z.eqb Pos.eqb fst snd].
    exists 4. split_and!; done || lia.
  - exists n'. split_and!; done || lia.
Qed.

(** Openings that may fail, one after another. *)
Fixpoint openings (ios : list outcomes) (f : db_file) : db_file :=
  match ios with [] => f | io :: rest => openings rest (Open (Ok tt) io f).2 end.

(** C37: whatever release left the database, and however often its opening failed at
    whatever statement, the first opening whose statements succeed brings it to the
    current schema; and no row is lost or changed on the way. *)
Theorem interrupted_migrations_complete n f ios : legal n f ->
  exists f', Open (Ok tt) no_faults (openings ios f) = (Ok tt, f') /\ legal 4 f' /\ max_version f' = 4 /\ rows f' = rows f.
Proof.
  revert n f. induction ios as [|io ios IH]; intros n f Hl; cbn [openings Open].
  - destruct (migrate_reached n f no_faults Hl) as (n' & _ & Hl' & Hr & H4 & Hok).
    destruct (migrate no_faults f) as [r f']. cbn [fst snd] in *. rewrite (Hok eq_refl) in *. rewrite (H4 eq_refl) in Hl'.
    exists f'. split_and!; [done|done|by apply max_version_legal|done].
  - destruct (migrate_reached n f io Hl) as (n' & _ & Hl' & Hr & _). destruct (IH _ _ Hl') as (f' & ? & ? & ? & Hr').
    exists f'. split_and!; try done. by rewrite Hr'.
Qed.

Lemma exec_script_versions script stop f : Forall (fun s => forall f f', s f = Ok f' -> rows f' = rows f /\ versions f ⊆ versions f') script ->
  rows (exec_script stop script f).2 = rows f /\ versions f ⊆ versions (exec_script stop script f).2.
Proof.
  intros Hs. revert stop f. induction Hs as [|s script Hs _ IH]; intros stop f; cbn [exec_script]; [by destruct stop as [[k e]|]|].
  assert (Hgo : forall stop' (out : result unit * db_file),
    out = match s f with Err e => (Err e, f) | Ok f' => exec_script stop' script f' end ->
    rows out.2 = rows f /\ versions f ⊆ versions out.2).
  { intros stop' out ->. destruct (s f) as [f'|e] eqn:Hf; [|done]. destruct (Hs _ _ Hf) as [Hr Hv].
    destruct (IH stop' f') as [Hr' Hv']. split; [congruence|]. by etrans. }
  destruct stop as [[[|k] e]|]; [done|by eapply Hgo..].
Qed.

Lemma schema_versions : Forall (fun s => forall f f', s f = Ok f' -> rows f' = rows f /\ versions f ⊆ versions f') schema.
Proof.
  assert (Ht : forall t cols f f', create_table t cols f = Ok f' -> rows f' = rows f /\ versions f ⊆ versions f').
  { intros t cols f f'. unfold create_table. case_match; by intros [= <-]. }
  assert (Hi : forall b v f f', insert_version b v f = Ok f' -> rows f' = rows f /\ versions f ⊆ versions f').
  { intros b v f f'. unfold insert_version. repeat case_match; try done; intros [= <-]; [done|]. cbn. split; [done|set_solver]. }
  assert (Hx : forall i t cols h f f', create_index i t cols h f = Ok f' -> rows f' = rows f /\ versions f ⊆ versions f').
  { intros i t cols h f f'. unfold create_index. repeat case_match; try done; by intros [= <-]. }
  unfold schema. repeat (apply Forall_cons; split; [first [apply Ht|apply Hi|apply Hx]|]). constructor.
Qed.

(** a database of a newer release is refused, whatever the driver does, and its
    rows are left alone. *)
Theorem newer_schema_refused io f v : v ∈ versions f -> 4 < v ->
  (exists e, (migrate io f).1 = Err e) /\ rows (migrate io f).2 = rows f.
Proof.
  intros Hv H4. unfold migrate. destruct (exec_script_versions schema (script_stop io) f schema_versions) as [Hr Hvs].
  destruct (exec_script _ _ _) as [[u|e] f1]; cbn [fst snd] in *; [|split; [by eexists|done]].
  assert (Hmax : 4 < max_version f1).
  { assert (Hin : v ∈ versions f1) by set_solver. clear - Hin H4. unfold max_version.
    enough (Hle : forall w, w ∈ versions f1 -> w <= set_fold Z.max 0 (versions f1)) by (specialize (Hle v Hin); lia).
    apply (set_fold_ind_L (fun b X => forall w, w ∈ X -> w <= b)); [set_solver|].
    intros x X b Hx IH w [->%elem_of_singleton|Hw]%elem_of_union; [lia|]. specialize (IH _ Hw). lia. }
  unfold run_auto, query, stmt. destruct (version_read io) as [|[e|] l]; cbn [driver mbind result_bind fst snd];
    [|by split; [eexists|]|]; rewrite (proj2 (Z.ltb_lt _ _) Hmax); cbn [fst snd]; by split; [eexists|].
Qed.

(** * Witnesses *)

Lemma new_file_legal fk : legal 0 (new_file fk).
Proof.
  split; cbn; try done; try lia; try set_solver.
  - intros v. split; [set_solver|lia].
  - intros t _. split; [by intros [? [=]]|lia].
Qed.

(** An opening that stops after three statements of the script, and one whose
    second transaction fails at its third statement. *)
Definition failing : list outcomes :=
  [ {| script_stop := Some (3%nat, "disk full"%string); version_read := []; step_io := fun _ => [] |};
    {| script_stop := None; version_read := []; step_io := fun from => if Z.eqb from 2 then [None; None; Some "busy"%string] else [] |} ].

Lemma interrupted_migrations_complete_witness :
  exists f', Open (Ok tt) no_faults (openings failing (new_file true)) = (Ok tt, f') /\ rows f' = empty_db true /\
    max_version (openings failing (new_file true)) = 2.
Proof.
  destruct (interrupted_migrations_complete 0 (new_file true) failing (new_file_legal true)) as (f' & Ho & _ & _ & Hr).
  exists f'. split; [exact Ho|]. split; [exact Hr|]. vm_compute. reflexivity.
Defined.

Lemma newer_schema_refused_witness :
  exists e, (migrate no_faults {| tables := ∅; indexes := ∅; versions := {[7]}; rows := empty_db true |}).1 = Err e.
Proof.
  refine (proj1 (newer_schema_refused no_faults {| tables := ∅; indexes := ∅; versions := {[7]}; rows := empty_db true |} 7 _ _));
    [cbn; apply elem_of_singleton; reflexivity|reflexivity].
Defined.
