(* ===== verification/Attempts.v ===== *)
(** The transaction-attempt journal of [internal/storage/sqlite/attempts.go]:
    claims, change addresses, plan reservations, the signing transitions, the
    state changes of reconciliation, cancellation, and the queries.

    Every operation takes the outcomes of its driver calls and the database and
    gives its result and the database it leaves.  The clock the code reads is
    the argument [now]. *)
From S2P Require Import Prelude Tx GoString GoTime Domain Database.

Definition null_string (o : option string) : string := default EmptyString o.

Definition nullableString (value : string) : option string :=
  if String.eqb value "" then None else Some value.

(** * State predicates *)

Definition terminalAttemptState (s : AttemptState) : bool :=
  match s with
  | cancelled | failed_unsigned | released | final => true
  | _ => false
  end.

Definition allowedAttemptTransition (current next : AttemptState) : bool :=
  if decide (current = next) then true
  else if terminalAttemptState current then false
  else match current, next with
  | planning, (reserved | failed_unsigned) => true
  | reserved, (signing | failed_unsigned) => true
  | signing, (reserved | signing_unknown | signed | failed_unsigned) => true
  | signing_unknown, (signing | signed) => true
  | signed, (broadcast | mined | orphaned | expired_pending_reconciliation | final | released) => true
  | broadcast, (mined | orphaned | expired_pending_reconciliation | final | released) => true
  | mined, (broadcast | orphaned | expired_pending_reconciliation | final | released) => true
  | orphaned, (broadcast | mined | expired_pending_reconciliation | final | released) => true
  | expired_pending_reconciliation, (broadcast | mined | orphaned | final | released) => true
  | _, _ => false
  end.

Definition safeReservationReleaseTransition (current next : AttemptState) : bool :=
  match next with
  | failed_unsigned =>
      match current with planning | reserved | signing => true | _ => false end
  | final | released =>
      match current with
      | signed | broadcast | mined | orphaned | expired_pending_reconciliation => true
      | _ => bool_decide (current = next)
      end
  | _ => false
  end.

(** [state IN ('planning',..,'orphaned')] of the two listing queries. *)
Definition recoverable_sql (s : AttemptState) : bool :=
  match s with
  | planning | reserved | signing | signing_unknown | signed | broadcast | mined
  | expired_pending_reconciliation | orphaned => true
  | _ => false
  end.

(** * Rows to structs *)

Definition scan_change_index (text : string) (o : option Z) : result (option Z) :=
  match o with
  | None => Ok None
  | Some v => if (v <? 0) || (uint32_max <? v) then Err (New text) else Ok (Some v)
  end.

Definition scanAttempt (id : string) (row : attempt_row) : result TransactionAttempt :=
  changeIndex ← scan_change_index "stored transaction change action index is invalid"
                  (a_change_action_index row);
  Ok {| AttemptID := id;
        ScopedIdempotencyKey := a_scoped_idempotency_key row;
        RequestDigest := a_request_digest row;
        PrincipalName := a_principal_name row;
        WalletID := a_wallet_id row;
        ApprovalReference := a_approval_reference row;
        RequestJSON := a_request_json row;
        State := a_state row;
        ChangeAddress := null_string (a_change_address row);
        PlanJSON := null_string (a_plan_json row);
        PlanDigest := null_string (a_plan_digest row);
        FeeZat := null_string (a_fee_zat row);
        ExpiryHeight := default 0 (a_expiry_height row);
        SelectedNoteIDs := default [] (a_selected_note_ids row);
        TxID := null_string (a_txid row);
        RawTxHex := null_string (a_raw_tx_hex row);
        OrchardOutputActionIndices := default [] (a_output_action_indices row);
        OrchardChangeActionIndex := changeIndex;
        ErrorCode := null_string (a_error_code row);
        ErrorMessage := null_string (a_error_message row);
        ErrorRetryable := a_error_retryable row;
        CreatedAt := a_created_at row;
        UpdatedAt := a_updated_at row |}.

Definition scanActiveAttempt (id : string) (row : attempt_row) : result ActiveAttempt :=
  changeIndex ← scan_change_index "stored active attempt change action index is invalid"
                  (a_change_action_index row);
  Ok {| Active_AttemptID := id;
        Active_PrincipalName := a_principal_name row;
        Active_WalletID := a_wallet_id row;
        Active_ApprovalReference := a_approval_reference row;
        Active_State := a_state row;
        Active_ChangeAddress := null_string (a_change_address row);
        Active_PlanDigest := null_string (a_plan_digest row);
        Active_FeeZat := null_string (a_fee_zat row);
        Active_ExpiryHeight := default 0 (a_expiry_height row);
        Active_SelectedNoteIDs := default [] (a_selected_note_ids row);
        Active_TxID := null_string (a_txid row);
        Active_OrchardOutputActionIndices := default [] (a_output_action_indices row);
        Active_OrchardChangeActionIndex := changeIndex;
        Active_ErrorCode := null_string (a_error_code row);
        Active_ErrorMessage := null_string (a_error_message row);
        Active_ErrorRetryable := a_error_retryable row;
        Active_CreatedAt := a_created_at row;
        Active_UpdatedAt := a_updated_at row |}.

(** [attempt.State = s; attempt.UpdatedAt = t]. *)
Definition with_state (a : TransactionAttempt) (s : AttemptState) (t : time) : TransactionAttempt :=
  {| AttemptID := AttemptID a; ScopedIdempotencyKey := ScopedIdempotencyKey a;
     RequestDigest := RequestDigest a; PrincipalName := PrincipalName a; WalletID := WalletID a;
     ApprovalReference := ApprovalReference a; RequestJSON := RequestJSON a; State := s;
     ChangeAddress := ChangeAddress a; PlanJSON := PlanJSON a; PlanDigest := PlanDigest a;
     FeeZat := FeeZat a; ExpiryHeight := ExpiryHeight a; SelectedNoteIDs := SelectedNoteIDs a;
     TxID := TxID a; RawTxHex := RawTxHex a;
     OrchardOutputActionIndices := OrchardOutputActionIndices a;
     OrchardChangeActionIndex := OrchardChangeActionIndex a; ErrorCode := ErrorCode a;
     ErrorMessage := ErrorMessage a; ErrorRetryable := ErrorRetryable a;
     CreatedAt := CreatedAt a; UpdatedAt := t |}.

Definition with_created (a : TransactionAttempt) (t : time) : TransactionAttempt :=
  {| AttemptID := AttemptID a; ScopedIdempotencyKey := ScopedIdempotencyKey a;
     RequestDigest := RequestDigest a; PrincipalName := PrincipalName a; WalletID := WalletID a;
     ApprovalReference := ApprovalReference a; RequestJSON := RequestJSON a; State := State a;
     ChangeAddress := ChangeAddress a; PlanJSON := PlanJSON a; PlanDigest := PlanDigest a;
     FeeZat := FeeZat a; ExpiryHeight := ExpiryHeight a; SelectedNoteIDs := SelectedNoteIDs a;
     TxID := TxID a; RawTxHex := RawTxHex a;
     OrchardOutputActionIndices := OrchardOutputActionIndices a;
     OrchardChangeActionIndex := OrchardChangeActionIndex a; ErrorCode := ErrorCode a;
     ErrorMessage := ErrorMessage a; ErrorRetryable := ErrorRetryable a;
     CreatedAt := t; UpdatedAt := UpdatedAt a |}.

(** * Statements on the three tables *)

(** [WHERE scoped_idempotency_key=?]: the column is UNIQUE. *)
Definition attempt_with_key (key : string) (d : db) : result (string * attempt_row) :=
  match rows_where (fun _ r => String.eqb (a_scoped_idempotency_key r) key) (db_attempts d) with
  | p :: _ => Ok p
  | [] => Err ErrNoRows
  end.

(** [INSERT INTO transaction_attempts]: the primary key, the UNIQUE scoped key
    and the reference to the wallet. *)
Definition insert_attempt (id : string) (row : attempt_row) (d : db) : result (unit * db) :=
  if bool_decide (is_Some (db_attempts d !! id))
     || is_ok (attempt_with_key (a_scoped_idempotency_key row) d)
     || (db_foreign_keys d && bool_decide (db_wallets d !! a_wallet_id row = None))
  then Err constraint_failed
  else Ok (tt, set_attempts d (<[id := row]> (db_attempts d))).

(** [UPDATE transaction_attempts SET .. WHERE attempt_id=? AND ..], with the
    number of rows it changed. *)
Definition update_attempt (id : string) (cond : attempt_row -> bool)
    (f : attempt_row -> attempt_row) (d : db) : result (Z * db) :=
  match db_attempts d !! id with
  | Some row =>
      if cond row then Ok (1, set_attempts d (<[id := f row]> (db_attempts d))) else Ok (0, d)
  | None => Ok (0, d)
  end.

Definition insertAttemptEvent (attemptID : string) (state : AttemptState)
    (detail : option (string * bool)) (now : time) : M db unit :=
  stmt (wrapf "record transaction attempt event") (fun d =>
    if db_foreign_keys d && bool_decide (db_attempts d !! attemptID = None)
    then Err constraint_failed
    else Ok (tt, set_events d (db_events d ++
           [{| ev_attempt_id := attemptID; ev_state := state; ev_detail := detail;
               ev_created_at := now |}]))).

(** [INSERT OR IGNORE INTO active_note_reservations .. SELECT .. FROM
    transaction_attempts WHERE attempt_id=?]: a taken note is skipped. *)
Definition insert_reservation (network noteID attemptID planDigest : string) (stamp : time)
    (d : db) : result (Z * db) :=
  match db_attempts d !! attemptID with
  | None => Ok (0, d)
  | Some row =>
      let key := (network, a_wallet_id row, noteID) in
      match db_reservations d !! key with
      | Some _ => Ok (0, d)
      | None =>
          if db_foreign_keys d && bool_decide (db_wallets d !! a_wallet_id row = None)
          then Err constraint_failed
          else Ok (1, set_reservations d
                 (<[key := {| rv_attempt_id := attemptID; rv_plan_digest := planDigest;
                              rv_created_at := stamp |}]> (db_reservations d)))
      end
  end.

(** [DELETE FROM active_note_reservations WHERE attempt_id=?]. *)
Definition delete_reservations (attemptID : string) (d : db) : result (unit * db) :=
  Ok (tt, set_reservations d
        (filter (fun kv => rv_attempt_id kv.2 <> attemptID) (db_reservations d))).

(** The [SET] lists of the updates. *)
Definition set_change_address (address : string) (now : time) (r : attempt_row) : attempt_row :=
  {| a_scoped_idempotency_key := a_scoped_idempotency_key r; a_request_digest := a_request_digest r;
     a_principal_name := a_principal_name r; a_wallet_id := a_wallet_id r;
     a_approval_reference := a_approval_reference r; a_request_json := a_request_json r;
     a_state := a_state r; a_change_address := Some address; a_plan_json := a_plan_json r;
     a_plan_digest := a_plan_digest r; a_fee_zat := a_fee_zat r;
     a_expiry_height := a_expiry_height r; a_selected_note_ids := a_selected_note_ids r;
     a_txid := a_txid r; a_raw_tx_hex := a_raw_tx_hex r;
     a_output_action_indices := a_output_action_indices r;
     a_change_action_index := a_change_action_index r; a_error_code := a_error_code r;
     a_error_message := a_error_message r; a_error_retryable := a_error_retryable r;
     a_created_at := a_created_at r; a_updated_at := now |}.

Definition set_plan (planJSON planDigest feeZat : string) (expiryHeight : Z)
    (noteIDs : list string) (now : time) (r : attempt_row) : attempt_row :=
  {| a_scoped_idempotency_key := a_scoped_idempotency_key r; a_request_digest := a_request_digest r;
     a_principal_name := a_principal_name r; a_wallet_id := a_wallet_id r;
     a_approval_reference := a_approval_reference r; a_request_json := a_request_json r;
     a_state := reserved; a_change_address := a_change_address r; a_plan_json := Some planJSON;
     a_plan_digest := Some planDigest; a_fee_zat := Some feeZat;
     a_expiry_height := Some expiryHeight; a_selected_note_ids := Some noteIDs;
     a_txid := a_txid r; a_raw_tx_hex := a_raw_tx_hex r;
     a_output_action_indices := a_output_action_indices r;
     a_change_action_index := a_change_action_index r; a_error_code := None;
     a_error_message := None; a_error_retryable := false;
     a_created_at := a_created_at r; a_updated_at := now |}.

Definition set_signed (txid rawTxHex feeZat : string) (outputIndices : list Z)
    (changeIndex : option Z) (now : time) (r : attempt_row) : attempt_row :=
  {| a_scoped_idempotency_key := a_scoped_idempotency_key r; a_request_digest := a_request_digest r;
     a_principal_name := a_principal_name r; a_wallet_id := a_wallet_id r;
     a_approval_reference := a_approval_reference r; a_request_json := a_request_json r;
     a_state := signed; a_change_address := a_change_address r; a_plan_json := a_plan_json r;
     a_plan_digest := a_plan_digest r; a_fee_zat := Some feeZat;
     a_expiry_height := a_expiry_height r; a_selected_note_ids := a_selected_note_ids r;
     a_txid := Some txid; a_raw_tx_hex := Some rawTxHex;
     a_output_action_indices := Some outputIndices;
     a_change_action_index := changeIndex; a_error_code := None;
     a_error_message := None; a_error_retryable := false;
     a_created_at := a_created_at r; a_updated_at := now |}.

Definition set_state (state : AttemptState) (code message : option string) (retryable : bool)
    (now : time) (r : attempt_row) : attempt_row :=
  {| a_scoped_idempotency_key := a_scoped_idempotency_key r; a_request_digest := a_request_digest r;
     a_principal_name := a_principal_name r; a_wallet_id := a_wallet_id r;
     a_approval_reference := a_approval_reference r; a_request_json := a_request_json r;
     a_state := state; a_change_address := a_change_address r; a_plan_json := a_plan_json r;
     a_plan_digest := a_plan_digest r; a_fee_zat := a_fee_zat r;
     a_expiry_height := a_expiry_height r; a_selected_note_ids := a_selected_note_ids r;
     a_txid := a_txid r; a_raw_tx_hex := a_raw_tx_hex r;
     a_output_action_indices := a_output_action_indices r;
     a_change_action_index := a_change_action_index r; a_error_code := code;
     a_error_message := message; a_error_retryable := retryable;
     a_created_at := a_created_at r; a_updated_at := now |}.

Definition touch (now : time) (r : attempt_row) : attempt_row :=
  set_state (a_state r) (a_error_code r) (a_error_message r) (a_error_retryable r) now r.

(** [res.RowsAffected() != 1]. *)
Definition affected_one (n : Z) (e : error) : M db unit :=
  if negb (n =? 1) then fail e else mret tt.

(** * Operations *)

Definition attempt_row_of (candidate : TransactionAttempt) (now : time) : attempt_row :=
  {| a_scoped_idempotency_key := ScopedIdempotencyKey candidate;
     a_request_digest := RequestDigest candidate; a_principal_name := PrincipalName candidate;
     a_wallet_id := WalletID candidate; a_approval_reference := ApprovalReference candidate;
     a_request_json := RequestJSON candidate; a_state := planning; a_change_address := None;
     a_plan_json := None; a_plan_digest := None; a_fee_zat := None; a_expiry_height := None;
     a_selected_note_ids := None; a_txid := None; a_raw_tx_hex := None;
     a_output_action_indices := None; a_change_action_index := None; a_error_code := None;
     a_error_message := None; a_error_retryable := false;
     a_created_at := now; a_updated_at := now |}.

Definition ClaimAttempt (clock : time) (candidate : TransactionAttempt)
    (io : faults) (d : db) : result AttemptClaimResult * db :=
  if String.eqb (AttemptID candidate) "" || String.eqb (ScopedIdempotencyKey candidate) ""
     || String.eqb (RequestDigest candidate) "" || String.eqb (PrincipalName candidate) ""
     || String.eqb (WalletID candidate) "" || String.eqb (ApprovalReference candidate) ""
     || String.eqb (RequestJSON candidate) ""
  then (Err (New "transaction attempt claim is incomplete"), d)
  else
    let now := if IsZero (CreatedAt candidate) then clock else CreatedAt candidate in
    run_tx (wrapf "begin transaction attempt claim") (wrapf "commit transaction attempt claim") (
      existing ← query_opt as_is (fun d =>
        '(id, row) ← attempt_with_key (ScopedIdempotencyKey candidate) d; scanAttempt id row);
      match existing with
      | Some existing =>
          if negb (String.eqb (RequestDigest existing) (RequestDigest candidate))
          then mret (Rollback {| AttemptClaim_State := ClaimConflict;
                                 AttemptClaim_Attempt := existing |})
          else mret (Rollback {| AttemptClaim_State := ClaimReplay;
                                 AttemptClaim_Attempt := existing |})
      | None =>
          _ ← stmt (wrapf "insert transaction attempt")
                (insert_attempt (AttemptID candidate) (attempt_row_of candidate now));
          _ ← insertAttemptEvent (AttemptID candidate) planning None now;
          mret (Commit {| AttemptClaim_State := ClaimAcquired;
                          AttemptClaim_Attempt :=
                            with_created (with_state candidate planning now) now |})
      end) io d.

Definition Attempt (attemptID : string) (io : faults) (d : db)
    : result (option TransactionAttempt) * db :=
  run_auto (query_opt as_is (fun d =>
    row ← row_of (db_attempts d) attemptID; scanAttempt attemptID row)) io d.

(** [rows.Next] over the rows of a query: the first bad row is an error. *)
Fixpoint scan_all {A B} (scan : A -> result B) (l : list A) : result (list B) :=
  match l with
  | [] => Ok []
  | x :: l' => y ← scan x; ys ← scan_all scan l'; Ok (y :: ys)
  end.

Definition string_ltb (a b : string) : bool := bool_decide (String.le a b /\ a <> b).

Definition RecoverableAttempts (afterAttemptID : string) (limit : Z)
    (io : faults) (d : db) : result (list TransactionAttempt) * db :=
  if (limit <? 1) || (1000 <? limit)
  then (Err (New "recoverable attempt limit must be between 1 and 1000"), d)
  else run_auto (
    rows ← query (wrapf "list recoverable transaction attempts") (fun d =>
      Ok (take (Z.to_nat limit) (order_by fst
           (rows_where (fun id r => recoverable_sql (a_state r) && string_ltb afterAttemptID id)
                       (db_attempts d)))));
    of_result (scan_all (fun p => scanAttempt p.1 p.2) rows)) io d.

(** [ORDER BY created_at,attempt_id]: the creation times compare as the texts
    the column holds. *)
Definition created_then_id (x y : string * attempt_row) : Prop :=
  if decide (a_created_at x.2 = a_created_at y.2) then String.le x.1 y.1
  else String.le (FormatRFC3339Nano (a_created_at x.2)) (FormatRFC3339Nano (a_created_at y.2)).

#[export] Instance created_then_id_dec : RelDecision created_then_id.
Proof. unfold created_then_id. intros x y. case_decide; apply _. Defined.

Definition ActiveAttemptsByWallet (walletID principal : string) (limit : Z)
    (io : faults) (d : db) : result (list ActiveAttempt) * db :=
  if (limit <? 1) || (1000 <? limit)
  then (Err (New "active attempt limit must be between 1 and 1000"), d)
  else run_auto (
    rows ← query (wrapf "list active transaction attempts") (fun d =>
      Ok (take (Z.to_nat (limit + 1)) (merge_sort created_then_id
           (rows_where (fun _ r => String.eqb (a_wallet_id r) walletID
                                   && String.eqb (a_principal_name r) principal
                                   && recoverable_sql (a_state r)) (db_attempts d)))));
    out ← of_result (scan_all (fun p => scanActiveAttempt p.1 p.2) rows);
    if limit <? Z.of_nat (length out) then fail ErrAttemptListLimit else mret out) io d.

Definition SetAttemptChangeAddress (attemptID address : string) (now : time)
    (io : faults) (d : db) : result unit * db :=
  let address := TrimSpace address in
  if String.eqb address "" then (Err (New "change address is required"), d)
  else run_auto (
    row ← query (wrapf "read transaction attempt change address")
            (fun d => row_of (db_attempts d) attemptID);
    if negb (String.eqb (null_string (a_change_address row)) "") then
      if String.eqb (null_string (a_change_address row)) address then mret tt
      else fail ErrAttemptStateConflict
    else if negb (bool_decide (a_state row = planning)) then fail ErrAttemptStateConflict
    else
      changed ← stmt (wrapf "store transaction attempt change address")
        (update_attempt attemptID
           (fun r => bool_decide (a_state r = planning) && is_none (a_change_address r))
           (set_change_address address now));
      affected_one changed ErrAttemptStateConflict) io d.

Definition reservations_of (network walletID : string) (d : db)
    : list (string * string * string * reservation_row) :=
  order_by (fun kv => kv.1.2)
    (rows_where (fun k _ => String.eqb k.1.1 network && String.eqb k.1.2 walletID)
                (db_reservations d)).

Definition ActiveNoteIDs (network walletID : string) (io : faults) (d : db)
    : result (list string) * db :=
  run_auto (query (wrapf "list active note reservations")
    (fun d => Ok (map (fun kv => kv.1.2) (reservations_of network walletID d)))) io d.

(** The inner join drops a reservation whose attempt has no row. *)
Definition join_reservation (d : db) (kv : string * string * string * reservation_row)
    : list NoteReservation :=
  match db_attempts d !! rv_attempt_id kv.2 with
  | Some a => [{| Reservation_NoteID := kv.1.2; Reservation_AttemptID := rv_attempt_id kv.2;
                  Reservation_State := a_state a;
                  Reservation_ExpiryHeight := default 0 (a_expiry_height a);
                  Reservation_CreatedAt := rv_created_at kv.2 |}]
  | None => []
  end.

Definition NoteReservations (network walletID : string) (io : faults) (d : db)
    : result (list NoteReservation) * db :=
  run_auto (query (wrapf "list note reservations")
    (fun d => Ok (concat (map (join_reservation d) (reservations_of network walletID d))))) io d.

(** The check over the sorted note IDs: none empty, none equal to the one before. *)
Fixpoint note_ids_ok (previous : option string) (noteIDs : list string) : bool :=
  match noteIDs with
  | [] => true
  | n :: rest =>
      if String.eqb n "" || bool_decide (previous = Some n) then false
      else note_ids_ok (Some n) rest
  end.

(** The loop that inserts the reservations. *)
Fixpoint reserve_notes (network attemptID planDigest : string) (stamp : time)
    (noteIDs : list string) : M db unit :=
  match noteIDs with
  | [] => mret tt
  | noteID :: rest =>
      changed ← stmt (wrapf "reserve transaction plan note")
        (insert_reservation network noteID attemptID planDigest stamp);
      _ ← affected_one changed ErrNoteReservation;
      reserve_notes network attemptID planDigest stamp rest
  end.

Definition ReserveAttemptPlan (attemptID network planJSON planDigest feeZat : string)
    (expiryHeight : Z) (noteIDs : list string) (now : time)
    (io : faults) (d : db) : result unit * db :=
  if String.eqb planJSON "" || String.eqb planDigest "" || String.eqb feeZat ""
     || (expiryHeight <? 0) || Nat.eqb (length noteIDs) 0
  then (Err (New "transaction plan reservation is incomplete"), d)
  else
    let noteIDs := order_by id noteIDs in
    if negb (note_ids_ok None noteIDs)
    then (Err (New "transaction plan note IDs must be non-empty and unique"), d)
    else run_tx (wrapf "begin transaction plan reservation")
                (wrapf "commit transaction plan reservation") (
      row ← query (wrapf "read transaction attempt before reservation")
              (fun d => row_of (db_attempts d) attemptID);
      if bool_decide (a_state row = reserved) && bool_decide (a_plan_digest row = Some planDigest)
      then mret (Rollback tt)
      else if negb (bool_decide (a_state row = planning)) then fail ErrAttemptStateConflict
      else
        _ ← reserve_notes network attemptID planDigest now noteIDs;
        changed ← stmt (wrapf "store reserved transaction plan")
          (update_attempt attemptID (fun r => bool_decide (a_state r = planning))
             (set_plan planJSON planDigest feeZat expiryHeight noteIDs now));
        _ ← affected_one changed ErrAttemptStateConflict;
        _ ← insertAttemptEvent attemptID reserved None now;
        mret (Commit tt)) io d.

Definition BeginAttemptSigning (attemptID : string) (now : time)
    (io : faults) (d : db) : result TransactionAttempt * db :=
  run_tx (wrapf "begin signing transition") (wrapf "commit signing transition") (
    attempt ← query as_is (fun d =>
      row ← row_of (db_attempts d) attemptID; scanAttempt attemptID row);
    match State attempt with
    | signing | signing_unknown => mret (Rollback attempt)
    | reserved =>
        changed ← stmt (wrapf "transition transaction attempt to signing")
          (update_attempt attemptID (fun r => bool_decide (a_state r = State attempt))
             (set_state signing None None false now));
        _ ← affected_one changed ErrAttemptStateConflict;
        _ ← insertAttemptEvent attemptID signing None now;
        mret (Commit (with_state attempt signing now))
    | _ => fail ErrAttemptStateConflict
    end) io d.

Definition CompleteAttemptSigning (attemptID txid rawTxHex feeZat : string)
    (outputIndices : list Z) (changeIndex : option Z) (now : time)
    (io : faults) (d : db) : result unit * db :=
  run_tx (wrapf "begin signing completion") (wrapf "commit signing completion") (
    row ← query (wrapf "read transaction attempt before signing completion")
            (fun d => row_of (db_attempts d) attemptID);
    if bool_decide (a_state row = signed) && String.eqb (null_string (a_txid row)) txid
       && String.eqb (null_string (a_raw_tx_hex row)) rawTxHex
    then mret (Rollback tt)
    else if negb (bool_decide (a_state row = signing))
            && negb (bool_decide (a_state row = signing_unknown))
    then fail ErrAttemptStateConflict
    else
      changed ← stmt (wrapf "store signed transaction result")
        (update_attempt attemptID
           (fun r => bool_decide (a_state r = signing) || bool_decide (a_state r = signing_unknown))
           (set_signed txid rawTxHex feeZat outputIndices changeIndex now));
      _ ← affected_one changed ErrAttemptStateConflict;
      _ ← insertAttemptEvent attemptID signed None now;
      mret (Commit tt)) io d.

Definition MarkAttemptState (attemptID : string) (state : AttemptState) (code message : string)
    (retryable releaseReservations : bool) (now : time)
    (io : faults) (d : db) : result unit * db :=
  if bool_decide (state = OtherState "")
  then (Err (New "transaction attempt state is required"), d)
  else run_tx (wrapf "begin transaction attempt transition")
              (wrapf "commit transaction attempt transition") (
    row ← query (wrapf "read transaction attempt state")
            (fun d => row_of (db_attempts d) attemptID);
    let current := a_state row in
    if negb (allowedAttemptTransition current state) then fail ErrAttemptStateConflict
    else if releaseReservations && negb (safeReservationReleaseTransition current state)
    then fail ErrAttemptStateConflict
    else if bool_decide (current = state)
            && String.eqb (null_string (a_error_code row)) code
            && String.eqb (null_string (a_error_message row)) message
            && Bool.eqb (a_error_retryable row) retryable
    then
      _ ← stmt (wrapf "refresh transaction attempt state")
            (update_attempt attemptID (fun _ => true) (touch now));
      mret (Commit tt)
    else
      _ ← (if releaseReservations
           then stmt (wrapf "release transaction attempt notes") (delete_reservations attemptID)
           else mret tt);
      _ ← stmt (wrapf "update transaction attempt state")
            (update_attempt attemptID (fun _ => true)
               (set_state state (nullableString code) (nullableString message) retryable now));
      _ ← insertAttemptEvent attemptID state (Some (code, retryable)) now;
      mret (Commit tt)) io d.

Definition CancelAttempt (attemptID : string) (now : time)
    (io : faults) (d : db) : result TransactionAttempt * db :=
  run_tx (wrapf "begin transaction attempt cancellation")
         (wrapf "commit transaction attempt cancellation") (
    attempt ← query as_is (fun d =>
      row ← row_of (db_attempts d) attemptID; scanAttempt attemptID row);
    if bool_decide (State attempt = cancelled) then mret (Rollback attempt)
    else if negb (bool_decide (State attempt = planning))
            && negb (bool_decide (State attempt = reserved))
    then fail ErrAttemptStateConflict
    else
      _ ← stmt (wrapf "release cancelled transaction attempt notes") (delete_reservations attemptID);
      changed ← stmt (wrapf "cancel transaction attempt")
        (update_attempt attemptID (fun r => bool_decide (a_state r = State attempt))
           (set_state cancelled None None false now));
      _ ← affected_one changed ErrAttemptStateConflict;
      _ ← insertAttemptEvent attemptID cancelled None now;
      mret (Commit (with_state attempt cancelled now))) io d.

(** * What each operation writes

    The lemmas below reduce every operation to [attempt_write]: the change it
    makes to the three tables, under the state it found.  A failed or rolled
    back operation writes nothing.  [nets] and [marks] say which plans and which
    state changes are asked for. *)


Definition log_event (d : db) (id : string) (state : AttemptState)
    (detail : option (string * bool)) (now : time) : db :=
  set_events d (db_events d ++
    [{| ev_attempt_id := id; ev_state := state; ev_detail := detail; ev_created_at := now |}]).

Definition put_attempt (d : db) (id : string) (row : attempt_row) : db :=
  set_attempts d (<[id := row]> (db_attempts d)).

Definition drop_reservations (d : db) (id : string) : db :=
  set_reservations d (filter (fun kv => rv_attempt_id kv.2 <> id) (db_reservations d)).

Definition add_reservations (network walletID id planDigest : string) (now : time)
    (noteIDs : list string) (m : gmap (string * string * string) reservation_row)
    : gmap (string * string * string) reservation_row :=
  foldl (fun m n => <[(network, walletID, n) :=
    {| rv_attempt_id := id; rv_plan_digest := planDigest; rv_created_at := now |}]> m) m noteIDs.

Lemma scanAttempt_fields id row a :
  scanAttempt id row = Ok a ->
  AttemptID a = id /\ State a = a_state row /\ WalletID a = a_wallet_id row /\
  RequestDigest a = a_request_digest row /\
  ScopedIdempotencyKey a = a_scoped_idempotency_key row.
Proof.
  unfold scanAttempt. intros (c & _ & [= <-])%result_bind_ok. done.
Qed.

Lemma attempt_with_key_some key d id row :
  attempt_with_key key d = Ok (id, row) ->
  db_attempts d !! id = Some row /\ a_scoped_idempotency_key row = key.
Proof.
  unfold attempt_with_key. case_match eqn:Hr; [done|]. intros [= ->].
  pose proof (proj1 (elem_of_rows_where
    (fun _ r => String.eqb (a_scoped_idempotency_key r) key) (db_attempts d) id row)) as He.
  rewrite Hr in He. destruct He as [? ?%String.eqb_eq]; [left|done].
Qed.

Lemma attempt_with_key_none key d e :
  attempt_with_key key d = Err e ->
  forall id row, db_attempts d !! id = Some row -> a_scoped_idempotency_key row <> key.
Proof.
  unfold attempt_with_key. case_match eqn:Hr; [|done]. intros _ id row Hl <-.
  pose proof (proj2 (elem_of_rows_where
    (fun _ r => String.eqb (a_scoped_idempotency_key r) (a_scoped_idempotency_key row))
    (db_attempts d) id row)) as He.
  rewrite Hr, String.eqb_refl in He. by apply (not_elem_of_nil (id, row)), He.
Qed.

Lemma update_attempt_ok id cond f d n d' :
  update_attempt id cond f d = Ok (n, d') ->
  (n = 0 /\ d' = d /\ forall row, db_attempts d !! id = Some row -> cond row = false) \/
  (n = 1 /\ exists row, db_attempts d !! id = Some row /\ cond row = true /\
                        d' = put_attempt d id (f row)).
Proof. unfold update_attempt, put_attempt. repeat case_match; naive_solver. Qed.

Lemma insert_attempt_ok id row d u d' :
  insert_attempt id row d = Ok (u, d') ->
  db_attempts d !! id = None /\ d' = put_attempt d id row.
Proof.
  unfold insert_attempt, put_attempt. case_match eqn:Hc; [done|]. intros [= <- <-]. bool_to_prop.
  split; [by apply eq_None_not_Some|done].
Qed.

Lemma insertAttemptEvent_ok id state detail now io d u io' d' :
  insertAttemptEvent id state detail now io d = Ok (u, io', d') ->
  d' = log_event d id state detail now.
Proof.
  unfold insertAttemptEvent, log_event. intros H%stmt_ok. case_match; naive_solver.
Qed.

Lemma affected_one_ok n e io d u io' d' :
  affected_one n e io d = Ok (u, io', d') -> n = 1 /\ d' = d /\ io' = io.
Proof.
  unfold affected_one. destruct (Z.eqb_spec n 1); cbn; [|done]. unfold mret, m_ret. naive_solver.
Qed.

Lemma insert_reservation_ok network n id digest now d c d' :
  insert_reservation network n id digest now d = Ok (c, d') ->
  (c = 0 /\ d' = d) \/
  (c = 1 /\ exists row, db_attempts d !! id = Some row /\
     db_reservations d !! (network, a_wallet_id row, n) = None /\
     d' = set_reservations d (<[(network, a_wallet_id row, n) :=
       {| rv_attempt_id := id; rv_plan_digest := digest; rv_created_at := now |}]>
       (db_reservations d))).
Proof. unfold insert_reservation. repeat case_match; naive_solver. Qed.

Lemma set_reservations_id d : set_reservations d (db_reservations d) = d.
Proof. by destruct d. Qed.

Lemma reserve_notes_ok network id digest now notes io d u io' d' row :
  db_attempts d !! id = Some row ->
  reserve_notes network id digest now notes io d = Ok (u, io', d') ->
  NoDup notes /\
  (forall n, n ∈ notes -> db_reservations d !! (network, a_wallet_id row, n) = None) /\
  d' = set_reservations d (add_reservations network (a_wallet_id row) id digest now notes
                             (db_reservations d)).
Proof.
  revert io d. induction notes as [|n notes IH]; cbn; intros io d Hrow H.
  { tx_inv. split_and!; [constructor|set_solver|by rewrite set_reservations_id]. }
  tx_inv. apply insert_reservation_ok in H0.
  match goal with H : affected_one _ _ _ _ = _ |- _ => apply affected_one_ok in H as (-> & -> & ->) end.
  destruct H0 as [[? _]|(_ & row' & Hrow' & Hfree & ->)]; [done|]. simplify_eq.
  apply IH in H as (Hnd & Hnew & ->); [|done]. cbn in *.
  split_and!; [|intros m [-> | Hm]%elem_of_cons; [done|]|done].
  - constructor; [|done]. intros Hin. specialize (Hnew _ Hin). by simplify_map_eq.
  - specialize (Hnew _ Hm). by apply lookup_insert_None in Hnew as [? _].
Qed.

Ltac effects :=
  repeat match goal with
  | H : insertAttemptEvent _ _ _ _ _ _ = _ |- _ => apply insertAttemptEvent_ok in H
  | H : affected_one _ _ _ _ = _ |- _ => apply affected_one_ok in H as (? & ? & ?)
  | H : insert_attempt _ _ _ = _ |- _ => apply insert_attempt_ok in H as [? ?]
  | H : update_attempt _ _ _ _ = _ |- _ =>
      apply update_attempt_ok in H as [(? & ? & ?)|(? & ? & ? & ? & ?)]
  | H : attempt_with_key _ _ = Ok _ |- _ => apply attempt_with_key_some in H as [? ?]
  | H : scanAttempt _ _ = Ok _ |- _ => pose proof (scanAttempt_fields _ _ _ H); clear H
  | H : delete_reservations _ _ = Ok _ |- _ => unfold delete_reservations in H
  end; simplify_eq/=;
  try match goal with
  | H : forall row, ?m !! ?i = Some row -> true = false, H' : ?m !! ?i = Some _ |- _ =>
      discriminate (H _ H')
  end.

Lemma scanAttempt_err id row e : scanAttempt id row = Err e -> is_no_rows e = false.
Proof.
  unfold scanAttempt, scan_change_index. destruct (a_change_action_index row); cbn; [|done].
  case_match; cbn; naive_solver.
Qed.

Lemma claim_absent key d e :
  ('(id, row) ← attempt_with_key key d; scanAttempt id row) = Err e -> is_no_rows e = true ->
  forall i r, db_attempts d !! i = Some r -> a_scoped_idempotency_key r <> key.
Proof.
  destruct (attempt_with_key key d) as [[id row]|e'] eqn:Hk; cbn.
  - intros ->%scanAttempt_err. done.
  - intros _ _. by eapply attempt_with_key_none.
Qed.

Section writes.
Context (nets : string -> Prop) (marks : string -> AttemptState -> bool -> Prop).

Inductive attempt_write (d : db) : db -> Prop :=
  | write_nothing : attempt_write d d
  | write_claim id row now :
      db_attempts d !! id = None ->
      (forall i r, db_attempts d !! i = Some r ->
         a_scoped_idempotency_key r <> a_scoped_idempotency_key row) ->
      a_state row = planning -> a_selected_note_ids row = None ->
      attempt_write d (log_event (put_attempt d id row) id planning None now)
  | write_change_address id row address now :
      db_attempts d !! id = Some row -> a_state row = planning -> a_change_address row = None ->
      attempt_write d (put_attempt d id (set_change_address address now row))
  | write_reserve id row network plan digest fee expiry notes now :
      db_attempts d !! id = Some row -> a_state row = planning ->
      notes <> [] -> NoDup notes -> nets network ->
      (forall n, n ∈ notes -> db_reservations d !! (network, a_wallet_id row, n) = None) ->
      attempt_write d (log_event (put_attempt
        (set_reservations d (add_reservations network (a_wallet_id row) id digest now notes
                               (db_reservations d)))
        id (set_plan plan digest fee expiry notes now row)) id reserved None now)
  | write_begin_signing id row now :
      db_attempts d !! id = Some row -> a_state row = reserved ->
      attempt_write d (log_event (put_attempt d id (set_state signing None None false now row))
                         id signing None now)
  | write_signed id row txid raw fee outs change now :
      db_attempts d !! id = Some row -> (a_state row = signing \/ a_state row = signing_unknown) ->
      attempt_write d (log_event (put_attempt d id (set_signed txid raw fee outs change now row))
                         id signed None now)
  | write_refresh id row now :
      db_attempts d !! id = Some row ->
      attempt_write d (put_attempt d id (touch now row))
  | write_mark id row state code message retryable detail now :
      db_attempts d !! id = Some row -> allowedAttemptTransition (a_state row) state = true ->
      marks id state false ->
      attempt_write d (log_event (put_attempt d id
        (set_state state code message retryable now row)) id state detail now)
  | write_mark_release id row state code message retryable detail now :
      db_attempts d !! id = Some row -> allowedAttemptTransition (a_state row) state = true ->
      safeReservationReleaseTransition (a_state row) state = true -> marks id state true ->
      attempt_write d (log_event (put_attempt (drop_reservations d id) id
        (set_state state code message retryable now row)) id state detail now)
  | write_cancel id row now :
      db_attempts d !! id = Some row -> (a_state row = planning \/ a_state row = reserved) ->
      attempt_write d (log_event (put_attempt (drop_reservations d id) id
        (set_state cancelled None None false now row)) id cancelled None now).

Lemma ClaimAttempt_write clock c io d r d' :
  ClaimAttempt clock c io d = (r, d') -> attempt_write d d'.
Proof.
  unfold ClaimAttempt. case_match; [naive_solver constructor|].
  intros [[-> _]|[(-> & _)|(a & io1 & io2 & _ & H1)]]%run_tx_cases; [constructor..|].
  db_inv. effects. destruct H0 as (e & Herr & Hno).
  apply write_claim; try done. by eapply claim_absent.
Qed.

Lemma SetAttemptChangeAddress_write id address now io d r d' :
  SetAttemptChangeAddress id address now io d = (r, d') -> attempt_write d d'.
Proof.
  unfold SetAttemptChangeAddress. case_match; [naive_solver constructor|].
  intros [[-> _]|(a & io2 & _ & H1)]%run_auto_cases; [constructor|].
  db_inv; effects; bool_to_prop; none_to_prop; by constructor.
Qed.

Lemma order_by_nil {A} (key : A -> string) l : order_by key l = [] -> l = [].
Proof.
  intros Hn. apply Permutation_nil. rewrite <- Hn. unfold order_by.
  by rewrite merge_sort_Permutation.
Qed.

Lemma ReserveAttemptPlan_write id nw plan digest fee expiry notes now io d r d' :
  nets nw ->
  ReserveAttemptPlan id nw plan digest fee expiry notes now io d = (r, d') -> attempt_write d d'.
Proof.
  intros Hnw. unfold ReserveAttemptPlan. case_match; [naive_solver constructor|].
  case_match; [naive_solver constructor|].
  intros [[-> _]|[(-> & _)|(a & io1 & io2 & _ & H1)]]%run_tx_cases; [constructor..|].
  db_inv. match goal with H : reserve_notes _ _ _ _ _ _ _ = _ |- _ =>
    eapply reserve_notes_ok in H as (Hnd & Hfree & Heq); [subst|done] end.
  effects. apply write_reserve; try done; [by bool_to_prop|].
  intros Hnil%order_by_nil. subst. by rewrite !orb_true_r in H.
Qed.

Lemma BeginAttemptSigning_write id now io d r d' :
  BeginAttemptSigning id now io d = (r, d') -> attempt_write d d'.
Proof.
  unfold BeginAttemptSigning.
  intros [[-> _]|[(-> & _)|(a & io1 & io2 & _ & H1)]]%run_tx_cases; [constructor..|].
  db_inv; effects. bool_to_prop. by apply write_begin_signing.
Qed.

Lemma CompleteAttemptSigning_write id txid raw fee outs change now io d r d' :
  CompleteAttemptSigning id txid raw fee outs change now io d = (r, d') -> attempt_write d d'.
Proof.
  unfold CompleteAttemptSigning.
  intros [[-> _]|[(-> & _)|(a & io1 & io2 & _ & H1)]]%run_tx_cases; [constructor..|].
  db_inv; effects. apply write_signed; [done|].
  match goal with H : _ || _ = true |- _ => apply orb_true_iff in H as [?|?] end;
    bool_to_prop; auto.
Qed.

Lemma MarkAttemptState_write id state code msg retryable release now io d r d' :
  marks id state release ->
  MarkAttemptState id state code msg retryable release now io d = (r, d') -> attempt_write d d'.
Proof.
  intros Hmark. unfold MarkAttemptState. case_match; [naive_solver constructor|].
  intros [[-> _]|[(-> & _)|(a & io1 & io2 & _ & H1)]]%run_tx_cases; [constructor..|].
  db_inv; effects; bool_to_prop;
    [by apply write_refresh|by apply write_mark_release|by apply write_mark].
Qed.

Lemma CancelAttempt_write id now io d r d' :
  CancelAttempt id now io d = (r, d') -> attempt_write d d'.
Proof.
  unfold CancelAttempt.
  intros [[-> _]|[(-> & _)|(a & io1 & io2 & _ & H1)]]%run_tx_cases; [constructor..|].
  db_inv; effects. bool_to_prop. apply write_cancel; [done|].
  match goal with H : _ && _ = false |- _ => apply andb_false_iff in H as [?|?] end;
    bool_to_prop; [left|right]; congruence.
Qed.
End writes.
