(* ===== verification/Receipts.v ===== *)
(** Idempotency receipts: [ClaimReceipt], [RenewReceipt], [CompleteReceipt] and
    [AbandonReceipt] of [internal/storage/sqlite/sqlite.go].

    A receipt is claimed with a lease and fenced by its generation: a claimant
    whose lease ran out and was taken over can no longer write. *)
From S2P Require Import Prelude Tx GoString GoTime Domain Database.

(** * Operations *)

Definition scanReceipt (key : string) (row : receipt_row) : Receipt :=
  {| Key := key;
     PayloadDigest := r_payload_digest row;
     ExpectedTxID := r_expected_txid row;
     Generation := r_claim_generation row;
     Receipt_complete := r_complete row;
     ResponseJSON := default EmptyString (r_response_json row);
     HTTPStatus := default 0 (r_http_status row);
     Receipt_UpdatedAt := r_updated_at row |}.

(** [INSERT .. ON CONFLICT(idempotency_key) DO NOTHING]. *)
Definition insert_receipt (key : string) (row : receipt_row) (d : db) : result (Z * db) :=
  match db_receipts d !! key with
  | Some _ => Ok (0, d)
  | None => Ok (1, set_receipts d (<[key := row]> (db_receipts d)))
  end.

(** [UPDATE idempotency_receipts SET .. WHERE idempotency_key=? AND
    payload_digest=? AND claim_generation=? AND state='processing']. *)
Definition update_receipt (key digest : string) (generation : Z)
    (f : receipt_row -> receipt_row) (d : db) : result (Z * db) :=
  match db_receipts d !! key with
  | Some row =>
      if String.eqb (r_payload_digest row) digest && (r_claim_generation row =? generation)
         && negb (r_complete row)
      then Ok (1, set_receipts d (<[key := f row]> (db_receipts d)))
      else Ok (0, d)
  | None => Ok (0, d)
  end.

Definition owned (n : Z) (text : string) : M db unit :=
  if negb (n =? 1) then fail (New text) else mret tt.

Definition reclaim (expectedTxID : string) (now : time) (r : receipt_row) : receipt_row :=
  {| r_payload_digest := r_payload_digest r; r_expected_txid := expectedTxID;
     r_claim_generation := r_claim_generation r + 1; r_complete := r_complete r;
     r_http_status := r_http_status r; r_response_json := r_response_json r;
     r_created_at := r_created_at r; r_updated_at := now |}.

Definition ClaimReceipt (key digest expectedTxID : string) (now : time) (lease : Z)
    (io : faults) (d : db) : result ClaimResult * db :=
  run_tx (wrapf "begin receipt claim") (wrapf "commit receipt claim") (
    n ← stmt (wrapf "insert receipt claim") (insert_receipt key
          {| r_payload_digest := digest; r_expected_txid := expectedTxID;
             r_claim_generation := 1; r_complete := false; r_http_status := None;
             r_response_json := None; r_created_at := now; r_updated_at := now |});
    if n =? 1 then
      mret (Commit {| Claim_State := ClaimAcquired;
                      Claim_Receipt :=
                        {| Key := key; PayloadDigest := digest; ExpectedTxID := expectedTxID;
                           Generation := 1; Receipt_complete := false; ResponseJSON := "";
                           HTTPStatus := 0; Receipt_UpdatedAt := now |} |})
    else
      row ← query (wrapf "read receipt") (fun d => row_of (db_receipts d) key);
      let receipt := scanReceipt key row in
      if negb (String.eqb (PayloadDigest receipt) digest)
      then mret (Rollback {| Claim_State := ClaimConflict; Claim_Receipt := receipt |})
      else if Receipt_complete receipt
      then mret (Rollback {| Claim_State := ClaimReplay; Claim_Receipt := receipt |})
      else if Sub now (Receipt_UpdatedAt receipt) <? lease
      then mret (Rollback {| Claim_State := ClaimInProgress; Claim_Receipt := receipt |})
      else
        n ← stmt (wrapf "reclaim receipt")
              (update_receipt key digest (Generation receipt) (reclaim expectedTxID now));
        _ ← owned n "receipt claim changed while reclaiming";
        mret (Commit {| Claim_State := ClaimAcquired;
                        Claim_Receipt :=
                          {| Key := key; PayloadDigest := PayloadDigest receipt;
                             ExpectedTxID := expectedTxID;
                             Generation := add64 (Generation receipt) 1;
                             Receipt_complete := Receipt_complete receipt;
                             ResponseJSON := ResponseJSON receipt;
                             HTTPStatus := HTTPStatus receipt; Receipt_UpdatedAt := now |} |}))
    io d.

Definition renew (now : time) (r : receipt_row) : receipt_row :=
  {| r_payload_digest := r_payload_digest r; r_expected_txid := r_expected_txid r;
     r_claim_generation := r_claim_generation r; r_complete := r_complete r;
     r_http_status := r_http_status r; r_response_json := r_response_json r;
     r_created_at := r_created_at r; r_updated_at := now |}.

Definition RenewReceipt (key digest : string) (generation : Z) (now : time)
    (io : faults) (d : db) : result unit * db :=
  run_auto (
    n ← stmt (wrapf "renew receipt claim") (update_receipt key digest generation (renew now));
    owned n "receipt claim is no longer owned") io d.

Definition complete (status : Z) (response : string) (now : time) (r : receipt_row) : receipt_row :=
  {| r_payload_digest := r_payload_digest r; r_expected_txid := r_expected_txid r;
     r_claim_generation := r_claim_generation r; r_complete := true;
     r_http_status := Some status; r_response_json := Some response;
     r_created_at := r_created_at r; r_updated_at := now |}.

Definition CompleteReceipt (key digest : string) (generation status : Z) (response : string)
    (now : time) (io : faults) (d : db) : result unit * db :=
  run_auto (
    n ← stmt (wrapf "complete receipt")
          (update_receipt key digest generation (complete status response now));
    owned n "receipt claim is no longer owned") io d.

Definition abandon (r : receipt_row) : receipt_row :=
  {| r_payload_digest := r_payload_digest r; r_expected_txid := r_expected_txid r;
     r_claim_generation := r_claim_generation r + 1; r_complete := r_complete r;
     r_http_status := r_http_status r; r_response_json := r_response_json r;
     r_created_at := r_created_at r; r_updated_at := unix_epoch |}.

Definition AbandonReceipt (key digest : string) (generation : Z) (now : time)
    (io : faults) (d : db) : result unit * db :=
  run_auto (
    n ← stmt (wrapf "abandon receipt claim") (update_receipt key digest generation abandon);
    owned n "receipt claim is no longer owned") io d.

(** * What each operation writes *)

Inductive receipt_write (key : string) (d : db) : db -> Prop :=
  | receipt_same : receipt_write key d d
  | receipt_insert row :
      db_receipts d !! key = None -> r_complete row = false -> r_claim_generation row = 1 ->
      receipt_write key d (set_receipts d (<[key := row]> (db_receipts d)))
  | receipt_update row row' :
      db_receipts d !! key = Some row -> r_complete row = false ->
      r_payload_digest row' = r_payload_digest row ->
      r_claim_generation row <= r_claim_generation row' ->
      receipt_write key d (set_receipts d (<[key := row']> (db_receipts d))).

Lemma insert_receipt_ok key row d n d' :
  insert_receipt key row d = Ok (n, d') ->
  (n = 0 /\ d' = d /\ is_Some (db_receipts d !! key)) \/
  (n = 1 /\ db_receipts d !! key = None /\ d' = set_receipts d (<[key := row]> (db_receipts d))).
Proof. unfold insert_receipt. case_match; naive_solver. Qed.

Lemma update_receipt_ok key digest g f d n d' :
  update_receipt key digest g f d = Ok (n, d') ->
  (n = 0 /\ d' = d) \/
  (n = 1 /\ exists row, db_receipts d !! key = Some row /\ r_payload_digest row = digest /\
     r_claim_generation row = g /\ r_complete row = false /\
     d' = set_receipts d (<[key := f row]> (db_receipts d))).
Proof.
  unfold update_receipt. case_match; [|naive_solver]. case_match eqn:Hc; [|naive_solver].
  bool_to_prop. intros [= <- <-]. right. eauto 10.
Qed.

Lemma owned_ok n t io d u io' d' :
  owned n t io d = Ok (u, io', d') -> n = 1 /\ d' = d /\ io' = io.
Proof.
  unfold owned. destruct (Z.eqb_spec n 1); cbn; [|done]. unfold mret, m_ret. naive_solver.
Qed.

Ltac receipt_effects :=
  repeat match goal with
  | H : insert_receipt _ _ _ = _ |- _ => apply insert_receipt_ok in H as [(? & ? & ?)|(? & ? & ?)]
  | H : update_receipt _ _ _ _ _ = _ |- _ =>
      apply update_receipt_ok in H as [(? & ?)|(? & ? & ? & ? & ? & ? & ?)]
  | H : owned _ _ _ _ = _ |- _ => apply owned_ok in H as (? & ? & ?)
  end; simplify_eq/=.

(** The lease check of a claim, and what the caller then owns. *)
Definition acquired (key digest expectedTxID : string) (now : time) (lease : Z) (d d' : db)
    (r : ClaimResult) : Prop :=
  exists row', db_receipts d' = <[key := row']> (db_receipts d) /\
    r_payload_digest row' = digest /\ r_expected_txid row' = expectedTxID /\
    r_complete row' = false /\ r_updated_at row' = now /\
    PayloadDigest (Claim_Receipt r) = digest /\ ExpectedTxID (Claim_Receipt r) = expectedTxID /\
    match db_receipts d !! key with
    | None => r_claim_generation row' = 1 /\ Generation (Claim_Receipt r) = 1
    | Some row => r_payload_digest row = digest /\ r_complete row = false /\
        lease <= Sub now (r_updated_at row) /\
        r_claim_generation row' = r_claim_generation row + 1 /\
        Generation (Claim_Receipt r) = add64 (r_claim_generation row) 1
    end.

(** The lease is held, or the receipt is complete, or it is of another payload:
    nothing is written and the caller gets the receipt as it stands. *)
Definition refused (key digest : string) (now : time) (lease : Z) (d : db)
    (r : ClaimResult) : Prop :=
  exists row, db_receipts d !! key = Some row /\ Claim_Receipt r = scanReceipt key row /\
    match Claim_State r with
    | ClaimConflict => r_payload_digest row <> digest
    | ClaimReplay => r_payload_digest row = digest /\ r_complete row = true
    | ClaimInProgress => r_payload_digest row = digest /\ r_complete row = false /\
                         Sub now (r_updated_at row) < lease
    | ClaimAcquired => False
    end.

Lemma ClaimReceipt_cases key digest expected now lease io d r d' :
  ClaimReceipt key digest expected now lease io d = (Ok r, d') ->
  match Claim_State r with
  | ClaimAcquired => acquired key digest expected now lease d d' r
  | _ => d' = d /\ refused key digest now lease d r
  end.
Proof.
  unfold ClaimReceipt.
  intros [[-> (e & [=])]|[(-> & a & io1 & io2 & s2 & [= ->] & H1)|(a & io1 & io2 & [= ->] & H1)]]%run_tx_cases;
    db_inv; receipt_effects; bool_to_prop.
  - split; [done|]. eexists. split_and!; done.
  - split; [done|]. eexists. split_and!; done.
  - split; [done|]. eexists. split_and!; try done.
  - eexists. split_and!; try done. cbn. by simplify_map_eq.
  - eexists. split_and!; try done. simplify_map_eq. split_and!; try done.
Qed.

(** a claim is acquired exactly when the key is new, or the same payload is
    still processing under an expired lease, and then it gets the next
    generation; in every other case the stored receipt is returned and nothing
    is written. *)
Theorem ClaimReceipt_spec key digest expected now lease io d r d' :
  ClaimReceipt key digest expected now lease io d = (Ok r, d') ->
  match Claim_State r with
  | ClaimAcquired => acquired key digest expected now lease d d' r
  | _ => d' = d /\ refused key digest now lease d r
  end.
Proof. apply ClaimReceipt_cases. Qed.

(** What a successful completion leaves on record. *)
Lemma CompleteReceipt_ok key digest g status response now io d u d' :
  CompleteReceipt key digest g status response now io d = (Ok u, d') ->
  exists row, r_payload_digest row = digest /\
    db_receipts d' !! key = Some (complete status response now row).
Proof.
  unfold CompleteReceipt. intros [[-> (e & [=])]|(a & io2 & _ & H)]%run_auto_cases.
  db_inv; receipt_effects. eexists. split; [|apply lookup_insert_eq]. done.
Qed.

(** * Executions *)

Inductive receipt_op : Type :=
  | RClaim (key digest expectedTxID : string) (now : time) (lease : Z)
  | RRenew (key digest : string) (generation : Z) (now : time)
  | RComplete (key digest : string) (generation status : Z) (response : string) (now : time)
  | RAbandon (key digest : string) (generation : Z) (now : time).

Definition exec_receipt (o : receipt_op) (io : faults) (d : db) : db :=
  match o with
  | RClaim k g t n l => (ClaimReceipt k g t n l io d).2
  | RRenew k g n t => (RenewReceipt k g n t io d).2
  | RComplete k g n s r t => (CompleteReceipt k g n s r t io d).2
  | RAbandon k g n t => (AbandonReceipt k g n t io d).2
  end.

Definition op_key (o : receipt_op) : string :=
  match o with
  | RClaim k _ _ _ _ | RRenew k _ _ _ | RComplete k _ _ _ _ _ | RAbandon k _ _ _ => k
  end.

(** Any interleaving of the claimants' calls, each with its driver outcomes. *)
Fixpoint exec_receipts (l : list (receipt_op * faults)) (d : db) : db :=
  match l with
  | [] => d
  | (o, io) :: l' => exec_receipts l' (exec_receipt o io d)
  end.

Lemma exec_receipt_write o io d : receipt_write (op_key o) d (exec_receipt o io d).
Proof.
  destruct o; cbn.
  - destruct (ClaimReceipt _ _ _ _ _ _ _) as [r d'] eqn:H. unfold ClaimReceipt in H.
    apply run_tx_cases in H as [[-> _]|[[-> _]|(a & io1 & io2 & _ & H)]]; [constructor..|].
    cbn. db_inv; receipt_effects; bool_to_prop.
    + by apply receipt_insert.
    + eapply receipt_update; [done..|]. cbn. lia.
  - destruct (RenewReceipt _ _ _ _ _ _) as [r d'] eqn:H. unfold RenewReceipt in H.
    apply run_auto_cases in H as [[-> _]|(a & io2 & _ & H)]; [constructor|].
    cbn. db_inv; receipt_effects. eapply receipt_update; done.
  - destruct (CompleteReceipt _ _ _ _ _ _ _ _) as [r d'] eqn:H. unfold CompleteReceipt in H.
    apply run_auto_cases in H as [[-> _]|(a & io2 & _ & H)]; [constructor|].
    cbn. db_inv; receipt_effects. eapply receipt_update; done.
  - destruct (AbandonReceipt _ _ _ _ _ _) as [r d'] eqn:H. unfold AbandonReceipt in H.
    apply run_auto_cases in H as [[-> _]|(a & io2 & _ & H)]; [constructor|].
    cbn. db_inv; receipt_effects. eapply receipt_update; [done..|]. cbn. lia.
Qed.

Definition receipt_le (r r' : receipt_row) : Prop :=
  r_payload_digest r' = r_payload_digest r /\ r_claim_generation r <= r_claim_generation r' /\
  (r_complete r = true -> r' = r).

#[export] Instance receipt_le_preorder : PreOrder receipt_le.
Proof.
  split; [intros r; split_and!; done || lia|].
  intros r1 r2 r3 (?&?&?) (?&?&H3). split_and!; [congruence|lia|].
  intros. assert (r2 = r1) as -> by auto. auto.
Qed.

Lemma receipt_write_le key d d' k r :
  receipt_write key d d' -> db_receipts d !! k = Some r ->
  exists r', db_receipts d' !! k = Some r' /\ receipt_le r r'.
Proof.
  intros [|row Hn _ _|row row' Hr Hc Hdig Hgen] Hk.
  - eexists. split; [done|reflexivity].
  - exists r. cbn. rewrite lookup_insert_ne by (intros ->; congruence). split; [done|reflexivity].
  - cbn. destruct (decide (key = k)) as [->|].
    + rewrite lookup_insert_eq. eexists. split; [done|]. simplify_eq.
      split_and!; [done|done|congruence].
    + rewrite lookup_insert_ne by done. eexists. split; [done|reflexivity].
Qed.

Lemma exec_receipts_le l d k r :
  db_receipts d !! k = Some r ->
  exists r', db_receipts (exec_receipts l d) !! k = Some r' /\ receipt_le r r'.
Proof.
  revert d r. induction l as [|[o io] l IH]; cbn; intros d r Hr; [by exists r|].
  destruct (receipt_write_le _ _ _ _ _ (exec_receipt_write o io d) Hr) as (r1 & Hr1 & Hle1).
  destruct (IH _ _ Hr1) as (r2 & ? & ?). exists r2. split; [done|by etrans].
Qed.

Lemma update_receipt_stale key digest g f row d :
  db_receipts d !! key = Some row -> r_claim_generation row <> g ->
  update_receipt key digest g f d = Ok (0, d).
Proof.
  intros Hr Hg. unfold update_receipt. rewrite Hr. apply Z.eqb_neq in Hg.
  by rewrite Hg, andb_false_r.
Qed.

Lemma run_owned_stale w key digest g f text row io d :
  db_receipts d !! key = Some row -> r_claim_generation row <> g ->
  exists e, run_auto (mbind (fun n => owned n text) (stmt w (update_receipt key digest g f))) io d
            = (Err e, d).
Proof.
  intros Hr Hg. unfold run_auto, mbind, m_bind, stmt. destruct (driver io) as [[u|e] io']; [|eauto].
  rewrite (update_receipt_stale _ _ _ _ _ _ Hr Hg). cbn. eauto.
Qed.

Lemma claim_of_complete l d key row digest expected now lease io r d' :
  db_receipts d !! key = Some row -> r_complete row = true ->
  ClaimReceipt key digest expected now lease io (exec_receipts l d) = (Ok r, d') ->
  d' = exec_receipts l d /\ Claim_Receipt r = scanReceipt key row /\
  Claim_State r = if decide (digest = r_payload_digest row) then ClaimReplay else ClaimConflict.
Proof.
  intros Hrow Hc.
  destruct (exec_receipts_le l d key row Hrow) as (row' & Hrow' & _ & _ & Hsame).
  rewrite (Hsame Hc) in Hrow'. clear Hsame row'. intros H.
  unfold ClaimReceipt in H.
  apply run_tx_cases in H as [[-> (e & [=])]|[(-> & a & io1 & io2 & s2 & [= ->] & H1)|(a & io1 & io2 & [= ->] & H1)]];
    db_inv; receipt_effects; bool_to_prop; simplify_map_eq; split_and!; try done;
    cbn in *; repeat case_decide; congruence.
Qed.

(** once a receipt is complete, whatever the claimants do afterwards, a claim
    of the same payload that succeeds replays the recorded response and a claim
    of another payload is a conflict; neither writes. *)
Theorem complete_receipt_replays l d key row digest expected now lease io r d' :
  db_receipts d !! key = Some row -> r_complete row = true ->
  ClaimReceipt key digest expected now lease io (exec_receipts l d) = (Ok r, d') ->
  d' = exec_receipts l d /\ Claim_Receipt r = scanReceipt key row /\
  Claim_State r = if decide (digest = r_payload_digest row) then ClaimReplay else ClaimConflict.
Proof. apply claim_of_complete. Qed.

Lemma ClaimReceipt_acquired key digest expected now lease io d r d' :
  ClaimReceipt key digest expected now lease io d = (Ok r, d') -> Claim_State r = ClaimAcquired ->
  exists row', db_receipts d' !! key = Some row' /\
  (forall row, db_receipts d !! key = Some row -> r_claim_generation row' = r_claim_generation row + 1) /\
  (int64 (r_claim_generation row') -> Generation (Claim_Receipt r) = r_claim_generation row').
Proof.
  unfold ClaimReceipt.
  intros [[-> (e & [=])]|[(-> & a & io1 & io2 & s2 & [= ->] & H1)|(a & io1 & io2 & [= ->] & H1)]]%run_tx_cases Hst;
    db_inv; receipt_effects; bool_to_prop; try done; rewrite lookup_insert_eq; eexists;
    (split_and!; [done|naive_solver|]); cbn; [done|]. intros. by rewrite add64_id.
Qed.

(** C16: when a second claim acquires the receipt, every claimant that acquired it
    before, however the calls interleave, can no longer renew, complete or
    abandon it: its calls fail and write nothing. *)
Theorem receipt_fenced key dig1 exp1 now1 lease1 io1 dig2 exp2 now2 lease2 io2
    d0 l1 l2 r1 r2 d1 d2 last :
  ClaimReceipt key dig1 exp1 now1 lease1 io1 d0 = (Ok r1, d1) -> Claim_State r1 = ClaimAcquired ->
  ClaimReceipt key dig2 exp2 now2 lease2 io2 (exec_receipts l1 d1) = (Ok r2, d2) ->
  Claim_State r2 = ClaimAcquired ->
  db_receipts (exec_receipts l2 d2) !! key = Some last ->
  int64 (r_claim_generation last) ->
  (forall row, db_receipts d1 !! key = Some row -> 0 <= r_claim_generation row) ->
  let d := exec_receipts l2 d2 in
  let g := Generation (Claim_Receipt r1) in
  forall now io status response,
    (exists e, RenewReceipt key dig1 g now io d = (Err e, d)) /\
  (exists e, CompleteReceipt key dig1 g status response now io d = (Err e, d)) /\
  (exists e, AbandonReceipt key dig1 g now io d = (Err e, d)).
Proof.
  intros H1 A1 H2 A2 Hlast Hmax Hpos d g now io status response.
  destruct (ClaimReceipt_acquired _ _ _ _ _ _ _ _ _ H1 A1) as (row1 & Hr1 & _ & Hg1).
  destruct (exec_receipts_le l1 _ _ _ Hr1) as (row1' & Hr1' & _ & Hle1 & _).
  destruct (ClaimReceipt_acquired _ _ _ _ _ _ _ _ _ H2 A2) as (row2 & Hr2 & Hnext & _).
  destruct (exec_receipts_le l2 _ _ _ Hr2) as (row2' & Hr2' & _ & Hle2 & _). simplify_eq.
  specialize (Hnext _ Hr1'). specialize (Hpos _ Hr1).
  assert (r_claim_generation last <> g).
  { subst g. rewrite Hg1 by (width; lia). lia. }
  split_and!; by eapply run_owned_stale.
Qed.

(** * Witnesses *)

Definition receipt_db : db :=
  (ClaimReceipt "k" "d" "t" 0 60 [] (empty_db true)).2.

Lemma ClaimReceipt_spec_witness :
  exists r d', ClaimReceipt "k" "d" "t2" 100 60 [] receipt_db = (Ok r, d') /\
  acquired "k" "d" "t2" 100 60 receipt_db d' r.
Proof.
  destruct (ClaimReceipt "k" "d" "t2" 100 60 [] receipt_db) as [[r|e] d'] eqn:H; [|discriminate H].
  exists r, d'. split; [done|]. pose proof (ClaimReceipt_spec _ _ _ _ _ _ _ _ _ H) as Hs.
  vm_compute in H. injection H as <- <-. exact Hs.
Defined.

Definition replay_db : db :=
  exec_receipts [(RAbandon "k" "d" 1 9, []); (RClaim "k" "d" "x" 400 60, [])]
    (CompleteReceipt "k" "d" 1 200 "body" 5 [] receipt_db).2.

Lemma complete_receipt_replays_witness :
  exists r, ClaimReceipt "k" "d" "t" 500 60 [] replay_db = (Ok r, replay_db) /\
  ResponseJSON (Claim_Receipt r) = "body"%string.
Proof.
  destruct (ClaimReceipt "k" "d" "t" 500 60 [] replay_db) as [[r|e] d'] eqn:H;
    [|vm_compute in H; discriminate H].
  exists r. eapply complete_receipt_replays in H as (-> & Hr & _);
    [|vm_compute; reflexivity|reflexivity].
  split; [reflexivity|]. rewrite Hr. reflexivity.
Defined.

Lemma receipt_fenced_witness :
  let d1 := receipt_db in
  let d2 := (ClaimReceipt "k" "d" "t" 100 60 [] d1).2 in
  exists e, CompleteReceipt "k" "d" 1 200 "late" 101 [] d2 = (Err e, d2).
Proof.
  cbv zeta.
  destruct (ClaimReceipt "k" "d" "t" 0 60 [] (empty_db true)) as [[r1|] d1] eqn:H1; [|discriminate H1].
  destruct (ClaimReceipt "k" "d" "t" 100 60 [] receipt_db) as [[r2|] d2] eqn:H2; [|discriminate H2].
  assert (d1 = receipt_db) as -> by (unfold receipt_db; by rewrite H1).
  assert (Generation (Claim_Receipt r1) = 1 /\ Claim_State r1 = ClaimAcquired) as [Hg Ha1].
  { vm_compute in H1. injection H1 as <-. done. }
  assert (Claim_State r2 = ClaimAcquired) as Ha2.
  { vm_compute in H2. injection H2 as <- _. done. }
  assert (d2 = (ClaimReceipt "k" "d" "t" 100 60 [] receipt_db).2) as -> by (by rewrite H2).
  assert (Hl : exists last, db_receipts (ClaimReceipt "k" "d" "t" 100 60 [] receipt_db).2 !! "k"%string
            = Some last /\ r_claim_generation last = 2) by (eexists; split; vm_compute; reflexivity).
  destruct Hl as (last & Hl & Hgen).
  assert (Hmax : int64 (r_claim_generation last)) by (rewrite Hgen; width; lia).
  assert (Hpos : forall row, db_receipts receipt_db !! "k"%string = Some row ->
                             0 <= r_claim_generation row).
  { intros row Hrow. vm_compute in Hrow. injection Hrow as <-. cbn. lia. }
  pose proof (receipt_fenced _ _ _ _ _ _ _ _ _ _ _ _ [] [] _ _ _ _ _
    H1 Ha1 H2 Ha2 Hl Hmax Hpos 101 [] 200 "late"%string) as (_ & Hf & _).
  rewrite Hg in Hf. exact Hf.
Defined.
