(* ===== verification/Wallets.v ===== *)
(** Wallets, addresses and the metadata of [internal/storage/sqlite/sqlite.go]:
    registration and backfill progress, address allocation at the next index or
    at a reserved index, the cursor key, and the installation binding with its
    recovery seal. *)
From S2P Require Import Prelude Tx GoString GoTime Domain Database.

(** * Wallets *)

(** The partial UNIQUE index on [(network, ufvk_fingerprint)]. *)
Definition fingerprint_taken (id network : string) (fingerprint : option string) (d : db) : bool :=
  match fingerprint with
  | None => false
  | Some _ =>
      match rows_where (fun i w => negb (String.eqb i id) && String.eqb (w_network w) network
                          && bool_decide (w_ufvk_fingerprint w = fingerprint)) (db_wallets d) with
      | [] => false
      | _ => true
      end
  end.

(** [INSERT INTO wallets .. ON CONFLICT(wallet_id) DO NOTHING]. *)
Definition insert_wallet (id : string) (row : wallet_row) (d : db) : result (unit * db) :=
  match db_wallets d !! id with
  | Some _ => Ok (tt, d)
  | None =>
      if fingerprint_taken id (w_network row) (w_ufvk_fingerprint row) d
      then Err constraint_failed
      else Ok (tt, set_wallets d (<[id := row]> (db_wallets d)))
  end.

(** [UPDATE wallets SET .. WHERE wallet_id=? AND ..], under the UNIQUE index. *)
Definition update_wallet (id : string) (cond : wallet_row -> bool) (f : wallet_row -> wallet_row)
    (d : db) : result (Z * db) :=
  match db_wallets d !! id with
  | Some row =>
      if cond row then
        if negb (bool_decide (w_ufvk_fingerprint (f row) = w_ufvk_fingerprint row))
           && fingerprint_taken id (w_network (f row)) (w_ufvk_fingerprint (f row)) d
        then Err constraint_failed
        else Ok (1, set_wallets d (<[id := f row]> (db_wallets d)))
      else Ok (0, d)
  | None => Ok (0, d)
  end.

Definition bind_fingerprint (fp : string) (w : wallet_row) : wallet_row :=
  {| w_network := w_network w; w_ufvk_fingerprint := Some fp;
     w_birthday_height := w_birthday_height w; w_next_backfill_height := w_next_backfill_height w;
     w_next_address_index := w_next_address_index w; w_created_at := w_created_at w |}.

Definition rewind_birthday (height : Z) (w : wallet_row) : wallet_row :=
  {| w_network := w_network w; w_ufvk_fingerprint := w_ufvk_fingerprint w;
     w_birthday_height := height; w_next_backfill_height := height;
     w_next_address_index := w_next_address_index w; w_created_at := w_created_at w |}.

Definition set_backfill (next : Z) (w : wallet_row) : wallet_row :=
  {| w_network := w_network w; w_ufvk_fingerprint := w_ufvk_fingerprint w;
     w_birthday_height := w_birthday_height w; w_next_backfill_height := next;
     w_next_address_index := w_next_address_index w; w_created_at := w_created_at w |}.

Definition set_next_index (next : Z) (w : wallet_row) : wallet_row :=
  {| w_network := w_network w; w_ufvk_fingerprint := w_ufvk_fingerprint w;
     w_birthday_height := w_birthday_height w; w_next_backfill_height := w_next_backfill_height w;
     w_next_address_index := next; w_created_at := w_created_at w |}.

Definition unbound (w : wallet_row) : bool :=
  String.eqb (default EmptyString (w_ufvk_fingerprint w)) "".

Definition EnsureWallet (walletID network ufvkFingerprint : string) (birthdayHeight : Z)
    (now : time) (io : faults) (d : db) : result unit * db :=
  if negb (lower_hex32_bytes ufvkFingerprint)
  then (Err (New "UFVK fingerprint must be 64 lowercase hex characters"), d)
  else run_tx (wrapf "begin wallet registration") (wrapf "commit wallet registration") (
    _ ← stmt (wrapf "ensure wallet") (insert_wallet walletID
          {| w_network := network; w_ufvk_fingerprint := Some ufvkFingerprint;
             w_birthday_height := birthdayHeight; w_next_backfill_height := birthdayHeight;
             w_next_address_index := 0; w_created_at := now |});
    row ← query (wrapf "verify wallet") (fun d => row_of (db_wallets d) walletID);
    if negb (String.eqb (w_network row) network)
    then fail (New ("wallet " ++ quote walletID ++ " is registered for network "
                    ++ quote (w_network row)))
    else if negb (unbound row)
            && negb (bool_decide (w_ufvk_fingerprint row = Some ufvkFingerprint))
    then fail (New ("wallet " ++ quote walletID ++ " is bound to a different UFVK fingerprint"))
    else if w_birthday_height row <? birthdayHeight
    then fail (New ("wallet " ++ quote walletID ++ " birthday_height cannot increase from "
                    ++ pretty (w_birthday_height row) ++ " to " ++ pretty birthdayHeight))
    else
      _ ← (if unbound row
           then n ← stmt (wrapf "bind wallet UFVK fingerprint")
                      (update_wallet walletID unbound (bind_fingerprint ufvkFingerprint)); mret tt
           else mret tt);
      _ ← (if birthdayHeight <? w_birthday_height row
           then n ← stmt (wrapf "rewind wallet birthday")
                      (update_wallet walletID (fun _ => true) (rewind_birthday birthdayHeight));
                mret tt
           else mret tt);
      mret (Commit tt)) io d.

Definition wallet_of (walletID : string) (w : wallet_row) : Wallet :=
  {| Wallet_WalletID := walletID; Wallet_Network := w_network w;
     Wallet_UFVKFingerprint := default EmptyString (w_ufvk_fingerprint w);
     Wallet_BirthdayHeight := w_birthday_height w;
     Wallet_NextBackfillHeight := w_next_backfill_height w |}.

(** [Store.Wallet]; [None] is the [false] of its second result. *)
Definition lookup_wallet (walletID : string) (io : faults) (d : db) : result (option Wallet) * db :=
  run_auto (query_opt (wrapf "lookup wallet")
    (fun d => w ← row_of (db_wallets d) walletID; Ok (wallet_of walletID w))) io d.

Definition AdvanceBackfill (walletID : string) (expectedFrom next : Z)
    (io : faults) (d : db) : result unit * db :=
  if next <=? expectedFrom then (Err (New "backfill did not advance"), d)
  else run_auto (
    rows ← stmt (wrapf "advance wallet backfill")
      (update_wallet walletID (fun w => w_next_backfill_height w =? expectedFrom)
         (set_backfill next));
    if negb (rows =? 1) then fail (New "wallet backfill progress changed concurrently")
    else mret tt) io d.

Definition SetBackfillProgress (walletID : string) (next : Z)
    (io : faults) (d : db) : result unit * db :=
  run_auto (
    w ← query (wrapf "read wallet birthday") (fun d => row_of (db_wallets d) walletID);
    if next <? w_birthday_height w
    then fail (New "backfill progress precedes wallet birthday")
    else
      n ← stmt (wrapf "mirror wallet backfill progress")
            (update_wallet walletID (fun _ => true) (set_backfill next));
      mret tt) io d.

(** * Addresses *)

(** [INSERT INTO addresses]: its primary key, the UNIQUE address of the wallet
    and the reference to the wallet. *)
Definition address_rows (walletID address : string) (d : db)
    : list (string * Z * address_row) :=
  rows_where (fun k r => String.eqb k.1 walletID && String.eqb (ad_address r) address)
             (db_addresses d).

Definition insert_address (walletID : string) (index : Z) (row : address_row) (d : db)
    : result (unit * db) :=
  if bool_decide (is_Some (db_addresses d !! (walletID, index)))
     || negb (Nat.eqb (length (address_rows walletID (ad_address row) d)) 0)
     || (db_foreign_keys d && bool_decide (db_wallets d !! walletID = None))
  then Err constraint_failed
  else Ok (tt, set_addresses d (<[(walletID, index) := row]> (db_addresses d))).

Definition AllocateAddress (walletID label : string) (derive : option DeriveFunc) (now : time)
    (io : faults) (d : db) : result Address * db :=
  match derive with
  | None => (Err (New "derive callback is required"), d)
  | Some derive =>
      run_tx (wrapf "begin address allocation") (wrapf "commit address allocation") (
        w ← query_opt (wrapf "read address index") (fun d => row_of (db_wallets d) walletID);
        match w with
        | None => fail ErrNoRows
        | Some w =>
            let next := w_next_address_index w in
            if (next <? 0) || (uint32_max <? next) then fail (New "address index exhausted")
            else
              derived ← of_result (derive next);
              let address := TrimSpace derived in
              if String.eqb address "" then fail (New "deriver returned an empty address")
              else
                _ ← stmt (wrapf "insert address") (insert_address walletID next
                      {| ad_address := address; ad_label := label; ad_created_at := now |});
                _ ← stmt (wrapf "advance address index")
                      (update_wallet walletID (fun _ => true) (set_next_index (next + 1)));
                mret (Commit {| Address_WalletID := walletID; Address_Address := address;
                                Address_DiversifierIndex := next; Address_Label := label;
                                Address_CreatedAt := now |})
        end) io d
  end.

(** [CASE WHEN next_address_index < ? THEN ? ELSE next_address_index END]. *)
Definition raise_next_index (next : Z) (w : wallet_row) : wallet_row :=
  set_next_index (if w_next_address_index w <? next then next else w_next_address_index w) w.

Definition AllocateAddressAt (walletID : string) (index : Z) (label : string)
    (derive : option DeriveFunc) (now : time) (io : faults) (d : db) : result Address * db :=
  match derive with
  | None => (Err (New "derive callback is required"), d)
  | Some derive =>
      match derive index with
      | Err e => (Err e, d)
      | Ok derived =>
          let address := TrimSpace derived in
          if String.eqb address "" then (Err (New "deriver returned an empty address"), d)
          else run_tx (wrapf "begin exact address allocation")
                      (wrapf "commit exact address allocation") (
            w ← query_opt (wrapf "verify exact address wallet")
                  (fun d => row_of (db_wallets d) walletID);
            match w with
            | None => fail ErrNoRows
            | Some _ =>
                existing ← query_opt (wrapf "lookup exact address index")
                             (fun d => row_of (db_addresses d) (walletID, index));
                match existing with
                | Some row =>
                    if negb (String.eqb (ad_address row) address)
                    then fail (New ("wallet " ++ quote walletID ++ " index " ++ pretty index
                                    ++ " is already bound to a different address"))
                    else
                      _ ← stmt (wrapf "advance exact address index")
                            (update_wallet walletID (fun _ => true) (raise_next_index (index + 1)));
                      mret (Commit {| Address_WalletID := walletID;
                                      Address_Address := ad_address row;
                                      Address_DiversifierIndex := index;
                                      Address_Label := ad_label row;
                                      Address_CreatedAt := ad_created_at row |})
                | None =>
                    _ ← stmt (wrapf "insert exact address") (insert_address walletID index
                          {| ad_address := address; ad_label := label; ad_created_at := now |});
                    _ ← stmt (wrapf "advance exact address index")
                          (update_wallet walletID (fun _ => true) (raise_next_index (index + 1)));
                    mret (Commit {| Address_WalletID := walletID; Address_Address := address;
                                    Address_DiversifierIndex := index; Address_Label := label;
                                    Address_CreatedAt := now |})
                end
            end) io d
      end
  end.

(** [Store.Address]. *)
Definition lookup_address (walletID address : string) (io : faults) (d : db)
    : result (option Address) * db :=
  run_auto (
    found ← query_opt (wrapf "lookup address") (fun d =>
      match address_rows walletID address d with [] => Err ErrNoRows | kr :: _ => Ok kr end);
    match found with
    | None => mret None
    | Some (k, row) =>
        if (k.2 <? 0) || (uint32_max <? k.2) then fail (New "stored address index is invalid")
        else mret (Some {| Address_WalletID := k.1; Address_Address := ad_address row;
                           Address_DiversifierIndex := k.2; Address_Label := ad_label row;
                           Address_CreatedAt := ad_created_at row |})
    end) io d.

Fixpoint check_indices (l : list Z) : result (list Z) :=
  match l with
  | [] => Ok []
  | i :: l' =>
      if (i <? 0) || (uint32_max <? i) then Err (New "stored address index is invalid")
      else rest ← check_indices l'; Ok (i :: rest)
  end.

Definition AddressIndices (walletID : string) (io : faults) (d : db) : result (list Z) * db :=
  run_auto (
    rows ← query (wrapf "list wallet address indices") (fun d =>
      Ok (merge_sort Z.le (map (fun kr => kr.1.2)
            (rows_where (fun k _ => String.eqb k.1 walletID) (db_addresses d)))));
    of_result (check_indices rows)) io d.

(** * Metadata *)

Definition insert_metadata (key value : string) (d : db) : result (unit * db) :=
  match db_metadata d !! key with
  | Some _ => Err constraint_failed
  | None => Ok (tt, set_metadata d (<[key := value]> (db_metadata d)))
  end.

(** [ON CONFLICT(key) DO NOTHING] and [DO UPDATE SET value=excluded.value]. *)
Definition insert_metadata_or_keep (key value : string) (d : db) : result (unit * db) :=
  match db_metadata d !! key with
  | Some _ => Ok (tt, d)
  | None => Ok (tt, set_metadata d (<[key := value]> (db_metadata d)))
  end.
Definition upsert_metadata (key value : string) (d : db) : result (unit * db) :=
  Ok (tt, set_metadata d (<[key := value]> (db_metadata d))).
Definition delete_metadata (key : string) (d : db) : result (unit * db) :=
  Ok (tt, set_metadata d (delete key (db_metadata d))).

Definition select_metadata (key : string) (d : db) : result string := row_of (db_metadata d) key.

(** [rand.Read] of 32 bytes is the argument [random]. *)
Definition CursorKey (random : result string) (io : faults) (d : db) : result string * db :=
  run_auto (
    stored ← query_opt (wrapf "read cursor key") (select_metadata "cursor_hmac_key");
    match stored with
    | Some key =>
        if negb (len key =? 32) then fail (New "stored cursor key is invalid") else mret key
    | None =>
        key ← of_result (map_err (wrapf "generate cursor key") random);
        _ ← stmt (wrapf "store cursor key") (insert_metadata "cursor_hmac_key" key);
        mret key
    end) io d.

(** The seven counts of the emptiness checks. *)
Definition table_counts (d : db) : list nat :=
  [size (db_wallets d); size (db_addresses d); size (db_receipts d); size (db_attempts d);
   size (db_reservations d); length (db_events d); size (db_metadata d)].

Definition counts_text (prefix suffix : string) (counts : list nat) : string :=
  prefix +:+ String.concat " " (zip_with (fun name n => name +:+ "=" +:+ pretty n)
    ["wallets"; "addresses"; "receipts"; "attempts"; "reservations"; "events"; "metadata"]%string
    counts) +:+ suffix.

Definition all_zero (counts : list nat) : bool := forallb (Nat.eqb 0) counts.

Definition AssertInitializable (io : faults) (d : db) : result unit * db :=
  run_auto (
    counts ← query (wrapf "inspect gateway database before init") (fun d => Ok (table_counts d));
    if negb (all_zero counts)
    then fail (New (counts_text "gateway database is not empty (" "); init refuses existing state"
                      counts))
    else mret tt) io d.

Definition InstallationID (io : faults) (d : db) : result (option string) * db :=
  run_auto (
    stored ← query_opt (wrapf "read gateway installation binding")
               (select_metadata "installation_id");
    match stored with
    | None => mret None
    | Some id =>
        if negb (lower_hex32_bytes id)
        then fail (New "gateway database installation binding is invalid")
        else mret (Some id)
    end) io d.

Definition validateInstallationID (installationID : string) : result unit :=
  if negb (lower_hex32_bytes installationID)
  then Err (New "installation_id must be 64 lowercase hex characters")
  else Ok tt.

Definition BeginInstallationRecovery (installationID : string) (io : faults) (d : db)
    : result unit * db :=
  match validateInstallationID installationID with
  | Err e => (Err e, d)
  | Ok _ =>
      run_tx (wrapf "begin installation recovery marker")
             (wrapf "commit installation recovery marker") (
        existing ← query_opt (wrapf "read installation recovery marker")
                     (select_metadata "recovery_installation_id");
        match existing with
        | Some existing =>
            if negb (String.eqb existing installationID)
            then fail (New ("gateway database recovery belongs to installation " +:+ quote existing))
            else mret (Rollback tt)
        | None =>
            counts ← query (wrapf "inspect gateway database before recovery")
                       (fun d => Ok (table_counts d));
            if negb (all_zero counts)
            then fail (New (counts_text
                   "unbound gateway database is not empty and has no matching recovery marker ("
                   ")" counts))
            else
              _ ← stmt (wrapf "store installation recovery marker")
                    (insert_metadata "recovery_installation_id" installationID);
              mret (Commit tt)
        end) io d
  end.

Definition bindInstallation (installationID : string) (sealCoordinator : bool)
    (io : faults) (d : db) : result unit * db :=
  match validateInstallationID installationID with
  | Err e => (Err e, d)
  | Ok _ =>
      run_tx (wrapf "begin gateway installation binding")
             (wrapf "commit gateway installation binding") (
        existing ← query_opt (wrapf "read gateway installation binding")
                     (select_metadata "installation_id");
        match existing with
        | Some existing =>
            if negb (String.eqb existing installationID)
            then fail (New ("gateway database is already bound to installation "
                            +:+ quote existing))
            else if sealCoordinator then
              _ ← stmt (wrapf "seal already-bound coordinator after gateway recovery")
                    (insert_metadata_or_keep "coordinator_recovery_seal" installationID);
              seal ← query (wrapf "verify already-bound coordinator recovery seal")
                       (select_metadata "coordinator_recovery_seal");
              if negb (String.eqb seal installationID)
              then fail (New "coordinator recovery seal does not match the gateway installation")
              else mret (Commit tt)
            else mret (Rollback tt)
        | None =>
            recoveryID ← query_opt (wrapf "read installation recovery marker")
                           (select_metadata "recovery_installation_id");
            match recoveryID with
            | None => fail (New "gateway database has no installation recovery marker")
            | Some recoveryID =>
                if negb (String.eqb recoveryID installationID)
                then fail (New ("gateway database recovery belongs to installation "
                                +:+ quote recoveryID))
                else
                  _ ← stmt (wrapf "store gateway installation binding")
                        (insert_metadata "installation_id" installationID);
                  _ ← (if sealCoordinator
                       then stmt (wrapf "seal coordinator after gateway recovery")
                              (insert_metadata "coordinator_recovery_seal" installationID)
                       else mret tt);
                  _ ← stmt (wrapf "clear installation recovery marker")
                        (delete_metadata "recovery_installation_id");
                  mret (Commit tt)
            end
        end) io d
  end.

Definition BindInstallation (installationID : string) : faults -> db -> result unit * db :=
  bindInstallation installationID false.
Definition BindRecoveredInstallation (installationID : string) : faults -> db -> result unit * db :=
  bindInstallation installationID true.

Definition CoordinatorRecoverySealed (io : faults) (d : db) : result bool * db :=
  run_auto (
    seal ← query_opt (wrapf "read coordinator recovery seal")
             (select_metadata "coordinator_recovery_seal");
    match seal with
    | None => mret false
    | Some seal =>
        installationID ← query (wrapf "read installation binding for coordinator recovery seal")
                           (select_metadata "installation_id");
        if negb (String.eqb seal installationID)
        then fail (New "coordinator recovery seal does not match the gateway installation")
        else mret true
    end) io d.

Definition UnsealCoordinatorRecovery (installationID reconciliationReference : string) (at_ : time)
    (io : faults) (d : db) : result bool * db :=
  match validateInstallationID installationID with
  | Err e => (Err e, d)
  | Ok _ =>
      run_tx (wrapf "begin coordinator recovery unseal")
             (wrapf "commit coordinator recovery unseal") (
        bound ← query (wrapf "read gateway installation binding")
                  (select_metadata "installation_id");
        if negb (String.eqb bound installationID)
        then fail (New ("gateway database belongs to installation " +:+ quote bound +:+ ", not "
                        +:+ quote installationID))
        else
          seal ← query_opt (wrapf "read coordinator recovery seal")
                   (select_metadata "coordinator_recovery_seal");
          match seal with
          | None =>
              prior ← query_opt (wrapf "read coordinator recovery unseal audit")
                        (select_metadata "coordinator_recovery_reconciliation_reference");
              match prior with
              | None => fail (New "coordinator automation is not sealed by a database recovery")
              | Some prior =>
                  if negb (String.eqb prior reconciliationReference)
                  then fail (New ("coordinator recovery was already unsealed with reconciliation reference "
                                  +:+ quote prior))
                  else mret (Rollback false)
              end
          | Some seal =>
              if negb (String.eqb seal installationID)
              then fail (New "coordinator recovery seal does not match the gateway installation")
              else
                _ ← stmt (wrapf "clear coordinator recovery seal")
                      (delete_metadata "coordinator_recovery_seal");
                _ ← stmt (wrapf "store coordinator recovery unseal audit")
                      (upsert_metadata "coordinator_recovery_reconciliation_reference"
                         reconciliationReference);
                _ ← stmt (wrapf "store coordinator recovery unseal audit")
                      (upsert_metadata "coordinator_recovery_unsealed_at" (FormatRFC3339Nano at_));
                mret (Commit true)
          end) io d
  end.

(** * Registration *)

Lemma insert_wallet_ok id row d u d' :
  insert_wallet id row d = Ok (u, d') ->
  (is_Some (db_wallets d !! id) /\ d' = d) \/
  (db_wallets d !! id = None /\ fingerprint_taken id (w_network row) (w_ufvk_fingerprint row) d = false /\
   d' = set_wallets d (<[id := row]> (db_wallets d))).
Proof. unfold insert_wallet. repeat case_match; naive_solver. Qed.

Lemma update_wallet_ok id cond f d n d' :
  update_wallet id cond f d = Ok (n, d') ->
  (d' = d /\ (db_wallets d !! id = None \/ exists row, db_wallets d !! id = Some row /\ cond row = false)) \/
  (exists row, db_wallets d !! id = Some row /\ cond row = true /\
     (w_ufvk_fingerprint (f row) = w_ufvk_fingerprint row \/
      fingerprint_taken id (w_network (f row)) (w_ufvk_fingerprint (f row)) d = false) /\
     d' = set_wallets d (<[id := f row]> (db_wallets d))).
Proof.
  unfold update_wallet. case_match; [|naive_solver]. case_match; [|naive_solver].
  case_match eqn:Hb; [done|]. intros [= <- <-]. right. eexists. split_and!; try done.
  apply andb_false_iff in Hb as [Hb|Hb]; bool_to_prop; auto.
Qed.

Ltac wallet_effects :=
  repeat match goal with
  | H : insert_wallet _ _ _ = Ok _ |- _ => apply insert_wallet_ok in H as [(? & ?)|(? & ? & ?)]
  | H : update_wallet _ _ _ _ = Ok _ |- _ =>
      apply update_wallet_ok in H as [(? & [?|(? & ? & ?)])|(? & ? & ? & ? & ?)]
  end; simplify_eq/=; simplify_map_eq.

(** What registering a wallet leaves: the row of the wallet, and no other change. *)
Definition registered (id network fp : string) (birthday : Z) (now : time) (d d' : db) : Prop :=
  exists w', d' = set_wallets d (<[id := w']> (db_wallets d)) /\
    w_network w' = network /\ w_ufvk_fingerprint w' = Some fp /\
    match db_wallets d !! id with
    | None => w_birthday_height w' = birthday /\ w_next_backfill_height w' = birthday /\
              w_next_address_index w' = 0
    | Some w => w_network w = network /\
        (default EmptyString (w_ufvk_fingerprint w) = EmptyString \/ w_ufvk_fingerprint w = Some fp) /\
        birthday <= w_birthday_height w /\ w_birthday_height w' = birthday /\
        w_next_address_index w' = w_next_address_index w /\
        w_next_backfill_height w' =
          (if birthday <? w_birthday_height w then birthday else w_next_backfill_height w)
    end.

Lemma set_wallets_id d : set_wallets d (db_wallets d) = d.
Proof. by destruct d. Qed.

Lemma set_wallets_twice d m m' : set_wallets (set_wallets d m) m' = set_wallets d m'.
Proof. done. Qed.

Lemma EnsureWallet_registers id network fp birthday now io d d' :
  EnsureWallet id network fp birthday now io d = (Ok tt, d') ->
  registered id network fp birthday now d d'.
Proof.
  unfold EnsureWallet, registered. case_match; [done|].
  intros [[-> (e & [=])]|[(-> & a & io1 & io2 & s2 & [= ->] & H1)|(a & io1 & io2 & [= ->] & H1)]]%run_tx_cases;
    [db_inv|].
  db_inv; wallet_effects; bool_to_prop; unfold unbound in *; simplify_eq/=; bool_to_prop; try lia;
    eexists; (split; [first [reflexivity|rewrite ?set_wallets_twice, ?insert_insert_eq; reflexivity
       |rewrite insert_id by done; by rewrite set_wallets_id]|]);
    cbn; split_and!; try done; try lia; try tauto; try congruence; repeat case_match; bool_to_prop;
    try lia; try tauto.
Qed.

(** a successful registration binds the wallet to its network and its UFVK
    fingerprint for good, never raises its birthday, rewinds the backfill when
    the birthday goes down, keeps the address counter and touches nothing else. *)
Theorem EnsureWallet_spec id network fp birthday now io d d' :
  EnsureWallet id network fp birthday now io d = (Ok tt, d') ->
  registered id network fp birthday now d d'.
Proof. apply EnsureWallet_registers. Qed.

(** * Addresses: indices are never reused *)

(** Every recorded index is below its wallet's counter, and an address string
    belongs to one index of its wallet. *)
Definition addresses_wf (d : db) : Prop :=
  forall w i r, db_addresses d !! (w, i) = Some r ->
    (0 <= i /\ exists row, db_wallets d !! w = Some row /\ i < w_next_address_index row) /\
    (forall j r', db_addresses d !! (w, j) = Some r' -> ad_address r' = ad_address r -> j = i).

Lemma address_rows_nil w a d :
  length (address_rows w a d) = 0%nat ->
  forall i r, db_addresses d !! (w, i) = Some r -> ad_address r <> a.
Proof.
  intros Hl%nil_length_inv i r Hr <-. eapply not_elem_of_nil.
  rewrite <- Hl. apply elem_of_rows_where. by rewrite Hr, !String.eqb_refl.
Qed.

Lemma insert_address_ok w i row d u d' :
  insert_address w i row d = Ok (u, d') ->
  db_addresses d !! (w, i) = None /\
  (forall j r, db_addresses d !! (w, j) = Some r -> ad_address r <> ad_address row) /\
  d' = set_addresses d (<[(w, i) := row]> (db_addresses d)).
Proof.
  unfold insert_address. case_match eqn:Hc; [done|]. intros [= <- <-]. bool_to_prop.
  match goal with H : Nat.eqb _ _ = true |- _ => apply Nat.eqb_eq in H end.
  split_and!; [by apply eq_None_not_Some|by apply address_rows_nil|done].
Qed.

Lemma addresses_wf_insert d w row i r next :
  addresses_wf d -> db_wallets d !! w = Some row -> 0 <= i < next ->
  w_next_address_index row <= next ->
  (forall j r', db_addresses d !! (w, j) = Some r' -> ad_address r' <> ad_address r) ->
  addresses_wf (set_wallets (set_addresses d (<[(w, i) := r]> (db_addresses d)))
                  (<[w := set_next_index next row]> (db_wallets d))).
Proof.
  intros Hwf Hrow Hi Hnext Hnew w' i' r'. cbn. intros Hl.
  apply lookup_insert_Some in Hl as [[[= <- <-] <-]|[Hne Hl]].
  - split; [split; [lia|]; eexists; rewrite lookup_insert_eq; split; [done|]; cbn; lia|].
    intros j r' [[[= <-] <-]|[Hne Hl]]%lookup_insert_Some Heq; [done|].
    by destruct (Hnew _ _ Hl).
  - destruct (Hwf _ _ _ Hl) as [(? & row' & Hrow' & ?) Huniq]. split.
    + split; [done|]. destruct (decide (w = w')) as [->|].
      * eexists. rewrite lookup_insert_eq. split; [done|]. simplify_eq. cbn. lia.
      * eexists. rewrite lookup_insert_ne by done. eauto.
    + intros j r'' [[[= <- <-] <-]|[Hne' Hl']]%lookup_insert_Some Heq; [|by eapply Huniq].
      by destruct (Hnew _ _ Hl).
Qed.

Lemma addresses_wf_raise d w row next :
  addresses_wf d -> db_wallets d !! w = Some row -> w_next_address_index row <= next ->
  addresses_wf (set_wallets d (<[w := set_next_index next row]> (db_wallets d))).
Proof.
  intros Hwf Hrow Hnext w' i' r'. cbn. intros Hl.
  destruct (Hwf _ _ _ Hl) as [(? & row' & Hrow' & ?) Huniq]. split; [split; [done|]|done].
  destruct (decide (w = w')) as [->|].
  - eexists. rewrite lookup_insert_eq. split; [done|]. simplify_eq. cbn. lia.
  - eexists. rewrite lookup_insert_ne by done. eauto.
Qed.

(** an allocation hands out the wallet's next index, which no recorded
    address has, for an address no other index of the wallet has, and advances
    the counter past it. *)
Theorem AllocateAddress_spec w label derive now io d a d' :
  addresses_wf d ->
  AllocateAddress w label (Some derive) now io d = (Ok a, d') ->
  addresses_wf d' /\
  exists row, db_wallets d !! w = Some row /\
    let i := w_next_address_index row in
    Address_DiversifierIndex a = i /\ 0 <= i <= uint32_max /\
    db_addresses d !! (w, i) = None /\
    (exists s, derive i = Ok s /\ Address_Address a = TrimSpace s /\ TrimSpace s <> EmptyString) /\
    (forall j r, db_addresses d !! (w, j) = Some r -> ad_address r <> Address_Address a) /\
    db_addresses d' = <[(w, i) := {| ad_address := Address_Address a; ad_label := label;
                                     ad_created_at := now |}]> (db_addresses d) /\
    db_wallets d' = <[w := set_next_index (i + 1) row]> (db_wallets d).
Proof.
  intros Hwf. unfold AllocateAddress.
  intros [[-> (e & [=])]|[(-> & ? & io1 & io2 & s2 & [= ->] & H1)|(? & io1 & io2 & [= ->] & H1)]]%run_tx_cases;
    db_inv.
  match goal with H : insert_address _ _ _ _ = _ |- _ => apply insert_address_ok in H as (? & ? & ->) end.
  wallet_effects. bool_to_prop. split.
  - apply addresses_wf_insert; try done; lia.
  - eexists. split; [done|]. cbn. split_and!; eauto.
Qed.

(** an allocation at a reserved index records the derived address there or
    finds it already recorded, refuses an index bound to another address, and
    leaves the counter above the index. *)
Theorem AllocateAddressAt_spec w i label derive now io d a d' :
  addresses_wf d -> uint32 i ->
  AllocateAddressAt w i label (Some derive) now io d = (Ok a, d') ->
  addresses_wf d' /\ Address_DiversifierIndex a = i /\
  (exists s, derive i = Ok s /\ Address_Address a = TrimSpace s /\ TrimSpace s <> EmptyString) /\
  exists row r, db_wallets d !! w = Some row /\
    db_wallets d' = <[w := set_next_index (Z.max (w_next_address_index row) (i + 1)) row]> (db_wallets d) /\
    db_addresses d' !! (w, i) = Some r /\ ad_address r = Address_Address a /\
    db_addresses d' = <[(w, i) := r]> (db_addresses d) /\
    (db_addresses d !! (w, i) = Some r \/
     db_addresses d !! (w, i) = None /\ ad_label r = label).
Proof.
  intros Hwf Hi. unfold AllocateAddressAt. case_match eqn:Hd; [|done]. case_match eqn:Hne; [done|].
  intros [[-> (e & [=])]|[(-> & ? & io1 & io2 & s2 & [= ->] & H1)|(? & io1 & io2 & [= ->] & H1)]]%run_tx_cases;
    db_inv; try match goal with H : insert_address _ _ _ _ = _ |- _ =>
              apply insert_address_ok in H as (? & ? & ->) end;
    wallet_effects; bool_to_prop.
  all: match goal with |- context [raise_next_index ?n ?row] =>
         assert (raise_next_index n row = set_next_index (Z.max (w_next_address_index row) n) row) as ->
           by (unfold raise_next_index; case_match; f_equal; lia) end.
  - split; [apply addresses_wf_raise; [done|done|lia]|]. split; [done|]. split; [by eexists|].
    do 2 eexists. split_and!; [done|done|done|congruence|by rewrite insert_id|by left].
  - split; [apply addresses_wf_insert; width; try done; lia|]. split; [done|]. split; [by eexists|].
    do 2 eexists. split_and!; [done|done|done|done|done|by right].
Qed.

(** * Installation binding and recovery seal *)

Definition bound_to (id : string) (d : db) : Prop :=
  db_metadata d !! "installation_id"%string = Some id.
Definition sealed (id : string) (d : db) : Prop :=
  bound_to id d /\ db_metadata d !! "coordinator_recovery_seal"%string = Some id.

Inductive meta_op : Type :=
  | MCursorKey (random : result string)
  | MBeginRecovery (installationID : string)
  | MBind (installationID : string) (sealCoordinator : bool)
  | MUnseal (installationID reference : string) (at_ : time).

Definition exec_meta (o : meta_op) (io : faults) (d : db) : db :=
  match o with
  | MCursorKey random => (CursorKey random io d).2
  | MBeginRecovery id => (BeginInstallationRecovery id io d).2
  | MBind id seal => (bindInstallation id seal io d).2
  | MUnseal id ref at_ => (UnsealCoordinatorRecovery id ref at_ io d).2
  end.

Fixpoint exec_metas (l : list (meta_op * faults)) (d : db) : db :=
  match l with
  | [] => d
  | (o, io) :: l' => exec_metas l' (exec_meta o io d)
  end.

Definition is_unseal (o : meta_op) : bool := match o with MUnseal _ _ _ => true | _ => false end.

(** What an operation may write to the metadata table. *)
Inductive meta_write (unseal : bool) (d : db) : db -> Prop :=
  | meta_same : meta_write unseal d d
  | meta_add key value :
      db_metadata d !! key = None -> key <> "installation_id"%string ->
      key <> "coordinator_recovery_seal"%string ->
      meta_write unseal d (set_metadata d (<[key := value]> (db_metadata d)))
  | meta_seal id :
      bound_to id d -> db_metadata d !! "coordinator_recovery_seal"%string = None ->
      meta_write unseal d (set_metadata d (<["coordinator_recovery_seal" := id]> (db_metadata d)))
  | meta_bind id (s : bool) :
      db_metadata d !! "installation_id"%string = None ->
      meta_write unseal d (set_metadata d (delete "recovery_installation_id"
        ((if s then <["coordinator_recovery_seal" := id]> else fun m => m)
           (<["installation_id" := id]> (db_metadata d)))))
  | meta_unseal id ref stamp :
      unseal = true -> sealed id d ->
      meta_write unseal d (set_metadata d (<["coordinator_recovery_unsealed_at" := stamp]>
        (<["coordinator_recovery_reconciliation_reference" := ref]>
          (delete "coordinator_recovery_seal" (db_metadata d))))).

Lemma select_metadata_ok key d v :
  select_metadata key d = Ok v <-> db_metadata d !! key = Some v.
Proof. apply row_of_ok. Qed.

Lemma select_metadata_err key d e :
  select_metadata key d = Err e -> db_metadata d !! key = None.
Proof. apply row_of_no_rows. Qed.

Lemma insert_metadata_ok key v d u d' :
  insert_metadata key v d = Ok (u, d') ->
  db_metadata d !! key = None /\ d' = set_metadata d (<[key := v]> (db_metadata d)).
Proof. unfold insert_metadata. case_match; naive_solver. Qed.

Lemma insert_metadata_or_keep_ok key v d u d' :
  insert_metadata_or_keep key v d = Ok (u, d') ->
  (is_Some (db_metadata d !! key) /\ d' = d) \/
  (db_metadata d !! key = None /\ d' = set_metadata d (<[key := v]> (db_metadata d))).
Proof. unfold insert_metadata_or_keep. case_match; naive_solver. Qed.

Ltac meta_inv :=
  db_inv;
  repeat match goal with
  | H : exists e, _ = Err e /\ is_no_rows e = true |- _ => destruct H as (? & H & _)
  | H : select_metadata _ _ = Ok _ |- _ => apply select_metadata_ok in H
  | H : select_metadata _ _ = Err _ |- _ => apply select_metadata_err in H
  | H : insert_metadata _ _ _ = Ok _ |- _ => apply insert_metadata_ok in H as [? ?]
  | H : insert_metadata_or_keep _ _ _ = Ok _ |- _ =>
      apply insert_metadata_or_keep_ok in H as [[? ?]|[? ?]]
  | H : upsert_metadata _ _ _ = Ok _ |- _ => unfold upsert_metadata in H
  | H : delete_metadata _ _ = Ok _ |- _ => unfold delete_metadata in H
  end; simplify_eq/=; bool_to_prop; simplify_eq/=.

Lemma bind_write id s io d r d' :
  bindInstallation id s io d = (r, d') -> meta_write false d d'.
Proof.
  unfold bindInstallation. destruct (validateInstallationID id); [|naive_solver constructor].
  intros [[-> _]|[(-> & _)|(x & io1 & io2 & _ & H1)]]%run_tx_cases; [constructor..|].
  destruct s; meta_inv; try by constructor; try by apply (meta_bind _ _ _ true).
  - by apply (meta_bind false d id true).
  - by apply (meta_bind false d id false).
Qed.

Lemma exec_meta_write o io d : meta_write (is_unseal o) d (exec_meta o io d).
Proof.
  destruct o; cbn.
  - destruct (CursorKey _ _ _) as [r d'] eqn:H. unfold CursorKey in H.
    apply run_auto_cases in H as [[-> _]|(x & io2 & _ & H)]; [constructor|]. cbn.
    meta_inv; try constructor; done.
  - destruct (BeginInstallationRecovery _ _ _) as [r d'] eqn:H.
    unfold BeginInstallationRecovery in H.
    destruct (validateInstallationID _); [|naive_solver constructor].
    apply run_tx_cases in H as [[-> _]|[[-> _]|(x & io1 & io2 & _ & H)]]; [constructor..|].
    cbn. meta_inv. by constructor.
  - destruct (bindInstallation _ _ _ _) as [r d'] eqn:H. by eapply bind_write.
  - destruct (UnsealCoordinatorRecovery _ _ _ _ _) as [r d'] eqn:H.
    unfold UnsealCoordinatorRecovery in H.
    destruct (validateInstallationID _); [|naive_solver constructor].
    apply run_tx_cases in H as [[-> _]|[[-> _]|(x & io1 & io2 & _ & H)]]; [constructor..|].
    cbn. meta_inv. by apply (meta_unseal true d installationID reference (FormatRFC3339Nano at_)).
Qed.

Lemma sealed_step o io d id :
  is_unseal o = false -> sealed id d -> sealed id (exec_meta o io d).
Proof.
  intros Hu [Hb Hs]. pose proof (exec_meta_write o io d) as Hw. rewrite Hu in Hw.
  destruct Hw; unfold sealed, bound_to in *; cbn; try done; try congruence.
  by rewrite !lookup_insert_ne by congruence.
Qed.

(** a database sealed by a recovery stays bound to its installation and
    sealed, whatever sequence of bindings, recoveries and restarts follows,
    until the operator unseals it. *)
Theorem seal_persists l d id :
  sealed id d -> Forall (fun p => is_unseal p.1 = false) l -> sealed id (exec_metas l d).
Proof.
  intros Hs Hl. revert d Hs. induction Hl as [|[o io] l Ho _ IH]; cbn; [done|].
  intros d Hs. by apply IH, sealed_step.
Qed.

Lemma seal_persists_witness :
  let id := "00000000000000000000000000000000000000000000000000000000000000aa"%string in
  let d := (BindRecoveredInstallation id [] (BeginInstallationRecovery id [] (empty_db true)).2).2 in
  sealed id d /\ sealed id (exec_metas [(MBind id false, []); (MCursorKey (Ok "x"), [])] d).
Proof.
  cbv zeta. assert (Hs : sealed "00000000000000000000000000000000000000000000000000000000000000aa"
    (BindRecoveredInstallation "00000000000000000000000000000000000000000000000000000000000000aa" []
      (BeginInstallationRecovery "00000000000000000000000000000000000000000000000000000000000000aa" []
         (empty_db true)).2).2) by (split; vm_compute; reflexivity).
  split; [exact Hs|]. apply seal_persists; [exact Hs|]. repeat constructor.
Defined.

Lemma recovered_binding_sealed id io d d' :
  BindRecoveredInstallation id io d = (Ok tt, d') -> lower_hex32_bytes id = true /\ sealed id d'.
Proof.
  unfold BindRecoveredInstallation, bindInstallation, validateInstallationID.
  destruct (lower_hex32_bytes id); cbn [negb]; [|done].
  intros [[-> (e & [=])]|[(-> & a & io1 & io2 & s2 & [= ->] & H1)|(a & io1 & io2 & [= ->] & H1)]]%run_tx_cases;
    meta_inv; (split; [done|]); unfold sealed, bound_to; cbn; try by simplify_map_eq.
Qed.

(** a recovered binding always leaves the coordinator sealed for its own
    installation, also on a database that was already bound and unsealed. *)
Theorem BindRecoveredInstallation_seals id io d d' :
  BindRecoveredInstallation id io d = (Ok tt, d') -> lower_hex32_bytes id = true /\ sealed id d'.
Proof. apply recovered_binding_sealed. Qed.

Lemma BindRecoveredInstallation_seals_witness :
  let id := "00000000000000000000000000000000000000000000000000000000000000aa"%string in
  let d := (BeginInstallationRecovery id [] (empty_db true)).2 in
  exists d', BindRecoveredInstallation id [] d = (Ok tt, d') /\ sealed id d'.
Proof.
  cbv zeta.
  destruct (BindRecoveredInstallation "00000000000000000000000000000000000000000000000000000000000000aa"
    [] (BeginInstallationRecovery "00000000000000000000000000000000000000000000000000000000000000aa"
          [] (empty_db true)).2) as [[u|e] d'] eqn:H; [|vm_compute in H; discriminate H].
  destruct u. exists d'. split; [reflexivity|].
  exact (proj2 (BindRecoveredInstallation_seals _ _ _ _ H)).
Defined.

(** What an unsealing may find and do. *)
Inductive unsealed_result (id ref : string) (at_ : time) (d d' : db) : bool -> Prop :=
  | unsealed_now :
      sealed id d -> bound_to id d' ->
      db_metadata d' !! "coordinator_recovery_seal"%string = None ->
      db_metadata d' !! "coordinator_recovery_reconciliation_reference"%string = Some ref ->
      db_metadata d' !! "coordinator_recovery_unsealed_at"%string = Some (FormatRFC3339Nano at_) ->
      unsealed_result id ref at_ d d' true
  | unsealed_before :
      bound_to id d -> d' = d ->
      db_metadata d !! "coordinator_recovery_seal"%string = None ->
      db_metadata d !! "coordinator_recovery_reconciliation_reference"%string = Some ref ->
      unsealed_result id ref at_ d d' false.

(** the seal is removed only for its own installation, together with the
    audit of the reconciliation reference and its time; repeating the command
    with the same reference changes nothing. *)
Theorem UnsealCoordinatorRecovery_spec id ref at_ io d b d' :
  UnsealCoordinatorRecovery id ref at_ io d = (Ok b, d') -> unsealed_result id ref at_ d d' b.
Proof.
  unfold UnsealCoordinatorRecovery. destruct (validateInstallationID id); [|done].
  intros [[-> (e & [=])]|[(-> & a' & io1 & io2 & s2 & [= ->] & H1)|(a' & io1 & io2 & [= ->] & H1)]]%run_tx_cases;
    meta_inv.
  - by apply unsealed_before.
  - apply unsealed_now; unfold sealed, bound_to; cbn; first
      [ done | by rewrite lookup_insert_eq | by rewrite lookup_insert_ne, lookup_insert_eq by done
      | by rewrite !lookup_insert_ne, ?lookup_delete_eq, ?lookup_delete_ne by done ].
Qed.

Definition sealed_db : db :=
  let id := "00000000000000000000000000000000000000000000000000000000000000aa"%string in
  (BindRecoveredInstallation id [] (BeginInstallationRecovery id [] (empty_db true)).2).2.

Lemma UnsealCoordinatorRecovery_spec_witness :
  let id := "00000000000000000000000000000000000000000000000000000000000000aa"%string in
  exists d', UnsealCoordinatorRecovery id "ref" unix_epoch [] sealed_db = (Ok true, d') /\
    unsealed_result id "ref" unix_epoch sealed_db d' true.
Proof.
  cbv zeta.
  destruct (UnsealCoordinatorRecovery
    "00000000000000000000000000000000000000000000000000000000000000aa" "ref" unix_epoch [] sealed_db)
    as [[[|]|e] d'] eqn:H; [|vm_compute in H; discriminate H..].
  exists d'. split; [reflexivity|]. exact (UnsealCoordinatorRecovery_spec _ _ _ _ _ _ _ H).
Defined.

(** * Witnesses of the wallet theorems *)

Definition fp_a : string := "0000000000000000000000000000000000000000000000000000000000000001".
Definition wallet_db : db := (EnsureWallet "hot" "regtest" fp_a 100 unix_epoch [] (empty_db true)).2.

Lemma EnsureWallet_spec_witness :
  exists d', EnsureWallet "hot" "regtest" fp_a 90 unix_epoch [] wallet_db = (Ok tt, d') /\
    registered "hot" "regtest" fp_a 90 unix_epoch wallet_db d'.
Proof.
  destruct (EnsureWallet "hot" "regtest" fp_a 90 unix_epoch [] wallet_db) as [[[]|e] d'] eqn:H;
    [|vm_compute in H; discriminate H].
  exists d'. split; [reflexivity|]. exact (EnsureWallet_spec _ _ _ _ _ _ _ _ H).
Defined.

Lemma wallet_db_wf : addresses_wf wallet_db.
Proof. intros w i r H. vm_compute in H. by destruct w as [|[[] [] [] [] [] [] [] []] w], i. Qed.

Definition derive_const : DeriveFunc := fun i => Ok ("j1-" +:+ pretty i)%string.

Lemma AllocateAddress_spec_witness :
  exists a d', AllocateAddress "hot" "" (Some derive_const) 7 [] wallet_db = (Ok a, d') /\
    addresses_wf d' /\ Address_DiversifierIndex a = 0.
Proof.
  destruct (AllocateAddress "hot" "" (Some derive_const) 7 [] wallet_db) as [[a|e] d'] eqn:H;
    [|vm_compute in H; discriminate H].
  exists a, d'. split; [reflexivity|].
  destruct (AllocateAddress_spec _ _ _ _ _ _ _ _ wallet_db_wf H) as (Hwf & _).
  split; [exact Hwf|]. vm_compute in H. injection H as <- _. reflexivity.
Defined.

Lemma AllocateAddressAt_spec_witness :
  exists a d', AllocateAddressAt "hot" 5 "" (Some derive_const) 7 [] wallet_db = (Ok a, d') /\
    addresses_wf d' /\ Address_DiversifierIndex a = 5.
Proof.
  destruct (AllocateAddressAt "hot" 5 "" (Some derive_const) 7 [] wallet_db) as [[a|e] d'] eqn:H;
    [|vm_compute in H; discriminate H].
  exists a, d'. split; [reflexivity|].
  assert (Hu : uint32 5) by (width; lia).
  destruct (AllocateAddressAt_spec _ _ _ _ _ _ _ _ _ wallet_db_wf Hu H) as (Hwf & Hi & _).
  split; [exact Hwf|exact Hi].
Defined.
