(* ===== verification/Journal.v ===== *)
(** The safety of the transaction-attempt journal, as an invariant of every
    sequence of store calls.

    [store_op] is the calls of the store interface that write, each run with any
    driver outcomes; the calls of many requests interleave freely, because the
    store runs one at a time under its mutex and its single connection.
    [issued] is the discipline of the coordinator about two of them, which
    [Service.v] establishes for the coordinator's code. *)
From S2P Require Import Prelude Tx GoString GoTime Domain Database Attempts Receipts Wallets.

(** * Store calls *)

Inductive store_op : Type :=
  | OpEnsureWallet (walletID network fp : string) (birthday : Z) (now : time)
  | OpAdvanceBackfill (walletID : string) (expectedFrom next : Z)
  | OpSetBackfillProgress (walletID : string) (next : Z)
  | OpAllocateAddress (walletID label : string) (derive : option DeriveFunc) (now : time)
  | OpAllocateAddressAt (walletID : string) (index : Z) (label : string)
      (derive : option DeriveFunc) (now : time)
  | OpReceipt (o : receipt_op)
  | OpMeta (o : meta_op)
  | OpClaimAttempt (clock : time) (candidate : TransactionAttempt)
  | OpSetAttemptChangeAddress (attemptID address : string) (now : time)
  | OpReserveAttemptPlan (attemptID network planJSON planDigest feeZat : string)
      (expiryHeight : Z) (noteIDs : list string) (now : time)
  | OpBeginAttemptSigning (attemptID : string) (now : time)
  | OpCompleteAttemptSigning (attemptID txid rawTxHex feeZat : string) (outputIndices : list Z)
      (changeIndex : option Z) (now : time)
  | OpMarkAttemptState (attemptID : string) (state : AttemptState) (code message : string)
      (retryable releaseReservations : bool) (now : time)
  | OpCancelAttempt (attemptID : string) (now : time).

Definition exec (o : store_op) (io : faults) (d : db) : db :=
  match o with
  | OpEnsureWallet w n f b t => (EnsureWallet w n f b t io d).2
  | OpAdvanceBackfill w e n => (AdvanceBackfill w e n io d).2
  | OpSetBackfillProgress w n => (SetBackfillProgress w n io d).2
  | OpAllocateAddress w l f t => (AllocateAddress w l f t io d).2
  | OpAllocateAddressAt w i l f t => (AllocateAddressAt w i l f t io d).2
  | OpReceipt o => exec_receipt o io d
  | OpMeta o => exec_meta o io d
  | OpClaimAttempt t c => (ClaimAttempt t c io d).2
  | OpSetAttemptChangeAddress i a t => (SetAttemptChangeAddress i a t io d).2
  | OpReserveAttemptPlan i n p g f e ns t => (ReserveAttemptPlan i n p g f e ns t io d).2
  | OpBeginAttemptSigning i t => (BeginAttemptSigning i t io d).2
  | OpCompleteAttemptSigning i x r f os c t => (CompleteAttemptSigning i x r f os c t io d).2
  | OpMarkAttemptState i s c m r rel t => (MarkAttemptState i s c m r rel t io d).2
  | OpCancelAttempt i t => (CancelAttempt i t io d).2
  end.

(** The coordinator plans for one network, moves an attempt to [reserved] only
    from [signing] (or leaves it there), and releases the reservations when, and
    only when, it marks an attempt [final], [released] or [failed_unsigned]. *)
Definition ends_reservation (s : AttemptState) : bool :=
  match s with final | released | failed_unsigned => true | _ => false end.

Definition issued (network : string) (o : store_op) (d : db) : Prop :=
  match o with
  | OpReserveAttemptPlan _ n _ _ _ _ _ _ => n = network
  | OpMarkAttemptState i s _ _ _ release _ =>
      (s = reserved -> forall r, db_attempts d !! i = Some r -> a_state r <> planning) /\
      (ends_reservation s = true -> release = true)
  | _ => True
  end.

Inductive step (network : string) : db -> db -> Prop :=
  | step_op o io d : issued network o d -> step network d (exec o io d).

Inductive steps (network : string) : db -> db -> Prop :=
  | steps_refl d : steps network d d
  | steps_step d1 d2 d3 : step network d1 d2 -> steps network d2 d3 -> steps network d1 d3.

Definition reachable (network : string) (d : db) : Prop :=
  exists fk, steps network (empty_db fk) d.

(** * The other tables' operations leave the journal alone *)

Definition same_journal (d d' : db) : Prop :=
  db_attempts d' = db_attempts d /\ db_reservations d' = db_reservations d /\
  db_events d' = db_events d.

#[export] Instance same_journal_refl : Reflexive same_journal.
Proof. done. Qed.

Lemma receipt_write_journal k d d' : receipt_write k d d' -> same_journal d d'.
Proof. by destruct 1. Qed.

Lemma meta_write_journal u d d' : meta_write u d d' -> same_journal d d'.
Proof. by destruct 1. Qed.

Lemma EnsureWallet_journal w n f b t io d : same_journal d (EnsureWallet w n f b t io d).2.
Proof.
  destruct (EnsureWallet w n f b t io d) as [r d'] eqn:H. cbn. unfold EnsureWallet in H.
  case_match; [naive_solver|].
  apply run_tx_cases in H as [[-> _]|[[-> _]|(x & io1 & io2 & _ & H)]]; [done..|].
  db_inv; wallet_effects; done.
Qed.

Lemma AdvanceBackfill_journal w e n io d : same_journal d (AdvanceBackfill w e n io d).2.
Proof.
  destruct (AdvanceBackfill w e n io d) as [r d'] eqn:H. cbn. unfold AdvanceBackfill in H.
  case_match; [naive_solver|].
  apply run_auto_cases in H as [[-> _]|(x & io2 & _ & H)]; [done|].
  db_inv; wallet_effects; done.
Qed.

Lemma SetBackfillProgress_journal w n io d : same_journal d (SetBackfillProgress w n io d).2.
Proof.
  destruct (SetBackfillProgress w n io d) as [r d'] eqn:H. cbn. unfold SetBackfillProgress in H.
  apply run_auto_cases in H as [[-> _]|(x & io2 & _ & H)]; [done|].
  db_inv; wallet_effects; done.
Qed.

Ltac address_effects :=
  repeat match goal with
  | H : insert_address _ _ _ _ = _ |- _ => apply insert_address_ok in H as (? & ? & ?)
  end; wallet_effects.

Lemma AllocateAddress_journal w l f t io d : same_journal d (AllocateAddress w l f t io d).2.
Proof.
  destruct (AllocateAddress w l f t io d) as [r d'] eqn:H. cbn. unfold AllocateAddress in H.
  destruct f; [|naive_solver].
  apply run_tx_cases in H as [[-> _]|[[-> _]|(x & io1 & io2 & _ & H)]]; [done..|].
  db_inv; address_effects; done.
Qed.

Lemma AllocateAddressAt_journal w i l f t io d : same_journal d (AllocateAddressAt w i l f t io d).2.
Proof.
  destruct (AllocateAddressAt w i l f t io d) as [r d'] eqn:H. cbn. unfold AllocateAddressAt in H.
  destruct f as [f|]; [|naive_solver]. destruct (f i); [|naive_solver].
  case_match; [naive_solver|].
  apply run_tx_cases in H as [[-> _]|[[-> _]|(x & io1 & io2 & _ & H)]]; [done..|].
  db_inv; address_effects; done.
Qed.

(** The state changes the coordinator asks for. *)
Definition mark_ok (d : db) (id : string) (s : AttemptState) (release : bool) : Prop :=
  (s = reserved -> forall r, db_attempts d !! id = Some r -> a_state r <> planning) /\
  (ends_reservation s = true -> release = true).

(** A store call makes one [attempt_write], or leaves the journal alone. *)
Lemma exec_write network o io d :
  issued network o d ->
  same_journal d (exec o io d) \/ attempt_write (eq network) (mark_ok d) d (exec o io d).
Proof.
  intros Hiss. destruct o; cbn;
    try match goal with |- _ \/ attempt_write _ _ _ ?x.2 => destruct x as [r d'] eqn:H; cbn end.
  1-5: left; match type of H with ?t = _ => change d' with (r, d').2; rewrite <- H end.
  - apply EnsureWallet_journal.
  - apply AdvanceBackfill_journal.
  - apply SetBackfillProgress_journal.
  - apply AllocateAddress_journal.
  - apply AllocateAddressAt_journal.
  - left. eapply receipt_write_journal, exec_receipt_write.
  - left. eapply meta_write_journal, exec_meta_write.
  - right. by eapply ClaimAttempt_write.
  - right. by eapply SetAttemptChangeAddress_write.
  - right. by eapply ReserveAttemptPlan_write; [symmetry; exact Hiss|].
  - right. by eapply BeginAttemptSigning_write.
  - right. by eapply CompleteAttemptSigning_write.
  - right. by eapply MarkAttemptState_write; [exact Hiss|].
  - right. by eapply CancelAttempt_write.
Qed.

(** * The reservation invariant *)

(** The states in which an attempt holds its notes. *)
Definition holding (s : AttemptState) : bool :=
  match s with
  | reserved | signing | signing_unknown | signed | broadcast | mined | orphaned
  | expired_pending_reconciliation => true
  | _ => false
  end.

Definition selected (r : attempt_row) : list string := default [] (a_selected_note_ids r).

(** The attempt that holds a note. *)
Definition holder (d : db) (k : string * string * string) : option string :=
  rv_attempt_id <$> db_reservations d !! k.

(** The attempt selected the note and is in a holding state. *)
Definition claims_note (d : db) (id w n : string) : Prop :=
  exists r, db_attempts d !! id = Some r /\ holding (a_state r) = true /\ a_wallet_id r = w /\
            n ∈ selected r.

(** The reservation table is exactly the notes of the holding attempts. *)
Definition reservations_exact (network : string) (d : db) : Prop :=
  forall nw w n id, holder d (nw, w, n) = Some id <-> nw = network /\ claims_note d id w n.

Definition plans_wf (d : db) : Prop :=
  forall id r, db_attempts d !! id = Some r -> holding (a_state r) = true ->
    selected r <> [] /\ NoDup (selected r).

Lemma holder_drop d id k a :
  holder (drop_reservations d id) k = Some a <-> holder d k = Some a /\ a <> id.
Proof.
  unfold holder, drop_reservations. cbn. rewrite !fmap_Some. split.
  - intros (v & [Hl Hv]%map_lookup_filter_Some & ->). naive_solver.
  - intros [(v & Hl & ->) Hne]. exists v. by rewrite map_lookup_filter_Some.
Qed.

Lemma add_reservations_lookup nw w id g t ns m k :
  rv_attempt_id <$> add_reservations nw w id g t ns m !! k =
  if decide (k.1 = (nw, w) /\ k.2 ∈ ns) then Some id else rv_attempt_id <$> m !! k.
Proof.
  unfold add_reservations. revert m. induction ns as [|n ns IH]; intros m; cbn [foldl].
  { case_decide; set_solver. }
  rewrite IH. destruct k as [kw kn]; cbn. destruct (decide ((kw, kn) = (nw, w, n))) as [[= -> ->]|Hne].
  - rewrite lookup_insert_eq. repeat case_decide; set_solver.
  - rewrite lookup_insert_ne by done. repeat case_decide; set_solver.
Qed.

Lemma claims_note_put d id r' i w n :
  claims_note (put_attempt d id r') i w n <->
  if decide (i = id) then holding (a_state r') = true /\ a_wallet_id r' = w /\ n ∈ selected r'
  else claims_note d i w n.
Proof.
  unfold claims_note, put_attempt. cbn. case_decide as Hd.
  - subst. rewrite lookup_insert_eq. naive_solver.
  - by rewrite lookup_insert_ne by done.
Qed.

Lemma claims_note_row d id r w n :
  db_attempts d !! id = Some r ->
  claims_note d id w n <-> holding (a_state r) = true /\ a_wallet_id r = w /\ n ∈ selected r.
Proof. unfold claims_note. naive_solver. Qed.

Lemma reservations_put network d id r r' :
  db_attempts d !! id = Some r -> a_wallet_id r' = a_wallet_id r ->
  (forall n, holding (a_state r') = true /\ n ∈ selected r' <->
             holding (a_state r) = true /\ n ∈ selected r) ->
  reservations_exact network d -> reservations_exact network (put_attempt d id r').
Proof.
  intros Hr Hw Hn Hex nw w n i. rewrite claims_note_put. fold (holder d (nw, w, n)).
  change (holder (put_attempt d id r') (nw, w, n)) with (holder d (nw, w, n)). rewrite (Hex nw w n i).
  case_decide as Hd; [|done]. subst. rewrite (claims_note_row _ _ _ _ _ Hr), Hw. naive_solver.
Qed.

Lemma reservations_drop network d id r r' :
  db_attempts d !! id = Some r -> holding (a_state r') = false ->
  reservations_exact network d ->
  reservations_exact network (put_attempt (drop_reservations d id) id r').
Proof.
  intros Hr Hh Hex nw w n i. rewrite claims_note_put.
  change (holder (put_attempt (drop_reservations d id) id r') (nw, w, n))
    with (holder (drop_reservations d id) (nw, w, n)).
  rewrite holder_drop, (Hex nw w n i). case_decide; [naive_solver congruence|].
  change (claims_note (drop_reservations d id) i w n) with (claims_note d i w n). naive_solver.
Qed.

Lemma reservations_reserve network d id r r' g t ns :
  db_attempts d !! id = Some r -> holding (a_state r) = false ->
  holding (a_state r') = true -> a_wallet_id r' = a_wallet_id r -> selected r' = ns ->
  (forall n, n ∈ ns -> db_reservations d !! (network, a_wallet_id r, n) = None) ->
  reservations_exact network d ->
  reservations_exact network (put_attempt (set_reservations d
    (add_reservations network (a_wallet_id r) id g t ns (db_reservations d))) id r').
Proof.
  intros Hr Hnh Hh Hw Hns Hfree Hex nw w n i. rewrite claims_note_put.
  unfold holder at 1. cbn [put_attempt set_attempts set_reservations db_reservations].
  rewrite add_reservations_lookup. cbn. fold (holder d (nw, w, n)).
  change (claims_note (set_reservations d _) i w n) with (claims_note d i w n).
  rewrite Hh, Hw, Hns. case_decide as Hk.
  - destruct Hk as [[= -> ->] Hin]. split; [intros [= <-]; by rewrite decide_True|].
    intros [_ Hc]. case_decide as Hd; [by subst|].
    assert (holder d (network, a_wallet_id r, n) = Some i) as Hho by (by apply Hex).
    unfold holder in Hho. by rewrite Hfree in Hho.
  - rewrite (Hex nw w n i). case_decide as Hd; [|done]. subst i.
    rewrite (claims_note_row _ _ _ _ _ Hr). split; [naive_solver congruence|].
    intros (-> & _ & <- & ?). by destruct Hk.
Qed.

Lemma allowed_holding s s' :
  allowedAttemptTransition s s' = true -> ends_reservation s' = false -> s' <> reserved \/ s <> planning ->
  holding s' = holding s.
Proof.
  unfold allowedAttemptTransition. case_decide; [by subst|].
  destruct s, s'; cbn; try done; naive_solver.
Qed.

Lemma safe_release_ends s s' :
  safeReservationReleaseTransition s s' = true -> holding s' = false.
Proof. by destruct s'. Qed.

Lemma reservations_same network d d' :
  same_journal d d' -> reservations_exact network d -> reservations_exact network d'.
Proof.
  intros (Ha & Hr & _) Hex nw w n i. unfold holder, claims_note. rewrite Ha, Hr. apply Hex.
Qed.

(** The log is no part of the reservation invariant. *)
Lemma reservations_log network d id s dt t :
  reservations_exact network (log_event d id s dt t) <-> reservations_exact network d.
Proof. done. Qed.

Lemma mark_holding d id s row :
  mark_ok d id s false -> db_attempts d !! id = Some row ->
  allowedAttemptTransition (a_state row) s = true -> holding s = holding (a_state row).
Proof.
  intros [Hm1 Hm2] Hr Hal. apply (allowed_holding _ _ Hal).
  - destruct (ends_reservation s); [by specialize (Hm2 eq_refl)|done].
  - destruct (decide (s = reserved)); [right; by eapply Hm1|by left].
Qed.

Lemma reservations_write network d d' :
  attempt_write (eq network) (mark_ok d) d d' ->
  reservations_exact network d -> reservations_exact network d'.
Proof.
  intros Hw Hex. destruct Hw as
    [ | id row now Hnone _ Hst Hsel | id row a now Hr Hst _
    | id row nw p g f e ns now Hr Hst _ _ <- Hfree | id row now Hr Hst
    | id row x raw f os c now Hr Hst | id row now Hr
    | id row s c m rt dt now Hr Hal Hm | id row s c m rt dt now Hr Hal Hsafe _
    | id row now Hr Hst ]; rewrite ?reservations_log.
  - done.
  - intros nw w n i. rewrite claims_note_put. rewrite (Hex nw w n i : holder (put_attempt _ _ _) _ = _ <-> _).
    case_decide; [|done]. subst. rewrite Hst. split; [|naive_solver].
    intros (_ & r & Hr & _). congruence.
  - eapply reservations_put; [done..| |done]. cbn. by rewrite Hst.
  - eapply reservations_reserve; try done; by rewrite ?Hst.
  - eapply reservations_put; [done..| |done]. cbn. by rewrite Hst.
  - eapply reservations_put; [done..| |done]. cbn. by destruct Hst as [-> | ->].
  - by eapply reservations_put.
  - eapply reservations_put; [done..| |done]. cbn.
    by rewrite (mark_holding _ _ _ _ Hm Hr Hal).
  - eapply reservations_drop; [done| |done]. by eapply safe_release_ends.
  - by eapply reservations_drop.
Qed.

Lemma plans_put d id r' :
  (holding (a_state r') = true -> selected r' <> [] /\ NoDup (selected r')) ->
  plans_wf d -> plans_wf (put_attempt d id r').
Proof.
  intros Hok Hwf i r. cbn. intros [[<- <-]|[? ?]]%lookup_insert_Some; [done|by eapply Hwf].
Qed.

Lemma plans_write network d d' :
  attempt_write (eq network) (mark_ok d) d d' -> plans_wf d -> plans_wf d'.
Proof.
  intros Hw Hwf. destruct Hw as
    [ | id row now Hnone _ Hst Hsel | id row a now Hr Hst _
    | id row nw p g f e ns now Hr Hst ? ? <- Hfree | id row now Hr Hst
    | id row x raw f os c now Hr Hst | id row now Hr
    | id row s c m rt dt now Hr Hal Hm | id row s c m rt dt now Hr Hal Hsafe _
    | id row now Hr Hst ];
    try (change (plans_wf (log_event ?d _ _ _ _)) with (plans_wf d)); try apply plans_put; try done;
    cbn; try (intros Hh; apply (Hwf _ _ Hr)).
  - by rewrite Hst.
  - done.
  - by rewrite Hst.
  - by destruct Hst as [-> | ->].
  - done.
  - by rewrite <- (mark_holding _ _ _ _ Hm Hr Hal).
  - by rewrite (safe_release_ends _ _ Hsafe) in Hh.
Qed.

(** The invariant of the journal. *)
Record journal_wf (network : string) (d : db) : Prop := {
  wf_reservations : reservations_exact network d;
  wf_plans : plans_wf d
}.

Lemma plans_same d d' : same_journal d d' -> plans_wf d -> plans_wf d'.
Proof. intros (Ha & _) Hwf id r. rewrite Ha. apply Hwf. Qed.

Lemma step_journal_wf network d d' : step network d d' -> journal_wf network d -> journal_wf network d'.
Proof.
  intros [o io d0 Hiss] [Hr Hp]. destruct (exec_write _ _ io _ Hiss) as [Hs|Hw].
  - split; [by eapply reservations_same|by eapply plans_same].
  - split; [by eapply reservations_write|by eapply plans_write].
Qed.

Lemma empty_journal_wf network fk : journal_wf network (empty_db fk).
Proof.
  split; [|done]. intros nw w n i. unfold holder, claims_note. cbn.
  split; [done|]. by intros [_ (r & Hr & _)].
Qed.

Lemma steps_journal_wf network d d' :
  steps network d d' -> journal_wf network d -> journal_wf network d'.
Proof. induction 1; [done|]. eauto using step_journal_wf. Qed.

Lemma reachable_journal_wf network d : reachable network d -> journal_wf network d.
Proof. intros [fk H]. eapply steps_journal_wf; [done|apply empty_journal_wf]. Qed.
#[export] Hint Resolve reachable_journal_wf : core.

(** C1: whatever calls interleave and whichever of them fail, no two attempts that
    may still spend share a note of one wallet: the journal never lets the same
    note be planned twice. *)
Theorem no_note_planned_twice network d a b ra rb n :
  reachable network d ->
  db_attempts d !! a = Some ra -> db_attempts d !! b = Some rb ->
  holding (a_state ra) = true -> holding (a_state rb) = true ->
  a_wallet_id ra = a_wallet_id rb -> n ∈ selected ra -> n ∈ selected rb -> a = b.
Proof.
  intros [Hex _]%reachable_journal_wf Ha Hb Hha Hhb Hw Hna Hnb.
  assert (holder d (network, a_wallet_id ra, n) = Some a) as H1 by (apply Hex; split; [done|by exists ra]).
  assert (holder d (network, a_wallet_id ra, n) = Some b) as H2 by (apply Hex; split; [done|by exists rb]).
  congruence.
Qed.

(** C13: the active reservations are at every moment exactly the selected notes of
    the attempts in a holding state: none leaks and none is dropped early. *)
Theorem reservations_are_exact network d nw w n id :
  reachable network d ->
  holder d (nw, w, n) = Some id <-> nw = network /\ claims_note d id w n.
Proof. intros [Hex _]%reachable_journal_wf. apply Hex. Qed.

(** * The audit trail *)

(** The states the event log records for an attempt, oldest first. *)
Definition trail (id : string) (l : list event_row) : list AttemptState :=
  map ev_state (filter (fun e => ev_attempt_id e = id) l).
Arguments trail : simpl never.

(** The moves of the state machine: the transition table and cancellation. *)
Definition edge (s s' : AttemptState) : Prop :=
  allowedAttemptTransition s s' = true \/ (s' = cancelled /\ (s = planning \/ s = reserved)).

Inductive legal_trail : list AttemptState -> AttemptState -> Prop :=
  | trail_start : legal_trail [planning] planning
  | trail_step l s s' : legal_trail l s -> edge s s' -> legal_trail (l ++ [s']) s'.

Definition trails_wf (d : db) : Prop :=
  forall id, match db_attempts d !! id with
             | Some r => legal_trail (trail id (db_events d)) (a_state r)
             | None => trail id (db_events d) = []
             end.

Lemma trail_log d id s dt t i :
  trail i (db_events (log_event d id s dt t)) =
  trail i (db_events d) ++ (if decide (i = id) then [s] else []).
Proof.
  unfold trail, log_event. cbn. rewrite filter_app, map_app. f_equal.
  rewrite filter_cons, filter_nil. cbn. repeat case_decide; naive_solver.
Qed.

Lemma trails_move d id r r' dt t :
  db_attempts d !! id = Some r -> edge (a_state r) (a_state r') -> trails_wf d ->
  trails_wf (log_event (put_attempt d id r') id (a_state r') dt t).
Proof.
  intros Hr He Hwf i. rewrite trail_log. cbn. specialize (Hwf i). case_decide as Hd.
  - subst. rewrite lookup_insert_eq, Hr in *. by eapply trail_step.
  - rewrite lookup_insert_ne by done. by rewrite app_nil_r.
Qed.

Lemma trails_put d id r r' :
  db_attempts d !! id = Some r -> a_state r' = a_state r -> trails_wf d ->
  trails_wf (put_attempt d id r').
Proof.
  intros Hr He Hwf i. cbn. specialize (Hwf i). destruct (decide (i = id)) as [->|].
  - rewrite lookup_insert_eq, Hr, He in *. done.
  - by rewrite lookup_insert_ne by done.
Qed.

Lemma trails_write nets marks d d' : attempt_write nets marks d d' -> trails_wf d -> trails_wf d'.
Proof.
  intros Hw Hwf. destruct Hw as
    [ | id row now Hnone _ Hst Hsel | id row a now Hr Hst _
    | id row nw p g f e ns now Hr Hst ? ? _ Hfree | id row now Hr Hst
    | id row x raw f os c now Hr Hst | id row now Hr
    | id row s c m rt dt now Hr Hal _ | id row s c m rt dt now Hr Hal Hsafe _
    | id row now Hr Hst ].
  - done.
  - intros i. rewrite trail_log. cbn. specialize (Hwf i). case_decide as Hd.
    + subst. rewrite lookup_insert_eq, Hnone in *. rewrite Hwf, Hst. constructor.
    + rewrite lookup_insert_ne by done. by rewrite app_nil_r.
  - by eapply trails_put.
  - eapply (trails_move (set_reservations d _) id row (set_plan p g f e ns now row));
      [done|by left; rewrite Hst|done].
  - eapply (trails_move d id row (set_state signing None None false now row));
      [done|by left; cbn; rewrite Hst|done].
  - eapply (trails_move d id row (set_signed x raw f os c now row)); [done| |done].
    left. by destruct Hst as [-> | ->].
  - by eapply trails_put.
  - by eapply (trails_move d id row (set_state s c m rt now row)); [|left|].
  - by eapply (trails_move (drop_reservations d id) id row (set_state s c m rt now row)); [|left|].
  - by eapply (trails_move (drop_reservations d id) id row (set_state cancelled None None false now row));
      [|right|].
Qed.

Lemma step_trails network d d' : step network d d' -> trails_wf d -> trails_wf d'.
Proof.
  intros [o io d0 Hiss] Hwf. destruct (exec_write _ _ io _ Hiss) as [(Ha & _ & He)|Hw].
  - intros id. rewrite Ha, He. apply Hwf.
  - by eapply trails_write.
Qed.

(** the event log of every attempt is a legal path of the state machine that
    starts in [planning] and ends in the state the attempt is in. *)
Theorem audit_trail_legal network d id r :
  reachable network d -> db_attempts d !! id = Some r ->
  legal_trail (trail id (db_events d)) (a_state r).
Proof.
  intros [fk Hs] Hr.
  assert (trails_wf (empty_db fk) -> trails_wf d) as Hwf.
  { clear Hr. induction Hs; [done|]. eauto using step_trails. }
  assert (trails_wf (empty_db fk)) as H0 by (intros i; done).
  specialize (Hwf H0 id). by rewrite Hr in Hwf.
Qed.

(** * What never changes *)

Definition signed_stage (s : AttemptState) : bool :=
  match s with
  | signed | broadcast | mined | orphaned | expired_pending_reconciliation | final | released => true
  | _ => false
  end.

Definition same_identity (r r' : attempt_row) : Prop :=
  a_scoped_idempotency_key r' = a_scoped_idempotency_key r /\
  a_request_digest r' = a_request_digest r /\ a_principal_name r' = a_principal_name r /\
  a_wallet_id r' = a_wallet_id r /\ a_approval_reference r' = a_approval_reference r /\
  a_request_json r' = a_request_json r /\ a_created_at r' = a_created_at r.

Definition same_plan (r r' : attempt_row) : Prop :=
  a_plan_json r' = a_plan_json r /\ a_plan_digest r' = a_plan_digest r /\
  a_expiry_height r' = a_expiry_height r /\ a_selected_note_ids r' = a_selected_note_ids r.

Definition same_transaction (r r' : attempt_row) : Prop :=
  a_txid r' = a_txid r /\ a_raw_tx_hex r' = a_raw_tx_hex r /\ a_fee_zat r' = a_fee_zat r /\
  a_output_action_indices r' = a_output_action_indices r /\
  a_change_action_index r' = a_change_action_index r.

(** What a later row of the same attempt keeps of an earlier one. *)
Record kept (r r' : attempt_row) : Prop := {
  kept_identity : same_identity r r';
  kept_change : forall a, a_change_address r = Some a -> a_change_address r' = Some a;
  kept_plan : a_state r <> planning -> a_state r' <> planning /\ same_plan r r';
  kept_signed : signed_stage (a_state r) = true ->
                signed_stage (a_state r') = true /\ same_transaction r r';
  kept_terminal : terminalAttemptState (a_state r) = true -> a_state r' = a_state r
}.

Lemma kept_refl r : kept r r.
Proof. by split. Qed.

Lemma kept_trans r1 r2 r3 : kept r1 r2 -> kept r2 r3 -> kept r1 r3.
Proof.
  intros [I1 C1 P1 S1 T1] [I2 C2 P2 S2 T2]. split.
  - unfold same_identity in *. naive_solver congruence.
  - auto.
  - intros [Hp Hq]%P1. destruct (P2 Hp) as [? Hq']. split; [done|].
    unfold same_plan in *. naive_solver congruence.
  - intros [Hp Hq]%S1. destruct (S2 Hp) as [? Hq']. split; [done|].
    unfold same_transaction in *. naive_solver congruence.
  - intros Ht. specialize (T1 Ht). rewrite T2; [done|]. by rewrite T1.
Qed.

Lemma kept_state r s c m rt t :
  allowedAttemptTransition (a_state r) s = true -> kept r (set_state s c m rt t r).
Proof.
  unfold allowedAttemptTransition. intros Hal.
  split; cbn; try done; intros Hs; try split; try done; case_decide; simplify_eq/=; try done;
    destruct (a_state r), s; naive_solver.
Qed.

Lemma kept_write nets marks d d' id r :
  attempt_write nets marks d d' -> db_attempts d !! id = Some r ->
  exists r', db_attempts d' !! id = Some r' /\ kept r r'.
Proof.
  intros Hw Hl.
  assert (Hput : forall i row row', db_attempts d !! i = Some row -> kept row row' ->
    exists r', <[i := row']> (db_attempts d) !! id = Some r' /\ kept r r').
  { intros i row row' Hr Hk. destruct (decide (i = id)) as [->|].
    - rewrite lookup_insert_eq. simplify_eq. eauto.
    - rewrite lookup_insert_ne by done. eauto using kept_refl. }
  destruct Hw as
    [ | i row now Hnone _ Hst Hsel | i row a now Hr Hst Hca
    | i row nw p g f e ns now Hr Hst ? ? _ Hfree | i row now Hr Hst
    | i row x raw f os c now Hr Hst | i row now Hr
    | i row s c m rt dt now Hr Hal _ | i row s c m rt dt now Hr Hal Hsafe _
    | i row now Hr Hst ]; cbn.
  - eauto using kept_refl.
  - rewrite lookup_insert_ne by congruence. eauto using kept_refl.
  - apply (Hput _ _ _ Hr). split; cbn; try done; rewrite ?Hst, ?Hca; done.
  - apply (Hput _ _ _ Hr). split; cbn; try done; rewrite ?Hst; done.
  - apply (Hput _ _ _ Hr). apply kept_state. by rewrite Hst.
  - apply (Hput _ _ _ Hr). split; cbn; try done; destruct Hst as [-> | ->]; done.
  - apply (Hput _ _ _ Hr). by split.
  - by apply (Hput _ _ _ Hr), kept_state.
  - by apply (Hput _ _ _ Hr), kept_state.
  - apply (Hput _ _ _ Hr). split; cbn; try done; destruct Hst as [-> | ->]; done.
Qed.

Lemma steps_kept network d d' id r :
  steps network d d' -> db_attempts d !! id = Some r ->
  exists r', db_attempts d' !! id = Some r' /\ kept r r'.
Proof.
  intros Hs. revert r. induction Hs as [d|d1 d2 d3 Hst Hs IH]; intros r Hr.
  { eauto using kept_refl. }
  destruct Hst as [o io d1 Hiss].
  assert (exists r2, db_attempts (exec o io d1) !! id = Some r2 /\ kept r r2) as (r2 & H2 & Hk).
  { destruct (exec_write _ _ io _ Hiss) as [(Ha & _)|Hw].
    - rewrite Ha. eauto using kept_refl.
    - by eapply kept_write. }
  destruct (IH _ H2) as (r3 & ? & ?). eauto using kept_trans.
Qed.

(** C17: an attempt is never removed, and over any sequence of calls it keeps its
    request, its change address once chosen, its plan once reserved, its signed
    transaction once signed, and its state once terminal. *)
Theorem attempts_append_only network d d' id r :
  steps network d d' -> db_attempts d !! id = Some r ->
  exists r', db_attempts d' !! id = Some r' /\ kept r r'.
Proof. apply steps_kept. Qed.

(** * Claims are idempotent *)

Definition keys_unique (d : db) : Prop :=
  forall a b ra rb, db_attempts d !! a = Some ra -> db_attempts d !! b = Some rb ->
    a_scoped_idempotency_key ra = a_scoped_idempotency_key rb -> a = b.

Lemma keys_put d id r r' :
  db_attempts d !! id = Some r -> a_scoped_idempotency_key r' = a_scoped_idempotency_key r ->
  keys_unique d -> keys_unique (put_attempt d id r').
Proof.
  intros Hr Hk Hu a b ra rb. cbn.
  intros [[? ?]|[? ?]]%lookup_insert_Some [[? ?]|[? ?]]%lookup_insert_Some ?; subst; try done;
    (eapply Hu; [done..|congruence]) || (symmetry; eapply Hu; [done..|congruence]).
Qed.

Lemma keys_write nets marks d d' : attempt_write nets marks d d' -> keys_unique d -> keys_unique d'.
Proof.
  intros Hw Hu. destruct Hw as [ | id row now Hnone Hnew _ _ | | | | | | | | ];
    try done; try by eapply keys_put.
  intros a b ra rb. cbn.
  intros [[? ?]|[? Ha]]%lookup_insert_Some [[? ?]|[? Hb]]%lookup_insert_Some Hk; subst; try done.
  - by destruct (Hnew _ _ Hb).
  - by destruct (Hnew _ _ Ha).
  - by eapply Hu.
Qed.

Lemma step_keys network d d' : step network d d' -> keys_unique d -> keys_unique d'.
Proof.
  intros [o io d0 Hiss] Hu. destruct (exec_write _ _ io _ Hiss) as [(Ha & _)|Hw].
  - intros a b ra rb. rewrite Ha. apply Hu.
  - by eapply keys_write.
Qed.

Lemma steps_keys network d d' : steps network d d' -> keys_unique d -> keys_unique d'.
Proof. induction 1; eauto using step_keys. Qed.

Lemma reachable_keys network d : reachable network d -> keys_unique d.
Proof. intros [fk Hs]. eapply steps_keys; [done|]. intros ? ? ? ? H. done. Qed.

(** The outcomes of a claim. *)
Definition claim_result (clock : time) (c : TransactionAttempt) (d d' : db)
    (r : AttemptClaimResult) : Prop :=
  match AttemptClaim_State r with
  | ClaimAcquired =>
      let now := if IsZero (CreatedAt c) then clock else CreatedAt c in
      db_attempts d !! AttemptID c = None /\
      (forall i row, db_attempts d !! i = Some row ->
         a_scoped_idempotency_key row <> ScopedIdempotencyKey c) /\
      d' = log_event (put_attempt d (AttemptID c) (attempt_row_of c now))
             (AttemptID c) planning None now /\
      AttemptClaim_Attempt r = with_created (with_state c planning now) now
  | ClaimReplay | ClaimConflict =>
      d' = d /\ exists row,
        db_attempts d !! AttemptID (AttemptClaim_Attempt r) = Some row /\
        scanAttempt (AttemptID (AttemptClaim_Attempt r)) row = Ok (AttemptClaim_Attempt r) /\
        a_scoped_idempotency_key row = ScopedIdempotencyKey c /\
        (a_request_digest row = RequestDigest c <-> AttemptClaim_State r = ClaimReplay)
  | ClaimInProgress => False
  end.

Lemma ClaimAttempt_result clock c io d r d' :
  ClaimAttempt clock c io d = (Ok r, d') -> claim_result clock c d d' r.
Proof.
  unfold ClaimAttempt, claim_result. case_match; [done|].
  intros [[-> (e & [=])]|[(-> & a & io1 & io2 & s2 & [= ->] & H1)|(a & io1 & io2 & [= ->] & H1)]]%run_tx_cases;
    db_inv.
  3: { effects. match goal with H : exists e, _ |- _ => destruct H as (e & Herr & Hno) end.
       split_and!; try done. exact (claim_absent _ _ _ Herr Hno). }
  all: split; [done|].
  all: match goal with H : _ = Ok ?t |- _ =>
         apply result_bind_ok in H as ([id row] & [Hrow Hk]%attempt_with_key_some & Hscan) end.
  all: pose proof (scanAttempt_fields _ _ _ Hscan) as (Hid & _ & _ & Hdig & _).
  all: exists row; rewrite Hid; split_and!; try done; bool_to_prop; naive_solver congruence.
Qed.

(** C18: once a request is claimed, every later claim of the same scoped key that
    succeeds names the same attempt, however the calls interleave. *)
Theorem claim_idempotent network d d1 d2 d3 c c' clock clock' io io' r r' :
  reachable network d ->
  ClaimAttempt clock c io d = (Ok r, d1) -> AttemptClaim_State r = ClaimAcquired ->
  steps network d1 d2 -> ScopedIdempotencyKey c' = ScopedIdempotencyKey c ->
  ClaimAttempt clock' c' io' d2 = (Ok r', d3) ->
  d3 = d2 /\ AttemptID (AttemptClaim_Attempt r') = AttemptID c /\
  (AttemptClaim_State r' = ClaimReplay <-> RequestDigest c' = RequestDigest c).
Proof.
  intros Hreach H1 Hacq Hs Hkey H2.
  assert (Hstep : step network d d1).
  { replace d1 with (exec (OpClaimAttempt clock c) io d) by (cbn; by rewrite H1). by constructor. }
  pose proof (ClaimAttempt_result _ _ _ _ _ _ H1) as Hc1. unfold claim_result in Hc1.
  rewrite Hacq in Hc1. destruct Hc1 as (_ & _ & Hd1 & _).
  assert (Hrow : exists row, db_attempts d2 !! AttemptID c = Some row /\
     a_scoped_idempotency_key row = ScopedIdempotencyKey c /\ a_request_digest row = RequestDigest c).
  { assert (Hl1 : exists row, db_attempts d1 !! AttemptID c = Some row /\
      a_scoped_idempotency_key row = ScopedIdempotencyKey c /\ a_request_digest row = RequestDigest c).
    { rewrite Hd1. cbn. rewrite lookup_insert_eq. by eexists. }
    clear - Hs Hl1. induction Hs as [|da db' dc Hst Hs' IH]; [done|]. apply IH.
    destruct Hl1 as (row & Hl & ? & ?). destruct Hst as [o io0 d0 Hiss].
    destruct (exec_write _ _ io0 _ Hiss) as [(Ha & _)|Hw].
    - rewrite Ha. eauto.
    - destruct (kept_write _ _ _ _ _ _ Hw Hl) as (row' & ? & [(?&?&?) _ _ _ _]).
      exists row'. split_and!; congruence. }
  destruct Hrow as (row & Hl & Hk & Hdig).
  assert (keys_unique d2) as Hu.
  { eapply steps_keys, step_keys; [done..|]. by eapply reachable_keys. }
  pose proof (ClaimAttempt_result _ _ _ _ _ _ H2) as Hc2. unfold claim_result in Hc2.
  destruct (AttemptClaim_State r') eqn:Hst'; try done.
  - destruct Hc2 as (_ & Hno & _). destruct (Hno _ _ Hl). congruence.
  - destruct Hc2 as (-> & row' & Hl' & _ & Hk' & Hdg).
    assert (AttemptID (AttemptClaim_Attempt r') = AttemptID c) as Hid by (eapply Hu; [done..|congruence]).
    rewrite Hid in *. simplify_eq. split_and!; [done..|]. naive_solver congruence.
  - destruct Hc2 as (-> & row' & Hl' & _ & Hk' & Hdg).
    assert (AttemptID (AttemptClaim_Attempt r') = AttemptID c) as Hid by (eapply Hu; [done..|congruence]).
    rewrite Hid in *. simplify_eq. split_and!; [done..|]. naive_solver congruence.
Qed.

(** * Reserving a plan: all or nothing *)

Lemma note_ids_ok_spec l prev :
  StronglySorted String.le l -> (forall p, prev = Some p -> Forall (String.le p) l) ->
  note_ids_ok prev l = true <->
  EmptyString ∉ l /\ NoDup l /\ (forall p, prev = Some p -> p ∉ l).
Proof.
  revert prev. induction l as [|n l IH]; intros prev Hs Hp; cbn.
  { split; [|done]. intros _. split_and!; [set_solver|constructor|set_solver]. }
  apply StronglySorted_inv in Hs as [Hs Hn].
  assert (Hle : forall p, prev = Some p -> p <> n -> p ∉ l).
  { intros p -> Hne Hin. specialize (Hp p eq_refl). apply Forall_cons in Hp as [Hpn _].
    rewrite Forall_forall in Hn. apply Hn in Hin.
    apply Hne. by apply (anti_symm String.le). }
  destruct (String.eqb_spec n "") as [->|Hne]; cbn; [split; [done|set_solver]|].
  case_bool_decide as Hpn; [split; [done|]; intros (_ & _ & H); specialize (H n Hpn); set_solver|].
  rewrite IH; [|done|naive_solver]. rewrite NoDup_cons, !not_elem_of_cons. split.
  - intros (? & ? & Hnot). split_and!; try done; [by apply Hnot|].
    intros p Hpp. rewrite not_elem_of_cons. split; [congruence|].
    apply (Hle p Hpp). congruence.
  - intros ([? ?] & [? ?] & ?). split_and!; naive_solver.
Qed.

Lemma order_by_sorted (l : list string) : StronglySorted String.le (order_by id l).
Proof.
  unfold order_by. cbn. apply StronglySorted_merge_sort; apply _.
Qed.

Lemma note_ids_ok_order l :
  note_ids_ok None (order_by id l) = true <-> EmptyString ∉ l /\ NoDup l.
Proof.
  rewrite note_ids_ok_spec; [|apply order_by_sorted|done].
  rewrite elem_of_order_by. unfold order_by at 1. rewrite merge_sort_Permutation. naive_solver.
Qed.

Lemma run_stmt {S A} w (f : S -> result (A * S)) s a s' :
  f s = Ok (a, s') -> stmt w f [] s = Ok (a, [], s').
Proof. unfold stmt. cbn. by intros ->. Qed.

Lemma reserve_notes_runs network id digest now notes d row :
  db_attempts d !! id = Some row -> is_Some (db_wallets d !! a_wallet_id row) ->
  NoDup notes ->
  (forall n, n ∈ notes -> db_reservations d !! (network, a_wallet_id row, n) = None) ->
  reserve_notes network id digest now notes [] d =
  Ok (tt, [], set_reservations d (add_reservations network (a_wallet_id row) id digest now notes
                                    (db_reservations d))).
Proof.
  revert d. induction notes as [|n notes IH]; cbn; intros d Hrow Hw Hnd Hfree.
  { by rewrite set_reservations_id. }
  apply NoDup_cons in Hnd as [Hn Hnd]. unfold mbind, m_bind.
  erewrite run_stmt; [|unfold insert_reservation; rewrite Hrow, Hfree by set_solver;
    rewrite (bool_decide_eq_false_2 (db_wallets d !! _ = None)), andb_false_r
      by (by apply not_eq_None_Some); reflexivity].
  cbn. rewrite IH; [done|done|done|done|].
  intros m Hm. cbn. rewrite lookup_insert_ne; [by apply Hfree; set_solver|]. intros [= ->]. done.
Qed.

(** What a plan must be, and find, to be reserved for an attempt in [planning]. *)
Definition reservable (network planJSON planDigest feeZat : string) (expiryHeight : Z)
    (noteIDs : list string) (row : attempt_row) (d : db) : Prop :=
  planJSON <> EmptyString /\ planDigest <> EmptyString /\ feeZat <> EmptyString /\
  0 <= expiryHeight /\ noteIDs <> [] /\ EmptyString ∉ noteIDs /\ NoDup noteIDs /\
  forall n, n ∈ noteIDs -> db_reservations d !! (network, a_wallet_id row, n) = None.

Definition reserved_db (id network planJSON planDigest feeZat : string) (expiryHeight : Z)
    (noteIDs : list string) (now : time) (row : attempt_row) (d : db) : db :=
  log_event (put_attempt
    (set_reservations d (add_reservations network (a_wallet_id row) id planDigest now
       (order_by Datatypes.id noteIDs) (db_reservations d)))
    id (set_plan planJSON planDigest feeZat expiryHeight (order_by Datatypes.id noteIDs) now row))
    id reserved None now.

Lemma reserve_guard planJSON planDigest feeZat expiryHeight (noteIDs : list string) :
  String.eqb planJSON "" || String.eqb planDigest "" || String.eqb feeZat ""
     || (expiryHeight <? 0) || Nat.eqb (length noteIDs) 0 = false <->
  planJSON <> EmptyString /\ planDigest <> EmptyString /\ feeZat <> EmptyString /\
  0 <= expiryHeight /\ noteIDs <> [].
Proof.
  rewrite !orb_false_iff, !String.eqb_neq, Z.ltb_ge, Nat.eqb_neq, length_zero_iff_nil. tauto.
Qed.

(** C19: for an attempt in [planning], with a driver that does not fail, a plan is
    reserved exactly when it is complete, its notes are non-empty and distinct
    and none of them is reserved; otherwise the call fails and not one note of
    it is taken. *)
Theorem ReserveAttemptPlan_iff id network plan digest fee expiry notes now d row :
  db_attempts d !! id = Some row -> a_state row = planning ->
  is_Some (db_wallets d !! a_wallet_id row) ->
  let run := ReserveAttemptPlan id network plan digest fee expiry notes now [] d in
  (reservable network plan digest fee expiry notes row d ->
     run = (Ok tt, reserved_db id network plan digest fee expiry notes now row d)) /\
  (~ reservable network plan digest fee expiry notes row d -> exists e, run = (Err e, d)).
Proof.
  intros Hrow Hst Hw run. split.
  - intros (Hp & Hg & Hf & He & Hne & Hempty & Hnd & Hfree). subst run. unfold ReserveAttemptPlan.
    rewrite (proj2 (reserve_guard _ _ _ _ _)) by done.
    rewrite (proj2 (note_ids_ok_order _)) by done. cbn [negb].
    rewrite run_tx_no_faults. unfold mbind, m_bind, query.
    erewrite run_stmt; [|unfold row_of; rewrite Hrow; reflexivity].
    rewrite Hst. cbn [bool_decide andb negb decide].
    rewrite (bool_decide_eq_false_2 (planning = reserved)) by done.
    rewrite (bool_decide_eq_true_2 (planning = planning)) by done. cbn [andb negb].
    rewrite (reserve_notes_runs _ _ _ _ _ _ _ Hrow Hw);
      [|unfold order_by; by rewrite merge_sort_Permutation
       |intros n Hn; apply Hfree; by rewrite <- elem_of_order_by].
    erewrite run_stmt; [|unfold update_attempt; cbn; rewrite Hrow, bool_decide_eq_true_2 by done;
                         reflexivity].
    cbn. by rewrite lookup_insert_eq, bool_decide_eq_false_2, andb_false_r by done.
  - intros Hnot. destruct run as [[[]|e] d'] eqn:Hrun; subst run.
    + destruct Hnot. unfold ReserveAttemptPlan in Hrun. case_match eqn:Hg; [done|].
      apply reserve_guard in Hg as (?&?&?&?&?). case_match eqn:Hids; [done|]. bool_to_prop.
      apply note_ids_ok_order in Hids as [? ?].
      apply run_tx_cases in Hrun as [[_ (e & [=])]|[(-> & ? & io1 & io2 & s2 & _ & H')|(? & io1 & io2 & _ & H')]];
        db_inv; bool_to_prop; [congruence|].
      match goal with H : reserve_notes _ _ _ _ _ _ _ = _ |- _ =>
        eapply reserve_notes_ok in H as (_ & Hfree & _); [|done] end.
      unfold reservable. split_and!; try done. intros n Hn. apply Hfree. by rewrite elem_of_order_by.
    + exists e. f_equal. unfold ReserveAttemptPlan in Hrun.
      repeat (case_match; [congruence|]). by eapply run_tx_err_unchanged.
Qed.

(** * Witnesses *)

Fixpoint run_ops (l : list (store_op * faults)) (d : db) : db :=
  match l with [] => d | (o, io) :: l' => run_ops l' (exec o io d) end.

Fixpoint all_issued (network : string) (l : list (store_op * faults)) (d : db) : Prop :=
  match l with
  | [] => True
  | (o, io) :: l' => issued network o d /\ all_issued network l' (exec o io d)
  end.

Lemma run_ops_steps network l d : all_issued network l d -> steps network d (run_ops l d).
Proof.
  revert d. induction l as [|[o io] l IH]; cbn; intros d; [constructor|].
  intros [Hi Hl]. eapply steps_step; [by constructor|by apply IH].
Qed.

Definition candidate (id key digest : string) : TransactionAttempt :=
  {| AttemptID := id; ScopedIdempotencyKey := key; RequestDigest := digest;
     PrincipalName := "ops"; WalletID := "hot"; ApprovalReference := "ref"; RequestJSON := "{}";
     State := planning; ChangeAddress := ""; PlanJSON := ""; PlanDigest := ""; FeeZat := "";
     ExpiryHeight := 0; SelectedNoteIDs := []; TxID := ""; RawTxHex := "";
     OrchardOutputActionIndices := []; OrchardChangeActionIndex := None; ErrorCode := "";
     ErrorMessage := ""; ErrorRetryable := false; CreatedAt := 5; UpdatedAt := 5 |}.

(** Two requests over the same notes: the first is planned, its signing starts
    and its commit fails once, the second finds the notes taken. *)
Definition demo_start : db :=
  run_ops [(OpEnsureWallet "hot" "regtest" fp_a 100 1, [])] (empty_db true).
Definition demo_claimed : db := run_ops [(OpClaimAttempt 2 (candidate "a1" "k1" "d1"), [])] demo_start.
Definition demo_ops : list (store_op * faults) :=
  [ (OpClaimAttempt 3 (candidate "a2" "k2" "d2"), []);
    (OpReserveAttemptPlan "a1" "regtest" "p" "g1" "10" 50 ["n2"; "n1"]%string 4, []);
    (OpReserveAttemptPlan "a2" "regtest" "p" "g2" "10" 50 ["n1"; "n3"]%string 5, []);
    (OpBeginAttemptSigning "a1" 6, [None; None; None; None; Some "busy"%string]);
    (OpBeginAttemptSigning "a1" 7, []) ].
Definition demo_db : db := run_ops demo_ops demo_claimed.

Lemma steps_trans network d1 d2 d3 :
  steps network d1 d2 -> steps network d2 d3 -> steps network d1 d3.
Proof. induction 1; eauto using steps_step. Qed.

Lemma demo_start_steps : steps "regtest" (empty_db true) demo_start.
Proof. apply run_ops_steps. exact (conj I I). Qed.

Lemma demo_claimed_steps : steps "regtest" demo_start demo_claimed.
Proof. apply run_ops_steps. exact (conj I I). Qed.

Lemma demo_steps : steps "regtest" demo_claimed demo_db.
Proof.
  apply run_ops_steps. exact (conj I (conj eq_refl (conj eq_refl (conj I (conj I I))))).
Qed.

Lemma demo_reachable : reachable "regtest" demo_db.
Proof.
  exists true. eapply steps_trans; [apply demo_start_steps|].
  eapply steps_trans; [apply demo_claimed_steps|apply demo_steps].
Qed.

Example demo_holders :
  holder demo_db ("regtest", "hot", "n1")%string = Some "a1"%string /\
  holder demo_db ("regtest", "hot", "n3")%string = None /\
  a_state <$> db_attempts demo_db !! "a1"%string = Some signing /\
  a_state <$> db_attempts demo_db !! "a2"%string = Some planning.
Proof. by vm_compute. Qed.

Lemma no_note_planned_twice_witness :
  exists ra, db_attempts demo_db !! "a1"%string = Some ra /\ "a1"%string = "a1"%string.
Proof.
  destruct (db_attempts demo_db !! "a1"%string) as [ra|] eqn:Ha; [|vm_compute in Ha; discriminate Ha].
  assert (Hh : holding (a_state ra) = true) by (vm_compute in Ha; by injection Ha as <-).
  assert (Hn : "n1"%string ∈ selected ra) by (vm_compute in Ha; injection Ha as <-; left).
  exists ra. split; [reflexivity|].
  exact (no_note_planned_twice _ _ _ _ _ _ _ demo_reachable Ha Ha Hh Hh eq_refl Hn Hn).
Defined.

Lemma reservations_are_exact_witness : claims_note demo_db "a1" "hot" "n2".
Proof.
  apply (reservations_are_exact "regtest" demo_db "regtest" "hot" "n2" "a1" demo_reachable).
  vm_compute. reflexivity.
Defined.

Lemma audit_trail_legal_witness :
  trail "a1" (db_events demo_db) = [planning; reserved; signing] /\
  legal_trail (trail "a1" (db_events demo_db)) signing.
Proof.
  split; [vm_compute; reflexivity|].
  destruct (db_attempts demo_db !! "a1"%string) as [ra|] eqn:Ha; [|vm_compute in Ha; discriminate Ha].
  pose proof (audit_trail_legal "regtest" demo_db "a1" ra demo_reachable Ha) as H.
  assert (Hs : a_state ra = signing) by (vm_compute in Ha; by injection Ha as <-).
  rewrite Hs in H. exact H.
Defined.

Lemma attempts_append_only_witness :
  exists r', db_attempts (run_ops [(OpCancelAttempt "a1" 9, []); (OpCompleteAttemptSigning "a1" "t" "r" "10" [0] None 10, [])] demo_db)
     !! "a1"%string = Some r' /\ same_plan (default (attempt_row_of (candidate "" "" "") 0)
                                             (db_attempts demo_db !! "a1"%string)) r'.
Proof.
  destruct (db_attempts demo_db !! "a1"%string) as [ra|] eqn:Ha; [|vm_compute in Ha; discriminate Ha].
  assert (Hs : steps "regtest" demo_db (run_ops [(OpCancelAttempt "a1" 9, []);
    (OpCompleteAttemptSigning "a1" "t" "r" "10" [0] None 10, [])] demo_db))
    by (apply run_ops_steps; exact (conj I (conj I I))).
  destruct (attempts_append_only _ _ _ _ _ Hs Ha) as (r' & Hr' & Hk).
  exists r'. split; [exact Hr'|]. apply (kept_plan _ _ Hk).
  vm_compute in Ha. injection Ha as <-. discriminate.
Defined.

Lemma claim_idempotent_witness :
  exists r', ClaimAttempt 9 (candidate "a9" "k1" "d1") [] demo_db = (Ok r', demo_db) /\
    AttemptID (AttemptClaim_Attempt r') = "a1"%string.
Proof.
  assert (Hreach : reachable "regtest" demo_start) by (exists true; exact demo_start_steps).
  destruct (ClaimAttempt 2 (candidate "a1" "k1" "d1") [] demo_start) as [[r|] d1] eqn:H1;
    [|vm_compute in H1; discriminate H1].
  assert (Hacq : AttemptClaim_State r = ClaimAcquired) by (vm_compute in H1; by injection H1 as <-).
  assert (Hd1 : d1 = demo_claimed).
  { unfold demo_claimed. cbn [run_ops exec]. rewrite H1. reflexivity. }
  assert (Hs : steps "regtest" d1 demo_db) by (rewrite Hd1; exact demo_steps).
  destruct (ClaimAttempt 9 (candidate "a9" "k1" "d1") [] demo_db) as [[r'|] d3] eqn:H2;
    [|vm_compute in H2; discriminate H2].
  assert (Hk : ScopedIdempotencyKey (candidate "a9" "k1" "d1") =
               ScopedIdempotencyKey (candidate "a1" "k1" "d1")) by reflexivity.
  destruct (claim_idempotent _ _ _ _ _ _ _ _ _ _ _ _ _ Hreach H1 Hacq Hs Hk H2)
    as (-> & Hid & _).
  exists r'. split; [reflexivity|exact Hid].
Defined.

Lemma ReserveAttemptPlan_iff_witness :
  exists e, ReserveAttemptPlan "a2" "regtest" "p" "g" "10" 50 ["n1"]%string 9 [] demo_db = (Err e, demo_db).
Proof.
  destruct (db_attempts demo_db !! "a2"%string) as [ra|] eqn:Ha; [|vm_compute in Ha; discriminate Ha].
  assert (Hst : a_state ra = planning) by (vm_compute in Ha; by injection Ha as <-).
  assert (Hwal : a_wallet_id ra = "hot"%string) by (vm_compute in Ha; by injection Ha as <-).
  assert (Hw : is_Some (db_wallets demo_db !! a_wallet_id ra))
    by (rewrite Hwal; vm_compute; eexists; reflexivity).
  apply (proj2 (ReserveAttemptPlan_iff "a2" "regtest" "p" "g" "10" 50 ["n1"]%string 9 demo_db ra Ha Hst Hw)).
  intros (_ & _ & _ & _ & _ & _ & _ & Hfree). rewrite Hwal in Hfree.
  specialize (Hfree "n1"%string ltac:(left)). vm_compute in Hfree. discriminate Hfree.
Defined.
