(* ===== verification/Config.v ===== *)
(** The configuration of [internal/config/config.go]: [Config], its validation
    (which also normalises wallets and credentials), and the test for ephemeral
    state paths.  [Environ] reads the environment and the files. *)
From Stdlib Require Import SpecFloat.
From S2P Require Import Prelude GoString GoTime Sha256 Domain.

(** * Data *)

Record Wallet := {
  WalletID : string;
  UFVK : string;
  BirthdayHeight : Z;
  Account : Z
}.

Definition UFVKFingerprint (w : Wallet) : string := EncodeToString (Sum256 (TrimSpace (UFVK w))).

Record Credential := {
  Name : string;
  Token : string;
  TokenSHA256 : string;
  Scopes : list string;
  cr_Wallets : list string;
  TokenHash : string
}.

Record RateLimit := { RPS : spec_float; Burst : Z }.

Record Config := {
  Network : Domain.Network;
  ListenAddress : string;
  StateDSN : string;
  InstallationStatePath : string;
  NodeRPCURL : string;
  NodeRPCUser : string;
  NodeRPCPassword : string;
  ScannerURL : string;
  ScannerToken : string;
  AddrgenPath : string;
  Wallets : list Wallet;
  Credentials : list Credential;
  DefaultConfirmations : Z;
  MaxConfirmations : Z;
  MaxScannerLag : Z;
  RequireCompleteHistory : bool;
  JSONBodyBytes : Z;
  BroadcastBodyBytes : Z;
  ReadTimeout : Z;
  BroadcastTimeout : Z;
  UpstreamTimeout : Z;
  ShutdownTimeout : Z;
  HTTPReadHeaderTimeout : Z;
  HTTPReadTimeout : Z;
  HTTPWriteTimeout : Z;
  HTTPIdleTimeout : Z;
  ReadRate : RateLimit;
  BroadcastRate : RateLimit;
  TrustProxyHeaders : bool;
  IdempotencyLease : Z;
  BackfillBatchSize : Z;
  BackfillYield : Z;
  BackfillTimeout : Z;
  WalletEffectsMaxEvents : Z;
  NoteSummaryMaxNotes : Z;
  CoordinatorEnabled : bool;
  CoordinatorListenAddress : string;
  CoordinatorTxbuildPath : string;
  CoordinatorSignerSocket : string;
  CoordinatorWorkDir : string;
  CoordinatorPlanTimeout : Z;
  CoordinatorSignTimeout : Z;
  CoordinatorMaxBodyBytes : Z;
  CoordinatorMaxOutputs : Z;
  CoordinatorMaxAmountZat : Z;
  CoordinatorExpiryOffset : Z;
  CoordinatorFeeMultiplier : Z;
  CoordinatorFeeAddZat : Z;
  CoordinatorMinNoteZat : Z;
  CoordinatorMinChangeZat : Z;
  CoordinatorMaxReplans : Z;
  CoordinatorTargetNotes : Z;
  CoordinatorChangeSplitMax : Z;
  CoordinatorSplitMinNoteZat : Z;
  CoordinatorRate : RateLimit
}.

Definition maxConfirmationsLimit : Z := 10000.
Definition minInternalSecretLength : Z := 24.
Definition maxUFVKBytes : Z := 4096.

Definition safeID (s : string) : bool :=
  ident_re is_alnum (fun c => is_alnum c || one_of "._-" c) 63 s.

Definition set_wallets_credentials (c : Config) (ws : list Wallet) (crs : list Credential) : Config :=
  {| Network := Network c; ListenAddress := ListenAddress c; StateDSN := StateDSN c;
     InstallationStatePath := InstallationStatePath c; NodeRPCURL := NodeRPCURL c;
     NodeRPCUser := NodeRPCUser c; NodeRPCPassword := NodeRPCPassword c; ScannerURL := ScannerURL c;
     ScannerToken := ScannerToken c; AddrgenPath := AddrgenPath c; Wallets := ws; Credentials := crs;
     DefaultConfirmations := DefaultConfirmations c; MaxConfirmations := MaxConfirmations c;
     MaxScannerLag := MaxScannerLag c; RequireCompleteHistory := RequireCompleteHistory c;
     JSONBodyBytes := JSONBodyBytes c; BroadcastBodyBytes := BroadcastBodyBytes c;
     ReadTimeout := ReadTimeout c; BroadcastTimeout := BroadcastTimeout c;
     UpstreamTimeout := UpstreamTimeout c; ShutdownTimeout := ShutdownTimeout c;
     HTTPReadHeaderTimeout := HTTPReadHeaderTimeout c; HTTPReadTimeout := HTTPReadTimeout c;
     HTTPWriteTimeout := HTTPWriteTimeout c; HTTPIdleTimeout := HTTPIdleTimeout c;
     ReadRate := ReadRate c; BroadcastRate := BroadcastRate c;
     TrustProxyHeaders := TrustProxyHeaders c; IdempotencyLease := IdempotencyLease c;
     BackfillBatchSize := BackfillBatchSize c; BackfillYield := BackfillYield c;
     BackfillTimeout := BackfillTimeout c; WalletEffectsMaxEvents := WalletEffectsMaxEvents c;
     NoteSummaryMaxNotes := NoteSummaryMaxNotes c; CoordinatorEnabled := CoordinatorEnabled c;
     CoordinatorListenAddress := CoordinatorListenAddress c;
     CoordinatorTxbuildPath := CoordinatorTxbuildPath c;
     CoordinatorSignerSocket := CoordinatorSignerSocket c; CoordinatorWorkDir := CoordinatorWorkDir c;
     CoordinatorPlanTimeout := CoordinatorPlanTimeout c;
     CoordinatorSignTimeout := CoordinatorSignTimeout c;
     CoordinatorMaxBodyBytes := CoordinatorMaxBodyBytes c;
     CoordinatorMaxOutputs := CoordinatorMaxOutputs c;
     CoordinatorMaxAmountZat := CoordinatorMaxAmountZat c;
     CoordinatorExpiryOffset := CoordinatorExpiryOffset c;
     CoordinatorFeeMultiplier := CoordinatorFeeMultiplier c;
     CoordinatorFeeAddZat := CoordinatorFeeAddZat c; CoordinatorMinNoteZat := CoordinatorMinNoteZat c;
     CoordinatorMinChangeZat := CoordinatorMinChangeZat c;
     CoordinatorMaxReplans := CoordinatorMaxReplans c;
     CoordinatorTargetNotes := CoordinatorTargetNotes c;
     CoordinatorChangeSplitMax := CoordinatorChangeSplitMax c;
     CoordinatorSplitMinNoteZat := CoordinatorSplitMinNoteZat c; CoordinatorRate := CoordinatorRate c |}.

Definition blank (s : string) : bool := String.eqb (TrimSpace s) "".

(** [filepath.IsAbs]. *)
Definition IsAbs (path : string) : bool := HasPrefix path "/".

Definition rate_invalid (r : RateLimit) : bool :=
  SFleb (RPS r) (S754_zero false) || (Burst r <=? 0).

(** The first guard whose condition holds is the error returned. *)
Fixpoint guards (l : list (bool * string)) : result unit :=
  match l with
  | [] => Ok tt
  | (true, text) :: _ => Err (New text)
  | (false, _) :: rest => guards rest
  end.

(** * Ephemeral paths *)

Definition is_slash (c : ascii) : bool := Ascii.eqb c "/".

(** [path[:strings.IndexAny(path, "?#")]], or the path. *)
Fixpoint before_query (s : string) : string :=
  match s with
  | EmptyString => EmptyString
  | String c s' => if Ascii.eqb c "?" || Ascii.eqb c "#" then EmptyString else String c (before_query s')
  end.

Fixpoint collapse_slashes (s : string) : string :=
  match s with
  | String "/" (String "/" _ as s') => collapse_slashes s'
  | _ => s
  end.

Definition TrimRightSlash (s : string) : string :=
  of_bytes (rev (drop_while is_slash (rev (to_bytes s)))).

Definition hex_value (c : ascii) : Z :=
  if is_digit c then code c - 48 else if in_range 97 102 c then code c - 87 else code c - 55.

(** [url.PathUnescape]; [None] is a malformed escape. *)
Fixpoint PathUnescape (l : bytes) : option bytes :=
  match l with
  | [] => Some []
  | "%"%char :: h :: g :: rest =>
      if is_hex h && is_hex g
      then r ← PathUnescape rest; Some (ascii_of_N (Z.to_N (16 * hex_value h + hex_value g)) :: r)
      else None
  | "%"%char :: _ => None
  | c :: rest => r ← PathUnescape rest; Some (c :: r)
  end.

Fixpoint drop_string (n : nat) (s : string) : string :=
  match n, s with S n', String _ s' => drop_string n' s' | _, _ => s end.

(** What the source reads of a parsed URL. *)
Record URL := { Scheme : string; Host : string; url_Path : string; Opaque : string }.

Definition ephemeral_roots : list string :=
  ["/tmp"; "/var/tmp"; "/dev/shm"; "/private/tmp"; "/var/folders"]%string.

Arguments UFVKFingerprint : simpl never.

Section validation.
(** [url.Parse]; [None] is its error. *)
Context (url_Parse : string -> option URL).

Definition isEphemeralStateDSN (raw : string) : bool :=
  let trimmed := TrimSpace raw in
  let lower := ToLower trimmed in
  if HasPrefix lower ":memory:" || Contains lower "mode=memory" || Contains lower "vfs=memdb"
  then true
  else
    let path :=
      match url_Parse trimmed with
      | Some u => if EqualFold (Scheme u) "file"
                  then if String.eqb (Opaque u) "" then url_Path u else Opaque u
                  else trimmed
      | None => trimmed
      end in
    let path := before_query path in
    let path := match PathUnescape (to_bytes path) with Some d => of_bytes d | None => path end in
    let path := TrimSpace path in
    let path := if HasPrefix (ToLower path) "file:" then drop_string 5 path else path in
    let path := collapse_slashes path in
    if String.eqb path "" || EqualFold path ":memory:" then true
    else
      let path := TrimRightSlash path in
      existsb (fun root => String.eqb path root || HasPrefix path (root +:+ "/")) ephemeral_roots.

(** * Wallets and credentials *)

Definition trim_wallet (w : Wallet) : Wallet :=
  {| WalletID := TrimSpace (WalletID w); UFVK := TrimSpace (UFVK w);
     BirthdayHeight := BirthdayHeight w; Account := Account w |}.

Definition wallet_error (before wallet after : string) : error :=
  New (before +:+ quote wallet +:+ after).

(** The loop over the wallets: the normalised wallets. *)
Fixpoint validate_wallets (network : Domain.Network) (seenWallets : gset string)
    (seenUFVKs : gmap string string) (i : Z) (wallets : list Wallet) : result (list Wallet) :=
  match wallets with
  | [] => Ok []
  | w :: rest =>
      let w := trim_wallet w in
      if negb (safeID (WalletID w))
      then Err (New ("wallet " +:+ pretty i +:+ " has invalid wallet_id"))
      else if bool_decide (WalletID w ∈ seenWallets)
      then Err (wallet_error "duplicate wallet_id " (WalletID w) "")
      else if maxUFVKBytes <? len (UFVK w)
      then Err (wallet_error "wallet " (WalletID w) " UFVK exceeds 4096 bytes")
      else if negb (HasPrefix (UFVK w) (UFVKHRP network +:+ "1"))
      then Err (wallet_error "wallet " (WalletID w) (" UFVK does not match " +:+ network_string network))
      else
        let fingerprint := UFVKFingerprint w in
        match seenUFVKs !! fingerprint with
        | Some other => Err (wallet_error "wallet " (WalletID w)
                               (" duplicates the UFVK configured for wallet " +:+ quote other))
        | None =>
            if BirthdayHeight w <? 0
            then Err (wallet_error "wallet " (WalletID w) " birthday_height must be non-negative")
            else if 2147483648 <=? Account w
            then Err (wallet_error "wallet " (WalletID w) " account must be below 2147483648")
            else
              ws ← validate_wallets network ({[WalletID w]} ∪ seenWallets)
                     (<[fingerprint := WalletID w]> seenUFVKs) (i + 1) rest;
              Ok (w :: ws)
        end
  end.

Definition isExampleTokenHash (value : string) : bool :=
  if negb (len value =? 64) then false
  else match value with
       | EmptyString => false
       | String c _ => String.eqb (TrimByte value c) ""
       end.

Definition valid_scopes : list string :=
  ["read"; "address"; "broadcast"; "raw"; "treasury"; "withdrawal"; "plan"; "admin"]%string.

Fixpoint check_scopes (name : string) (scopes : list string) : result unit :=
  match scopes with
  | [] => Ok tt
  | s :: rest =>
      if bool_decide (s ∈ valid_scopes) then check_scopes name rest
      else Err (wallet_error "credential " name (" has invalid scope " +:+ quote s))
  end.

Fixpoint check_grants (name : string) (known : gset string) (wallets : list string) : result unit :=
  match wallets with
  | [] => Ok tt
  | w :: rest =>
      if String.eqb w "*" then check_grants name known rest
      else if bool_decide (w ∈ known) then check_grants name known rest
      else Err (wallet_error "credential " name (" references unknown wallet " +:+ quote w))
  end.

(** The bytes [hex.DecodeString] returns for an even-length hexadecimal text. *)
Fixpoint hex_decode (l : bytes) : bytes :=
  match l with
  | h :: g :: rest => ascii_of_N (Z.to_N (16 * hex_value h + hex_value g)) :: hex_decode rest
  | _ => []
  end.

Definition coordinator_scope (s : string) : bool := String.eqb s "plan" || String.eqb s "admin".

Definition with_hash (cr : Credential) (name token hash : string) : Credential :=
  {| Name := name; Token := token; TokenSHA256 := TokenSHA256 cr; Scopes := Scopes cr;
     cr_Wallets := cr_Wallets cr; TokenHash := hash |}.

(** The token or the hash of a credential named [name]: its 32-byte hash. *)
Definition credential_hash (network : Domain.Network) (name : string) (cr : Credential)
    : result Credential :=
  let hasToken := negb (blank (Token cr)) in
  let hasHash := negb (blank (TokenSHA256 cr)) in
  if Bool.eqb hasToken hasHash
  then Err (wallet_error "credential " name " must set exactly one token or token_sha256")
  else if hasToken then
    if len (Token cr) <? 24
    then Err (wallet_error "credential " name " token must be at least 24 characters")
    else if negb (bool_decide (network = Regtest))
            && HasPrefix (ToLower (TrimSpace (Token cr))) "replace-this-"
    then Err (wallet_error "credential " name " uses an example token")
    else Ok (with_hash cr name "" (Sum256 (Token cr)))
  else
    if negb (hex_ok (TokenSHA256 cr)) || negb (len (TokenSHA256 cr) =? 64)
    then Err (wallet_error "credential " name " token_sha256 must be 64 lowercase hex characters")
    else if negb (String.eqb (TokenSHA256 cr) (ToLower (TokenSHA256 cr)))
    then Err (wallet_error "credential " name " token_sha256 must be lowercase")
    else if negb (bool_decide (network = Regtest)) && isExampleTokenHash (TokenSHA256 cr)
    then Err (wallet_error "credential " name " uses the non-authenticating example token hash")
    else Ok (with_hash cr name (Token cr) (of_bytes (hex_decode (to_bytes (TokenSHA256 cr))))).

(** The loop over the credentials: the normalised ones, and whether one of them
    has a coordinator scope. *)
Fixpoint validate_credentials (network : Domain.Network) (known seenNames : gset string)
    (seenTokenHashes : gmap string string) (i : Z) (creds : list Credential)
    : result (list Credential * bool) :=
  match creds with
  | [] => Ok ([], false)
  | cr :: rest =>
      let name := TrimSpace (Name cr) in
      if negb (safeID name) then Err (New ("credential " +:+ pretty i +:+ " has invalid name"))
      else if bool_decide (name ∈ seenNames)
      then Err (wallet_error "duplicate credential name " name "")
      else
        cr ← credential_hash network name cr;
        match seenTokenHashes !! TokenHash cr with
        | Some other => Err (wallet_error "credential " name
                               (" reuses the bearer token configured for credential " +:+ quote other))
        | None =>
            match Scopes cr with
            | [] => Err (wallet_error "credential " name " requires at least one scope")
            | _ =>
                _ ← check_scopes name (Scopes cr);
                match cr_Wallets cr with
                | [] => Err (wallet_error "credential " name " requires wallet authorization")
                | _ =>
                    _ ← check_grants name known (cr_Wallets cr);
                    '(crs, coord) ← validate_credentials network known ({[name]} ∪ seenNames)
                      (<[TokenHash cr := name]> seenTokenHashes) (i + 1) rest;
                    Ok (cr :: crs, existsb coordinator_scope (Scopes cr) || coord)
                end
            end
        end
  end.

Definition http_url (raw : string) : bool :=
  match url_Parse raw with
  | Some u => (String.eqb (Scheme u) "http" || String.eqb (Scheme u) "https")
              && negb (String.eqb (Host u) "")
  | None => false
  end.

Definition bounds_checks (c : Config) : list (bool * string) :=
  [ (String.eqb (AddressHRP (Network c)) "", "unsupported network"%string);
    (blank (ListenAddress c) || blank (StateDSN c), "listen address and state DSN are required"%string);
    (blank (InstallationStatePath c) || negb (IsAbs (InstallationStatePath c)),
      "installation state path must be an absolute file path"%string);
    (negb (http_url (NodeRPCURL c)), "node RPC URL must be an http(s) URL"%string);
    (negb (http_url (ScannerURL c)), "scanner URL must be an http(s) URL"%string);
    ((DefaultConfirmations c <? 1) || (MaxConfirmations c <? 1)
       || (maxConfirmationsLimit <? MaxConfirmations c) || (MaxConfirmations c <? DefaultConfirmations c),
      "confirmation bounds are invalid"%string);
    ((MaxScannerLag c <? 0) || (JSONBodyBytes c <? 1024) || (BroadcastBodyBytes c <? 1024),
      "lag and body limits must be positive"%string);
    ((ReadTimeout c <=? 0) || (BroadcastTimeout c <=? 0) || (UpstreamTimeout c <=? 0)
       || (ShutdownTimeout c <=? 0), "timeouts must be positive"%string);
    (IdempotencyLease c <? second, "idempotency lease must be at least 1s"%string);
    ((HTTPReadHeaderTimeout c <=? 0) || (HTTPReadTimeout c <=? 0) || (HTTPWriteTimeout c <=? 0)
       || (HTTPIdleTimeout c <=? 0), "HTTP server timeouts must be positive"%string);
    (HTTPReadTimeout c <? HTTPReadHeaderTimeout c,
      "HTTP read timeout must not be shorter than the read-header timeout"%string);
    (HTTPWriteTimeout c <=? BroadcastTimeout c,
      "HTTP write timeout must be longer than the broadcast request timeout"%string);
    ((BackfillBatchSize c <? 1) || (100000 <? BackfillBatchSize c) || (BackfillYield c <=? 0)
       || (BackfillTimeout c <=? 0), "backfill batch size, yield, and timeout are invalid"%string);
    ((WalletEffectsMaxEvents c <? 1) || (100000 <? WalletEffectsMaxEvents c),
      "wallet effects event cap must be between 1 and 100000"%string);
    ((NoteSummaryMaxNotes c <? 1) || (1000000 <? NoteSummaryMaxNotes c),
      "note summary cap must be between 1 and 1000000"%string) ].

Definition coordinator_path (path : string) : bool := blank path || negb (IsAbs path).

Definition coordinator_checks (c : Config) : list (bool * string) :=
  if CoordinatorEnabled c then
  [ (blank (CoordinatorListenAddress c)
       || String.eqb (CoordinatorListenAddress c) (ListenAddress c),
      "coordinator listen address must be set and distinct from the public gateway listener"%string);
    (coordinator_path (CoordinatorTxbuildPath c), "coordinator txbuild path must be an absolute path"%string);
    (coordinator_path (CoordinatorSignerSocket c), "coordinator signer socket must be an absolute path"%string);
    (coordinator_path (CoordinatorWorkDir c), "coordinator work directory must be an absolute path"%string);
    ((CoordinatorPlanTimeout c <=? 0) || (CoordinatorSignTimeout c <=? 0),
      "coordinator timeouts must be positive"%string);
    ((CoordinatorMaxBodyBytes c <? 1024) || (8388608 <? CoordinatorMaxBodyBytes c),
      "coordinator body limit must be between 1 KiB and 8 MiB"%string);
    ((CoordinatorMaxOutputs c <? 1) || (199 <? CoordinatorMaxOutputs c),
      "coordinator max outputs must be between 1 and 199"%string);
    ((CoordinatorMaxAmountZat c <? 1) || (CoordinatorExpiryOffset c <? 4)
       || (uint32_max <? CoordinatorExpiryOffset c) || (CoordinatorFeeMultiplier c <? 1)
       || (CoordinatorFeeAddZat c <? 0) || (CoordinatorMinNoteZat c <? 0)
       || (CoordinatorMinChangeZat c <? 0), "coordinator amount, expiry, and fee policy is invalid"%string);
    ((CoordinatorMaxReplans c <? 1) || (20 <? CoordinatorMaxReplans c)
       || rate_invalid (CoordinatorRate c), "coordinator replan and rate limits are invalid"%string);
    ((CoordinatorTargetNotes c <? 0) || (10000 <? CoordinatorTargetNotes c)
       || (CoordinatorChangeSplitMax c <? 0) || (50 <? CoordinatorChangeSplitMax c)
       || (CoordinatorSplitMinNoteZat c <? 0), "coordinator note inventory settings are invalid"%string) ]
  else [].

Definition example_secret (s : string) : bool := HasPrefix (ToLower (TrimSpace s)) "replace-this-".

Definition production_checks (c : Config) : list (bool * string) :=
  if decide (Network c = Regtest) then []
  else
  [ (Nat.eqb (length (Credentials c)) 0, "authentication is required outside regtest"%string);
    (blank (NodeRPCUser c) || blank (NodeRPCPassword c), "authenticated node RPC is required outside regtest"%string);
    (blank (ScannerToken c), "scanner authentication is required outside regtest"%string);
    (example_secret (NodeRPCPassword c) || example_secret (ScannerToken c),
      "example RPC and scanner credentials are forbidden outside regtest"%string);
    ((len (TrimSpace (NodeRPCPassword c)) <? minInternalSecretLength)
       || (len (TrimSpace (ScannerToken c)) <? minInternalSecretLength),
      "RPC and scanner credentials must each be at least 24 characters outside regtest"%string);
    (String.eqb (TrimSpace (NodeRPCPassword c)) (TrimSpace (ScannerToken c)),
      "RPC and scanner credentials must be distinct outside regtest"%string);
    (isEphemeralStateDSN (StateDSN c), "gateway state must use persistent storage outside regtest"%string);
    (isEphemeralStateDSN (InstallationStatePath c),
      "installation state must use persistent storage outside regtest"%string) ].

Definition Validate (c : Config) : result Config :=
  _ ← guards (bounds_checks c);
  _ ← guards (coordinator_checks c);
  _ ← guards [ (rate_invalid (ReadRate c) || rate_invalid (BroadcastRate c), "rate limits must be positive"%string);
               (Nat.eqb (length (Wallets c)) 0, "at least one registered wallet is required"%string) ];
  ws ← validate_wallets (Network c) ∅ ∅ 0 (Wallets c);
  _ ← guards (production_checks c);
  '(crs, coord) ← validate_credentials (Network c) (list_to_set (map WalletID ws)) ∅ ∅ 0 (Credentials c);
  _ ← guards [ (CoordinatorEnabled c && negb coord,
                "coordinator requires at least one credential with plan or admin scope"%string) ];
  Ok (set_wallets_credentials c ws crs).
End validation.

(** * What a validated configuration guarantees *)

Record credentials_ok (known : gset string) (network : Domain.Network) (crs : list Credential) : Prop := {
  names_distinct : NoDup (map Name crs);
  tokens_distinct : NoDup (map TokenHash crs);
  credential_fields : Forall (fun cr =>
    safeID (Name cr) = true /\ len (TokenHash cr) = 32 /\
    Scopes cr <> [] /\ Forall (fun s => s ∈ valid_scopes) (Scopes cr) /\
    cr_Wallets cr <> [] /\ Forall (fun w => w = "*"%string \/ w ∈ known) (cr_Wallets cr)) crs
}.

Record wallets_ok (network : Domain.Network) (ws : list Wallet) : Prop := {
  wallet_ids_distinct : NoDup (map WalletID ws);
  fingerprints_distinct : NoDup (map UFVKFingerprint ws);
  wallet_fields : Forall (fun w =>
    safeID (WalletID w) = true /\ len (UFVK w) <= maxUFVKBytes /\
    HasPrefix (UFVK w) (UFVKHRP network +:+ "1") = true /\
    0 <= BirthdayHeight w /\ Account w < 2147483648) ws
}.

Lemma not_elem_of_add {A} `{Countable A} (x y : A) (X : gset A) :
  x ∉ ({[y]} ∪ X : gset A) <-> x <> y /\ x ∉ X.
Proof. rewrite not_elem_of_union, not_elem_of_singleton. done. Qed.

Lemma config_wallets_ok network seen ufvks i ws ws' :
  validate_wallets network seen ufvks i ws = Ok ws' ->
  wallets_ok network ws' /\ ws' = map trim_wallet ws /\
  Forall (fun w => WalletID w ∉ seen /\ ufvks !! UFVKFingerprint w = None) ws'.
Proof.
  revert seen ufvks i ws'. induction ws as [|w ws IH]; cbn [validate_wallets map]; intros seen ufvks i ws' H.
  { injection H as <-. split_and!; [split; constructor|done|constructor]. }
  set (tw := trim_wallet w) in *.
  destruct (safeID (WalletID tw)) eqn:Hid; cbn [negb] in H; [|done].
  case_bool_decide as Hseen; [done|].
  destruct (Z.ltb_spec maxUFVKBytes (len (UFVK tw))); [done|].
  destruct (HasPrefix _ _) eqn:Hp; cbn [negb] in H; [|done].
  destruct (ufvks !! UFVKFingerprint tw) eqn:Hf; [done|].
  destruct (Z.ltb_spec (BirthdayHeight tw) 0); [done|].
  destruct (Z.leb_spec 2147483648 (Account tw)); [done|].
  apply result_bind_ok in H as (rest & Hrest & [= <-]).
  apply IH in Hrest as ([Hn Hfd Hfs] & -> & Hall). split_and!; [split|done|].
  - cbn. constructor; [|done]. intros (w' & Heq & Hin)%list_elem_of_fmap.
    rewrite Forall_forall in Hall. destruct (Hall _ Hin) as [Hnot _]. rewrite <- Heq in Hnot.
    by apply not_elem_of_add in Hnot as [? _].
  - cbn. constructor; [|done]. intros (w' & Heq & Hin)%list_elem_of_fmap.
    rewrite Forall_forall in Hall. destruct (Hall _ Hin) as [_ Hnot]. rewrite <- Heq in Hnot.
    by rewrite lookup_insert_eq in Hnot.
  - constructor; [|done]. split_and!; done.
  - constructor; [done|]. eapply Forall_impl; [exact Hall|]. cbn. intros w' [[_ Hno]%not_elem_of_add Hnone]. split; [exact Hno|].
    by apply lookup_insert_None in Hnone as [? _].
Qed.

Lemma check_scopes_ok name l : check_scopes name l = Ok tt -> Forall (fun s => s ∈ valid_scopes) l.
Proof.
  induction l as [|s l IH]; [constructor|]. cbn [check_scopes]. case_bool_decide; [|done].
  intros Hl%IH. by constructor.
Qed.

Lemma check_grants_ok name known l :
  check_grants name known l = Ok tt -> Forall (fun w => w = "*"%string \/ w ∈ known) l.
Proof.
  induction l as [|s l IH]; [constructor|]. cbn [check_grants].
  destruct (String.eqb_spec s "*"); [intros Hl%IH; constructor; auto|].
  case_bool_decide; [|done]. intros Hl%IH. constructor; auto.
Qed.

Lemma hex_decode_length (l : bytes) : length (hex_decode l) = (length l / 2)%nat.
Proof.
  induction l as [l IH] using (well_founded_induction (Wf_nat.well_founded_ltof _ (@length ascii))).
  destruct l as [|a [|b l]]; [done|done|]. cbn [hex_decode length].
  rewrite IH by (unfold Wf_nat.ltof; cbn; lia).
  replace (S (S (length l)))%nat with (length l + 1 * 2)%nat by lia.
  rewrite Nat.div_add by lia. lia.
Qed.

Lemma credential_hash_ok network name cr cr' :
  credential_hash network name cr = Ok cr' ->
  Name cr' = name /\ len (TokenHash cr') = 32 /\ Scopes cr' = Scopes cr /\ cr_Wallets cr' = cr_Wallets cr.
Proof.
  unfold credential_hash. case_match; [done|]. case_match.
  - repeat (case_match; [done|]). intros [= <-]. split_and!; try done. apply Sum256_len.
  - case_match eqn:Hh; [done|]. repeat (case_match; [done|]). intros [= <-]. split_and!; try done. cbn.
    bool_to_prop. unfold len in *. rewrite <- length_to_bytes in *.
    rewrite to_of_bytes, hex_decode_length.
    match goal with H : Z.of_nat _ = 64 |- _ => apply (Nat2Z.inj _ 64) in H; rewrite H end. done.
Qed.

Lemma validate_credentials_ok network known names hashes i crs crs' coord :
  validate_credentials network known names hashes i crs = Ok (crs', coord) ->
  credentials_ok known network crs' /\
  Forall (fun cr => Name cr ∉ names /\ hashes !! TokenHash cr = None) crs' /\
  coord = existsb (fun cr => existsb coordinator_scope (Scopes cr)) crs'.
Proof.
  revert names hashes i crs' coord.
  induction crs as [|cr crs IH]; cbn [validate_credentials]; intros names hashes i crs' coord H.
  { injection H as <- <-. split_and!; [split; constructor|constructor|done]. }
  destruct (safeID (TrimSpace (Name cr))) eqn:Hid; cbn [negb] in H; [|done].
  case_bool_decide as Hseen; [done|].
  apply result_bind_ok in H as (cr1 & Hcr & H).
  apply credential_hash_ok in Hcr as (Hname & Hlen & Hsc & Hws).
  destruct (hashes !! TokenHash cr1) eqn:Hf; [done|].
  destruct (Scopes cr1) as [|s sc] eqn:Hs; [done|].
  apply result_bind_ok in H as ([] & Hck%check_scopes_ok & H).
  destruct (cr_Wallets cr1) as [|w gr] eqn:Hw; [done|].
  apply result_bind_ok in H as ([] & Hgr%check_grants_ok & H).
  apply result_bind_ok in H as ([crs1 coord1] & Hrest & [= <- <-]).
  apply IH in Hrest as ([Hn Hh Hfs] & Hall & ->). split_and!; [split| |].
  - cbn. constructor; [|done]. intros (c & Heq & Hin)%list_elem_of_fmap.
    rewrite Forall_forall in Hall. destruct (Hall _ Hin) as [Hnot _].
    rewrite <- Heq, Hname in Hnot. by apply not_elem_of_add in Hnot as [? _].
  - cbn. constructor; [|done]. intros (c & Heq & Hin)%list_elem_of_fmap.
    rewrite Forall_forall in Hall. destruct (Hall _ Hin) as [_ Hnot]. rewrite <- Heq in Hnot.
    by rewrite lookup_insert_eq in Hnot.
  - constructor; [|done]. rewrite Hname, Hs, Hw. split_and!; done.
  - constructor; [by rewrite Hname|]. eapply Forall_impl; [exact Hall|]. cbn.
    intros c [[_ Hno]%not_elem_of_add Hnone]. split; [exact Hno|]. by apply lookup_insert_None in Hnone as [? _].
  - cbn. by rewrite Hs.
Qed.

Lemma guards_ok l : guards l = Ok tt <-> Forall (fun p => p.1 = false) l.
Proof.
  induction l as [|[[] t] l IH]; cbn; [done| |].
  - rewrite Forall_cons. cbn. naive_solver.
  - rewrite Forall_cons, IH. cbn. tauto.
Qed.

Lemma bind_unit {A} (m : result unit) (k : result A) a :
  (m ≫= fun _ => k) = Ok a <-> m = Ok tt /\ k = Ok a.
Proof. destruct m as [[]|e]; cbn; naive_solver. Qed.

Lemma Validate_inv url_Parse c c' :
  Validate url_Parse c = Ok c' ->
  exists ws crs, c' = set_wallets_credentials c ws crs /\ ws <> [] /\
    wallets_ok (Network c) ws /\ ws = map trim_wallet (Wallets c) /\
    credentials_ok (list_to_set (map WalletID ws)) (Network c) crs /\
    (CoordinatorEnabled c = true ->
       exists cr s, cr ∈ crs /\ s ∈ Scopes cr /\ coordinator_scope s = true) /\
    Forall (fun p => p.1 = false) (bounds_checks url_Parse c ++ coordinator_checks c
                                   ++ production_checks url_Parse c).
Proof.
  unfold Validate. rewrite !bind_unit. intros (Hb & Hc & Hg & H).
  apply result_bind_ok in H as (ws & Hws & H). apply bind_unit in H as [Hp H].
  apply result_bind_ok in H as ([crs coord] & Hcrs & H). apply bind_unit in H as [Hco [= <-]].
  apply config_wallets_ok in Hws as (Hwok & -> & _).
  apply validate_credentials_ok in Hcrs as (Hcok & _ & ->).
  rewrite guards_ok in *. exists (map trim_wallet (Wallets c)), crs. split_and!; try done.
  - rewrite !Forall_cons in Hg. cbn in Hg. destruct Hg as (_ & Hl & _). by destruct (Wallets c).
  - intros Hen. rewrite Forall_cons, Hen in Hco. cbn in Hco. destruct Hco as [Hco _].
    apply negb_false_iff, existsb_exists in Hco as (cr & Hin & (s & Hs & ?)%existsb_exists).
    exists cr, s. rewrite !list_elem_of_In. done.
  - by rewrite !Forall_app.
Qed.

(** A configuration that [Validate] accepts comes back with its wallets
    trimmed and otherwise unchanged, and it has at least one wallet, wallet ids
    and viewing-key fingerprints without duplicates, viewing keys of the
    network, credentials with distinct names and distinct 32-byte token hashes
    that grant known scopes on known wallets; a credential that may plan when
    the coordinator is enabled; consistent confirmation and timeout bounds; and,
    outside regtest, authentication, long distinct upstream secrets and
    persistent state. *)
Theorem Validate_guarantees (url_Parse : string -> option URL) (c c' : Config)
    (H : Validate url_Parse c = Ok c') :
  c' = set_wallets_credentials c (map trim_wallet (Wallets c)) (Credentials c') /\
  Wallets c' <> [] /\
  wallets_ok (Network c') (Wallets c') /\
  credentials_ok (list_to_set (map WalletID (Wallets c'))) (Network c') (Credentials c') /\
  (CoordinatorEnabled c' = true ->
     (exists cr s, cr ∈ Credentials c' /\ s ∈ Scopes cr /\ (s = "plan"%string \/ s = "admin"%string)) /\
     1 <= CoordinatorMaxOutputs c' <= 199 /\
     4 <= CoordinatorExpiryOffset c' <= uint32_max /\
     1 <= CoordinatorMaxAmountZat c') /\
  1 <= DefaultConfirmations c' <= MaxConfirmations c' /\ MaxConfirmations c' <= maxConfirmationsLimit /\
  BroadcastTimeout c' < HTTPWriteTimeout c' /\ HTTPReadHeaderTimeout c' <= HTTPReadTimeout c' /\
  (Network c' <> Regtest ->
     Credentials c <> [] /\
     TrimSpace (NodeRPCPassword c') <> TrimSpace (ScannerToken c') /\
     minInternalSecretLength <= len (TrimSpace (NodeRPCPassword c')) /\
     minInternalSecretLength <= len (TrimSpace (ScannerToken c')) /\
     isEphemeralStateDSN url_Parse (StateDSN c') = false /\
     isEphemeralStateDSN url_Parse (InstallationStatePath c') = false).
Proof.
  destruct (Validate_inv _ _ _ H) as (ws & crs & -> & Hne & Hwok & -> & Hcok & Hcoord & Hall).
  rewrite !Forall_app in Hall. destruct Hall as (Hb & Hc & Hp).
  unfold bounds_checks in Hb. rewrite !Forall_cons in Hb. cbn in Hb.
  destruct Hb as (_ & _ & _ & _ & _ & Hconf & _ & _ & _ & _ & Hread & Hwrite & _).
  cbn [set_wallets_credentials Wallets Network Credentials CoordinatorEnabled DefaultConfirmations
       MaxConfirmations BroadcastTimeout HTTPWriteTimeout HTTPReadHeaderTimeout HTTPReadTimeout
       NodeRPCPassword ScannerToken StateDSN InstallationStatePath CoordinatorMaxOutputs
       CoordinatorExpiryOffset CoordinatorMaxAmountZat].
  bool_to_prop. split_and!; try done; try lia.
  - intros Hen. unfold coordinator_checks in Hc. rewrite Hen in Hc.
    rewrite !Forall_cons in Hc. cbn in Hc.
    destruct Hc as (_ & _ & _ & _ & _ & _ & Hout & Ham & _). bool_to_prop.
    split_and!; try lia. destruct (Hcoord Hen) as (cr & s & ? & ? & Hs).
    exists cr, s. split_and!; try done.
    by apply orb_true_iff in Hs as [->%String.eqb_eq| ->%String.eqb_eq]; [left|right].
  - intros Hnet. unfold production_checks in Hp. rewrite decide_False in Hp by done.
    rewrite !Forall_cons in Hp. cbn in Hp.
    destruct Hp as (Hcr & _ & _ & _ & Hlen & Hdist & He1 & He2 & _). bool_to_prop.
    split_and!; try done; try lia. intros Hnil. by rewrite Hnil in Hcr.
Qed.

(** * A concrete configuration *)

Definition demo_url_Parse (s : string) : option URL :=
  if HasPrefix s "http://" then Some {| Scheme := "http"; Host := drop_string 7 s; url_Path := ""; Opaque := "" |}
  else if HasPrefix s "file:" then Some {| Scheme := "file"; Host := ""; url_Path := drop_string 5 s; Opaque := "" |}
  else Some {| Scheme := ""; Host := ""; url_Path := s; Opaque := "" |}.

Definition demo_rate : RateLimit := {| RPS := S754_finite false 5 0; Burst := 10 |}.

Definition demo_wallet (id key : string) : Wallet :=
  {| WalletID := id; UFVK := key; BirthdayHeight := 100; Account := 0 |}.

Definition demo_credential : Credential :=
  {| Name := " treasury-bot "; Token := "a-long-enough-bearer-token"; TokenSHA256 := "";
     Scopes := ["read"; "address"; "broadcast"; "withdrawal"; "treasury"; "plan"]; cr_Wallets := ["hot"]; TokenHash := "" |}.

Definition demo_config : Config :=
  {| Network := Mainnet; ListenAddress := "127.0.0.1:8080"; StateDSN := "file:/var/lib/gw/state.db";
     InstallationStatePath := "/var/lib/gw/installation.json"; NodeRPCURL := "http://node:8232";
     NodeRPCUser := "rpc"; NodeRPCPassword := "node-password-of-32-characters-x";
     ScannerURL := "http://scanner:9000"; ScannerToken := "scanner-token-of-32-characters-xx";
     AddrgenPath := "/usr/bin/juno-addrgen";
     Wallets := [demo_wallet " hot" (UFVKHRP Mainnet +:+ "1abc");
                 demo_wallet "cold" (UFVKHRP Mainnet +:+ "1xyz ")];
     Credentials := [demo_credential];
     DefaultConfirmations := 10; MaxConfirmations := 100; MaxScannerLag := 2;
     RequireCompleteHistory := true; JSONBodyBytes := 65536; BroadcastBodyBytes := 4194304;
     ReadTimeout := 10 * second; BroadcastTimeout := 30 * second; UpstreamTimeout := 10 * second;
     ShutdownTimeout := 10 * second; HTTPReadHeaderTimeout := 5 * second; HTTPReadTimeout := 15 * second;
     HTTPWriteTimeout := 45 * second; HTTPIdleTimeout := 60 * second;
     ReadRate := demo_rate; BroadcastRate := demo_rate; TrustProxyHeaders := false;
     IdempotencyLease := 30 * second; BackfillBatchSize := 1000; BackfillYield := second;
     BackfillTimeout := 60 * second; WalletEffectsMaxEvents := 10000; NoteSummaryMaxNotes := 100000;
     CoordinatorEnabled := true; CoordinatorListenAddress := "127.0.0.1:8081";
     CoordinatorTxbuildPath := "/usr/bin/juno-txbuild"; CoordinatorSignerSocket := "/run/signer.sock";
     CoordinatorWorkDir := "/var/lib/gw/work"; CoordinatorPlanTimeout := 30 * second;
     CoordinatorSignTimeout := 60 * second; CoordinatorMaxBodyBytes := 65536; CoordinatorMaxOutputs := 199;
     CoordinatorMaxAmountZat := 2100000000000000; CoordinatorExpiryOffset := 40;
     CoordinatorFeeMultiplier := 1; CoordinatorFeeAddZat := 0; CoordinatorMinNoteZat := 0;
     CoordinatorMinChangeZat := 10000; CoordinatorMaxReplans := 3; CoordinatorTargetNotes := 32;
     CoordinatorChangeSplitMax := 8; CoordinatorSplitMinNoteZat := 1000000; CoordinatorRate := demo_rate |}.

Definition validated (r : result Config) : bool := match r with Ok _ => true | Err _ => false end.

Lemma Validate_guarantees_witness :
  exists c', Validate demo_url_Parse demo_config = Ok c' /\ Wallets c' <> [] /\
    wallets_ok (Network c') (Wallets c').
Proof.
  assert (Hv : validated (Validate demo_url_Parse demo_config) = true) by (vm_compute; reflexivity).
  destruct (Validate demo_url_Parse demo_config) as [c'|] eqn:H; [|discriminate Hv].
  exists c'. destruct (Validate_guarantees _ _ _ H) as (_ & H1 & H2 & _). exact (conj eq_refl (conj H1 H2)).
Defined.
