(* ===== verification/Strconv.v ===== *)
(** The values of environment variables: [strconv.ParseBool], [strconv.ParseFloat]
    in full (JSON numbers are a part of what it reads, see [Float]) and
    [time.ParseDuration].  [None] is the error, whichever it is. *)
From Stdlib Require Import SpecFloat.
From S2P Require Import Prelude GoString GoTime Float.

Definition ParseBool (s : string) : option bool :=
  if existsb (String.eqb s) ["1"; "t"; "T"; "true"; "TRUE"; "True"]%string then Some true
  else if existsb (String.eqb s) ["0"; "f"; "F"; "false"; "FALSE"; "False"]%string then Some false
  else None.

(** * strconv.ParseFloat *)

Definition digit_of (hex : bool) (c : ascii) : option Z :=
  if is_digit c then Some (code c - 48)
  else if hex && is_hex c then Some (code (lower_byte c) - 87) else None.

(** The mantissa: its digits as a number, how many of them follow the point,
    whether there are any, and the rest. *)
Fixpoint mantissa (hex dot : bool) (m fraction : Z) (digits : bool) (l : bytes) : Z * Z * bool * bytes :=
  match l with
  | [] => (m, fraction, digits, l)
  | c :: l' =>
      if Ascii.eqb c "_" then mantissa hex dot m fraction digits l'
      else if Ascii.eqb c "." then if dot then (m, fraction, digits, l) else mantissa hex true m fraction digits l'
      else match digit_of hex c with
           | Some d => mantissa hex dot ((if hex then 16 else 10) * m + d) (if dot then fraction + 1 else fraction) true l'
           | None => (m, fraction, digits, l)
           end
  end.

(** The digits of an exponent, which stops growing at five of them. *)
Fixpoint exponent_digits (e : Z) (l : bytes) : Z * bytes :=
  match l with
  | [] => (e, l)
  | c :: l' =>
      if Ascii.eqb c "_" then exponent_digits e l'
      else if is_digit c then exponent_digits (if e <? 10000 then 10 * e + (code c - 48) else e) l'
      else (e, l)
  end.

(** The exponent, and the rest; [None] when it has no digits. A hexadecimal
    mantissa needs one. *)
Definition scan_exponent (hex : bool) (l : bytes) : option (Z * bytes) :=
  match l with
  | c :: l' =>
      if Ascii.eqb (lower_byte c) (if hex then "p" else "e") then
        let '(negative, l'') := match l' with
                                | "+"%char :: l'' => (false, l'')
                                | "-"%char :: l'' => (true, l'')
                                | _ => (false, l')
                                end in
        match l'' with
        | d :: _ => if is_digit d then let '(e, rest) := exponent_digits 0 l'' in Some (if (negative : bool) then - e else e, rest)
                    else None
        | [] => None
        end
      else if hex then None else Some (0, l)
  | [] => if hex then None else Some (0, l)
  end.

Inductive saw : Type := saw_start | saw_digit | saw_underscore | saw_other.

(** [underscoreOK], after the sign: an underscore stands between digits. *)
Fixpoint underscores (hex : bool) (s : saw) (l : bytes) : bool :=
  match l with
  | [] => match s with saw_underscore => false | _ => true end
  | c :: l' =>
      if is_digit c || hex && is_hex c then underscores hex saw_digit l'
      else if Ascii.eqb c "_" then match s with saw_digit => underscores hex saw_underscore l' | _ => false end
      else match s with saw_underscore => false | _ => underscores hex saw_other l' end
  end.
Definition underscoreOK (l : bytes) : bool :=
  match l with
  | "0"%char :: b :: l' =>
      let b := lower_byte b in
      if Ascii.eqb b "b" || Ascii.eqb b "o" || Ascii.eqb b "x" then underscores (Ascii.eqb b "x") saw_digit l'
      else underscores false saw_start l
  | _ => underscores false saw_start l
  end.

(** [m * 2^e], rounded; [None] is out of range. *)
Definition of_binary (m e : Z) : option spec_float :=
  match m with
  | Zpos _ => if 3000 <? Z.log2 m + e then None
              else if Z.log2 m + e <? -3000 then Some (S754_zero false)
              else match binary_normalize 53 1024 m e false with S754_infinity _ => None | f => Some f end
  | _ => Some (S754_zero false)
  end.

(** How many decimal digits [m] has, at most one too many. *)
Definition decimal_digits (m : Z) : Z := Z.log2 m * 30103 / 100000 + 1.

Definition signed (negative : bool) (f : spec_float) : spec_float := if negative then SFopp f else f.

Definition ParseFloat (s : string) : option spec_float :=
  let '(negative, has_sign, l) :=
    match to_bytes s with
    | "+"%char :: l => (false, true, l)
    | "-"%char :: l => (true, true, l)
    | l => (false, false, l)
    end in
  let word := of_bytes (map lower_byte l) in
  if String.eqb word "inf" || String.eqb word "infinity" then Some (S754_infinity negative)
  else if String.eqb word "nan" && negb has_sign then Some S754_nan
  else
    let '(hex, body) := match l with
                        | "0"%char :: x :: c :: rest => if Ascii.eqb (lower_byte x) "x" then (true, c :: rest) else (false, l)
                        | _ => (false, l)
                        end in
    let '(m, fraction, digits, rest) := mantissa hex false 0 0 false body in
    if negb digits then None
    else
      '(e, rest) ← scan_exponent hex rest;
      if negb (Nat.eqb (length rest) 0) || negb (underscoreOK l) then None
      else f ← (if hex then of_binary m (e - 4 * fraction) else of_decimal m (decimal_digits m) (e - fraction));
           Some (signed negative f).

Example ParseFloat_text_examples :
  map ParseFloat ["50"; "+2.5"; ".5"; "-1e1"; "Inf"; "-infinity"; "nan"; "+nan"; "1_0"; "_1"; "0x1p-1"; "0x1"; ""; "1e"; "1e400"]%string =
  [Some (S754_finite false 7036874417766400 (-47)); Some (S754_finite false 5629499534213120 (-51));
   Some (S754_finite false 4503599627370496 (-53)); Some (S754_finite true 5629499534213120 (-49));
   Some (S754_infinity false); Some (S754_infinity true); Some S754_nan; None;
   Some (S754_finite false 5629499534213120 (-49)); None; Some (S754_finite false 4503599627370496 (-53));
   None; None; None; None].
Proof. vm_compute. reflexivity. Qed.

(** * time.ParseDuration *)

Definition microsecond : Z := 1000.
Definition millisecond : Z := 1000000.

(** The micro sign and the Greek letter, in UTF-8. *)
Definition micro_sign : string := of_bytes [ascii_of_N 194; ascii_of_N 181; "s"%char].
Definition greek_mu : string := of_bytes [ascii_of_N 206; ascii_of_N 188; "s"%char].

Definition unitMap (u : string) : option Z :=
  if String.eqb u "ns" then Some 1
  else if String.eqb u "us" || String.eqb u micro_sign || String.eqb u greek_mu then Some microsecond
  else if String.eqb u "ms" then Some millisecond
  else if String.eqb u "s" then Some second
  else if String.eqb u "m" then Some (60 * second)
  else if String.eqb u "h" then Some (3600 * second)
  else None.

(** [None] is an overflow. *)
Fixpoint leadingInt (x : Z) (l : bytes) : option (Z * bytes) :=
  match l with
  | c :: l' =>
      if is_digit c then
        if 2 ^ 63 / 10 <? x then None
        else let x := 10 * x + (code c - 48) in if 2 ^ 63 <? x then None else leadingInt x l'
      else Some (x, l)
  | [] => Some (x, l)
  end.

Fixpoint leadingFraction (x scale : Z) (overflow : bool) (l : bytes) : Z * Z * bytes :=
  match l with
  | c :: l' =>
      if is_digit c then
        if overflow || ((2 ^ 63 - 1) / 10 <? x) then leadingFraction x scale true l'
        else let y := 10 * x + (code c - 48) in
             if 2 ^ 63 <? y then leadingFraction x scale true l' else leadingFraction y (10 * scale) false l'
      else (x, scale, l)
  | [] => (x, scale, l)
  end.

Fixpoint unit_name (l : bytes) : bytes * bytes :=
  match l with
  | c :: l' => if Ascii.eqb c "." || is_digit c then ([], l) else let '(u, rest) := unit_name l' in (c :: u, rest)
  | [] => ([], [])
  end.

(** [uint64] of a float64. *)
Definition truncate (f : spec_float) : Z :=
  match f with
  | S754_finite false m e => if 0 <=? e then Z.pos m * 2 ^ e else Z.pos m / 2 ^ (- e)
  | _ => 0
  end.
Definition fraction_of (f unit scale : Z) : Z :=
  let float z := binary_normalize 53 1024 z 0 false in
  truncate (SFmul 53 1024 (float f) (SFdiv 53 1024 (float unit) (float scale))).

(** The loop over the terms; each of them takes at least a byte. *)
Fixpoint terms (fuel : nat) (d : Z) (l : bytes) : option Z :=
  match l, fuel with
  | [], _ => Some d
  | _, O => None
  | c :: _, S fuel =>
      if negb (Ascii.eqb c "." || is_digit c) then None
      else
        '(v, rest) ← leadingInt 0 l;
        let pre := negb (Nat.eqb (length rest) (length l)) in
        let '(f, scale, post, rest) :=
          match rest with
          | "."%char :: rest' => let '(f, scale, rest'') := leadingFraction 0 1 false rest' in
                                 (f, scale, negb (Nat.eqb (length rest'') (length rest')), rest'')
          | _ => (0, 1, false, rest)
          end in
        if negb pre && negb post then None
        else
          let '(u, rest) := unit_name rest in
          unit ← unitMap (of_bytes u);
          if 2 ^ 63 / unit <? v then None
          else
            let v := if 0 <? f then v * unit + fraction_of f unit scale else v * unit in
            if 2 ^ 63 <? v then None
            else let d := wrapu64 (d + v) in if 2 ^ 63 <? d then None else terms fuel d rest
  end.

Definition ParseDuration (s : string) : option Z :=
  let '(negative, l) := match to_bytes s with
                        | "-"%char :: l => (true, l)
                        | "+"%char :: l => (false, l)
                        | l => (false, l)
                        end in
  if String.eqb (of_bytes l) "0" then Some 0
  else match l with
       | [] => None
       | _ => d ← terms (length l) 0 l;
              if (negative : bool) then Some (- d) else if 2 ^ 63 - 1 <? d then None else Some d
       end.

Example ParseDuration_examples :
  map ParseDuration ["15s"; "250ms"; "1h30m"; "1.5h"; "-2m"; "0"; "10"; ""; ".s"; "9223372036s"; "9223372037s"; "0.1us"]%string =
  [Some (15 * second); Some (250 * millisecond); Some (5400 * second); Some (5400 * second); Some (- (120 * second));
   Some 0; None; None; None; Some 9223372036000000000; None; Some 100].
Proof. vm_compute. reflexivity. Qed.

Lemma leadingInt_bounds x l v rest : 0 <= x <= 2 ^ 63 -> leadingInt x l = Some (v, rest) -> 0 <= v <= 2 ^ 63.
Proof.
  revert x. induction l as [|c l IH]; intros x Hx; cbn [leadingInt]; [by intros [= <- _]|].
  destruct (is_digit c) eqn:Hc; [|by intros [= <- _]].
  destruct (_ <? x); [done|]. destruct (Z.ltb_spec (2 ^ 63) (10 * x + (code c - 48))); [done|].
  apply IH. unfold is_digit, in_range in Hc. bool_to_prop. lia.
Qed.

(** A duration that is read is a [time.Duration]. *)
Lemma terms_bounds fuel d l v : 0 <= d <= 2 ^ 63 -> terms fuel d l = Some v -> 0 <= v <= 2 ^ 63.
Proof.
  revert d l. induction fuel as [|fuel IH]; intros d l Hd H; destruct l as [|c l]; cbn [terms] in H; [|done| |];
    [by injection H as <-..|].
  repeat (case_match; try discriminate H). apply bind_Some in H as ([x rest] & _ & H).
  repeat (case_match; try discriminate H); apply bind_Some in H as (unit & _ & H);
    repeat (case_match; try discriminate H); apply IH in H; try done; unfold wrapu64 in *; bool_to_prop;
    match goal with |- context [?a mod ?b] => pose proof (Z.mod_pos_bound a b) end; lia.
Qed.

Lemma ParseDuration_int64 s d : ParseDuration s = Some d -> int64 d.
Proof.
  unfold ParseDuration. destruct (match to_bytes s with [] => _ | _ => _ end) as [negative l].
  destruct (String.eqb _ _); [intros [= <-]; width; lia|]. destruct l as [|c l]; [done|].
  intros (v & Hv & H)%bind_Some. apply terms_bounds in Hv; [|lia].
  destruct negative; [injection H as <-; width; lia|]. case_match; [done|]. bool_to_prop. injection H as <-. width. lia.
Qed.
