(* ===== verification/Environ.v ===== *)
(** Reading the configuration, [config.Load] of [internal/config/config.go]: the
    environment and the two files.

    [getenv] is [os.Getenv]; [open_file] is opening a file without following a
    symbolic link and asking for its status, and [parse_url] is [url.Parse]. *)
From Stdlib Require Import SpecFloat.
From S2P Require Import Prelude GoString GoTime Json Domain Config Strconv.

Definition defaultJSONBodyBytes : Z := 2 ^ 20.
Definition defaultBroadcastBodyBytes : Z := 4 * 2 ^ 20.

(** * The files *)

Record file := { regular : bool; permissions : Z; file_size : Z; content : string }.

Definition fileLimit : Z := 2 ^ 20.

(** [%04o], for at most four digits. *)
Fixpoint octal (n : nat) (z : Z) : string :=
  match n with O => "" | S n => octal n (z / 8) +:+ pretty (z mod 8) end.

(** [into] decodes into the struct; the text of a decoder's own error is not
    modelled. *)
Definition readJSONFile {A} (open_file : string -> result file) (path : string) (into : json -> option A) : result A :=
  f ← open_file path;
  if negb (regular f) then Err (New "file must be a regular file, not a symlink")
  else if negb (Z.land (permissions f) 63 =? 0) then Err (New ("file permissions " +:+ octal 4 (permissions f) +:+ " are too broad; require 0600"))
  else if fileLimit <? file_size f then Err (New "file exceeds the 1 MiB limit")
  else match next_value (take (Z.to_nat fileLimit) (to_bytes (content f))) with
       | None => Err (New "invalid JSON")
       | Some (j, rest) =>
           match into j with
           | None => Err (New "invalid JSON")
           | Some v => if forallb isSpace rest then Ok v else Err (New "file must contain one JSON object")
           end
       end.

Definition no_wallet : Wallet := {| WalletID := ""; UFVK := ""; BirthdayHeight := 0; Account := 0 |}.
Definition into_wallet (j : json) (w : Wallet) : option Wallet :=
  ms ← fields_of true ["wallet_id"; "ufvk"; "birthday_height"; "account"]%string j;
  id ← decode_field "wallet_id" into_string (WalletID w) ms;
  ufvk ← decode_field "ufvk" into_string (UFVK w) ms;
  birthday ← decode_field "birthday_height" into_int64 (BirthdayHeight w) ms;
  account ← decode_field "account" into_uint32 (Account w) ms;
  Some {| WalletID := id; UFVK := ufvk; BirthdayHeight := birthday; Account := account |}.

(** [WalletFile]. *)
Definition into_wallet_file (j : json) : option (list Wallet) :=
  ms ← fields_of true ["wallets"]%string j; decode_field "wallets" (into_slice into_wallet no_wallet) [] ms.

Definition no_hash : string := of_bytes (repeat (ascii_of_N 0) 32).
Definition no_credential : Credential :=
  {| Name := ""; Token := ""; TokenSHA256 := ""; Scopes := []; cr_Wallets := []; TokenHash := no_hash |}.
Definition into_credential (j : json) (c : Credential) : option Credential :=
  ms ← fields_of true ["name"; "token"; "token_sha256"; "scopes"; "wallets"]%string j;
  name ← decode_field "name" into_string (Name c) ms;
  token ← decode_field "token" into_string (Token c) ms;
  hash ← decode_field "token_sha256" into_string (TokenSHA256 c) ms;
  scopes ← decode_field "scopes" (into_slice into_string ""%string) (Scopes c) ms;
  wallets ← decode_field "wallets" (into_slice into_string ""%string) (cr_Wallets c) ms;
  Some {| Name := name; Token := token; TokenSHA256 := hash; Scopes := scopes; cr_Wallets := wallets;
          TokenHash := TokenHash c |}.

(** [CredentialFile]. *)
Definition into_credential_file (j : json) : option (list Credential) :=
  ms ← fields_of true ["credentials"]%string j;
  decode_field "credentials" (into_slice into_credential no_credential) [] ms.

(** * The environment *)

Definition integer_keys : list string :=
  [ "JUNO_GATEWAY_DEFAULT_CONFIRMATIONS"; "JUNO_GATEWAY_MAX_CONFIRMATIONS"; "JUNO_GATEWAY_MAX_SCANNER_LAG";
    "JUNO_GATEWAY_MAX_JSON_BODY_BYTES"; "JUNO_GATEWAY_MAX_BROADCAST_BODY_BYTES";
    "JUNO_GATEWAY_READ_RATE_BURST"; "JUNO_GATEWAY_BROADCAST_RATE_BURST"; "JUNO_GATEWAY_BACKFILL_BATCH_SIZE";
    "JUNO_GATEWAY_WALLET_EFFECTS_MAX_EVENTS"; "JUNO_GATEWAY_NOTE_SUMMARY_MAX_NOTES";
    "JUNO_COORDINATOR_MAX_BODY_BYTES"; "JUNO_COORDINATOR_MAX_OUTPUTS"; "JUNO_COORDINATOR_MAX_AMOUNT_ZAT";
    "JUNO_COORDINATOR_EXPIRY_OFFSET"; "JUNO_COORDINATOR_FEE_MULTIPLIER"; "JUNO_COORDINATOR_FEE_ADD_ZAT";
    "JUNO_COORDINATOR_MIN_NOTE_ZAT"; "JUNO_COORDINATOR_MIN_CHANGE_ZAT"; "JUNO_COORDINATOR_MAX_REPLANS";
    "JUNO_COORDINATOR_RATE_BURST"; "JUNO_COORDINATOR_TARGET_NOTES"; "JUNO_COORDINATOR_CHANGE_SPLIT_MAX";
    "JUNO_COORDINATOR_SPLIT_MIN_NOTE_ZAT" ]%string.
Definition number_keys : list string :=
  [ "JUNO_GATEWAY_READ_RATE_RPS"; "JUNO_GATEWAY_BROADCAST_RATE_RPS"; "JUNO_COORDINATOR_RATE_RPS" ]%string.
Definition switch_keys : list string :=
  [ "JUNO_GATEWAY_REQUIRE_COMPLETE_HISTORY"; "JUNO_GATEWAY_TRUST_PROXY_HEADERS"; "JUNO_COORDINATOR_ENABLED" ]%string.
Definition duration_keys : list string :=
  [ "JUNO_GATEWAY_READ_TIMEOUT"; "JUNO_GATEWAY_BROADCAST_TIMEOUT"; "JUNO_GATEWAY_UPSTREAM_TIMEOUT";
    "JUNO_GATEWAY_SHUTDOWN_TIMEOUT"; "JUNO_GATEWAY_HTTP_READ_HEADER_TIMEOUT"; "JUNO_GATEWAY_HTTP_READ_TIMEOUT";
    "JUNO_GATEWAY_HTTP_WRITE_TIMEOUT"; "JUNO_GATEWAY_HTTP_IDLE_TIMEOUT"; "JUNO_GATEWAY_IDEMPOTENCY_LEASE";
    "JUNO_GATEWAY_BACKFILL_YIELD"; "JUNO_GATEWAY_BACKFILL_TIMEOUT"; "JUNO_COORDINATOR_PLAN_TIMEOUT";
    "JUNO_COORDINATOR_SIGN_TIMEOUT" ]%string.

Definition float64_of (z : Z) : spec_float := binary_normalize 53 1024 z 0 false.

Section load.
Context (getenv : string -> string) (open_file : string -> result file) (parse_url : string -> option URL).

(** One of the loops of [validateEnvironment]. *)
Fixpoint check_keys {A} (parse : string -> option A) (what : string) (keys : list string) : result unit :=
  match keys with
  | [] => Ok tt
  | key :: rest =>
      let value := getenv key in
      if negb (String.eqb value "") && bool_decide (parse value = None) then Err (New (key +:+ " must be " +:+ what))
      else check_keys parse what rest
  end.

Definition validateEnvironment : result unit :=
  _ ← check_keys ParseInt "an integer" integer_keys;
  _ ← check_keys ParseFloat "a number" number_keys;
  _ ← check_keys ParseBool "true or false" switch_keys;
  check_keys ParseDuration "a duration" duration_keys.

Definition env (k d : string) : string := let v := TrimSpace (getenv k) in if String.eqb v "" then d else v.

(** [envInt64], [envInt], [envFloat], [envBool] and [envDuration]: the value of the
    variable, or the default when it is not set or cannot be parsed. *)
Definition env_value {A} (parse : string -> option A) (k : string) (d : A) : A :=
  let v := getenv k in if String.eqb v "" then d else default d (parse v).
Definition envInt64 : string -> Z -> Z := env_value ParseInt.
Definition envInt : string -> Z -> Z := envInt64.
Definition envFloat : string -> spec_float -> spec_float := env_value ParseFloat.
Definition envBool : string -> bool -> bool := env_value ParseBool.
Definition envDuration : string -> Z -> Z := env_value ParseDuration.

(** The literal of [Load]. *)
Definition settings (network : Domain.Network) : Config :=
  {| Network := network;
     ListenAddress := env "JUNO_GATEWAY_LISTEN" ":8080";
     StateDSN := env "JUNO_GATEWAY_STATE_DSN"
       "file:/var/lib/juno-gateway/gateway.db?_pragma=busy_timeout(5000)&_pragma=journal_mode(WAL)&_pragma=foreign_keys(ON)";
     InstallationStatePath := env "JUNO_GATEWAY_INSTALLATION_STATE" "/var/lib/juno-installation/manifest.json";
     NodeRPCURL := env "JUNO_GATEWAY_NODE_RPC_URL" "http://junocashd:8232";
     NodeRPCUser := getenv "JUNO_GATEWAY_NODE_RPC_USER";
     NodeRPCPassword := getenv "JUNO_GATEWAY_NODE_RPC_PASSWORD";
     ScannerURL := env "JUNO_GATEWAY_SCANNER_URL" "http://juno-scan:8080";
     ScannerToken := getenv "JUNO_GATEWAY_SCANNER_TOKEN";
     AddrgenPath := env "JUNO_GATEWAY_ADDRGEN_PATH" "/usr/local/bin/juno-addrgen";
     Wallets := [];
     Credentials := [];
     DefaultConfirmations := envInt64 "JUNO_GATEWAY_DEFAULT_CONFIRMATIONS" 100;
     MaxConfirmations := envInt64 "JUNO_GATEWAY_MAX_CONFIRMATIONS" 10000;
     MaxScannerLag := envInt64 "JUNO_GATEWAY_MAX_SCANNER_LAG" 2;
     RequireCompleteHistory := envBool "JUNO_GATEWAY_REQUIRE_COMPLETE_HISTORY" true;
     JSONBodyBytes := envInt64 "JUNO_GATEWAY_MAX_JSON_BODY_BYTES" defaultJSONBodyBytes;
     BroadcastBodyBytes := envInt64 "JUNO_GATEWAY_MAX_BROADCAST_BODY_BYTES" defaultBroadcastBodyBytes;
     ReadTimeout := envDuration "JUNO_GATEWAY_READ_TIMEOUT" (15 * second);
     BroadcastTimeout := envDuration "JUNO_GATEWAY_BROADCAST_TIMEOUT" (30 * second);
     UpstreamTimeout := envDuration "JUNO_GATEWAY_UPSTREAM_TIMEOUT" (10 * second);
     ShutdownTimeout := envDuration "JUNO_GATEWAY_SHUTDOWN_TIMEOUT" (15 * second);
     HTTPReadHeaderTimeout := envDuration "JUNO_GATEWAY_HTTP_READ_HEADER_TIMEOUT" (5 * second);
     HTTPReadTimeout := envDuration "JUNO_GATEWAY_HTTP_READ_TIMEOUT" (30 * second);
     HTTPWriteTimeout := envDuration "JUNO_GATEWAY_HTTP_WRITE_TIMEOUT" (45 * second);
     HTTPIdleTimeout := envDuration "JUNO_GATEWAY_HTTP_IDLE_TIMEOUT" (60 * second);
     ReadRate := {| RPS := envFloat "JUNO_GATEWAY_READ_RATE_RPS" (float64_of 50);
                    Burst := envInt "JUNO_GATEWAY_READ_RATE_BURST" 100 |};
     BroadcastRate := {| RPS := envFloat "JUNO_GATEWAY_BROADCAST_RATE_RPS" (float64_of 2);
                    Burst := envInt "JUNO_GATEWAY_BROADCAST_RATE_BURST" 5 |};
     TrustProxyHeaders := envBool "JUNO_GATEWAY_TRUST_PROXY_HEADERS" false;
     IdempotencyLease := envDuration "JUNO_GATEWAY_IDEMPOTENCY_LEASE" (30 * second);
     BackfillBatchSize := envInt64 "JUNO_GATEWAY_BACKFILL_BATCH_SIZE" 10000;
     BackfillYield := envDuration "JUNO_GATEWAY_BACKFILL_YIELD" (250 * millisecond);
     BackfillTimeout := envDuration "JUNO_GATEWAY_BACKFILL_TIMEOUT" (10 * minute);
     WalletEffectsMaxEvents := envInt "JUNO_GATEWAY_WALLET_EFFECTS_MAX_EVENTS" 10000;
     NoteSummaryMaxNotes := envInt "JUNO_GATEWAY_NOTE_SUMMARY_MAX_NOTES" 100000;
     CoordinatorEnabled := envBool "JUNO_COORDINATOR_ENABLED" false;
     CoordinatorListenAddress := env "JUNO_COORDINATOR_LISTEN" "127.0.0.1:8081";
     CoordinatorTxbuildPath := env "JUNO_COORDINATOR_TXBUILD_PATH" "/usr/local/bin/juno-txbuild";
     CoordinatorSignerSocket := env "JUNO_COORDINATOR_SIGNER_SOCKET" "/run/juno-signer/signer.sock";
     CoordinatorWorkDir := env "JUNO_COORDINATOR_WORK_DIR" "/var/lib/juno-gateway/coordinator-work";
     CoordinatorPlanTimeout := envDuration "JUNO_COORDINATOR_PLAN_TIMEOUT" (2 * minute);
     CoordinatorSignTimeout := envDuration "JUNO_COORDINATOR_SIGN_TIMEOUT" (10 * minute);
     CoordinatorMaxBodyBytes := envInt64 "JUNO_COORDINATOR_MAX_BODY_BYTES" defaultJSONBodyBytes;
     CoordinatorMaxOutputs := envInt "JUNO_COORDINATOR_MAX_OUTPUTS" 199;
     CoordinatorMaxAmountZat := envInt64 "JUNO_COORDINATOR_MAX_AMOUNT_ZAT" 2100000000000000;
     CoordinatorExpiryOffset := envInt64 "JUNO_COORDINATOR_EXPIRY_OFFSET" 40;
     CoordinatorFeeMultiplier := envInt64 "JUNO_COORDINATOR_FEE_MULTIPLIER" 20;
     CoordinatorFeeAddZat := envInt64 "JUNO_COORDINATOR_FEE_ADD_ZAT" 0;
     CoordinatorMinNoteZat := envInt64 "JUNO_COORDINATOR_MIN_NOTE_ZAT" 0;
     CoordinatorMinChangeZat := envInt64 "JUNO_COORDINATOR_MIN_CHANGE_ZAT" 0;
     CoordinatorMaxReplans := envInt "JUNO_COORDINATOR_MAX_REPLANS" 3;
     CoordinatorTargetNotes := envInt "JUNO_COORDINATOR_TARGET_NOTES" 0;
     CoordinatorChangeSplitMax := envInt "JUNO_COORDINATOR_CHANGE_SPLIT_MAX" 8;
     CoordinatorSplitMinNoteZat := envInt64 "JUNO_COORDINATOR_SPLIT_MIN_NOTE_ZAT" 0;
     CoordinatorRate := {| RPS := envFloat "JUNO_COORDINATOR_RATE_RPS" (float64_of 5);
                    Burst := envInt "JUNO_COORDINATOR_RATE_BURST" 10 |} |}.

(** What the file that a variable names gives; nothing when it is blank. *)
Definition load_file {A} (key what : string) (into : json -> option (list A)) : result (list A) :=
  let path := TrimSpace (getenv key) in
  if String.eqb path "" then Ok [] else map_err (Wrap what) (readJSONFile open_file path into).

Definition Load : result Config :=
  _ ← validateEnvironment;
  network ← ParseNetwork (env "JUNO_GATEWAY_NETWORK" "regtest");
  ws ← load_file "JUNO_GATEWAY_WALLETS_FILE" "wallets file" into_wallet_file;
  crs ← load_file "JUNO_GATEWAY_AUTH_FILE" "auth file" into_credential_file;
  Validate parse_url (set_wallets_credentials (settings network) ws crs).

(** * What a loaded configuration is made of *)

(** The settings: variable, default, field. *)
Definition integers : list (string * Z * (Config -> Z)) :=
  [ ("JUNO_GATEWAY_DEFAULT_CONFIRMATIONS", 100, DefaultConfirmations);
    ("JUNO_GATEWAY_MAX_CONFIRMATIONS", 10000, MaxConfirmations);
    ("JUNO_GATEWAY_MAX_SCANNER_LAG", 2, MaxScannerLag);
    ("JUNO_GATEWAY_MAX_JSON_BODY_BYTES", defaultJSONBodyBytes, JSONBodyBytes);
    ("JUNO_GATEWAY_MAX_BROADCAST_BODY_BYTES", defaultBroadcastBodyBytes, BroadcastBodyBytes);
    ("JUNO_GATEWAY_READ_RATE_BURST", 100, (fun c => Burst (ReadRate c)));
    ("JUNO_GATEWAY_BROADCAST_RATE_BURST", 5, (fun c => Burst (BroadcastRate c)));
    ("JUNO_GATEWAY_BACKFILL_BATCH_SIZE", 10000, BackfillBatchSize);
    ("JUNO_GATEWAY_WALLET_EFFECTS_MAX_EVENTS", 10000, WalletEffectsMaxEvents);
    ("JUNO_GATEWAY_NOTE_SUMMARY_MAX_NOTES", 100000, NoteSummaryMaxNotes);
    ("JUNO_COORDINATOR_MAX_BODY_BYTES", defaultJSONBodyBytes, CoordinatorMaxBodyBytes);
    ("JUNO_COORDINATOR_MAX_OUTPUTS", 199, CoordinatorMaxOutputs);
    ("JUNO_COORDINATOR_MAX_AMOUNT_ZAT", 2100000000000000, CoordinatorMaxAmountZat);
    ("JUNO_COORDINATOR_EXPIRY_OFFSET", 40, CoordinatorExpiryOffset);
    ("JUNO_COORDINATOR_FEE_MULTIPLIER", 20, CoordinatorFeeMultiplier);
    ("JUNO_COORDINATOR_FEE_ADD_ZAT", 0, CoordinatorFeeAddZat);
    ("JUNO_COORDINATOR_MIN_NOTE_ZAT", 0, CoordinatorMinNoteZat);
    ("JUNO_COORDINATOR_MIN_CHANGE_ZAT", 0, CoordinatorMinChangeZat);
    ("JUNO_COORDINATOR_MAX_REPLANS", 3, CoordinatorMaxReplans);
    ("JUNO_COORDINATOR_TARGET_NOTES", 0, CoordinatorTargetNotes);
    ("JUNO_COORDINATOR_CHANGE_SPLIT_MAX", 8, CoordinatorChangeSplitMax);
    ("JUNO_COORDINATOR_SPLIT_MIN_NOTE_ZAT", 0, CoordinatorSplitMinNoteZat);
    ("JUNO_COORDINATOR_RATE_BURST", 10, (fun c => Burst (CoordinatorRate c))) ]%string.
Definition numbers : list (string * spec_float * (Config -> spec_float)) :=
  [ ("JUNO_GATEWAY_READ_RATE_RPS", float64_of 50, (fun c => RPS (ReadRate c)));
    ("JUNO_GATEWAY_BROADCAST_RATE_RPS", float64_of 2, (fun c => RPS (BroadcastRate c)));
    ("JUNO_COORDINATOR_RATE_RPS", float64_of 5, (fun c => RPS (CoordinatorRate c))) ]%string.
Definition switches : list (string * bool * (Config -> bool)) :=
  [ ("JUNO_GATEWAY_REQUIRE_COMPLETE_HISTORY", true, RequireCompleteHistory);
    ("JUNO_GATEWAY_TRUST_PROXY_HEADERS", false, TrustProxyHeaders);
    ("JUNO_COORDINATOR_ENABLED", false, CoordinatorEnabled) ]%string.
Definition durations : list (string * Z * (Config -> Z)) :=
  [ ("JUNO_GATEWAY_READ_TIMEOUT", (15 * second), ReadTimeout);
    ("JUNO_GATEWAY_BROADCAST_TIMEOUT", (30 * second), BroadcastTimeout);
    ("JUNO_GATEWAY_UPSTREAM_TIMEOUT", (10 * second), UpstreamTimeout);
    ("JUNO_GATEWAY_SHUTDOWN_TIMEOUT", (15 * second), ShutdownTimeout);
    ("JUNO_GATEWAY_HTTP_READ_HEADER_TIMEOUT", (5 * second), HTTPReadHeaderTimeout);
    ("JUNO_GATEWAY_HTTP_READ_TIMEOUT", (30 * second), HTTPReadTimeout);
    ("JUNO_GATEWAY_HTTP_WRITE_TIMEOUT", (45 * second), HTTPWriteTimeout);
    ("JUNO_GATEWAY_HTTP_IDLE_TIMEOUT", (60 * second), HTTPIdleTimeout);
    ("JUNO_GATEWAY_IDEMPOTENCY_LEASE", (30 * second), IdempotencyLease);
    ("JUNO_GATEWAY_BACKFILL_YIELD", (250 * millisecond), BackfillYield);
    ("JUNO_GATEWAY_BACKFILL_TIMEOUT", (10 * minute), BackfillTimeout);
    ("JUNO_COORDINATOR_PLAN_TIMEOUT", (2 * minute), CoordinatorPlanTimeout);
    ("JUNO_COORDINATOR_SIGN_TIMEOUT", (10 * minute), CoordinatorSignTimeout) ]%string.
Definition texts : list (string * string * (Config -> string)) :=
  [ ("JUNO_GATEWAY_LISTEN", ":8080", ListenAddress);
    ("JUNO_GATEWAY_STATE_DSN",
      "file:/var/lib/juno-gateway/gateway.db?_pragma=busy_timeout(5000)&_pragma=journal_mode(WAL)&_pragma=foreign_keys(ON)", StateDSN);
    ("JUNO_GATEWAY_INSTALLATION_STATE", "/var/lib/juno-installation/manifest.json", InstallationStatePath);
    ("JUNO_GATEWAY_NODE_RPC_URL", "http://junocashd:8232", NodeRPCURL);
    ("JUNO_GATEWAY_SCANNER_URL", "http://juno-scan:8080", ScannerURL);
    ("JUNO_GATEWAY_ADDRGEN_PATH", "/usr/local/bin/juno-addrgen", AddrgenPath);
    ("JUNO_COORDINATOR_LISTEN", "127.0.0.1:8081", CoordinatorListenAddress);
    ("JUNO_COORDINATOR_TXBUILD_PATH", "/usr/local/bin/juno-txbuild", CoordinatorTxbuildPath);
    ("JUNO_COORDINATOR_SIGNER_SOCKET", "/run/juno-signer/signer.sock", CoordinatorSignerSocket);
    ("JUNO_COORDINATOR_WORK_DIR", "/var/lib/juno-gateway/coordinator-work", CoordinatorWorkDir) ]%string.
Definition secrets : list (string * (Config -> string)) :=
  [ ("JUNO_GATEWAY_NODE_RPC_USER", NodeRPCUser);
    ("JUNO_GATEWAY_NODE_RPC_PASSWORD", NodeRPCPassword);
    ("JUNO_GATEWAY_SCANNER_TOKEN", ScannerToken) ]%string.

(** The field holds the variable's value exactly, or the default when it is not set. *)
Definition holds {A} (parse : string -> option A) (c : Config) (setting : string * A * (Config -> A)) : Prop :=
  let '(key, d, f) := setting in
  if String.eqb (getenv key) "" then f c = d else parse (getenv key) = Some (f c).
End load.

(** * Theorems *)

Section theorems.
Context (getenv : string -> string) (open_file : string -> result file) (parse_url : string -> option URL).

Lemma check_keys_ok {A} (parse : string -> option A) what keys u k :
  check_keys getenv parse what keys = Ok u -> k ∈ keys -> getenv k <> ""%string -> parse (getenv k) <> None.
Proof.
  induction keys as [|key keys IH]; cbn [check_keys]; [by intros _ ?%elem_of_nil|].
  destruct (String.eqb_spec (getenv key) "") as [He|He]; cbn [negb andb].
  - intros H [->|Hk]%elem_of_cons; [done|by apply IH].
  - case_bool_decide as Hb; [done|]. intros Hr [->|Hk]%elem_of_cons; [done|by apply IH].
Qed.

Lemma env_value_holds {A} (parse : string -> option A) what keys u k d f c :
  check_keys getenv parse what keys = Ok u -> k ∈ keys -> f c = env_value getenv parse k d ->
  holds getenv parse c (k, d, f).
Proof.
  intros Hu Hk Hf. unfold holds. rewrite Hf. unfold env_value. cbv zeta. destruct (String.eqb_spec (getenv k) "") as [|He]; [done|].
  pose proof (check_keys_ok _ _ _ _ _ Hu Hk He) as Hp. by destruct (parse (getenv k)).
Qed.

(** The file is a private regular file of at most 1 MiB. *)
Definition private (f : file) : Prop := regular f = true /\ Z.land (permissions f) 63 = 0 /\ file_size f <= fileLimit.

Lemma readJSONFile_ok {A} path (into : json -> option A) v : readJSONFile open_file path into = Ok v ->
  exists f j rest, open_file path = Ok f /\ private f /\
    next_value (take (Z.to_nat fileLimit) (to_bytes (content f))) = Some (j, rest) /\ forallb isSpace rest = true /\
    into j = Some v.
Proof.
  unfold readJSONFile, private. generalize fileLimit. intros limit (f & Hf & H)%result_bind_ok. exists f.
  destruct (regular f) eqn:Hr; [|done]. destruct (Z.eqb_spec (Z.land (permissions f) 63) 0) as [Hp|]; [|done].
  destruct (Z.ltb_spec limit (file_size f)) as [|Hs]; [done|]. cbn [negb] in H.
  destruct (next_value _) as [[j rest]|] eqn:Hn; [|done]. destruct (into j) as [w|] eqn:Hi; [|done].
  destruct (forallb isSpace rest) eqn:Hsp; [|done]. injection H as <-. by exists j, rest.
Qed.

(** C28: a configuration that is loaded says exactly what the environment says: every
    integer, number, switch and duration is the value of its variable, or its
    default when the variable is not set, and is never a default in place of a
    value that cannot be read; the wallets are the trimmed wallets of the wallets
    file, which is a private regular file; and the whole has passed validation. *)
Theorem Load_is_explicit c : Load getenv open_file parse_url = Ok c ->
  Forall (holds getenv ParseInt c) integers /\ Forall (holds getenv ParseFloat c) numbers /\
  Forall (holds getenv ParseBool c) switches /\ Forall (holds getenv ParseDuration c) durations /\
  Forall (fun '(key, d, f) => f c = env getenv key d) texts /\ Forall (fun '(key, f) => f c = getenv key) secrets /\
  ParseNetwork (env getenv "JUNO_GATEWAY_NETWORK" "regtest") = Ok (Network c) /\
  (exists f j rest ws, open_file (TrimSpace (getenv "JUNO_GATEWAY_WALLETS_FILE")) = Ok f /\ private f /\
     next_value (take (Z.to_nat fileLimit) (to_bytes (content f))) = Some (j, rest) /\ forallb isSpace rest = true /\
     into_wallet_file j = Some ws /\ Wallets c = map trim_wallet ws) /\
  (exists raw, Validate parse_url raw = Ok c).
Proof.
  unfold Load. intros (u & Henv & H)%result_bind_ok. apply result_bind_ok in H as (network & Hnet & H).
  apply result_bind_ok in H as (ws & Hws & H). apply result_bind_ok in H as (crs & _ & H).
  apply result_bind_ok in Henv as (u1 & H1 & Henv). apply result_bind_ok in Henv as (u2 & H2 & Henv).
  apply result_bind_ok in Henv as (u3 & H3 & H4).
  pose proof H as Hv. apply Validate_inv in Hv as (ws' & crs' & -> & Hne & _ & Hmap & _).
  cbn [Wallets set_wallets_credentials] in Hmap.
  assert (Hkey : forall {A} (parse : string -> option A) what keys u k d f c,
    check_keys getenv parse what keys = Ok u -> bool_decide (k ∈ keys) = true -> f c = env_value getenv parse k d ->
    holds getenv parse c (k, d, f)) by (intros; eapply env_value_holds; [done| |done]; by eapply bool_decide_eq_true_1).
  split_and!.
  - repeat (apply Forall_cons; split; [by eapply Hkey; [exact H1|..]|]). constructor.
  - repeat (apply Forall_cons; split; [by eapply Hkey; [exact H2|..]|]). constructor.
  - repeat (apply Forall_cons; split; [by eapply Hkey; [exact H3|..]|]). constructor.
  - repeat (apply Forall_cons; split; [by eapply Hkey; [exact H4|..]|]). constructor.
  - repeat (apply Forall_cons; split; [done|]). constructor.
  - repeat (apply Forall_cons; split; [done|]). constructor.
  - exact Hnet.
  - unfold load_file in Hws. cbv zeta in Hws. destruct (String.eqb _ _).
    + injection Hws as <-. by rewrite Hmap in Hne.
    + apply map_err_ok, readJSONFile_ok in Hws as (f & j & rest & Hf & Hp & Hn & Hs & Hi). by exists f, j, rest, ws.
  - by eexists.
Qed.
End theorems.

(** * A concrete environment *)

Definition demo_wallets_file : string :=
  Marshal (JObject [("wallets", JArray [JObject [("wallet_id", JString "hot"); ("ufvk", JString " jviewregtest1hot ");
                                                 ("birthday_height", JInt 100)]])]%string).
Definition demo_open (path : string) : result file :=
  if String.eqb path "/etc/juno/wallets.json"
  then Ok {| regular := true; permissions := 384; file_size := len demo_wallets_file; content := demo_wallets_file |}
  else Err (Foreign "no such file").
(** The environment [vars], with the wallets file. *)
Definition demo_env (vars : list (string * string)) (key : string) : string :=
  default ""%string ((list_to_map (("JUNO_GATEWAY_WALLETS_FILE", " /etc/juno/wallets.json")%string :: vars)
                        : gmap string string) !! key).
Definition demo_load (vars : list (string * string)) : result Config := Load (demo_env vars) demo_open demo_url_Parse.

Example demo_load_refusals :
  map (fun r => match r with Err (New text) => text | _ => ""%string end)
    [demo_load [("JUNO_GATEWAY_MAX_SCANNER_LAG", "two")]; demo_load [("JUNO_GATEWAY_READ_TIMEOUT", "10")];
     demo_load [("JUNO_GATEWAY_NETWORK", "bitcoin")]; demo_load [("JUNO_GATEWAY_MAX_CONFIRMATIONS", "0")]]%string =
  ["JUNO_GATEWAY_MAX_SCANNER_LAG must be an integer"; "JUNO_GATEWAY_READ_TIMEOUT must be a duration";
   "network must be mainnet, testnet, or regtest"; "confirmation bounds are invalid"]%string.
Proof. vm_compute. reflexivity. Qed.

Lemma Load_is_explicit_witness :
  exists c, demo_load [("JUNO_GATEWAY_MAX_SCANNER_LAG", "+7"); ("JUNO_GATEWAY_READ_TIMEOUT", "1.5s")]%string = Ok c /\
    MaxScannerLag c = 7 /\ ReadTimeout c = 1500000000 /\ Wallets c <> [].
Proof.
  destruct (demo_load [("JUNO_GATEWAY_MAX_SCANNER_LAG", "+7"); ("JUNO_GATEWAY_READ_TIMEOUT", "1.5s")]%string) as [c|e] eqn:Hl;
    [|vm_compute in Hl; discriminate Hl].
  exists c. destruct (Load_is_explicit _ _ _ c Hl) as (Hi & _ & _ & Hd & _ & _ & _ & Hw & _).
  split; [reflexivity|]. split.
  - assert (Hlag := proj1 (Forall_forall _ _) Hi ("JUNO_GATEWAY_MAX_SCANNER_LAG"%string, 2, MaxScannerLag)
      ltac:(do 2 apply list_elem_of_further; apply list_elem_of_here)).
    vm_compute in Hlag. vm_compute. injection Hlag as <-. reflexivity.
  - split; [|destruct Hw as (f & j & rest & ws & _)]; vm_compute in Hl; injection Hl as <-; [reflexivity|discriminate].
Defined.
