(* ===== verification/Url.v ===== *)
(** [net/url]: the escapes of path segments and query values, and the encoding of a
    query. *)
From S2P Require Import Prelude GoString Config.

Definition unreserved (c : ascii) : bool := is_alnum c || one_of "-_.~" c.
(** What [url.PathEscape] leaves as it is. *)
Definition segment_char (c : ascii) : bool := unreserved c || one_of "$&+=:@" c.

Definition hex_char (z : Z) : ascii := ascii_of_N (Z.to_N (if z <? 10 then 48 + z else 55 + z)).
Definition percent (c : ascii) : bytes := ["%"%char; hex_char (code c / 16); hex_char (code c mod 16)].

Definition escape_bytes (keep : ascii -> bool) (space : bytes) (l : bytes) : bytes :=
  concat (map (fun c => if Ascii.eqb c " " then space else if keep c then [c] else percent c) l).

Definition PathEscape (s : string) : string :=
  of_bytes (escape_bytes segment_char (percent " ") (to_bytes s)).
Definition QueryEscape (s : string) : string := of_bytes (escape_bytes unreserved ["+"%char] (to_bytes s)).

(** [url.Values.Encode] of pairs that are in the order of their keys. *)
Definition Encode (pairs : list (string * string)) : string :=
  String.concat "&" (map (fun p => QueryEscape p.1 +:+ "=" +:+ QueryEscape p.2) pairs).

Example escapes :
  (PathEscape "a/b c:%;", QueryEscape "a/b c:~", Encode [("cursor", "5"); ("kind", "A B")])%string
  = ("a%2Fb%20c:%25%3B", "a%2Fb+c%3A~", "cursor=5&kind=A+B")%string.
Proof. vm_compute. reflexivity. Qed.

(** A segment keeps its text: it unescapes to what was escaped, and has no byte
    that would end it. *)
Lemma percent_unescapes c rest : PathUnescape (percent c ++ rest) = r ← PathUnescape rest; Some (c :: r).
Proof. destruct c as [[] [] [] [] [] [] [] []]; reflexivity. Qed.

Lemma kept_unescapes c rest : segment_char c = true -> PathUnescape (c :: rest) = r ← PathUnescape rest; Some (c :: r).
Proof. destruct c as [[] [] [] [] [] [] [] []]; intros H; vm_compute in H; discriminate H || reflexivity. Qed.

Lemma PathUnescape_escape l :
  PathUnescape (escape_bytes segment_char (percent " ") l) = Some l.
Proof.
  induction l as [|c l IH]; [done|]. unfold escape_bytes. cbn [map concat].
  fold (escape_bytes segment_char (percent " ") l).
  destruct (Ascii.eqb_spec c " ") as [->|_]; [by rewrite percent_unescapes, IH|].
  destruct (segment_char c) eqn:Hc.
  - change ([c] ++ ?x) with (c :: x). by rewrite kept_unescapes, IH.
  - by rewrite percent_unescapes, IH.
Qed.

Lemma percent_plain c : forallb (fun d => segment_char d || Ascii.eqb d "%") (percent c) = true.
Proof. destruct c as [[] [] [] [] [] [] [] []]; vm_compute; reflexivity. Qed.

Lemma PathEscape_plain l :
  forallb (fun d => segment_char d || Ascii.eqb d "%") (escape_bytes segment_char (percent " ") l) = true.
Proof.
  induction l as [|c l IH]; [done|]. unfold escape_bytes. cbn [map concat].
  fold (escape_bytes segment_char (percent " ") l). rewrite forallb_app, IH, andb_true_r.
  destruct (Ascii.eqb c " "); [apply percent_plain|]. destruct (segment_char c) eqn:Hc; [|apply percent_plain].
  cbn. by rewrite Hc.
Qed.
