(* ===== verification/Node.v ===== *)
(** The client of the node's JSON-RPC, [internal/adapters/node/client.go].

    A client numbers its calls with a counter that all its callers share: [taken n]
    is how many numbers others took before call [n] took its own.  [Do n] is what
    becomes of the request of call [n]; a deadline is one of its outcomes.  The
    transport's settings (no proxy, no redirects, the timeout) are outside. *)
From Stdlib Require Import SpecFloat.
From S2P Require Import Prelude GoString Json Exchange Float Domain Config.

Record Client := { cl_url : string; cl_user : string; cl_password : string }.

Definition New_client (rawURL user password : string) : Client :=
  {| cl_url := TrimRightSlash rawURL; cl_user := user; cl_password := password |}.

(** * Requests and responses *)

Definition rpc_json (id : Z) (method : string) (params : list json) : json :=
  JObject [("jsonrpc", JString "1.0"); ("id", JInt id); ("method", JString method); ("params", JArray params)]%string.

Definition rpc_request (c : Client) (id : Z) (method : string) (params : list json) : http_request :=
  {| hq_method := "POST"; hq_url := cl_url c;
     hq_headers := [("Content-Type", "application/json"); ("User-Agent", "juno-exchange-gateway/1")]%string
       ++ (if negb (String.eqb (cl_user c) "") || negb (String.eqb (cl_password c) "")
           then [basic_auth (cl_user c) (cl_password c)] else []);
     hq_body := Marshal (rpc_json id method params) |}.

Record rpcError := { re_Code : Z; re_Message : string }.

Record rpcResponse := { rr_Result : option json; rr_Error : option rpcError; rr_ID : Z }.

Definition into_rpcError (j : json) (e : rpcError) : option rpcError :=
  ms ← struct_members j;
  code ← decode_field "code" into_int64 (re_Code e) ms;
  message ← decode_field "message" into_string (re_Message e) ms;
  Some {| re_Code := code; re_Message := message |}.

(** [json.RawMessage]. *)
Definition into_raw (j : json) (old : option json) : option (option json) := Some (Some j).

Definition into_response (j : json) (r : rpcResponse) : option rpcResponse :=
  ms ← struct_members j;
  result ← decode_field "result" into_raw (rr_Result r) ms;
  error ← decode_field "error" (into_ptr into_rpcError {| re_Code := 0; re_Message := "" |}) (rr_Error r) ms;
  id ← decode_field "id" into_uint64 (rr_ID r) ms;
  Some {| rr_Result := result; rr_Error := error; rr_ID := id |}.

Definition no_response : rpcResponse := {| rr_Result := None; rr_Error := None; rr_ID := 0 |}.

Definition responseLimit : Z := 16 * 2 ^ 20.

Definition invalidNodeResponse (message : string) : error := UpstreamError "invalid_response" (New message).

(** [errors.As(err, &rpcErr)]. *)
Fixpoint as_rpc (e : error) : option (Z * string) :=
  match e with
  | RpcError code message => Some (code, message)
  | Wrap _ cause => as_rpc cause
  | UpstreamError _ cause => as_rpc cause
  | _ => None
  end.

(** * Calls *)

Record node_state := { nextID : Z; calls : nat }.

(** A computation that makes calls and may fail. *)
Definition N (A : Type) : Type := node_state -> result A * node_state.

#[export] Instance n_ret : MRet N := fun A a s => (Ok a, s).
#[export] Instance n_bind : base.MBind N := fun A B f m s =>
  match m s with (Ok a, s') => f a s' | (Err e, s') => (Err e, s') end.
Definition n_fail {A} (e : error) : N A := fun s => (Err e, s).
Definition n_result {A} (r : result A) : N A := fun s => (r, s).
Definition refuse (c : bool) (message : string) : N unit :=
  if c then n_fail (invalidNodeResponse message) else mret tt.

(** What [call] makes of a response to request [id]. *)
Definition read_response {A} (into : json -> A -> option A) (zero : A) (id : Z) (resp : http_response) : result A :=
  match read_limited responseLimit (Body resp) with
  | Err _ => Err (UpstreamError "unavailable" (New "read node RPC response"))
  | Ok raw =>
      match Unmarshal into_response no_response raw with
      | None => Err (invalidNodeResponse "invalid node RPC response")
      | Some decoded =>
          if negb (rr_ID decoded =? id)
          then Err (invalidNodeResponse "node RPC response ID does not match request")
          else match rr_Error decoded with
               | Some e => Err (RpcError (re_Code e) (re_Message e))
               | None =>
                   if (StatusCode resp <? 200) || (299 <? StatusCode resp)
                   then Err (UpstreamError "unavailable" (New ("node RPC HTTP " +:+ pretty (StatusCode resp))))
                   else match rr_Result decoded with
                        | None | Some JNull => Err (invalidNodeResponse "node RPC response is missing a result")
                        | Some result =>
                            match into result zero with
                            | Some v => Ok v
                            | None => Err (invalidNodeResponse "invalid node RPC result")
                            end
                        end
               end
      end
  end.

Section client.
Context (c : Client) (Do : nat -> http_request -> exchange) (taken : nat -> Z).

Definition call {A} (method : string) (params : list json) (into : json -> A -> option A) (zero : A) : N A := fun s =>
  let id := wrapu64 (nextID s + taken (calls s) + 1) in
  (match Do (calls s) (rpc_request c id method params) with
   | not_built => Err (New "build node RPC request")
   | unanswered e => Err (UpstreamError "unavailable" e)
   | answered resp => read_response into zero id resp
   end, {| nextID := id; calls := S (calls s) |}).

(** * Tip and block hashes *)

Record chain_info := {
  ci_Chain : string; ci_Blocks : Z; ci_Headers : Z; ci_BestBlockHash : string;
  ci_InitialBlockDownload : bool; ci_VerificationProgress : spec_float
}.

Definition into_chain_info (j : json) (i : chain_info) : option chain_info :=
  ms ← struct_members j;
  chain ← decode_field "chain" into_string (ci_Chain i) ms;
  blocks ← decode_field "blocks" into_int64 (ci_Blocks i) ms;
  headers ← decode_field "headers" into_int64 (ci_Headers i) ms;
  hash ← decode_field "bestblockhash" into_string (ci_BestBlockHash i) ms;
  download ← decode_field "initialblockdownload" into_bool (ci_InitialBlockDownload i) ms;
  progress ← decode_field "verificationprogress" into_float64 (ci_VerificationProgress i) ms;
  Some {| ci_Chain := chain; ci_Blocks := blocks; ci_Headers := headers; ci_BestBlockHash := hash;
          ci_InitialBlockDownload := download; ci_VerificationProgress := progress |}.

(** A struct with the fields of a block header that are read. *)
Definition into_header (j : json) (h : Z * Z) : option (Z * Z) :=
  ms ← struct_members j;
  height ← decode_field "height" into_int64 h.1 ms;
  time ← decode_field "time" into_int64 h.2 ms;
  Some (height, time).
Definition into_time (j : json) (t : Z) : option Z :=
  ms ← struct_members j; decode_field "time" into_int64 t ms.

Definition Tip : N NodeTip :=
  info ← call "getblockchaininfo" [] into_chain_info
           {| ci_Chain := ""; ci_Blocks := 0; ci_Headers := 0; ci_BestBlockHash := "";
              ci_InitialBlockDownload := false; ci_VerificationProgress := S754_zero false |};
  time ← (if negb (String.eqb (ci_BestBlockHash info) "")
          then call "getblockheader" [JString (ci_BestBlockHash info); JBool true] into_time 0
          else mret 0);
  mret {| tip_Network := ci_Chain info; tip_Height := ci_Blocks info; tip_Hash := ci_BestBlockHash info;
          tip_BlockTime := time; tip_Headers := ci_Headers info;
          tip_InitialBlockDownload := ci_InitialBlockDownload info;
          tip_VerificationProgress := ci_VerificationProgress info |}.

Definition normalizeHexIdentifier (value label : string) : result string :=
  let value := ToLower (TrimSpace value) in
  if negb (len value =? 64) || negb (all_bytes is_lower_hex value)
  then Err (invalidNodeResponse ("node returned invalid " +:+ label)) else Ok value.

Definition BlockHash (height : Z) : N string :=
  if height <? 0 then n_fail (New "block height must be non-negative")
  else hash ← call "getblockhash" [JInt height] into_string "";
       n_result (normalizeHexIdentifier hash "block hash").

Definition into_txid (j : json) (txid : string) : option string :=
  ms ← struct_members j; decode_field "txid" into_string txid ms.

Definition DecodeRawTransaction (rawTxHex : string) : N string :=
  txid ← call "decoderawtransaction" [JString rawTxHex] into_txid "";
  n_result (normalizeHexIdentifier txid "transaction ID").

(** * Transactions *)

Record raw_tx := {
  rt_Hex : string; rt_TxID : string; rt_Size : Z; rt_ExpiryHeight : Z; rt_BlockHash : string;
  rt_Confirmations : Z; rt_Time : Z; rt_BlockTime : Z; rt_Actions : list (option json);
  rt_VActionsOrchard : list (option json)
}.

Definition into_actions (j : json) (l : list (option json)) : option (list (option json)) :=
  ms ← struct_members j; decode_field "actions" (into_slice into_raw None) l ms.

Definition into_raw_tx (j : json) (t : raw_tx) : option raw_tx :=
  ms ← struct_members j;
  hex ← decode_field "hex" into_string (rt_Hex t) ms;
  txid ← decode_field "txid" into_string (rt_TxID t) ms;
  size ← decode_field "size" into_int64 (rt_Size t) ms;
  expiry ← decode_field "expiryheight" into_int64 (rt_ExpiryHeight t) ms;
  hash ← decode_field "blockhash" into_string (rt_BlockHash t) ms;
  confirmations ← decode_field "confirmations" into_int64 (rt_Confirmations t) ms;
  time ← decode_field "time" into_int64 (rt_Time t) ms;
  block_time ← decode_field "blocktime" into_int64 (rt_BlockTime t) ms;
  actions ← decode_field "orchard" into_actions (rt_Actions t) ms;
  v_actions ← decode_field "vActionsOrchard" (into_slice into_raw None) (rt_VActionsOrchard t) ms;
  Some {| rt_Hex := hex; rt_TxID := txid; rt_Size := size; rt_ExpiryHeight := expiry; rt_BlockHash := hash;
          rt_Confirmations := confirmations; rt_Time := time; rt_BlockTime := block_time; rt_Actions := actions;
          rt_VActionsOrchard := v_actions |}.

Definition no_tx : raw_tx :=
  {| rt_Hex := ""; rt_TxID := ""; rt_Size := 0; rt_ExpiryHeight := 0; rt_BlockHash := ""; rt_Confirmations := 0;
     rt_Time := 0; rt_BlockTime := 0; rt_Actions := []; rt_VActionsOrchard := [] |}.

(** The answer that says that the node does not have the transaction. *)
Definition unknown_transaction (e : error) : bool :=
  match as_rpc e with
  | Some (code, message) =>
      (code =? -5) || Contains (ToLower message) "not found" || Contains (ToLower message) "no such"
  | None => false
  end.

Definition positive (z : Z) : option Z := if 0 <? z then Some z else None.

Definition orchard_actions (raw : raw_tx) : Z :=
  let actions := Z.of_nat (length (rt_Actions raw)) in
  if actions =? 0 then Z.of_nat (length (rt_VActionsOrchard raw)) else actions.

(** Where the transaction is: state, block hash, height and time. *)
Definition placement (raw : raw_tx) : N (string * string * option Z * option Z) :=
  if negb (String.eqb (rt_BlockHash raw) "") then
    blockHash ← n_result (normalizeHexIdentifier (rt_BlockHash raw) "block hash");
    header ← call "getblockheader" [JString blockHash; JBool true] into_header (0, 0);
    let '(height, time) := (header : Z * Z) in
    _ ← refuse ((height <? 0) || (time <? 0)) "node returned negative block metadata";
    let state := if 0 <? rt_Confirmations raw then "confirmed"%string else "orphaned"%string in
    mret (state, blockHash, Some height, Some time)
  else
    _ ← refuse (0 <? rt_Confirmations raw) "confirmed transaction is missing its block hash";
    let state := if rt_Confirmations raw <? 0 then "orphaned"%string else "mempool"%string in
    mret (state, ""%string, None, None).

Definition raw_hex (includeRaw : bool) (raw : raw_tx) : N string :=
  if includeRaw then
    let rawHex := TrimSpace (rt_Hex raw) in
    _ ← refuse (String.eqb rawHex "" || negb (Z.even (len rawHex)) || negb (hex_ok rawHex))
          "node returned invalid raw transaction hex";
    mret (ToLower rawHex)
  else mret ""%string.

(** What a decoded [getrawtransaction] gives. *)
Definition transaction_of (txid : string) (includeRaw : bool) (raw : raw_tx) : N Transaction :=
  _ ← refuse ((rt_Size raw <? 0) || (rt_ExpiryHeight raw <? 0)) "node returned negative transaction metadata";
  normalized ← n_result (normalizeHexIdentifier (ToLower (TrimSpace (rt_TxID raw))) "transaction ID");
  _ ← refuse (negb (String.eqb normalized txid)) "node returned mismatched transaction ID";
  placed ← placement raw;
  let '(state, blockHash, height, time) := (placed : string * string * option Z * option Z) in
  hex ← raw_hex includeRaw raw;
  mret {| tx_TxID := normalized; tx_State := state; tx_Confirmations := Z.max 0 (rt_Confirmations raw);
          tx_BlockHash := blockHash; tx_BlockHeight := height; tx_BlockTime := time;
          tx_ExpiryHeight := positive (rt_ExpiryHeight raw); tx_SerializedSize := positive (rt_Size raw);
          tx_OrchardActions := Some (orchard_actions raw); tx_RawTxHex := hex |}.

(** [None] when the node does not have it. *)
Definition Transaction (txid : string) (includeRaw : bool) : N (option Domain.Transaction) := fun s =>
  match call "getrawtransaction" [JString txid; JInt 1] into_raw_tx no_tx s with
  | (Err e, s') => (if unknown_transaction e then Ok None else Err e, s')
  | (Ok raw, s') =>
      let '(out, s'') := transaction_of txid includeRaw raw s' in (tx ← out; Ok (Some tx), s'')
  end.

(** * Broadcast *)

Definition isAlreadyKnownMessage (message : string) : bool :=
  existsb (Contains message) ["txn-already-in-mempool"; "txn-already-known"; "already in block chain";
    "already in blockchain"; "already known"; "already have transaction"]%string.

Definition isDefinitiveConsensusRejection (code : Z) (message : string) : bool :=
  (code =? -26)
  && (let '(prefix, _, found) := Cut (TrimSpace message) ":" in
      found && bool_decide (ParseInt (TrimSpace prefix) = Some 16)).

Definition broadcast_error (e : error) : error :=
  match as_rpc e with
  | Some (code, message) =>
      let message := ToLower message in
      if (code =? -28) || Contains message "warming up" || Contains message "loading block"
      then UpstreamError "unavailable" (New "node is not ready")
      else if (code =? -27) || isAlreadyKnownMessage message
      then UpstreamError "already_known" (New "node already knows transaction")
      else if (code =? -22) || isDefinitiveConsensusRejection code message
      then UpstreamError "rejected" (New "node definitively rejected transaction")
      else UpstreamError "uncertain" (New "node did not return a definitive broadcast outcome")
  | None => e
  end.

Definition Broadcast (rawTxHex : string) : N string := fun s =>
  match call "sendrawtransaction" [JString rawTxHex] into_string "" s with
  | (Err e, s') => (Err (broadcast_error e), s')
  | (Ok txid, s') => (Ok (ToLower (TrimSpace txid)), s')
  end.
End client.

(** * Theorems *)

Section theorems.
Context (c : Client) (Do : nat -> http_request -> exchange) (taken : nat -> Z).

(** The request of the next call. *)
Definition next_id (s : node_state) : Z := wrapu64 (nextID s + taken (calls s) + 1).
Definition after_call (s : node_state) : node_state := {| nextID := next_id s; calls := S (calls s) |}.

(** The node's reply to the next call, if it is one: to the id of that call. *)
Definition replied (method : string) (params : list json) (s : node_state) (status : Z) (d : rpcResponse) : Prop :=
  exists resp body, Do (calls s) (rpc_request c (next_id s) method params) = answered resp /\
    StatusCode resp = status /\ read_limited responseLimit (Body resp) = Ok body /\
    Unmarshal into_response no_response body = Some d /\ rr_ID d = next_id s.

Lemma call_after {A} method params (into : json -> A -> option A) zero s :
  (call c Do taken method params into zero s).2 = after_call s.
Proof. done. Qed.

(** The client's own errors, for a call that got no reply with an error. *)
Definition own_error (method : string) (params : list json) (s : node_state) (e : error) : Prop :=
  (forall status d, replied method params s status d -> rr_Error d = None) /\
  ((exists kind text, e = UpstreamError kind (New text) /\ (kind = "unavailable" \/ kind = "invalid_response")%string) \/
   (exists n q e', Do n q = unanswered e' /\ e = UpstreamError "unavailable" e') \/
   e = New "build node RPC request").

Lemma replied_unique method params s st d st' d' :
  replied method params s st d -> replied method params s st' d' -> d = d' /\ st = st'.
Proof. intros (r & b & H1 & <- & H2 & H3 & _) (r' & b' & H1' & <- & H2' & H3' & _). split; congruence. Qed.

Lemma call_cases {A} method params (into : json -> A -> option A) zero s :
  match (call c Do taken method params into zero s).1 with
  | Ok v => exists status d j, replied method params s status d /\ rr_Error d = None /\ 200 <= status <= 299 /\
      rr_Result d = Some j /\ j <> JNull /\ into j zero = Some v
  | Err e =>
      (exists status d x, replied method params s status d /\ rr_Error d = Some x /\
         e = RpcError (re_Code x) (re_Message x)) \/ own_error method params s e
  end.
Proof.
  unfold call. cbn [fst]. fold (next_id s). unfold read_response, invalidNodeResponse.
  destruct (Do (calls s) _) as [|e|resp] eqn:Hdo.
  { right. split; [|by right; right]. intros st d (? & ? & ? & _). congruence. }
  { right. split; [|by right; left; eauto]. intros st d (? & ? & ? & _). congruence. }
  assert (Hinv : forall kind text, (kind = "unavailable" \/ kind = "invalid_response")%string ->
    (forall status d, replied method params s status d -> rr_Error d = None) ->
    own_error method params s (UpstreamError kind (New text))) by (split; eauto).
  destruct (read_limited _ _) as [raw|] eqn:Hraw.
  2:{ right. apply Hinv; [by left|]. intros st d (? & ? & ? & ? & ? & _). congruence. }
  destruct (Unmarshal _ _ raw) as [d|] eqn:Hd.
  2:{ right. apply Hinv; [by right|]. intros st d (? & ? & ? & ? & ? & ? & _). congruence. }
  destruct (Z.eqb_spec (rr_ID d) (next_id s)) as [Hid|]; cbn [negb].
  2:{ right. apply Hinv; [by right|]. intros st d' (? & ? & ? & ? & ? & ? & ?). congruence. }
  assert (Hrep : replied method params s (StatusCode resp) d) by (exists resp, raw; done).
  destruct (rr_Error d) as [x|] eqn:He; [by left; exists (StatusCode resp), d, x|].
  assert (Hnone : forall st d', replied method params s st d' -> rr_Error d' = None).
  { intros st d' Hr. by destruct (replied_unique _ _ _ _ _ _ _ Hr Hrep) as [-> _]. }
  destruct (Z.ltb_spec (StatusCode resp) 200); [by right; apply Hinv; [left|]|].
  destruct (Z.ltb_spec 299 (StatusCode resp)); cbn [orb]; [by right; apply Hinv; [left|]|].
  destruct (rr_Result d) as [j|] eqn:Hj; [|by right; apply Hinv; [right|]].
  destruct (into j zero) as [v|] eqn:Hv.
  - destruct j; try (by right; apply Hinv; [right|]); exists (StatusCode resp), d; eexists; by split_and!.
  - destruct j; by right; apply Hinv; [right|].
Qed.

(** A broadcast that the node refused for good: its error says so, and says
    neither that the node is not ready nor that it knows the transaction. *)
Definition not_ready (code : Z) (message : string) : bool :=
  (code =? -28) || Contains message "warming up" || Contains message "loading block".
Definition known_already (code : Z) (message : string) : bool := (code =? -27) || isAlreadyKnownMessage message.
Definition consensus_rejection (code : Z) (message : string) : bool :=
  (code =? -22) || isDefinitiveConsensusRejection code message.

(** C10: a broadcast is reported as accepted only when the node answered this very
    call with a transaction id; as rejected exactly when the node answered this call
    with a definitive consensus error; and as known exactly when it answered that it
    has the transaction. Everything else, no answer or an answer to another call
    above all, stays open. *)
Theorem Broadcast_spec raw s :
  (forall n q e, Do n q = unanswered e -> as_rpc e = None) ->
  let got := replied "sendrawtransaction" [JString raw] s in
  let failed (p : Z -> string -> bool) := exists status d x, got status d /\ rr_Error d = Some x /\
                                            p (re_Code x) (ToLower (re_Message x)) = true in
  match (Broadcast c Do taken raw s).1 with
  | Ok txid => exists status d t, got status d /\ rr_Error d = None /\ 200 <= status <= 299 /\
      rr_Result d = Some (JString t) /\ txid = ToLower (TrimSpace t)
  | Err e =>
      (IsUpstreamKind e "rejected" = true <->
         failed (fun code m => negb (not_ready code m) && negb (known_already code m) && consensus_rejection code m)) /\
      (IsUpstreamKind e "already_known" = true <->
         failed (fun code m => negb (not_ready code m) && known_already code m))
  end.
Proof.
  intros Hforeign got failed. unfold Broadcast.
  pose proof (call_cases "sendrawtransaction" [JString raw] into_string "" s) as Hc. fold got in Hc.
  destruct (call _ _ _ _ _ _ _ _) as [[t|e] s']; cbn [fst] in *.
  - destruct Hc as (status & d & j & Hg & He & Hs & Hj & Hn & Hi). 
    destruct j as [| | |text| |]; try discriminate Hi; [by destruct Hn|]. injection Hi as <-. exists status, d, text.
    split_and!; done || lia.
  - destruct Hc as [(status & d & x & Hg & He & ->)|[Hnone Hc]].
    + assert (Hfail : forall p, failed p <-> p (re_Code x) (ToLower (re_Message x)) = true).
      { intros p. split; [|by intros Hp; exists status, d, x].
        intros (st & d' & x' & Hg' & He' & Hp). destruct (replied_unique _ _ _ _ _ _ _ Hg' Hg) as [-> _]. by simplify_eq. }
      rewrite !Hfail. unfold broadcast_error, not_ready, known_already, consensus_rejection. cbn [as_rpc].
      destruct (_ || _ || _); [by split|]. destruct (_ || isAlreadyKnownMessage _); [by split|].
      by destruct (_ || isDefinitiveConsensusRejection _ _).
    + assert (Hno : forall p, failed p <-> False).
      { intros p. split; [|done]. intros (st & d & x & Hg & He & _). by rewrite (Hnone _ _ Hg) in He. }
      rewrite !Hno. destruct Hc as [(kind & text & -> & [-> | ->])|[(n & q & e' & Hu & ->)| ->]]; try done.
      unfold broadcast_error. cbn [as_rpc]. by rewrite (Hforeign _ _ _ Hu).
Qed.

(** ** Transactions *)

(** A transaction in a block, in the mempool, or in neither. *)
Definition placed (tx : Domain.Transaction) : Prop :=
  (tx_State tx = "confirmed"%string /\ 0 < tx_Confirmations tx /\ lower_hex64 (tx_BlockHash tx) = true /\
     exists h t, tx_BlockHeight tx = Some h /\ tx_BlockTime tx = Some t /\ 0 <= h /\ 0 <= t) \/
  (tx_State tx = "orphaned"%string /\ tx_Confirmations tx = 0) \/
  (tx_State tx = "mempool"%string /\ tx_Confirmations tx = 0 /\ tx_BlockHash tx = ""%string /\
     tx_BlockHeight tx = None /\ tx_BlockTime tx = None).

Lemma n_bind_ok {A B} (m : N A) (f : A -> N B) s b s' :
  (m ≫= f) s = (Ok b, s') <-> exists a s1, m s = (Ok a, s1) /\ f a s1 = (Ok b, s').
Proof.
  unfold mbind, n_bind. destruct (m s) as [[a|e] s1].
  - split; [by exists a, s1|]. by intros (? & ? & [= <- <-] & ?).
  - split; [done|]. by intros (? & ? & [=] & _).
Qed.

Lemma refuse_ok cond text s u s' : refuse cond text s = (Ok u, s') <-> cond = false /\ s' = s.
Proof. unfold refuse. destruct cond; [by split; [|intros []]|]. cbn. split; [by intros [= <- <-]|]. by destruct u; intros [_ ->]. Qed.

Lemma n_result_ok {A} (r : result A) s a s' : n_result r s = (Ok a, s') <-> r = Ok a /\ s' = s.
Proof. unfold n_result. split; [by intros [= -> ->]|by intros [-> ->]]. Qed.

Lemma normalizeHex_ok value label v : normalizeHexIdentifier value label = Ok v ->
  v = ToLower (TrimSpace value) /\ lower_hex64 v = true.
Proof.
  unfold normalizeHexIdentifier, lower_hex64. destruct (len _ =? 64) eqn:Hl; cbn [negb orb]; [|done].
  destruct (all_bytes _ _) eqn:Ha; cbn [negb]; [|done]. intros [= <-]. by rewrite Hl, Ha.
Qed.

Lemma placement_ok raw s state hash height time s' : placement c Do taken raw s = (Ok (state, hash, height, time), s') ->
  (hash = ""%string /\ height = None /\ time = None /\ rt_Confirmations raw <= 0 /\
     state = if rt_Confirmations raw <? 0 then "orphaned"%string else "mempool"%string) \/
  (lower_hex64 hash = true /\ state = (if 0 <? rt_Confirmations raw then "confirmed"%string else "orphaned"%string) /\
     exists h t, height = Some h /\ time = Some t /\ 0 <= h /\ 0 <= t).
Proof.
  unfold placement. destruct (negb (String.eqb (rt_BlockHash raw) "")).
  - intros (h & s1 & [Hh ->]%n_result_ok & ([ht tm] & s2 & _ & H)%n_bind_ok)%n_bind_ok.
    apply n_bind_ok in H as (u & s3 & [Hneg ->]%refuse_ok & [= <- <- <- <- _]).
    apply normalizeHex_ok in Hh as [_ Hh]. right. split; [done|]. split; [done|].
    bool_to_prop. exists ht, tm. split_and!; done || lia.
  - intros (u & s3 & [Hneg ->]%refuse_ok & [= <- <- <- <- _])%n_bind_ok. left. bool_to_prop. split_and!; done || lia.
Qed.

Lemma raw_hex_ok includeRaw raw s hex s' : raw_hex includeRaw raw s = (Ok hex, s') ->
  if includeRaw then hex <> ""%string /\ Z.even (len hex) = true /\ all_bytes is_lower_hex hex = true else hex = ""%string.
Proof.
  unfold raw_hex. destruct includeRaw; [|by intros [= <- _]].
  intros (u & s3 & [Hneg ->]%refuse_ok & [= <- _])%n_bind_ok. generalize (TrimSpace (rt_Hex raw)), Hneg. clear.
  intros h Hneg. bool_to_prop. unfold hex_ok in *. bool_to_prop.
  match goal with H : all_bytes is_hex h = true |- _ => destruct (ToLower_hex h H) as [Hl Hn] end.
  unfold len in *. rewrite Hn. split_and!; try done. intros Hc. rewrite Hc in Hn. by destruct h.
Qed.

(** C30: a transaction the client reports is the one that was asked for: it is
    confirmed only in a block that the node names, with a height and a time, and
    with at least one confirmation, and no confirmations are reported otherwise; the
    optional sizes and heights are positive; and the raw transaction is there
    exactly when it was asked for, as lower-case hexadecimal bytes. *)
Theorem Transaction_sound txid includeRaw s tx s' :
  Transaction c Do taken txid includeRaw s = (Ok (Some tx), s') ->
  tx_TxID tx = txid /\ lower_hex64 txid = true /\ placed tx /\
  (forall e, tx_ExpiryHeight tx = Some e -> 0 < e) /\ (forall n, tx_SerializedSize tx = Some n -> 0 < n) /\
  (exists n, tx_OrchardActions tx = Some n /\ 0 <= n) /\
  if includeRaw then tx_RawTxHex tx <> ""%string /\ Z.even (len (tx_RawTxHex tx)) = true /\
                     all_bytes is_lower_hex (tx_RawTxHex tx) = true
  else tx_RawTxHex tx = ""%string.
Proof.
  unfold Transaction. destruct (call _ _ _ _ _ _ _ _) as [[raw|e] s1]; [|by destruct (unknown_transaction e)].
  destruct (transaction_of c Do taken txid includeRaw raw s1) as [[out|e] s2] eqn:Hout; [|done].
  intros [= -> ->]. unfold transaction_of in Hout.
  apply n_bind_ok in Hout as (u & s3 & [Hneg ->]%refuse_ok & Hout).
  apply n_bind_ok in Hout as (id & s4 & [Hid ->]%n_result_ok & Hout). apply normalizeHex_ok in Hid as [_ Hid].
  apply n_bind_ok in Hout as (u' & s5 & [Heq ->]%refuse_ok & Hout).
  apply n_bind_ok in Hout as ([[[state hash] height] time] & s6 & Hp & Hout).
  apply n_bind_ok in Hout as (hex & s7 & Hhex & [= <- _]). apply raw_hex_ok in Hhex. apply placement_ok in Hp.
  bool_to_prop. subst id. cbn [tx_TxID tx_ExpiryHeight tx_SerializedSize tx_OrchardActions tx_RawTxHex].
  split; [done|]. split; [done|]. split.
  { unfold placed. cbn. destruct Hp as [(-> & -> & -> & Hc & ->)|(Hh & -> & h & t & -> & -> & ? & ?)].
    - right. destruct (Z.ltb_spec (rt_Confirmations raw) 0); [left|right]; split_and!; done || lia.
    - destruct (Z.ltb_spec 0 (rt_Confirmations raw)); [left|right; left]; split_and!; try (done || lia). by exists h, t. }
  assert (Hpos : forall z n, positive z = Some n -> 0 < n).
  { intros z n. unfold positive. destruct (Z.ltb_spec 0 z); [|done]. intros Hz. by injection Hz as <-. }
  split; [intros e; apply Hpos|]. split; [intros n; apply Hpos|]. split; [|exact Hhex].
  eexists. split; [done|]. unfold orchard_actions. cbv zeta. destruct (_ =? 0); lia.
Qed.

(** the node's well-formed reply to a call is read exactly: for any result
    that JSON can carry, the call gives what the result decodes to, provided the
    reply has the call's own id; with any other id it is refused. *)
Theorem call_reads_reply {A} (into : json -> A -> option A) zero id id' j :
  printable j = true -> depth j <= 9999 -> j <> JNull -> uint64 id' ->
  let body := Marshal (JObject [("result", j); ("error", JNull); ("id", JInt id')]%string) in
  len body <= responseLimit ->
  read_response into zero id {| StatusCode := 200; Body := Ok body |} =
  if id' =? id then match into j zero with Some v => Ok v | None => Err (invalidNodeResponse "invalid node RPC result") end
  else Err (invalidNodeResponse "node RPC response ID does not match request").
Proof.
  intros Hp Hd Hnull Hid body Hlen. unfold read_response, read_limited. cbn [Body StatusCode].
  unfold mbind, result_bind. rewrite take_ge, of_to_bytes.
  2:{ rewrite length_to_bytes. unfold len in Hlen. lia. }
  assert (Hu : into_uint64 (JInt id') 0 = Some id').
  { unfold into_uint64, into_int, JInt. apply ParseUint_pretty_Z. width. lia. }
  unfold body, Unmarshal. rewrite parse_Marshal.
  2:{ cbn [printable forallb fst snd JInt]. by rewrite Hp, number_literal_pretty. }
  2:{ cbn [depth map foldr snd JInt]. lia. }
  cbn [mbind option_bind]. revert Hu. generalize (JInt id'). intros ji Hu. unfold into_response. decode_json.
  cbn [no_response rr_Result rr_Error rr_ID into_raw into_ptr]. decode_json. rewrite Hu.
  unfold into_raw. decode_json. cbn [rr_ID rr_Error rr_Result].
  destruct (id' =? id); cbn [negb]; [|done]. cbn [Z.ltb Z.compare orb]. destruct j; done.
Qed.
End theorems.

(** * Witnesses *)

Definition demo_client : Client := New_client "http://127.0.0.1:8232/" "user" "pass".
Definition demo_state : node_state := {| nextID := 0; calls := 0 |}.

(** A node that answers call [n] with a status and the members of a reply. *)
Definition demo_node (status : Z) (reply : nat -> list (string * json)) : nat -> http_request -> exchange :=
  fun n _ => answered {| StatusCode := status;
    Body := Ok (Marshal (JObject (reply n ++ [("id"%string, JInt (Z.of_nat n + 1))]))) |}.

Definition alone : nat -> Z := fun _ => 0.

Definition consensus_reply (n : nat) : list (string * json) :=
  [("result", JNull);
   ("error", JObject [("code", JInt (-26)); ("message", JString "16: bad-txns-orchard-binding-signature-invalid")])]%string.

Lemma Broadcast_spec_witness :
  let Do := demo_node 500 consensus_reply in
  exists e, (Broadcast demo_client Do alone "00ff" demo_state).1 = Err e /\
    exists status d x, replied demo_client Do alone "sendrawtransaction" [JString "00ff"] demo_state status d /\
      rr_Error d = Some x /\ consensus_rejection (re_Code x) (ToLower (re_Message x)) = true.
Proof.
  intros Do. assert (Hf : forall n q e, Do n q = unanswered e -> as_rpc e = None) by (intros n q e; discriminate).
  pose proof (Broadcast_spec demo_client Do alone "00ff" demo_state Hf) as Hs.
  assert (Hb : (Broadcast demo_client Do alone "00ff" demo_state).1 =
    Err (UpstreamError "rejected" (New "node definitively rejected transaction"))) by (vm_compute; reflexivity).
  rewrite Hb in Hs. destruct Hs as [Hr _]. destruct (proj1 Hr eq_refl) as (status & d & x & Hg & He & Hp).
  eexists. split; [exact Hb|]. exists status, d, x. split; [exact Hg|]. split; [exact He|].
  by apply andb_prop in Hp as [_ Hp].
Defined.

Definition hash_b : string := "00000000000000000000000000000000000000000000000000000000000000bb".

Definition transaction_reply (n : nat) : list (string * json) :=
  [("result", match n with
              | O => JObject [("hex", JString " 00FF"); ("txid", JString hash_b); ("size", JInt 2);
                              ("expiryheight", JInt 900); ("blockhash", JString hash_b); ("confirmations", JInt 3);
                              ("orchard", JObject [("actions", JArray [JNull; JNull])])]
              | _ => JObject [("height", JInt 800); ("time", JInt 1700000000)]
              end)]%string.

Lemma Transaction_sound_witness :
  let Do := demo_node 200 transaction_reply in
  exists tx, (Transaction demo_client Do alone hash_b true demo_state).1 = Ok (Some tx) /\
    placed tx /\ tx_State tx = "confirmed"%string /\ tx_RawTxHex tx = "00ff"%string.
Proof.
  intros Do. destruct (Transaction demo_client Do alone hash_b true demo_state) as [out s'] eqn:Hrun.
  assert (Hv : match out with Ok (Some tx) => (tx_State tx, tx_RawTxHex tx) | _ => ("", "")%string end
    = ("confirmed", "00ff")%string) by (assert (out = (Transaction demo_client Do alone hash_b true demo_state).1)
      by (rewrite Hrun; reflexivity); subst out; vm_compute; reflexivity).
  destruct out as [[tx|]|e]; try discriminate Hv. exists tx.
  destruct (Transaction_sound demo_client Do alone hash_b true demo_state tx s' Hrun) as (_ & _ & Hp & _).
  injection Hv as H1 H2. split; [reflexivity|]. split; [exact Hp|]. split; [exact H1|exact H2].
Defined.

Lemma call_reads_reply_witness :
  read_response into_string "" 7 {| StatusCode := 200; Body := Ok (Marshal (JObject
    [("result", JString "ok"); ("error", JNull); ("id", JInt 7)]%string)) |} = Ok "ok"%string.
Proof.
  refine (call_reads_reply into_string "" 7 7 (JString "ok") _ _ _ _ _);
    [vm_compute; reflexivity|vm_compute; discriminate|discriminate|width; lia|vm_compute; discriminate].
Defined.
