(* ===== verification/Scanner.v ===== *)
(** The client of the scanner's HTTP API, [internal/adapters/scanner/client.go].

    Every operation makes one request.  [Do] is what becomes of it; for [Backfill]
    it is the client with the longer timeout. *)
From S2P Require Import Prelude GoString GoTime Json Exchange Time Domain Config Url.

Record Client := { sc_baseURL : string; sc_token : string }.

Definition New_client (baseURL token : string) : Client :=
  {| sc_baseURL := TrimRightSlash baseURL; sc_token := TrimSpace token |}.

(** [errors.As(err, &he)]. *)
Fixpoint as_http (e : error) : option Z :=
  match e with
  | HttpError status => Some status
  | Wrap _ cause => as_http cause
  | UpstreamError _ cause => as_http cause
  | _ => None
  end.
Definition has_status (e : error) (p : Z -> bool) : bool :=
  match as_http e with Some status => p status | None => false end.

Definition invalid (text : string) : error := UpstreamError "invalid_response" (New text).

Definition bodyLimit : Z := 8 * 2 ^ 20.

(** * Required and nullable fields *)

(** A field that may be null and whose absence is seen: [None] is not set. *)
Definition nullable (A : Type) : Type := option (option A).
Definition into_nullable {A} (into : json -> A -> option A) (zero : A) (j : json) (old : nullable A) : option (nullable A) :=
  match j with JNull => Some (Some None) | _ => v ← into j zero; Some (Some (Some v)) end.
Definition is_set {A} (v : nullable A) : bool := match v with Some _ => true | None => false end.
Definition value_of {A} (v : nullable A) : option A := match v with Some (Some a) => Some a | _ => None end.
Definition has_value {A} (v : nullable A) : bool := match v with Some (Some _) => true | _ => false end.
(** Present, but null. *)
Definition is_null {A} (v : nullable A) : bool := match v with Some None => true | _ => false end.

Definition int64_field : json -> nullable Z -> option (nullable Z) := into_nullable into_int64 0.
Definition string_field : json -> nullable string -> option (nullable string) := into_nullable into_string ""%string.
Definition time_field : json -> nullable time -> option (nullable time) := into_nullable into_time 0.
Definition int64_ptr : json -> option Z -> option (option Z) := into_ptr into_int64 0.
Definition string_ptr : json -> option string -> option (option string) := into_ptr into_string ""%string.

(** * Note summaries on the wire *)

Record rawNoteValueSummary := { rv_NoteCount : option Z; rv_ValueZat : option Z }.
Definition no_value : rawNoteValueSummary := {| rv_NoteCount := None; rv_ValueZat := None |}.
Definition into_value (j : json) (v : rawNoteValueSummary) : option rawNoteValueSummary :=
  ms ← struct_members j;
  count ← decode_field "note_count" int64_ptr (rv_NoteCount v) ms;
  value ← decode_field "value_zat" int64_ptr (rv_ValueZat v) ms;
  Some {| rv_NoteCount := count; rv_ValueZat := value |}.

Record rawSpendableNoteSummary := {
  rs_Value : rawNoteValueSummary; rs_SmallestNoteZat : nullable Z; rs_LargestNoteZat : nullable Z
}.
Definition into_spendable (j : json) (s : rawSpendableNoteSummary) : option rawSpendableNoteSummary :=
  ms ← struct_members j;
  value ← into_value (JObject ms) (rs_Value s);
  smallest ← decode_field "smallest_note_zat" int64_field (rs_SmallestNoteZat s) ms;
  largest ← decode_field "largest_note_zat" int64_field (rs_LargestNoteZat s) ms;
  Some {| rs_Value := value; rs_SmallestNoteZat := smallest; rs_LargestNoteZat := largest |}.

Record rawPendingSpendNoteSummary := {
  rp_Value : rawNoteValueSummary; rp_KnownExpiryCount : option Z; rp_NextExpiryHeight : nullable Z;
  rp_LastExpiryHeight : nullable Z
}.
Definition into_pending (j : json) (p : rawPendingSpendNoteSummary) : option rawPendingSpendNoteSummary :=
  ms ← struct_members j;
  value ← into_value (JObject ms) (rp_Value p);
  known ← decode_field "known_expiry_count" int64_ptr (rp_KnownExpiryCount p) ms;
  next ← decode_field "next_expiry_height" int64_field (rp_NextExpiryHeight p) ms;
  last ← decode_field "last_expiry_height" int64_field (rp_LastExpiryHeight p) ms;
  Some {| rp_Value := value; rp_KnownExpiryCount := known; rp_NextExpiryHeight := next; rp_LastExpiryHeight := last |}.

Record rawWalletNoteSummary := {
  rw_WalletID : option string; rw_MinConfirmations : option Z; rw_MinNoteZat : option Z;
  rw_AsOfScannerHeight : option Z; rw_AsOfScannerHash : option string;
  rw_TotalUnspent : option rawNoteValueSummary; rw_Spendable : option rawSpendableNoteSummary;
  rw_Immature : option rawNoteValueSummary; rw_PendingSpend : option rawPendingSpendNoteSummary;
  rw_BelowMinNote : option rawNoteValueSummary; rw_WitnessUnavailable : option rawNoteValueSummary
}.

Definition no_summary : rawWalletNoteSummary :=
  {| rw_WalletID := None; rw_MinConfirmations := None; rw_MinNoteZat := None; rw_AsOfScannerHeight := None;
     rw_AsOfScannerHash := None; rw_TotalUnspent := None; rw_Spendable := None; rw_Immature := None;
     rw_PendingSpend := None; rw_BelowMinNote := None; rw_WitnessUnavailable := None |}.

Definition into_summary (j : json) (s : rawWalletNoteSummary) : option rawWalletNoteSummary :=
  let no_spendable := {| rs_Value := no_value; rs_SmallestNoteZat := None; rs_LargestNoteZat := None |} in
  let no_pending := {| rp_Value := no_value; rp_KnownExpiryCount := None; rp_NextExpiryHeight := None;
                       rp_LastExpiryHeight := None |} in
  ms ← struct_members j;
  wallet ← decode_field "wallet_id" string_ptr (rw_WalletID s) ms;
  confirmations ← decode_field "min_confirmations" int64_ptr (rw_MinConfirmations s) ms;
  min_note ← decode_field "min_note_zat" int64_ptr (rw_MinNoteZat s) ms;
  height ← decode_field "as_of_scanner_height" int64_ptr (rw_AsOfScannerHeight s) ms;
  hash ← decode_field "as_of_scanner_hash" string_ptr (rw_AsOfScannerHash s) ms;
  total ← decode_field "total_unspent" (into_ptr into_value no_value) (rw_TotalUnspent s) ms;
  spendable ← decode_field "spendable" (into_ptr into_spendable no_spendable) (rw_Spendable s) ms;
  immature ← decode_field "immature" (into_ptr into_value no_value) (rw_Immature s) ms;
  pending ← decode_field "pending_spend" (into_ptr into_pending no_pending) (rw_PendingSpend s) ms;
  below ← decode_field "below_min_note" (into_ptr into_value no_value) (rw_BelowMinNote s) ms;
  unavailable ← decode_field "witness_unavailable" (into_ptr into_value no_value) (rw_WitnessUnavailable s) ms;
  Some {| rw_WalletID := wallet; rw_MinConfirmations := confirmations; rw_MinNoteZat := min_note;
          rw_AsOfScannerHeight := height; rw_AsOfScannerHash := hash; rw_TotalUnspent := total;
          rw_Spendable := spendable; rw_Immature := immature; rw_PendingSpend := pending;
          rw_BelowMinNote := below; rw_WitnessUnavailable := unavailable |}.

(** The value of a complete summary. *)
Definition noteValueSummary (v : rawNoteValueSummary) : option NoteValueSummary :=
  count ← rv_NoteCount v; value ← rv_ValueZat v; Some {| nv_NoteCount := count; nv_ValueZat := value |}.

Definition spendable_of (s : rawSpendableNoteSummary) : option SpendableNoteSummary :=
  value ← noteValueSummary (rs_Value s);
  if is_set (rs_SmallestNoteZat s) && is_set (rs_LargestNoteZat s)
  then Some {| sp_Value := value; sp_SmallestNoteZat := value_of (rs_SmallestNoteZat s);
               sp_LargestNoteZat := value_of (rs_LargestNoteZat s) |}
  else None.

Definition pending_of (p : rawPendingSpendNoteSummary) : option PendingSpendNoteSummary :=
  value ← noteValueSummary (rp_Value p); known ← rp_KnownExpiryCount p;
  if is_set (rp_NextExpiryHeight p) && is_set (rp_LastExpiryHeight p)
  then Some {| ps_Value := value; ps_KnownExpiryCount := known; ps_NextExpiryHeight := value_of (rp_NextExpiryHeight p);
               ps_LastExpiryHeight := value_of (rp_LastExpiryHeight p) |}
  else None.

(** The summary, if every field is there. *)
Definition summary_of (s : rawWalletNoteSummary) : option WalletNoteSummary :=
  wallet ← rw_WalletID s; confirmations ← rw_MinConfirmations s; min_note ← rw_MinNoteZat s;
  height ← rw_AsOfScannerHeight s; hash ← rw_AsOfScannerHash s;
  total ← rw_TotalUnspent s ≫= noteValueSummary; spendable ← rw_Spendable s ≫= spendable_of;
  immature ← rw_Immature s ≫= noteValueSummary; pending ← rw_PendingSpend s ≫= pending_of;
  below ← rw_BelowMinNote s ≫= noteValueSummary; unavailable ← rw_WitnessUnavailable s ≫= noteValueSummary;
  Some {| ws_WalletID := TrimSpace wallet; ws_MinConfirmations := confirmations; ws_MinNoteZat := min_note;
          ws_AsOfScannerHeight := height; ws_AsOfScannerHash := TrimSpace hash; ws_TotalUnspent := total;
          ws_Spendable := spendable; ws_Immature := immature; ws_PendingSpend := pending;
          ws_BelowMinNote := below; ws_WitnessUnavailable := unavailable |}.

(** * Note statuses on the wire *)

Record rawNoteStatus := {
  rn_NoteID : option string; rn_State : option string; rn_SourceHeight : nullable Z; rn_ValueZat : nullable Z;
  rn_PendingSpentTxID : nullable string; rn_PendingSpentAt : nullable time;
  rn_PendingSpentExpiryHeight : nullable Z; rn_SpentTxID : nullable string; rn_SpentHeight : nullable Z;
  rn_SpentConfirmedHeight : nullable Z
}.

Definition no_status : rawNoteStatus :=
  {| rn_NoteID := None; rn_State := None; rn_SourceHeight := None; rn_ValueZat := None; rn_PendingSpentTxID := None;
     rn_PendingSpentAt := None; rn_PendingSpentExpiryHeight := None; rn_SpentTxID := None; rn_SpentHeight := None;
     rn_SpentConfirmedHeight := None |}.

(** The decoders are strict. *)
Definition into_note_status (j : json) (s : rawNoteStatus) : option rawNoteStatus :=
  ms ← fields_of true ["note_id"; "state"; "source_height"; "value_zat"; "pending_spent_txid"; "pending_spent_at";
         "pending_spent_expiry_height"; "spent_txid"; "spent_height"; "spent_confirmed_height"]%string j;
  id ← decode_field "note_id" string_ptr (rn_NoteID s) ms;
  state ← decode_field "state" string_ptr (rn_State s) ms;
  source ← decode_field "source_height" int64_field (rn_SourceHeight s) ms;
  value ← decode_field "value_zat" int64_field (rn_ValueZat s) ms;
  pending ← decode_field "pending_spent_txid" string_field (rn_PendingSpentTxID s) ms;
  at_time ← decode_field "pending_spent_at" time_field (rn_PendingSpentAt s) ms;
  expiry ← decode_field "pending_spent_expiry_height" int64_field (rn_PendingSpentExpiryHeight s) ms;
  spent ← decode_field "spent_txid" string_field (rn_SpentTxID s) ms;
  height ← decode_field "spent_height" int64_field (rn_SpentHeight s) ms;
  confirmed ← decode_field "spent_confirmed_height" int64_field (rn_SpentConfirmedHeight s) ms;
  Some {| rn_NoteID := id; rn_State := state; rn_SourceHeight := source; rn_ValueZat := value;
          rn_PendingSpentTxID := pending; rn_PendingSpentAt := at_time; rn_PendingSpentExpiryHeight := expiry;
          rn_SpentTxID := spent; rn_SpentHeight := height; rn_SpentConfirmedHeight := confirmed |}.

Record rawWalletNoteStatuses := {
  rn_WalletID : option string; rn_EventEpoch : option string; rn_AsOfScannerHeight : option Z;
  rn_AsOfScannerHash : option string; rn_Statuses : option (list rawNoteStatus)
}.

Definition into_statuses (j : json) (s : rawWalletNoteStatuses) : option rawWalletNoteStatuses :=
  ms ← fields_of true ["wallet_id"; "event_epoch"; "as_of_scanner_height"; "as_of_scanner_hash"; "statuses"]%string j;
  wallet ← decode_field "wallet_id" string_ptr (rn_WalletID s) ms;
  epoch ← decode_field "event_epoch" string_ptr (rn_EventEpoch s) ms;
  height ← decode_field "as_of_scanner_height" int64_ptr (rn_AsOfScannerHeight s) ms;
  hash ← decode_field "as_of_scanner_hash" string_ptr (rn_AsOfScannerHash s) ms;
  statuses ← decode_field "statuses" (into_ptr (into_slice into_note_status no_status) []) (rn_Statuses s) ms;
  Some {| rn_WalletID := wallet; rn_EventEpoch := epoch; rn_AsOfScannerHeight := height; rn_AsOfScannerHash := hash;
          rn_Statuses := statuses |}.

Definition no_statuses : rawWalletNoteStatuses :=
  {| rn_WalletID := None; rn_EventEpoch := None; rn_AsOfScannerHeight := None; rn_AsOfScannerHash := None;
     rn_Statuses := None |}.

(** [None] is the refusal. *)
Definition noteStatus (raw : rawNoteStatus) : option NoteStatus :=
  id ← rn_NoteID raw; name ← rn_State raw;
  let known := has_value (rn_SourceHeight raw) && has_value (rn_ValueZat raw) in
  let noSource := negb (is_set (rn_SourceHeight raw)) && negb (is_set (rn_ValueZat raw)) in
  let noPending := negb (is_set (rn_PendingSpentTxID raw)) && negb (is_set (rn_PendingSpentAt raw))
                   && negb (is_set (rn_PendingSpentExpiryHeight raw)) in
  let noSpent := negb (is_set (rn_SpentTxID raw)) && negb (is_set (rn_SpentHeight raw))
                 && negb (is_set (rn_SpentConfirmedHeight raw)) in
  let with_state (ok : bool) (state : NoteState) :=
    if ok then Some {| ns_NoteID := id; ns_State := state; ns_SourceHeight := value_of (rn_SourceHeight raw);
                       ns_ValueZat := value_of (rn_ValueZat raw);
                       ns_PendingSpentTxID := value_of (rn_PendingSpentTxID raw);
                       ns_PendingSpentAt := value_of (rn_PendingSpentAt raw);
                       ns_PendingSpentExpiryHeight := value_of (rn_PendingSpentExpiryHeight raw);
                       ns_SpentTxID := value_of (rn_SpentTxID raw); ns_SpentHeight := value_of (rn_SpentHeight raw);
                       ns_SpentConfirmedHeight := value_of (rn_SpentConfirmedHeight raw) |}
    else None in
  if String.eqb name "unknown" then with_state (noSource && noPending && noSpent) NoteUnknown
  else if String.eqb name "unspent" then with_state (known && noPending && noSpent) NoteUnspent
  else if String.eqb name "pending"
  then with_state (known && noSpent && has_value (rn_PendingSpentTxID raw) && has_value (rn_PendingSpentAt raw)
                   && negb (is_null (rn_PendingSpentExpiryHeight raw))) NotePending
  else if String.eqb name "spent"
  then with_state (known && noPending && has_value (rn_SpentTxID raw) && has_value (rn_SpentHeight raw)
                   && negb (is_null (rn_SpentConfirmedHeight raw))) NoteSpent
  else None.

(** The statuses, if every field is there. *)
Definition statuses_of (raw : rawWalletNoteStatuses) : option WalletNoteStatuses :=
  wallet ← rn_WalletID raw; epoch ← rn_EventEpoch raw; height ← rn_AsOfScannerHeight raw;
  hash ← rn_AsOfScannerHash raw; l ← rn_Statuses raw; statuses ← mapM noteStatus l;
  Some {| wns_WalletID := wallet; wns_EventEpoch := epoch; wns_AsOfScannerHeight := height;
          wns_AsOfScannerHash := hash; wns_Statuses := statuses |}.

(** * One exchange *)

Section client.
Context (c : Client) (Do : http_request -> exchange).

Definition scanner_request (method path : string) (input : option json) : http_request :=
  {| hq_method := method; hq_url := sc_baseURL c +:+ path;
     hq_headers := [("Accept", "application/json")]%string
       ++ (match input with Some _ => [("Content-Type", "application/json")] | None => [] end)%string
       ++ (if negb (String.eqb (sc_token c) "") then [("Authorization", "Bearer " +:+ sc_token c)] else [])%string;
     hq_body := match input with Some j => Marshal j | None => "" end |}.

Definition doWithClient {A} (method path : string) (input : option json) (into : json -> A -> option A) (zero : A)
    : result A :=
  match Do (scanner_request method path input) with
  | not_built => Err (New "build scanner request")
  | unanswered e => Err (UpstreamError "unavailable" e)
  | answered resp =>
      match read_limited bodyLimit (Body resp) with
      | Err _ => Err (UpstreamError "unavailable" (New "read scanner response"))
      | Ok raw =>
          if (StatusCode resp <? 200) || (299 <? StatusCode resp) then Err (HttpError (StatusCode resp))
          else if String.eqb (TrimSpace raw) "" then Ok zero
          else match Unmarshal into zero raw with
               | Some v => Ok v
               | None => Err (invalid "invalid scanner response")
               end
      end
  end.

Definition wallet_path (walletID rest : string) : string := "/v1/wallets/" +:+ PathEscape walletID +:+ rest.

(** * Backfill *)

Definition into_backfill (j : json) (b : BackfillStatus) : option BackfillStatus :=
  ms ← struct_members j;
  wallet ← decode_field "wallet_id" into_string (bf_WalletID b) ms;
  fingerprint ← decode_field "ufvk_fingerprint" into_string (bf_UFVKFingerprint b) ms;
  birthday ← decode_field "birthday_height" into_int64 (bf_BirthdayHeight b) ms;
  next ← decode_field "next_height" into_int64 (bf_NextHeight b) ms;
  target ← decode_field "target_height" into_int64 (bf_TargetHeight b) ms;
  state ← decode_field "state" into_string (bf_State b) ms;
  updated ← decode_field "updated_at" into_time (bf_UpdatedAt b) ms;
  Some {| bf_WalletID := wallet; bf_UFVKFingerprint := fingerprint; bf_BirthdayHeight := birthday;
          bf_NextHeight := next; bf_TargetHeight := target; bf_State := state; bf_UpdatedAt := updated |}.

Definition no_backfill : BackfillStatus :=
  {| bf_WalletID := ""; bf_UFVKFingerprint := ""; bf_BirthdayHeight := 0; bf_NextHeight := 0; bf_TargetHeight := 0;
     bf_State := ""; bf_UpdatedAt := 0 |}.

(** [None] when the scanner does not have the wallet. *)
Definition BackfillStatus (walletID : string) : result (option Domain.BackfillStatus) :=
  match doWithClient "GET" (wallet_path walletID "/backfill") None into_backfill no_backfill with
  | Err e => if has_status e (Z.eqb 404) then Ok None else Err (UpstreamError "unavailable" e)
  | Ok b =>
      let fingerprint := bf_UFVKFingerprint b in
      if negb (String.eqb (bf_WalletID b) walletID) || negb (len fingerprint =? 64)
         || negb (String.eqb fingerprint (ToLower fingerprint)) || (bf_BirthdayHeight b <? 0)
         || (bf_NextHeight b <? bf_BirthdayHeight b)
      then Err (invalid "scanner returned invalid backfill status")
      else if negb (all_bytes is_lower_hex fingerprint) then Err (invalid "scanner returned invalid backfill status")
      else if negb (existsb (String.eqb (bf_State b)) ["pending"; "running"; "complete"; "error"]%string)
      then Err (invalid "scanner returned invalid backfill state")
      else Ok (Some b)
  end.

Definition into_next_height (j : json) (h : Z) : option Z :=
  ms ← struct_members j; decode_field "next_height" into_int64 h ms.

Definition Backfill (walletID : string) (toHeight batchSize : Z) : result Z :=
  next ← doWithClient "POST" (wallet_path walletID "/backfill")
           (Some (JObject [("batch_size", JInt batchSize); ("to_height", JInt toHeight)]%string)) into_next_height 0;
  if (next <? 0) || (add64 toHeight 1 <? next) then Err (invalid "scanner returned invalid backfill progress")
  else Ok next.

(** * Health and registration *)

Definition into_health (j : json) (h : ScannerHealth) : option ScannerHealth :=
  ms ← struct_members j;
  status ← decode_field "status" into_string (health_Status h) ms;
  network ← decode_field "network" into_string (health_Network h) ms;
  hrp ← decode_field "ua_hrp" into_string (health_UAHRP h) ms;
  confirmations ← decode_field "confirmations" (into_ptr into_int64 0) (health_Confirmations h) ms;
  epoch ← decode_field "event_epoch" into_string (health_EventEpoch h) ms;
  ready ← decode_field "ready" (into_ptr into_bool false) (health_Ready h) ms;
  node ← decode_field "node_height" (into_ptr into_int64 0) (health_NodeHeight h) ms;
  scanned ← decode_field "scanned_height" (into_ptr into_int64 0) (health_ScannedHeight h) ms;
  hash ← decode_field "scanned_hash" into_string (health_ScannedHash h) ms;
  lag ← decode_field "scanner_lag" (into_ptr into_int64 0) (health_ScannerLag h) ms;
  max_lag ← decode_field "max_ready_lag" (into_ptr into_int64 0) (health_MaxReadyLag h) ms;
  history ← decode_field "history_complete" (into_ptr into_bool false) (health_HistoryComplete h) ms;
  pending ← decode_field "pending_spends_ready" (into_ptr into_bool false) (health_PendingSpendsReady h) ms;
  Some {| health_Status := status; health_Network := network; health_UAHRP := hrp;
          health_Confirmations := confirmations; health_EventEpoch := epoch; health_Ready := ready;
          health_NodeHeight := node; health_ScannedHeight := scanned; health_ScannedHash := hash;
          health_ScannerLag := lag; health_MaxReadyLag := max_lag; health_HistoryComplete := history;
          health_PendingSpendsReady := pending |}.

Definition no_health : ScannerHealth :=
  {| health_Status := ""; health_Network := ""; health_UAHRP := ""; health_Confirmations := None;
     health_EventEpoch := ""; health_Ready := None; health_NodeHeight := None; health_ScannedHeight := None;
     health_ScannedHash := ""; health_ScannerLag := None; health_MaxReadyLag := None;
     health_HistoryComplete := None; health_PendingSpendsReady := None |}.

Definition Health : result ScannerHealth := doWithClient "GET" "/v1/health" None into_health no_health.

Definition into_status (j : json) (s : string) : option string :=
  ms ← struct_members j; decode_field "status" into_string s ms.

Definition UpsertWallet (walletID ufvk : string) (birthdayHeight : Z) : result unit :=
  _ ← doWithClient "POST" "/v1/wallets"
        (Some (JObject [("birthday_height", JInt birthdayHeight); ("ufvk", JString ufvk);
                        ("wallet_id", JString walletID)]%string)) into_status ""%string;
  Ok tt.

(** * Balances *)

Definition into_balance (j : json) (b : Balance) : option Balance :=
  ms ← struct_members j;
  available ← decode_field "available_zat" into_int64 (bal_AvailableZat b) ms;
  incoming ← decode_field "pending_incoming_zat" into_int64 (bal_PendingIncomingZat b) ms;
  outgoing ← decode_field "pending_outgoing_zat" into_int64 (bal_PendingOutgoingZat b) ms;
  total ← decode_field "total_unspent_zat" into_int64 (bal_TotalUnspentZat b) ms;
  confirmations ← decode_field "min_confirmations" into_int64 (bal_MinConfirmations b) ms;
  node ← decode_field "as_of_node_height" into_int64 (bal_AsOfNodeHeight b) ms;
  scanner ← decode_field "as_of_scanner_height" into_int64 (bal_AsOfScannerHeight b) ms;
  lag ← decode_field "scanner_lag" into_int64 (bal_ScannerLag b) ms;
  wallet ← decode_field "wallet_id" into_string (bal_WalletID b) ms;
  address ← decode_field "recipient_address" into_string (bal_RecipientAddress b) ms;
  Some {| bal_WalletID := wallet; bal_RecipientAddress := address; bal_AvailableZat := available;
          bal_PendingIncomingZat := incoming; bal_PendingOutgoingZat := outgoing; bal_TotalUnspentZat := total;
          bal_MinConfirmations := confirmations; bal_AsOfNodeHeight := node; bal_AsOfScannerHeight := scanner;
          bal_ScannerLag := lag |}.

Definition no_balance : Balance :=
  {| bal_WalletID := ""; bal_RecipientAddress := ""; bal_AvailableZat := 0; bal_PendingIncomingZat := 0;
     bal_PendingOutgoingZat := 0; bal_TotalUnspentZat := 0; bal_MinConfirmations := 0; bal_AsOfNodeHeight := 0;
     bal_AsOfScannerHeight := 0; bal_ScannerLag := 0 |}.

Definition Balance (walletID address : string) (confirmations : Z) : result (option Domain.Balance) :=
  let path := wallet_path walletID ("/addresses/" +:+ PathEscape address +:+ "/balance?"
                +:+ Encode [("min_confirmations", pretty confirmations)]%string) in
  match doWithClient "GET" path None into_balance no_balance with
  | Err e => if has_status e (Z.eqb 404) then Ok None else Err e
  | Ok b => if Balance_ValidFor b walletID address confirmations then Ok (Some b)
            else Err (invalid "scanner returned invalid address balance")
  end.

(** * Note summaries *)

Definition invalid_summary : error := invalid "scanner returned invalid note summary".

Definition NoteSummary (walletID : string) (minConfirmations minNoteZat maxNotes : Z)
    : result (option WalletNoteSummary) :=
  let path := wallet_path walletID ("/notes/summary?" +:+ Encode
    [("max_notes", pretty maxNotes); ("min_confirmations", pretty minConfirmations);
     ("min_note_zat", pretty minNoteZat)]%string) in
  match doWithClient "GET" path None (into_ptr into_summary no_summary) None with
  | Err e =>
      if has_status e (Z.eqb 404) then Ok None
      else if has_status e (Z.eqb 422) then Err ErrNoteSummaryLimitExceeded else Err e
  | Ok raw =>
      match raw ≫= summary_of with
      | None => Err invalid_summary
      | Some out => if WalletNoteSummary_ValidFor out walletID minConfirmations minNoteZat maxNotes
                    then Ok (Some out) else Err invalid_summary
      end
  end.

(** * Note statuses *)

Definition invalid_statuses : error := invalid "scanner returned invalid note statuses".

(** [json.RawMessage]: the value as it came. *)
Definition into_payload (j : json) (old : option json) : option (option json) := Some (Some j).

Definition NoteStatuses (walletID : string) (noteIDs : list string) : result (option WalletNoteStatuses) :=
  match doWithClient "POST" (wallet_path walletID "/notes/status")
          (Some (JObject [("note_ids"%string, JArray (map JString noteIDs))])) into_payload None with
  | Err e =>
      if has_status e (Z.eqb 404) then Ok None
      else if has_status e (Z.eqb 409) then Err ErrScannerSnapshotChanged
      else if has_status e (fun s => (400 <=? s) && (s <? 500)) then Err invalid_statuses
      else if IsUpstreamKind e "invalid_response" then Err e
      else Err (UpstreamError "unavailable" e)
  | Ok payload =>
      match j ← payload; raw ← into_ptr into_statuses no_statuses j None; raw ← raw; statuses_of raw with
      | None => Err invalid_statuses
      | Some out => if WalletNoteStatuses_ValidFor out walletID noteIDs then Ok (Some out) else Err invalid_statuses
      end
  end.

(** * Events *)

(** An event's payload is kept as JSON text, here in its compact form. *)
Definition into_text (j : json) (old : string) : option string := Some (Marshal j).

Definition into_event (j : json) (e : ScannerEvent) : option ScannerEvent :=
  ms ← struct_members j;
  id ← decode_field "id" into_int64 (se_ID e) ms;
  kind ← decode_field "kind" into_string (se_Kind e) ms;
  height ← decode_field "height" into_int64 (se_Height e) ms;
  payload ← decode_field "payload" into_text (se_Payload e) ms;
  created ← decode_field "created_at" into_time (se_CreatedAt e) ms;
  Some {| se_ID := id; se_Kind := kind; se_Height := height; se_Payload := payload; se_CreatedAt := created |}.

Definition no_event : ScannerEvent :=
  {| se_ID := 0; se_Kind := ""; se_Height := 0; se_Payload := ""; se_CreatedAt := 0 |}.

Definition into_page (j : json) (p : EventsPage) : option EventsPage :=
  ms ← struct_members j;
  events ← decode_field "events" (into_slice into_event no_event) (ep_Events p) ms;
  next ← decode_field "next_cursor" into_int64 (ep_NextCursor p) ms;
  epoch ← decode_field "event_epoch" into_string (ep_EventEpoch p) ms;
  Some {| ep_Events := events; ep_NextCursor := next; ep_EventEpoch := epoch |}.

Definition Events (walletID : string) (cursor limit : Z) (filter : EventFilter) : result EventsPage :=
  let query := ("cursor", pretty cursor) :: map (fun kind => ("kind", kind)) (ef_Kinds filter)
               ++ ("limit", pretty limit)
               :: (if String.eqb (ef_TxID filter) "" then [] else [("txid", ef_TxID filter)]) in
  page ← doWithClient "GET" (wallet_path walletID ("/events?" +:+ Encode query)) None into_page
           {| ep_Events := []; ep_NextCursor := 0; ep_EventEpoch := "" |};
  Ok {| ep_Events := ep_Events page; ep_NextCursor := ep_NextCursor page;
        ep_EventEpoch := TrimSpace (ep_EventEpoch page) |}.
End client.

(** * Theorems *)

(** ** What the client passes on *)

Section theorems.
Context (c : Client) (Do : http_request -> exchange).

(** The scanner answered the request with a success status and a body that can be read. *)
Definition succeeded (method path : string) (input : option json) : Prop :=
  exists resp raw, Do (scanner_request c method path input) = answered resp /\ 200 <= StatusCode resp <= 299 /\
    read_limited bodyLimit (Body resp) = Ok raw.

Lemma doWithClient_ok {A} method path input (into : json -> A -> option A) zero v :
  doWithClient c Do method path input into zero = Ok v -> succeeded method path input.
Proof.
  unfold doWithClient. destruct (Do _) as [|e|resp] eqn:Hdo; [done..|].
  destruct (read_limited _ _) as [raw|] eqn:Hraw; [|done].
  destruct (Z.ltb_spec (StatusCode resp) 200); [done|]. destruct (Z.ltb_spec 299 (StatusCode resp)); [done|].
  intros _. exists resp, raw. split_and!; done || lia.
Qed.

Definition backfill_ok (walletID : string) (b : Domain.BackfillStatus) : Prop :=
  bf_WalletID b = walletID /\ lower_hex64 (bf_UFVKFingerprint b) = true /\ 0 <= bf_BirthdayHeight b <= bf_NextHeight b /\
  bf_State b ∈ ["pending"; "running"; "complete"; "error"]%string.

(** C27: everything the client reports of a wallet comes from the scanner's success
    answer to a request that names this wallet, and is consistent in itself: note
    statuses, note summaries and balances pass their validators for the very ids,
    bounds and confirmations that were asked for, a backfill status names the wallet
    with a well-formed key fingerprint, and a backfill never claims to be beyond the
    block after the one asked for. *)
Theorem scanner_answers_are_valid walletID :
  (forall ids s, NoteStatuses c Do walletID ids = Ok (Some s) ->
     (exists input, succeeded "POST" (wallet_path walletID "/notes/status") (Some input)) /\
     WalletNoteStatuses_ValidFor s walletID ids = true /\ wns_WalletID s = walletID) /\
  (forall conf min_note max_notes s, NoteSummary c Do walletID conf min_note max_notes = Ok (Some s) ->
     (exists query, succeeded "GET" (wallet_path walletID ("/notes/summary?" +:+ query)) None) /\
     WalletNoteSummary_ValidFor s walletID conf min_note max_notes = true /\ ws_WalletID s = walletID) /\
  (forall address conf b, Balance c Do walletID address conf = Ok (Some b) ->
     (exists rest, succeeded "GET" (wallet_path walletID ("/addresses/" +:+ rest)) None) /\
     Balance_ValidFor b walletID address conf = true /\ bal_WalletID b = walletID) /\
  (forall b, BackfillStatus c Do walletID = Ok (Some b) ->
     succeeded "GET" (wallet_path walletID "/backfill") None /\ backfill_ok walletID b) /\
  (forall to_height batch next, Backfill c Do walletID to_height batch = Ok next ->
     (exists input, succeeded "POST" (wallet_path walletID "/backfill") (Some input)) /\
     0 <= next <= add64 to_height 1).
Proof.
  split_and!.
  - intros ids s. unfold NoteStatuses.
    destruct (doWithClient _ _ _ _ _ _ _) as [payload|e] eqn:Hdo; [|by repeat case_match].
    apply doWithClient_ok in Hdo. destruct (j ← payload; _) as [out|]; [|done].
    destruct (WalletNoteStatuses_ValidFor out walletID ids) eqn:Hv; [|done].
    intros [= <-]. split; [eauto|]. split; [done|]. unfold WalletNoteStatuses_ValidFor in Hv.
    destruct (String.eqb_spec (wns_WalletID out) walletID); [done|discriminate Hv].
  - intros conf min_note max_notes s. unfold NoteSummary.
    destruct (doWithClient _ _ _ _ _ _ _) as [raw|e] eqn:Hdo; [|by repeat case_match].
    apply doWithClient_ok in Hdo. destruct (raw ≫= summary_of) as [out|]; [|done].
    destruct (WalletNoteSummary_ValidFor _ _ _ _ _) eqn:Hv; [|done].
    intros [= <-]. split; [eauto|]. split; [done|]. unfold WalletNoteSummary_ValidFor in Hv.
    destruct (String.eqb_spec (ws_WalletID out) walletID); [done|discriminate Hv].
  - intros address conf b. unfold Balance. destruct (doWithClient _ _ _ _ _ _ _) as [out|e] eqn:Hdo; [|by case_match].
    apply doWithClient_ok in Hdo. destruct (Balance_ValidFor _ _ _ _) eqn:Hv; [|done].
    intros [= <-]. split; [eauto|]. split; [done|]. unfold Balance_ValidFor in Hv.
    destruct (String.eqb_spec (bal_WalletID out) walletID); [done|discriminate Hv].
  - intros b. unfold BackfillStatus. destruct (doWithClient _ _ _ _ _ _ _) as [out|e] eqn:Hdo; [|by case_match].
    apply doWithClient_ok in Hdo. destruct (_ || _) eqn:Hg; [done|]. destruct (negb (all_bytes _ _)) eqn:Hh; [done|].
    destruct (negb (existsb _ _)) eqn:Hs; [done|]. intros [= <-]. split; [done|].
    bool_to_prop. unfold backfill_ok, lower_hex64. split_and!; [done| |lia|lia|].
    + apply andb_true_iff. split; [by apply Z.eqb_eq|done].
    + match goal with H : existsb _ _ = true |- _ => apply existsb_exists in H as (x & Hx & ->%String.eqb_eq) end.
      by apply list_elem_of_In.
  - intros to_height batch next. unfold Backfill. intros (n & Hdo & H)%result_bind_ok. apply doWithClient_ok in Hdo.
    destruct (_ || _) eqn:Hg; [done|]. injection H as <-. bool_to_prop. split; [eauto|lia].
Qed.
End theorems.

(** ** Paths *)

Lemma split_unique (p : ascii -> bool) a b x y l m : forallb p a = true -> forallb p b = true ->
  p x = false -> p y = false -> a ++ x :: l = b ++ y :: m -> a = b /\ x :: l = y :: m.
Proof.
  revert b. induction a as [|u a IH]; intros [|v b] Ha Hb Hx Hy; cbn in *.
  - done.
  - intros [= -> _]. apply andb_prop in Hb as [Hb _]. congruence.
  - intros [= -> _]. apply andb_prop in Ha as [Ha _]. congruence.
  - intros [= -> H]. apply andb_prop in Ha as [_ Ha], Hb as [_ Hb].
    destruct (IH b Ha Hb Hx Hy H) as [-> ->]. done.
Qed.

(** the wallet of a request is one segment of its path: two paths are the same
    only for the same wallet and the same operation, whatever bytes the wallet ids
    are made of. *)
Theorem wallet_path_injective w w' r r' :
  wallet_path w ("/" +:+ r) = wallet_path w' ("/" +:+ r') -> w = w' /\ r = r'.
Proof.
  unfold wallet_path. intros H.
  assert (Hb : to_bytes (PathEscape w) ++ "/"%char :: to_bytes r = to_bytes (PathEscape w') ++ "/"%char :: to_bytes r').
  { assert (Happ : forall a b, "/v1/wallets/" +:+ PathEscape a +:+ "/" +:+ b
      = "/v1/wallets/" +:+ of_bytes (to_bytes (PathEscape a) ++ "/"%char :: to_bytes b)).
    { intros a b. f_equal. rewrite <- (of_to_bytes (PathEscape a +:+ _)). f_equal. by rewrite to_bytes_app. }
    rewrite !Happ in H. injection H as H. apply (f_equal to_bytes) in H.
    rewrite !to_bytes_app, !to_of_bytes in H. exact H. }
  unfold PathEscape in Hb. rewrite !to_of_bytes in Hb.
  destruct (split_unique (fun d => segment_char d || Ascii.eqb d "%") _ _ "/"%char "/"%char _ _
    (PathEscape_plain (to_bytes w)) (PathEscape_plain (to_bytes w')) eq_refl eq_refl Hb) as [He Hr].
  split.
  - assert (Hw : to_bytes w = to_bytes w').
    { pose proof (PathUnescape_escape (to_bytes w)) as H1. rewrite He, PathUnescape_escape in H1. by injection H1. }
    by rewrite <- (of_to_bytes w), Hw, of_to_bytes.
  - injection Hr as Hr. by rewrite <- (of_to_bytes r), Hr, of_to_bytes.
Qed.

(** * Witnesses *)

Definition demo_client : Client := New_client "http://scanner:8080/" " token ".

Definition demo_note : string := "00000000000000000000000000000000000000000000000000000000000000aa:0".
Definition demo_hash : string := "00000000000000000000000000000000000000000000000000000000000000bb".

(** A scanner that knows of one unspent note of the wallet "hot". *)
Definition demo_statuses : json :=
  JObject [("wallet_id", JString "hot"); ("event_epoch", JString demo_hash); ("as_of_scanner_height", JInt 900);
           ("as_of_scanner_hash", JString demo_hash);
           ("statuses", JArray [JObject [("note_id", JString demo_note); ("state", JString "unspent");
                                         ("source_height", JInt 800); ("value_zat", JInt 5000)]])]%string.
Definition demo_scanner (q : http_request) : exchange :=
  if String.eqb (hq_url q) "http://scanner:8080/v1/wallets/hot/notes/status"
  then answered {| StatusCode := 200; Body := Ok (Marshal demo_statuses) |}
  else answered {| StatusCode := 404; Body := Ok ""%string |}.

Lemma scanner_answers_are_valid_witness :
  exists s, NoteStatuses demo_client demo_scanner "hot" [demo_note] = Ok (Some s) /\
    WalletNoteStatuses_ValidFor s "hot" [demo_note] = true /\ wns_AsOfScannerHeight s = 900.
Proof.
  destruct (NoteStatuses demo_client demo_scanner "hot" [demo_note]) as [[s|]|e] eqn:Hs;
    [|vm_compute in Hs; discriminate Hs..].
  exists s. split; [reflexivity|].
  destruct (scanner_answers_are_valid demo_client demo_scanner "hot") as [Hv _].
  destruct (Hv _ _ Hs) as (_ & Hvalid & _). split; [exact Hvalid|].
  vm_compute in Hs. injection Hs as <-. reflexivity.
Defined.

Lemma wallet_path_injective_witness : wallet_path "a/b" "/backfill" = wallet_path "a/b" "/backfill" /\ "a/b"%string = "a/b"%string.
Proof. split; [reflexivity|]. exact (proj1 (wallet_path_injective "a/b" "a/b" "backfill" "backfill" eq_refl)). Defined.
