(* ===== verification/Installation.v ===== *)
(** The installation manifest of [internal/installation/state.go]: the external,
    crash-safe ledger of address high-water marks, and the identity it binds.

    The file is an optional manifest.  A locked section can fail to lock or to
    read, and its atomic replacement can fail before the rename (the file is as
    it was) or after it (the file is new but the caller sees an error): the
    argument [fs] says what happened.  Directory permissions, symbolic links and
    the encoding of the file are part of these outcomes: [Ledgerfile.v] has the
    calls that make them up, and [Ledgerrefine.v] that nothing else comes of them. *)
From S2P Require Import Prelude GoString GoTime Sha256.

(** * Data *)

Record WalletIdentity := {
  wi_WalletID : string;
  wi_UFVKFingerprint : string;
  wi_BirthdayHeight : Z;
  wi_Account : Z
}.

Record Identity := { id_Network : string; id_Wallets : list WalletIdentity }.

Record WalletState := {
  ws_Fingerprint : string;
  ws_Birthday : Z;
  ws_Account : Z;
  NextAddressIndex : Z;
  SkippedAddressIndices : list Z
}.

Record Manifest := {
  Version : Z;
  InstallationID : string;
  mf_Network : string;
  IdentitySHA256 : string;
  Wallets : gmap string WalletState;
  mf_CreatedAt : time;
  mf_UpdatedAt : time
}.

Definition manifestVersion : Z := 2.
Definition index_space : Z := uint32_max + 1.

(** * Identity *)

Definition trim_wallet (w : WalletIdentity) : WalletIdentity :=
  {| wi_WalletID := TrimSpace (wi_WalletID w); wi_UFVKFingerprint := TrimSpace (wi_UFVKFingerprint w);
     wi_BirthdayHeight := wi_BirthdayHeight w; wi_Account := wi_Account w |}.

Definition by_wallet_id (x y : WalletIdentity) : Prop := String.le (wi_WalletID x) (wi_WalletID y).

#[export] Instance by_wallet_id_dec : RelDecision by_wallet_id.
Proof. unfold by_wallet_id. intros x y. apply _. Defined.

#[export] Instance by_wallet_id_total : Total by_wallet_id.
Proof. intros x y. apply (total String.le). Qed.

#[export] Instance by_wallet_id_trans : Transitive by_wallet_id.
Proof. intros x y z. unfold by_wallet_id. apply (transitivity (R := String.le)). Qed.

Definition canonicalIdentity (identity : Identity) : Identity :=
  {| id_Network := TrimSpace (id_Network identity);
     id_Wallets := merge_sort by_wallet_id (map trim_wallet (id_Wallets identity)) |}.

Definition about (text before wallet after : string) : error :=
  New (text +:+ before +:+ quote wallet +:+ after).

Fixpoint validate_wallets (seen : gset string) (wallets : list WalletIdentity) : result unit :=
  match wallets with
  | [] => Ok tt
  | w :: rest =>
      if String.eqb (wi_WalletID w) "" then Err (New "installation wallet_id is required")
      else if bool_decide (wi_WalletID w ∈ seen)
      then Err (New ("duplicate installation wallet_id " +:+ quote (wi_WalletID w)))
      else if wi_BirthdayHeight w <? 0
      then Err (about "installation wallet " "" (wi_WalletID w) " birthday must be non-negative")
      else if 2147483648 <=? wi_Account w
      then Err (about "installation wallet " "" (wi_WalletID w) " account must be below 2147483648")
      else if negb (lower_hex32_bytes (wi_UFVKFingerprint w))
      then Err (about "installation wallet " "" (wi_WalletID w) " has an invalid UFVK fingerprint")
      else validate_wallets ({[wi_WalletID w]} ∪ seen) rest
  end.

Definition validateIdentity (identity : Identity) : result unit :=
  if negb (String.eqb (id_Network identity) "mainnet") && negb (String.eqb (id_Network identity) "testnet")
     && negb (String.eqb (id_Network identity) "regtest")
  then Err (New ("unsupported installation network " +:+ quote (id_Network identity)))
  else match id_Wallets identity with
       | [] => Err (New "installation requires at least one wallet")
       | _ => validate_wallets ∅ (id_Wallets identity)
       end.

Definition nul : string := String (ascii_of_N 0) EmptyString.
Definition nl : string := String (ascii_of_N 10) EmptyString.

Definition identity_line (w : WalletIdentity) : string :=
  wi_WalletID w +:+ nul +:+ wi_UFVKFingerprint w +:+ nul +:+ pretty (wi_BirthdayHeight w) +:+ nul
  +:+ pretty (wi_Account w) +:+ nl.
Definition legacy_identity_line (w : WalletIdentity) : string :=
  wi_WalletID w +:+ nul +:+ wi_UFVKFingerprint w +:+ nul +:+ pretty (wi_BirthdayHeight w) +:+ nl.

Definition checksum_with (line : WalletIdentity -> string) (identity : Identity) : string :=
  let c := canonicalIdentity identity in
  EncodeToString (Sum256 (id_Network c +:+ nl +:+ String.concat "" (map line (id_Wallets c)))).

Definition identityChecksum (identity : Identity) : string := checksum_with identity_line identity.
Definition legacyIdentityChecksum (identity : Identity) : string :=
  checksum_with legacy_identity_line identity.

(** * Verification *)

(** The loop over the skipped indices of one wallet. *)
Fixpoint verify_skipped (wallet : string) (next : Z) (previous : option Z) (skipped : list Z)
    : result unit :=
  match skipped with
  | [] => Ok tt
  | i :: rest =>
      if next <=? i
      then Err (about "installation wallet " "" wallet
                  (" has an unreserved skipped address index " +:+ pretty i))
      else if match previous with Some p => i <=? p | None => false end
      then Err (about "installation wallet " "" wallet
                  " skipped address indices are not strictly ordered")
      else verify_skipped wallet next (Some i) rest
  end.

Definition verify_wallet (got : WalletState) (wanted : WalletIdentity) : result unit :=
  let id := wi_WalletID wanted in
  if negb (String.eqb (ws_Fingerprint got) (wi_UFVKFingerprint wanted))
  then Err (about "installation wallet " "" id " UFVK fingerprint mismatch")
  else if negb (ws_Birthday got =? wi_BirthdayHeight wanted)
  then Err (about "installation wallet " "" id
              (" birthday mismatch: manifest=" +:+ pretty (ws_Birthday got) +:+ " configured="
               +:+ pretty (wi_BirthdayHeight wanted)))
  else if negb (ws_Account got =? wi_Account wanted)
  then Err (about "installation wallet " "" id
              (" account mismatch: manifest=" +:+ pretty (ws_Account got) +:+ " configured="
               +:+ pretty (wi_Account wanted)))
  else if index_space <? NextAddressIndex got
  then Err (about "installation wallet " "" id " has an invalid address high-water")
  else verify_skipped id (NextAddressIndex got) None (SkippedAddressIndices got).

Fixpoint verify_wallets (wallets : gmap string WalletState) (expected : list WalletIdentity)
    : result unit :=
  match expected with
  | [] => Ok tt
  | wanted :: rest =>
      match wallets !! wi_WalletID wanted with
      | None => Err (New ("installation manifest is missing configured wallet "
                          +:+ quote (wi_WalletID wanted)))
      | Some got => _ ← verify_wallet got wanted; verify_wallets wallets rest
      end
  end.

Fixpoint legacy_accounts (expected : list WalletIdentity) : result unit :=
  match expected with
  | [] => Ok tt
  | w :: rest =>
      if negb (wi_Account w =? 0)
      then Err (New ("installation manifest version 1 binds wallet " +:+ quote (wi_WalletID w)
                     +:+ " to account 0; configured account=" +:+ pretty (wi_Account w)))
      else legacy_accounts rest
  end.

Definition verifyManifest (manifest : Manifest) (expected : Identity) : result unit :=
  if negb (Version manifest =? 1) && negb (Version manifest =? manifestVersion)
  then Err (New ("unsupported installation manifest version " +:+ pretty (Version manifest)))
  else if negb (lower_hex32_bytes (InstallationID manifest))
  then Err (New "installation manifest has an invalid installation_id")
  else if negb (String.eqb (mf_Network manifest) (id_Network expected))
  then Err (New ("installation network mismatch: manifest=" +:+ quote (mf_Network manifest)
                 +:+ " configured=" +:+ quote (id_Network expected)))
  else
    wantIdentityChecksum ←
      (if Version manifest =? 1
       then _ ← legacy_accounts (id_Wallets expected); Ok (legacyIdentityChecksum expected)
       else Ok (identityChecksum expected));
    if negb (String.eqb (IdentitySHA256 manifest) wantIdentityChecksum)
    then Err (New "installation identity checksum does not match configured network and wallets")
    else if negb (Nat.eqb (size (Wallets manifest)) (length (id_Wallets expected)))
    then Err (New "installation wallet set does not match configured wallets")
    else
      _ ← verify_wallets (Wallets manifest) (id_Wallets expected);
      if IsZero (mf_CreatedAt manifest) || IsZero (mf_UpdatedAt manifest)
         || (mf_UpdatedAt manifest <? mf_CreatedAt manifest)
      then Err (New "installation manifest timestamps are invalid")
      else Ok tt.

(** * The file *)

Inductive write_outcome : Type :=
  | Written
  | NotWritten (e : error)         (* up to the rename *)
  | ReplacedNotSynced (e : error). (* after the rename *)

Record fs_run := { lock_fault : option error; read_fault : option error; write : write_outcome }.

Definition fs_ok : fs_run := {| lock_fault := None; read_fault := None; write := Written |}.

Definition writeAtomic (fs : fs_run) (manifest : Manifest) (file : option Manifest)
    : result unit * option Manifest :=
  match write fs with
  | Written => (Ok tt, Some manifest)
  | NotWritten e => (Err e, file)
  | ReplacedNotSynced e => (Err e, Some manifest)
  end.

Definition missing_manifest : error :=
  New "installation manifest is missing; run the explicit init command for a new installation or recover for existing state".

Definition readAndVerify (fs : fs_run) (identity : Identity) (file : option Manifest)
    : result Manifest :=
  match read_fault fs with
  | Some e => Err e
  | None =>
      match file with
      | None => Err missing_manifest
      | Some m => _ ← verifyManifest m identity; Ok m
      end
  end.

(** [s.withLock(exclusive, fn)]. *)
Definition withLock {A} (fs : fs_run) (fn : option Manifest -> result A * option Manifest)
    (file : option Manifest) : result A * option Manifest :=
  match lock_fault fs with
  | Some e => (Err e, file)
  | None => fn file
  end.

(** Read, change and replace; the value is returned only if the write succeeded. *)
Definition update {A} (fs : fs_run) (identity : Identity)
    (change : Manifest -> result (A * Manifest)) (file : option Manifest)
    : result A * option Manifest :=
  withLock fs (fun file =>
    match (m ← readAndVerify fs identity file; change m) with
    | Err e => (Err e, file)
    | Ok (a, m') =>
        match writeAtomic fs m' file with
        | (Ok _, file') => (Ok a, file')
        | (Err e, file') => (Err e, file')
        end
    end) file.

Definition set_wallet (m : Manifest) (id : string) (w : WalletState) (now : time) : Manifest :=
  {| Version := Version m; InstallationID := InstallationID m; mf_Network := mf_Network m;
     IdentitySHA256 := IdentitySHA256 m; Wallets := <[id := w]> (Wallets m);
     mf_CreatedAt := mf_CreatedAt m; mf_UpdatedAt := now |}.

Definition set_manifest_wallets (m : Manifest) (ws : gmap string WalletState) (now : time) : Manifest :=
  {| Version := Version m; InstallationID := InstallationID m; mf_Network := mf_Network m;
     IdentitySHA256 := IdentitySHA256 m; Wallets := ws;
     mf_CreatedAt := mf_CreatedAt m; mf_UpdatedAt := now |}.

Definition set_next (w : WalletState) (next : Z) : WalletState :=
  {| ws_Fingerprint := ws_Fingerprint w; ws_Birthday := ws_Birthday w; ws_Account := ws_Account w;
     NextAddressIndex := next; SkippedAddressIndices := SkippedAddressIndices w |}.

Definition set_skipped (w : WalletState) (skipped : list Z) : WalletState :=
  {| ws_Fingerprint := ws_Fingerprint w; ws_Birthday := ws_Birthday w; ws_Account := ws_Account w;
     NextAddressIndex := NextAddressIndex w; SkippedAddressIndices := skipped |}.

Definition not_part (walletID : string) : error :=
  New ("wallet " +:+ quote walletID +:+ " is not part of this installation").

(** * Operations *)

(** [newState] on an absolute path: the directories left after [Clean]. *)
Fixpoint clean_path (stack parts : list string) : list string :=
  match parts with
  | [] => stack
  | p :: rest =>
      if String.eqb p "" || String.eqb p "." then clean_path stack rest
      else if String.eqb p ".." then clean_path (tail stack) rest
      else clean_path (p :: stack) rest
  end.

Definition newState (path : string) (identity : Identity) : result Identity :=
  let path := TrimSpace path in
  if String.eqb path "" then Err (New "installation manifest path is required")
  else if negb (HasPrefix path "/") then Err (New "installation manifest path must be absolute")
  else if Nat.eqb (length (clean_path [] (Split path "/"))) 0
  then Err (New "installation manifest path must name a file")
  else
    let identity := canonicalIdentity identity in
    _ ← validateIdentity identity; Ok identity.

Definition add_wallet (m : gmap string WalletState) (w : WalletIdentity) : gmap string WalletState :=
  <[wi_WalletID w :=
    {| ws_Fingerprint := wi_UFVKFingerprint w; ws_Birthday := wi_BirthdayHeight w;
       ws_Account := wi_Account w; NextAddressIndex := 0; SkippedAddressIndices := [] |}]> m.

Definition initial_wallets (wallets : list WalletIdentity) : gmap string WalletState :=
  foldl add_wallet ∅ wallets.

(** [randomID] encodes 32 bytes of [rand.Read]. *)
Definition randomID (random : result string) : result string :=
  raw ← map_err (Wrap "generate installation_id") random; Ok (EncodeToString raw).

Definition create_manifest (identity : Identity) (id : string) (now : time) : Manifest :=
  {| Version := manifestVersion; InstallationID := id; mf_Network := id_Network identity;
     IdentitySHA256 := identityChecksum identity;
     Wallets := initial_wallets (id_Wallets identity);
     mf_CreatedAt := now; mf_UpdatedAt := now |}.

(** [Create]; the state it returns is the canonical identity. *)
Definition Create (fs : fs_run) (path : string) (identity : Identity) (random : result string)
    (now : time) (file : option Manifest) : result (Identity * Manifest) * option Manifest :=
  match newState path identity with
  | Err e => (Err e, file)
  | Ok state =>
      withLock fs (fun file =>
        match file with
        | Some _ => (Err (New "installation manifest already exists; init is one-time only"), file)
        | None =>
            match randomID random with
            | Err e => (Err e, file)
            | Ok id =>
                let created := create_manifest identity id now in
                match writeAtomic fs created file with
                | (Err e, file') => (Err e, file')
                | (Ok _, file') => (Ok (state, created), file')
                end
            end
        end) file
  end.

Definition Open (fs : fs_run) (path : string) (identity : Identity) (file : option Manifest)
    : result (Identity * Manifest) :=
  state ← newState path identity;
  match file with
  | None => Err missing_manifest
  | Some _ =>
      match lock_fault fs with
      | Some e => Err e
      | None => manifest ← readAndVerify fs state file; Ok (state, manifest)
      end
  end.

(** What each operation makes of the manifest that it has read. *)
Definition reserve_change (walletID : string) (now : time) (m : Manifest) : result (Z * Manifest) :=
  match Wallets m !! walletID with
  | None => Err (not_part walletID)
  | Some wallet =>
      if uint32_max <? NextAddressIndex wallet
      then Err (New ("wallet " +:+ quote walletID +:+ " address index is exhausted"))
      else Ok (wrapu32 (NextAddressIndex wallet),
               set_wallet m walletID (set_next wallet (wrapu64 (NextAddressIndex wallet + 1))) now)
  end.

Definition ReserveAddressIndex (fs : fs_run) (identity : Identity) (walletID : string) (now : time)
    : option Manifest -> result Z * option Manifest :=
  update fs identity (reserve_change walletID now).

(** [sort.Search(n, f)]: binary search in [i, j). *)
Fixpoint Search (fuel : nat) (f : nat -> bool) (i j : nat) : nat :=
  match fuel with
  | O => i
  | S fuel' =>
      if (i <? j)%nat then
        let h := ((i + j) / 2)%nat in
        if f h then Search fuel' f i h else Search fuel' f (S h) j
      else i
  end.

Definition skip_position (skipped : list Z) (index : Z) : nat :=
  Search (S (length skipped)) (fun i => index <=? nth i skipped 0) 0 (length skipped).

(** [None]: the index is already recorded. *)
Definition insert_skipped (skipped : list Z) (index : Z) : option (list Z) :=
  let position := skip_position skipped index in
  if (position <? length skipped)%nat && (nth position skipped 0 =? index) then None
  else Some (take position skipped ++ index :: drop position skipped).

(** [None]: there is nothing to write. *)
Definition skip_change (walletID : string) (index : Z) (now : time) (m : Manifest) : result (option Manifest) :=
  match Wallets m !! walletID with
  | None => Err (not_part walletID)
  | Some wallet =>
      if NextAddressIndex wallet <=? index
      then Err (New ("wallet " +:+ quote walletID +:+ " index " +:+ pretty index +:+ " was not reserved"))
      else Ok ((fun skipped => set_wallet m walletID (set_skipped wallet skipped) now)
                 <$> insert_skipped (SkippedAddressIndices wallet) index)
  end.

Definition MarkAddressIndexSkipped (fs : fs_run) (identity : Identity) (walletID : string) (index : Z)
    (now : time) (file : option Manifest) : result unit * option Manifest :=
  withLock fs (fun file =>
    match (m ← readAndVerify fs identity file; skip_change walletID index now m) with
    | Err e => (Err e, file)
    | Ok None => (Ok tt, file)
    | Ok (Some m') => writeAtomic fs m' file
    end) file.

Definition clear_change (now : time) (m : Manifest) : result (Manifest * Manifest) :=
  let m' := set_manifest_wallets m ((fun w => set_skipped w []) <$> Wallets m) now in Ok (m', m').

Definition ClearSkippedAddressIndices (fs : fs_run) (identity : Identity) (now : time)
    : option Manifest -> result Manifest * option Manifest :=
  update fs identity (clear_change now).

(** The loop over the targets, in the order the map yields them. *)
Fixpoint raise_targets (targets : list (string * Z)) (m : gmap string WalletState)
    : result (gmap string WalletState) :=
  match targets with
  | [] => Ok m
  | (walletID, target) :: rest =>
      match m !! walletID with
      | None => Err (not_part walletID)
      | Some wallet =>
          if index_space <? target
          then Err (New ("wallet " +:+ quote walletID +:+ " high-water exceeds the address index space"))
          else if target <? NextAddressIndex wallet
          then Err (New ("wallet " +:+ quote walletID +:+ " high-water cannot decrease from "
                         +:+ pretty (NextAddressIndex wallet) +:+ " to " +:+ pretty target))
          else raise_targets rest (<[walletID := set_next wallet target]> m)
      end
  end.

Definition raise_change (targets : list (string * Z)) (now : time) (m : Manifest) : result (Manifest * Manifest) :=
  ws ← raise_targets targets (Wallets m);
  let m' := set_manifest_wallets m ws now in Ok (m', m').

Definition RaiseHighWater (fs : fs_run) (identity : Identity) (targets : list (string * Z)) (now : time)
    : option Manifest -> result Manifest * option Manifest :=
  update fs identity (raise_change targets now).

(** * The recovery mapping checksum *)

(** [MappingChecksum]: the bytes written to the hash so far. *)
Definition NewMappingChecksum (network installationID : string) : string :=
  "juno-gateway-address-registry-v1" +:+ nl +:+ "network=" +:+ network +:+ nl
  +:+ "installation_id=" +:+ installationID +:+ nl.
Definition Add (c : string) (walletID : string) (index : Z) (address : string) : string :=
  c +:+ walletID +:+ nul +:+ pretty index +:+ nul +:+ address +:+ nl.
Definition Sum (c : string) : string := EncodeToString (Sum256 c).

(** * What a verified manifest is *)

Definition wallet_ok (got : WalletState) (w : WalletIdentity) : Prop :=
  ws_Fingerprint got = wi_UFVKFingerprint w /\ ws_Birthday got = wi_BirthdayHeight w /\
  ws_Account got = wi_Account w /\ NextAddressIndex got <= index_space /\
  Forall (fun i => i < NextAddressIndex got) (SkippedAddressIndices got) /\
  StronglySorted Z.lt (SkippedAddressIndices got).

Record manifest_ok (m : Manifest) (expected : Identity) : Prop := {
  ok_version : Version m = 1 \/ Version m = manifestVersion;
  ok_id : lower_hex32_bytes (InstallationID m) = true;
  ok_network : mf_Network m = id_Network expected;
  ok_checksum : IdentitySHA256 m =
    (if Version m =? 1 then legacyIdentityChecksum expected else identityChecksum expected);
  ok_accounts : Version m = 1 -> Forall (fun w => wi_Account w = 0) (id_Wallets expected);
  ok_size : size (Wallets m) = length (id_Wallets expected);
  ok_wallets : Forall (fun w => exists got, Wallets m !! wi_WalletID w = Some got /\ wallet_ok got w)
                 (id_Wallets expected);
  ok_times : mf_CreatedAt m <> 0 /\ mf_UpdatedAt m <> 0 /\ mf_CreatedAt m <= mf_UpdatedAt m
}.

Lemma verify_skipped_spec wallet next prev l :
  verify_skipped wallet next prev l = Ok tt <->
  Forall (fun i => i < next) l /\ StronglySorted Z.lt l /\
  (forall p, prev = Some p -> Forall (Z.lt p) l).
Proof.
  revert prev. induction l as [|i l IH]; intros prev; cbn.
  { split; [|done]. intros _. split_and!; [constructor|constructor|constructor]. }
  destruct (Z.leb_spec next i); [split; [done|]; intros (H1 & _); inversion H1; lia|].
  destruct prev as [p|].
  - destruct (Z.leb_spec i p).
    { split; [done|]. intros (_ & _ & H1). specialize (H1 p eq_refl). inversion H1. lia. }
    rewrite IH. split.
    + intros (? & ? & Hi). specialize (Hi i eq_refl). split_and!; [by constructor|by constructor|].
      intros ? [= <-]. constructor; [lia|]. eapply Forall_impl; [exact Hi|]. lia.
    + intros (H1 & H2 & _). apply Forall_cons in H1 as [? ?].
      apply StronglySorted_inv in H2 as [? ?]. split_and!; [done|done|]. by intros ? [= <-].
  - rewrite IH. split.
    + intros (? & ? & Hi). specialize (Hi i eq_refl). split_and!; [by constructor|by constructor|done].
    + intros (H1 & H2 & _). apply Forall_cons in H1 as [? ?].
      apply StronglySorted_inv in H2 as [? ?]. split_and!; [done|done|]. by intros ? [= <-].
Qed.

Lemma verify_wallet_spec got w : verify_wallet got w = Ok tt <-> wallet_ok got w.
Proof.
  unfold verify_wallet, wallet_ok.
  destruct (String.eqb_spec (ws_Fingerprint got) (wi_UFVKFingerprint w)); cbn; [|naive_solver].
  destruct (Z.eqb_spec (ws_Birthday got) (wi_BirthdayHeight w)); cbn; [|naive_solver].
  destruct (Z.eqb_spec (ws_Account got) (wi_Account w)); cbn; [|naive_solver].
  destruct (Z.ltb_spec index_space (NextAddressIndex got)); [split; [done|intros (?&?&?&?&?); lia]|].
  rewrite verify_skipped_spec. naive_solver.
Qed.

Lemma bind_unit_ok {A} (m : result unit) (k : result A) a :
  (m ≫= fun _ => k) = Ok a <-> m = Ok tt /\ k = Ok a.
Proof. destruct m as [[]|e]; cbn; naive_solver. Qed.

Lemma verify_wallets_spec ws l :
  verify_wallets ws l = Ok tt <->
  Forall (fun w => exists got, ws !! wi_WalletID w = Some got /\ wallet_ok got w) l.
Proof.
  induction l as [|w l IH]; cbn; [done|]. rewrite Forall_cons, <- IH.
  destruct (ws !! wi_WalletID w) as [got|]; [|naive_solver].
  rewrite bind_unit_ok, verify_wallet_spec. naive_solver.
Qed.

Lemma legacy_accounts_spec l : legacy_accounts l = Ok tt <-> Forall (fun w => wi_Account w = 0) l.
Proof.
  induction l as [|w l IH]; cbn; [done|]. rewrite Forall_cons, <- IH.
  destruct (Z.eqb_spec (wi_Account w) 0); cbn; naive_solver.
Qed.

Lemma verifyManifest_spec m expected :
  verifyManifest m expected = Ok tt <-> manifest_ok m expected.
Proof.
  unfold verifyManifest, IsZero.
  destruct (Z.eqb_spec (Version m) 1) as [Hv|Hv], (Z.eqb_spec (Version m) manifestVersion) as [Hv2|Hv2];
    cbn [negb andb]; try (rewrite Hv in Hv2; done); try (split; [done|intros []; tauto]).
  all: destruct (lower_hex32_bytes (InstallationID m)) eqn:Hid; cbn [negb]; [|split; [done|intros []; congruence]].
  all: destruct (String.eqb_spec (mf_Network m) (id_Network expected)); cbn [negb]; [|split; [done|intros []; congruence]].
  - rewrite result_bind_ok. split.
    + intros (c & [Hl [= <-]]%bind_unit_ok & H). apply legacy_accounts_spec in Hl.
      repeat (case_match; [done|]). apply bind_unit_ok in H as [Hw%verify_wallets_spec H].
      case_match; [done|]. bool_to_prop.
      match goal with H : Nat.eqb _ _ = true |- _ => apply Nat.eqb_eq in H end.
      split; auto. by rewrite Hv.
    + intros []. rewrite Hv in *. cbn in *. exists (legacyIdentityChecksum expected).
      rewrite (proj2 (legacy_accounts_spec _)) by auto. split; [done|].
      rewrite ok_checksum0, String.eqb_refl, ok_size0, Nat.eqb_refl. cbn.
      rewrite (proj2 (verify_wallets_spec _ _) ok_wallets0). cbn. case_match; [lia|done].
  - rewrite result_bind_ok. split.
    + intros (c & [= <-] & H).
      repeat (case_match; [done|]). apply bind_unit_ok in H as [Hw%verify_wallets_spec H].
      case_match; [done|]. bool_to_prop.
      match goal with H : Nat.eqb _ _ = true |- _ => apply Nat.eqb_eq in H end.
      split; auto; [|done]. apply Z.eqb_neq in Hv. by rewrite Hv.
    + intros []. apply Z.eqb_neq in Hv. rewrite Hv in *. cbn in *.
      exists (identityChecksum expected). split; [done|].
      rewrite ok_checksum0, String.eqb_refl, ok_size0, Nat.eqb_refl. cbn.
      rewrite (proj2 (verify_wallets_spec _ _) ok_wallets0). cbn. case_match; [lia|done].
Qed.

(** * Binary search and the skipped list *)

Lemma Search_spec fuel f i j :
  (forall a b, (a <= b)%nat -> f a = true -> f b = true) -> (j - i < fuel)%nat -> (i <= j)%nat ->
  let k := Search fuel f i j in
  (i <= k <= j)%nat /\ (forall a, (i <= a < k)%nat -> f a = false) /\ ((k < j)%nat -> f k = true).
Proof.
  intros Hmono. revert i j.
  induction fuel as [|fuel IH]; intros i j Hf Hij k; subst k; [lia|]. cbn [Search].
  destruct (Nat.ltb_spec i j) as [Hlt|]; [|split_and!; lia].
  set (h := ((i + j) / 2)%nat).
  assert (i <= h < j)%nat as Hh.
  { subst h. split; [apply Nat.div_le_lower_bound; lia|apply Nat.Div0.div_lt_upper_bound; lia]. }
  destruct (f h) eqn:Hfh.
  - destruct (IH i h) as (? & Hlo & Hhi); [lia|lia|]. split_and!; [lia|lia|done|].
    intros Hk. destruct (decide (Search fuel f i h < h)%nat); [auto|].
    by replace (Search fuel f i h) with h by lia.
  - destruct (IH (S h) j) as (? & Hlo & Hhi); [lia|lia|]. split_and!; [lia|lia| |done].
    intros a Ha. destruct (decide (S h <= a)%nat); [apply Hlo; lia|].
    destruct (f a) eqn:Hfa; [|done]. rewrite (Hmono a h) in Hfh; [done|lia|done].
Qed.

Lemma sorted_nth l a b :
  StronglySorted Z.lt l -> (a < b < length l)%nat -> nth a l 0 < nth b l 0.
Proof.
  intros Hs. revert a b. induction Hs as [|x l Hs IH Hx]; cbn; intros a b Hab; [lia|].
  destruct b as [|b]; [lia|]. destruct a as [|a].
  - rewrite Forall_forall in Hx. apply Hx, list_elem_of_In, nth_In. lia.
  - apply IH. lia.
Qed.

Lemma skip_position_spec l i :
  StronglySorted Z.lt l ->
  let p := skip_position l i in
  (p <= length l)%nat /\ Forall (fun x => x < i) (take p l) /\ Forall (fun x => i <= x) (drop p l).
Proof.
  intros Hs p. subst p. unfold skip_position.
  set (f := fun n => if (n <? length l)%nat then i <=? nth n l 0 else true).
  assert (Hext : forall fuel a b, (b <= length l)%nat ->
    Search fuel (fun n => i <=? nth n l 0) a b = Search fuel f a b).
  { induction fuel as [|fuel IH]; intros a b Hb; [done|]. cbn [Search].
    destruct (Nat.ltb_spec a b); [|done].
    assert ((a + b) / 2 < b)%nat by (apply Nat.Div0.div_lt_upper_bound; lia).
    unfold f at 1. rewrite (proj2 (Nat.ltb_lt _ _)) by lia. by rewrite !IH by lia. }
  rewrite Hext by done.
  destruct (Search_spec (S (length l)) f 0 (length l)) as (Hk & Hlo & Hhi).
  { intros a b Hab. unfold f. destruct (Nat.ltb_spec a (length l)), (Nat.ltb_spec b (length l)); try done; [|lia].
    destruct (decide (a = b)) as [->|]; [done|].
    pose proof (sorted_nth l a b Hs ltac:(lia)). lia. }
  { lia. } { lia. }
  set (k := Search _ f 0 (length l)) in *. split; [lia|]. split.
  - apply Forall_lookup. intros n x Hx.
    apply lookup_take_Some in Hx as [Hx Hn]. specialize (Hlo n ltac:(lia)). unfold f in Hlo.
    apply lookup_lt_Some in Hx as Hlen. rewrite (proj2 (Nat.ltb_lt _ _)) in Hlo by lia.
    rewrite (nth_lookup_Some _ _ _ _ Hx) in Hlo. lia.
  - apply Forall_lookup. intros n x Hx. rewrite lookup_drop in Hx.
    apply lookup_lt_Some in Hx as Hlen. specialize (Hhi ltac:(lia)).
    unfold f in Hhi. rewrite (proj2 (Nat.ltb_lt _ _)) in Hhi by lia.
    destruct n as [|n]; [rewrite Nat.add_0_r in Hx; rewrite (nth_lookup_Some _ _ _ _ Hx) in Hhi; lia|].
    pose proof (sorted_nth l k (k + S n) Hs ltac:(lia)) as Hlt.
    rewrite (nth_lookup_Some _ _ _ _ Hx) in Hlt. lia.
Qed.

Lemma take_drop_nth (p : nat) (l : list Z) :
  (p < length l)%nat -> drop p l = nth p l 0 :: drop (S p) l.
Proof.
  intros Hp. destruct (lookup_lt_is_Some_2 l p Hp) as [x Hx].
  rewrite (drop_S _ _ _ Hx). by rewrite (nth_lookup_Some _ _ _ _ Hx).
Qed.

Lemma elem_of_insert (l : list Z) p i x :
  x ∈ take p l ++ i :: drop p l <-> x = i \/ x ∈ l.
Proof.
  rewrite <- (take_drop p l) at 3. rewrite !elem_of_app, elem_of_cons. tauto.
Qed.

Lemma insert_skipped_spec l i :
  StronglySorted Z.lt l ->
  match insert_skipped l i with
  | None => i ∈ l
  | Some l' => i ∉ l /\ StronglySorted Z.lt l' /\ forall x, x ∈ l' <-> x = i \/ x ∈ l
  end.
Proof.
  intros Hs. unfold insert_skipped. destruct (skip_position_spec l i Hs) as (Hp & Hlo & Hhi).
  set (p := skip_position l i) in *. rewrite <- (take_drop p l) in Hs.
  apply StronglySorted_app in Hs as (Hcross & Hs1 & Hs2).
  destruct (_ && _) eqn:Hfound.
  - bool_to_prop. match goal with H : (_ <? _)%nat = true |- _ => apply Nat.ltb_lt in H end.
    match goal with H : nth p l 0 = i |- _ => rewrite <- H end.
    rewrite <- (take_drop p l) at 2. rewrite (take_drop_nth p l) by done. set_solver.
  - assert (Hgt : Forall (Z.lt i) (drop p l)).
    { destruct (decide (p < length l)%nat) as [Hlt|]; [|rewrite drop_ge by lia; constructor].
      rewrite (proj2 (Nat.ltb_lt _ _) Hlt), andb_true_l in Hfound. bool_to_prop.
      rewrite (take_drop_nth p l Hlt) in *. apply Forall_cons in Hhi as [Hge _].
      apply StronglySorted_inv in Hs2 as [_ Hs2]. constructor; [lia|].
      eapply Forall_impl; [exact Hs2|]. intros y Hy; cbn beta in *; lia. }
    rewrite Forall_forall in *. split_and!.
    + rewrite <- (take_drop p l), elem_of_app. intros [Hin|Hin].
      * specialize (Hlo _ Hin). lia.
      * specialize (Hgt _ Hin). lia.
    + apply StronglySorted_app_2; [|done|].
      * intros x y Hx [-> | Hy]%elem_of_cons; [by apply Hlo|].
        specialize (Hlo _ Hx). specialize (Hgt _ Hy). cbn in *. lia.
      * constructor; [done|]. by apply Forall_forall.
    + intros x. apply elem_of_insert.
Qed.

(** * The ledger stays readable *)

Lemma manifest_ok_put m expected id w w' now :
  manifest_ok m expected -> Wallets m !! id = Some w ->
  (forall wi, wallet_ok w wi -> wallet_ok w' wi) -> now <> 0 -> mf_CreatedAt m <= now ->
  manifest_ok (set_wallet m id w' now) expected.
Proof.
  intros [] Hl Hw Hn Ht. split; cbn; try done.
  - rewrite <- ok_size0. by rewrite map_size_insert_Some by done.
  - eapply Forall_impl; [exact ok_wallets0|]. cbn. intros wi (got & Hg & Hok).
    destruct (decide (id = wi_WalletID wi)) as [->|].
    + rewrite lookup_insert_eq. simplify_eq. eauto.
    + rewrite lookup_insert_ne by done. eauto.
  - tauto.
Qed.

Lemma readAndVerify_ok fs expected file m :
  readAndVerify fs expected file = Ok m -> file = Some m /\ manifest_ok m expected.
Proof.
  unfold readAndVerify. destruct (read_fault fs); [done|]. destruct file as [m'|]; [|done].
  intros [Hv [= ->]]%bind_unit_ok. by apply verifyManifest_spec in Hv.
Qed.

Lemma manifest_domain m expected x s :
  manifest_ok m expected -> NoDup (map wi_WalletID (id_Wallets expected)) -> Wallets m !! x = Some s ->
  exists wi, wi ∈ id_Wallets expected /\ wi_WalletID wi = x /\ wallet_ok s wi.
Proof.
  intros Hok Hnd Hx. pose proof (ok_wallets _ _ Hok) as Hws. pose proof (ok_size _ _ Hok) as Hsz.
  set (ids := map wi_WalletID (id_Wallets expected)) in *.
  assert (Hsub : (list_to_set ids : gset string) ⊆ dom (Wallets m)).
  { intros y (wi & -> & Hin)%elem_of_list_to_set%list_elem_of_fmap.
    rewrite Forall_forall in Hws. destruct (Hws _ Hin) as (got & Hg & _).
    by apply elem_of_dom_2 in Hg. }
  assert (Heq : (list_to_set ids : gset string) = dom (Wallets m)).
  { apply leibniz_equiv, set_subseteq_size_equiv; [done|].
    rewrite size_dom, Hsz, size_list_to_set by done. subst ids. by rewrite length_map. }
  assert (Hin : x ∈ (list_to_set ids : gset string)) by (rewrite Heq; by apply elem_of_dom_2 in Hx).
  apply elem_of_list_to_set, list_elem_of_fmap in Hin as (wi & -> & Hin).
  rewrite Forall_forall in Hws. destruct (Hws _ Hin) as (got & Hg & Hwok).
  exists wi. split_and!; [done|done|congruence].
Qed.

(** What an update leaves: the file as it was, or the changed manifest. *)
Lemma update_cases {A} fs expected (change : Manifest -> result (A * Manifest)) file r file' :
  update fs expected change file = (r, file') ->
  (file' = file /\ exists e, r = Err e) \/
  (exists m a m', file = Some m /\ manifest_ok m expected /\ change m = Ok (a, m') /\
     file' = Some m' /\ (r = Ok a \/ exists e, r = Err e)).
Proof.
  unfold update, withLock. destruct (lock_fault fs); [naive_solver|].
  destruct (readAndVerify fs expected file) as [m|e] eqn:Hr; cbn; [|naive_solver].
  apply readAndVerify_ok in Hr as [-> Hok].
  destruct (change m) as [[a m']|e] eqn:Hc; [|naive_solver].
  unfold writeAtomic. destruct (write fs); [|naive_solver|]; intros [= <- <-]; right; eauto 10.
Qed.

Inductive ledger_op : Type :=
  | LReserve (walletID : string) (now : time)
  | LSkip (walletID : string) (index : Z) (now : time)
  | LClear (now : time)
  | LRaise (targets : list (string * Z)) (now : time).

Definition op_time (o : ledger_op) : time :=
  match o with LReserve _ t | LSkip _ _ t | LClear t | LRaise _ t => t end.

(** One call by some process, with the index it hands out. *)
Definition exec_ledger (expected : Identity) (o : ledger_op) (fs : fs_run) (file : option Manifest)
    : option (string * Z) * option Manifest :=
  match o with
  | LReserve w t =>
      let '(r, file') := ReserveAddressIndex fs expected w t file in
      (match r with Ok i => Some (w, i) | Err _ => None end, file')
  | LSkip w i t => (None, (MarkAddressIndexSkipped fs expected w i t file).2)
  | LClear t => (None, (ClearSkippedAddressIndices fs expected t file).2)
  | LRaise ts t => (None, (RaiseHighWater fs expected ts t file).2)
  end.

(** The indices a sequence of calls hands out, and the file it leaves. *)
Fixpoint exec_ledgers (expected : Identity) (l : list (ledger_op * fs_run)) (file : option Manifest)
    : list (string * Z) * option Manifest :=
  match l with
  | [] => ([], file)
  | (o, fs) :: l' =>
      let '(out, file1) := exec_ledger expected o fs file in
      let '(outs, file2) := exec_ledgers expected l' file1 in
      (match out with Some p => p :: outs | None => outs end, file2)
  end.

(** The high-water mark of a wallet. *)
Definition high_water (file : option Manifest) (w : string) : option Z :=
  m ← file; s ← Wallets m !! w; Some (NextAddressIndex s).

(** No wallet appears or vanishes, and no mark goes down. *)
Definition ledger_le (file file' : option Manifest) : Prop :=
  forall w, option_Forall2 Z.le (high_water file w) (high_water file' w).

#[export] Instance ledger_le_preorder : PreOrder ledger_le.
Proof.
  split; [intros f w; reflexivity|]. intros f1 f2 f3 H1 H2 w. by etrans; [apply H1|apply H2].
Qed.

(** The marks are unsigned. *)
Definition ledger_typed (file : option Manifest) : Prop :=
  forall w n, high_water file w = Some n -> 0 <= n.

Lemma ledger_le_typed f f' : ledger_le f f' -> ledger_typed f -> ledger_typed f'.
Proof.
  intros Hle Ht w n Hn. specialize (Hle w). rewrite Hn in Hle.
  inversion Hle as [a b Hab Ha|]. specialize (Ht w a (eq_sym Ha)). lia.
Qed.

Lemma high_water_some m w : high_water (Some m) w = NextAddressIndex <$> Wallets m !! w.
Proof. unfold high_water. cbn. by destruct (Wallets m !! w). Qed.

Lemma ledger_le_put m id w w' now :
  Wallets m !! id = Some w -> NextAddressIndex w <= NextAddressIndex w' ->
  ledger_le (Some m) (Some (set_wallet m id w' now)).
Proof.
  intros Hl Hle x. rewrite !high_water_some. cbn. destruct (decide (id = x)) as [->|].
  - rewrite lookup_insert_eq, Hl. cbn. by constructor.
  - by rewrite lookup_insert_ne.
Qed.

Lemma raise_targets_spec targets ws ws' :
  raise_targets targets ws = Ok ws' ->
  (forall x, is_Some (ws' !! x) -> is_Some (ws !! x)) /\
  forall x s, ws !! x = Some s -> exists s', ws' !! x = Some s' /\
    NextAddressIndex s <= NextAddressIndex s' /\
    (forall wi, wallet_ok s wi -> wallet_ok s' wi).
Proof.
  revert ws. induction targets as [|[id t] targets IH]; cbn; intros ws H.
  { injection H as <-. split; [done|]. eauto with lia. }
  destruct (ws !! id) as [w|] eqn:Hw; [|done].
  destruct (Z.ltb_spec index_space t); [done|]. destruct (Z.ltb_spec t (NextAddressIndex w)); [done|].
  assert (Hok : forall wi, wallet_ok w wi -> wallet_ok (set_next w t) wi).
  { intros wi (?&?&?&?&Hf&?). unfold wallet_ok, set_next; cbn. split_and!; try done.
    eapply Forall_impl; [exact Hf|]. cbn. lia. }
  destruct (IH _ H) as [Hdom Hall]. split.
  { intros x Hx%Hdom. destruct (decide (id = x)) as [->|]; [done|]. by rewrite lookup_insert_ne in Hx. }
  intros x s Hx. destruct (decide (id = x)) as [->|].
  - simplify_eq. destruct (Hall x (set_next w t)) as (s' & Hs' & Hle & Hok').
    { by rewrite lookup_insert_eq. }
    exists s'. cbn in Hle. split_and!; [done|lia|auto].
  - apply Hall. by rewrite lookup_insert_ne.
Qed.

Lemma raise_targets_size targets ws ws' :
  raise_targets targets ws = Ok ws' -> size ws' = size ws.
Proof.
  revert ws. induction targets as [|[id t] targets IH]; cbn; intros ws H; [by injection H as <-|].
  destruct (ws !! id) as [w|] eqn:Hw; [|done]. repeat (case_match; [done|]).
  rewrite (IH _ H). by rewrite map_size_insert_Some by done.
Qed.

Lemma MarkAddressIndexSkipped_cases fs expected w i t file r file' :
  MarkAddressIndexSkipped fs expected w i t file = (r, file') ->
  (file' = file) \/
  exists m s l', file = Some m /\ manifest_ok m expected /\ Wallets m !! w = Some s /\
    i < NextAddressIndex s /\ insert_skipped (SkippedAddressIndices s) i = Some l' /\
    file' = Some (set_wallet m w (set_skipped s l') t).
Proof.
  unfold MarkAddressIndexSkipped, withLock. destruct (lock_fault fs); [naive_solver|].
  destruct (readAndVerify fs expected file) as [m|e] eqn:Hr; [|naive_solver].
  apply readAndVerify_ok in Hr as [-> Hok]. cbn [mbind result_bind]. unfold skip_change.
  destruct (Wallets m !! w) as [s|] eqn:Hs; [|naive_solver].
  destruct (Z.leb_spec (NextAddressIndex s) i); [naive_solver|].
  destruct (insert_skipped _ i) as [l'|] eqn:Hi; [|naive_solver]. cbn [fmap option_fmap option_map].
  unfold writeAtomic. destruct (write fs); [|naive_solver|]; intros [= <- <-]; right; eauto 10.
Qed.

Lemma manifest_skipped_sorted m expected w s :
  manifest_ok m expected -> Wallets m !! w = Some s ->
  (exists wi, wi ∈ id_Wallets expected /\ wi_WalletID wi = w) ->
  StronglySorted Z.lt (SkippedAddressIndices s).
Proof.
  intros [] Hs (wi & Hin & <-). rewrite Forall_forall in ok_wallets0.
  destruct (ok_wallets0 _ Hin) as (got & Hg & (_&_&_&_&_&?)). by simplify_eq.
Qed.

Lemma exec_ledger_spec expected o fs file out file' :
  exec_ledger expected o fs file = (out, file') -> ledger_typed file ->
  ledger_le file file' /\
  (forall w i, out = Some (w, i) -> high_water file w = Some i /\ high_water file' w = Some (i + 1)).
Proof.
  intros H Ht. destruct o as [w t|w i t|t|ts t]; cbn in H.
  - destruct (ReserveAddressIndex fs expected w t file) as [r f'] eqn:Hr. injection H as <- <-.
    apply update_cases in Hr as [[-> (e & ->)]|(m & a & m' & -> & Hok & Hc & -> & Hres)].
    { split; [reflexivity|done]. }
    unfold reserve_change in Hc. destruct (Wallets m !! w) as [s|] eqn:Hs; [|done].
    destruct (Z.ltb_spec uint32_max (NextAddressIndex s)); [done|].
    assert (0 <= NextAddressIndex s) by (apply (Ht w); by rewrite high_water_some, Hs).
    rewrite wrapu32_id, wrapu64_id in Hc by (width; lia). injection Hc as <- <-.
    split; [apply ledger_le_put with s; [done|cbn; lia]|].
    intros x i Hx. rewrite !high_water_some. cbn.
    destruct Hres as [-> | [e ->]]; [|done]. injection Hx as <- <-.
    by rewrite Hs, lookup_insert_eq.
  - injection H as <- <-. split; [|done].
    destruct (MarkAddressIndexSkipped fs expected w i t file) as [r f'] eqn:Hr. cbn.
    apply MarkAddressIndexSkipped_cases in Hr as [-> | (m & s & l' & -> & _ & Hs & _ & _ & ->)];
      [reflexivity|]. apply ledger_le_put with s; [done|cbn; lia].
  - injection H as <- <-. split; [|done].
    destruct (ClearSkippedAddressIndices fs expected t file) as [r f'] eqn:Hr. cbn.
    apply update_cases in Hr as [[-> _]|(m & a & m' & -> & Hok & [= <- <-] & -> & _)]; [reflexivity|].
    intros x. rewrite !high_water_some. cbn. rewrite lookup_fmap. by destruct (Wallets m !! x); constructor.
  - injection H as <- <-. split; [|done].
    destruct (RaiseHighWater fs expected ts t file) as [r f'] eqn:Hr. cbn.
    apply update_cases in Hr as [[-> _]|(m & a & m' & -> & Hok & Hc & -> & _)]; [reflexivity|].
    apply result_bind_ok in Hc as (ws & Hws & [= <- <-]).
    apply raise_targets_spec in Hws as [Hdom Hall].
    intros x. rewrite !high_water_some. cbn. destruct (Wallets m !! x) as [s|] eqn:Hs.
    + destruct (Hall _ _ Hs) as (s' & -> & ? & _). by constructor.
    + destruct (ws !! x) eqn:Hx; [|constructor]. destruct (Hdom x ltac:(by eexists)). congruence.
Qed.

Lemma exec_ledgers_spec expected l file outs file' :
  exec_ledgers expected l file = (outs, file') -> ledger_typed file ->
  ledger_le file file' /\ NoDup outs /\
  (forall w i, (w, i) ∈ outs -> exists n n', high_water file w = Some n /\
     high_water file' w = Some n' /\ n <= i < n').
Proof.
  revert file outs. induction l as [|[o fs] l IH]; cbn; intros file outs H Ht.
  { injection H as <- <-. split_and!; [reflexivity|constructor|set_solver]. }
  destruct (exec_ledger expected o fs file) as [out f1] eqn:H1.
  destruct (exec_ledgers expected l f1) as [outs2 f2] eqn:H2. injection H as <- <-.
  destruct (exec_ledger_spec _ _ _ _ _ _ H1 Ht) as [Hle1 Hout].
  assert (ledger_typed f1) as Ht1 by (by eapply ledger_le_typed).
  destruct (IH _ _ H2 Ht1) as (Hle2 & Hnd & Hin).
  assert (Hin' : forall w i, (w, i) ∈ outs2 -> exists n n', high_water file w = Some n /\
     high_water f2 w = Some n' /\ n <= i < n').
  { intros w i (n & n' & Hn & Hn' & ?)%Hin. specialize (Hle1 w). rewrite Hn in Hle1.
    inversion Hle1 as [a b Hab Ha|]. exists a, n'. split_and!; [done|done|lia|lia]. }
  split; [by etrans|]. destruct out as [[w i]|]; [|done].
  destruct (Hout w i eq_refl) as [Hw Hw1]. split.
  - constructor; [|done]. intros (n & n' & Hn & _ & ?)%Hin. rewrite Hw1 in Hn. simplify_eq. lia.
  - intros w' i' [[= -> ->]|?]%elem_of_cons; [|auto].
    specialize (Hle2 w). rewrite Hw1 in Hle2. inversion Hle2 as [a b Hab Ha Hb|].
    exists i, b. split_and!; [done|done|lia|lia].
Qed.

(** over any sequence of calls by any processes, with every failure and every
    crash between the rename and the sync, no address index is handed out twice
    for a wallet, and each one handed out stays below the mark that the file
    keeps. *)
Theorem no_index_reserved_twice expected l file outs file' :
  exec_ledgers expected l file = (outs, file') -> ledger_typed file ->
  NoDup outs /\ ledger_le file file' /\
  forall w i, (w, i) ∈ outs -> exists n, high_water file' w = Some n /\ i < n.
Proof.
  intros H Ht. destruct (exec_ledgers_spec _ _ _ _ _ H Ht) as (Hle & Hnd & Hin).
  split_and!; [done|done|]. intros w i (n & n' & _ & Hn' & ?)%Hin. exists n'. split; [done|lia].
Qed.

Lemma manifest_ok_wallets m expected ws now :
  manifest_ok m expected -> now <> 0 -> mf_CreatedAt m <= now -> size ws = size (Wallets m) ->
  (forall x s, Wallets m !! x = Some s -> exists s', ws !! x = Some s' /\
     forall wi, wallet_ok s wi -> wallet_ok s' wi) ->
  manifest_ok (set_manifest_wallets m ws now) expected.
Proof.
  intros [] Hn Ht Hsize Hws. split; cbn; try done; [congruence| |tauto].
  eapply Forall_impl; [exact ok_wallets0|]. cbn. intros wi (got & Hg & Hok).
  destruct (Hws _ _ Hg) as (s' & ? & ?). eauto.
Qed.

Lemma wallet_ok_reserve s wi :
  0 <= NextAddressIndex s <= uint32_max -> wallet_ok s wi ->
  wallet_ok (set_next s (NextAddressIndex s + 1)) wi.
Proof.
  intros Hr (?&?&?&?&Hf&?). unfold wallet_ok, set_next, index_space; cbn.
  split_and!; try done; [lia|]. eapply Forall_impl; [exact Hf|]. cbn. lia.
Qed.

Lemma wallet_ok_skip s wi i l' :
  i < NextAddressIndex s -> insert_skipped (SkippedAddressIndices s) i = Some l' ->
  wallet_ok s wi -> wallet_ok (set_skipped s l') wi.
Proof.
  intros Hi Hl (?&?&?&?&Hf&Hs). pose proof (insert_skipped_spec _ i Hs) as Hspec.
  rewrite Hl in Hspec. destruct Hspec as (_ & Hs' & Hin). unfold wallet_ok, set_skipped; cbn.
  split_and!; try done. rewrite Forall_forall in *. intros x [-> | Hx]%Hin; [done|auto].
Qed.

Lemma wallet_ok_clear s wi : wallet_ok s wi -> wallet_ok (set_skipped s []) wi.
Proof. intros (?&?&?&?&?&?). unfold wallet_ok, set_skipped; cbn. split_and!; try done; constructor. Qed.

Lemma exec_ledger_verified expected o fs m out file' :
  manifest_ok m expected -> ledger_typed (Some m) ->
  exec_ledger expected o fs (Some m) = (out, file') ->
  op_time o <> 0 -> mf_CreatedAt m <= op_time o ->
  exists m', file' = Some m' /\ manifest_ok m' expected /\ mf_CreatedAt m' = mf_CreatedAt m.
Proof.
  intros Hok Hty H Hn Ht. destruct o as [w t|w i t|t|ts t]; cbn in H, Hn, Ht.
  - destruct (ReserveAddressIndex fs expected w t (Some m)) as [r f'] eqn:Hr. injection H as <- <-.
    apply update_cases in Hr as [[-> _]|(m0 & a & m' & [= <-] & _ & Hc & -> & _)]; [eauto|].
    unfold reserve_change in Hc. destruct (Wallets m !! w) as [s|] eqn:Hs; [|done].
    destruct (Z.ltb_spec uint32_max (NextAddressIndex s)); [done|].
    assert (0 <= NextAddressIndex s) by (apply (Hty w); by rewrite high_water_some, Hs).
    rewrite wrapu32_id, wrapu64_id in Hc by (width; lia). injection Hc as <- <-.
    eexists. split; [done|]. split; [|done]. eapply manifest_ok_put; try done.
    intros wi. apply wallet_ok_reserve. lia.
  - destruct (MarkAddressIndexSkipped fs expected w i t (Some m)) as [r f'] eqn:Hr.
    injection H as <- <-. cbn.
    apply MarkAddressIndexSkipped_cases in Hr as [-> | (m0 & s & l' & [= <-] & _ & Hs & Hi & Hl & ->)]; [eauto|].
    eexists. split; [done|]. split; [|done]. eapply manifest_ok_put; try done.
    intros wi. by eapply wallet_ok_skip.
  - destruct (ClearSkippedAddressIndices fs expected t (Some m)) as [r f'] eqn:Hr.
    injection H as <- <-. cbn.
    apply update_cases in Hr as [[-> _]|(m0 & a & m' & [= <-] & _ & [= <- <-] & -> & _)]; [eauto|].
    eexists. split; [done|]. split; [|done]. apply manifest_ok_wallets; try done.
    + apply map_size_fmap.
    + intros x s Hs. rewrite lookup_fmap, Hs. eexists. split; [done|]. apply wallet_ok_clear.
  - destruct (RaiseHighWater fs expected ts t (Some m)) as [r f'] eqn:Hr.
    injection H as <- <-. cbn.
    apply update_cases in Hr as [[-> _]|(m0 & a & m' & [= <-] & _ & Hc & -> & _)]; [eauto|].
    apply result_bind_ok in Hc as (ws & Hws & [= <- <-]).
    eexists. split; [done|]. split; [|done].
    pose proof (raise_targets_size _ _ _ Hws). apply raise_targets_spec in Hws as [_ Hall].
    apply manifest_ok_wallets; try done. intros x s Hs. destruct (Hall _ _ Hs) as (s' & ? & _ & ?). eauto.
Qed.

(** the manifest stays one that every later start accepts, over any sequence
    of calls and failures, as long as no call runs with a clock behind the
    manifest's creation time. *)
Theorem ledger_stays_verified expected l m outs file' :
  manifest_ok m expected -> ledger_typed (Some m) ->
  exec_ledgers expected l (Some m) = (outs, file') ->
  Forall (fun p => op_time p.1 <> 0 /\ mf_CreatedAt m <= op_time p.1) l ->
  exists m', file' = Some m' /\ verifyManifest m' expected = Ok tt.
Proof.
  intros Hok Hty H Hl. revert m outs Hok Hty H Hl.
  induction l as [|[o fs] l IH]; cbn; intros m outs Hok Hty H Hl.
  { injection H as <- <-. exists m. split; [done|]. by apply verifyManifest_spec. }
  destruct (exec_ledger expected o fs (Some m)) as [out f1] eqn:H1.
  destruct (exec_ledgers expected l f1) as [outs2 f2] eqn:H2. injection H as <- <-.
  apply Forall_cons in Hl as [[Hn Ht] Hl]. cbn in Hn, Ht.
  destruct (exec_ledger_verified _ _ _ _ _ _ Hok Hty H1 Hn Ht) as (m1 & -> & Hok1 & Hcr).
  destruct (exec_ledger_spec _ _ _ _ _ _ H1 Hty) as [Hle _].
  eapply (IH m1); [done|by eapply ledger_le_typed|done|]. by rewrite Hcr.
Qed.

(** but nothing checks that clock: a reservation made with a clock behind the
    creation time hands out its index and leaves a manifest that every later
    read, and so every later start and allocation, refuses. *)
Theorem reserve_behind_clock_bricks fs expected w now m i file' :
  ReserveAddressIndex fs expected w now (Some m) = (Ok i, file') ->
  now < mf_CreatedAt m -> forall fs', exists e, readAndVerify fs' expected file' = Err e.
Proof.
  intros Hr Hlt fs'.
  apply update_cases in Hr as [[_ (e & [=])]|(m0 & a & m' & [= <-] & Hok & Hc & -> & _)].
  unfold reserve_change in Hc. destruct (Wallets m !! w) as [s|]; [|done]. case_match; [done|]. injection Hc as _ <-.
  destruct (readAndVerify fs' expected _) as [m2|e] eqn:Hread; [|by eexists].
  apply readAndVerify_ok in Hread as [[= <-] [_ _ _ _ _ _ _ (_ & _ & Hle)]]. cbn in Hle. lia.
Qed.

(** * Initialisation, then a start *)

Definition trimmed (identity : Identity) : Prop :=
  TrimSpace (id_Network identity) = id_Network identity /\
  Forall (fun w => trim_wallet w = w) (id_Wallets identity).

Lemma validate_wallets_ok seen l :
  validate_wallets seen l = Ok tt ->
  NoDup (map wi_WalletID l) /\ Forall (fun w => wi_WalletID w ∉ seen) l.
Proof.
  revert seen. induction l as [|w l IH]; cbn; intros seen H; [split; constructor|].
  repeat (case_match; [done|]). bool_to_prop. apply IH in H as [Hnd Hf]. split.
  - constructor; [|done]. intros (w' & Hw' & Hin)%list_elem_of_fmap.
    rewrite Forall_forall in Hf. apply (Hf _ Hin). set_solver.
  - constructor; [done|]. eapply Forall_impl; [exact Hf|]. set_solver.
Qed.

Lemma validate_wallets_each seen l : validate_wallets seen l = Ok tt ->
  Forall (fun w => 0 <= wi_BirthdayHeight w /\ wi_Account w < 2147483648 /\ lower_hex32_bytes (wi_UFVKFingerprint w) = true) l.
Proof.
  revert seen. induction l as [|w l IH]; cbn [validate_wallets]; intros seen H; [constructor|].
  repeat (case_match; [done|]). bool_to_prop. constructor; [|by eapply IH]. split_and!; [lia|lia|done].
Qed.

Lemma validateIdentity_NoDup identity :
  validateIdentity identity = Ok tt -> NoDup (map wi_WalletID (id_Wallets identity)).
Proof.
  unfold validateIdentity. case_match; [done|]. destruct (id_Wallets identity) as [|w l] eqn:Hl; [done|].
  intros [Hnd _]%validate_wallets_ok. done.
Qed.

Lemma map_trim_id l : Forall (fun w => trim_wallet w = w) l -> map trim_wallet l = l.
Proof. induction 1; cbn; congruence. Qed.

Lemma by_id_antisym l x y :
  NoDup (map wi_WalletID l) -> x ∈ l -> y ∈ l -> by_wallet_id x y -> by_wallet_id y x -> x = y.
Proof.
  intros Hnd [i Hi]%list_elem_of_lookup [j Hj]%list_elem_of_lookup Hxy Hyx.
  assert (wi_WalletID x = wi_WalletID y) as Heq by (by apply (anti_symm String.le)).
  assert (i = j) as ->; [|congruence].
  eapply (NoDup_lookup (map wi_WalletID l)); [done| |].
  - rewrite list_lookup_fmap, Hi. reflexivity.
  - rewrite list_lookup_fmap, Hj. cbn. congruence.
Qed.

Lemma canonical_idem identity :
  trimmed identity -> NoDup (map wi_WalletID (id_Wallets identity)) ->
  canonicalIdentity (canonicalIdentity identity) = canonicalIdentity identity.
Proof.
  intros [Hn Hw] Hnd. unfold canonicalIdentity. cbn [id_Network id_Wallets]. rewrite !Hn. f_equal.
  rewrite (map_trim_id _ Hw).
  assert (Hw' : Forall (fun w => trim_wallet w = w) (merge_sort by_wallet_id (id_Wallets identity)))
    by (by rewrite merge_sort_Permutation).
  rewrite (map_trim_id _ Hw').
  eapply StronglySorted_unique_strong; [|by apply StronglySorted_merge_sort; apply _..|].
  - intros x y Hx Hy. rewrite !merge_sort_Permutation in Hx, Hy. rewrite merge_sort_Permutation in Hx.
    by apply (by_id_antisym (id_Wallets identity)).
  - by rewrite merge_sort_Permutation.
Qed.

Arguments add_wallet : simpl never.

Lemma initial_wallets_spec l m0 :
  NoDup (map wi_WalletID l) -> Forall (fun w => m0 !! wi_WalletID w = None) l ->
  let m := foldl add_wallet m0 l in
  size m = (size m0 + length l)%nat /\
  (forall x s, m0 !! x = Some s -> m !! x = Some s) /\
  Forall (fun w => exists got, m !! wi_WalletID w = Some got /\ wallet_ok got w) l.
Proof.
  revert m0. induction l as [|w l IH]; cbn; intros m0 Hnd Hf.
  { split_and!; [lia|done|constructor]. }
  apply NoDup_cons in Hnd as [Hw Hnd]. apply Forall_cons in Hf as [Hfw Hf].
  destruct (IH (add_wallet m0 w)) as (Hsize & Hold & Hall); [done| |].
  { rewrite Forall_forall in *. intros w' Hw'. unfold add_wallet. rewrite lookup_insert_ne; [by apply Hf|].
    intros Heq. apply Hw. rewrite Heq. by apply list_elem_of_fmap_2. }
  split_and!.
  - rewrite Hsize. unfold add_wallet. rewrite map_size_insert_None by done. lia.
  - intros x s Hx. apply Hold. unfold add_wallet. rewrite lookup_insert_ne; [done|congruence].
  - constructor; [|done]. eexists. split; [apply Hold, lookup_insert_eq|].
    unfold wallet_ok, index_space; cbn. split_and!; try done; constructor.
Qed.

Lemma create_manifest_ok identity id now :
  trimmed identity -> NoDup (map wi_WalletID (id_Wallets identity)) ->
  lower_hex32_bytes id = true -> now <> 0 ->
  manifest_ok (create_manifest identity id now) (canonicalIdentity identity).
Proof.
  intros Htr Hnd Hid Hn. destruct (initial_wallets_spec (id_Wallets identity) ∅ Hnd) as (Hs & _ & Hall).
  { apply Forall_forall. intros. apply lookup_empty. }
  destruct Htr as [Htn Htw]. split; cbn; try done.
  - by right.
  - unfold identityChecksum, checksum_with. by rewrite canonical_idem.
  - unfold initial_wallets. rewrite Hs, map_size_empty, merge_sort_Permutation, (map_trim_id _ Htw). done.
  - rewrite merge_sort_Permutation, (map_trim_id _ Htw). exact Hall.
Qed.

Lemma initial_wallets_zero l m0 x s :
  foldl add_wallet m0 l !! x = Some s ->
  m0 !! x = Some s \/ (x ∈ map wi_WalletID l /\ NextAddressIndex s = 0 /\ SkippedAddressIndices s = []).
Proof.
  revert m0. induction l as [|w l IH]; cbn; intros m0 H; [by left|].
  destruct (IH _ H) as [Hl|(? & ? & ?)]; [|right; split; [by right|done]].
  unfold add_wallet in Hl. apply lookup_insert_Some in Hl as [[<- <-]|[_ ?]]; [right|by left]. split; [by left|done].
Qed.

Lemma newState_ok path identity st :
  newState path identity = Ok st -> st = canonicalIdentity identity /\ validateIdentity st = Ok tt.
Proof.
  unfold newState. repeat (case_match; [done|]). intros [Hv [= <-]]%bind_unit_ok. done.
Qed.

Lemma canonical_NoDup identity :
  trimmed identity -> NoDup (map wi_WalletID (id_Wallets (canonicalIdentity identity))) ->
  NoDup (map wi_WalletID (id_Wallets identity)).
Proof.
  intros [_ Hw]. cbn. rewrite (map_trim_id _ Hw).
  apply NoDup_Permutation_proper, fmap_Permutation; symmetry; apply merge_sort_Permutation.
Qed.

(** what [Create] leaves, every start of the same configuration opens: the
    file verifies against the configured identity whatever order the wallets are
    listed in, and no address index of it is in use. *)
Theorem create_then_open fs path identity raw now st m file' fs' :
  trimmed identity -> len raw = 32 -> now <> 0 ->
  Create fs path identity (Ok raw) now None = (Ok (st, m), file') ->
  lock_fault fs' = None -> read_fault fs' = None ->
  Open fs' path identity file' = Ok (st, m) /\
  forall w n, high_water file' w = Some n -> n = 0 /\ w ∈ map wi_WalletID (id_Wallets identity).
Proof.
  intros Htr Hraw Hnow H Hl Hr. unfold Create in H.
  destruct (newState path identity) as [st0|e] eqn:Hst; [|done].
  pose proof (newState_ok _ _ _ Hst) as [-> Hv].
  unfold withLock in H. destruct (lock_fault fs); [done|]. cbn in H.
  unfold writeAtomic in H. destruct (write fs); [|done|done]. injection H as <- <- <-.
  pose proof (canonical_NoDup _ Htr (validateIdentity_NoDup _ Hv)) as Hnd.
  assert (Hok : verifyManifest (create_manifest identity (EncodeToString raw) now)
                  (canonicalIdentity identity) = Ok tt).
  { apply verifyManifest_spec, create_manifest_ok; try done. by apply EncodeToString_id. }
  split.
  - unfold Open. rewrite Hst. cbn. rewrite Hl. unfold readAndVerify. by rewrite Hr, Hok.
  - intros w n. rewrite high_water_some. cbn. unfold initial_wallets.
    intros (s & Hs & ->)%fmap_Some. apply initial_wallets_zero in Hs as [Hs|(? & ? & _)];
      [by rewrite lookup_empty in Hs|done].
Qed.

(** * Witnesses *)

Definition demo_identity : Identity :=
  {| id_Network := "regtest";
     id_Wallets := [ {| wi_WalletID := "hot"; wi_BirthdayHeight := 5; wi_Account := 0;
       wi_UFVKFingerprint := "00000000000000000000000000000000000000000000000000000000000000ab" |};
       {| wi_WalletID := "cold"; wi_BirthdayHeight := 7; wi_Account := 1;
       wi_UFVKFingerprint := "00000000000000000000000000000000000000000000000000000000000000cd" |} ] |}.
Definition demo_random : string := "0123456789abcdef0123456789abcdef".
Definition demo_expected : Identity := canonicalIdentity demo_identity.
Definition demo_manifest : Manifest :=
  create_manifest demo_identity (EncodeToString demo_random) 1000.

Lemma demo_trimmed : trimmed demo_identity.
Proof. split; [vm_compute; reflexivity|repeat constructor]. Qed.

Lemma demo_ok : manifest_ok demo_manifest demo_expected.
Proof.
  apply create_manifest_ok; [apply demo_trimmed| |vm_compute; reflexivity|done].
  apply (bool_decide_unpack _). vm_compute. exact I.
Qed.

Lemma demo_typed : ledger_typed (Some demo_manifest).
Proof.
  intros w n. rewrite high_water_some. intros (s & Hs & ->)%fmap_Some.
  apply initial_wallets_zero in Hs as [Hs|(_ & -> & _)]; [by rewrite lookup_empty in Hs|done].
Qed.

Definition demo_calls : list (ledger_op * fs_run) :=
  [ (LReserve "hot" 1001, fs_ok);
    (LReserve "hot" 1002, {| lock_fault := None; read_fault := None; write := ReplacedNotSynced (Foreign "io") |});
    (LReserve "hot" 1003, fs_ok); (LSkip "hot" 1 1004, fs_ok); (LReserve "cold" 1005, fs_ok) ].

Example demo_outcome :
  (exec_ledgers demo_expected demo_calls (Some demo_manifest)).1
  = [("hot", 0); ("hot", 2); ("cold", 0)]%string.
Proof. vm_compute. reflexivity. Qed.

Lemma no_index_reserved_twice_witness :
  NoDup (exec_ledgers demo_expected demo_calls (Some demo_manifest)).1.
Proof.
  destruct (exec_ledgers demo_expected demo_calls (Some demo_manifest)) as [outs file'] eqn:H.
  exact (proj1 (no_index_reserved_twice _ _ _ _ _ H demo_typed)).
Defined.

Lemma ledger_stays_verified_witness :
  exists m', (exec_ledgers demo_expected demo_calls (Some demo_manifest)).2 = Some m' /\
    verifyManifest m' demo_expected = Ok tt.
Proof.
  destruct (exec_ledgers demo_expected demo_calls (Some demo_manifest)) as [outs file'] eqn:H.
  apply (ledger_stays_verified _ _ _ _ _ demo_ok demo_typed H).
  repeat constructor; cbn; lia.
Defined.

Lemma reserve_behind_clock_bricks_witness :
  exists file', ReserveAddressIndex fs_ok demo_expected "hot" 999 (Some demo_manifest) = (Ok 0, file') /\
    exists e, readAndVerify fs_ok demo_expected file' = Err e.
Proof.
  assert (Hv : fst (ReserveAddressIndex fs_ok demo_expected "hot" 999 (Some demo_manifest)) = Ok 0)
    by (vm_compute; reflexivity).
  destruct (ReserveAddressIndex fs_ok demo_expected "hot" 999 (Some demo_manifest)) as [r file'] eqn:H.
  cbn [fst] in Hv. subst r. exists file'. split; [reflexivity|].
  assert (Hlt : 999 < mf_CreatedAt demo_manifest) by (cbn; lia).
  exact (reserve_behind_clock_bricks _ _ _ _ _ _ _ H Hlt fs_ok).
Defined.

Lemma create_then_open_witness :
  exists st m file', Create fs_ok "/var/lib/manifest.json" demo_identity (Ok demo_random) 1000 None
      = (Ok (st, m), file') /\
    Open fs_ok "/var/lib/manifest.json" demo_identity file' = Ok (st, m).
Proof.
  assert (Hv : is_ok (fst (Create fs_ok "/var/lib/manifest.json" demo_identity (Ok demo_random) 1000 None))
               = true) by (vm_compute; reflexivity).
  destruct (Create fs_ok "/var/lib/manifest.json" demo_identity (Ok demo_random) 1000 None)
    as [[[st m]|e] file'] eqn:H; [|discriminate Hv].
  exists st, m, file'. split; [reflexivity|].
  assert (Hlen : len demo_random = 32) by reflexivity.
  assert (Hnow : 1000 <> 0) by lia.
  exact (proj1 (create_then_open _ _ _ _ _ _ _ _ fs_ok demo_trimmed Hlen Hnow H eq_refl eq_refl)).
Defined.
