(* ===== verification/Filesystem.v ===== *)
(** The file system under the installation ledger: one directory, its files, what a
    crash leaves of them, and processes that call the system in any order.

    A call takes the process that makes it and its [luck], which holds everything
    the process does not decide, and blocks, or gives a reply and the next disk.  A
    name is changed at once for every process, but on the disk it may still be as it
    was since the directory was last synced; data may be anything until its file is
    synced.  A [crash] chooses among these for every name and every file. *)
From S2P Require Import Prelude GoString.

(** * The disk *)

Inductive kind : Type := Regular | Directory | Symlink | Special.

#[export] Instance kind_eq_dec : EqDecision kind.
Proof. solve_decision. Defined.

(** [in_maker], the process that made the file, is there for the proofs only. *)
Record inode := { in_kind : kind; in_perm : Z; in_data : bytes; in_synced : bool; in_maker : nat }.

(** [dk_past]: the names as they were since the directory was last synced.
    [dk_kept]: the directory itself is durable.  A lock is held by a process on a
    file, alone or shared. *)
Record disk := {
  dk_dir : option (kind * Z);
  dk_kept : bool;
  dk_names : gmap string nat;
  dk_past : list (gmap string nat);
  dk_inodes : gmap nat inode;
  dk_locks : list (nat * nat * bool)
}.

Definition set_dir (dir : option (kind * Z)) (kept : bool) (d : disk) : disk :=
  {| dk_dir := dir; dk_kept := kept; dk_names := dk_names d; dk_past := dk_past d; dk_inodes := dk_inodes d;
     dk_locks := dk_locks d |}.
Definition set_inode (i : nat) (f : inode) (d : disk) : disk :=
  {| dk_dir := dk_dir d; dk_kept := dk_kept d; dk_names := dk_names d; dk_past := dk_past d;
     dk_inodes := <[i := f]> (dk_inodes d); dk_locks := dk_locks d |}.
Definition set_names (names : gmap string nat) (d : disk) : disk :=
  {| dk_dir := dk_dir d; dk_kept := dk_kept d; dk_names := names; dk_past := dk_names d :: dk_past d;
     dk_inodes := dk_inodes d; dk_locks := dk_locks d |}.
Definition set_locks (locks : list (nat * nat * bool)) (d : disk) : disk :=
  {| dk_dir := dk_dir d; dk_kept := dk_kept d; dk_names := dk_names d; dk_past := dk_past d;
     dk_inodes := dk_inodes d; dk_locks := locks |}.
Definition settle (d : disk) : disk :=
  {| dk_dir := dk_dir d; dk_kept := dk_kept d; dk_names := dk_names d; dk_past := []; dk_inodes := dk_inodes d;
     dk_locks := dk_locks d |}.

(** A crash, or a loss of power: the processes are gone, and so are their locks. *)
Definition survives (f f' : inode) : Prop :=
  in_synced f' = true /\ in_maker f' = in_maker f /\ in_kind f' = in_kind f /\ (in_synced f = true -> f' = f).

Record crash (d d' : disk) : Prop := {
  crash_dir : dk_dir d' = dk_dir d /\
      (forall n, exists v, v ∈ dk_names d :: dk_past d /\ dk_names d' !! n = v !! n)
    \/ dk_kept d = false /\ dk_dir d' = None /\ dk_names d' = ∅;
  crash_inodes : forall i, option_Forall2 survives (dk_inodes d !! i) (dk_inodes d' !! i);
  crash_settled : dk_past d' = [] /\ dk_locks d' = [] /\ dk_kept d' = true
}.

(** * Programs *)

(** What a call meets: an error, the random part of a temporary name, how much of
    the data was written before the error, the process's umask. *)
Record luck := { fault : option string; random_name : string; wrote : nat; umask : Z }.

Definition good : luck := {| fault := None; random_name := "1"; wrote := 0; umask := 0 |}.

Definition sys (X : Type) : Type := nat -> luck -> disk -> option (X * disk).

Inductive io (A : Type) : Type :=
  | Ret (a : A)
  | Sys {X : Type} (f : sys X) (k : X -> io A).
Arguments Ret {A} a.
Arguments Sys {A X} f k.

#[export] Instance io_ret : MRet io := fun A a => Ret a.
#[export] Instance io_bind : MBind io := fun A B g =>
  fix bind p := match p with Ret a => g a | Sys f k => Sys f (fun x => bind (k x)) end.

Definition call {X} (f : sys X) : io X := Sys f (fun x => Ret x).

(** [if err != nil { return err }]. *)
Definition and_then {A B} (p : io (result A)) (k : A -> io (result B)) : io (result B) :=
  r ← p; match r with Ok a => k a | Err e => mret (Err e) end.

Notation "x ⇐ p ; q" := (and_then p (fun x => q)) (at level 20, p at level 100, q at level 200, only parsing).

(** [fmt.Errorf(msg + ": %w", err)] on the error of a call. *)
Definition failing {A} (msg : string) (f : sys (result A)) : io (result A) :=
  r ← call f; mret (map_err (Wrap msg) r).

(** A process on its own; [luck n] is met by the [n]-th call.  [None]: it blocks. *)
Fixpoint exec {A} (me : nat) (p : io A) (luck_of : nat -> luck) (n : nat) (d : disk) : option (A * disk) :=
  match p with
  | Ret a => Some (a, d)
  | Sys f k => '(x, d') ← f me (luck_of n) d; exec me (k x) luck_of (S n) d'
  end.

(** * Calls *)

Definition or_fault {X} (l : luck) (d : disk) (k : result X * disk) : option (result X * disk) :=
  match fault l with Some msg => Some (Err (Foreign msg), d) | None => Some k end.

Definition errno {X} (msg : string) (d : disk) : result X * disk := (Err (Foreign msg), d).

(** [os.Lstat] of the directory; [Ok None] is [os.ErrNotExist]. *)
Definition lstat_dir : sys (result (option (kind * Z))) := fun _ l d => or_fault l d (Ok (dk_dir d), d).

(** [os.FileInfo]: [os.SameFile] compares [fi_inode]. *)
Record FileInfo := { fi_kind : kind; fi_perm : Z; fi_inode : nat }.

Definition info_of (i : nat) (f : inode) : FileInfo := {| fi_kind := in_kind f; fi_perm := in_perm f; fi_inode := i |}.

Definition stat_of (name : string) (d : disk) : option FileInfo :=
  i ← dk_names d !! name; f ← dk_inodes d !! i; Some (info_of i f).

Definition lstat (name : string) : sys (result (option FileInfo)) := fun _ l d => or_fault l d (Ok (stat_of name d), d).

(** [os.MkdirAll(dir, perm)] *)
Definition mkdir_all (perm : Z) : sys (result unit) := fun _ l d =>
  or_fault l d
    match dk_dir d with
    | None => (Ok tt, set_dir (Some (Directory, Z.land perm (Z.lnot (umask l)))) false d)
    | Some (Regular, _) | Some (Special, _) => errno "not a directory" d
    | Some _ => (Ok tt, d)
    end.

(** [os.Chmod(dir, perm)] *)
Definition chmod_dir (perm : Z) : sys (result unit) := fun _ l d =>
  or_fault l d
    match dk_dir d with
    | Some (k, _) => (Ok tt, set_dir (Some (k, perm)) (dk_kept d) d)
    | None => errno "no such file or directory" d
    end.

Definition new_inode (d : disk) : nat := fresh (dom (dk_inodes d)).

Definition make (name : string) (perm : Z) (me : nat) (d : disk) : nat * disk :=
  let i := new_inode d in
  (i, set_names (<[name := i]> (dk_names d))
        (set_inode i {| in_kind := Regular; in_perm := perm; in_data := []; in_synced := false; in_maker := me |} d)).

(** [os.OpenFile(name, O_CREATE|O_RDWR|O_NOFOLLOW, perm)] *)
Definition open_create (name : string) (perm : Z) : sys (result nat) := fun me l d =>
  or_fault l d
    match dk_dir d, dk_names d !! name with
    | None, _ => errno "no such file or directory" d
    | Some _, None => let '(i, d') := make name (Z.land perm (Z.lnot (umask l))) me d in (Ok i, d')
    | Some _, Some i =>
        match in_kind <$> dk_inodes d !! i with
        | Some Symlink => errno "too many levels of symbolic links" d
        | Some Directory => errno "is a directory" d
        | None => errno "input/output error" d
        | Some _ => (Ok i, d)
        end
    end.

(** [os.CreateTemp(dir, prefix + "*")], which opens with [O_EXCL]: the name and the file. *)
Definition create_temp (prefix : string) : sys (result (string * nat)) := fun me l d =>
  or_fault l d
    match dk_dir d, dk_names d !! (prefix +:+ random_name l) with
    | None, _ => errno "no such file or directory" d
    | Some _, Some _ => errno "file exists" d
    | Some _, None =>
        let '(i, d') := make (prefix +:+ random_name l) (Z.land 384 (Z.lnot (umask l))) me d in
        (Ok (prefix +:+ random_name l, i), d')
    end.

(** Calls on an open file. *)
Definition on_file {X} (i : nat) (l : luck) (d : disk) (k : inode -> result X * disk) : option (result X * disk) :=
  or_fault l d match dk_inodes d !! i with Some f => k f | None => errno "bad file descriptor" d end.

Definition fstat (i : nat) : sys (result FileInfo) := fun _ l d => on_file i l d (fun f => (Ok (info_of i f), d)).

Definition fchmod (i : nat) (perm : Z) : sys (result unit) := fun _ l d =>
  on_file i l d (fun f =>
    (Ok tt, set_inode i {| in_kind := in_kind f; in_perm := perm; in_data := in_data f; in_synced := false;
                           in_maker := in_maker f |} d)).

(** [file.Write(raw)]: with an error, a part of the data is written. *)
Definition append (f : inode) (raw : bytes) : inode :=
  {| in_kind := in_kind f; in_perm := in_perm f; in_data := in_data f ++ raw; in_synced := false; in_maker := in_maker f |}.

Definition write (i : nat) (raw : bytes) : sys (result unit) := fun _ l d =>
  match dk_inodes d !! i, fault l with
  | None, _ => Some (errno "bad file descriptor" d)
  | Some f, None => Some (Ok tt, set_inode i (append f raw) d)
  | Some f, Some msg => Some (Err (Foreign msg), set_inode i (append f (take (wrote l) raw)) d)
  end.

Definition fsync (i : nat) : sys (result unit) := fun _ l d =>
  on_file i l d (fun f =>
    (Ok tt, set_inode i {| in_kind := in_kind f; in_perm := in_perm f; in_data := in_data f; in_synced := true;
                           in_maker := in_maker f |} d)).

(** [syscall.Flock]: it waits while another process holds the file, unless both
    share it. *)
Definition conflicts (me i : nat) (exclusive : bool) (d : disk) : bool :=
  existsb (fun '(q, j, e) => Nat.eqb j i && negb (Nat.eqb q me) && (e || exclusive)) (dk_locks d).

Definition flock (i : nat) (exclusive : bool) : sys (result unit) := fun me l d =>
  match fault l with
  | Some msg => Some (Err (Foreign msg), d)
  | None => if conflicts me i exclusive d then None else Some (Ok tt, set_locks ((me, i, exclusive) :: dk_locks d) d)
  end.

Definition release (me i : nat) (d : disk) : disk :=
  set_locks (List.filter (fun '(q, j, _) => negb (Nat.eqb q me && Nat.eqb j i)) (dk_locks d)) d.

(** [syscall.Flock(fd, LOCK_UN)] and [file.Close()], which lets go of a lock whatever
    it reports. *)
Definition funlock (i : nat) : sys (result unit) := fun me l d => or_fault l d (Ok tt, release me i d).
Definition close (i : nat) : sys (result unit) := fun me l d =>
  Some (match fault l with Some msg => Err (Foreign msg) | None => Ok tt end, release me i d).

(** [os.Rename] within the directory *)
Definition rename (from to : string) : sys (result unit) := fun _ l d =>
  or_fault l d
    match dk_names d !! from with
    | None => errno "no such file or directory" d
    | Some i =>
        match (j ← dk_names d !! to; in_kind <$> dk_inodes d !! j) with
        | Some Directory => errno "file exists" d
        | _ => (Ok tt, set_names (<[to := i]> (delete from (dk_names d))) d)
        end
    end.

Definition remove (name : string) : sys (result unit) := fun _ l d =>
  or_fault l d
    match dk_names d !! name with
    | None => errno "no such file or directory" d
    | Some _ => (Ok tt, set_names (delete name (dk_names d)) d)
    end.

(** [os.Open(dir)] and [dirHandle.Sync()] *)
Definition open_dir : sys (result unit) := fun _ l d => or_fault l d (Ok tt, d).
Definition sync_dir : sys (result unit) := fun _ l d => or_fault l d (Ok tt, settle d).

(** [os.Open(name)]; where a symbolic link leads is not followed. *)
Definition open_file (name : string) : sys (result nat) := fun _ l d =>
  or_fault l d
    match stat_of name d with
    | Some {| fi_kind := Symlink |} | None => errno "no such file or directory" d
    | Some info => (Ok (fi_inode info), d)
    end.

(** [io.LimitReader(file, limit)], read to its end *)
Fixpoint LimitReader (limit : Z) (raw : bytes) : bytes :=
  match raw with
  | [] => []
  | c :: raw' => if 0 <? limit then c :: LimitReader (limit - 1) raw' else []
  end.

Lemma LimitReader_take limit raw : LimitReader limit raw = take (Z.to_nat limit) raw.
Proof.
  revert limit. induction raw as [|c raw IH]; intros limit; cbn [LimitReader]; [by rewrite take_nil|].
  destruct (Z.ltb_spec 0 limit).
  - replace (Z.to_nat limit) with (S (Z.to_nat (limit - 1))) by lia. cbn [firstn]. by rewrite IH.
  - by replace (Z.to_nat limit) with 0%nat by lia.
Qed.

Definition read (i : nat) (limit : Z) : sys (result bytes) := fun _ l d =>
  on_file i l d (fun f => (Ok (LimitReader limit (in_data f)), d)).

(** * Processes *)

(** [mc_log]: what the processes that ended returned. *)
Record machine (R : Type) := {
  mc_disk : disk;
  mc_procs : gmap nat (io R);
  mc_next : nat;
  mc_log : list (nat * R)
}.
Arguments mc_disk {R} m.
Arguments mc_procs {R} m.
Arguments mc_next {R} m.
Arguments mc_log {R} m.

Section machine.
Context {R : Type} (may_start : io R -> Prop).

(** A process starts, makes one call, returns, or is killed; or the machine crashes. *)
Inductive step : machine R -> machine R -> Prop :=
  | step_start p d procs next log : may_start p ->
      step {| mc_disk := d; mc_procs := procs; mc_next := next; mc_log := log |}
           {| mc_disk := d; mc_procs := <[next := p]> procs; mc_next := S next; mc_log := log |}
  | step_call {X} me (f : sys X) k l x d d' procs next log :
      procs !! me = Some (Sys f k) -> f me l d = Some (x, d') ->
      step {| mc_disk := d; mc_procs := procs; mc_next := next; mc_log := log |}
           {| mc_disk := d'; mc_procs := <[me := k x]> procs; mc_next := next; mc_log := log |}
  | step_return me r d procs next log :
      procs !! me = Some (Ret r) ->
      step {| mc_disk := d; mc_procs := procs; mc_next := next; mc_log := log |}
           {| mc_disk := d; mc_procs := delete me procs; mc_next := next; mc_log := (me, r) :: log |}
  | step_kill me d procs next log :
      step {| mc_disk := d; mc_procs := procs; mc_next := next; mc_log := log |}
           {| mc_disk := set_locks (List.filter (fun '(q, _, _) => negb (Nat.eqb q me)) (dk_locks d)) d;
              mc_procs := delete me procs; mc_next := next; mc_log := log |}
  | step_crash d d' procs next log : crash d d' ->
      step {| mc_disk := d; mc_procs := procs; mc_next := next; mc_log := log |}
           {| mc_disk := d'; mc_procs := ∅; mc_next := next; mc_log := log |}.

Definition boot (d : disk) : machine R := {| mc_disk := d; mc_procs := ∅; mc_next := 0; mc_log := [] |}.

Inductive reachable (d : disk) : machine R -> Prop :=
  | reachable_boot : reachable d (boot d)
  | reachable_step m m' : reachable d m -> step m m' -> reachable d m'.
End machine.
