(* ===== verification/Encoding.v ===== *)
(** The text of the installation manifest ([writeAtomic] and [readAndVerify] of
    [internal/installation/state.go]): indented JSON, decoded strictly from at most
    one mebibyte.  A manifest that was written is read back as it was, or not at all
    when its text is too long. *)
From S2P Require Import Prelude GoString GoTime Json Time Calendar Indent Installation Filesystem.

(** * Encoding *)

Definition jint (z : Z) : json := JNumber (pretty z).

Definition wallet_json (w : WalletState) : json :=
  JObject ([("ufvk_fingerprint", JString (ws_Fingerprint w)); ("birthday_height", jint (ws_Birthday w))]%string
    ++ (if ws_Account w =? 0 then [] else [("account", jint (ws_Account w))]%string)
    ++ [("next_address_index", jint (NextAddressIndex w))]%string
    ++ (match SkippedAddressIndices w with
        | [] => []
        | l => [("skipped_address_indices", JArray (map jint l))]%string
        end)).

(** The keys of a Go map are written in their order. *)
Definition by_key (x y : string * WalletState) : Prop := String.le x.1 y.1.

#[export] Instance by_key_dec : RelDecision by_key.
Proof. unfold by_key. intros x y. apply _. Defined.

Definition sorted_wallets (ws : gmap string WalletState) : list (string * WalletState) :=
  merge_sort by_key (map_to_list ws).

Definition manifest_json (m : Manifest) : json :=
  JObject [("version", jint (Version m)); ("installation_id", JString (InstallationID m));
           ("network", JString (mf_Network m)); ("identity_sha256", JString (IdentitySHA256 m));
           ("wallets", JObject (map (fun w => (w.1, wallet_json w.2)) (sorted_wallets (Wallets m))));
           ("created_at", JString (FormatRFC3339Nano (mf_CreatedAt m)));
           ("updated_at", JString (FormatRFC3339Nano (mf_UpdatedAt m)))]%string.

(** [Time.MarshalJSON] refuses a year outside [0, 9999].  The times are written in
    UTC, as every time that the program gives to a manifest is. *)
Definition marshals (t : time) : bool := (first_instant <=? t) && (t <? end_of_time).

Definition encode (m : Manifest) : result bytes :=
  if marshals (mf_CreatedAt m) && marshals (mf_UpdatedAt m)
  then Ok (MarshalIndent (manifest_json m) ++ [ascii_of_N 10])
  else Err (Wrap "encode installation manifest" (Foreign "Time.MarshalJSON: year outside of range [0,9999]")).

(** * Decoding *)

Definition no_wallet : WalletState :=
  {| ws_Fingerprint := ""; ws_Birthday := 0; ws_Account := 0; NextAddressIndex := 0; SkippedAddressIndices := [] |}.

Definition wallet_fields : list string :=
  ["ufvk_fingerprint"; "birthday_height"; "account"; "next_address_index"; "skipped_address_indices"]%string.

Definition into_wallet (j : json) (w : WalletState) : option WalletState :=
  ms ← fields_of true wallet_fields j;
  fingerprint ← decode_field "ufvk_fingerprint" into_string (ws_Fingerprint w) ms;
  birthday ← decode_field "birthday_height" into_int64 (ws_Birthday w) ms;
  account ← decode_field "account" into_uint32 (ws_Account w) ms;
  next ← decode_field "next_address_index" into_uint64 (NextAddressIndex w) ms;
  skipped ← decode_field "skipped_address_indices" (into_slice into_uint32 0) (SkippedAddressIndices w) ms;
  Some {| ws_Fingerprint := fingerprint; ws_Birthday := birthday; ws_Account := account;
          NextAddressIndex := next; SkippedAddressIndices := skipped |}.

(** A map keeps its entries, and each value is decoded into a zero one. *)
Definition into_wallets (j : json) (ws : gmap string WalletState) : option (gmap string WalletState) :=
  match j with
  | JNull => Some ∅
  | JObject ms => foldl (fun acc m => ws ← acc; w ← into_wallet m.2 no_wallet; Some (<[m.1 := w]> ws)) (Some ws) ms
  | _ => None
  end.

Definition no_manifest : Manifest :=
  {| Version := 0; InstallationID := ""; mf_Network := ""; IdentitySHA256 := ""; Wallets := ∅;
     mf_CreatedAt := 0; mf_UpdatedAt := 0 |}.

Definition manifest_fields : list string :=
  ["version"; "installation_id"; "network"; "identity_sha256"; "wallets"; "created_at"; "updated_at"]%string.

Definition into_manifest (j : json) (m : Manifest) : option Manifest :=
  ms ← fields_of true manifest_fields j;
  version ← decode_field "version" into_int64 (Version m) ms;
  id ← decode_field "installation_id" into_string (InstallationID m) ms;
  network ← decode_field "network" into_string (mf_Network m) ms;
  identity ← decode_field "identity_sha256" into_string (IdentitySHA256 m) ms;
  ws ← decode_field "wallets" into_wallets (Wallets m) ms;
  created ← decode_field "created_at" into_time (mf_CreatedAt m) ms;
  updated ← decode_field "updated_at" into_time (mf_UpdatedAt m) ms;
  Some {| Version := version; InstallationID := id; mf_Network := network; IdentitySHA256 := identity;
          Wallets := ws; mf_CreatedAt := created; mf_UpdatedAt := updated |}.

Definition size_limit : Z := 2 ^ 20.

(** What [decoder.Decode] makes of the bytes the limited reader lets through, and the
    test for data after it. *)
Definition decode (raw : bytes) : result Manifest :=
  match next_value raw with
  | None => Err (Wrap "decode installation manifest" (Foreign "unexpected end or invalid character"))
  | Some (j, rest) =>
      match into_manifest j no_manifest with
      | None => Err (Wrap "decode installation manifest" (Foreign "unknown field or mismatched type"))
      | Some m => if forallb isSpace rest then Ok m else Err (New "installation manifest contains trailing data")
      end
  end.

Definition demo_wallets : gmap string WalletState :=
  {["hot" := {| ws_Fingerprint := "ab"; ws_Birthday := 7; ws_Account := 0; NextAddressIndex := 3;
                SkippedAddressIndices := [0; 2] |};
    "cold" := {| ws_Fingerprint := "cd"; ws_Birthday := 9; ws_Account := 5; NextAddressIndex := 4294967296;
                 SkippedAddressIndices := [] |}]}%string.
Definition demo_text : Manifest :=
  {| Version := 2; InstallationID := "id"; mf_Network := "mainnet"; IdentitySHA256 := "sum"; Wallets := demo_wallets;
     mf_CreatedAt := unix_epoch; mf_UpdatedAt := unix_epoch + 5 |}.

Example demo_read : (raw ← encode demo_text; decode raw) = Ok demo_text.
Proof. vm_compute. reflexivity. Qed.

(** * What is written is read back *)

Record wallet_writable (w : WalletState) : Prop := {
  wr_fingerprint : utf8_string (ws_Fingerprint w) = true;
  wr_birthday : int64 (ws_Birthday w);
  wr_account : uint32 (ws_Account w);
  wr_next : uint64 (NextAddressIndex w);
  wr_skipped : Forall uint32 (SkippedAddressIndices w)
}.

(** Strings are UTF-8 and numbers have the width of their fields. *)
Record writable (m : Manifest) : Prop := {
  wr_version : int64 (Version m);
  wr_strings : utf8_string (InstallationID m) = true /\ utf8_string (mf_Network m) = true
    /\ utf8_string (IdentitySHA256 m) = true;
  wr_wallets : map_Forall (fun id w => utf8_string id = true /\ wallet_writable w) (Wallets m)
}.

Lemma jints_printable l : forallb printable (map jint l) = true /\ foldr Z.max 0 (map depth (map jint l)) = 0.
Proof.
  induction l as [|z l [IH1 IH2]]; [done|]. cbn [map forallb foldr jint printable depth].
  rewrite number_literal_pretty, IH1. split; [done|lia].
Qed.

Lemma wallet_json_printable w : wallet_writable w -> printable (wallet_json w) = true /\ depth (wallet_json w) <= 2.
Proof.
  intros []. unfold wallet_json. destruct (jints_printable (SkippedAddressIndices w)) as [Hp Hd].
  destruct (SkippedAddressIndices w) as [|z l];
    [|revert Hp Hd; generalize (map jint (z :: l)); intros js Hp Hd];
    destruct (ws_Account w =? 0);
    cbn [app printable forallb fst snd depth map foldr andb jint]; rewrite ?number_literal_pretty, ?wr_fingerprint0, ?Hp;
    (split; [done|]); lia.
Qed.

Lemma into_uint32s l : Forall uint32 l -> into_elements into_uint32 0 (map jint l) [] = Some l.
Proof.
  induction 1 as [|z l Hz Hl IH]; [done|]. cbn [map into_elements head tail default].
  change (into_uint32 (jint z) 0) with (ParseUint (pretty z) 32).
  rewrite ParseUint_pretty_Z by (width; lia). cbn [mbind option_bind].
  change (tail []) with (@nil Z). by rewrite IH.
Qed.

Lemma into_wallet_json w : wallet_writable w -> into_wallet (wallet_json w) no_wallet = Some w.
Proof.
  destruct w as [fp birthday account next skipped]. intros [Hf Hb Ha Hn Hs]. cbn in Hf, Hb, Ha, Hn, Hs.
  assert (Hb' : into_int64 (jint birthday) 0 = Some birthday) by by apply ParseInt_pretty.
  assert (Ha' : into_uint32 (jint account) 0 = Some account) by (apply ParseUint_pretty_Z; width; lia).
  assert (Hn' : into_uint64 (jint next) 0 = Some next) by (apply ParseUint_pretty_Z; width; lia).
  assert (Hs' : into_slice into_uint32 0 (JArray (map jint skipped)) [] = Some skipped) by by apply into_uint32s.
  unfold wallet_json, into_wallet, wallet_fields.
  cbn [ws_Fingerprint ws_Birthday ws_Account NextAddressIndex SkippedAddressIndices no_wallet].
  revert Hb' Ha' Hn' Hs'. generalize (jint birthday) (jint account) (jint next). intros jb ja jn Hb' Ha' Hn'.
  destruct skipped as [|z l]; [intros _|generalize (JArray (map jint (z :: l))); intros js Hs'];
    (destruct (Z.eqb_spec account 0) as [->|]); cbn [app]; decode_json; cbn [into_string]; decode_json;
    rewrite ?Hb'; decode_json; rewrite ?Ha'; decode_json; rewrite Hn'; decode_json; rewrite ?Hs'; by decode_json.
Qed.

Lemma into_wallets_members l ws : Forall (fun w => wallet_writable w.2) l ->
  into_wallets (JObject (map (fun w => (w.1, wallet_json w.2)) l)) ws
  = Some (foldl (fun (acc : gmap string WalletState) w => <[w.1 := w.2]> acc) ws l).
Proof.
  intros Hl. cbn [into_wallets]. revert ws. induction Hl as [|[k w] l Hw Hl IH]; intros ws; [done|].
  cbn [map foldl fst snd mbind option_bind]. cbn [fst snd] in Hw. rewrite into_wallet_json by done. apply IH.
Qed.

Lemma foldl_insert_fresh (l : list (string * WalletState)) (ws : gmap string WalletState) : NoDup l.*1 ->
  foldl (fun (acc : gmap string WalletState) w => <[w.1 := w.2]> acc) ws l = (list_to_map l : gmap string WalletState) ∪ ws.
Proof.
  revert ws. induction l as [|[k w] l IH]; intros ws; cbn; [by rewrite (left_id_L ∅ (∪))|].
  rewrite NoDup_cons. intros [Hk Hl]. rewrite IH by done.
  rewrite <- insert_union_l, insert_union_r; [done|]. by apply not_elem_of_list_to_map.
Qed.

Lemma sorted_wallets_perm ws : sorted_wallets ws ≡ₚ map_to_list ws.
Proof. apply merge_sort_Permutation. Qed.

Lemma sorted_wallets_forall (P : string * WalletState -> Prop) ws :
  map_Forall (fun k w => P (k, w)) ws -> Forall P (sorted_wallets ws).
Proof. intros H. rewrite sorted_wallets_perm. apply map_Forall_to_list in H. 
  eapply Forall_impl; [exact H|]. intros [k w] Hkw. exact Hkw. Qed.

Lemma into_sorted_wallets ws : map_Forall (fun id w => utf8_string id = true /\ wallet_writable w) ws ->
  into_wallets (JObject (map (fun w => (w.1, wallet_json w.2)) (sorted_wallets ws))) ∅ = Some ws.
Proof.
  intros Hw. rewrite into_wallets_members.
  - rewrite foldl_insert_fresh, (right_id_L ∅ (∪)).
    + f_equal. rewrite <- (list_to_map_to_list ws) at 2. apply list_to_map_proper; [|apply sorted_wallets_perm].
      rewrite sorted_wallets_perm. apply NoDup_fst_map_to_list.
    + rewrite sorted_wallets_perm. apply NoDup_fst_map_to_list.
  - apply sorted_wallets_forall. by intros k w [? ?]%Hw.
Qed.

(** ** The text of a time *)

Lemma digits_ascii n z : forallb is_ascii (digits n z) = true.
Proof.
  apply forallb_forall. intros c Hc. pose proof (digits_are_digits n z) as Hd.
  rewrite forallb_forall in Hd. specialize (Hd c Hc). unfold is_digit, in_range, is_ascii in *. lia.
Qed.

Lemma forallb_cons_ascii c l : is_ascii c = true -> forallb is_ascii l = true -> forallb is_ascii (c :: l) = true.
Proof. intros Hc Hl. cbn [forallb]. by rewrite Hc, Hl. Qed.

Lemma forallb_app_ascii l l' : forallb is_ascii l = true -> forallb is_ascii l' = true -> forallb is_ascii (l ++ l') = true.
Proof. intros Hl Hl'. by rewrite forallb_app, Hl, Hl'. Qed.

Lemma FormatRFC3339Nano_utf8 t : utf8_string (FormatRFC3339Nano t) = true.
Proof.
  apply ascii_utf8. unfold all_bytes, FormatRFC3339Nano. destruct (civil _) as [[y m] d]. rewrite to_of_bytes.
  destruct (trim_zeros_prefix (digits 9 (t mod second))) as (k & Hl & _).
  pose proof (digits_ascii 9 (t mod second)) as Hn. rewrite Hl, forallb_app in Hn. apply andb_prop in Hn as [Hn _].
  repeat (apply forallb_app_ascii; [apply digits_ascii || done|]).
  apply forallb_app_ascii; [|done]. by destruct (trim_zeros _); [|apply forallb_cons_ascii].
Qed.

(** ** The manifest *)

Lemma manifest_json_printable m : writable m ->
  printable (manifest_json m) = true /\ depth (manifest_json m) <= 10000.
Proof.
  intros [_ (Hi & Hn & Hs) Hw].
  assert (Hws : printable (JObject (map (fun w => (w.1, wallet_json w.2)) (sorted_wallets (Wallets m)))) = true
    /\ depth (JObject (map (fun w => (w.1, wallet_json w.2)) (sorted_wallets (Wallets m)))) <= 3).
  { pose proof (sorted_wallets_forall (fun w => utf8_string w.1 = true /\ wallet_writable w.2) _ Hw) as Hall.
    cbn [printable depth]. induction Hall as [|[k w] l [Hk Hwl] _ [IH1 IH2]]; [done|].
    destruct (wallet_json_printable w Hwl) as [Hp Hd]. cbn [fst snd] in Hk.
    cbn [map forallb foldr fst snd]. rewrite Hk, Hp. cbn [andb]. split; [done|lia]. }
  revert Hws. unfold manifest_json. generalize (JObject (map (fun w => (w.1, wallet_json w.2)) (sorted_wallets (Wallets m)))).
  intros jw [Hp Hd]. cbn [printable forallb fst snd depth map foldr jint].
  rewrite !number_literal_pretty, !FormatRFC3339Nano_utf8, Hi, Hn, Hs, Hp. split; [done|lia].
Qed.

Lemma into_manifest_json m : writable m -> marshals (mf_CreatedAt m) = true -> marshals (mf_UpdatedAt m) = true ->
  into_manifest (manifest_json m) no_manifest = Some m.
Proof.
  destruct m as [v i n s ws c u]. intros [Hv _ Hw] Hc Hu. cbn in Hv, Hw, Hc, Hu.
  assert (Hv' : into_int64 (jint v) 0 = Some v) by by apply ParseInt_pretty.
  assert (Ht : forall t, marshals t = true -> into_time (JString (FormatRFC3339Nano t)) 0 = Some t).
  { unfold marshals. intros t Ht. apply ParseRFC3339_Format. lia. }
  pose proof (Ht c Hc) as Hc'. pose proof (Ht u Hu) as Hu'. pose proof (into_sorted_wallets ws Hw) as Hw'.
  unfold into_manifest, manifest_json, manifest_fields.
  cbn [Version InstallationID mf_Network IdentitySHA256 Wallets mf_CreatedAt mf_UpdatedAt no_manifest].
  revert Hv' Hc' Hu' Hw'. clear. generalize (jint v) (JString (FormatRFC3339Nano c)) (JString (FormatRFC3339Nano u))
    (JObject (map (fun w => (w.1, wallet_json w.2)) (sorted_wallets ws))).
  intros jv jc ju jw Hv Hc Hu Hw. decode_json. cbn [into_string]. decode_json.
  rewrite Hv. decode_json. rewrite Hw. decode_json. rewrite Hc. decode_json. rewrite Hu. by decode_json.
Qed.

(** The bytes that the limited reader lets through. *)
Definition limited (raw : bytes) : bytes := LimitReader size_limit raw.

Lemma manifest_text m : exists text, MarshalIndent (manifest_json m) = "{"%char :: text.
Proof. by eexists. Qed.

Lemma manifest_text_read m rest : writable m -> delimits rest = true ->
  next_value (MarshalIndent (manifest_json m) ++ rest) = Some (manifest_json m, rest).
Proof.
  intros Hw Hr. destruct (manifest_json_printable m Hw) as [Hp Hd]. unfold next_value, MarshalIndent.
  rewrite (run_print_indent (manifest_json m) 0%nat [] rest); [done|done|done|cbn [length]; lia].
Qed.

Lemma encode_ok m raw : encode m = Ok raw ->
  marshals (mf_CreatedAt m) = true /\ marshals (mf_UpdatedAt m) = true
  /\ raw = MarshalIndent (manifest_json m) ++ [ascii_of_N 10].
Proof.
  unfold encode. generalize (MarshalIndent (manifest_json m) ++ [ascii_of_N 10]). intros text.
  destruct (marshals (mf_CreatedAt m)), (marshals (mf_UpdatedAt m)); try done. by intros [= <-].
Qed.

(** What was written is read back as it was, unless it is too long; then it is not
    read at all. *)
Lemma decode_limited m raw : writable m -> encode m = Ok raw ->
  (Z.of_nat (length raw) <= size_limit + 1 -> decode (limited raw) = Ok m) /\
  (size_limit + 1 < Z.of_nat (length raw) -> exists e, decode (limited raw) = Err e).
Proof.
  intros Hw (Hc & Hu & ->)%encode_ok.
  pose proof (into_manifest_json m Hw Hc Hu) as Hi.
  assert (Hall := manifest_text_read m [] Hw eq_refl). assert (Hnl := manifest_text_read m [ascii_of_N 10] Hw eq_refl).
  destruct (manifest_text m) as [text Ht]. rewrite app_nil_r in Hall.
  set (json := MarshalIndent (manifest_json m)) in *. clearbody json. set (n := Z.to_nat size_limit).
  assert (Hn : Z.of_nat n = size_limit) by (apply Z2Nat.id; done).
  rewrite length_app. cbn [length]. unfold limited. rewrite LimitReader_take. fold n. clearbody n. split; intros Hlen.
  - unfold decode. destruct (decide (n = length json)) as [->|].
    + rewrite take_app_length, Hall, Hi. done.
    + rewrite take_ge by (rewrite length_app; cbn [length]; lia). by rewrite Hnl, Hi.
  - rewrite take_app_le by lia. subst json. destruct n as [|n]; [done|]. cbn [firstn].
    exists (Wrap "decode installation manifest" (Foreign "unexpected end or invalid character")).
    unfold decode, next_value. rewrite (cut_short (take n text) (drop n text) (manifest_json m)); [done|..].
    + by rewrite firstn_skipn.
    + intros Hd. apply (f_equal length) in Hd. rewrite length_drop in Hd. cbn [length] in *. lia.
Qed.

(** What can be read back of a manifest that was written is that manifest. *)
Lemma encoded_is_read m raw m' : writable m -> encode m = Ok raw -> decode (limited raw) = Ok m' -> m' = m.
Proof.
  intros Hw He Hd. destruct (decode_limited m raw Hw He) as [Hs Hl].
  destruct (Z.le_gt_cases (Z.of_nat (length raw)) (size_limit + 1)) as [H|H].
  - rewrite (Hs H) in Hd. congruence.
  - destruct (Hl H) as [e He']. congruence.
Qed.

(** * What is decoded has the width of its fields *)

Record wallet_typed (w : WalletState) : Prop := {
  ty_birthday : int64 (ws_Birthday w);
  ty_account : uint32 (ws_Account w);
  ty_next : uint64 (NextAddressIndex w);
  ty_skipped : Forall uint32 (SkippedAddressIndices w)
}.

Lemma into_int_typed (P : Z -> Prop) parse j old z :
  (forall s v, parse s = Some v -> P v) -> into_int parse j old = Some z -> P old -> P z.
Proof. intros Hp. destruct j; cbn; try done; [by intros [= ->]|]. intros H _. by eapply Hp. Qed.

Lemma into_elements_typed (P : Z -> Prop) into l old r : P 0 -> (forall j a b, into j a = Some b -> P a -> P b) ->
  Forall P old -> into_elements into 0 l old = Some r -> Forall P r.
Proof.
  intros H0 Hi. revert old r. induction l as [|j l IH]; intros old r Ho; cbn [into_elements]; [by intros [= <-]|].
  destruct (into j _) as [v|] eqn:Hv; [|done]. cbn [mbind option_bind].
  destruct (into_elements into 0 l (tail old)) as [r'|] eqn:Hr; [|done]. intros [= <-]. constructor.
  - eapply Hi; [exact Hv|]. destruct Ho; [done|]. done.
  - eapply IH; [|exact Hr]. by destruct Ho.
Qed.

Lemma uint32_parsed s v : ParseUint s 32 = Some v -> uint32 v.
Proof. intros H%ParseUint_range. width. lia. Qed.

Lemma into_wallet_typed j w w' : wallet_typed w -> into_wallet j w = Some w' -> wallet_typed w'.
Proof.
  intros [Hb Ha Hn Hs]. unfold into_wallet. destruct (fields_of _ _ j) as [ms|]; [|done]. cbn [mbind option_bind].
  destruct (decode_field "ufvk_fingerprint" _ _ ms) as [fp|]; [|done]. cbn [mbind option_bind].
  destruct (decode_field "birthday_height" _ _ ms) as [b|] eqn:Eb; [|done]. cbn [mbind option_bind].
  destruct (decode_field "account" _ _ ms) as [a|] eqn:Ea; [|done]. cbn [mbind option_bind].
  destruct (decode_field "next_address_index" _ _ ms) as [n|] eqn:En; [|done]. cbn [mbind option_bind].
  destruct (decode_field "skipped_address_indices" _ _ ms) as [l|] eqn:Es; [|done]. cbn [mbind option_bind].
  intros [= <-]. split; cbn.
  - eapply decode_field_inv; [exact Hb| |exact Eb]. intros. by eapply into_int_typed; [apply ParseInt_range|..].
  - eapply decode_field_inv; [exact Ha| |exact Ea]. intros. by eapply into_int_typed; [apply uint32_parsed|..].
  - eapply decode_field_inv; [exact Hn| |exact En]. intros. eapply into_int_typed; [|done..].
    intros s v Hv%ParseUint_range. width. lia.
  - eapply (decode_field_inv (Forall uint32)); [exact Hs| |exact Es]. intros j' old l' Hi Ho.
    destruct j' as [| | | |js|]; cbn in Hi; try done; [by injection Hi as <-|].
    eapply into_elements_typed; [| |exact Ho|exact Hi]; [width; lia|].
    intros. by eapply into_int_typed; [apply uint32_parsed|..].
Qed.

Lemma into_wallets_typed j ws ws' : map_Forall (fun _ => wallet_typed) ws -> into_wallets j ws = Some ws' ->
  map_Forall (fun _ => wallet_typed) ws'.
Proof.
  intros Hws. destruct j as [| | | | |ms]; cbn [into_wallets]; try done; [intros [= <-]; apply map_Forall_empty|].
  revert ws Hws. induction ms as [|[k j] ms IH]; intros ws Hws; cbn [foldl fst snd mbind option_bind]; [by intros [= <-]|].
  destruct (into_wallet j no_wallet) as [w|] eqn:Hw; cbn [mbind option_bind].
  - apply IH. apply map_Forall_insert_2; [|done]. eapply into_wallet_typed; [|exact Hw].
    split; cbn; [width; lia..|constructor].
  - clear. intros H. exfalso. induction ms as [|m ms IH]; cbn [foldl mbind option_bind] in H; [done|]. by apply IH.
Qed.

Lemma decode_typed raw m : decode raw = Ok m -> map_Forall (fun _ => wallet_typed) (Wallets m).
Proof.
  unfold decode. destruct (next_value raw) as [[j rest]|]; [|done].
  destruct (into_manifest j no_manifest) as [m'|] eqn:Hm; [|done]. case_match; [|done]. intros [= <-].
  revert Hm. unfold into_manifest. destruct (fields_of _ _ j) as [ms|]; [|done]. cbn [mbind option_bind].
  destruct (decode_field "version" _ _ ms); [|done]. cbn [mbind option_bind].
  destruct (decode_field "installation_id" _ _ ms); [|done]. cbn [mbind option_bind].
  destruct (decode_field "network" _ _ ms); [|done]. cbn [mbind option_bind].
  destruct (decode_field "identity_sha256" _ _ ms); [|done]. cbn [mbind option_bind].
  destruct (decode_field "wallets" _ _ ms) as [ws|] eqn:Hw; [|done]. cbn [mbind option_bind].
  destruct (decode_field "created_at" _ _ ms); [|done]. cbn [mbind option_bind].
  destruct (decode_field "updated_at" _ _ ms); [|done]. cbn [mbind option_bind]. intros [= <-]. cbn.
  eapply (decode_field_inv (map_Forall (fun _ => wallet_typed))); [| |exact Hw].
  - apply map_Forall_empty.
  - intros j' a b Hj Ha. by eapply into_wallets_typed.
Qed.
