(* ===== verification/Ledgerfile.v ===== *)
(** [internal/installation/state.go] down to its system calls: the checks of the
    directory and of the lock, the strict reading of the manifest, its atomic
    replacement, and the operations of the ledger composed of them.  What an
    operation makes of a manifest is in [Installation.v]. *)
From S2P Require Import Prelude GoString GoTime Sha256 Installation Encoding Filesystem.

(** [fmt.Sprintf("%04o", perm)] *)
Definition octal4 (perm : Z) : string :=
  of_bytes (map (fun w => ascii_of_N (Z.to_N (48 + perm / w mod 8))) [512; 64; 8; 1]).

(** * The directory *)

Definition validateDirectory : io (result unit) :=
  r ← call lstat_dir;
  mret match r with
       | Err e => Err (Wrap "inspect installation state directory" e)
       | Ok None => Err (Wrap "inspect installation state directory" (Foreign "no such file or directory"))
       | Ok (Some (k, perm)) =>
           if negb (bool_decide (k = Directory))
           then Err (New "installation state directory must be a directory, not a symlink")
           else if negb (Z.land perm 18 =? 0) (* 0o022 *)
           then Err (New ("installation state directory permissions " +:+ octal4 perm +:+ " are group/world-writable"))
           else Ok tt
       end.

Definition prepareDirectory : io (result unit) :=
  r ← call lstat_dir;
  match r with
  | Err e => mret (Err (Wrap "inspect installation state directory" e))
  | Ok before =>
      let created := match before with None => true | Some _ => false end in
      _ ⇐ failing "create installation state directory" (mkdir_all 448);
      _ ⇐ (if created then failing "secure installation state directory" (chmod_dir 448) else mret (Ok tt));
      validateDirectory
  end.

(** * The manifest's file *)

(** [base]: the name of the manifest within its directory. *)
Definition Exists (base : string) : io (result bool) :=
  r ← call (lstat base);
  mret match r with
       | Err e => Err (Wrap "inspect installation manifest" e)
       | Ok None => Ok false
       | Ok (Some info) =>
           if negb (bool_decide (fi_kind info = Regular))
           then Err (New "installation manifest must be a regular file, not a symlink")
           else Ok true
       end.

Record State := { st_base : string; st_identity : Identity }.

Definition readAndVerify (s : State) : io (result Manifest) :=
  r ← call (lstat (st_base s));
  match r with
  | Err e => mret (Err (Wrap "inspect installation manifest" e))
  | Ok None => mret (Err missing_manifest)
  | Ok (Some info) =>
      if negb (bool_decide (fi_kind info = Regular))
      then mret (Err (New "installation manifest must be a regular file, not a symlink"))
      else if negb (Z.land (fi_perm info) 63 =? 0) (* 0o077 *)
      then mret (Err (New ("installation manifest permissions " +:+ octal4 (fi_perm info)
                           +:+ " are too broad; require 0600")))
      else
        f ⇐ failing "open installation manifest" (open_file (st_base s));
        r ← failing "decode installation manifest" (read f size_limit);
        _ ← call (close f);
        mret (raw ← r; manifest ← decode raw; _ ← verifyManifest manifest (st_identity s); Ok manifest)
  end.

(** Up to the rename; [Ok] clears [remove]. *)
Definition replace (base tmp : string) (f : nat) (raw : bytes) : io (result unit) :=
  _ ⇐ failing "secure installation manifest temporary file" (fchmod f 384);
  _ ⇐ failing "write installation manifest" (write f raw);
  _ ⇐ failing "sync installation manifest" (fsync f);
  _ ⇐ failing "close installation manifest" (close f);
  failing "replace installation manifest" (rename tmp base).

(** After it.  The deferred [dirHandle.Close] changes nothing. *)
Definition syncDirectory : io (result unit) :=
  _ ⇐ failing "open installation state directory for sync" open_dir;
  failing "sync installation state directory" sync_dir.

Definition temp_prefix : string := ".manifest-".

Definition writeAtomic (base : string) (manifest : Manifest) : io (result unit) :=
  match encode manifest with
  | Err e => mret (Err e)
  | Ok raw =>
      tmp ⇐ failing "create installation manifest temporary file" (create_temp temp_prefix);
      r ← replace base tmp.1 tmp.2 raw;
      match r with
      | Err e => _ ← call (close tmp.2); _ ← call (remove tmp.1); mret (Err e)
      | Ok _ => r ← syncDirectory; _ ← call (close tmp.2); mret r
      end
  end.

(** * The lock *)

(** What [withLock] does once the lock file is open, before the deferred
    [lock.Close]. *)
Definition locked {A} (exclusive : bool) (lock : nat) (before : option FileInfo) (fn : io (result A)) : io (result A) :=
  opened ⇐ failing "inspect opened installation lock" (fstat lock);
  if negb (bool_decide (fi_kind opened = Regular))
     || match before with Some b => negb (Nat.eqb (fi_inode b) (fi_inode opened)) | None => false end
  then mret (Err (New "installation lock changed while opening or is not a regular file"))
  else
    _ ⇐ failing "secure installation lock" (fchmod lock 384);
    _ ⇐ failing "lock installation state" (flock lock exclusive);
    r ← fn;
    _ ← call (funlock lock);
    mret r.

Definition lock_name (base : string) : string := base +:+ ".lock".

Definition withLock {A} (base : string) (exclusive : bool) (fn : io (result A)) : io (result A) :=
  _ ⇐ validateDirectory;
  before ← call (lstat (lock_name base));
  match before with
  | Err e => mret (Err (Wrap "inspect installation lock" e))
  | Ok before =>
      if match before with Some b => negb (bool_decide (fi_kind b = Regular)) | None => false end
      then mret (Err (New "installation lock must be a regular file, not a symlink"))
      else
        lock ⇐ failing "open installation lock" (open_create (lock_name base) 384);
        r ← locked exclusive lock before fn;
        _ ← call (close lock);
        mret r
  end.

(** * Operations *)

(** [newState]: the last element of the cleaned path names the file. *)
Definition newState (path : string) (identity : Identity) : result State :=
  identity ← Installation.newState path identity;
  Ok {| st_base := default "" (head (clean_path [] (Split (TrimSpace path) "/"))); st_identity := identity |}.

Definition random_id (random : result string) : io (result string) := mret (randomID random).

Definition Create (path : string) (identity : Identity) (random : result string) (now : time)
    : io (result (State * Manifest)) :=
  match newState path identity with
  | Err e => mret (Err e)
  | Ok s =>
      _ ⇐ prepareDirectory;
      created ⇐ withLock (st_base s) true (
        r ← call (lstat (st_base s));
        match r with
        | Ok (Some _) => mret (Err (New "installation manifest already exists; init is one-time only"))
        | Err e => mret (Err (Wrap "inspect installation manifest" e))
        | Ok None =>
            id ⇐ random_id random;
            _ ⇐ writeAtomic (st_base s) (create_manifest identity id now);
            mret (Ok (create_manifest identity id now))
        end);
      mret (Ok (s, created))
  end.

Definition Manifest_of (s : State) : io (result Manifest) := withLock (st_base s) false (readAndVerify s).

Definition Open (path : string) (identity : Identity) : io (result (State * Manifest)) :=
  match newState path identity with
  | Err e => mret (Err e)
  | Ok s =>
      there ⇐ Exists (st_base s);
      if negb there then mret (Err missing_manifest)
      else manifest ⇐ withLock (st_base s) false (readAndVerify s); mret (Ok (s, manifest))
  end.

(** The operations that read the manifest, change it and replace it; [None]: there
    is nothing to write. *)
Definition update {A} (s : State) (change : Manifest -> result (A * option Manifest)) : io (result A) :=
  withLock (st_base s) true (
    m ⇐ readAndVerify s;
    match change m with
    | Err e => mret (Err e)
    | Ok (a, None) => mret (Ok a)
    | Ok (a, Some m') => _ ⇐ writeAtomic (st_base s) m'; mret (Ok a)
    end).

Definition written {A} (r : result (A * Manifest)) : result (A * option Manifest) :=
  '(a, m') ← r; Ok (a, Some m').

Definition ReserveAddressIndex (s : State) (walletID : string) (now : time) : io (result Z) :=
  update s (fun m => written (reserve_change walletID now m)).

Definition MarkAddressIndexSkipped (s : State) (walletID : string) (index : Z) (now : time) : io (result unit) :=
  update s (fun m => m' ← skip_change walletID index now m; Ok (tt, m')).

Definition ClearSkippedAddressIndices (s : State) (now : time) : io (result Manifest) :=
  update s (fun m => written (clear_change now m)).

Definition RaiseHighWater (s : State) (targets : list (string * Z)) (now : time) : io (result Manifest) :=
  update s (fun m => written (raise_change targets now m)).

(** * A run *)

Definition empty_disk : disk :=
  {| dk_dir := Some (Directory, 448); dk_kept := true; dk_names := ∅; dk_past := []; dk_inodes := ∅; dk_locks := [] |}.

Definition run_alone {A} (p : io A) (d : disk) : option (A * disk) := exec 0 p (fun _ => good) 0 d.

Definition demo_base : string := "installation.json".
Definition demo_path : string := "/var/lib/gateway/installation.json".
Definition demo_state : State := {| st_base := demo_base; st_identity := canonicalIdentity demo_expected |}.

Definition demo_created : option (result (State * Manifest) * disk) :=
  run_alone (Create demo_path demo_expected (Ok (of_bytes (repeat "a"%char 32))) 1000) empty_disk.

Definition demo_reserved : option (result Z * disk) :=
  '(_, d) ← demo_created;
  '(_, d) ← run_alone (ReserveAddressIndex demo_state "hot" 1001) d;
  run_alone (ReserveAddressIndex demo_state "hot" 1002) d.

(** A first start and two reservations leave the manifest and the lock file, both
    private, and nothing that waits to be written. *)
Example demo_run :
  (p ← demo_reserved; Some (p.1, fst <$> map_to_list (dk_names p.2), dk_past p.2, dk_locks p.2))
  = Some (Ok 1, ["installation.json.lock"; "installation.json"]%string, [], []).
Proof. vm_compute. reflexivity. Qed.

Example demo_initialised_once :
  (p ← demo_created;
   fst <$> run_alone (Create demo_path demo_expected (Ok (of_bytes (repeat "a"%char 32))) 1000) p.2)
  = Some (Err (New "installation manifest already exists; init is one-time only")).
Proof. vm_compute. reflexivity. Qed.

(** The synchronisation of the directory fails: the reservation is refused, and its
    index is not given again. *)
Example demo_unsynced :
  ('(_, d) ← demo_created;
   '(r, d) ← exec 0 (ReserveAddressIndex demo_state "hot" 1001)
       (fun n => if Nat.eqb n 16 then {| fault := Some "io"; random_name := "2"; wrote := 0; umask := 0 |} else good) 0 d;
   r' ← fst <$> run_alone (ReserveAddressIndex demo_state "hot" 1002) d; Some (is_ok r, r'))
  = Some (false, Ok 1).
Proof. vm_compute. reflexivity. Qed.
