(* ===== verification/Ledgerlogic.v ===== *)
(** Reasoning about the processes that share a ledger directory.

    [Inv] is what holds of the disk between any two calls, wherever the machine may
    crash: every version of the directory that a crash may bring back leads to a
    manifest that is on the disk and covers the indices issued so far.  [Rely] is
    what the calls of other processes leave alone, [safe] says that a program's
    calls keep [Inv] and leave alone what others rely on.  The tokens, which only the
    proofs see, record the index a process was issued. *)
From S2P Require Import Prelude GoString GoTime Json Installation Encoding Filesystem Ledgerfile.

Notation tokens := (gmap nat (string * Z)).

(** * The manifest covers the indices issued *)

Definition below (m : Manifest) (x : string * Z) : Prop :=
  exists s, Wallets m !! x.1 = Some s /\ x.2 < NextAddressIndex s.

(** Whatever is read of these bytes has its marks above the indices. *)
Definition covers (g : tokens) (raw : bytes) : Prop :=
  forall m p x, decode (limited raw) = Ok m -> g !! p = Some x -> below m x.

Section logic.
Context (base : string).
Notation lock := (lock_name base).

(** What the manifest's name may lead to, now or after a crash. *)
Definition bases (d : disk) (x : option nat) : Prop := exists v, v ∈ dk_names d :: dk_past d /\ v !! base = x.

Definition version_ok (g : tokens) (d : disk) (x : option nat) : Prop :=
  match x with
  | None => g = ∅
  | Some i => exists f, dk_inodes d !! i = Some f /\ in_synced f = true /\ covers g (in_data f)
  end.

Record Inv (d : disk) (g : tokens) : Prop := {
  inv_dir : dk_dir d <> None;
  inv_kept : dk_kept d = true;
  inv_versions : forall x, bases d x -> version_ok g d x;
  inv_once : forall p q x, g !! p = Some x -> g !! q = Some x -> p = q;
  inv_lock : forall p i b, (p, i, b) ∈ dk_locks d -> dk_names d !! lock = Some i;
  inv_alone : forall p q i j b, (p, i, true) ∈ dk_locks d -> (q, j, b) ∈ dk_locks d -> q = p;
  inv_same : forall v i, v ∈ dk_past d -> v !! lock = Some i -> dk_names d !! lock = Some i;
  inv_apart : forall i, dk_names d !! lock = Some i -> ~ bases d (Some i);
  inv_files : forall v n i, v ∈ dk_names d :: dk_past d -> v !! n = Some i -> is_Some (dk_inodes d !! i)
}.

Definition world : Type := disk * tokens.

(** What the others leave alone of [me]'s view: its own files and their names, the
    lock, and the manifest while [me] holds the lock alone. *)
Record Rely (me : nat) (s s' : world) : Prop := {
  rely_mine : forall i f, dk_inodes s.1 !! i = Some f -> in_maker f = me -> dk_names s.1 !! lock <> Some i ->
    dk_inodes s'.1 !! i = Some f;
  rely_names : forall n i f, n <> base -> dk_names s.1 !! n = Some i -> dk_inodes s.1 !! i = Some f -> in_maker f = me ->
    dk_names s'.1 !! n = Some i;
  rely_lock : forall i, dk_names s.1 !! lock = Some i -> dk_names s'.1 !! lock = Some i;
  rely_held : forall i b, (me, i, b) ∈ dk_locks s.1 -> (me, i, b) ∈ dk_locks s'.1;
  rely_alone : forall i, (me, i, true) ∈ dk_locks s.1 ->
    dk_names s'.1 !! base = dk_names s.1 !! base /\ (forall x, bases s'.1 x -> bases s.1 x) /\ s'.2 = s.2;
  rely_data : forall i, bases s.1 (Some i) -> dk_inodes s'.1 !! i = dk_inodes s.1 !! i;
  rely_new : forall i f, dk_inodes s.1 !! i = Some f -> in_maker f = me -> ~ bases s.1 (Some i) -> ~ bases s'.1 (Some i);
  rely_token : s'.2 !! me = s.2 !! me
}.

Definition Guar (me : nat) (s s' : world) : Prop := forall q, q <> me -> Rely q s s'.

Lemma rely_refl me s : Rely me s s.
Proof. by split. Qed.

Lemma guar_refl me s : Guar me s s.
Proof. intros q _. apply rely_refl. Qed.

(** * Programs *)

Definition stable (me : nat) (P : world -> Prop) : Prop := forall s s', Rely me s s' -> P s -> P s'.

Fixpoint safe {A} (me : nat) (Q : A -> world -> Prop) (p : io A) (P : world -> Prop) : Prop :=
  stable me P /\
  match p with
  | Ret a => forall s, P s -> Q a s
  | @Sys _ X f k => exists P' : X -> world -> Prop,
      (forall l d g x d', Inv d g -> P (d, g) -> f me l d = Some (x, d') ->
         exists g', Inv d' g' /\ Guar me (d, g) (d', g') /\ P' x (d', g')) /\
      forall x, safe me Q (k x) (P' x)
  end.

Lemma safe_keeps {A} me (Q : A -> world -> Prop) p P : safe me Q p P -> stable me P.
Proof. by destruct p; intros []. Qed.

Lemma safe_mono {A} me (Q Q' : A -> world -> Prop) p (P P' : world -> Prop) :
  safe me Q p P -> stable me P' -> (forall s, P' s -> P s) -> (forall a s, Q a s -> Q' a s) -> safe me Q' p P'.
Proof.
  intros Hs HP' HP HQ. revert P P' HP' HP Hs.
  induction p as [a|X f k IH]; intros P P' HP' HP [_ Hs]; (split; [done|]); cbn in *; [by auto|].
  destruct Hs as (R & Hf & Hk). exists R. split; [by eauto|].
  intros x. eapply IH; [|done|apply Hk]. by eapply safe_keeps.
Qed.

Lemma safe_bind {A B} me (Q : A -> world -> Prop) (Q' : B -> world -> Prop) p (k : A -> io B) P :
  safe me Q p P -> (forall a, safe me Q' (k a) (Q a)) -> safe me Q' (p ≫= k) P.
Proof.
  intros Hp Hk. revert P Hp. induction p as [a|X f h IH]; intros P [HP Hs]; cbn in *.
  - by eapply safe_mono; [apply Hk|done..].
  - split; [done|]. destruct Hs as (R & Hf & Hh). exists R. split; [done|]. intros x. by apply IH.
Qed.

Lemma safe_ret {A} me (a : A) (Q : A -> world -> Prop) (P : world -> Prop) :
  stable me P -> (forall s, P s -> Q a s) -> safe me Q (Ret a) P.
Proof. by split. Qed.

(** A program is safe from every world from which it is safe in some way. *)
Lemma safe_union {A} me (Q : A -> world -> Prop) p : safe me Q p (fun s => exists P, safe me Q p P /\ P s).
Proof.
  induction p as [a|X f k IH]; split.
  1, 3: intros s s' Hr (P & Hs & Hp); exists P; (split; [done|]); by eapply safe_keeps.
  - intros s (P & [_ Hs] & Hp). by apply Hs.
  - exists (fun x s => exists P, safe me Q (k x) P /\ P s). split; [|done].
    intros l d g x d' Hi (P & [_ (P' & Hf & Hk)] & Hp) H.
    destruct (Hf l d g x d' Hi Hp H) as (g' & ? & ? & ?). exists g'. split_and!; [done|done|]. by exists (P' x).
Qed.

Lemma safe_pure {A} me (Q : A -> world -> Prop) p P (phi : Prop) :
  stable me P -> (phi -> safe me Q p P) -> safe me Q p (fun s => P s /\ phi).
Proof.
  intros HP Hs. eapply safe_mono; [apply safe_union| |intros s [Hp H]; exists P; by split; [apply Hs|]|done].
  intros s s' Hr [Hp H]. by split; [eapply HP|].
Qed.

(** A call; what it leaves must be stable. *)
Lemma safe_call {X} me (f : sys X) (P : world -> Prop) (Q : X -> world -> Prop) :
  stable me P -> (forall x, stable me (Q x)) ->
  (forall l d g x d', Inv d g -> P (d, g) -> f me l d = Some (x, d') ->
     exists g', Inv d' g' /\ Guar me (d, g) (d', g') /\ Q x (d', g')) ->
  safe me Q (call f) P.
Proof. intros HP HQ Hf. split; [done|]. exists Q. split; [done|]. intros x. by split. Qed.

(** A call that only looks. *)
Lemma safe_look {X} me (f : sys X) (P : world -> Prop) (Q : X -> world -> Prop) :
  stable me P -> (forall x, stable me (Q x)) ->
  (forall l d g x d', Inv d g -> P (d, g) -> f me l d = Some (x, d') -> d' = d /\ Q x (d, g)) ->
  safe me Q (call f) P.
Proof.
  intros HP HQ Hf. apply safe_call; [done..|]. intros l d g x d' Hi Hp H.
  destruct (Hf l d g x d' Hi Hp H) as [-> Hq]. exists g. split_and!; [done|apply guar_refl|done].
Qed.

(** A call whose reply may be an error: then nothing is known but [E]. *)
Definition ends {A} (E : world -> Prop) (Q : A -> world -> Prop) (r : result A) : world -> Prop :=
  match r with Ok a => Q a | Err _ => E end.

Lemma safe_and_then {A B} me (Q : A -> world -> Prop) (E : world -> Prop) (Q' : result B -> world -> Prop)
    (p : io (result A)) (k : A -> io (result B)) P :
  safe me (ends E Q) p P -> stable me E -> (forall e s, E s -> Q' (Err e) s) ->
  (forall a, safe me Q' (k a) (Q a)) -> safe me Q' (and_then p k) P.
Proof.
  intros Hp HE Herr Hk. unfold and_then. eapply safe_bind; [exact Hp|].
  intros [a|e]; cbn; [apply Hk|]. apply safe_ret; [done|]. apply Herr.
Qed.

Lemma safe_failing {A} me msg (f : sys (result A)) (E : world -> Prop) (Q : A -> world -> Prop) P :
  safe me (ends E Q) (call f) P -> (forall r, stable me (ends E Q r)) -> safe me (ends E Q) (failing msg f) P.
Proof.
  intros Hf Hs. unfold failing. eapply safe_bind; [exact Hf|]. intros r. apply safe_ret; [done|].
  by destruct r.
Qed.

(** ** Stable assertions *)

Lemma stable_both me (P Q : world -> Prop) : stable me P -> stable me Q -> stable me (fun s => P s /\ Q s).
Proof. intros HP HQ s s' Hr [? ?]. split; [by eapply HP|by eapply HQ]. Qed.

Lemma stable_const me (P : Prop) : stable me (fun _ => P).
Proof. by intros s s' _. Qed.

Lemma stable_imp me (phi : Prop) (P : world -> Prop) : stable me P -> stable me (fun s => phi -> P s).
Proof. intros HP s s' Hr Hs H. by eapply HP, Hs. Qed.

Lemma stable_token me (P : option (string * Z) -> Prop) : stable me (fun s => P (s.2 !! me)).
Proof. intros s s' Hr. by rewrite (rely_token _ _ _ Hr). Qed.

Definition At (L : nat) (s : world) : Prop := dk_names s.1 !! lock = Some L.

Lemma stable_at me L : stable me (At L).
Proof. intros s s' Hr. apply (rely_lock _ _ _ Hr). Qed.

(** [me] holds the lock alone. *)
Definition Held (me L : nat) (s : world) : Prop := (me, L, true) ∈ dk_locks s.1.

Lemma stable_held me L : stable me (Held me L).
Proof. intros s s' Hr. apply (rely_held _ _ _ Hr). Qed.

(** ... and the manifest's name leads to such a file. *)
Definition Current (me L : nat) (R : inode -> Prop) (s : world) : Prop :=
  Held me L s /\ exists i f, dk_names s.1 !! base = Some i /\ dk_inodes s.1 !! i = Some f /\ R f.

Lemma bases_now d x : dk_names d !! base = x -> bases d x.
Proof. intros H. exists (dk_names d). split; [left|done]. Qed.

Lemma stable_current me L R : stable me (Current me L R).
Proof.
  intros s s' Hr [Hh (i & f & Hb & Hf & Hd)]. split; [by eapply stable_held|].
  destruct (rely_alone _ _ _ Hr _ Hh) as (Hb' & _ & _). exists i, f.
  rewrite Hb', (rely_data _ _ _ Hr) by (by apply bases_now). done.
Qed.

(** ... and there is no such file. *)
Definition Absent (me L : nat) (s : world) : Prop := Held me L s /\ dk_names s.1 !! base = None.

Lemma stable_absent me L : stable me (Absent me L).
Proof.
  intros s s' Hr [Hh Hb]. split; [by eapply stable_held|]. by destruct (rely_alone _ _ _ Hr _ Hh) as (-> & _).
Qed.

(** [me] may write these bytes, and be issued [x] when they are on the disk. *)
Definition with_token (me : nat) (x : option (string * Z)) (g : tokens) : tokens :=
  match x with Some y => <[me := y]> g | None => g end.

Definition Ready (me L : nat) (raw : bytes) (x : option (string * Z)) (s : world) : Prop :=
  Held me L s /\ s.2 !! me = None /\ covers (with_token me x s.2) raw /\
  forall y q, x = Some y -> s.2 !! q <> Some y.

Lemma stable_ready me L raw x : stable me (Ready me L raw x).
Proof.
  intros s s' Hr (Hh & Ht & Hc & Hx). destruct (rely_alone _ _ _ Hr _ Hh) as (_ & _ & Hg).
  unfold Ready. rewrite Hg. split_and!; [by eapply stable_held|done..].
Qed.

(** A temporary file of [me]'s. *)
Definition Temp (me L : nat) (name : string) (i : nat) (R : inode -> Prop) (s : world) : Prop :=
  At L s /\ i <> L /\ name <> base /\ dk_names s.1 !! name = Some i /\ ~ bases s.1 (Some i) /\
  exists f, dk_inodes s.1 !! i = Some f /\ in_maker f = me /\ R f.

Lemma stable_temp me L name i R : stable me (Temp me L name i R).
Proof.
  intros s s' Hr (Hl & Hne & Hn & Hname & Hb & f & Hf & Hm & HR). unfold Temp.
  split_and!; [by eapply stable_at|done|done|by eapply rely_names|by eapply rely_new|].
  exists f. split_and!; [|done..]. eapply rely_mine; [done..|]. unfold At in Hl. congruence.
Qed.

(** ** The calls *)

Lemma lock_name_ne : lock <> base.
Proof.
  intros H. apply (f_equal (fun s => length (to_bytes s))) in H. unfold lock_name in H.
  rewrite to_bytes_app, length_app in H. cbn in H. lia.
Qed.

(** A call that leaves alone what any process relies on, its own included. *)
Lemma safe_quiet {X} me (f : sys X) (P : world -> Prop) (Q : X -> world -> Prop) :
  stable me P -> (forall x, stable me (Q x)) ->
  (forall l d g x d', Inv d g -> P (d, g) -> f me l d = Some (x, d') ->
     Inv d' g /\ (forall q, Rely q (d, g) (d', g)) /\ Q x (d', g)) ->
  safe me (fun x s => P s /\ Q x s) (call f) P.
Proof.
  intros HP HQ Hf. apply safe_call; [done|by intros x; apply stable_both|]. intros l d g x d' Hi Hp H.
  destruct (Hf l d g x d' Hi Hp H) as (Hi' & Hr & Hq). exists g. split_and!; [done|by intros q _|by eapply HP|done].
Qed.

Lemma bases_set_inode i f d x : bases (set_inode i f d) x <-> bases d x.
Proof. done. Qed.

Lemma inv_set_inode d g i f : Inv d g -> ~ bases d (Some i) -> Inv (set_inode i f d) g.
Proof.
  intros [] Hb. split; cbn; try done.
  - intros [j|] Hj; [|by apply (inv_versions0 None)]. destruct (inv_versions0 _ Hj) as (h & Hh & ?).
    exists h. cbn. rewrite lookup_insert_ne; [done|]. by intros ->.
  - intros v n j Hv Hn. destruct (decide (i = j)) as [->|].
    + by rewrite lookup_insert_eq.
    + rewrite lookup_insert_ne by done. by eapply inv_files0.
Qed.

Lemma rely_set_inode q d g i f f' :
  dk_inodes d !! i = Some f -> in_maker f' = in_maker f -> ~ bases d (Some i) ->
  (in_maker f = q -> dk_names d !! lock = Some i) -> Rely q (d, g) (set_inode i f' d, g).
Proof.
  intros Hf Hm Hb Hq. split; cbn; try done.
  - intros j h Hj Hh Hl. rewrite lookup_insert_ne; [done|]. intros ->. rewrite Hf in Hj. injection Hj as <-. auto.
  - intros j Hj. rewrite lookup_insert_ne; [done|]. by intros ->.
Qed.

Lemma new_inode_fresh d : dk_inodes d !! new_inode d = None.
Proof. apply not_elem_of_dom. exact (is_fresh (dom (dk_inodes d))). Qed.

Lemma new_inode_apart d g v n : Inv d g -> v ∈ dk_names d :: dk_past d -> v !! n <> Some (new_inode d).
Proof.
  intros Hi Hv Hn. destruct (inv_files _ _ Hi v n _ Hv Hn) as [f Hf]. rewrite new_inode_fresh in Hf. done.
Qed.

Lemma bases_make name perm me d x : name <> base -> bases (make name perm me d).2 x <-> bases d x.
Proof.
  intros Hn. unfold bases, make. cbn. split.
  - intros (v & [-> | Hv]%elem_of_cons & Hx); [|by exists v].
    exists (dk_names d). split; [left|]. by rewrite lookup_insert_ne in Hx.
  - intros (v & Hv & Hx). exists v. split; [by right|done].
Qed.

Lemma inv_make name perm me d g : Inv d g -> name <> base -> dk_names d !! name = None -> Inv (make name perm me d).2 g.
Proof.
  intros Hi Hn Hnone. pose proof (new_inode_fresh d) as Hfresh. pose proof (new_inode_apart d g) as Hapart.
  pose proof Hi as []. split; cbn [make snd set_names set_inode dk_dir dk_kept dk_names dk_past dk_inodes dk_locks]; try done.
  - intros x Hx%bases_make; [|done]. specialize (inv_versions0 x Hx). destruct x as [i|]; [|done].
    destruct inv_versions0 as (f & Hf & ?). exists f. cbn. rewrite lookup_insert_ne by congruence. done.
  - intros p i b Hl%inv_lock0. rewrite lookup_insert_ne; [done|]. congruence.
  - intros v i [-> | Hv]%elem_of_cons Hl.
    + rewrite lookup_insert_ne; [done|]. congruence.
    + apply (inv_same0 v i Hv) in Hl. rewrite lookup_insert_ne; [done|]. congruence.
  - intros i Hl Hb%bases_make; [|done]. destruct (decide (name = lock)) as [->|].
    + rewrite lookup_insert_eq in Hl. injection Hl as <-. destruct Hb as (v & Hv & Hb). by apply (Hapart v base Hi Hv).
    + rewrite lookup_insert_ne in Hl by done. by apply (inv_apart0 i).
  - intros v n i [-> | Hv]%elem_of_cons Hl.
    + destruct (decide (name = n)) as [->|].
      * rewrite lookup_insert_eq in Hl. injection Hl as <-. by rewrite lookup_insert_eq.
      * rewrite lookup_insert_ne in Hl by done. destruct (inv_files0 _ n i (list_elem_of_here _ _) Hl) as [f Hf].
        exists f. rewrite lookup_insert_ne by congruence. done.
    + destruct (inv_files0 v n i Hv Hl) as [f Hf]. exists f. rewrite lookup_insert_ne by congruence. done.
Qed.

Lemma rely_make q name perm me d g : Inv d g -> name <> base -> dk_names d !! name = None ->
  Rely q (d, g) ((make name perm me d).2, g).
Proof.
  intros Hi Hn Hnone. pose proof (new_inode_fresh d) as Hfresh.
  split; cbn [fst snd]; try (cbn; done).
  - intros i f Hf _ _. cbn. rewrite lookup_insert_ne by congruence. done.
  - intros n i f _ Hl _ _. cbn. rewrite lookup_insert_ne by congruence. done.
  - intros i Hl. cbn. rewrite lookup_insert_ne by congruence. done.
  - intros i _. cbn. rewrite lookup_insert_ne by done. split_and!; [done| |done].
    intros x Hx. by apply (bases_make name perm me d x Hn).
  - intros i (v & Hv & Hb). cbn. rewrite lookup_insert_ne; [done|]. intros <-.
    by apply (new_inode_apart d g v base Hi Hv).
  - intros i f _ _ Hb Hb'. apply Hb. by apply (bases_make name perm me d _ Hn).
Qed.

Lemma bases_locks l d x : bases (set_locks l d) x <-> bases d x.
Proof. done. Qed.

Lemma inv_set_locks l d g : Inv d g ->
  (forall p i b, (p, i, b) ∈ l -> dk_names d !! lock = Some i) ->
  (forall p q i j b, (p, i, true) ∈ l -> (q, j, b) ∈ l -> q = p) -> Inv (set_locks l d) g.
Proof. by intros [] Hl Ha; split. Qed.

(** The lock is taken: alone, or shared with others that share it. *)
Lemma inv_flock me i exclusive d g : Inv d g -> dk_names d !! lock = Some i -> conflicts me i exclusive d = false ->
  Inv (set_locks ((me, i, exclusive) :: dk_locks d) d) g.
Proof.
  intros Hi Hl Hc. unfold conflicts in Hc.
  assert (Hno : forall q j e, (q, j, e) ∈ dk_locks d -> q = me \/ e = false /\ exclusive = false).
  { intros q j e Hin. pose proof (inv_lock _ _ Hi _ _ _ Hin) as Hj. rewrite Hl in Hj. injection Hj as <-.
    destruct (decide (q = me)); [by left|right]. apply not_true_iff_false in Hc. rewrite existsb_exists in Hc.
    destruct e, exclusive; try done; exfalso; apply Hc; (eexists; split; [apply list_elem_of_In, Hin|]);
      cbn; rewrite Nat.eqb_refl; by apply Nat.eqb_neq in n as ->. }
  apply inv_set_locks; [done|..].
  - intros p j b [[= -> -> ->]|Hin]%elem_of_cons; [done|by eapply inv_lock].
  - intros p q j j' b [[= -> -> <-]|Hp]%elem_of_cons [[= -> -> ->]|Hq]%elem_of_cons; [done|..].
    + destruct (Hno _ _ _ Hq) as [|[_ ?]]; done.
    + by destruct (Hno _ _ _ Hp) as [|[? _]].
    + by eapply inv_alone.
Qed.

Lemma rely_flock q me i exclusive d g : Rely q (d, g) (set_locks ((me, i, exclusive) :: dk_locks d) d, g).
Proof. split; cbn; try done. intros j b Hh. by right. Qed.

Lemma elem_of_release q j b me i d : (q, j, b) ∈ dk_locks (release me i d) <-> (q, j, b) ∈ dk_locks d /\ ~ (q = me /\ j = i).
Proof.
  unfold release. cbn. rewrite !list_elem_of_In, filter_In, negb_true_iff, andb_false_iff, !Nat.eqb_neq.
  split; intros [? H]; (split; [done|]); [tauto|]. destruct (decide (q = me)); [right|by left]. tauto.
Qed.

Lemma inv_release me i d g : Inv d g -> Inv (release me i d) g.
Proof.
  intros Hi. apply inv_set_locks; [done|..].
  - intros p j b [Hin _]%elem_of_release. by eapply inv_lock.
  - intros p q j j' b [Hp _]%elem_of_release [Hq _]%elem_of_release. by eapply inv_alone.
Qed.

Lemma guar_release me i d g : Guar me (d, g) (release me i d, g).
Proof. intros q Hq. split; cbn; try done. intros j b Hh. apply elem_of_release. split; [done|]. by intros [-> _]. Qed.

(** Names change: [names] leads the manifest's name to a file of [me]'s or to what it
    led to, and takes no name away but [me]'s own.  *)
Lemma inv_set_names names d g : Inv d g ->
  (forall i, names !! base = Some i -> version_ok g d (Some i)) -> (names !! base = None -> g = ∅) ->
  (forall i, names !! lock = Some i <-> dk_names d !! lock = Some i) ->
  (forall i, names !! lock = Some i -> names !! base <> Some i) ->
  (forall n i, names !! n = Some i -> is_Some (dk_inodes d !! i)) -> Inv (set_names names d) g.
Proof.
  intros Hi Hbase Hnone Hlock Hne Hfiles.
  assert (Hb : forall x, bases (set_names names d) x -> names !! base = x \/ bases d x).
  { intros x (v & [-> | Hv]%elem_of_cons & Hx); [by left|right; by exists v]. }
  pose proof Hi as []. split; cbn [set_names dk_dir dk_kept dk_names dk_past dk_inodes dk_locks]; try done.
  - intros x [<- | Hx]%Hb; [|by apply inv_versions0]. destruct (names !! base) eqn:Hn; [by apply Hbase|by apply Hnone].
  - intros p i b Hl%inv_lock0. by apply Hlock.
  - intros v i [-> | Hv]%elem_of_cons Hl; apply Hlock; [done|by eapply inv_same0].
  - intros i Hl [Hx | Hx]%Hb; [by eapply Hne|]. apply Hlock in Hl. by eapply inv_apart0.
  - intros v n i [-> | Hv]%elem_of_cons Hl; [by eapply Hfiles|by eapply inv_files0].
Qed.

Lemma inv_rename me L tmp i d g : Inv d g -> Temp me L tmp i (fun f => in_synced f = true /\ covers g (in_data f)) (d, g) ->
  Inv (set_names (<[base := i]> (delete tmp (dk_names d))) d) g.
Proof.
  intros Hi (HL & Hne & Hn & Ht & Hb & f & Hf & Hm & Hs & Hc). cbn in *. unfold At in HL. cbn in HL.
  pose proof lock_name_ne as Hlb.
  apply inv_set_names; [done|..].
  - intros j. rewrite lookup_insert_eq. intros [= <-]. by exists f.
  - by rewrite lookup_insert_eq.
  - intros j. rewrite lookup_insert_ne by done. rewrite lookup_delete_ne; [done|]. intros ->. congruence.
  - intros j. rewrite lookup_insert_ne by done. rewrite lookup_delete_ne by (intros ->; congruence).
    rewrite lookup_insert_eq. congruence.
  - intros n j. destruct (decide (base = n)) as [<-|].
    + rewrite lookup_insert_eq. intros [= <-]. by exists f.
    + rewrite lookup_insert_ne by done. rewrite lookup_delete_Some. intros [_ Hj].
      by eapply (inv_files _ _ Hi (dk_names d)); [left|].
Qed.

Lemma guar_rename me L tmp i R d g : Inv d g -> Held me L (d, g) -> Temp me L tmp i R (d, g) ->
  Guar me (d, g) (set_names (<[base := i]> (delete tmp (dk_names d))) d, g).
Proof.
  intros Hi Hh (HL & Hne & Hn & Ht & Hb & f & Hf & Hm & _) q Hq. cbn in *. unfold At in HL. cbn in HL.
  pose proof lock_name_ne as Hlb. split; cbn; try done.
  - intros n j h Hnb Hj Hh' Hmq. rewrite lookup_insert_ne by done. rewrite lookup_delete_ne; [done|]. intros <-. congruence.
  - intros j Hj. rewrite lookup_insert_ne by done. rewrite lookup_delete_ne; [done|]. intros ->. congruence.
  - intros j Hj. exfalso. apply Hq. symmetry. by eapply (inv_alone _ _ Hi).
  - intros j h Hj Hmq Hnb (v & [-> | Hv]%elem_of_cons & Hx).
    + cbn in Hx. rewrite lookup_insert_eq in Hx. congruence.
    + apply Hnb. by exists v.
Qed.

Lemma bases_remove tmp d x : tmp <> base -> bases (set_names (delete tmp (dk_names d)) d) x <-> bases d x.
Proof.
  intros Hn. split.
  - intros (v & [-> | Hv]%elem_of_cons & Hx); [|by exists v].
    apply bases_now. cbn in Hx. by rewrite lookup_delete_ne in Hx.
  - intros (v & Hv & Hx). exists v. split; [by right|done].
Qed.

Lemma inv_remove me L tmp i R d g : Inv d g -> Temp me L tmp i R (d, g) ->
  Inv (set_names (delete tmp (dk_names d)) d) g.
Proof.
  intros Hi (HL & Hne & Hn & Ht & Hb & _). cbn in *. unfold At in HL. cbn in HL.
  apply inv_set_names; [done|..].
  - intros j. rewrite lookup_delete_ne by done. intros Hj. by apply (inv_versions _ _ Hi), bases_now.
  - rewrite lookup_delete_ne by done. intros Hj. apply (inv_versions _ _ Hi None). by apply bases_now.
  - intros j. rewrite lookup_delete_ne; [done|]. intros ->. congruence.
  - intros j. rewrite !lookup_delete_ne by (done || (intros ->; congruence)). intros Hl Hj.
    by eapply (inv_apart _ _ Hi), bases_now.
  - intros n j. rewrite lookup_delete_Some. intros [_ Hj]. by eapply (inv_files _ _ Hi (dk_names d)); [left|].
Qed.

Lemma guar_remove me L tmp i R d g : Temp me L tmp i R (d, g) -> Guar me (d, g) (set_names (delete tmp (dk_names d)) d, g).
Proof.
  intros (HL & Hne & Hn & Ht & Hb & f & Hf & Hm & _) q Hq. cbn in *. unfold At in HL. cbn in HL. split; cbn; try done.
  - intros n j h Hnb Hj Hh' Hmq. rewrite lookup_delete_ne; [done|]. intros <-. congruence.
  - intros j Hj. rewrite lookup_delete_ne; [done|]. intros ->. congruence.
  - intros j _. rewrite lookup_delete_ne by done. split_and!; [done| |done]. intros x. by apply bases_remove.
  - intros j h _ _ Hnb Hx. apply Hnb. by apply (bases_remove tmp d).
Qed.

(** The directory is on the disk, and [me] is issued its index. *)
Lemma bases_settle d x : bases (settle d) x <-> dk_names d !! base = x.
Proof.
  split; [|by exists (dk_names d); split; [left|]]. intros (v & [-> | Hv]%elem_of_cons & Hx); [done|].
  by apply elem_of_nil in Hv.
Qed.

Lemma inv_settle me L raw x d g : Inv d g -> Ready me L raw x (d, g) ->
  Current me L (fun f => in_synced f = true /\ in_data f = raw) (d, g) -> Inv (settle d) (with_token me x g).
Proof.
  intros Hi (Hh & Hme & Hc & Hx) (_ & i & f & Hb & Hf & Hs & Hd). cbn in *. pose proof Hi as [].
  split; cbn [settle dk_dir dk_kept dk_names dk_past dk_inodes dk_locks]; try done.
  - intros y Hy%bases_settle. rewrite Hb in Hy. subst y. exists f. split_and!; [done|done|by subst raw].
  - intros p q y. destruct x as [x|]; cbn [with_token]; [|by apply inv_once0].
    destruct (decide (p = me)) as [->|Hp], (decide (q = me)) as [->|Hq]; rewrite ?lookup_insert_eq; try done.
    + rewrite lookup_insert_ne by done. intros [= <-] H. by destruct (Hx x q eq_refl).
    + rewrite lookup_insert_ne by done. intros H [= <-]. by destruct (Hx x p eq_refl).
    + rewrite !lookup_insert_ne by done. apply inv_once0.
  - intros v j Hv. by apply elem_of_nil in Hv.
  - intros j Hl Hj%bases_settle. by eapply inv_apart0, bases_now.
  - intros v n j [-> | Hv]%elem_of_cons Hl; [|by apply elem_of_nil in Hv]. by eapply inv_files0; [left|].
Qed.

Lemma guar_settle me L x d g : Inv d g -> Held me L (d, g) -> Guar me (d, g) (settle d, with_token me x g).
Proof.
  intros Hi Hh q Hq. split; cbn; try done.
  - intros j Hj. exfalso. apply Hq. symmetry. by eapply (inv_alone _ _ Hi).
  - intros j f _ _ Hb Hb'%bases_settle. by apply Hb, bases_now.
  - destruct x; cbn [with_token]; [|done]. by rewrite lookup_insert_ne.
Qed.
End logic.
