(* ===== verification/Ledgersafe.v ===== *)
(** The programs of [Ledgerfile.v] are safe: each of their calls keeps the invariant
    of [Ledgerlogic.v] and leaves alone what other processes rely on, whatever these
    do between two calls. *)
From S2P Require Import Prelude GoString GoTime Json Sha256 Installation Encoding Filesystem Ledgerfile Ledgerlogic.

Lemma HasPrefix_app p s : HasPrefix (p +:+ s) p = true.
Proof. unfold HasPrefix. induction p as [|c p IH]; [by destruct s|]. 
  change (String c p +:+ s) with (String c (p +:+ s)). cbn [String.prefix]. by destruct (ascii_dec c c).
Qed.

(** * The programs are safe *)

Section programs.
Context (base : string) (Hbase : HasPrefix base temp_prefix = false) (me : nat).
Notation safe := (safe base me).
Notation stable := (stable base me).
Notation At := (At base).
Notation Held := (Held me).

Lemma stable_true : stable (fun _ => True).
Proof. apply stable_const. Qed.

#[local] Hint Resolve stable_true stable_both stable_token stable_at stable_held stable_current stable_absent
  stable_ready stable_temp stable_const stable_imp : stab.

(** A call that only looks, and of which nothing is learnt. *)
Lemma safe_glance {X} (f : sys X) P : stable P -> (forall l d x d', f me l d = Some (x, d') -> d' = d) ->
  safe (fun _ => P) (call f) P.
Proof. intros HP Hf. apply safe_look; [done|done|]. intros l d g x d' _ Hp H. by rewrite (Hf l d x d' H). Qed.

Lemma or_fault_inv {X} l d (k : result X * disk) r d' : or_fault l d k = Some (r, d') ->
  (exists e, r = Err e) /\ d' = d \/ k = (r, d').
Proof. unfold or_fault. destruct (fault l); intros [= <-]; [left; eauto|by right]. Qed.

Lemma validateDirectory_safe P : stable P -> safe (fun _ => P) validateDirectory P.
Proof.
  intros HP. eapply safe_bind; [apply safe_glance; [done|]|].
  - intros l d x d' [[_ ->]|[= _ ->]]%or_fault_inv; done.
  - intros r. by apply safe_ret.
Qed.

Lemma safe_false {A} (Q : A -> world -> Prop) p : safe Q p (fun _ => False).
Proof.
  induction p as [a|X f k IH]; (split; [apply stable_const|]); [by intros s|].
  exists (fun _ _ => False). by split.
Qed.

(** A step that changes nothing of what is known. *)
Lemma safe_then {A B} (Q : result B -> world -> Prop) (p : io (result A)) (k : A -> io (result B)) P :
  safe (fun _ => P) p P -> (forall e s, P s -> Q (Err e) s) -> (forall a, safe Q (k a) P) -> safe Q (and_then p k) P.
Proof.
  intros Hp He Hk. pose proof (safe_keeps _ _ _ _ _ Hp) as HP. unfold and_then.
  eapply safe_bind; [exact Hp|]. intros [a|e]; cbn; [apply Hk|]. apply safe_ret; [done|]. apply He.
Qed.

Lemma failing_glance {X} msg (f : sys (result X)) P :
  stable P -> (forall l d g x d', Inv base d g -> f me l d = Some (x, d') -> d' = d) ->
  safe (fun _ => P) (failing msg f) P.
Proof.
  intros HP Hf. unfold failing. eapply (safe_bind base me (fun _ => P)); [|by intros r; apply safe_ret].
  apply safe_look; [done|done|]. intros l d g x d' Hi Hp H. by rewrite (Hf l d g x d' Hi H).
Qed.

Lemma prepareDirectory_safe P : stable P -> safe (fun _ => P) prepareDirectory P.
Proof.
  intros HP. eapply safe_bind.
  { apply (safe_look base me _ _ (fun r s => r <> Ok None /\ P s)); [done|by auto with stab|].
    intros l d g x d' Hi Hp [[[e ->] ->]|[= <- <-]]%or_fault_inv; (split; [done|]); (split; [|done]); [done|].
    intros [= Hd]. by apply (inv_dir _ _ _ Hi). }
  intros [[before|]|e].
  - eapply safe_mono; [apply (safe_then (fun _ => P) _ _ P)|..]; [|done| |by auto with stab|by intros s []|done].
    + apply failing_glance; [done|]. intros l d g x d' Hi H. apply or_fault_inv in H as [[_ ->]|H]; [done|].
      destruct (dk_dir d) as [[[] ?]|] eqn:Hd; cbn in H; try (by injection H as _ ->). by destruct (inv_dir _ _ _ Hi).
    + intros _. apply safe_then; [by apply safe_ret|done|]. intros _. by apply validateDirectory_safe.
  - eapply safe_mono; [apply (safe_false (fun _ => P))|by auto with stab|by intros s [H _]; destruct H|done].
  - apply safe_ret; [by auto with stab|by intros s []].
Qed.

(** ** The lock *)

Definition tok (T : option (string * Z) -> Prop) (s : world) : Prop := T (s.2 !! me).

Lemma stable_tok T : stable (tok T).
Proof. apply stable_token. Qed.
#[local] Hint Resolve stable_tok : stab.

Lemma release_safe {X} (f : sys X) i P : stable P ->
  (forall l d x d', f me l d = Some (x, d') -> d' = d \/ d' = release me i d) ->
  (forall d g, Inv base d g -> P (d, g) -> P (release me i d, g)) -> safe (fun _ => P) (call f) P.
Proof.
  intros HP Hf Hr. apply safe_call; [done|done|]. intros l d g x d' Hi Hp H.
  exists g. destruct (Hf _ _ _ _ H) as [-> | ->]; [split_and!; [done|apply guar_refl|done]|].
  split_and!; [by apply inv_release|apply guar_release|by apply Hr].
Qed.

Lemma close_safe i P : stable P -> (forall d g, Inv base d g -> P (d, g) -> P (release me i d, g)) ->
  safe (fun _ => P) (call (close i)) P.
Proof. intros HP Hr. apply (release_safe _ i); [done| |done]. intros l d x d' [= _ <-]. by right. Qed.

Lemma funlock_safe i T : safe (fun _ => tok T) (call (funlock i)) (tok T).
Proof.
  apply (release_safe _ i); [apply stable_tok| |done].
  intros l d x d' [[_ ->]|[= _ ->]]%or_fault_inv; [by left|by right].
Qed.

Lemma open_lock_safe P : stable P ->
  safe (ends P (fun i s => P s /\ At i s)) (failing "open installation lock" (open_create (lock_name base) 384)) P.
Proof.
  intros HP. apply safe_failing; [|intros []; cbn; auto with stab].
  eapply safe_mono; [apply (safe_quiet base me _ P (fun r s => match r with Ok i => At i s | Err _ => True end))| | |]; try done.
  - intros []; auto with stab.
  - intros l d g x d' Hi Hp [[[e ->] ->]|H]%or_fault_inv; [split_and!; [done|intros q; apply rely_refl|done]|].
    destruct (dk_dir d) as [dir|]; [|injection H as <- <-; split_and!; [done|intros q; apply rely_refl|done]].
    pose proof lock_name_ne base as Hne. destruct (dk_names d !! lock_name base) as [i|] eqn:Hl.
    + assert (d' = d /\ (x = Ok i \/ exists e, x = Err e)) as [-> Hx].
      { destruct (in_kind <$> dk_inodes d !! i) as [[]|]; injection H as <- <-; eauto. }
      split_and!; [done|intros q; apply rely_refl|]. by destruct Hx as [-> | [e ->]].
    + destruct (make (lock_name base) (Z.land 384 (Z.lnot (umask l))) me d) as [i d1] eqn:Hm. injection H as <- <-.
      pose proof (inv_make base _ (Z.land 384 (Z.lnot (umask l))) me d g Hi Hne Hl) as Hi'. rewrite Hm in Hi'.
      split_and!; [done| |].
      * intros q. pose proof (rely_make base q _ (Z.land 384 (Z.lnot (umask l))) me d g Hi Hne Hl) as Hr. by rewrite Hm in Hr.
      * injection Hm as <- <-. unfold Ledgerlogic.At. cbn. by rewrite lookup_insert_eq.
  - by intros [i|e] s [].
Qed.

(** Changing the mode of the lock file touches no version of the manifest. *)
Lemma chmod_lock_safe i P msg : stable P ->
  safe (fun _ s => P s /\ At i s) (failing msg (fchmod i 384)) (fun s => P s /\ At i s).
Proof.
  intros HP. unfold failing.
  eapply (safe_bind base me (fun _ s => P s /\ At i s)); [|intros r; apply safe_ret; [auto with stab|done]].
  eapply safe_mono; [apply (safe_quiet base me _ (fun s => P s /\ At i s) (fun _ _ => True))|..];
    [auto with stab|auto with stab| |auto with stab|done|by intros a s []].
  intros l d g x d' Hi [_ Ha] [[_ ->]|H]%or_fault_inv; [split_and!; [done|intros q; apply rely_refl|done]|].
  destruct (dk_inodes d !! i) as [f|] eqn:Hf; injection H as <- <-; [|split_and!; [done|intros q; apply rely_refl|done]].
  assert (Hb : ~ bases base d (Some i)) by by apply (inv_apart _ _ _ Hi).
  split_and!; [by apply inv_set_inode| |done]. intros q. by eapply rely_set_inode.
Qed.

Lemma flock_safe i exclusive P : stable P ->
  safe (ends P (fun _ s => P s /\ At i s /\ (exclusive = true -> Held i s)))
    (failing "lock installation state" (flock i exclusive)) (fun s => P s /\ At i s).
Proof.
  intros HP.  apply safe_failing; [|intros []; cbn; auto with stab].
  eapply safe_mono; [apply (safe_quiet base me _ (fun s => P s /\ At i s)
    (fun r s => r = Ok tt -> exclusive = true -> Held i s))|..].
  - auto with stab.
  - intros x s s' Hr Hs Hx He. by eapply stable_held, Hs.
  - intros l d g x d' Hi [_ Ha] H. unfold flock in H.
    destruct (fault l); [injection H as <- <-; split_and!; [done|intros q; apply rely_refl|done]|].
    destruct (conflicts me i exclusive d) eqn:Hc; [done|]. injection H as <- <-.
    split_and!; [by apply inv_flock|intros q; apply rely_flock|]. intros _ ->. unfold Ledgerlogic.Held. cbn. by left.
  - auto with stab.
  - done.
  - intros [[]|e] s [[]]; cbn; auto.
Qed.

Lemma withLock_safe {A} exclusive (fn : io (result A)) T (Q : result A -> option (string * Z) -> Prop) :
  (forall e t, T t -> Q (Err e) t) ->
  (forall L, safe (fun r => tok (Q r)) fn (fun s => tok T s /\ At L s /\ (exclusive = true -> Held L s))) ->
  safe (fun r => tok (Q r)) (withLock base exclusive fn) (tok T).
Proof.
  intros He Hfn. unfold withLock. apply safe_then; [by apply validateDirectory_safe, stable_tok|by intros e s; apply He|].
  intros _. eapply safe_bind; [apply safe_glance; [apply stable_tok|]|].
  { intros l d x d' [[_ ->]|[= _ ->]]%or_fault_inv; done. }
  intros [before|e]; [|apply safe_ret; [apply stable_tok|by intros s; apply He]].
  case_match; [apply safe_ret; [apply stable_tok|by intros s; apply He]|].
  eapply (safe_and_then base me (fun i s => tok T s /\ At i s) (tok T));
    [apply open_lock_safe, stable_tok|apply stable_tok|by intros e s; apply He|].
  intros L. eapply (safe_bind base me (fun r => tok (Q r))).
  2: { intros r. eapply (safe_bind base me (fun _ => tok (Q r))); [by apply close_safe; [apply stable_tok|]|].
       intros _. by apply safe_ret; [apply stable_tok|]. }
  assert (Herr : forall e s, tok T s /\ At L s -> tok (Q (Err e)) s) by (intros e s [Ht _]; by apply He).
  apply safe_then; [|done|].
  { apply failing_glance; [auto with stab|]. intros l d g x d' _ [[_ ->]|Hx]%or_fault_inv; [done|].
    destruct (dk_inodes d !! L); by injection Hx as _ <-. }
  intros opened. destruct (negb _ || _); [apply safe_ret; [auto with stab|apply Herr]|].
  apply safe_then; [by apply chmod_lock_safe, stable_tok|done|]. intros _.
  eapply (safe_and_then base me (fun _ s => tok T s /\ At L s /\ (exclusive = true -> Held L s)) (tok T));
    [apply flock_safe, stable_tok|apply stable_tok|by intros e s; apply He|].
  intros _. eapply safe_bind; [apply Hfn|]. intros r.
  eapply (safe_bind base me (fun _ => tok (Q r))); [apply funlock_safe|]. intros _. by apply safe_ret; [apply stable_tok|].
Qed.

(** ** Reading *)

(** [me] holds the lock alone, has been issued nothing, and the manifest's file is [i]. *)
Definition Alone (L : nat) (s : world) : Prop := s.2 !! me = None /\ At L s /\ Held L s.
Definition Leads (L i : nat) (s : world) : Prop := Alone L s /\ dk_names s.1 !! base = Some i.

Lemma stable_alone L : stable (Alone L).
Proof. apply stable_both; [apply (stable_token base me (fun t => t = None))|auto with stab]. Qed.

Lemma stable_leads L i : stable (Leads L i).
Proof.
  intros s s' Hr [Ha Hb]. split; [by eapply stable_alone|].
  destruct Ha as (_ & _ & Hh). by destruct (rely_alone _ _ _ _ Hr _ Hh) as (-> & _).
Qed.
#[local] Hint Resolve stable_alone stable_leads : stab.

Lemma alone_release L i d g : i <> L -> Alone L (d, g) -> Alone L (release me i d, g).
Proof.
  intros Hi (Ht & Ha & Hh). split_and!; [done|done|]. apply elem_of_release. split; [done|]. by intros [_ ->].
Qed.

Lemma leads_apart L i d g : Inv base d g -> Leads L i (d, g) -> i <> L.
Proof. intros Hi [(_ & Ha & _) Hb] ->. by apply (inv_apart _ _ _ Hi L Ha), bases_now. Qed.

(** ... and every index issued so far is below the marks of [m]. *)
Definition Above (L : nat) (m : Manifest) (s : world) : Prop :=
  Alone L s /\ forall p y, s.2 !! p = Some y -> below m y.

Lemma stable_above L m : stable (Above L m).
Proof.
  intros s s' Hr [Ha Hm]. split; [by eapply stable_alone|].
  destruct Ha as (_ & _ & Hh). by destruct (rely_alone _ _ _ _ Hr _ Hh) as (_ & _ & ->).
Qed.

Definition Reads (L i : nat) (raw : bytes) (s : world) : Prop :=
  Leads L i s /\ forall m, decode raw = Ok m -> Above L m s.

Lemma stable_reads L i raw : stable (Reads L i raw).
Proof. intros s s' Hr [Hl Hm]. split; [by eapply stable_leads|]. intros m Hd. by eapply stable_above, Hm. Qed.
#[local] Hint Resolve stable_above stable_reads : stab.

Lemma readAndVerify_safe st L : st_base st = base ->
  safe (fun r s => match r with
                   | Ok m => Above L m s /\ manifest_ok m (st_identity st) /\ exists raw, decode raw = Ok m
                   | Err _ => Alone L s
                   end) (readAndVerify st) (Alone L).
Proof.
  intros Hst. unfold readAndVerify. rewrite Hst.
  eapply (safe_bind base me (fun _ => Alone L)); [apply safe_glance; [auto with stab|]|].
  { intros l d x d' [[_ ->]|[= _ ->]]%or_fault_inv; done. }
  intros [[info|]|e]; [|by apply safe_ret; [auto with stab|]..].
  do 2 (case_match; [by apply safe_ret; [auto with stab|]|]).
  eapply (safe_and_then base me (fun i => Leads L i) (Alone L)); [|auto with stab|done|].
  { apply safe_failing; [|intros []; cbn; auto with stab].
    apply safe_look; [auto with stab|intros []; cbn; auto with stab|].
    intros l d g x d' Hi Ha [[[e ->] ->]|Hx]%or_fault_inv; [done|].
    unfold stat_of in Hx. destruct (dk_names d !! base) as [i|] eqn:Hb; [|by injection Hx as <- <-].
    cbn [mbind option_bind] in Hx. destruct (dk_inodes d !! i) as [f|]; [|by injection Hx as <- <-].
    cbn [mbind option_bind info_of] in Hx. destruct f as [[] ? ? ? ?]; by injection Hx as <- <-. }
  intros i. eapply (safe_bind base me (ends (Leads L i) (Reads L i))).
  { apply safe_failing; [|intros []; cbn; auto with stab].
    apply safe_look; [auto with stab|intros []; cbn; auto with stab|].
    intros l d g x d' Hi [Ha Hb] [[[e ->] ->]|Hx]%or_fault_inv; [done|].
    destruct (inv_versions _ _ _ Hi (Some i)) as (f & Hf & _ & Hc); [by apply bases_now|].
    rewrite Hf in Hx. injection Hx as <- <-. split; [done|]. split; [done|]. intros m Hd. split; [done|].
    intros p y. by apply Hc. }
  intros r. eapply (safe_bind base me (fun _ => ends (Leads L i) (Reads L i) r)).
  { assert (Hrel : forall d g, Inv base d g -> Leads L i (d, g) -> Leads L i (release me i d, g)).
    { intros d g Hi Hl. pose proof (leads_apart L i d g Hi Hl). destruct Hl. split; [by apply alone_release|done]. }
    apply close_safe; [destruct r; cbn; auto with stab|].
    intros d g Hi. destruct r as [raw|]; cbn [ends]; [|by apply Hrel]. intros [Hl Hm].
    split; [by apply Hrel|]. intros m Hd. destruct (Hm m Hd). split; [|done]. by destruct (Hrel d g Hi Hl). }
  intros _. destruct r as [raw|e]; cbn [ends]; [|by apply safe_ret; [auto with stab|intros s []]].
  apply safe_ret; [auto with stab|]. intros s [[Ha _] Hm]. cbn [mbind result_bind].
  destruct (decode raw) as [m|] eqn:Hd; cbn [mbind result_bind]; [|done].
  destruct (verifyManifest m (st_identity st)) as [[]|] eqn:Hv; cbn [mbind result_bind]; [|done].
  split_and!; [by apply Hm|by apply verifyManifest_spec|by exists raw].
Qed.

(** A reader holds nothing and learns nothing that is used later. *)
Lemma glance_readAndVerify st T : st_base st = base -> safe (fun _ => tok T) (readAndVerify st) (tok T).
Proof.
  intros Hst. unfold readAndVerify. rewrite Hst.
  eapply (safe_bind base me (fun _ => tok T)); [apply safe_glance; [auto with stab|]|].
  { intros l d x d' [[_ ->]|[= _ ->]]%or_fault_inv; done. }
  intros [[info|]|e]; [|by apply safe_ret; [auto with stab|]..].
  do 2 (case_match; [by apply safe_ret; [auto with stab|]|]).
  apply safe_then; [|done|].
  { apply failing_glance; [auto with stab|]. intros l d g x d' _ [[_ ->]|Hx]%or_fault_inv; [done|].
    by destruct (stat_of base d) as [[[]]|]; injection Hx as _ <-. }
  intros i. eapply (safe_bind base me (fun _ => tok T)); [apply failing_glance; [auto with stab|]|].
  { intros l d g x d' _ [[_ ->]|Hx]%or_fault_inv; [done|]. by destruct (dk_inodes d !! i); injection Hx as _ <-. }
  intros r. eapply (safe_bind base me (fun _ => tok T)); [by apply close_safe; [auto with stab|]|].
  intros _. by apply safe_ret; [auto with stab|].
Qed.

(** ** Replacing the manifest *)

Definition Writing (L : nat) (raw : bytes) (x : option (string * Z)) (tmp : string) (i : nat) (R : inode -> Prop)
    (s : world) : Prop := Ready me L raw x s /\ Temp base me L tmp i R s.

Lemma stable_writing L raw x tmp i R : stable (Writing L raw x tmp i R).
Proof. apply stable_both; auto with stab. Qed.
#[local] Hint Resolve stable_writing : stab.

Lemma writing_weaken L raw x tmp i (R R' : inode -> Prop) s :
  (forall f, R f -> R' f) -> Writing L raw x tmp i R s -> Writing L raw x tmp i R' s.
Proof.
  intros HR [Hr (Hl & Hne & Hn & Ht & Hb & f & Hf & Hm & Hx)]. split; [done|]. split_and!; try done. exists f. auto.
Qed.

(** A call that changes the temporary file only. *)
Lemma file_step_safe L raw x tmp i (R R' : inode -> Prop) msg (f : sys (result unit)) :
  (forall l d r d' h, dk_inodes d !! i = Some h -> R h -> f me l d = Some (r, d') ->
     (exists h', d' = set_inode i h' d /\ in_maker h' = in_maker h /\ (r = Ok tt -> R' h')) \/
     d' = d /\ exists e, r = Err e) ->
  safe (ends (Writing L raw x tmp i (fun _ => True)) (fun _ => Writing L raw x tmp i R')) (failing msg f)
    (Writing L raw x tmp i R).
Proof.
  intros Hf. apply safe_failing; [|intros []; cbn; auto with stab].
  apply safe_call; [auto with stab|intros []; cbn; auto with stab|].
  intros l d g r d' Hi [Hr (Hl & Hne & Hn & Ht & Hb & h & Hh & Hm & HR)] H. exists g.
  destruct (Hf l d r d' h Hh HR H) as [(h' & -> & Hm' & HR')|[-> [e ->]]].
  - split_and!; [by apply inv_set_inode| |].
    + intros q Hq. eapply rely_set_inode; [done..|]. intros Hmq. congruence.
    + assert (Hw : forall R'' : inode -> Prop, R'' h' -> Writing L raw x tmp i R'' (set_inode i h' d, g)).
      { intros R'' HR''. split; [done|]. split_and!; try done. exists h'. cbn. rewrite lookup_insert_eq.
        split_and!; [done|congruence|done]. }
      destruct r as [[]|]; cbn; auto.
  - split_and!; [done|apply guar_refl|]. cbn. split; [done|]. split_and!; try done. by exists h.
Qed.

Lemma on_file_inv {X} i l d (k : inode -> result X * disk) r d' h : dk_inodes d !! i = Some h ->
  on_file i l d k = Some (r, d') -> (d' = d /\ exists e, r = Err e) \/ k h = (r, d').
Proof. unfold on_file. intros Hh [[[e ->] ->]|H]%or_fault_inv; [left; eauto|]. rewrite Hh in H. by right. Qed.

(** The file is on the disk under the manifest's name, or so it looks. *)
Definition Placed (L : nat) (raw : bytes) (x : option (string * Z)) (s : world) : Prop :=
  Ready me L raw x s /\ Current base me L (fun f => in_synced f = true /\ in_data f = raw) s.

Lemma stable_placed L raw x : stable (Placed L raw x).
Proof. apply stable_both; auto with stab. Qed.
#[local] Hint Resolve stable_placed : stab.

Lemma ready_covers L raw x d g : Ready me L raw x (d, g) -> covers g raw.
Proof.
  intros (_ & Hme & Hc & _) m p y Hd Hp. apply (Hc m p y Hd). destruct x as [x|]; [|done]. cbn in *.
  rewrite lookup_insert_ne; [done|]. intros ->. congruence.
Qed.

Lemma create_temp_safe L raw x msg :
  safe (ends (fun _ => True) (fun tmp => Writing L raw x tmp.1 tmp.2 (fun f => in_data f = [])))
    (failing msg (create_temp temp_prefix)) (fun s => Ready me L raw x s /\ At L s).
Proof.
  apply safe_failing; [|intros []; cbn; auto with stab].
  apply safe_call; [auto with stab|intros []; cbn; auto with stab|].
  intros l d g r d' Hi [Hr Ha] [[[e ->] ->]|H]%or_fault_inv; exists g; [split_and!; [done|apply guar_refl|done]|].
  set (name := temp_prefix +:+ random_name l) in *.
  destruct (dk_dir d) as [dir|], (dk_names d !! name) as [j|] eqn:Hn;
    try (injection H as <- <-; split_and!; [done|apply guar_refl|done]).
  assert (Hne : name <> base).
  { intros Heq. rewrite <- Heq in Hbase. unfold name in Hbase. by rewrite HasPrefix_app in Hbase. }
  destruct (make name (Z.land 384 (Z.lnot (umask l))) me d) as [i d1] eqn:Hm. injection H as <- <-.
  pose proof (inv_make base name (Z.land 384 (Z.lnot (umask l))) me d g Hi Hne Hn) as Hi'.
  pose proof (fun q => rely_make base q name (Z.land 384 (Z.lnot (umask l))) me d g Hi Hne Hn) as Hrel.
  pose proof (bases_make base name (Z.land 384 (Z.lnot (umask l))) me d (Some (new_inode d)) Hne) as Hb.
  rewrite Hm in Hi', Hrel, Hb. split_and!; [done|by intros q _|]. cbn. split.
  - exact (stable_ready base me L raw x _ _ (Hrel me) Hr).
  - injection Hm as <- <-. split_and!.
    + exact (stable_at base me L _ _ (Hrel me) Ha).
    + intros <-. by apply (new_inode_apart base d g (dk_names d) (lock_name base) Hi); [left|].
    + done.
    + cbn. by rewrite lookup_insert_eq.
    + intros (v & Hv & Hx)%Hb. by apply (new_inode_apart base d g v base Hi Hv).
    + eexists. cbn. rewrite lookup_insert_eq. done.
Qed.

Lemma writing_release L raw x tmp i R d g :
  Writing L raw x tmp i R (d, g) -> Writing L raw x tmp i R (release me i d, g).
Proof.
  intros [(Hh & Hrest) (Hl & Hne & Htemp)]. split; [|done]. split; [|done].
  apply elem_of_release. split; [done|]. by intros [_ ->].
Qed.

Lemma rename_safe L raw x tmp i msg :
  safe (ends (Writing L raw x tmp i (fun _ => True)) (fun _ => Placed L raw x)) (failing msg (rename tmp base))
    (Writing L raw x tmp i (fun f => in_synced f = true /\ in_data f = raw)).
Proof.
  apply safe_failing; [|intros []; cbn; auto with stab].
  apply safe_call; [auto with stab|intros []; cbn; auto with stab|].
  intros l d g r d' Hi Hw H. exists g.
  assert (Hsame : forall e, r = Err e -> d' = d -> Inv base d' g /\ Guar base me (d, g) (d', g) /\
    ends (Writing L raw x tmp i (fun _ => True)) (fun _ => Placed L raw x) r (d', g)).
  { intros e -> ->. split_and!; [done|apply guar_refl|]. by eapply writing_weaken, Hw. }
  apply or_fault_inv in H as [[[e ->] ->]|H]; [by eapply Hsame|].
  pose proof Hw as [Hr (Hl & Hne & Hn & Ht & Hb & f & Hf & Hm & Hs & Hd)]. cbn in Ht. rewrite Ht in H.
  destruct (j ← dk_names d !! base; in_kind <$> dk_inodes d !! j) as [[]|];
    [|by injection H as <- <-; eapply Hsame| | |]; injection H as <- <-.
  all: assert (Htemp : Temp base me L tmp i (fun f => in_synced f = true /\ covers g (in_data f)) (d, g))
    by (split_and!; try done; exists f; split_and!; try done; rewrite Hd; by eapply ready_covers).
  all: split_and!; [by eapply inv_rename|by eapply guar_rename; [|destruct Hr|]|].
  all: cbn; split; [by destruct Hr as (? & ? & ? & ?)|].
  all: destruct Hr as [Hh _]; split; [done|]; exists i, f; cbn; by rewrite lookup_insert_eq.
Qed.

Lemma remove_safe L raw x tmp i R :
  safe (fun _ _ => True) (call (remove tmp)) (Writing L raw x tmp i R).
Proof.
  apply safe_call; [auto with stab|auto with stab|]. intros l d g r d' Hi [Hr Ht] H. exists g.
  apply or_fault_inv in H as [[_ ->]|H]; [split_and!; [done|apply guar_refl|done]|].
  destruct (dk_names d !! tmp); injection H as <- <-; [|split_and!; [done|apply guar_refl|done]].
  split_and!; [by eapply inv_remove|by eapply guar_remove|done].
Qed.

Lemma replace_safe L raw x tmp i :
  safe (ends (Writing L raw x tmp i (fun _ => True)) (fun _ => Placed L raw x)) (replace base tmp i raw)
    (Writing L raw x tmp i (fun f => in_data f = [])).
Proof.
  unfold replace. set (E := Writing L raw x tmp i (fun _ => True)).
  assert (HE : stable E) by apply stable_writing.
  assert (Herr : forall e s, E s -> ends E (fun _ : unit => Placed L raw x) (Err e) s) by done.
  eapply (safe_and_then base me (fun _ => Writing L raw x tmp i (fun f => in_data f = [])) E);
    [apply file_step_safe|done|done|intros _].
  { intros l d r d' h Hh Hd H. apply (on_file_inv _ _ _ _ _ _ h) in H as [[-> He]|[= <- <-]]; [by right|left|done].
    eexists. by split_and!. }
  eapply (safe_and_then base me (fun _ => Writing L raw x tmp i (fun f => in_data f = raw)) E);
    [apply file_step_safe|done|done|intros _].
  { intros l d r d' h Hh Hd H. unfold write in H. rewrite Hh in H. left.
    destruct (fault l); injection H as <- <-; (eexists; split_and!; [done|done|]); [done|].
    intros _. cbn. by rewrite Hd. }
  eapply (safe_and_then base me (fun _ => Writing L raw x tmp i (fun f => in_synced f = true /\ in_data f = raw)) E);
    [apply file_step_safe|done|done|intros _].
  { intros l d r d' h Hh Hd H. apply (on_file_inv _ _ _ _ _ _ h) in H as [[-> He]|[= <- <-]]; [by right|left|done].
    eexists. by split_and!. }
  eapply (safe_and_then base me (fun _ => Writing L raw x tmp i (fun f => in_synced f = true /\ in_data f = raw)) E);
    [|done|done|intros _; apply rename_safe].
  apply safe_failing; [|intros []; cbn; auto with stab].
  eapply safe_mono; [apply close_safe; [apply stable_writing|]|by auto with stab|done|].
  - intros d g _. apply writing_release.
  - intros [] s Hw; [done|]. by eapply writing_weaken, Hw.
Qed.

(** Once the directory is synced, the index is issued. *)
Definition Wrote (x : option (string * Z)) (r : result unit) (s : world) : Prop :=
  match r with Ok _ => s.2 !! me = x | Err _ => True end.

Lemma stable_wrote x r : stable (Wrote x r).
Proof. destruct r; [apply (stable_token base me (fun t => t = x))|apply stable_true]. Qed.
#[local] Hint Resolve stable_wrote : stab.

Lemma syncDirectory_safe L raw x : safe (Wrote x) syncDirectory (Placed L raw x).
Proof.
  unfold syncDirectory. apply safe_then; [|done|].
  { apply failing_glance; [auto with stab|]. by intros l d g r d' _ [[_ ->]|[= _ ->]]%or_fault_inv. }
  intros _. unfold failing. eapply (safe_bind base me (Wrote x)); [|by intros r; apply safe_ret; [auto with stab|destruct r]].
  apply safe_call; [auto with stab|auto with stab|].
  intros l d g r d' Hi [Hr Hc] [[[e ->] ->]|[= <- <-]]%or_fault_inv; [exists g; split_and!; [done|apply guar_refl|done]|].
  exists (with_token me x g). split_and!; [by eapply inv_settle|by eapply guar_settle, Hr|].
  cbn. destruct Hr as (_ & Hme & _). destruct x as [x|]; cbn; [by rewrite lookup_insert_eq|done].
Qed.

Lemma writeAtomic_safe L m raw x : encode m = Ok raw ->
  safe (Wrote x) (writeAtomic base m) (fun s => Ready me L raw x s /\ At L s).
Proof.
  intros He. unfold writeAtomic. rewrite He.
  eapply safe_and_then; [apply create_temp_safe|apply stable_true|done|]. intros [tmp i]. cbn [fst snd].
  eapply safe_bind; [apply replace_safe|]. intros [[]|e]; cbn [ends].
  - eapply safe_bind; [apply syncDirectory_safe|]. intros r.
    eapply (safe_bind base me (fun _ => Wrote x r)); [by apply close_safe; [auto with stab|destruct r]|].
    intros _. by apply safe_ret; [auto with stab|].
  - eapply (safe_bind base me (fun _ => Writing L raw x tmp i (fun _ => True))).
    { apply close_safe; [auto with stab|]. intros d g _. apply writing_release. }
    intros _. eapply (safe_bind base me (fun _ _ => True)); [apply remove_safe|]. intros _. by apply safe_ret; [apply stable_true|].
Qed.

(** ** Updating *)

(** What a change may do to a manifest: it keeps the marks above the indices issued,
    and the index it issues, if any, was at the mark. *)
Definition change_ok {A} (identity : Identity) (change : Manifest -> result (A * option Manifest))
    (Q : A -> option (string * Z) -> Prop) : Prop :=
  forall m, writable m -> manifest_ok m identity ->
    match change m with
    | Err _ => True
    | Ok (a, None) => Q a None
    | Ok (a, Some m') => writable m' /\ (forall y, below m y -> below m' y) /\
        exists x, (forall y, x = Some y -> below m' y /\ ~ below m y) /\ Q a x
    end.

(** With the manifest [m'] written, [me] will have been issued [x]. *)
Lemma ready_of L m m' raw x s : Above L m s -> writable m' -> encode m' = Ok raw ->
  (forall y, below m y -> below m' y) -> (forall y, x = Some y -> below m' y /\ ~ below m y) ->
  Ready me L raw x s /\ At L s.
Proof.
  intros [(Hme & Ha & Hh) Hall] Hw He Hgrow Hx. split; [|done]. split_and!; [done|done| |].
  - intros m0 p y Hd Hp. rewrite (encoded_is_read m' raw m0 Hw He Hd). destruct x as [x|]; cbn in Hp; [|by eapply Hgrow, Hall].
    destruct (decide (p = me)) as [->|Hne].
    + rewrite lookup_insert_eq in Hp. injection Hp as <-. by apply Hx.
    + rewrite lookup_insert_ne in Hp by done. by eapply Hgrow, Hall.
  - intros y q -> Hq. destruct (Hx y eq_refl) as [_ Hn]. by eapply Hn, Hall.
Qed.

Definition tok_result {A} (Q : A -> option (string * Z) -> Prop) (r : result A) (t : option (string * Z)) : Prop :=
  match r with Ok a => Q a t | Err _ => True end.

Definition none (t : option (string * Z)) : Prop := t = None.

Lemma write_safe {A} L m m' (a : A) (Q : A -> option (string * Z) -> Prop) x : writable m' ->
  (forall y, below m y -> below m' y) -> (forall y, x = Some y -> below m' y /\ ~ below m y) -> Q a x ->
  safe (fun r => tok (tok_result Q r)) (_ ⇐ writeAtomic base m'; mret (Ok a)) (Above L m).
Proof.
  intros Hw Hgrow Hx HQ. unfold and_then. eapply (safe_bind base me (Wrote x)).
  - destruct (encode m') as [raw|e] eqn:He.
    + eapply safe_mono; [by apply (writeAtomic_safe L m' raw x)|auto with stab| |done].
      intros s Hs. by eapply ready_of.
    + unfold writeAtomic. rewrite He. by apply safe_ret; [auto with stab|].
  - intros [[]|e]; (apply safe_ret; [auto with stab|]); [|done]. intros s Hs. unfold tok. cbn in *. by rewrite Hs.
Qed.

Lemma update_safe {A} st (change : Manifest -> result (A * option Manifest)) Q :
  st_base st = base -> change_ok (st_identity st) change Q ->
  (forall raw m, decode raw = Ok m -> manifest_ok m (st_identity st) -> writable m) ->
  safe (fun r => tok (tok_result Q r)) (update st change) (tok none).
Proof.
  intros Hst Hc Hwr. unfold update. rewrite Hst. apply withLock_safe; [done|]. intros L. unfold and_then.
  eapply safe_mono with (P := Alone L) (Q := fun r => tok (tok_result Q r)); [|by auto with stab| |done].
  2: { intros s (Ht & Ha & Hh). split_and!; auto. }
  eapply safe_bind; [by apply readAndVerify_safe|]. intros [m|e]; [|by apply safe_ret; [auto with stab|]].
  eapply safe_mono; [apply (safe_pure base me (fun r => tok (tok_result Q r)) _ (Above L m))|..];
    [auto with stab| | |by intros s Hs; exact Hs|done].
  2: { intros s s' Hr [Ha H]. split; [by eapply stable_above|exact H]. }
  intros (Hok & raw & Hd). specialize (Hc m (Hwr raw m Hd Hok) Hok).
  destruct (change m) as [[a [m'|]]|e].
  - destruct Hc as (Hw & Hgrow & x & Hx & HQ). by eapply write_safe.
  - apply safe_ret; [auto with stab|]. intros s [(Ht & _) _]. unfold tok. cbn in *. by rewrite Ht.
  - by apply safe_ret; [auto with stab|].
Qed.
End programs.
