(* ===== verification/Durability.v ===== *)
(** The ledger never hands out an index twice, however its processes interleave and
    wherever one of them is killed or the machine loses power, and an index that was
    handed out is on the disk. *)
From S2P Require Import Prelude GoString GoTime Json Sha256 Installation Encoding Filesystem Ledgerfile Ledgerlogic Ledgersafe.

(** * What the operations write can be read back *)

(** The identities the configuration gives: valid, with texts in UTF-8 and numbers of
    their width. *)
Record identity_text (identity : Identity) : Prop := {
  it_valid : validateIdentity identity = Ok tt;
  it_text : Forall (fun w => utf8_string (wi_WalletID w) = true /\ int64 (wi_BirthdayHeight w) /\ 0 <= wi_Account w)
              (id_Wallets identity)
}.

Lemma lower_hex_utf8 s : lower_hex32_bytes s = true -> utf8_string s = true.
Proof.
  rewrite lower_hex32_bytes_spec. unfold lower_hex64. intros [_ H]%andb_prop.
  apply (all_bytes_ascii is_lower_hex); [|done]. intros [[] [] [] [] [] [] [] []]; by vm_compute.
Qed.

Lemma checksum_utf8 line identity : utf8_string (checksum_with line identity) = true.
Proof. apply lower_hex_utf8, EncodeToString_id, Sum256_len. Qed.

Lemma network_utf8 identity : validateIdentity identity = Ok tt -> utf8_string (id_Network identity) = true.
Proof.
  unfold validateIdentity. intros H.
  destruct (String.eqb_spec (id_Network identity) "mainnet") as [->|]; [done|].
  destruct (String.eqb_spec (id_Network identity) "testnet") as [->|]; [done|].
  by destruct (String.eqb_spec (id_Network identity) "regtest") as [->|].
Qed.

Lemma validated_wallets identity : validateIdentity identity = Ok tt ->
  Forall (fun w => 0 <= wi_BirthdayHeight w /\ wi_Account w < 2147483648 /\ lower_hex32_bytes (wi_UFVKFingerprint w) = true)
    (id_Wallets identity).
Proof.
  unfold validateIdentity. case_match; [done|]. destruct (id_Wallets identity); [done|]. apply validate_wallets_each.
Qed.

Lemma verified_writable identity raw m : identity_text identity -> decode raw = Ok m -> manifest_ok m identity -> writable m.
Proof.
  intros [Hv Ht] Hd Hok. pose proof Hok as []. pose proof (validated_wallets _ Hv) as Hws. split.
  - destruct ok_version as [-> | ->]; unfold manifestVersion; width; lia.
  - split_and!; [by apply lower_hex_utf8|rewrite ok_network; by apply network_utf8|].
    rewrite ok_checksum. destruct (_ =? 1); apply checksum_utf8.
  - intros id w Hw. destruct (decode_typed _ _ Hd id w Hw) as [].
    destruct (manifest_domain _ _ _ _ Hok (validateIdentity_NoDup _ Hv) Hw) as (wi & Hin & <- & Hwok).
    rewrite Forall_forall in Ht, Hws. destruct (Ht wi Hin) as (Hu & _), (Hws wi Hin) as (_ & _ & Hf).
    split; [done|]. split; [|done..]. destruct Hwok as (-> & _). by apply lower_hex_utf8.
Qed.

(** ** The changes *)

Lemma set_wallet_writable m id w w' now : writable m -> Wallets m !! id = Some w ->
  (wallet_writable w -> wallet_writable w') -> writable (set_wallet m id w' now).
Proof.
  intros [Hv Hs Hw] Hid Hw'. destruct (Hw id w Hid). split; [done..|]. cbn. apply map_Forall_insert_2; [|done]. auto.
Qed.

Lemma below_set_wallet m id w w' now y : Wallets m !! id = Some w -> NextAddressIndex w <= NextAddressIndex w' ->
  below m y -> below (set_wallet m id w' now) y.
Proof.
  intros Hid Hle (s & Hs & Hlt). unfold below. cbn. destruct (decide (id = y.1)) as [->|].
  - rewrite lookup_insert_eq. exists w'. split; [done|]. rewrite Hid in Hs. injection Hs as ->. lia.
  - rewrite lookup_insert_ne by done. by exists s.
Qed.

Lemma reserve_change_ok identity w now :
  change_ok identity (fun m => written (reserve_change w now m)) (fun k t => t = Some (w, k)).
Proof.
  intros m Hm _. unfold reserve_change. destruct (Wallets m !! w) as [s|] eqn:Hs; [|done].
  destruct (Z.ltb_spec uint32_max (NextAddressIndex s)); [done|]. cbn [written mbind result_bind].
  destruct (wr_wallets _ Hm w s Hs) as [_ []]. assert (0 <= NextAddressIndex s) by (width; lia).
  rewrite wrapu32_id, wrapu64_id by (width; lia). split_and!.
  - eapply set_wallet_writable; [done..|]. intros []. split; cbn; try done. width. lia.
  - intros y. apply below_set_wallet with s; [done|cbn; lia].
  - exists (Some (w, NextAddressIndex s)). split; [|done]. intros y [= <-]. unfold below. cbn. split.
    + rewrite lookup_insert_eq. eexists. split; [done|]. cbn. lia.
    + intros (s' & Hs' & Hlt). rewrite Hs in Hs'. injection Hs' as <-. lia.
Qed.

(** An operation that issues no index. *)
Definition any {A} (a : A) (t : option (string * Z)) : Prop := True.

Lemma change_ok_any {A} m m' (a : A) : writable m' -> (forall y, below m y -> below m' y) ->
  writable m' /\ (forall y, below m y -> below m' y) /\
  exists x, (forall y, x = Some y -> below m' y /\ ~ below m y) /\ any a x.
Proof. intros. split_and!; [done|done|]. by exists None. Qed.

Lemma skip_change_ok identity w i now : uint32 i ->
  change_ok identity (fun m => m' ← skip_change w i now m; Ok (tt, m')) any.
Proof.
  intros Hi m Hm _. unfold skip_change. destruct (Wallets m !! w) as [s|] eqn:Hs; [|done].
  destruct (_ <=? i); [done|]. cbn [mbind result_bind].
  destruct (insert_skipped (SkippedAddressIndices s) i) as [l|] eqn:Hl; [|done]. cbn [fmap option_fmap option_map].
  apply change_ok_any; [|intros y; apply (below_set_wallet m w s); [done|cbn; lia]].
  eapply set_wallet_writable; [done..|]. intros [? ? ? ? Hsk]. split; cbn; try done.
  unfold insert_skipped in Hl. case_match; [done|]. injection Hl as <-.
  apply Forall_app. split; [by apply Forall_take|]. constructor; [done|by apply Forall_drop].
Qed.

Lemma clear_change_ok identity now : change_ok identity (fun m => written (clear_change now m)) any.
Proof.
  intros m [Hv Hs Hw] _. cbn. apply change_ok_any.
  - split; [done..|]. cbn. intros id w. rewrite lookup_fmap. destruct (Wallets m !! id) as [s|] eqn:Hid; [|done].
    intros [= <-]. destruct (Hw id s Hid) as [? []]. by split.
  - intros y (s & Hs' & Hlt). exists (set_skipped s []). cbn. by rewrite lookup_fmap, Hs'.
Qed.

Lemma raise_targets_writable targets ws ws' : raise_targets targets ws = Ok ws' ->
  map_Forall (fun id w => utf8_string id = true /\ wallet_writable w) ws ->
  map_Forall (fun id w => utf8_string id = true /\ wallet_writable w) ws'.
Proof.
  revert ws. induction targets as [|[id t] targets IH]; cbn [raise_targets]; intros ws H Hw; [by injection H as <-|].
  destruct (ws !! id) as [w|] eqn:Hid; [|done].
  destruct (Z.ltb_spec index_space t) as [|Hmax]; [done|]. destruct (Z.ltb_spec t (NextAddressIndex w)); [done|].
  apply (IH _ H). apply map_Forall_insert_2; [|done]. destruct (Hw id w Hid) as [? []]. split; [done|].
  split; cbn; try done. unfold index_space in Hmax. width. lia.
Qed.

Lemma raise_change_ok identity targets now : change_ok identity (fun m => written (raise_change targets now m)) any.
Proof.
  intros m [Hv Hs Hw] _. unfold raise_change. destruct (raise_targets targets (Wallets m)) as [ws|] eqn:Hr; [|done].
  cbn. apply change_ok_any.
  - split; [done..|]. by eapply raise_targets_writable.
  - destruct (raise_targets_spec _ _ _ Hr) as [_ Hall]. intros y (s & Hs' & Hlt).
    destruct (Hall _ _ Hs') as (s' & Hs'' & Hle & _). exists s'. split; [done|lia].
Qed.

(** ** A first manifest *)

(** The identity as [Create] is given it. *)
Record raw_text (identity : Identity) : Prop := {
  rt_network : utf8_string (id_Network identity) = true;
  rt_wallets : Forall (fun w => utf8_string (wi_WalletID w) = true /\ utf8_string (wi_UFVKFingerprint w) = true
                 /\ int64 (wi_BirthdayHeight w) /\ uint32 (wi_Account w)) (id_Wallets identity)
}.

Lemma create_writable identity random id now : raw_text identity -> randomID random = Ok id ->
  writable (create_manifest identity id now).
Proof.
  intros [Hn Hw] Hid. split; cbn.
  - unfold manifestVersion. width. lia.
  - split_and!; [|done|apply checksum_utf8]. unfold randomID in Hid. apply result_bind_ok in Hid as (raw & _ & [= <-]).
    apply (all_bytes_ascii is_lower_hex); [|apply EncodeToString_lower]. by intros [[] [] [] [] [] [] [] []]; vm_compute.
  - unfold initial_wallets. assert (H0 : map_Forall (fun id w => utf8_string id = true /\ wallet_writable w)
      (∅ : gmap string WalletState)) by apply map_Forall_empty.
    revert H0. generalize (∅ : gmap string WalletState).
    induction Hw as [|w l (? & ? & ? & ?) Hl IH]; intros ws Hws; [done|]. cbn [foldl]. apply IH. unfold add_wallet.
    apply map_Forall_insert_2; [|done]. split; [done|]. by split.
Qed.

(** * Processes that use the ledger *)

Inductive request : Type :=
  | RCreate (path : string) (identity : Identity) (random : result string) (now : time)
  | ROpen (path : string) (identity : Identity)
  | RRead (s : State)
  | RReserve (s : State) (walletID : string) (now : time)
  | RSkip (s : State) (walletID : string) (index : Z) (now : time)
  | RClear (s : State) (now : time)
  | RRaise (s : State) (targets : list (string * Z)) (now : time).

Inductive answer : Type :=
  | Started (r : result (State * Manifest))
  | Seen (r : result Manifest)
  | Reserved (walletID : string) (r : result Z)
  | Marked (r : result unit).

Definition serve (r : request) : io answer :=
  match r with
  | RCreate path identity random now => x ← Create path identity random now; mret (Started x)
  | ROpen path identity => x ← Open path identity; mret (Started x)
  | RRead s => x ← Manifest_of s; mret (Seen x)
  | RReserve s w now => x ← ReserveAddressIndex s w now; mret (Reserved w x)
  | RSkip s w i now => x ← MarkAddressIndexSkipped s w i now; mret (Marked x)
  | RClear s now => x ← ClearSkippedAddressIndices s now; mret (Seen x)
  | RRaise s targets now => x ← RaiseHighWater s targets now; mret (Seen x)
  end.

Definition issued_by (a : answer) : option (string * Z) :=
  match a with Reserved w (Ok k) => Some (w, k) | _ => None end.

(** The processes are all of one installation directory, whose manifest is [base]. *)
Definition allowed (base : string) (r : request) : Prop :=
  match r with
  | RCreate path identity _ _ => raw_text identity /\ forall s, newState path identity = Ok s -> st_base s = base
  | ROpen path identity => forall s, newState path identity = Ok s -> st_base s = base
  | RRead s => st_base s = base
  | RSkip s _ i _ => st_base s = base /\ identity_text (st_identity s) /\ uint32 i
  | RReserve s _ _ | RClear s _ | RRaise s _ _ => st_base s = base /\ identity_text (st_identity s)
  end.

Section serving.
Context (base : string) (Hbase : HasPrefix base temp_prefix = false) (me : nat).
Notation safe := (safe base me).
Notation tok := (tok me).

#[local] Hint Resolve stable_tok stable_alone stable_true stable_above : stab.

Lemma serve_bind {A} (p : io (result A)) (C : result A -> answer) (Q : A -> option (string * Z) -> Prop) :
  safe (fun r => tok (tok_result Q r)) p (tok none) ->
  (forall r t y, tok_result Q r t -> issued_by (C r) = Some y -> t = Some y) ->
  safe (fun a => tok (fun t => forall y, issued_by a = Some y -> t = Some y)) (x ← p; mret (C x)) (tok none).
Proof.
  intros Hp HC. eapply safe_bind; [exact Hp|]. intros r. apply safe_ret; [auto with stab|].
  intros s Hs y Hy. by eapply HC.
Qed.

Lemma any_result {A} (p : io (result A)) P : safe (fun _ _ => True) p P -> safe (fun r => tok (tok_result any r)) p P.
Proof. intros Hp. eapply safe_mono; [exact Hp|by eapply safe_keeps|done|]. by intros [a|e] s _. Qed.

Lemma reading_safe st : st_base st = base ->
  safe (fun r => tok (tok_result any r)) (withLock base false (readAndVerify st)) (tok none).
Proof.
  intros Hst. apply withLock_safe; [done|]. intros L. apply any_result.
  eapply safe_mono; [by apply (glance_readAndVerify base me st none)| |by intros s []|done].
  apply stable_both; [auto with stab|]. apply stable_both; [apply stable_at|apply stable_imp, stable_held].
Qed.

Lemma Create_safe path identity random now : allowed base (RCreate path identity random now) ->
  safe (fun r => tok (tok_result any r)) (Create path identity random now) (tok none).
Proof.
  intros [Hraw Hst]. unfold Create. destruct (newState path identity) as [st|e]; [|by apply safe_ret; [auto with stab|]].
  rewrite (Hst st eq_refl). apply (safe_then base me _ _ _ (tok none)); [apply prepareDirectory_safe; auto with stab|done|].
  intros _. unfold and_then at 1. eapply (safe_bind base me (fun r => tok (tok_result any r))).
  2: { intros [m|e]; by apply safe_ret; [auto with stab|]. }
  apply withLock_safe; [done|]. intros L.
  eapply safe_mono with (P := Alone base me L) (Q := fun r => tok (tok_result any r)); [| | |done].
  2: { apply stable_both; [auto with stab|]. apply stable_both; [apply stable_at|apply stable_imp, stable_held]. }
  2: { intros s (Ht & Ha & Hh). split_and!; auto. }
  eapply (safe_bind base me (fun (r : result (option FileInfo)) s => Alone base me L s /\ (r = Ok None -> forall m, Above base me L m s))).
  { apply safe_look; [auto with stab| |].
    - intros r. apply stable_both; [auto with stab|]. apply stable_imp. intros s s' Hr Hs m. by eapply stable_above, Hs.
    - intros l d g r d' Hi Ha [[[e ->] ->]|[= <- <-]]%or_fault_inv; (split; [done|]); (split; [done|]); [done|].
      intros [= Hn] m. split; [done|]. intros p y Hp.
      assert (Hnone : dk_names d !! base = None).
      { unfold stat_of in Hn. destruct (dk_names d !! base) as [i|] eqn:Hb; [|done]. cbn in Hn.
        destruct (inv_files _ _ _ Hi _ _ _ (list_elem_of_here _ _) Hb) as [f Hf]. by rewrite Hf in Hn. }
      pose proof (inv_versions _ _ _ Hi None (bases_now _ _ _ Hnone)) as Hg. cbn in Hg. cbn in Hp. by rewrite Hg in Hp. }
  assert (Hend : forall (r : result (option FileInfo)) e, safe (fun r => tok (tok_result (@any Manifest) r)) (mret (Err e))
    (fun s => Alone base me L s /\ (r = Ok None -> forall m, Above base me L m s))).
  { intros r e. apply safe_ret; [|done]. apply stable_both; [auto with stab|]. apply stable_imp.
    intros s s' Hr Hs m. by eapply stable_above, Hs. }
  intros [[info|]|e]; [apply Hend| |apply Hend].
  unfold and_then at 1, random_id. cbn [mbind io_bind mret io_ret].
  destruct (randomID random) as [id|e] eqn:Hid; [|apply Hend].
  set (m := create_manifest identity id now).
  eapply safe_mono; [apply (write_safe base Hbase me L m m m any None)| |by intros s [_ Hs]; apply Hs|done];
    [by eapply create_writable|done|done|done|].
  apply stable_both; [auto with stab|]. apply stable_imp. intros s s' Hr Hs m'. by eapply stable_above, Hs.
Qed.

Lemma Open_safe path identity : allowed base (ROpen path identity) ->
  safe (fun r => tok (tok_result any r)) (Open path identity) (tok none).
Proof.
  cbn [allowed]. intros Hst. unfold Open. destruct (newState path identity) as [st|e]; [|by apply safe_ret; [auto with stab|]].
  rewrite (Hst st eq_refl). apply (safe_then base me _ _ _ (tok none)); [|done|].
  - eapply (safe_bind base me (fun _ => tok none)); [apply safe_glance; [auto with stab|]|].
    + intros l d x d' [[_ ->]|[= _ ->]]%or_fault_inv; done.
    + intros r. by apply safe_ret; [auto with stab|].
  - intros there. destruct (negb there); [by apply safe_ret; [auto with stab|]|].
    unfold and_then. eapply safe_bind; [apply reading_safe; by apply Hst|].
    intros [m|e]; by apply safe_ret; [auto with stab|].
Qed.

Lemma serve_safe r : allowed base r ->
  safe (fun a => tok (fun t => forall y, issued_by a = Some y -> t = Some y)) (serve r) (tok none).
Proof.
  destruct r as [path identity random now|path identity|s|s w now|s w i now|s now|s targets now]; intros Ha; cbn [serve].
  - apply (serve_bind _ _ any); [by apply Create_safe|done].
  - apply (serve_bind _ _ any); [by apply Open_safe|done].
  - apply (serve_bind _ _ any); [|done]. unfold Manifest_of. rewrite Ha. by apply reading_safe.
  - destruct Ha as [Hst Hit]. apply (serve_bind _ _ (fun k t => t = Some (w, k))).
    + apply update_safe; [done..|apply reserve_change_ok|]. intros raw m. by apply verified_writable.
    + intros [k|e] t y; cbn; [|done]. by intros -> [= <-].
  - destruct Ha as (Hst & Hit & Hi). apply (serve_bind _ _ any); [|done].
    apply update_safe; [done..|by apply skip_change_ok|]. intros raw m. by apply verified_writable.
  - destruct Ha as [Hst Hit]. apply (serve_bind _ _ any); [|done].
    apply update_safe; [done..|apply clear_change_ok|]. intros raw m. by apply verified_writable.
  - destruct Ha as [Hst Hit]. apply (serve_bind _ _ any); [|done].
    apply update_safe; [done..|apply raise_change_ok|]. intros raw m. by apply verified_writable.
Qed.
End serving.

(** * Every run of the machine *)

Section machine.
Context (base : string) (Hbase : HasPrefix base temp_prefix = false).

(** A directory on which nothing is under way, of which nothing waits to be written. *)
Record quiet (d : disk) : Prop := {
  qt_dir : dk_dir d <> None;
  qt_kept : dk_kept d = true;
  qt_past : dk_past d = [];
  qt_locks : dk_locks d = [];
  qt_file : forall i, dk_names d !! base = Some i -> exists f, dk_inodes d !! i = Some f /\ in_synced f = true;
  qt_apart : forall i, dk_names d !! lock_name base = Some i -> dk_names d !! base <> Some i;
  qt_files : forall n i, dk_names d !! n = Some i -> is_Some (dk_inodes d !! i)
}.

Lemma inv_quiet d : quiet d -> Inv base d ∅.
Proof.
  intros [Hd Hk Hp Hl Hf Ha Hfs].
  assert (Hb : forall x, bases base d x -> dk_names d !! base = x).
  { intros x (v & Hv & Hx). rewrite Hp in Hv. by apply list_elem_of_singleton in Hv as ->. }
  split; try done.
  - intros [i|] Hx%Hb; [|done]. destruct (Hf i Hx) as (f & ? & ?). by exists f.
  - intros p i b. rewrite Hl. by intros ?%elem_of_nil.
  - intros p q i j b. rewrite Hl. by intros ?%elem_of_nil.
  - intros v i. rewrite Hp. by intros ?%elem_of_nil.
  - intros i Hi Hx%Hb. by eapply Ha.
  - intros v n i. rewrite Hp. intros ->%list_elem_of_singleton. apply Hfs.
Qed.

Lemma inv_crash d d' g : Inv base d g -> crash d d' -> Inv base d' g.
Proof.
  intros Hi [Hd Hf (Hp & Hl & Hk)]. destruct Hd as [[Hd Hn]|[Hk' _]]; [|by rewrite (inv_kept _ _ _ Hi) in Hk'].
  assert (Hb : forall x, bases base d' x -> bases base d x).
  { intros x (v & Hv & <-). rewrite Hp in Hv. apply list_elem_of_singleton in Hv as ->.
    destruct (Hn base) as (v & Hv & ->). by exists v. }
  assert (Hlock : forall i, dk_names d' !! lock_name base = Some i -> dk_names d !! lock_name base = Some i).
  { intros i Hx. destruct (Hn (lock_name base)) as (v & [-> | Hv]%elem_of_cons & He); rewrite He in Hx; [done|].
    by eapply (inv_same _ _ _ Hi). }
  pose proof Hi as []. split; try done; try (rewrite ?Hd, ?Hl, ?Hp; done).
  - intros x Hx%Hb. specialize (inv_versions x Hx). destruct x as [i|]; [|done].
    destruct inv_versions as (f & Hfi & Hs & Hc). specialize (Hf i). rewrite Hfi in Hf.
    destruct (dk_inodes d' !! i) as [b|] eqn:Hb'; [|by inversion Hf].
    assert (Hsv : survives f b) by (by inversion Hf). destruct Hsv as (_ & _ & _ & Hsame).
    rewrite (Hsame Hs) in Hb'. by exists f.
  - rewrite Hl. by intros p i b ?%elem_of_nil.
  - rewrite Hl. by intros p q i j b ?%elem_of_nil.
  - rewrite Hp. by intros v i ?%elem_of_nil.
  - intros i Hi' Hx%Hb. by eapply inv_apart; [apply Hlock|].
  - intros v n i Hv Hx. rewrite Hp in Hv. apply list_elem_of_singleton in Hv as ->.
    destruct (Hn n) as (v & Hv & He). rewrite He in Hx. destruct (inv_files v n i Hv Hx) as [f Hfi].
    specialize (Hf i). rewrite Hfi in Hf. inversion Hf; subst. by eexists.
Qed.

Definition starts (p : io answer) : Prop := exists r, allowed base r /\ p = serve r.

Definition done_with (a : answer) (p : nat) (s : world) : Prop := forall y, issued_by a = Some y -> s.2 !! p = Some y.

(** Every process is safe from where it is; those that ended were issued what they
    returned. *)
Record running (m : machine answer) (g : tokens) : Prop := {
  run_inv : Inv base (mc_disk m) g;
  run_procs : forall p prog, mc_procs m !! p = Some prog -> (p < mc_next m)%nat /\
    exists P, safe base p (fun a s => done_with a p s) prog P /\ P (mc_disk m, g);
  run_log : forall p a, (p, a) ∈ mc_log m -> (p < mc_next m)%nat /\ mc_procs m !! p = None /\ done_with a p (mc_disk m, g);
  run_once : NoDup (mc_log m).*1;
  run_tokens : forall p, (mc_next m <= p)%nat -> g !! p = None
}.

Lemma procs_insert (procs : gmap nat (io answer)) me prog p q :
  <[me := prog]> procs !! p = Some q -> p = me /\ q = prog \/ p <> me /\ procs !! p = Some q.
Proof.
  destruct (decide (me = p)) as [->|Hne]; [rewrite lookup_insert_eq; intros [= <-]; by left|].
  rewrite lookup_insert_ne by done. by right.
Qed.

Lemma running_step m m' g : running m g -> step starts m m' -> exists g', running m' g'.
Proof.
  intros [Hi Hp Hl Ho Ht] Hs. destruct Hs as [p d procs next log (r & Ha & ->)
    |X me f k l x d d' procs next log Hme Hf|me r d procs next log Hme|me d procs next log|d d' procs next log Hc]; cbn in *.
  - exists g. split; cbn; [done| | |done|].
    + intros p q [[-> ->]|[_ Hq]]%procs_insert.
      * split; [lia|]. exists (tok next none). split; [by apply (serve_safe base Hbase next r)|by apply Ht].
      * destruct (Hp p q Hq) as [? ?]. split; [lia|done].
    + intros p a Hin. destruct (Hl p a Hin) as (? & ? & ?). split_and!; [lia| |done].
      rewrite lookup_insert_ne by lia. done.
    + intros p Hle. apply Ht. lia.
  - destruct (Hp me _ Hme) as [Hlt (P & [_ (P' & HP' & Hk)] & HP)].
    destruct (HP' l d g x d' Hi HP Hf) as (g' & Hi' & Hg & Hx). exists g'. split; cbn; [done| | |done|].
    + intros p q [[-> ->]|[Hne Hq]]%procs_insert; [split; [done|]; by exists (P' x)|].
      destruct (Hp p q Hq) as [? (R & Hs & HR)]. split; [done|]. exists R. split; [done|].
      eapply safe_keeps; [exact Hs|by apply Hg|done].
    + intros p a Hin. destruct (Hl p a Hin) as (? & Hnone & Hd). assert (p <> me) by congruence.
      split_and!; [done|by rewrite lookup_insert_ne|]. intros y Hy.
      pose proof (rely_token _ _ _ _ (Hg p ltac:(done))) as Hsame. cbn in Hsame |- *. rewrite Hsame. by apply Hd.
    + intros p Hle. rewrite <- (Ht p Hle). apply (rely_token _ _ _ _ (Hg p ltac:(lia))).
  - destruct (Hp me _ Hme) as [Hlt (P & [_ HQ] & HP)]. exists g. split; cbn; [done| | | |done].
    + intros p q [_ Hq]%lookup_delete_Some. by apply Hp.
    + intros p a [[= -> ->]|Hin]%elem_of_cons.
      * split_and!; [done|by rewrite lookup_delete_eq|by apply HQ].
      * destruct (Hl p a Hin) as (? & Hn & ?). split_and!; [done| |done]. rewrite lookup_delete_None. by right.
    + constructor; [|done]. intros (b & -> & Hin)%list_elem_of_fmap. destruct b as [p b]. cbn in *.
      destruct (Hl p b Hin) as (_ & Hn & _). congruence.
  - assert (Hsub : forall q i b, (q, i, b) ∈ List.filter (fun '(q, _, _) => negb (Nat.eqb q me)) (dk_locks d) <->
      (q, i, b) ∈ dk_locks d /\ q <> me).
    { intros q i b. rewrite !list_elem_of_In, filter_In, negb_true_iff, Nat.eqb_neq. done. }
    exists g. split; cbn; [| | |done|done].
    + apply inv_set_locks; [done|..].
      * intros q i b [Hin _]%Hsub. by eapply inv_lock.
      * intros q q' i j b [Hin _]%Hsub [Hin' _]%Hsub. by eapply inv_alone.
    + intros p q [Hne Hq]%lookup_delete_Some. destruct (Hp p q Hq) as [? (R & Hs & HR)]. split; [done|].
      exists R. split; [done|]. eapply safe_keeps; [exact Hs| |exact HR].
      split; cbn; try done. intros i b Hin. apply Hsub. by split.
    + intros p a Hin. destruct (Hl p a Hin) as (? & Hn & ?). split_and!; [done| |done].
      rewrite lookup_delete_None. by right.
  - exists g. split; cbn; [by eapply inv_crash| | |done|done]; [by intros p q; rewrite lookup_empty|].
    intros p a Hin. destruct (Hl p a Hin) as (? & _ & ?). by rewrite lookup_empty.
Qed.

Lemma reachable_running d m : quiet d -> reachable starts d m -> exists g, running m g.
Proof.
  intros Hq. induction 1 as [|m m' _ [g Hg] Hs]; [|by eapply running_step].
  exists ∅. split; cbn; [by apply inv_quiet|by intros p q; rewrite lookup_empty|by intros p a ?%elem_of_nil|constructor|].
  intros p _. apply lookup_empty.
Qed.

(** What is in the manifest's file. *)
Definition content (d : disk) : option bytes := i ← dk_names d !! base; f ← dk_inodes d !! i; Some (in_data f).

(** C3: on a durable directory on which nothing is under way, whose manifest is not
    named as a temporary file, whatever processes use the ledger, in whatever order
    their system calls are made and fail, with processes killed and the machine
    crashing at any point: no two calls of [ReserveAddressIndex] return the same index of a
    wallet; and when one has returned an index, the manifest is there and on the disk,
    so that after any crash what is read of it has its mark above the index. *)
Theorem reserved_once_across_crashes d m : quiet d -> reachable starts d m ->
  NoDup (omap (fun l => issued_by l.2) (mc_log m)) /\
  forall d' x, d' = mc_disk m \/ crash (mc_disk m) d' -> x ∈ omap (fun l => issued_by l.2) (mc_log m) ->
    exists raw, content d' = Some raw /\ forall man, decode (limited raw) = Ok man -> below man x.
Proof.
  intros Hq Hr. destruct (reachable_running d m Hq Hr) as [g [Hi _ Hl Ho _]].
  assert (Htok : forall x, x ∈ omap (fun l => issued_by l.2) (mc_log m) -> exists p, g !! p = Some x /\
    p ∈ (mc_log m).*1).
  { intros x ([p a] & Hin & Hx)%list_elem_of_omap. exists p. split; [by apply (Hl p a Hin)|].
    apply list_elem_of_fmap. by exists (p, a). }
  split.
  - revert Hl Ho. clear Hr Hq Htok. induction (mc_log m) as [|[p a] log IH]; intros Hl Ho; [constructor|].
    apply NoDup_cons in Ho as [Hp Ho]. specialize (IH (fun q b Hin => Hl q b (list_elem_of_further _ _ _ Hin)) Ho).
    cbn [omap list_omap snd]. destruct (issued_by a) as [x|] eqn:Hx; [|done]. constructor; [|done].
    intros ([q b] & Hin & Hy)%list_elem_of_omap. apply Hp. apply list_elem_of_fmap. exists (q, b). split; [|done].
    cbn. eapply (inv_once _ _ _ Hi p q x); [by apply (Hl p a (list_elem_of_here _ _))|].
    by apply (Hl q b (list_elem_of_further _ _ _ Hin)).
  - intros d' x Hd' Hx. destruct (Htok x Hx) as (p & Hp & _).
    assert (Hi' : Inv base d' g) by (destruct Hd' as [-> | Hc]; [done|by eapply inv_crash]).
    pose proof (inv_versions _ _ _ Hi' _ (bases_now _ _ _ eq_refl)) as Hv. unfold content.
    destruct (dk_names d' !! base) as [i|]; cbn in Hv |- *; [|by rewrite Hv in Hp].
    destruct Hv as (f & -> & _ & Hc). exists (in_data f). split; [done|]. intros man Hd. by eapply Hc.
Qed.
End machine.

(** * Schedules *)

(** A loss of power at its worst: every name is as it was when the directory was last
    synced, every file that was not synced is empty, and a directory that was just
    made is gone. *)
Definition lost_inode (f : inode) : inode :=
  if in_synced f then f
  else {| in_kind := in_kind f; in_perm := in_perm f; in_data := []; in_synced := true; in_maker := in_maker f |}.

Definition lose_power (d : disk) : disk :=
  {| dk_dir := if dk_kept d then dk_dir d else None; dk_kept := true;
     dk_names := if dk_kept d then default (dk_names d) (last (dk_past d)) else ∅; dk_past := [];
     dk_inodes := lost_inode <$> dk_inodes d; dk_locks := [] |}.

Lemma lose_power_crash d : crash d (lose_power d).
Proof.
  split; [| |done].
  - cbn. destruct (dk_kept d) eqn:Hk; [left|by right]. split; [done|]. intros n.
    destruct (last (dk_past d)) as [v|] eqn:Hv; cbn; [|by exists (dk_names d); split; [left|]].
    exists v. split; [|done]. right. apply last_Some in Hv as [l ->]. apply elem_of_app. right. by left.
  - intros i. cbn. rewrite lookup_fmap. destruct (dk_inodes d !! i) as [f|]; constructor.
    unfold survives, lost_inode. destruct (in_synced f) eqn:Hs; by split_and!.
Qed.

Inductive event : Type :=
  | Arrives (r : request)
  | Turn (p : nat) (l : luck)
  | Killed (p : nat)
  | PowerLoss.

(** What happens next; a process whose call blocks waits. *)
Definition happen (e : event) (m : machine answer) : machine answer :=
  let '{| mc_disk := d; mc_procs := procs; mc_next := next; mc_log := log |} := m in
  match e with
  | Arrives r => {| mc_disk := d; mc_procs := <[next := serve r]> procs; mc_next := S next; mc_log := log |}
  | Turn p l =>
      match procs !! p with
      | None => m
      | Some (Ret a) => {| mc_disk := d; mc_procs := delete p procs; mc_next := next; mc_log := (p, a) :: log |}
      | Some (Sys f k) =>
          match f p l d with
          | None => m
          | Some (x, d') => {| mc_disk := d'; mc_procs := <[p := k x]> procs; mc_next := next; mc_log := log |}
          end
      end
  | Killed p =>
      {| mc_disk := set_locks (List.filter (fun '(q, _, _) => negb (Nat.eqb q p)) (dk_locks d)) d;
         mc_procs := delete p procs; mc_next := next; mc_log := log |}
  | PowerLoss => {| mc_disk := lose_power d; mc_procs := ∅; mc_next := next; mc_log := log |}
  end.

Definition run_events (l : list event) (d : disk) : machine answer := foldl (fun m e => happen e m) (boot d) l.

Definition event_allowed (base : string) (e : event) : Prop :=
  match e with Arrives r => allowed base r | _ => True end.

Lemma happen_reachable base d m e : event_allowed base e -> reachable (starts base) d m ->
  reachable (starts base) d (happen e m).
Proof.
  intros He Hm. destruct m as [d0 procs next log]. destruct e as [r|p l|p|]; cbn [happen].
  - eapply reachable_step; [exact Hm|]. constructor. by exists r.
  - destruct (procs !! p) as [[a|X f k]|] eqn:Hp; [|destruct (f p l d0) as [[x d']|] eqn:Hf|done]; [| |done].
    + eapply reachable_step; [exact Hm|]. by constructor.
    + eapply reachable_step; [exact Hm|]. by econstructor.
  - eapply reachable_step; [exact Hm|]. constructor.
  - eapply reachable_step; [exact Hm|]. constructor. apply lose_power_crash.
Qed.

Lemma run_events_reachable base d l : Forall (event_allowed base) l -> reachable (starts base) d (run_events l d).
Proof.
  intros Hl. assert (Hb : reachable (starts base) d (boot d)) by constructor. revert Hb.
  unfold run_events. generalize (boot (R := answer) d). induction Hl as [|e l He Hl IH]; intros m Hm; [done|]. cbn [foldl]. apply IH.
  by apply happen_reachable.
Qed.

(** The indices in the log, the last first. *)
Definition handed_out (m : machine answer) : list (string * Z) := omap (fun l => issued_by l.2) (mc_log m).

(** ** A schedule *)

Definition turns (p n : nat) : list event := repeat (Turn p good) n.
Definition both (p q n : nat) : list event := concat (repeat [Turn p good; Turn q good] n).
Definition demo_create : request := RCreate demo_path demo_expected (Ok (of_bytes (repeat "a"%char 32))) 1000.
Definition demo_reserve (now : time) : request := RReserve demo_state "hot" now.

(** After the first start, two reservations run side by side; a third is killed after
    its rename, the power fails, and a fourth runs. *)
Definition demo_schedule : list event :=
  Arrives demo_create :: turns 0 40
  ++ [Arrives (demo_reserve 1001); Arrives (demo_reserve 1002)] ++ both 1 2 50
  ++ Arrives (demo_reserve 1003) :: turns 3 16 ++ Killed 3 :: PowerLoss
  :: Arrives (demo_reserve 1004) :: turns 4 40.

Example demo_handed_out : handed_out (run_events demo_schedule empty_disk) = [("hot", 2); ("hot", 1); ("hot", 0)]%string.
Proof. vm_compute. reflexivity. Qed.

Lemma empty_disk_quiet base : quiet base empty_disk.
Proof. split; cbn; try done. Qed.

Lemma demo_create_allowed : allowed demo_base demo_create.
Proof.
  split; [|by intros s [= <-]]. split; [vm_compute; reflexivity|]. repeat constructor; width; cbn; lia.
Qed.

Lemma demo_reserve_allowed now : allowed demo_base (demo_reserve now).
Proof.
  split; [done|]. split; [vm_compute; reflexivity|]. repeat constructor; width; cbn; lia.
Qed.

Lemma turns_allowed base p n : Forall (event_allowed base) (turns p n).
Proof. induction n; by constructor. Qed.

Lemma both_allowed base p q n : Forall (event_allowed base) (both p q n).
Proof. induction n; [constructor|]. by do 2 constructor. Qed.

Ltac allow_events :=
  repeat first [apply turns_allowed | apply both_allowed | apply Forall_cons; split | apply Forall_app; split
    | apply demo_create_allowed | apply demo_reserve_allowed | exact I | constructor].

Lemma demo_requests_allowed : Forall (event_allowed demo_base) demo_schedule.
Proof. unfold demo_schedule. allow_events. Qed.

Lemma reserved_once_across_crashes_witness : NoDup (handed_out (run_events demo_schedule empty_disk)).
Proof.
  apply (reserved_once_across_crashes demo_base eq_refl empty_disk).
  - apply empty_disk_quiet.
  - apply run_events_reachable, demo_requests_allowed.
Defined.

(** ** A directory that was just made *)

(** [prepareDirectory] makes the directory durable in no way: it is not synced into
    its parent.  A loss of power after a first start and a reservation can take it
    away whole, and a second first start hands the same index out again. *)
Definition nowhere : disk :=
  {| dk_dir := None; dk_kept := false; dk_names := ∅; dk_past := []; dk_inodes := ∅; dk_locks := [] |}.

Definition lost_schedule : list event :=
  Arrives demo_create :: turns 0 40 ++ Arrives (demo_reserve 1001) :: turns 1 40 ++ PowerLoss
  :: Arrives demo_create :: turns 2 40 ++ Arrives (demo_reserve 1002) :: turns 3 40.

Lemma fresh_directory_can_be_lost : exists m, reachable (starts demo_base) nowhere m /\ ~ NoDup (handed_out m).
Proof.
  exists (run_events lost_schedule nowhere). split.
  - apply run_events_reachable. unfold lost_schedule. allow_events.
  - assert (H : handed_out (run_events lost_schedule nowhere) = [("hot", 0); ("hot", 0)]%string) by (vm_compute; reflexivity).
    rewrite H. intros [Hn _]%NoDup_cons. apply Hn. left.
Qed.
