(* ===== verification/Ledgerrefine.v ===== *)
(** The operations of [Ledgerfile.v], run to their end by a process that no other
    disturbs, do what [Installation.v] says of them: whatever fails, the outcome is
    that of some failure there, and when nothing fails it is that of the run without
    failures. *)
From S2P Require Import Prelude GoString GoTime Json Installation Encoding Filesystem Ledgerfile Ledgerlogic Ledgersafe Durability.

(** * Runs to the end *)

Section wp.
Context (ok : luck -> Prop) (me : nat).

(** Every run that meets such luck ends, with [Q]. *)
Fixpoint wp {A} (p : io A) (Q : A -> disk -> Prop) (d : disk) : Prop :=
  match p with
  | Ret a => Q a d
  | Sys f k => forall l, ok l -> exists x d', f me l d = Some (x, d') /\ wp (k x) Q d'
  end.

Lemma wp_exec {A} (p : io A) Q d luck_of n : (forall i, ok (luck_of i)) -> wp p Q d ->
  exists a d', exec me p luck_of n d = Some (a, d') /\ Q a d'.
Proof.
  intros Hl. revert n d. induction p as [a|X f k IH]; intros n d; cbn [wp exec]; [by exists a, d|].
  intros H. destruct (H _ (Hl n)) as (x & d' & Hf & Hk). rewrite Hf. by apply IH.
Qed.

Lemma wp_bind {A B} (p : io A) (k : A -> io B) Q d :
  wp p (fun a => wp (k a) Q) d -> wp (p ≫= k) Q d.
Proof.
  revert d. induction p as [a|X f h IH]; intros d; cbn; [done|].
  intros H l Hl. destruct (H l Hl) as (x & d' & ? & ?). exists x, d'. split; [done|]. by apply IH.
Qed.

Lemma wp_mono {A} (p : io A) (Q Q' : A -> disk -> Prop) d : (forall a d, Q a d -> Q' a d) -> wp p Q d -> wp p Q' d.
Proof.
  intros HQ. revert d. induction p as [a|X f h IH]; intros d; cbn; [by apply HQ|].
  intros H l Hl. destruct (H l Hl) as (x & d' & ? & ?). exists x, d'. split; [done|]. by apply IH.
Qed.

Lemma wp_call {X} (f : sys X) Q d :
  (forall l, ok l -> exists x d', f me l d = Some (x, d') /\ Q x d') -> wp (call f) Q d.
Proof. done. Qed.

(** The error of a step ends the program. *)
Lemma wp_then {A B} (p : io (result A)) (k : A -> io (result B)) Q d :
  wp p (fun r d' => match r with Ok a => wp (k a) Q d' | Err e => Q (Err e) d' end) d -> wp (and_then p k) Q d.
Proof. intros H. unfold and_then. apply wp_bind. eapply wp_mono; [|exact H]. by intros [a|e] d'. Qed.

Lemma wp_failing {A} msg (f : sys (result A)) Q d :
  wp (call f) (fun r => Q (map_err (Wrap msg) r)) d -> wp (failing msg f) Q d.
Proof. intros H. unfold failing. apply wp_bind. exact H. Qed.
End wp.

(** * The model *)

(** The operations of [Installation.v], with those that may have nothing to write. *)
Definition update_opt {A} (fs : fs_run) (identity : Identity) (change : Manifest -> result (A * option Manifest))
    (file : option Manifest) : result A * option Manifest :=
  Installation.withLock fs (fun file =>
    match (m ← Installation.readAndVerify fs identity file; change m) with
    | Err e => (Err e, file)
    | Ok (a, None) => (Ok a, file)
    | Ok (a, Some m') =>
        match Installation.writeAtomic fs m' file with
        | (Ok _, file') => (Ok a, file')
        | (Err e, file') => (Err e, file')
        end
    end) file.

(** The manifest that a directory holds. *)
Definition ledger (base : string) (d : disk) : option Manifest :=
  raw ← content base d; match decode (limited raw) with Ok m => Some m | Err _ => None end.

Definition readable (base : string) (d : disk) : Prop :=
  forall raw, content base d = Some raw -> exists m, decode (limited raw) = Ok m.

(** It has a text, and one that is read back. *)
Definition fits (m : Manifest) : Prop := exists raw, encode m = Ok raw /\ Z.of_nat (length raw) <= size_limit + 1.

(** * One process *)

Section alone.
Context (base : string) (Hbase : HasPrefix base temp_prefix = false) (Hlock : HasPrefix (lock_name base) temp_prefix = false).
Context (me : nat).

(** [clean]: nothing fails, and the random names are not taken. *)
Context (clean : Prop) (free : string -> Prop).

Definition lucky (l : luck) : Prop := clean -> fault l = None /\ free (random_name l).

Notation wp := (wp lucky me).
Notation lock := (lock_name base).

(** A directory that [me] has for itself; when nothing is to fail, with modes that
    pass the checks.  [tmp]: the name of the temporary file there is now. *)
Record ours (tmp : option string) (d : disk) : Prop := {
  our_locks : forall q i b, (q, i, b) ∈ dk_locks d -> q = me;
  our_files : forall n i, dk_names d !! n = Some i -> is_Some (dk_inodes d !! i);
  our_apart : forall i, dk_names d !! lock = Some i -> dk_names d !! base <> Some i;
  our_dir : clean -> exists perm, dk_dir d = Some (Directory, perm) /\ Z.land perm 18 = 0;
  our_manifest : clean -> forall i f, dk_names d !! base = Some i -> dk_inodes d !! i = Some f ->
    in_kind f = Regular /\ Z.land (in_perm f) 63 = 0;
  our_lock_file : clean -> forall i f, dk_names d !! lock = Some i -> dk_inodes d !! i = Some f -> in_kind f = Regular;
  our_names : clean -> forall r, free r -> tmp <> Some (temp_prefix +:+ r) -> dk_names d !! (temp_prefix +:+ r) = None
}.

Definition same (tmp : option string) (d d' : disk) : Prop := ours tmp d' /\ content base d' = content base d.

Lemma same_refl tmp d : ours tmp d -> same tmp d d.
Proof. by split. Qed.

Lemma same_trans tmp tmp' d d' d'' : same tmp d d' -> same tmp' d' d'' -> same tmp' d d''.
Proof. intros [_ H] [? H']. split; [done|congruence]. Qed.

(** ** Calls *)

Lemma wp_fault {X} (f : sys (result X)) (K : luck -> result X * disk) Q d :
  (forall l, f me l d = or_fault l d (K l)) -> (forall l, lucky l -> Q (K l).1 (K l).2) ->
  (forall e, ~ clean -> Q (Err e) d) -> wp (call f) Q d.
Proof.
  intros Hf HK He. apply wp_call. intros l Hl. rewrite Hf. unfold or_fault. destruct (fault l) as [msg|] eqn:Hfl.
  - eexists _, _. split; [done|]. apply He. intros H. destruct (Hl H). congruence.
  - specialize (HK l Hl). destruct (K l) as [r d']. by eexists _, _.
Qed.

Lemma content_set_inode i f d : dk_names d !! base <> Some i -> content base (set_inode i f d) = content base d.
Proof.
  intros Hb. unfold content. cbn. destruct (dk_names d !! base) as [j|]; [|done]. cbn.
  by rewrite lookup_insert_ne by congruence.
Qed.

Lemma ours_set_inode tmp i f f' d : ours tmp d -> dk_inodes d !! i = Some f -> in_kind f' = in_kind f ->
  dk_names d !! base <> Some i -> ours tmp (set_inode i f' d).
Proof.
  intros [] Hf Hk Hb. split; cbn; try done.
  - intros n j Hn. destruct (decide (i = j)) as [->|]; [by rewrite lookup_insert_eq|]. rewrite lookup_insert_ne by done. eauto.
  - intros Hc j h Hj. rewrite lookup_insert_ne by congruence. eauto.
  - intros Hc j h Hj. destruct (decide (i = j)) as [->|].
    + rewrite lookup_insert_eq. intros [= <-]. rewrite Hk. eauto.
    + rewrite lookup_insert_ne by done. eauto.
Qed.

Lemma same_set_inode tmp i f f' d : ours tmp d -> dk_inodes d !! i = Some f -> in_kind f' = in_kind f ->
  dk_names d !! base <> Some i -> same tmp d (set_inode i f' d).
Proof. intros. split; [by eapply ours_set_inode|by apply content_set_inode]. Qed.

Lemma same_release tmp i d : ours tmp d -> same tmp d (release me i d).
Proof.
  intros []. split; [|done]. split; cbn; try done. intros q j b [Hin _]%elem_of_release. by eapply our_locks0.
Qed.

(** A new file, not the manifest's. *)
Lemma same_make tmp tmp' name perm d : ours tmp d -> name <> base -> dk_names d !! name = None ->
  (clean -> forall r, free r -> tmp' <> Some (temp_prefix +:+ r) ->
     name <> temp_prefix +:+ r /\ tmp <> Some (temp_prefix +:+ r)) ->
  same tmp' d (make name perm me d).2.
Proof.
  intros [] Hb Hn Hp. pose proof (new_inode_fresh d) as Hfresh.
  assert (Hother : forall n i, dk_names d !! n = Some i -> i <> new_inode d).
  { intros n i Hi ->. destruct (our_files0 _ _ Hi). congruence. }
  split.
  - split; cbn [make snd set_names set_inode dk_dir dk_names dk_inodes dk_locks]; try done.
    + intros n i. destruct (decide (name = n)) as [->|].
      * rewrite lookup_insert_eq. intros [= <-]. by rewrite lookup_insert_eq.
      * rewrite lookup_insert_ne by done. intros Hi. rewrite lookup_insert_ne; [by eauto|]. intros <-. by eapply Hother.
    + intros i Hl. rewrite lookup_insert_ne by done. destruct (decide (name = lock)) as [->|].
      * rewrite lookup_insert_eq in Hl. injection Hl as <-. intros H. by eapply Hother.
      * rewrite lookup_insert_ne in Hl by done. by apply our_apart0.
    + intros Hc i f. rewrite lookup_insert_ne by done. intros Hi. rewrite lookup_insert_ne; [by eauto|]. intros <-. by eapply Hother.
    + intros Hc i f. destruct (decide (name = lock)) as [->|].
      * rewrite lookup_insert_eq. intros [= <-]. rewrite lookup_insert_eq. by intros [= <-].
      * rewrite lookup_insert_ne by done. intros Hi. rewrite lookup_insert_ne; [by eauto|]. intros <-. by eapply Hother.
    + intros Hc r Hr Ht. destruct (Hp Hc r Hr Ht). rewrite lookup_insert_ne by done. by apply our_names0.
  - unfold content. cbn. rewrite lookup_insert_ne by done. destruct (dk_names d !! base) as [i|] eqn:Hi; [|done]. cbn.
    rewrite lookup_insert_ne; [done|]. intros <-. by eapply Hother.
Qed.

(** ** The directory and the lock *)

Lemma validateDirectory_wp tmp Q d : ours tmp d -> (forall r, (clean -> r = Ok tt) -> Q r d) -> wp validateDirectory Q d.
Proof.
  intros Ho HQ. unfold validateDirectory. apply wp_bind.
  eapply (wp_fault _ (fun _ => (Ok (dk_dir d), d))); [done| |].
  - intros l _. cbn. apply HQ. intros Hc. destruct (our_dir _ _ Ho Hc) as (perm & -> & Hp). cbn. by rewrite Hp.
  - intros e Hn. cbn. apply HQ. by intros Hc.
Qed.

(** The lock file is there before, or is made. *)
Lemma open_lock_wp Q d : ours None d ->
  (forall L d', same None d d' -> dk_names d' !! lock = Some L ->
     (forall b, stat_of lock d = Some b -> fi_inode b = L) -> Q (Ok L) d') ->
  (forall e, ~ clean -> Q (Err e) d) -> wp (call (open_create lock 384)) Q d.
Proof.
  intros Ho HQ He. eapply (wp_fault _ (fun l => match dk_dir d, dk_names d !! lock with
    | None, _ => errno "no such file or directory" d
    | Some _, None => let '(i, d') := make lock (Z.land 384 (Z.lnot (umask l))) me d in (Ok i, d')
    | Some _, Some i =>
        match in_kind <$> dk_inodes d !! i with
        | Some Symlink => errno "too many levels of symbolic links" d
        | Some Directory => errno "is a directory" d
        | None => errno "input/output error" d
        | Some _ => (Ok i, d)
        end
    end)); [done| |done].
  intros l _. destruct (dk_dir d) as [dir|] eqn:Hdir.
  2: { apply He. intros Hc. destruct (our_dir _ _ Ho Hc) as (perm & Hd & _). congruence. }
  destruct (dk_names d !! lock) as [L|] eqn:HL.
  - destruct (our_files _ _ Ho _ _ HL) as [f Hf]. rewrite Hf. cbn [fmap option_fmap option_map].
    assert (HOk : Q (Ok L) d).
    { apply HQ; [by apply same_refl|done|]. intros b. unfold stat_of. rewrite HL. cbn. rewrite Hf. by intros [= <-]. }
    destruct (in_kind f) eqn:Hk; cbn [fst snd]; try done; apply He; intros Hc;
      pose proof (our_lock_file _ _ Ho Hc _ _ HL Hf); congruence.
  - pose proof (same_make None None lock (Z.land 384 (Z.lnot (umask l))) d Ho (lock_name_ne base) HL) as Hs.
    destruct (make lock _ me d) as [i d'] eqn:Hm. cbn [fst snd] in *. apply HQ.
    + apply Hs. intros Hc r Hr _. split; [|done]. intros Heq. rewrite Heq, HasPrefix_app in Hlock. done.
    + injection Hm as <- <-. cbn. by rewrite lookup_insert_eq.
    + intros b. unfold stat_of. by rewrite HL.
Qed.

(** The section runs on a directory that looks the same, and what it ends with lasts
    when the lock is let go. *)
Lemma locked_wp {A} exclusive L before (fn : io (result A)) Q d : ours None d -> dk_names d !! lock = Some L ->
  (forall b, before = Some b -> fi_inode b = L) ->
  (forall e d', ~ clean -> same None d d' -> Q (Err e) d') ->
  (forall r i d', Q r d' -> Q r (release me i d')) ->
  (forall d', same None d d' -> wp fn Q d') -> wp (locked exclusive L before fn) Q d.
Proof.
  intros Ho HL Hb He Hr Hfn. unfold locked. destruct (our_files _ _ Ho _ _ HL) as [f Hf].
  assert (Hapart : dk_names d !! base <> Some L) by by apply (our_apart _ _ Ho).
  apply wp_then, wp_failing. eapply (wp_fault _ (fun _ => (Ok (info_of L f), d))).
  { intros l. unfold fstat, on_file. by rewrite Hf. }
  2: { intros e Hn. apply He; [done|by apply same_refl]. }
  intros l _. cbn [fst snd map_err].
  destruct (negb (bool_decide (fi_kind (info_of L f) = Regular)) || _) eqn:Hbad.
  { apply He; [|by apply same_refl]. intros Hc. cbn in Hbad.
    rewrite bool_decide_true in Hbad by (by apply (our_lock_file _ _ Ho Hc L f)). cbn in Hbad.
    destruct before as [b|]; [|done]. by rewrite (Hb b eq_refl), Nat.eqb_refl in Hbad. }
  clear Hbad l. apply wp_then, wp_failing.
  set (f' := {| in_kind := in_kind f; in_perm := 384; in_data := in_data f; in_synced := false; in_maker := in_maker f |}).
  assert (Hs : same None d (set_inode L f' d)) by by eapply same_set_inode.
  eapply (wp_fault _ (fun _ => (Ok tt, set_inode L f' d))).
  { intros l. unfold fchmod, on_file. by rewrite Hf. }
  2: { intros e Hn. apply He; [done|by apply same_refl]. }
  intros l _. cbn [fst snd map_err]. clear l. apply wp_then, wp_failing, wp_call. intros l Hl. unfold flock.
  destruct (fault l) as [msg|] eqn:Hfl.
  { eexists _, _. split; [done|]. apply He; [|done]. intros Hc. destruct (Hl Hc). congruence. }
  assert (Hfree : conflicts me L exclusive (set_inode L f' d) = false).
  { unfold conflicts. apply not_true_iff_false. intros ([[q j] b] & Hin & Hx)%existsb_exists.
    apply list_elem_of_In in Hin. rewrite (our_locks _ _ Ho q j b Hin), Nat.eqb_refl in Hx. cbn in Hx.
    by rewrite andb_false_r in Hx. }
  rewrite Hfree. eexists _, _. split; [done|]. cbn [map_err]. apply wp_bind.
  eapply wp_mono; [|apply Hfn].
  2: { destruct Hs as [[] Hc]. split; [|done]. split; cbn; try done.
       intros q j b [[= -> _ _]|Hin]%elem_of_cons; [done|by eapply our_locks0]. }
  intros r d1 HQ. apply wp_bind.
  eapply (wp_fault _ (fun _ => (Ok tt, release me L d1))); [done| |by intros e _].
  intros l' _. by apply Hr.
Qed.

Lemma withLock_wp {A} exclusive (fn : io (result A)) Q d : ours None d ->
  (forall e d', ~ clean -> same None d d' -> Q (Err e) d') ->
  (forall r i d', Q r d' -> Q r (release me i d')) ->
  (forall d', same None d d' -> wp fn Q d') -> wp (withLock base exclusive fn) Q d.
Proof.
  intros Ho He Hr Hfn. unfold withLock. apply wp_then. eapply validateDirectory_wp; [done|].
  intros [[]|e] Hok; [|apply He; [|by apply same_refl]; by intros Hc; discriminate (Hok Hc)]. clear Hok.
  apply wp_bind. eapply (wp_fault _ (fun _ => (Ok (stat_of lock d), d))); [done| |].
  2: { intros e Hn. cbn. apply He; [done|by apply same_refl]. }
  intros l _. cbn [fst snd].
  destruct (match stat_of lock d with Some b => _ | None => _ end) eqn:Hbad.
  { apply He; [|by apply same_refl]. intros Hc. unfold stat_of in Hbad.
    destruct (dk_names d !! lock) as [i|] eqn:Hi; [|done]. cbn in Hbad.
    destruct (dk_inodes d !! i) as [f|] eqn:Hf; [|done]. cbn in Hbad.
    by rewrite bool_decide_true in Hbad by (by apply (our_lock_file _ _ Ho Hc i)). }
  clear Hbad l. apply wp_then, wp_failing. apply open_lock_wp; [done| |].
  2: { intros e Hn. apply He; [done|by apply same_refl]. }
  intros L d1 Hs HL Hb. cbn [map_err]. apply wp_bind.
  eapply wp_mono; [|eapply (locked_wp exclusive L (stat_of lock d) fn Q d1)]; [|by destruct Hs|done|done|..].
  - intros r d2 HQ. apply wp_bind, wp_call. intros l _. eexists _, _. split; [done|]. by apply Hr.
  - intros e d2 Hn Hs2. apply He; [done|by eapply same_trans].
  - done.
  - intros d2 Hs2. apply Hfn. by eapply same_trans.
Qed.

(** ** Reading *)

(** What reading makes of the manifest's file. *)
Definition reading (identity : Identity) (raw : option bytes) : result Manifest :=
  match raw with
  | None => Err missing_manifest
  | Some raw => manifest ← decode (limited raw); _ ← verifyManifest manifest identity; Ok manifest
  end.

Lemma readAndVerify_wp st Q d : st_base st = base -> ours None d ->
  (forall r d', same None d d' -> r = reading (st_identity st) (content base d) \/ ~ clean /\ is_ok r = false -> Q r d') ->
  wp (readAndVerify st) Q d.
Proof.
  intros Hst Ho HQ. unfold readAndVerify. rewrite Hst.
  assert (Herr : forall e, ~ clean -> Q (Err e) d) by (intros e Hn; apply HQ; [by apply same_refl|by right]).
  apply wp_bind. eapply (wp_fault _ (fun _ => (Ok (stat_of base d), d))); [done| |by intros e; apply Herr].
  intros l _. cbn [fst snd]. destruct (dk_names d !! base) as [i|] eqn:Hi.
  2: { unfold stat_of, content. rewrite Hi. apply HQ; [by apply same_refl|]. left. unfold content. by rewrite Hi. }
  destruct (our_files _ _ Ho _ _ Hi) as [f Hf].
  assert (Hstat : stat_of base d = Some (info_of i f)) by (unfold stat_of; rewrite Hi; cbn; by rewrite Hf).
  assert (Hcontent : content base d = Some (in_data f)) by (unfold content; rewrite Hi; cbn; by rewrite Hf).
  rewrite Hstat. cbn [info_of fi_kind fi_perm].
  destruct (bool_decide (in_kind f = Regular)) eqn:Hreg; cbn [negb].
  2: { apply Herr. intros Hc. apply bool_decide_eq_false in Hreg. by destruct (our_manifest _ _ Ho Hc _ _ Hi Hf). }
  destruct (Z.land (in_perm f) 63 =? 0) eqn:Hperm; cbn [negb].
  2: { apply Herr. intros Hc. destruct (our_manifest _ _ Ho Hc _ _ Hi Hf). lia. }
  apply bool_decide_eq_true in Hreg. apply wp_then, wp_failing.
  eapply (wp_fault _ (fun _ => (Ok i, d))); [| |by intros e; apply Herr].
  { intros l'. unfold open_file. rewrite Hstat. cbn. by rewrite Hreg. }
  intros l' _. cbn [fst snd map_err]. apply wp_bind, wp_failing.
  assert (Hclose : forall r, Q (raw ← r; manifest ← decode raw; _ ← verifyManifest manifest (st_identity st); Ok manifest)
    (release me i d) -> wp (_ ← call (close i);
      mret (raw ← r; manifest ← decode raw; _ ← verifyManifest manifest (st_identity st); Ok manifest)) Q d).
  { intros r Hr. apply wp_bind, wp_call. intros l2 _. by eexists _, _. }
  eapply (wp_fault _ (fun _ => (Ok (limited (in_data f)), d))).
  { intros l2. unfold read, on_file, limited. rewrite Hf. reflexivity. }
  - intros l2 _. cbn [fst snd map_err]. apply (Hclose (Ok (limited (in_data f)))).
    apply HQ; [by apply same_release|]. left. rewrite Hcontent. unfold reading.
    generalize (limited (in_data f)). done.
  - intros e Hn. cbn [fst snd map_err]. apply (Hclose (Err (Wrap "decode installation manifest" e))).
    apply HQ; [by apply same_release|]. by right.
Qed.

(** ** Replacing the manifest *)

Record Tmp (d0 : disk) (name : string) (i : nat) (R : inode -> Prop) (d : disk) : Prop := {
  tmp_same : same (Some name) d0 d;
  tmp_name : dk_names d !! name = Some i;
  tmp_base : name <> base;
  tmp_apart : dk_names d !! base <> Some i;
  tmp_lock : dk_names d !! lock <> Some i;
  tmp_file : exists f, dk_inodes d !! i = Some f /\ in_kind f = Regular /\ R f
}.

Lemma tmp_weaken d0 name i (R R' : inode -> Prop) d : (forall f, R f -> R' f) -> Tmp d0 name i R d -> Tmp d0 name i R' d.
Proof. intros HR [? ? ? ? ? (f & ? & ? & ?)]. split; try done. exists f. auto. Qed.

Lemma tmp_set d0 name i R (R' : inode -> Prop) d f f' : Tmp d0 name i R d -> dk_inodes d !! i = Some f ->
  in_kind f' = in_kind f -> R' f' -> Tmp d0 name i R' (set_inode i f' d).
Proof.
  intros [[Ho Hc] ? ? ? ? (h & Hh & Hk & _)] Hf Hk' HR. rewrite Hf in Hh. injection Hh as <-.
  split; try done.
  - eapply same_trans; [|by eapply same_set_inode]. by split.
  - exists f'. cbn. rewrite lookup_insert_eq. split_and!; [done|congruence|done].
Qed.

Lemma tmp_release d0 name i R d j : Tmp d0 name i R d -> Tmp d0 name i R (release me j d).
Proof.
  intros [[Ho Hc] ? ? ? ? ?]. split; try done. eapply same_trans; [|by eapply same_release]. by split.
Qed.

Lemma ours_unclean tmp tmp' d : ~ clean -> ours tmp d -> ours tmp' d.
Proof. intros Hn []. split; done. Qed.

Lemma create_temp_wp Q d : ours None d ->
  (forall name i d', Tmp d name i (fun f => in_data f = []) d' -> Q (Ok (name, i)) d') ->
  (forall e, ~ clean -> Q (Err e) d) -> wp (call (create_temp temp_prefix)) Q d.
Proof.
  intros Ho HQ He.
  eapply (wp_fault _ (fun l => match dk_dir d, dk_names d !! (temp_prefix +:+ random_name l) with
    | None, _ => errno "no such file or directory" d
    | Some _, Some _ => errno "file exists" d
    | Some _, None =>
        let '(i, d') := make (temp_prefix +:+ random_name l) (Z.land 384 (Z.lnot (umask l))) me d in
        (Ok (temp_prefix +:+ random_name l, i), d')
    end)); [done| |done].
  intros l Hl. destruct (dk_dir d) as [dir|] eqn:Hdir.
  2: { apply He. intros Hc. destruct (our_dir _ _ Ho Hc) as (perm & Hd & _). congruence. }
  set (name := temp_prefix +:+ random_name l). destruct (dk_names d !! name) as [j|] eqn:Hn.
  { apply He. intros Hc. destruct (Hl Hc) as [_ Hfree]. pose proof (our_names _ _ Ho Hc _ Hfree ltac:(done)). unfold name in Hn. congruence. }
  assert (Hb : name <> base).
  { intros Heq. rewrite <- Heq in Hbase. unfold name in Hbase. by rewrite HasPrefix_app in Hbase. }
  pose proof (same_make None (Some name) name (Z.land 384 (Z.lnot (umask l))) d Ho Hb Hn) as Hs.
  destruct (make name _ me d) as [i d'] eqn:Hm. cbn [fst snd] in *. apply HQ. injection Hm as Hi Hd'.
  assert (Hfresh : forall n, dk_names d !! n <> Some i).
  { intros n Hx. destruct (our_files _ _ Ho _ _ Hx) as [f Hf]. rewrite <- Hi, new_inode_fresh in Hf. done. }
  assert (Hl' : name <> lock).
  { intros Heq. rewrite <- Heq in Hlock. unfold name in Hlock. by rewrite HasPrefix_app in Hlock. }
  split; [|subst; cbn..].
  - apply Hs. intros Hc r _ Ht. split; [|done]. congruence.
  - by rewrite lookup_insert_eq.
  - done.
  - rewrite lookup_insert_ne by done. apply Hfresh.
  - rewrite lookup_insert_ne by done. apply Hfresh.
  - eexists. rewrite lookup_insert_eq. done.
Qed.

Lemma rename_wp d0 name i raw Q d : Tmp d0 name i (fun f => in_data f = raw /\ in_perm f = 384) d ->
  (forall d', ours None d' -> content base d' = Some raw -> Q (Ok tt) d') -> (forall e, ~ clean -> Q (Err e) d) ->
  wp (call (rename name base)) Q d.
Proof.
  intros [[Ho Hc] Hn Hb Ha Hl (f & Hf & Hk & Hd & Hp)] HQ He. pose proof (lock_name_ne base) as Hlb.
  assert (Hln : name <> lock) by (intros ->; congruence).
  set (d' := set_names (<[base := i]> (delete name (dk_names d))) d).
  assert (HOk : Q (Ok tt) d').
  { apply HQ.
    - destruct Ho. split; cbn; try done.
      + intros n j. destruct (decide (base = n)) as [<-|]; [rewrite lookup_insert_eq; intros [= <-]; by exists f|].
        rewrite lookup_insert_ne by done. intros [_ Hj]%lookup_delete_Some. eauto.
      + intros j. rewrite lookup_insert_ne, lookup_delete_ne, lookup_insert_eq by done. congruence.
      + intros Hcl j h. rewrite lookup_insert_eq. intros [= <-]. rewrite Hf. intros [= <-]. by rewrite Hp.
      + intros Hcl j h. rewrite lookup_insert_ne, lookup_delete_ne by done. eauto.
      + intros Hcl r Hr _. destruct (decide (temp_prefix +:+ r = base)) as [He'|Hne].
        { rewrite <- He', HasPrefix_app in Hbase. done. }
        rewrite lookup_insert_ne by done. rewrite lookup_delete_None.
        destruct (decide (name = temp_prefix +:+ r)) as [->|Hne']; [by left|right]. apply our_names0; [done..|congruence].
    - unfold content. cbn. rewrite lookup_insert_eq. cbn. by rewrite Hf, <- Hd. }
  eapply (wp_fault _ (fun _ => match dk_names d !! name with
    | None => errno "no such file or directory" d
    | Some i =>
        match (j ← dk_names d !! base; in_kind <$> dk_inodes d !! j) with
        | Some Directory => errno "file exists" d
        | _ => (Ok tt, set_names (<[base := i]> (delete name (dk_names d))) d)
        end
    end)); [done| |done].
  intros l _. rewrite Hn.
  destruct (j ← dk_names d !! base; in_kind <$> dk_inodes d !! j) as [[]|] eqn:Hkind; try exact HOk.
  apply He. intros Hcl. destruct (dk_names d !! base) as [j|] eqn:Hj; [|done]. cbn in Hkind.
  destruct (dk_inodes d !! j) as [h|] eqn:Hh; [|done]. destruct (our_manifest _ _ Ho Hcl _ _ Hj Hh) as [Hr _].
  cbn in Hkind. congruence.
Qed.

Lemma replace_wp d0 name i raw Q d : Tmp d0 name i (fun f => in_data f = []) d ->
  (forall d', ours None d' -> content base d' = Some raw -> Q (Ok tt) d') ->
  (forall e d', ~ clean -> Tmp d0 name i (fun _ => True) d' -> Q (Err e) d') -> wp (replace base name i raw) Q d.
Proof.
  intros Ht HQ He. unfold replace.
  assert (Herr : forall e R d', ~ clean -> Tmp d0 name i R d' -> Q (Err e) d').
  { intros e R d' Hn Ht'. apply He; [done|]. by eapply tmp_weaken, Ht'. }
  destruct (tmp_file _ _ _ _ _ Ht) as (f & Hf & Hk & Hd). apply wp_then, wp_failing.
  eapply (wp_fault _ (fun _ => (Ok tt, set_inode i {| in_kind := in_kind f; in_perm := 384; in_data := in_data f;
    in_synced := false; in_maker := in_maker f |} d))).
  { intros l. unfold fchmod, on_file. by rewrite Hf. }
  2: { intros e Hn. by eapply Herr. }
  intros l _. cbn [fst snd map_err]. clear l.
  pose proof (tmp_set _ _ _ _ (fun f => in_data f = [] /\ in_perm f = 384) _ _
    {| in_kind := in_kind f; in_perm := 384; in_data := in_data f; in_synced := false; in_maker := in_maker f |}
    Ht Hf eq_refl (conj Hd eq_refl)) as Ht1.
  set (d1 := set_inode i _ d) in *. clearbody d1. clear Ht Hf Hk Hd f.
  destruct (tmp_file _ _ _ _ _ Ht1) as (f & Hf & Hk & Hd & Hp). apply wp_then, wp_failing, wp_call.
  intros l Hl. unfold write. rewrite Hf. destruct (fault l) as [msg|] eqn:Hfl.
  { eexists _, _. split; [done|]. eapply Herr; [intros Hc; destruct (Hl Hc); congruence|].
    by eapply (tmp_set _ _ _ _ (fun _ => True) _ _ _ Ht1 Hf). }
  eexists _, _. split; [done|]. cbn [map_err]. clear l Hl Hfl.
  assert (Ht2 : Tmp d0 name i (fun f => in_data f = raw /\ in_perm f = 384) (set_inode i (append f raw) d1)).
  { eapply tmp_set; [done..|]. cbn. by rewrite Hd. }
  set (d2 := set_inode i _ d1) in *. clearbody d2. clear Ht1 Hf Hk Hd Hp f.
  destruct (tmp_file _ _ _ _ _ Ht2) as (f & Hf & Hk & Hd & Hp). apply wp_then, wp_failing.
  eapply (wp_fault _ (fun _ => (Ok tt, set_inode i {| in_kind := in_kind f; in_perm := in_perm f; in_data := in_data f;
    in_synced := true; in_maker := in_maker f |} d2))).
  { intros l. unfold fsync, on_file. by rewrite Hf. }
  2: { intros e Hn. by eapply Herr. }
  intros l _. cbn [fst snd map_err]. clear l.
  assert (Ht3 : Tmp d0 name i (fun f => in_data f = raw /\ in_perm f = 384) (set_inode i {| in_kind := in_kind f;
    in_perm := in_perm f; in_data := in_data f; in_synced := true; in_maker := in_maker f |} d2)) by by eapply tmp_set.
  set (d3 := set_inode i _ d2) in *. clearbody d3. clear Ht2 Hf Hk Hd Hp f.
  apply wp_then, wp_failing, wp_call. intros l Hl. eexists _, _. split; [done|].
  apply (tmp_release _ _ _ _ _ i) in Ht3. destruct (fault l) as [msg|] eqn:Hfl; cbn [map_err].
  { eapply Herr; [|exact Ht3]. intros Hc. destruct (Hl Hc). congruence. }
  apply wp_failing. eapply rename_wp; [exact Ht3|done|]. intros e Hn. by eapply Herr.
Qed.

(** What a replacement leaves. *)
Definition wrote_of (raw : bytes) (d : disk) (r : result unit) (d' : disk) : Prop :=
  ours None d' /\
  (r = Ok tt /\ content base d' = Some raw \/
   ~ clean /\ is_ok r = false /\ (content base d' = content base d \/ content base d' = Some raw)).

Lemma writeAtomic_wp m raw Q d : encode m = Ok raw -> ours None d ->
  (forall r d', wrote_of raw d r d' -> Q r d') -> wp (writeAtomic base m) Q d.
Proof.
  intros He Ho HQ. unfold writeAtomic. rewrite He. apply wp_then, wp_failing. apply create_temp_wp; [done| |].
  2: { intros e Hn. apply HQ. split; [done|]. right. auto. }
  intros name i d1 Ht. cbn [map_err fst snd]. apply wp_bind. eapply replace_wp; [exact Ht| |].
  - intros d2 Ho2 Hc2. apply wp_bind.
    assert (Hend : forall r, (clean -> r = Ok tt) -> wp (_ ← call (close i); mret r) Q d2).
    { intros r Hr. apply wp_bind, wp_call. intros l _. eexists _, _. split; [done|].
      destruct (same_release None i d2 Ho2) as [Ho3 Hc3]. apply HQ. split; [done|].
      destruct r as [[]|e]; [left; by rewrite Hc3|right]. rewrite Hc3. split_and!; [|done|by right].
      intros Hc. by specialize (Hr Hc). }
    unfold syncDirectory. apply wp_then, wp_failing.
    eapply (wp_fault _ (fun _ => (Ok tt, d2))); [done| |intros e Hn; apply Hend; done].
    intros l _. cbn [fst snd map_err]. apply wp_failing.
    eapply (wp_fault _ (fun _ => (Ok tt, settle d2))); [done| |intros e Hn; apply Hend; done].
    intros l' _. cbn [fst snd map_err].
    apply wp_bind, wp_call. intros l2 _. eexists _, _. split; [done|].
    assert (Ho3 : ours None (settle d2)) by (destruct Ho2; split; done).
    destruct (same_release None i _ Ho3) as [Ho4 Hc4]. apply HQ. split; [done|]. left. split; [done|]. rewrite Hc4. done.
  - intros e d2 Hn Ht2. apply wp_bind, wp_call. intros l _. eexists _, _. split; [done|].
    apply (tmp_release _ _ _ _ _ i) in Ht2. set (d3 := release me i d2) in *. clearbody d3. clear d2.
    destruct Ht2 as [[Ho3 Hc3] Hname Hb Ha Hl _].
    assert (Hdone : forall d4, ours None d4 -> content base d4 = content base d3 -> Q (Err e) d4).
    { intros d4 Ho4 Hc4. apply HQ. split; [done|]. right. split_and!; [done|done|left; congruence]. }
    apply wp_bind. eapply (wp_fault _ (fun _ => match dk_names d3 !! name with
      | None => errno "no such file or directory" d3
      | Some _ => (Ok tt, set_names (delete name (dk_names d3)) d3)
      end)); [done| |].
    2: { intros e' _. apply Hdone; [by eapply ours_unclean|done]. }
    intros l' _. rewrite Hname. cbn [fst snd]. assert (Hln : name <> lock) by (intros ->; congruence). apply Hdone.
    + apply (ours_unclean (Some name)); [done|]. destruct Ho3. split; cbn; try (by intros Hcl); try done.
      * intros n j [_ Hj]%lookup_delete_Some. eauto.
      * intros j. rewrite !lookup_delete_ne by done. exact (our_apart0 j).
    + unfold content. cbn. by rewrite lookup_delete_ne by done.
Qed.

(** ** The operations *)

Lemma update_written {A} fs identity (change : Manifest -> result (A * Manifest)) file :
  Installation.update fs identity change file = update_opt fs identity (fun m => written (change m)) file.
Proof.
  unfold Installation.update, update_opt, Installation.withLock. destruct (lock_fault fs); [done|].
  destruct (Installation.readAndVerify fs identity file) as [m|]; cbn; [|done]. by destruct (change m) as [[a m']|].
Qed.

Lemma mark_written fs identity w i now file :
  Installation.MarkAddressIndexSkipped fs identity w i now file
  = update_opt fs identity (fun m => m' ← skip_change w i now m; Ok (tt, m')) file.
Proof.
  unfold Installation.MarkAddressIndexSkipped, update_opt, Installation.withLock. destruct (lock_fault fs); [done|].
  destruct (Installation.readAndVerify fs identity file) as [m|]; cbn; [|done].
  destruct (skip_change w i now m) as [[m'|]|]; cbn; [|done..].
  by destruct (Installation.writeAtomic fs m' file) as [[[]|] ?].
Qed.

(** What [r] and the directory [d'] are to a run on [d]: the model's, under some
    failures, and under none if nothing failed. *)
Definition refines {A} (identity : Identity) (change : Manifest -> result (A * option Manifest)) (d : disk)
    (r : result A) (d' : disk) : Prop :=
  ours None d' /\ readable base d' /\
  exists fs, (clean -> fs = fs_ok) /\ update_opt fs identity change (ledger base d) = (r, ledger base d').

Lemma ledger_same d d' : content base d' = content base d -> ledger base d' = ledger base d.
Proof. unfold ledger. by intros ->. Qed.

Lemma readable_same d d' : content base d' = content base d -> readable base d -> readable base d'.
Proof. unfold readable. by intros ->. Qed.

Definition faulty_lock (e : error) : fs_run := {| lock_fault := Some e; read_fault := None; Installation.write := Written |}.

Lemma refines_fault {A} identity (change : Manifest -> result (A * option Manifest)) d e d' : ~ clean -> readable base d ->
  same None d d' -> refines identity change d (Err e) d'.
Proof.
  intros Hn Hr [Ho Hc]. split_and!; [done|by eapply readable_same|]. exists (faulty_lock e). split; [done|].
  by rewrite (ledger_same d d' Hc).
Qed.

Lemma refines_release {A} identity (change : Manifest -> result (A * option Manifest)) d r i d' :
  refines identity change d r d' -> refines identity change d r (release me i d').
Proof.
  intros (Ho & Hr & H). destruct (same_release None i d' Ho) as [Ho' Hc].
  split_and!; [done|by eapply readable_same|]. by rewrite (ledger_same _ _ Hc).
Qed.

Lemma update_wp {A} st (change : Manifest -> result (A * option Manifest)) d : st_base st = base ->
  identity_text (st_identity st) -> ours None d -> readable base d ->
  (forall m a m', ledger base d = Some m -> manifest_ok m (st_identity st) -> change m = Ok (a, Some m') ->
     writable m' /\ fits m') ->
  wp (update st change) (refines (st_identity st) change d) d.
Proof.
  intros Hst Hid Ho Hread Hfits. unfold update. rewrite Hst. apply withLock_wp; [done| | |].
  { intros e d' Hn. by apply refines_fault. }
  { intros r i d'. apply refines_release. }
  intros d1 [Ho1 Hc1]. apply wp_then. apply (readAndVerify_wp st); [done..|]. intros r d2 [Ho2 Hc2] Hr.
  assert (Hs2 : same None d d2) by (split; [done|congruence]). destruct Hr as [Hr|[Hn Hr]].
  2: { destruct r as [m|e]; [done|]. by apply refines_fault. }
  rewrite Hc1 in Hr. unfold reading in Hr. pose proof (proj2 Hs2) as Hc.
  assert (Hend : forall r', update_opt fs_ok (st_identity st) change (ledger base d) = (r', ledger base d) ->
    refines (st_identity st) change d r' d2).
  { intros r' H. split_and!; [done|by eapply readable_same|]. exists fs_ok. split; [done|]. by rewrite (ledger_same _ _ Hc). }
  unfold update_opt, Installation.withLock, fs_ok, Installation.readAndVerify in Hend. cbn [lock_fault read_fault] in Hend.
  unfold ledger in Hend, Hfits. destruct (content base d) as [raw|] eqn:Hraw; [|subst r; by apply Hend].
  destruct (Hread raw Hraw) as [m Hd]. cbn [mbind option_bind] in Hend, Hfits.
  rewrite Hd in Hr, Hend, Hfits. cbn [mbind result_bind] in Hr, Hend.
  destruct (verifyManifest m (st_identity st)) as [[]|e] eqn:Hv; subst r; cbn [mbind result_bind] in Hend |- *; [|by apply Hend].
  destruct (change m) as [[a [m'|]]|e] eqn:Hch; [|by apply Hend..].
  apply verifyManifest_spec in Hv. destruct (Hfits m a m' eq_refl Hv Hch) as [Hw (raw' & He & Hlen)].
  destruct (decode_limited m' raw' Hw He) as [Hback _]. specialize (Hback Hlen).
  apply wp_then. eapply writeAtomic_wp; [done..|]. intros r d3 [Ho3 Hcases].
  assert (Hledger : forall d', content base d' = Some raw' -> readable base d' /\ ledger base d' = Some m').
  { intros d' Hc'. unfold readable, ledger. rewrite Hc'. cbn. rewrite Hback. split; [|done]. intros raw0 [= <-]. by exists m'. }
  assert (Hbefore : forall d', content base d' = content base d2 -> readable base d' /\ ledger base d' = Some m).
  { intros d' Hc'. unfold readable, ledger. rewrite Hc', Hc. cbn. rewrite Hd. split; [|done]. intros raw0 [= <-]. by exists m. }
  assert (Hrun : forall fs, lock_fault fs = None -> read_fault fs = None ->
    update_opt fs (st_identity st) change (ledger base d) = match Installation.writeAtomic fs m' (Some m) with
      | (Ok _, file') => (Ok a, file') | (Err e, file') => (Err e, file') end).
  { intros fs H1 H2. unfold update_opt, Installation.withLock, Installation.readAndVerify, ledger. rewrite H1, H2, Hraw. cbn.
    rewrite Hd. cbn. rewrite (proj2 (verifyManifest_spec _ _) Hv). cbn. by rewrite Hch. }
  destruct Hcases as [[-> Hc3]|(Hn & Hok & Hc3)].
  - destruct (Hledger d3 Hc3) as [Hr3 Hl3]. split_and!; [done|done|]. exists fs_ok. split; [done|]. by rewrite Hl3, Hrun.
  - destruct r as [[]|e]; [done|]. split; [done|].
    destruct Hc3 as [Hc3|Hc3]; [destruct (Hbefore d3 Hc3) as [Hr3 Hl3]|destruct (Hledger d3 Hc3) as [Hr3 Hl3]]; (split; [done|]).
    + exists {| lock_fault := None; read_fault := None; Installation.write := NotWritten e |}. split; [done|]. by rewrite Hl3, Hrun.
    + exists {| lock_fault := None; read_fault := None; Installation.write := ReplacedNotSynced e |}. split; [done|]. by rewrite Hl3, Hrun.
Qed.
End alone.

(** * The refinement *)

Definition op_request (s : State) (o : ledger_op) : request :=
  match o with
  | LReserve w now => RReserve s w now
  | LSkip w i now => RSkip s w i now
  | LClear now => RClear s now
  | LRaise targets now => RRaise s targets now
  end.

(** The manifest that the operation writes when nothing fails. *)
Definition next_ledger (identity : Identity) (o : ledger_op) (file : option Manifest) : option Manifest :=
  (exec_ledger identity o fs_ok file).2.

Definition op_typed (o : ledger_op) : Prop := match o with LSkip _ i _ => uint32 i | _ => True end.

Lemma update_fits {A} base d identity (change : Manifest -> result (A * option Manifest)) Q :
  change_ok identity change Q -> identity_text identity -> readable base d ->
  (forall m, (update_opt fs_ok identity change (ledger base d)).2 = Some m -> fits m) ->
  forall m a m', ledger base d = Some m -> manifest_ok m identity -> change m = Ok (a, Some m') -> writable m' /\ fits m'.
Proof.
  intros Hc Hid Hr Hf m a m' Hl Hok Hch.
  assert (Hw : writable m).
  { unfold ledger in Hl. destruct (content base d) as [raw|]; [|done]. cbn in Hl.
    destruct (decode (limited raw)) as [m0|] eqn:Hd; [|done]. injection Hl as ->. by eapply verified_writable. }
  specialize (Hc m Hw Hok). rewrite Hch in Hc. split; [by destruct Hc|]. apply Hf. rewrite Hl.
  unfold update_opt, Installation.withLock, Installation.readAndVerify. cbn.
  rewrite (proj2 (verifyManifest_spec _ _) Hok). cbn. by rewrite Hch.
Qed.

(** C21: one operation at a time on a directory of its own: an operation's calls, whatever
    fails among them, end with the index and the manifest of the model, under some
    failures there, and, when nothing fails, with those of the run without failures;
    and the directory is again one the next operation can use. *)
Theorem operations_refine base me clean free s o d luck_of :
  HasPrefix base temp_prefix = false -> HasPrefix (lock_name base) temp_prefix = false ->
  st_base s = base -> identity_text (st_identity s) -> op_typed o ->
  ours base me clean free None d -> readable base d ->
  (forall m, next_ledger (st_identity s) o (ledger base d) = Some m -> fits m) ->
  (forall i, lucky clean free (luck_of i)) ->
  exists a d' fs, exec me (serve (op_request s o)) luck_of 0 d = Some (a, d') /\
    exec_ledger (st_identity s) o fs (ledger base d) = (issued_by a, ledger base d') /\ (clean -> fs = fs_ok) /\
    ours base me clean free None d' /\ readable base d'.
Proof.
  intros Hb Hl Hst Hid Hty Ho Hr Hf Hluck.
  assert (Hrun : forall A (change : Manifest -> result (A * option Manifest)) (C : result A -> answer) Q,
    change_ok (st_identity s) change Q ->
    (forall m, (update_opt fs_ok (st_identity s) change (ledger base d)).2 = Some m -> fits m) ->
    exists r d' fs, exec me (x ← update s change; mret (C x)) luck_of 0 d = Some (C r, d') /\
      update_opt fs (st_identity s) change (ledger base d) = (r, ledger base d') /\ (clean -> fs = fs_ok) /\
      ours base me clean free None d' /\ readable base d').
  { intros A change C Q Hc Hfit.
    destruct (wp_exec (lucky clean free) me (x ← update s change; mret (C x))
      (fun a d' => exists r, a = C r /\ refines base me clean free (st_identity s) change d r d') d luck_of 0 Hluck)
      as (a & d' & He & r & -> & Ho' & Hr' & fs & Hcl & Hu).
    - apply wp_bind. eapply wp_mono; [|by apply (update_wp base Hb Hl me clean free s change d Hst Hid Ho Hr);
        eapply update_fits]. intros r d' H. cbn. by exists r.
    - by exists r, d', fs. }
  destruct o as [w t|w i t|t|ts t]; cbn [op_request serve exec_ledger].
  - destruct (Hrun _ _ (Reserved w) _ (reserve_change_ok (st_identity s) w t)) as (r & d' & fs & He & Hu & Hrest).
    { intros m Hm. apply Hf. unfold next_ledger, exec_ledger, Installation.ReserveAddressIndex. rewrite update_written.
      by destruct (update_opt _ _ _ _). }
    exists (Reserved w r), d', fs. split; [exact He|]. unfold Installation.ReserveAddressIndex.
    rewrite update_written, Hu. by split; [destruct r|].
  - destruct (Hrun _ _ Marked _ (skip_change_ok (st_identity s) w i t Hty)) as (r & d' & fs & He & Hu & Hrest).
    { intros m Hm. apply Hf. unfold next_ledger, exec_ledger. cbn [snd]. by rewrite mark_written. }
    exists (Marked r), d', fs. split; [exact He|]. rewrite mark_written, Hu. done.
  - destruct (Hrun _ _ Seen _ (clear_change_ok (st_identity s) t)) as (r & d' & fs & He & Hu & Hrest).
    { intros m Hm. apply Hf. unfold next_ledger, exec_ledger, Installation.ClearSkippedAddressIndices. cbn [snd]. by rewrite update_written. }
    exists (Seen r), d', fs. split; [exact He|]. unfold Installation.ClearSkippedAddressIndices.
    rewrite update_written, Hu. done.
  - destruct (Hrun _ _ Seen _ (raise_change_ok (st_identity s) ts t)) as (r & d' & fs & He & Hu & Hrest).
    { intros m Hm. apply Hf. unfold next_ledger, exec_ledger, Installation.RaiseHighWater. cbn [snd]. by rewrite update_written. }
    exists (Seen r), d', fs. split; [exact He|]. unfold Installation.RaiseHighWater.
    rewrite update_written, Hu. done.
Qed.

(** ** A reservation *)

Definition fits_b (m : Manifest) : bool :=
  match encode m with Ok raw => Z.of_nat (length raw) <=? size_limit + 1 | Err _ => false end.

Lemma fits_of_b m : fits_b m = true -> fits m.
Proof. unfold fits_b. destruct (encode m) as [raw|] eqn:He; [|done]. intros H. exists raw. split; [done|lia]. Qed.

Definition disk_with (raw : bytes) : disk :=
  {| dk_dir := Some (Directory, 448); dk_kept := true; dk_names := {[demo_base := 0%nat]}; dk_past := [];
     dk_inodes := {[0%nat := {| in_kind := Regular; in_perm := 384; in_data := raw; in_synced := true; in_maker := 0 |}]};
     dk_locks := [] |}.

Definition demo_ledger_disk : disk := disk_with (match encode demo_manifest with Ok raw => raw | Err _ => [] end).

Definition demo_own_state : State := {| st_base := demo_base; st_identity := demo_expected |}.

Lemma disk_with_ours clean raw : ours demo_base 0 clean (fun _ => True) None (disk_with raw).
Proof.
  split; unfold disk_with; cbn [dk_locks dk_names dk_inodes dk_dir].
  - by intros q i b ?%elem_of_nil.
  - intros n i [_ <-]%lookup_singleton_Some. rewrite lookup_singleton_eq. by eexists.
  - by intros i [Hn _]%lookup_singleton_Some.
  - intros _. by exists 448.
  - intros _ i f [_ <-]%lookup_singleton_Some. rewrite lookup_singleton_eq. by intros [= <-].
  - by intros _ i f [Hn _]%lookup_singleton_Some.
  - intros _ r _ _. apply lookup_singleton_ne. intros H.
    assert (Hp : HasPrefix demo_base temp_prefix = false) by done. by rewrite H, HasPrefix_app in Hp.
Qed.

Lemma operations_refine_witness :
  exists a d' fs,
    exec 0 (serve (op_request demo_own_state (LReserve "hot" 2000))) (fun _ => good) 0 demo_ledger_disk = Some (a, d') /\
    exec_ledger (st_identity demo_own_state) (LReserve "hot" 2000) fs (ledger demo_base demo_ledger_disk)
      = (issued_by a, ledger demo_base d') /\ (True -> fs = fs_ok) /\
    ours demo_base 0 True (fun _ => True) None d' /\ readable demo_base d'.
Proof.
  assert (Hfits : match next_ledger (st_identity demo_own_state) (LReserve "hot" 2000) (ledger demo_base demo_ledger_disk) with
    | Some m => fits_b m = true | None => True end) by (vm_compute; reflexivity).
  apply (operations_refine demo_base 0 True (fun _ => True) demo_own_state (LReserve "hot" 2000) demo_ledger_disk);
    [reflexivity|reflexivity|reflexivity| |exact I|apply disk_with_ours| | |].
  - split; [vm_compute; reflexivity|]. repeat constructor; width; cbn; lia.
  - intros raw Hraw. assert (Hd : match content demo_base demo_ledger_disk with
      | Some raw => is_ok (decode (limited raw)) = true | None => True end) by (vm_compute; reflexivity).
    rewrite Hraw in Hd. destruct (decode (limited raw)) as [m|]; [by exists m|discriminate].
  - intros m Hm. rewrite Hm in Hfits. apply fits_of_b, Hfits.
  - intros i _. split; [reflexivity|exact I].
Defined.
