(* ===== verification/Guarded.v ===== *)
(** The storage decorator of [internal/storage/guarded/guarded.go]: address
    allocation that reserves its index in the installation ledger first.

    The two stores an allocation touches form the [world]: the manifest file and
    the tables.  [W] threads the world through the calls of the program; call
    number [n] meets the outcomes [env n] of file system, driver, clock and
    context. *)
From S2P Require Import Prelude Tx GoString GoTime Sha256 Database Wallets Installation.

(** * Calls on the outside world *)

Record call_env := {
  call_fs : fs_run;
  call_io : faults;
  call_clock : time;
  call_ctx : option string;
  call_random : result string
}.

Record world := { file : option Manifest; tables : db; tick : nat }.

Definition W (A : Type) : Type := (nat -> call_env) -> world -> result A * world.

#[export] Instance w_ret : MRet W := fun A a env w => (Ok a, w).
#[export] Instance w_bind : base.MBind W := fun A B f m env w =>
  match m env w with (Ok a, w') => f a env w' | (Err e, w') => (Err e, w') end.

Definition w_fail {A} (e : error) : W A := fun _ w => (Err e, w).
Definition w_lift {A} (r : result A) : W A := fun _ w => (r, w).
Definition w_map_err {A} (f : error -> error) (m : W A) : W A := fun env w =>
  let '(r, w') := m env w in (map_err f r, w').

(** One call on the ledger, on the tables, on the context, on the deriver. *)
Definition ledger_call {A}
    (f : fs_run -> time -> option Manifest -> result A * option Manifest) : W A := fun env w =>
  let c := env (tick w) in
  let '(r, file') := f (call_fs c) (call_clock c) (file w) in
  (r, {| file := file'; tables := tables w; tick := S (tick w) |}).
Definition store_call {A} (f : time -> faults -> db -> result A * db) : W A := fun env w =>
  let c := env (tick w) in
  let '(r, tables') := f (call_clock c) (call_io c) (tables w) in
  (r, {| file := file w; tables := tables'; tick := S (tick w) |}).
Definition ctx_Err : W unit := fun env w =>
  (match call_ctx (env (tick w)) with Some msg => Err (Foreign msg) | None => Ok tt end,
   {| file := file w; tables := tables w; tick := S (tick w) |}).
Definition outside_call {A} (f : nat -> result A) : W A := fun _ w =>
  (f (tick w), {| file := file w; tables := tables w; tick := S (tick w) |}).

(** [x, err := call(); if err == nil { ... } ...]. *)
Definition w_try {A} (m : W A) : W (result A) := fun env w =>
  let '(r, w') := m env w in (Ok r, w').

(** [AllocateAddress]; [ledger] is the identity the ledger was opened for. *)
Definition AllocateAddress (ledger : Identity) (walletID label : string) (derive : option DeriveFunc)
    : W Address :=
  match derive with
  | None => w_fail (New "derive callback is required")
  | Some _ =>
      index ← ledger_call (fun fs now => ReserveAddressIndex fs ledger walletID now);
      stored ← w_try (store_call (fun now => AllocateAddressAt walletID index label derive now));
      match stored with
      | Ok address => mret address
      | Err err =>
          marked ← w_try (ledger_call (fun fs now =>
                            MarkAddressIndexSkipped fs ledger walletID index now));
          match marked with
          | Err markErr => w_fail (Wrap ("address allocation failed after reserving index "
                                +:+ pretty index +:+ "; recording the skipped index also failed") markErr)
          | Ok _ => w_fail err
          end
      end
  end.

(** * Lemmas *)

Lemma w_bind_ok {A B} (m : W A) (f : A -> W B) env w b w' :
  (m ≫= f) env w = (Ok b, w') <-> exists a w1, m env w = (Ok a, w1) /\ f a env w1 = (Ok b, w').
Proof. unfold mbind, w_bind. destruct (m env w) as [[a|e] w1]; naive_solver. Qed.

Lemma w_map_err_ok {A} f (m : W A) env w a w' :
  w_map_err f m env w = (Ok a, w') <-> m env w = (Ok a, w').
Proof. unfold w_map_err. destruct (m env w) as [[x|e] w1]; cbn; naive_solver. Qed.

Lemma ledger_call_inv {A} (f : fs_run -> time -> option Manifest -> result A * option Manifest) env w r w' :
  ledger_call f env w = (r, w') ->
  f (call_fs (env (tick w))) (call_clock (env (tick w))) (file w) = (r, file w') /\
  tables w' = tables w /\ tick w' = S (tick w).
Proof.
  unfold ledger_call. destruct (f _ _ _) as [r1 f1]. by intros [= <- <-].
Qed.

Lemma store_call_inv {A} (f : time -> faults -> db -> result A * db) env w r w' :
  store_call f env w = (r, w') ->
  f (call_clock (env (tick w))) (call_io (env (tick w))) (tables w) = (r, tables w') /\
  file w' = file w /\ tick w' = S (tick w).
Proof.
  unfold store_call. destruct (f _ _ _) as [r1 f1]. by intros [= <- <-].
Qed.

(** What an allocation at an index returns and writes, without any assumption
    on the tables. *)
Lemma AllocateAddressAt_effect w i label derive now io d r d' :
  Wallets.AllocateAddressAt w i label derive now io d = (r, d') ->
  match r with
  | Err _ => d' = d
  | Ok a => Address_DiversifierIndex a = i /\
            exists f s row, derive = Some f /\ f i = Ok s /\ ad_address row = TrimSpace s /\
              db_addresses d' = <[(w, i) := row]> (db_addresses d) /\
              (db_addresses d !! (w, i) = None \/ db_addresses d !! (w, i) = Some row)
  end.
Proof.
  unfold Wallets.AllocateAddressAt. destruct derive as [derive|]; [|by intros [= <- <-]].
  destruct (derive i) as [s|e] eqn:Hs; [|by intros [= <- <-]].
  case_match; [by intros [= <- <-]|].
  intros [[-> (e & ->)]|[(-> & ? & io1 & io2 & s2 & -> & H1)|(? & io1 & io2 & -> & H1)]]%run_tx_cases;
    [done| |]; db_inv;
    try match goal with H : insert_address _ _ _ _ = _ |- _ => apply insert_address_ok in H as (? & ? & ->) end;
    wallet_effects; (split; [done|]); cbn; bool_to_prop; exists derive, s.
  - eexists. split_and!; [done|done|eassumption|symmetry; by apply insert_id|by right].
  - exists {| ad_address := TrimSpace s; ad_label := label; ad_created_at := now |}. split_and!; auto.
Qed.

(** * No index is used twice, whatever happens to the database *)

(** What can happen to a running gateway: an allocation, another call on the
    ledger, or the database replaced by any other content, such as an older
    backup. *)
Inductive event : Type :=
  | Allocate (walletID label : string) (derive : option DeriveFunc)
  | LedgerCall (o : ledger_op)
  | ReplaceTables (d : db).

Definition exec_event (ledger : Identity) (env : nat -> call_env) (e : event) (w : world)
    : list (string * Z) * world :=
  match e with
  | Allocate walletID label derive =>
      let '(r, w') := AllocateAddress ledger walletID label derive env w in
      (match r with Ok a => [(walletID, Address_DiversifierIndex a)] | Err _ => [] end, w')
  | LedgerCall o =>
      ([], {| file := (exec_ledger ledger o (call_fs (env (tick w))) (file w)).2;
              tables := tables w; tick := S (tick w) |})
  | ReplaceTables d => ([], {| file := file w; tables := d; tick := tick w |})
  end.

Fixpoint exec_events (ledger : Identity) (env : nat -> call_env) (l : list event) (w : world)
    : list (string * Z) * world :=
  match l with
  | [] => ([], w)
  | e :: l' =>
      let '(out, w1) := exec_event ledger env e w in
      let '(outs, w2) := exec_events ledger env l' w1 in (out ++ outs, w2)
  end.

Lemma exec_ledgers_app ledger l l' f :
  exec_ledgers ledger (l ++ l') f =
  let '(o1, f1) := exec_ledgers ledger l f in
  let '(o2, f2) := exec_ledgers ledger l' f1 in (o1 ++ o2, f2).
Proof.
  revert f. induction l as [|[o fs] l IH]; cbn; intros f.
  { by destruct (exec_ledgers ledger l' f). }
  destruct (exec_ledger ledger o fs f) as [out f1]. rewrite IH.
  destruct (exec_ledgers ledger l f1) as [o1 f2]. destruct (exec_ledgers ledger l' f2) as [o2 f3].
  by destruct out.
Qed.

(** How an allocation ran. *)
Lemma AllocateAddress_cases ledger walletID label derive env w r w' :
  AllocateAddress ledger walletID label derive env w = (r, w') ->
  (derive = None /\ w' = w /\ exists e, r = Err e) \/
  exists rr w1, ledger_call (fun fs now => ReserveAddressIndex fs ledger walletID now) env w = (rr, w1) /\
    ((exists e, rr = Err e /\ r = Err e /\ w' = w1) \/
     exists index rs w2, rr = Ok index /\
       store_call (fun now => Wallets.AllocateAddressAt walletID index label derive now) env w1 = (rs, w2) /\
       ((exists a, rs = Ok a /\ r = Ok a /\ w' = w2) \/
        (exists e rm e', rs = Err e /\ r = Err e' /\
           ledger_call (fun fs now => MarkAddressIndexSkipped fs ledger walletID index now) env w2
             = (rm, w')))).
Proof.
  unfold AllocateAddress. destruct derive as [derive|]; [|intros [= <- <-]; left; eauto].
  unfold mbind, w_bind, w_try. intros H. right.
  destruct (ledger_call _ env w) as [[index|e] w1] eqn:H1; [|injection H as <- <-; eauto 10].
  do 2 eexists. split; [done|]. right.
  destruct (store_call _ env w1) as [[a|e] w2] eqn:H2.
  - injection H as <- <-. eauto 15.
  - destruct (ledger_call _ env w2) as [[u|e'] w3] eqn:H3; injection H as <- <-; eauto 20.
Qed.

Lemma exec_event_ledgers ledger env e w outs w' :
  exec_event ledger env e w = (outs, w') ->
  exists l outs', exec_ledgers ledger l (file w) = (outs', file w') /\ sublist outs outs'.
Proof.
  destruct e as [walletID label derive|o|d]; cbn [exec_event].
  - destruct (AllocateAddress _ _ _ _ _ _) as [r w1] eqn:H. intros [= <- <-].
    apply AllocateAddress_cases in H
      as [(-> & -> & e & ->)|(rr & w2 & (Hr & _)%ledger_call_inv & Hcase)].
    { by exists [], []. }
    set (c := (LReserve walletID (call_clock (env (tick w))), call_fs (env (tick w)))).
    assert (Hc : exec_ledgers ledger [c] (file w) =
      (match rr with Ok i => [(walletID, i)] | Err _ => [] end, file w2)).
    { cbn. rewrite Hr. by destruct rr. }
    destruct Hcase as [(e & -> & -> & ->)|(i & rs & w3 & -> & (Hs & Hf & _)%store_call_inv & Hcase)].
    { by exists [c], []. }
    apply AllocateAddressAt_effect in Hs.
    destruct Hcase as [(a & -> & -> & ->)|(e & rm & e' & -> & -> & (Hm & _)%ledger_call_inv)].
    + destruct Hs as [-> _]. exists [c], [(walletID, i)]. by rewrite Hf, Hc.
    + exists ([c] ++ [(LSkip walletID i (call_clock (env (tick w3))), call_fs (env (tick w3)))]),
        [(walletID, i)]. rewrite exec_ledgers_app, Hc. cbn. rewrite Hf in Hm. rewrite Hm. cbn.
      split; [done|]. apply sublist_nil_l.
  - intros [= <- <-]. exists [(o, call_fs (env (tick w)))]. cbn.
    destruct (exec_ledger _ _ _ _) as [out f]. eexists. split; [done|]. apply sublist_nil_l.
  - intros [= <- <-]. by exists [], [].
Qed.

Lemma exec_events_ledgers ledger env l w outs w' :
  exec_events ledger env l w = (outs, w') ->
  exists ll outs', exec_ledgers ledger ll (file w) = (outs', file w') /\ sublist outs outs'.
Proof.
  revert w outs. induction l as [|e l IH]; cbn; intros w outs H.
  { injection H as <- <-. by exists [], []. }
  destruct (exec_event ledger env e w) as [o1 w1] eqn:H1.
  destruct (exec_events ledger env l w1) as [o2 w2] eqn:H2. injection H as <- <-.
  destruct (exec_event_ledgers _ _ _ _ _ _ H1) as (l1 & r1 & Hl1 & Hs1).
  destruct (IH _ _ H2) as (l2 & r2 & Hl2 & Hs2).
  exists (l1 ++ l2), (r1 ++ r2). rewrite exec_ledgers_app, Hl1, Hl2. split; [done|by apply sublist_app].
Qed.

(** C20: over any sequence of guarded allocations, failures of the file system
    and of the driver, other ledger calls and replacements of the whole database
    by any other content (an older backup, an empty one), no address index is
    returned twice for a wallet. *)
Theorem no_index_reused_after_restore ledger env l w outs w' :
  exec_events ledger env l w = (outs, w') -> ledger_typed (file w) -> NoDup outs.
Proof.
  intros (ll & outs' & Hl & Hsub)%exec_events_ledgers Ht.
  destruct (exec_ledgers_spec _ _ _ _ _ Hl Ht) as (_ & Hnd & _).
  by eapply sublist_NoDup.
Qed.

(** * The address registry stays complete *)

(** The recorded and the skipped indices of a wallet are all indices below its
    high-water mark: what [OpenForServe] demands. *)
Definition covered (m : Manifest) (d : db) (walletID : string) : Prop :=
  forall s, Wallets m !! walletID = Some s -> forall i,
    (0 <= i < NextAddressIndex s) <->
    (i ∈ SkippedAddressIndices s \/ is_Some (db_addresses d !! (walletID, i))).

Definition file_works (f : fs_run) : Prop :=
  lock_fault f = None /\ read_fault f = None /\ write f = Written.

Lemma readAndVerify_works f expected m :
  file_works f -> manifest_ok m expected -> readAndVerify f expected (Some m) = Ok m.
Proof.
  intros (_ & Hr & _) Hok. unfold readAndVerify. rewrite Hr. cbn.
  by rewrite (proj2 (verifyManifest_spec _ _) Hok).
Qed.

Lemma update_works {A} f expected (change : Manifest -> result (A * Manifest)) m :
  file_works f -> manifest_ok m expected ->
  update f expected change (Some m) =
  match change m with Ok (a, m') => (Ok a, Some m') | Err e => (Err e, Some m) end.
Proof.
  intros Hf Hok. unfold update, withLock. pose proof Hf as (-> & _ & Hw).
  rewrite (readAndVerify_works _ _ _ Hf Hok). cbn. destruct (change m) as [[a m']|e]; [|done].
  unfold writeAtomic. by rewrite Hw.
Qed.

(** A working reservation: an index is handed out, or nothing changed. *)
Lemma reserve_works f expected walletID now m :
  file_works f -> manifest_ok m expected -> ledger_typed (Some m) ->
  (exists e, ReserveAddressIndex f expected walletID now (Some m) = (Err e, Some m)) \/
  (exists s, Wallets m !! walletID = Some s /\ uint32 (NextAddressIndex s) /\
     ReserveAddressIndex f expected walletID now (Some m) =
       (Ok (NextAddressIndex s),
        Some (set_wallet m walletID (set_next s (NextAddressIndex s + 1)) now))).
Proof.
  intros Hf Hok Hty. unfold ReserveAddressIndex. rewrite update_works by done. unfold reserve_change.
  destruct (Wallets m !! walletID) as [s|] eqn:Hs; [|left; eauto].
  destruct (Z.ltb_spec uint32_max (NextAddressIndex s)); [left; eauto|].
  assert (0 <= NextAddressIndex s) by (apply (Hty walletID); by rewrite high_water_some, Hs).
  right. exists s. rewrite wrapu32_id, wrapu64_id by (width; lia). split_and!; [done|width; lia|done].
Qed.

Lemma skip_works f expected walletID i now m s :
  file_works f -> manifest_ok m expected -> NoDup (map wi_WalletID (id_Wallets expected)) ->
  Wallets m !! walletID = Some s -> i < NextAddressIndex s ->
  exists m' s', MarkAddressIndexSkipped f expected walletID i now (Some m) = (Ok tt, Some m') /\
    Wallets m' = <[walletID := s']> (Wallets m) /\ NextAddressIndex s' = NextAddressIndex s /\
    forall x, x ∈ SkippedAddressIndices s' <-> x = i \/ x ∈ SkippedAddressIndices s.
Proof.
  intros Hf Hok Hnd Hs Hi. unfold MarkAddressIndexSkipped, withLock. pose proof Hf as (-> & _ & Hw).
  rewrite (readAndVerify_works _ _ _ Hf Hok). cbn [mbind result_bind]. unfold skip_change. rewrite Hs.
  destruct (Z.leb_spec (NextAddressIndex s) i); [lia|].
  destruct (manifest_domain _ _ _ _ Hok Hnd Hs) as (wi & _ & _ & (_&_&_&_&_&Hsort)).
  pose proof (insert_skipped_spec _ i Hsort) as Hspec.
  destruct (insert_skipped (SkippedAddressIndices s) i) as [l'|].
  - destruct Hspec as (_ & _ & Hin). unfold writeAtomic. rewrite Hw.
    exists (set_wallet m walletID (set_skipped s l') now), (set_skipped s l'). done.
  - exists m, s. rewrite insert_id by done. split_and!; [done|done|done|]. intros x. set_solver.
Qed.

Lemma covered_put m m' d d' walletID s s' :
  Wallets m !! walletID = Some s -> Wallets m' = <[walletID := s']> (Wallets m) ->
  (forall w i, w <> walletID -> db_addresses d' !! (w, i) = db_addresses d !! (w, i)) ->
  NextAddressIndex s' = NextAddressIndex s + 1 -> 0 <= NextAddressIndex s ->
  (forall x, (x ∈ SkippedAddressIndices s' \/ is_Some (db_addresses d' !! (walletID, x))) <->
     x = NextAddressIndex s \/ x ∈ SkippedAddressIndices s \/ is_Some (db_addresses d !! (walletID, x))) ->
  (forall w, covered m d w) -> forall w, covered m' d' w.
Proof.
  intros Hs Hws Hd Hn Hpos Hx Hall w t Ht i. rewrite Hws in Ht. destruct (decide (w = walletID)) as [->|Hne].
  - rewrite lookup_insert_eq in Ht. injection Ht as <-. rewrite Hx, <- (Hall _ _ Hs i), Hn. lia.
  - rewrite lookup_insert_ne in Ht by done. rewrite Hd by done. by apply Hall.
Qed.

(** while the ledger file can be read and written, an allocation keeps the
    registry of every wallet complete whatever the driver and the deriver do:
    the index it reserved is recorded with the address, or, if the database
    refused it, recorded as skipped; so the next start accepts the registry. *)
Theorem allocation_keeps_registry_complete ledger env w m walletID label derive r w' :
  validateIdentity ledger = Ok tt -> file w = Some m -> manifest_ok m ledger -> ledger_typed (file w) ->
  (forall id, covered m (tables w) id) ->
  (forall n, file_works (call_fs (env n)) /\ call_clock (env n) <> 0 /\ mf_CreatedAt m <= call_clock (env n)) ->
  AllocateAddress ledger walletID label derive env w = (r, w') ->
  exists m', file w' = Some m' /\ manifest_ok m' ledger /\ mf_CreatedAt m' = mf_CreatedAt m /\
    forall id, covered m' (tables w') id.
Proof.
  intros Hid%validateIdentity_NoDup Hfile Hok Hty Hcov Henv H. rewrite Hfile in Hty.
  apply AllocateAddress_cases in H
    as [(-> & -> & _)|(rr & w1 & (Hr & Ht1 & Hk1)%ledger_call_inv & Hcase)]; [eauto|].
  rewrite Hfile in Hr. destruct (Henv (tick w)) as (Hf & Hn & Hc).
  destruct (reserve_works _ _ walletID (call_clock (env (tick w))) _ Hf Hok Hty)
    as [[e He]|(s & Hs & Hu & He)]; rewrite He in Hr.
  { injection Hr as <- Hf1. destruct Hcase as [(e' & _ & -> & ->)|(i & ? & ? & [=] & _)].
    exists m. by rewrite Ht1. }
  injection Hr as <- Hf1.
  set (s1 := set_next s (NextAddressIndex s + 1)) in *.
  set (m1 := set_wallet m walletID s1 (call_clock (env (tick w)))) in *.
  assert (Hok1 : manifest_ok m1 ledger).
  { eapply manifest_ok_put; [done|done| |done|done]. intros wi. apply wallet_ok_reserve. width; lia. }
  destruct Hcase as [(e & [=] & _)|(i & rs & w2 & [= <-] & (Hst & Hf2 & Hk2)%store_call_inv & Hcase)].
  apply AllocateAddressAt_effect in Hst.
  destruct Hcase as [(a & -> & -> & ->)|(e & rm & e' & -> & -> & (Hm & Ht3 & Hk3)%ledger_call_inv)].
  - destruct Hst as [_ (fd & sd & row & _ & _ & _ & Hrow & _)]. exists m1. split_and!; [congruence|done|done|].
    eapply (covered_put m m1 _ _ walletID s s1); [done|done| |done|width; lia| |done].
    + intros id i Hne. rewrite Hrow, Ht1. apply lookup_insert_ne. congruence.
    + intros x. rewrite Hrow, Ht1. cbn [s1 set_next SkippedAddressIndices].
      destruct (decide (x = NextAddressIndex s)) as [->|].
      * rewrite lookup_insert_eq. naive_solver.
      * rewrite lookup_insert_ne by congruence. naive_solver.
  - rewrite Hf2, <- Hf1 in Hm. destruct (Henv (tick w2)) as (Hfm & Hn2 & Hc2).
    destruct (skip_works _ ledger walletID (NextAddressIndex s) (call_clock (env (tick w2))) m1 s1
                Hfm Hok1 Hid (lookup_insert_eq _ _ _) ltac:(cbn; lia)) as (m2 & s2 & Hsk & Hws & Hnx & Hin).
    rewrite Hsk in Hm. injection Hm as <- Hf3. exists m2. rewrite Ht3, Hst, Ht1.
    destruct (exec_ledger_verified ledger (LSkip walletID (NextAddressIndex s) (call_clock (env (tick w2))))
                (call_fs (env (tick w2))) m1 None (Some m2)) as (m3 & [= <-] & Hok2 & Hcr); try done.
    { eapply ledger_le_typed; [|exact Hty]. apply ledger_le_put with s; [done|cbn; lia]. }
    { cbn. by rewrite Hsk. }
    split_and!; [done|done|done|].
    eapply (covered_put m m2 _ _ walletID s s2); [done| |done| |width; lia| |done].
    + rewrite Hws. apply insert_insert_eq.
    + by rewrite Hnx.
    + intros x. rewrite Hin. cbn. naive_solver.
Qed.

(** * Concrete runs *)

Definition demo_env (n : nat) : call_env :=
  {| call_fs := fs_ok; call_io := if Nat.eqb n 5 then [None; Some "disk full"] else [];
     call_clock := 1000 + Z.of_nat n; call_ctx := None; call_random := Ok demo_random |}.

Definition demo_world : world := {| file := Some demo_manifest; tables := wallet_db; tick := 0 |}.

Definition demo_events : list event :=
  [ Allocate "hot" "a" (Some derive_const); Allocate "hot" "b" (Some derive_const);
    ReplaceTables wallet_db; Allocate "hot" "c" (Some derive_const); Allocate "hot" "d" (Some derive_const) ].

Example demo_events_indices :
  (exec_events demo_expected demo_env demo_events demo_world).1 = [("hot", 0); ("hot", 1); ("hot", 3)]%string.
Proof. vm_compute. reflexivity. Qed.

Lemma no_index_reused_after_restore_witness :
  NoDup (exec_events demo_expected demo_env demo_events demo_world).1.
Proof.
  destruct (exec_events demo_expected demo_env demo_events demo_world) as [outs w'] eqn:H.
  exact (no_index_reused_after_restore _ _ _ _ _ _ H demo_typed).
Defined.

Lemma demo_covered id : covered demo_manifest wallet_db id.
Proof.
  intros s Hs i. apply initial_wallets_zero in Hs as [Hs|(_ & -> & ->)]; [by rewrite lookup_empty in Hs|].
  assert (Hd : db_addresses wallet_db = ∅) by (vm_compute; reflexivity).
  rewrite Hd, lookup_empty. split; [lia|intros [Hin|[? [=]]]]. by apply elem_of_nil in Hin.
Qed.

Lemma demo_env_works n :
  file_works (call_fs (demo_env n)) /\ call_clock (demo_env n) <> 0 /\
  mf_CreatedAt demo_manifest <= call_clock (demo_env n).
Proof. unfold file_works. cbn. split_and!; try done; lia. Qed.

Lemma allocation_keeps_registry_complete_witness :
  exists r w' m', AllocateAddress demo_expected "hot" "a" (Some derive_const) demo_env demo_world = (Ok r, w') /\
    file w' = Some m' /\ covered m' (tables w') "hot".
Proof.
  assert (Hv : is_ok (fst (AllocateAddress demo_expected "hot" "a" (Some derive_const) demo_env demo_world)) = true)
    by (vm_compute; reflexivity).
  assert (Hid : validateIdentity demo_expected = Ok tt) by (vm_compute; reflexivity).
  destruct (AllocateAddress demo_expected "hot" "a" (Some derive_const) demo_env demo_world)
    as [[a|e] w'] eqn:H; [|discriminate Hv].
  destruct (allocation_keeps_registry_complete demo_expected demo_env demo_world demo_manifest _ _ _ _ _ Hid eq_refl demo_ok demo_typed demo_covered
              demo_env_works H) as (m' & Hf & _ & _ & Hc).
  exact (ex_intro _ a (ex_intro _ w' (ex_intro _ m' (conj eq_refl (conj Hf (Hc "hot"%string)))))).
Defined.
