(* ===== verification/Lifecycle.v ===== *)
(** The lifecycle commands of [internal/lifecycle/lifecycle.go]: [Initialize],
    [OpenForServe], [RecoveryTargets], [RecoveryChecksum], [Recover] and
    [UnsealCoordinatorRecovery], over the manifest file, the tables and an
    address deriver (the [juno-addrgen] program), whose answers are a parameter. *)
From S2P Require Import Prelude Tx GoString GoTime Sha256 Domain Config Database Wallets Installation Guarded.

Definition InitAcknowledgement : string := "I_UNDERSTAND_THIS_CREATES_A_NEW_JUNO_INSTALLATION".
Definition RecoverAcknowledgement : string := "I_UNDERSTAND_RECOVERY_REBUILDS_JUNO_ADDRESS_STATE".
Definition CoordinatorRecoveryUnsealAcknowledgement : string :=
  "I_HAVE_RECONCILED_ALL_PRIOR_JUNO_TRANSACTION_ATTEMPTS".

(** [Deriver] and [batchDeriver]; the first argument is the number of the call. *)
Record Deriver := {
  Derive : nat -> string -> Z -> result string;
  DeriveBatch : option (nat -> string -> Z -> Z -> result (list string))
}.

Definition wallet_identity (w : Config.Wallet) : WalletIdentity :=
  {| wi_WalletID := Config.WalletID w; wi_UFVKFingerprint := Config.UFVKFingerprint w;
     wi_BirthdayHeight := Config.BirthdayHeight w; wi_Account := Config.Account w |}.

Definition Identity_of (cfg : Config.Config) : Installation.Identity :=
  {| id_Network := network_string (Config.Network cfg);
     id_Wallets := map wallet_identity (Config.Wallets cfg) |}.

(** * Derivation *)

Definition validateDerivedAddress (raw expectedPrefix : string) : result string :=
  let address := TrimSpace raw in
  if String.eqb address "" then Err (New "address deriver returned an empty address")
  else if String.eqb expectedPrefix "" || negb (HasPrefix address expectedPrefix)
  then Err (New ("derived address does not match expected network prefix " +:+ quote expectedPrefix))
  else Ok address.

Definition in_wallet (before wallet after : string) : error -> error :=
  Wrap (before +:+ quote wallet +:+ after).

Fixpoint validate_first_addresses (deriver : Deriver) (prefix : string) (seen : gmap string string)
    (wallets : list Config.Wallet) : W unit :=
  match wallets with
  | [] => mret tt
  | wallet :: rest =>
      let id := Config.WalletID wallet in
      let derive := outside_call (fun n => Derive deriver n (Config.UFVK wallet) 0) in
      first ← w_map_err (in_wallet "validate wallet " id " UFVK") derive;
      first ← w_lift (map_err (in_wallet "validate wallet " id " UFVK") (validateDerivedAddress first prefix));
      second ← w_map_err (in_wallet "repeat wallet " id " UFVK validation") derive;
      second ← w_lift (map_err (in_wallet "repeat wallet " id " UFVK validation")
                         (validateDerivedAddress second prefix));
      if negb (String.eqb first second)
      then w_fail (New ("wallet " +:+ quote id +:+ " address derivation is not deterministic"))
      else match seen !! first with
           | Some other => w_fail (New ("wallet " +:+ quote id
                             +:+ " derives the same first address as wallet " +:+ quote other))
           | None => validate_first_addresses deriver prefix (<[first := id]> seen) rest
           end
  end.

Definition address_prefix (cfg : Config.Config) : string := AddressHRP (Config.Network cfg) +:+ "1".

Definition validateConfiguredWallets (cfg : Config.Config) (deriver : option Deriver) : W unit :=
  match deriver with
  | None => w_fail (New "address deriver is required")
  | Some deriver => validate_first_addresses deriver (address_prefix cfg) ∅ (Config.Wallets cfg)
  end.

Definition batchSize : Z := 10000.

Definition at_index (index : Z) : error -> error := Wrap ("index " +:+ pretty index).

Section each.
Context {St : Type} (visit : St -> Z -> string -> W St) (addressPrefix : string).

Definition validatedVisit (seen : gmap string Z) (st : St) (index : Z) (raw : string)
    : W (gmap string Z * St) :=
  address ← w_lift (map_err (at_index index) (validateDerivedAddress raw addressPrefix));
  match seen !! address with
  | Some previous => w_fail (New ("index " +:+ pretty index +:+ " duplicates address derived at index "
                                  +:+ pretty previous))
  | None => st' ← visit st index address; mret (<[address := index]> seen, st')
  end.

(** The addresses of one batch, the first at index [start]. *)
Fixpoint visit_batch (seen : gmap string Z) (st : St) (start : Z) (addresses : list string)
    : W (gmap string Z * St) :=
  match addresses with
  | [] => mret (seen, st)
  | address :: rest =>
      '(seen', st') ← validatedVisit seen st (wrapu32 start) address;
      visit_batch seen' st' (start + 1) rest
  end.

Fixpoint batch_loop (fuel : nat) (batched : nat -> string -> Z -> Z -> result (list string))
    (ufvk : string) (start target : Z) (seen : gmap string Z) (st : St) : W St :=
  match fuel with
  | O => mret st
  | S fuel' =>
      if start <? target then
        _ ← ctx_Err;
        let count := Z.min (target - start) batchSize in
        addresses ← w_map_err (Wrap ("batch " +:+ pretty start +:+ ".." +:+ pretty (start + count - 1)))
                      (outside_call (fun n => batched n ufvk (wrapu32 start) (wrapu32 count)));
        if negb (Z.of_nat (length addresses) =? count)
        then w_fail (New ("batch " +:+ pretty start +:+ " returned "
                          +:+ pretty (Z.of_nat (length addresses)) +:+ " addresses, want " +:+ pretty count))
        else
          '(seen', st') ← visit_batch seen st start addresses;
          batch_loop fuel' batched ufvk (start + count) target seen' st'
      else mret st
  end.

Fixpoint single_loop (fuel : nat) (derive : nat -> string -> Z -> result string)
    (ufvk : string) (index target : Z) (seen : gmap string Z) (st : St) : W St :=
  match fuel with
  | O => mret st
  | S fuel' =>
      if index <? target then
        _ ← ctx_Err;
        address ← w_map_err (at_index index) (outside_call (fun n => derive n ufvk (wrapu32 index)));
        '(seen', st') ← validatedVisit seen st (wrapu32 index) address;
        single_loop fuel' derive ufvk (index + 1) target seen' st'
      else mret st
  end.

(** [visit] threads the variables its closure assigns. *)
Definition forEachDerivedAddress (deriver : Deriver) (ufvk : string) (target : Z) (st : St) : W St :=
  match DeriveBatch deriver with
  | Some batched => batch_loop (S (Z.to_nat (target / batchSize))) batched ufvk 0 target ∅ st
  | None => single_loop (Z.to_nat target) (Derive deriver) ufvk 0 target ∅ st
  end.
End each.

(** * Coverage *)

Fixpoint coverage_loop (walletID : string) (present : list Z) : list Z -> Z -> result Z :=
  fix go (skipped : list Z) (covered : Z) : result Z :=
    let incomplete := New ("gateway address registry for wallet " +:+ quote walletID
          +:+ " is incomplete at index " +:+ pretty covered +:+ "; run audited recovery") in
    match present, skipped with
    | [], [] => Ok covered
    | [], index :: skipped' =>
        if negb (index =? covered) then Err incomplete else go skipped' (covered + 1)
    | index :: present', [] =>
        if negb (index =? covered) then Err incomplete
        else coverage_loop walletID present' [] (covered + 1)
    | p :: present', s :: skipped' =>
        if p <? s then
          if negb (p =? covered) then Err incomplete
          else coverage_loop walletID present' skipped (covered + 1)
        else if s <? p then
          if negb (s =? covered) then Err incomplete else go skipped' (covered + 1)
        else
          if negb (p =? covered) then Err incomplete
          else coverage_loop walletID present' skipped' (covered + 1)
    end.

Definition verifyAddressCoverage (walletID : string) (next : Z) (skipped present : list Z) : result unit :=
  covered ← coverage_loop walletID present skipped 0;
  if negb (covered =? next)
  then Err (New ("gateway address registry for wallet " +:+ quote walletID +:+ " covers " +:+ pretty covered
                 +:+ " indices but installation high-water is " +:+ pretty next +:+ "; run audited recovery"))
  else Ok tt.

(** The loop over the manifest's wallets; [skipped] chooses the indices that
    count as skipped. *)
Fixpoint verify_coverage (skipped : WalletState -> list Z) (wallets : list (string * WalletState)) : W unit :=
  match wallets with
  | [] => mret tt
  | (walletID, wallet) :: rest =>
      indices ← store_call (fun _ => AddressIndices walletID);
      _ ← w_lift (verifyAddressCoverage walletID (NextAddressIndex wallet) (skipped wallet) indices);
      verify_coverage skipped rest
  end.

(** * Commands *)

Definition Exists : W bool := fun env w =>
  (match read_fault (call_fs (env (tick w))) with
   | Some e => Err (Wrap "inspect installation manifest" e)
   | None => Ok (bool_decide (is_Some (file w)))
   end, {| file := file w; tables := tables w; tick := S (tick w) |}).

Definition open_ledger (cfg : Config.Config) : W (Installation.Identity * Manifest) :=
  ledger_call (fun fs _ file =>
    (Installation.Open fs (Config.InstallationStatePath cfg) (Identity_of cfg) file, file)).

Definition create_ledger (cfg : Config.Config) : W (Installation.Identity * Manifest) := fun env w =>
  ledger_call (fun fs now => Installation.Create fs (Config.InstallationStatePath cfg) (Identity_of cfg)
                 (call_random (env (tick w))) now) env w.

Definition ensure_wallet (cfg : Config.Config) (wallet : Config.Wallet) : W unit :=
  store_call (fun now => EnsureWallet (Config.WalletID wallet) (network_string (Config.Network cfg))
                           (Config.UFVKFingerprint wallet) (Config.BirthdayHeight wallet) now).

Definition use_recover (text : string) : error -> error :=
  Wrap (text +:+ "; the manifest now exists, so use recover rather than init after correcting the cause").

Fixpoint ensure_wallets (cfg : Config.Config) (wallets : list Config.Wallet) : W unit :=
  match wallets with
  | [] => mret tt
  | wallet :: rest =>
      _ ← w_map_err (use_recover ("initialize wallet " +:+ quote (Config.WalletID wallet)))
            (ensure_wallet cfg wallet);
      ensure_wallets cfg rest
  end.

Definition Initialize (cfg : Config.Config) (deriver : option Deriver) (acknowledgement : string)
    : W Manifest :=
  if negb (String.eqb acknowledgement InitAcknowledgement)
  then w_fail (New ("init requires exact acknowledgement " +:+ quote InitAcknowledgement))
  else
    exists_ ← Exists;
    if (exists_ : bool) then w_fail (New "installation manifest already exists; init is one-time only")
    else
      _ ← validateConfiguredWallets cfg deriver;
      _ ← store_call (fun _ => AssertInitializable);
      '(_, manifest) ← create_ledger cfg;
      _ ← w_map_err (use_recover "prepare initialized database binding")
            (store_call (fun _ => BeginInstallationRecovery (InstallationID manifest)));
      _ ← ensure_wallets cfg (Config.Wallets cfg);
      _ ← w_map_err (use_recover "bind initialized database")
            (store_call (fun _ => BindInstallation (InstallationID manifest)));
      mret manifest.

Definition mismatch (boundID id : string) : error :=
  New ("gateway database installation mismatch: database=" +:+ quote boundID +:+ " manifest=" +:+ quote id).

(** The ledger of the guarded store it returns, and the manifest. *)
Definition OpenForServe (cfg : Config.Config) : W (Installation.Identity * Manifest) :=
  '(state, manifest) ← open_ledger cfg;
  boundID ← store_call (fun _ => Wallets.InstallationID);
  match boundID with
  | None => w_fail (New "gateway database is not bound to this installation; normal serve will not rebuild empty state, run the audited recover command")
  | Some boundID =>
      if negb (String.eqb boundID (InstallationID manifest))
      then w_fail (mismatch boundID (InstallationID manifest))
      else
        _ ← verify_coverage SkippedAddressIndices (map_to_list (Installation.Wallets manifest));
        mret (state, manifest)
  end.

Fixpoint override_targets (overrides : list (string * Z)) (targets : gmap string Z)
    : result (gmap string Z) :=
  match overrides with
  | [] => Ok targets
  | (walletID, target) :: rest =>
      match targets !! walletID with
      | None => Err (New ("recovery override references unknown wallet " +:+ quote walletID))
      | Some current =>
          if target <? current
          then Err (New ("wallet " +:+ quote walletID +:+ " recovery high-water cannot decrease from "
                         +:+ pretty current +:+ " to " +:+ pretty target))
          else if uint32_max + 1 <? target
          then Err (New ("wallet " +:+ quote walletID +:+ " recovery high-water exceeds the address index space"))
          else override_targets rest (<[walletID := target]> targets)
      end
  end.

Definition RecoveryTargets (manifest : Manifest) (overrides : gmap string Z) : result (gmap string Z) :=
  override_targets (map_to_list overrides) (NextAddressIndex <$> Installation.Wallets manifest).

Definition by_id (x y : Config.Wallet) : Prop := String.le (Config.WalletID x) (Config.WalletID y).

Definition sorted_wallets (cfg : Config.Config) : list Config.Wallet := merge_sort by_id (Config.Wallets cfg).

Definition add_mapping (walletID : string) (checksum : string) (index : Z) (address : string) : W string :=
  mret (Add checksum walletID index (TrimSpace address)).

Fixpoint checksum_wallets (cfg : Config.Config) (targets : gmap string Z) (deriver : Deriver)
    (wallets : list Config.Wallet) (checksum : string) : W string :=
  match wallets with
  | [] => mret checksum
  | wallet :: rest =>
      let id := Config.WalletID wallet in
      match targets !! id with
      | None => w_fail (New ("recovery target is missing wallet " +:+ quote id))
      | Some target =>
          checksum' ← w_map_err (in_wallet "derive wallet " id " recovery mapping")
            (forEachDerivedAddress (add_mapping id) (address_prefix cfg) deriver (Config.UFVK wallet)
               target checksum);
          checksum_wallets cfg targets deriver rest checksum'
      end
  end.

Definition RecoveryChecksum (cfg : Config.Config) (manifest : Manifest) (targets : gmap string Z)
    (deriver : option Deriver) : W string :=
  match deriver with
  | None => w_fail (New "address deriver is required")
  | Some deriver =>
      checksum ← checksum_wallets cfg targets deriver (sorted_wallets cfg)
        (NewMappingChecksum (network_string (Config.Network cfg)) (InstallationID manifest));
      mret (Sum checksum)
  end.

(** The callback of [AllocateAddressAt] checks the index it is asked for. *)
Definition recovery_derive (index : Z) (address : string) : DeriveFunc := fun requested =>
  if negb (requested =? index) then Err (New "storage requested a different recovery index") else Ok address.

Definition restore_address (walletID : string) (st : unit) (index : Z) (address : string) : W unit :=
  _ ← store_call (fun now => Wallets.AllocateAddressAt walletID index "" (Some (recovery_derive index address)) now);
  mret tt.

Fixpoint restore_wallets (cfg : Config.Config) (targets : gmap string Z) (deriver : Deriver)
    (wallets : list Config.Wallet) : W unit :=
  match wallets with
  | [] => mret tt
  | wallet :: rest =>
      let id := Config.WalletID wallet in
      _ ← w_map_err (in_wallet "recover wallet " id "") (ensure_wallet cfg wallet);
      _ ← w_map_err (in_wallet "recover wallet " id " registry")
            (forEachDerivedAddress (restore_address id) (address_prefix cfg) deriver (Config.UFVK wallet)
               (default 0 (targets !! id)) tt);
      restore_wallets cfg targets deriver rest
  end.

(** [hex.DecodeString] gives 32 bytes and the text is in lower case. *)
Definition lower_sha256 (s : string) : bool := lower_hex32_bytes s.

Definition Recover (cfg : Config.Config) (deriver : option Deriver)
    (acknowledgement expectedChecksum : string) (overrides : gmap string Z) : W Manifest :=
  if negb (String.eqb acknowledgement RecoverAcknowledgement)
  then w_fail (New ("recover requires exact acknowledgement " +:+ quote RecoverAcknowledgement))
  else
    '(state, manifest) ← open_ledger cfg;
    bound ← store_call (fun _ => Wallets.InstallationID);
    match bound with
    | Some existing =>
        if negb (String.eqb existing (InstallationID manifest))
        then w_fail (New ("gateway database belongs to installation " +:+ quote existing +:+ ", not "
                          +:+ quote (InstallationID manifest)))
        else w_fail (New "gateway database is already bound to this installation; recovery is not required")
    | None =>
        targets ← w_lift (RecoveryTargets manifest overrides);
        let expectedChecksum := TrimSpace expectedChecksum in
        if negb (lower_sha256 expectedChecksum)
        then w_fail (New "recover requires a 64-character lowercase --mapping-sha256 from recovery-checksum")
        else
          actualChecksum ← RecoveryChecksum cfg manifest targets deriver;
          if negb (String.eqb actualChecksum expectedChecksum)
          then w_fail (New ("recovery mapping checksum mismatch: calculated=" +:+ actualChecksum))
          else
            _ ← store_call (fun _ => BeginInstallationRecovery (InstallationID manifest));
            manifest ← ledger_call (fun fs now => RaiseHighWater fs state (map_to_list targets) now);
            match deriver with
            | None => w_fail (New "address deriver is required")
            | Some deriver =>
                _ ← restore_wallets cfg targets deriver (sorted_wallets cfg);
                manifest ← w_map_err (Wrap "complete recovered address ledger")
                  (ledger_call (fun fs now => ClearSkippedAddressIndices fs state now));
                _ ← verify_coverage (fun _ => []) (map_to_list (Installation.Wallets manifest));
                _ ← w_map_err (Wrap "complete recovered database binding")
                      (store_call (fun _ => BindRecoveredInstallation (InstallationID manifest)));
                mret manifest
            end
    end.

Definition reference_char (c : ascii) : bool := is_alnum c || one_of "._:/@+-" c.

Definition validReconciliationReference (value : string) : bool :=
  negb (len value =? 0) && negb (128 <? len value) && forallb reference_char (to_bytes value).

Definition UnsealCoordinatorRecovery (cfg : Config.Config)
    (acknowledgement expectedInstallationID reconciliationReference : string) : W (Manifest * bool) :=
  if negb (String.eqb acknowledgement CoordinatorRecoveryUnsealAcknowledgement)
  then w_fail (New ("recovery-unseal-coordinator requires exact acknowledgement "
                    +:+ quote CoordinatorRecoveryUnsealAcknowledgement))
  else
    let reconciliationReference := TrimSpace reconciliationReference in
    if negb (validReconciliationReference reconciliationReference)
    then w_fail (New "recovery-unseal-coordinator requires a 1-128 character non-secret --reconciliation-reference using letters, digits, '.', '_', ':', '/', '@', '+', or '-'")
    else
      '(_, manifest) ← open_ledger cfg;
      let expectedInstallationID := TrimSpace expectedInstallationID in
      if negb (lower_sha256 expectedInstallationID)
      then w_fail (New "recovery-unseal-coordinator requires the exact 64-character lowercase --installation-id emitted by recover")
      else if negb (String.eqb expectedInstallationID (InstallationID manifest))
      then w_fail (New ("recovery unseal installation mismatch: expected=" +:+ quote expectedInstallationID
                        +:+ " manifest=" +:+ quote (InstallationID manifest)))
      else
        boundID ← store_call (fun _ => Wallets.InstallationID);
        match boundID with
        | None => w_fail (New "gateway database is not bound to this installation; complete audited recovery first")
        | Some boundID =>
            if negb (String.eqb boundID (InstallationID manifest))
            then w_fail (mismatch boundID (InstallationID manifest))
            else
              unsealed ← store_call (fun now =>
                Wallets.UnsealCoordinatorRecovery (InstallationID manifest) reconciliationReference now);
              mret (manifest, unsealed)
        end.

(** * Coverage of an address registry *)

Lemma coverage_step (P : Z -> Prop) c c' :
  P c -> (forall i, P i -> c <= i) ->
  (c <= c' /\ forall i, P i <-> c <= i < c') <->
  (c + 1 <= c' /\ forall i, (P i /\ i <> c) <-> c + 1 <= i < c').
Proof.
  intros Hc Hmin. split; intros [Hle Hall].
  - assert (c <= c < c') by by apply Hall. split; [lia|]. intros i. rewrite Hall. lia.
  - split; [lia|]. intros i. specialize (Hall i). destruct (decide (i = c)) as [->|]; [|naive_solver lia].
    split; [lia|done].
Qed.

Lemma coverage_loop_spec id present skipped c c' :
  StronglySorted Z.lt present -> StronglySorted Z.lt skipped ->
  (forall i, i ∈ present \/ i ∈ skipped -> c <= i) ->
  coverage_loop id present skipped c = Ok c' <->
  (c <= c' /\ forall i, (i ∈ present \/ i ∈ skipped) <-> c <= i < c').
Proof.
  remember (length present + length skipped)%nat as n eqn:Hn.
  revert present skipped c Hn. induction n as [n IH] using lt_wf_ind.
  intros present skipped c -> Hp Hs Hmin.
  assert (Hcons : forall x (l : list Z), StronglySorted Z.lt (x :: l) ->
    StronglySorted Z.lt l /\ (forall i, i ∈ l <-> i ∈ x :: l /\ i <> x) /\ (forall i, i ∈ l -> x < i)).
  { intros x l [Hl Hx]%StronglySorted_inv. rewrite Forall_forall in Hx. split_and!; [done| |done].
    intros i. rewrite elem_of_cons. split; [|tauto]. intros Hi. specialize (Hx _ Hi). split; [tauto|lia]. }
  assert (Hgo : forall k pr sk x,
    coverage_loop id present skipped c = (if negb (x =? c) then Err k else coverage_loop id pr sk (c + 1)) ->
    StronglySorted Z.lt pr -> StronglySorted Z.lt sk -> (length pr + length sk < length present + length skipped)%nat ->
    (x ∈ present \/ x ∈ skipped) -> (forall i, (i ∈ pr \/ i ∈ sk) <-> (i ∈ present \/ i ∈ skipped) /\ i <> x) ->
    (forall i, i ∈ present \/ i ∈ skipped -> x <= i) ->
    coverage_loop id present skipped c = Ok c' <->
    (c <= c' /\ forall i, (i ∈ present \/ i ∈ skipped) <-> c <= i < c')).
  { intros k pr sk x Heq Hp' Hs' Hlen Hx Hrest Hmin'. rewrite Heq.
    pose proof (Hmin x Hx). destruct (Z.eqb_spec x c) as [Hxc|Hne]; cbn [negb].
    - clear Heq. subst x. rewrite (IH _ Hlen pr sk (c + 1) eq_refl Hp' Hs').
      + rewrite (coverage_step (fun i => i ∈ present \/ i ∈ skipped)) by done.
        apply and_iff_compat_l. split; intros Ha i; rewrite <- Ha, Hrest; done.
      + intros i [Hi Hne]%Hrest. specialize (Hmin _ Hi). lia.
    - split; [done|]. intros [Hle Ha]. assert (c <= c < c') as Hc by (pose proof (proj1 (Ha x) Hx); lia).
      apply Ha, Hmin' in Hc. lia. }
  destruct present as [|p pr], skipped as [|s sk].
  - cbn. split.
    + intros [= ->]. split; [lia|]. intros i. rewrite elem_of_nil. lia.
    + intros [Hle Ha]. destruct (decide (c = c')) as [->|]; [done|].
      destruct (proj2 (Ha c) ltac:(lia)) as [H|H]; by apply elem_of_nil in H.
  - destruct (Hcons _ _ Hs) as (? & Hin & Hlt). eapply (Hgo _ [] sk s eq_refl); try done; cbn; try lia.
    + right. left.
    + intros i. rewrite Hin. rewrite !elem_of_nil. tauto.
    + intros i [Hi|[->|Hi]%elem_of_cons]; [by apply elem_of_nil in Hi|lia|apply Hlt in Hi; lia].
  - destruct (Hcons _ _ Hp) as (? & Hin & Hlt). eapply (Hgo _ pr [] p eq_refl); try done; cbn; try lia.
    + left. left.
    + intros i. rewrite Hin. rewrite !elem_of_nil. tauto.
    + intros i [[->|Hi]%elem_of_cons|Hi]; [lia|apply Hlt in Hi; lia|by apply elem_of_nil in Hi].
  - destruct (Hcons _ _ Hs) as (Hsk & Hin & Hlt), (Hcons _ _ Hp) as (Hpr & Hin' & Hlt').
    destruct (Z.lt_trichotomy p s) as [H|[->|H]].
    + eapply (Hgo _ pr (s :: sk) p); try done; cbn [length]; try lia.
      * cbn. destruct (Z.ltb_spec p s); [done|lia].
      * left. left.
      * intros i. rewrite Hin'. assert (i ∈ s :: sk -> i <> p); [|tauto].
        intros Hi ->. apply elem_of_cons in Hi as [->|Hi%Hlt]; lia.
      * intros i [[->|Hi%Hlt']%elem_of_cons|[->|Hi%Hlt]%elem_of_cons]; lia.
    + eapply (Hgo _ pr sk s); try done; cbn [length]; try lia.
      * cbn. destruct (Z.ltb_spec s s); [lia|done].
      * left. left.
      * intros i. rewrite Hin, Hin'. tauto.
      * intros i [[->|Hi%Hlt']%elem_of_cons|[->|Hi%Hlt]%elem_of_cons]; lia.
    + eapply (Hgo _ (p :: pr) sk s); try done; cbn [length]; try lia.
      * cbn. destruct (Z.ltb_spec p s); [lia|]. by destruct (Z.ltb_spec s p); [|lia].
      * right. left.
      * intros i. rewrite Hin. assert (i ∈ p :: pr -> i <> s); [|tauto].
        intros Hi ->. apply elem_of_cons in Hi as [->|Hi%Hlt']; lia.
      * intros i [[->|Hi%Hlt']%elem_of_cons|[->|Hi%Hlt]%elem_of_cons]; lia.
Qed.

Lemma coverage_ok id next skipped present :
  StronglySorted Z.lt present -> StronglySorted Z.lt skipped ->
  (forall i, i ∈ present \/ i ∈ skipped -> 0 <= i) -> 0 <= next ->
  verifyAddressCoverage id next skipped present = Ok tt <->
  (forall i, (0 <= i < next) <-> (i ∈ skipped \/ i ∈ present)).
Proof.
  intros Hp Hs Hmin Hn. unfold verifyAddressCoverage.
  assert (Hl := fun c => coverage_loop_spec id present skipped 0 c Hp Hs Hmin).
  rewrite result_bind_ok. split.
  - intros (c & Hc & H). destruct (Z.eqb_spec c next) as [->|]; [|done].
    apply Hl in Hc as [_ Ha]. intros i. rewrite <- Ha. tauto.
  - intros Ha. exists next. rewrite Hl, Z.eqb_refl. split; [|done]. split; [done|].
    intros i. rewrite Ha. tauto.
Qed.

(** What [AddressIndices] reads. *)
Lemma check_indices_ok l l' :
  check_indices l = Ok l' -> l' = l /\ Forall (fun i => 0 <= i) l.
Proof.
  revert l'. induction l as [|i l IH]; cbn; intros l' H; [injection H as <-; by split; [|constructor]|].
  case_match eqn:Hi; [done|]. apply result_bind_ok in H as (r & [-> ?]%IH & [= <-]). bool_to_prop.
  by split; [|constructor].
Qed.

Lemma wallet_indices_NoDup (m : gmap (string * Z) address_row) walletID :
  NoDup (map (fun kr => kr.1.2) (rows_where (fun k _ => String.eqb k.1 walletID) m)).
Proof.
  unfold rows_where. apply NoDup_fmap_2_strong; [|apply NoDup_filter, NoDup_map_to_list].
  intros [[w1 i1] r1] [[w2 i2] r2] Hin1 Hin2 Heq. cbn in *.
  apply list_elem_of_filter in Hin1 as [H1 Hl1%elem_of_map_to_list].
  apply list_elem_of_filter in Hin2 as [H2 Hl2%elem_of_map_to_list]. cbn in *.
  apply String.eqb_eq in H1, H2. subst. by simplify_eq.
Qed.

Lemma AddressIndices_ok walletID io d l d' :
  AddressIndices walletID io d = (Ok l, d') ->
  d' = d /\ StronglySorted Z.lt l /\ Forall (fun i => 0 <= i) l /\
  forall i, i ∈ l <-> is_Some (db_addresses d !! (walletID, i)).
Proof.
  unfold AddressIndices. intros [[-> (e & [=])]|(a & io2 & [= ->] & H)]%run_auto_cases. tx_inv.
  match goal with H : check_indices _ = Ok _ |- _ => apply check_indices_ok in H as [-> Hpos] end.
  split_and!; [done| |done|].
  - set (l := map _ _). assert (Hnd : NoDup (merge_sort Z.le l)).
    { rewrite merge_sort_Permutation. apply wallet_indices_NoDup. }
    pose proof (StronglySorted_merge_sort Z.le l) as Hs. revert Hnd Hs.
    generalize (merge_sort Z.le l). induction 2 as [|x k Hk IH Hx]; constructor.
    + apply IH. by apply NoDup_cons in Hnd as [_ ?].
    + apply NoDup_cons in Hnd as [Hn _]. rewrite Forall_forall in *. intros y Hy. specialize (Hx y Hy).
      assert (y <> x) by (by intros ->). lia.
  - intros i. rewrite merge_sort_Permutation. rewrite list_elem_of_fmap. split.
    + intros ([[w j] r] & -> & Hin%elem_of_rows_where). cbn in *. destruct Hin as [Hl ->%String.eqb_eq].
      by eexists.
    + intros [r Hr]. exists ((walletID, i), r). split; [done|]. apply elem_of_rows_where. cbn.
      by rewrite String.eqb_refl.
Qed.

Definition same_stores (w w' : world) : Prop := file w' = file w /\ tables w' = tables w.

(** A successful check of the coverage read the tables and changed nothing. *)
Lemma verify_coverage_ok skipped ws env w w' :
  verify_coverage skipped ws env w = (Ok tt, w') ->
  (forall id s, (id, s) ∈ ws -> StronglySorted Z.lt (skipped s) /\ 0 <= NextAddressIndex s /\
     Forall (fun i => 0 <= i) (skipped s)) ->
  same_stores w w' /\
  forall id s, (id, s) ∈ ws -> forall i, (0 <= i < NextAddressIndex s) <->
    (i ∈ skipped s \/ is_Some (db_addresses (tables w) !! (id, i))).
Proof.
  revert w. induction ws as [|[id s] ws IH]; cbn [verify_coverage]; intros w H Hwf.
  { injection H as <-. split; [done|]. intros id s Hin. by apply elem_of_nil in Hin. }
  apply w_bind_ok in H as (l & w1 & (Hl & Hf1 & _)%store_call_inv & H).
  apply w_bind_ok in H as ([] & w2 & [= Hv <-] & H).
  apply AddressIndices_ok in Hl as (Ht1 & Hsort & Hpos & Hin).
  destruct (Hwf id s ltac:(left)) as (Hsk & Hnx & Hspos).
  destruct (IH _ H) as [[Hf Ht] Hall]; [intros; apply (Hwf id0); by right|].
  split; [split; congruence|]. rewrite Ht1 in Hall.
  intros id' s' [[= -> ->]|?]%elem_of_cons; [|by apply Hall].
  intros i. rewrite <- Hin. revert i. apply coverage_ok with id; [done|done| |done|done].
  rewrite Forall_forall in Hpos, Hspos. intros i [?|?]; auto.
Qed.

(** * Targets *)

Lemma override_targets_spec (l : list (string * Z)) (targets t : gmap string Z) :
  NoDup l.*1 ->
  override_targets l targets = Ok t <->
  (Forall (fun p => exists current, targets !! p.1 = Some current /\ current <= p.2 <= uint32_max + 1) l /\
   t = list_to_map l ∪ targets).
Proof.
  revert targets. induction l as [|[id target] l IH]; intros targets Hnd.
  { cbn. rewrite (left_id_L ∅ (∪)). split; [intros [= ->]; by split|intros [_ ->]; done]. }
  apply NoDup_cons in Hnd as [Hnin Hnd]. rewrite Forall_cons. cbn [override_targets fst snd list_to_map].
  change (list_to_map ((id, target) :: l)) with (<[id := target]> (list_to_map l : gmap string Z)).
  destruct (targets !! id) as [current|] eqn:Hc; [|split; [done|intros [[(? & [=] & _) _] _]]].
  destruct (Z.ltb_spec target current);
    [split; [done|intros [[(? & [= <-] & ?) _] _]; lia]|].
  destruct (Z.ltb_spec (uint32_max + 1) target);
    [split; [done|intros [[(? & [= <-] & ?) _] _]; lia]|].
  rewrite (IH _ Hnd).
  assert (list_to_map l !! id = (None : option Z)) as Hnone by by apply not_elem_of_list_to_map_1.
  assert (list_to_map l ∪ <[id := target]> targets = <[id := target]> (list_to_map l) ∪ targets) as ->.
  { apply map_eq. intros x. rewrite <- insert_union_l.
    destruct (decide (id = x)) as [<-|]; [rewrite lookup_insert_eq, lookup_union_r by done; apply lookup_insert_eq|].
    rewrite lookup_insert_ne by done. rewrite !lookup_union. by rewrite lookup_insert_ne. }
  assert (Hf : Forall (fun p => exists current0, <[id := target]> targets !! p.1 = Some current0 /\
                 current0 <= p.2 <= uint32_max + 1) l <->
               Forall (fun p => exists current0, targets !! p.1 = Some current0 /\
                 current0 <= p.2 <= uint32_max + 1) l).
  { rewrite !Forall_forall. apply forall_proper. intros p. split; intros H1 Hp; specialize (H1 Hp);
      (assert (id <> p.1) by (intros Heq; apply Hnin; rewrite Heq; apply list_elem_of_fmap; by exists p));
      [rewrite lookup_insert_ne in H1|rewrite lookup_insert_ne]; done. }
  rewrite Hf. split; [intros [? ->]|intros [[_ ?] ->]]; split_and!; try done. eexists; split; [done|]. lia.
Qed.

Lemma recovery_targets_union (m : Manifest) (overrides t : gmap string Z) :
  RecoveryTargets m overrides = Ok t <->
  ((forall id target, overrides !! id = Some target ->
      exists s, Installation.Wallets m !! id = Some s /\ NextAddressIndex s <= target <= uint32_max + 1) /\
   t = overrides ∪ (NextAddressIndex <$> Installation.Wallets m)).
Proof.
  unfold RecoveryTargets. rewrite override_targets_spec by apply NoDup_fst_map_to_list.
  rewrite list_to_map_to_list, Forall_forall. apply and_iff_compat_r. split.
  - intros H id target Hin. destruct (H (id, target)) as (c & Hc & ?); [by apply elem_of_map_to_list|].
    cbn in *. apply lookup_fmap_Some in Hc as (s & <- & ?). eauto.
  - intros H [id target] Hin%elem_of_map_to_list. destruct (H _ _ Hin) as (s & Hs & ?). cbn.
    exists (NextAddressIndex s). by rewrite lookup_fmap, Hs.
Qed.

(** recovery targets exist exactly when every override names a wallet of the
    manifest and lies between its high-water mark and the end of the index
    space; they are then the overrides over the manifest's marks, so no target
    is below a mark. *)
Theorem RecoveryTargets_spec (m : Manifest) (overrides t : gmap string Z) :
  RecoveryTargets m overrides = Ok t <->
  ((forall id target, overrides !! id = Some target ->
      exists s, Installation.Wallets m !! id = Some s /\ NextAddressIndex s <= target <= uint32_max + 1) /\
   t = overrides ∪ (NextAddressIndex <$> Installation.Wallets m)).
Proof. apply recovery_targets_union. Qed.

(** * Derivation in order *)

(** [visit] ran on these addresses in this order; between the visits only calls
    that leave both stores alone happened. *)
Inductive visited {St} (visit : St -> Z -> string -> W St) (env : nat -> call_env)
    : list (Z * string) -> St -> world -> St -> world -> Prop :=
  | visited_nil st w w' : same_stores w w' -> visited visit env [] st w st w'
  | visited_cons i a l st w w0 st1 w1 st2 w2 :
      same_stores w w0 -> visit st i a env w0 = (Ok st1, w1) -> visited visit env l st1 w1 st2 w2 ->
      visited visit env ((i, a) :: l) st w st2 w2.

#[export] Instance same_stores_preorder : PreOrder same_stores.
Proof. split; [done|]. intros ??? [] []; split; congruence. Qed.

Lemma visited_same {St} visit env l (st : St) w w0 st' w' :
  same_stores w w0 -> visited visit env l st w0 st' w' -> visited visit env l st w st' w'.
Proof.
  intros Hs H. inversion H; subst; [constructor; by etrans|].
  econstructor; [by etrans|done|done].
Qed.

Lemma visited_app {St} visit env l l' (st st1 st2 : St) w w1 w2 :
  visited visit env l st w st1 w1 -> visited visit env l' st1 w1 st2 w2 ->
  visited visit env (l ++ l') st w st2 w2.
Proof.
  induction 1; intros H'; [by eapply visited_same|]. cbn. econstructor; [done|done|]. by apply IHvisited.
Qed.

Lemma visited_tail {St} visit env l (st st' : St) w w' w2 :
  visited visit env l st w st' w' -> same_stores w' w2 -> visited visit env l st w st' w2.
Proof.
  induction 1; intros; [constructor; by etrans|]. econstructor; [done|done|auto].
Qed.

Definition valid_address (prefix address : string) : Prop :=
  address <> EmptyString /\ TrimSpace address = address /\ HasPrefix address prefix = true.

Lemma validateDerivedAddress_ok raw prefix a :
  validateDerivedAddress raw prefix = Ok a <->
  a = TrimSpace raw /\ valid_address prefix a /\ prefix <> EmptyString.
Proof.
  unfold validateDerivedAddress, valid_address. destruct (String.eqb_spec (TrimSpace raw) "") as [He|He].
  { split; [done|]. intros (-> & (? & _) & _). congruence. }
  destruct (String.eqb_spec prefix "") as [->|Hp]; cbn [orb].
  { split; [done|]. naive_solver. }
  destruct (HasPrefix (TrimSpace raw) prefix) eqn:Hh; cbn [negb].
  - split; [intros [= <-]; split_and!; try done; apply TrimSpace_idem|by intros (-> & _)].
  - split; [done|]. intros (-> & (_ & _ & ?) & _). congruence.
Qed.

(** A raw address the deriver answered for an index of a viewing key, alone or
    in a batch. *)
Definition answers (d : Deriver) (ufvk : string) (index : Z) (raw : string) : Prop :=
  (exists n, Derive d n ufvk index = Ok raw) \/
  (exists f n start count l, DeriveBatch d = Some f /\ f n ufvk start count = Ok l /\
     0 <= start <= index /\ l !! Z.to_nat (index - start) = Some raw).

Section each_lemmas.
Context {St : Type} (visit : St -> Z -> string -> W St) (prefix : string) (env : nat -> call_env).

(** The run from index [start]: the raw addresses, the trimmed ones visited. *)
Record run_from (d : Deriver) (ufvk : string) (start : Z) (raws : list string)
    (seen seen' : gmap string Z) (st : St) (w : world) (st' : St) (w' : world) : Prop := {
  run_answers : forall k raw, raws !! k = Some raw -> answers d ufvk (start + Z.of_nat k) raw;
  run_valid : Forall (valid_address prefix) (map TrimSpace raws);
  run_fresh : forall a, seen' !! a = None <-> seen !! a = None /\ a ∉ map TrimSpace raws;
  run_distinct : NoDup (map TrimSpace raws);
  run_disjoint : Forall (fun a => seen !! a = None) (map TrimSpace raws);
  run_visited : visited visit env (zip (seqZ start (Z.of_nat (length raws))) (map TrimSpace raws)) st w st' w'
}.

Lemma run_nil d ufvk start seen st w w' :
  same_stores w w' -> run_from d ufvk start [] seen seen st w st w'.
Proof.
  intros Hs. split; cbn; [done|constructor| |constructor|constructor|by constructor].
  intros a. split; [|tauto]. intros ?. split; [done|apply not_elem_of_nil].
Qed.

Lemma run_same d ufvk start raws seen seen' st w w0 st' w' :
  same_stores w w0 -> run_from d ufvk start raws seen seen' st w0 st' w' ->
  run_from d ufvk start raws seen seen' st w st' w'.
Proof. intros Hs []. split; try done. by eapply visited_same. Qed.

Lemma run_app d ufvk start raws1 raws2 seen seen1 seen2 st w st1 w1 st2 w2 :
  run_from d ufvk start raws1 seen seen1 st w st1 w1 ->
  run_from d ufvk (start + Z.of_nat (length raws1)) raws2 seen1 seen2 st1 w1 st2 w2 ->
  run_from d ufvk start (raws1 ++ raws2) seen seen2 st w st2 w2.
Proof.
  intros [Ha1 Hv1 Hf1 Hd1 Hj1 Hvis1] [Ha2 Hv2 Hf2 Hd2 Hj2 Hvis2].
  rewrite Forall_forall in Hj2. split; rewrite ?map_app.
  - intros k raw Hk. apply lookup_app_Some in Hk as [Hk|[Hle Hk]]; [auto|].
    specialize (Ha2 _ _ Hk). by replace (start + Z.of_nat k) with
      (start + Z.of_nat (length raws1) + Z.of_nat (k - length raws1)) by lia.
  - by apply Forall_app.
  - intros a. rewrite Hf2, Hf1. rewrite not_elem_of_app. tauto.
  - apply NoDup_app. split_and!; [done| |done]. intros a Hin1 Hin2.
    apply Hj2, Hf1 in Hin2 as [_ ?]. done.
  - apply Forall_app. split; [done|]. apply Forall_forall. intros a Hin%Hj2%Hf1. tauto.
  - rewrite length_app, Nat2Z.inj_add, seqZ_app by lia.
    rewrite zip_with_app by (rewrite length_seqZ, length_map; lia). by eapply visited_app.
Qed.

Lemma validatedVisit_run d ufvk seen st index raw seen' st' w w' :
  validatedVisit visit prefix seen st index raw env w = (Ok (seen', st'), w') ->
  answers d ufvk index raw ->
  run_from d ufvk index [raw] seen seen' st w st' w'.
Proof.
  unfold validatedVisit. intros (a & w1 & [= Ha <-] & H)%w_bind_ok Hans.
  apply map_err_ok, validateDerivedAddress_ok in Ha as (-> & Hv & _).
  destruct (seen !! TrimSpace raw) eqn:Hseen; [done|].
  apply w_bind_ok in H as (st1 & w2 & Hvisit & [= <- <- <-]).
  split; cbn.
  - intros [|k] raw' Hk; [|done]. injection Hk as <-. by rewrite Z.add_0_r.
  - by constructor.
  - intros x. rewrite lookup_insert_None, list_elem_of_singleton. intuition congruence.
  - apply NoDup_singleton.
  - by constructor.
  - rewrite seqZ_cons by lia. econstructor; [reflexivity|exact Hvisit|]. by constructor.
Qed.

Lemma visit_batch_run d ufvk seen st start addresses seen' st' w w' :
  visit_batch visit prefix seen st start addresses env w = (Ok (seen', st'), w') ->
  0 <= start -> start + Z.of_nat (length addresses) <= uint32_max + 1 ->
  (forall k raw, addresses !! k = Some raw -> answers d ufvk (start + Z.of_nat k) raw) ->
  run_from d ufvk start addresses seen seen' st w st' w'.
Proof.
  revert seen st start w. induction addresses as [|raw l IH]; cbn [visit_batch]; intros seen st start w H Hs Hb Ha.
  { injection H as <- <- <-. by apply run_nil. }
  apply w_bind_ok in H as ([seen1 st1] & w1 & Hv & H). cbn [length] in Hb.
  rewrite wrapu32_id in Hv by (width; lia).
  eapply (run_app _ _ _ [raw] l).
  - eapply validatedVisit_run; [exact Hv|]. specialize (Ha 0%nat raw eq_refl). by rewrite Z.add_0_r in Ha.
  - cbn. apply IH; [done|lia|lia|]. intros k raw' Hk. specialize (Ha (S k) raw' Hk).
    by replace (start + _ + Z.of_nat k) with (start + Z.of_nat (S k)) by lia.
Qed.

Lemma ctx_Err_same w w' : ctx_Err env w = (Ok tt, w') -> same_stores w w'.
Proof. unfold ctx_Err. case_match; [done|]. by intros [= <-]. Qed.

Lemma outside_call_ok {A} (f : nat -> result A) w a w' :
  outside_call f env w = (Ok a, w') -> f (tick w) = Ok a /\ same_stores w w'.
Proof. unfold outside_call. by intros [= -> <-]. Qed.

Lemma single_loop_run d fuel ufvk index target seen st w st' w' :
  single_loop visit prefix fuel (Derive d) ufvk index target seen st env w = (Ok st', w') ->
  0 <= index <= target -> target <= uint32_max + 1 -> Z.to_nat (target - index) = fuel ->
  exists raws seen', Z.of_nat (length raws) = target - index /\
    run_from d ufvk index raws seen seen' st w st' w'.
Proof.
  revert index seen st w. induction fuel as [|fuel IH]; cbn [single_loop]; intros index seen st w H Hi Ht Hf.
  { injection H as <- <-. exists [], seen. split; [cbn; lia|]. by apply run_nil. }
  destruct (Z.ltb_spec index target); [|lia].
  apply w_bind_ok in H as ([] & w1 & Hc%ctx_Err_same & H).
  apply w_bind_ok in H as (raw & w2 & [Hd Hs]%w_map_err_ok%outside_call_ok & H).
  apply w_bind_ok in H as ([seen1 st1] & w3 & Hv & H). rewrite wrapu32_id in Hd, Hv by (width; lia).
  apply IH in H as (raws & seen' & Hlen & Hrun); [|lia|lia|lia].
  exists (raw :: raws), seen'. split; [cbn; lia|]. eapply run_same; [etrans; [exact Hc|exact Hs]|].
  eapply (run_app _ _ _ [raw] raws); [|exact Hrun]. eapply validatedVisit_run; [exact Hv|]. left. by eexists.
Qed.

Lemma batch_loop_run d f fuel ufvk start target seen st w st' w' :
  DeriveBatch d = Some f ->
  batch_loop visit prefix fuel f ufvk start target seen st env w = (Ok st', w') ->
  0 <= start <= target -> target <= uint32_max + 1 -> target - start <= batchSize * Z.of_nat fuel ->
  exists raws seen', Z.of_nat (length raws) = target - start /\
    run_from d ufvk start raws seen seen' st w st' w'.
Proof.
  intros Hb. revert start seen st w. induction fuel as [|fuel IH]; cbn [batch_loop];
    unfold batchSize in *; intros start seen st w H Hi Ht Hf.
  { injection H as <- <-. exists [], seen. split; [cbn; lia|]. by apply run_nil. }
  destruct (Z.ltb_spec start target).
  2:{ injection H as <- <-. exists [], seen. split; [cbn; lia|]. by apply run_nil. }
  apply w_bind_ok in H as ([] & w1 & Hc%ctx_Err_same & H).
  set (count := Z.min (target - start) 10000) in *.
  assert (0 < count /\ count <= target - start /\ count <= 10000) as (Hc1 & Hc2 & Hc3) by (unfold count; lia).
  apply w_bind_ok in H as (l & w2 & [Hd Hs]%w_map_err_ok%outside_call_ok & H).
  rewrite !wrapu32_id in Hd by (width; lia).
  destruct (Z.eqb_spec (Z.of_nat (length l)) count) as [Hl|]; cbn [negb] in H; [|done].
  apply w_bind_ok in H as ([seen1 st1] & w3 & Hv & H).
  assert (start + count = target \/ count = 10000) by (unfold count; lia).
  apply IH in H as (raws & seen' & Hlen & Hrun); [|lia|lia|lia].
  exists (l ++ raws), seen'. split; [rewrite length_app; lia|].
  eapply run_same; [etrans; [exact Hc|exact Hs]|].
  eapply run_app; [|by rewrite Hl]. apply visit_batch_run; [exact Hv|lia|lia|].
  intros k raw Hk. right. exists f, (tick w1), start, count, l. split_and!; [done|done|lia|lia|].
  by replace (Z.to_nat _) with k by lia.
Qed.
End each_lemmas.

Lemma forEachDerivedAddress_run {St} (visit : St -> Z -> string -> W St) prefix env d ufvk target st w st' w' :
  0 <= target <= uint32_max + 1 ->
  forEachDerivedAddress visit prefix d ufvk target st env w = (Ok st', w') ->
  exists raws seen', Z.of_nat (length raws) = target /\
    run_from visit prefix env d ufvk 0 raws ∅ seen' st w st' w'.
Proof.
  intros Ht. unfold forEachDerivedAddress. destruct (DeriveBatch d) as [f|] eqn:Hb; intros H.
  - eapply batch_loop_run in H as (raws & seen' & Hlen & Hrun); [|done|lia|lia|].
    + exists raws, seen'. split; [lia|done].
    + unfold batchSize. pose proof (Z.mul_div_le target 10000 ltac:(lia)).
      pose proof (Z.div_pos target 10000 ltac:(lia) ltac:(lia)).
      pose proof (Z.mul_succ_div_gt target 10000 ltac:(lia)). lia.
  - eapply single_loop_run in H as (raws & seen' & Hlen & Hrun); [|lia|lia|by rewrite Z.sub_0_r].
    exists raws, seen'. split; [lia|done].
Qed.

(** when it succeeds, the derivation loop, batched or one index at a time,
    has called its visitor on exactly the indices 0 .. target - 1 in order, each
    with the trimmed address the deriver answered for that index, all of them of
    the network and pairwise different. *)
Theorem forEachDerivedAddress_visits {St} (visit : St -> Z -> string -> W St) prefix env d ufvk target st w st' w' :
  0 <= target <= uint32_max + 1 ->
  forEachDerivedAddress visit prefix d ufvk target st env w = (Ok st', w') ->
  exists raws, Z.of_nat (length raws) = target /\
    (forall k raw, raws !! k = Some raw -> answers d ufvk (Z.of_nat k) raw) /\
    Forall (valid_address prefix) (map TrimSpace raws) /\ NoDup (map TrimSpace raws) /\
    visited visit env (zip (seqZ 0 target) (map TrimSpace raws)) st w st' w'.
Proof.
  intros Ht (raws & seen' & <- & [])%forEachDerivedAddress_run; [|done]. exists raws. by split_and!.
Qed.

(** * The recovery mapping *)

(** The deriver answers the same address for an index whenever it is asked. *)
Definition deterministic (d : Deriver) (D : string -> Z -> string) : Prop :=
  forall ufvk i raw, answers d ufvk i raw -> TrimSpace raw = D ufvk i.

(** The checksum of a registry: wallets in order, each with its indices. *)
Definition mapping_text (network installationID : string) (wallets : list (string * Z * (Z -> string))) : string :=
  foldl (fun c '(id, target, address) => foldl (fun c i => Add c id i (address i)) c (seqZ 0 target))
    (NewMappingChecksum network installationID) wallets.

Lemma run_deterministic {St} (visit : St -> Z -> string -> W St) prefix env d D ufvk start raws seen seen' st w st' w' :
  deterministic d D -> run_from visit prefix env d ufvk start raws seen seen' st w st' w' ->
  map TrimSpace raws = map (D ufvk) (seqZ start (Z.of_nat (length raws))).
Proof.
  intros Hd [Ha _ _ _ _ _]. apply list_eq. intros k.
  rewrite !list_lookup_fmap. destruct (raws !! k) as [raw|] eqn:Hk; cbn.
  - pose proof (lookup_lt_Some _ _ _ Hk). rewrite lookup_seqZ_lt by lia. cbn. f_equal. by apply Hd, Ha.
  - apply lookup_ge_None in Hk. rewrite lookup_seqZ_ge by lia. done.
Qed.

Lemma visited_add id env l c w c' w' :
  visited (add_mapping id) env l c w c' w' ->
  same_stores w w' /\ c' = foldl (fun c p => Add c id p.1 (TrimSpace p.2)) c l.
Proof.
  induction 1 as [|i a l c w w0 c1 w1 c2 w2 Hs Hv Hrest [IH1 IH2]]; [done|].
  injection Hv as <- <-. split; [by etrans|done].
Qed.

Lemma foldl_zip_map {A B C D} (g : C -> A -> D -> C) (f : A -> B) (h : B -> D) l c :
  foldl (fun c p => g c p.1 (h p.2)) c (zip l (map f l)) = foldl (fun c i => g c i (h (f i))) c l.
Proof. revert c. induction l as [|x l IH]; cbn; intros c; [done|apply IH]. Qed.

Lemma foldl_ext_in {A B} (f g : A -> B -> A) l a :
  (forall a x, x ∈ l -> f a x = g a x) -> foldl f a l = foldl g a l.
Proof.
  revert a. induction l as [|x l IH]; cbn; intros a H; [done|].
  rewrite H by left. apply IH. intros. apply H. by right.
Qed.

(** What the mapping of a wallet is made of. *)
Definition mapping_of (D : string -> Z -> string) (targets : gmap string Z) (w : Config.Wallet)
    : string * Z * (Z -> string) :=
  (Config.WalletID w, default 0 (targets !! Config.WalletID w), D (Config.UFVK w)).

Lemma wallet_mapping id prefix env d D ufvk target c w c' w' :
  deterministic d D -> 0 <= target <= uint32_max + 1 ->
  forEachDerivedAddress (add_mapping id) prefix d ufvk target c env w = (Ok c', w') ->
  same_stores w w' /\ c' = foldl (fun c i => Add c id i (D ufvk i)) c (seqZ 0 target).
Proof.
  intros Hd Ht (raws & seen' & <- & Hrun)%forEachDerivedAddress_run; [|done].
  pose proof (run_deterministic _ _ _ _ _ _ _ _ _ _ _ _ _ _ Hd Hrun) as Heq.
  destruct Hrun as [_ _ _ _ _ Hvis]. rewrite Heq in Hvis.
  apply visited_add in Hvis as [Hs ->]. split; [done|].
  rewrite (foldl_zip_map (fun c i a => Add c id i a) (D ufvk) TrimSpace).
  apply foldl_ext_in. intros c0 i Hi. f_equal. rewrite <- TrimSpace_idem at 1.
  enough (exists raw, TrimSpace raw = D ufvk i) as [raw <-] by (by rewrite !TrimSpace_idem).
  assert (Hin : D ufvk i ∈ map TrimSpace raws) by (rewrite Heq; by apply list_elem_of_fmap_2).
  apply list_elem_of_fmap in Hin as (raw & -> & _). by exists raw.
Qed.

Definition targets_ok (targets : gmap string Z) : Prop :=
  forall id t, targets !! id = Some t -> 0 <= t <= uint32_max + 1.

Lemma checksum_wallets_ok cfg targets d D env l c w c' w' :
  deterministic d D -> targets_ok targets ->
  checksum_wallets cfg targets d l c env w = (Ok c', w') ->
  same_stores w w' /\ Forall (fun x => is_Some (targets !! Config.WalletID x)) l /\
  c' = foldl (fun c '(id, target, address) => foldl (fun c i => Add c id i (address i)) c (seqZ 0 target))
         c (map (mapping_of D targets) l).
Proof.
  intros Hd Ht. revert c w. induction l as [|x l IH]; cbn [checksum_wallets map foldl]; intros c w H.
  { by injection H as <- <-. }
  unfold mapping_of at 1. destruct (targets !! Config.WalletID x) as [t|] eqn:Hx; [|done].
  apply w_bind_ok in H as (c1 & w1 & Hc%w_map_err_ok & H).
  apply (wallet_mapping _ _ _ _ D) in Hc as [Hs ->]; [|done|by eapply Ht].
  apply IH in H as (Hs' & Hl & ->). split_and!; [by etrans|constructor; [by rewrite Hx|done]|done].
Qed.

(** for a deterministic deriver, batched or not, a successful recovery
    checksum is the digest of the mapping itself: every configured wallet in
    order of its id, every index below its target, with the derived address; so
    two machines, batching or not, agree on it. *)
Theorem RecoveryChecksum_spec cfg m targets d D env w c w' :
  deterministic d D -> targets_ok targets ->
  RecoveryChecksum cfg m targets (Some d) env w = (Ok c, w') ->
  same_stores w w' /\ (forall x, x ∈ Config.Wallets cfg -> is_Some (targets !! Config.WalletID x)) /\
  c = Sum (mapping_text (network_string (Config.Network cfg)) (InstallationID m)
             (map (mapping_of D targets) (sorted_wallets cfg))).
Proof.
  intros Hd Ht (c0 & w1 & Hc & [= <- <-])%w_bind_ok.
  destruct (checksum_wallets_ok _ _ _ _ _ _ _ _ _ _ Hd Ht Hc) as (Hs & Hall & ->).
  split_and!; [done| |done]. intros x Hx. rewrite Forall_forall in Hall. apply Hall.
  unfold sorted_wallets. by rewrite merge_sort_Permutation.
Qed.

(** * Recovery *)

Lemma raise_targets_exact l ws ws' :
  raise_targets l ws = Ok ws' -> NoDup l.*1 ->
  forall id s', ws' !! id = Some s' -> exists s, ws !! id = Some s /\
    SkippedAddressIndices s' = SkippedAddressIndices s /\
    NextAddressIndex s' = default (NextAddressIndex s) ((list_to_map l : gmap string Z) !! id).
Proof.
  revert ws. induction l as [|[id t] l IH]; cbn [raise_targets]; intros ws H Hnd x s' Hs'.
  { injection H as <-. exists s'. split_and!; [done|done|]. cbn. by rewrite lookup_empty. }
  apply NoDup_cons in Hnd as [Hnin Hnd].
  change (list_to_map ((id, t) :: l)) with (<[id := t]> (list_to_map l : gmap string Z)).
  destruct (ws !! id) as [w|] eqn:Hw; [|done]. repeat (case_match; [done|]).
  destruct (IH _ H Hnd _ _ Hs') as (s & Hs & Hsk & Hnx).
  destruct (decide (id = x)) as [->|].
  - rewrite lookup_insert_eq in Hs. rewrite lookup_insert_eq. injection Hs as <-. exists w. split_and!; [done|done|].
    rewrite Hnx. by rewrite not_elem_of_list_to_map_1.
  - rewrite lookup_insert_ne in Hs by done. rewrite lookup_insert_ne by done. eauto.
Qed.

(** No recorded address changes or goes away. *)
Definition addresses_le (d d' : db) : Prop := db_addresses d ⊆ db_addresses d'.

#[export] Instance addresses_le_preorder : PreOrder addresses_le.
Proof. split; [intros d; unfold addresses_le; done|]. intros ???. unfold addresses_le. apply transitivity. Qed.

Lemma ensure_wallet_same cfg x env w u w' :
  ensure_wallet cfg x env w = (Ok u, w') -> file w' = file w /\ db_addresses (tables w') = db_addresses (tables w).
Proof.
  intros (H & Hf & _)%store_call_inv. destruct u. apply EnsureWallet_registers in H as (r & -> & _). done.
Qed.

Lemma restore_address_ok id i a env w u w' :
  restore_address id tt i a env w = (Ok u, w') ->
  file w' = file w /\ addresses_le (tables w) (tables w') /\
  exists row, db_addresses (tables w') !! (id, i) = Some row /\ ad_address row = TrimSpace a.
Proof.
  unfold restore_address. intros (x & w1 & (H & Hf & _)%store_call_inv & [= <- <-])%w_bind_ok.
  apply AllocateAddressAt_effect in H as (_ & f & s & row & [= <-] & Hd & Hrow & Heq & Hold).
  unfold recovery_derive in Hd. rewrite Z.eqb_refl in Hd. injection Hd as <-.
  split; [done|]. unfold addresses_le. rewrite Heq. split.
  - destruct Hold; [by apply insert_subseteq|by rewrite insert_id].
  - exists row. by rewrite lookup_insert_eq.
Qed.

Definition recorded (d : db) (id : string) (i : Z) (a : string) : Prop :=
  exists row, db_addresses d !! (id, i) = Some row /\ ad_address row = a.

Lemma recorded_le d d' id i a : addresses_le d d' -> recorded d id i a -> recorded d' id i a.
Proof. intros Hle (row & Hr & ?). exists row. split; [|done]. by eapply lookup_weaken. Qed.

Lemma visited_restore id env l u w u' w' :
  visited (restore_address id) env l u w u' w' ->
  file w' = file w /\ addresses_le (tables w) (tables w') /\
  Forall (fun p => recorded (tables w') id p.1 (TrimSpace p.2)) l.
Proof.
  induction 1 as [u w w' [Hf Ht]|i a l u w w0 u1 w1 u2 w2 [Hf0 Ht0] Hv Hrest (Hf & Hle & Hall)].
  { split_and!; [done|by unfold addresses_le; rewrite Ht|constructor]. }
  destruct u. apply restore_address_ok in Hv as (Hf1 & Hle1 & Hrec).
  split_and!; [congruence|etrans; [|exact Hle]; unfold addresses_le in *; by rewrite <- Ht0|].
  constructor; [|done]. by eapply recorded_le.
Qed.

Lemma restore_wallets_ok cfg targets d D env l w u w' :
  deterministic d D -> targets_ok targets ->
  restore_wallets cfg targets d l env w = (Ok u, w') ->
  file w' = file w /\ addresses_le (tables w) (tables w') /\
  Forall (fun x => forall i, 0 <= i < default 0 (targets !! Config.WalletID x) ->
            recorded (tables w') (Config.WalletID x) i (D (Config.UFVK x) i)) l.
Proof.
  intros Hd Ht. revert w. induction l as [|x l IH]; cbn [restore_wallets]; intros w H.
  { injection H as <- <-. split_and!; [done|done|constructor]. }
  apply w_bind_ok in H as ([] & w1 & [Hf1 Ha1]%w_map_err_ok%ensure_wallet_same & H).
  apply w_bind_ok in H as ([] & w2 & He%w_map_err_ok & H).
  assert (Hr : 0 <= default 0 (targets !! Config.WalletID x) <= uint32_max + 1).
  { destruct (targets !! Config.WalletID x) as [t|] eqn:Hx; cbn; [by eapply Ht|width; lia]. }
  apply forEachDerivedAddress_run in He as (raws & seen' & Hlen & Hrun); [|done].
  pose proof (run_deterministic _ _ _ _ _ _ _ _ _ _ _ _ _ _ Hd Hrun) as Heq.
  destruct Hrun as [_ _ _ _ _ Hvis]. apply visited_restore in Hvis as (Hf2 & Hle2 & Hrec).
  apply IH in H as (Hf3 & Hle3 & Hall). split_and!; [congruence| |constructor; [|done]].
  - etrans; [|exact Hle3]. unfold addresses_le in *. by rewrite <- Ha1.
  - intros i Hi. rewrite <- Hlen in Hi. eapply recorded_le; [exact Hle3|].
    rewrite Heq, Forall_forall in Hrec. destruct (Hrec (i, D (Config.UFVK x) i)) as (row & Hrow & Had).
    { assert (Hk : seqZ 0 (Z.of_nat (length raws)) !! Z.to_nat i = Some i)
        by (rewrite lookup_seqZ_lt by lia; f_equal; lia).
      apply (list_elem_of_lookup_2 _ (Z.to_nat i)). rewrite lookup_zip_with, Hk, list_lookup_fmap, Hk. done. }
    exists row. split; [done|]. cbn in Had. rewrite Had.
    assert (Hin : D (Config.UFVK x) i ∈ map TrimSpace raws).
    { rewrite Heq. apply list_elem_of_fmap_2, elem_of_seqZ. lia. }
    apply list_elem_of_fmap in Hin as (raw & -> & _). apply TrimSpace_idem.
Qed.

Lemma open_ledger_ok cfg env w st m w' :
  open_ledger cfg env w = (Ok (st, m), w') ->
  same_stores w w' /\ file w = Some m /\ manifest_ok m st /\ validateIdentity st = Ok tt /\
  st = canonicalIdentity (Identity_of cfg).
Proof.
  unfold open_ledger. intros ([= H Hf] & Ht & _)%ledger_call_inv. unfold Installation.Open in H.
  apply result_bind_ok in H as (st1 & [-> Hv]%newState_ok & H).
  destruct (file w) as [m0|] eqn:Hfile; [|done]. destruct (lock_fault _); [done|].
  apply result_bind_ok in H as (m1 & [[= ->] Hok]%readAndVerify_ok & [= <- <-]).
  split_and!; try done. split; congruence.
Qed.

Lemma InstallationID_call env w r w' :
  store_call (fun _ => Wallets.InstallationID) env w = (Ok r, w') ->
  same_stores w w' /\ forall id, r = Some id -> bound_to id (tables w).
Proof.
  intros (H & Hf & _)%store_call_inv. unfold Wallets.InstallationID in H.
  apply run_auto_cases in H as [[_ (e & [=])]|(a & io2 & [= ->] & H)]. meta_inv.
  - split; [done|]. intros id [= <-]. done.
  - split; [done|]. by intros.
Qed.

Lemma targets_bounded m st overrides targets :
  manifest_ok m st -> validateIdentity st = Ok tt -> ledger_typed (Some m) ->
  RecoveryTargets m overrides = Ok targets -> targets_ok targets.
Proof.
  intros Hok Hv%validateIdentity_NoDup Hty [Hov ->]%recovery_targets_union id t Ht.
  assert (Hpos : forall s, Installation.Wallets m !! id = Some s -> 0 <= NextAddressIndex s).
  { intros s Hs. apply (Hty id). by rewrite high_water_some, Hs. }
  apply lookup_union_Some_raw in Ht as [Ht|[_ Ht]].
  - destruct (Hov _ _ Ht) as (s & Hs & ?). specialize (Hpos _ Hs). lia.
  - apply lookup_fmap_Some in Ht as (s & <- & Hs). specialize (Hpos _ Hs).
    destruct (manifest_domain _ _ _ _ Hok Hv Hs) as (wi & _ & _ & (_ & _ & _ & Hle & _)).
    unfold index_space in Hle. lia.
Qed.

Lemma meta_write_addresses b d d' : meta_write b d d' -> db_addresses d' = db_addresses d.
Proof. by destruct 1. Qed.

Lemma begin_recovery_call id env w u w' :
  store_call (fun _ => BeginInstallationRecovery id) env w = (Ok u, w') ->
  file w' = file w /\ db_addresses (tables w') = db_addresses (tables w).
Proof.
  intros (H & Hf & _)%store_call_inv. split; [done|].
  pose proof (exec_meta_write (MBeginRecovery id) (call_io (env (tick w))) (tables w)) as Hw.
  cbn in Hw. rewrite H in Hw. by eapply meta_write_addresses.
Qed.

Lemma bind_recovered_call id env w u w' :
  store_call (fun _ => BindRecoveredInstallation id) env w = (Ok u, w') ->
  file w' = file w /\ db_addresses (tables w') = db_addresses (tables w) /\ sealed id (tables w').
Proof.
  intros (H & Hf & _)%store_call_inv. destruct u. split_and!; [done| |].
  - eapply meta_write_addresses, bind_write. exact H.
  - by apply recovered_binding_sealed in H as [_ ?].
Qed.

Lemma raise_call st targets env w m w' :
  ledger_call (fun fs now => RaiseHighWater fs st (map_to_list targets) now) env w = (Ok m, w') ->
  exists m0, file w = Some m0 /\ file w' = Some m /\ tables w' = tables w /\
    InstallationID m = InstallationID m0 /\
    forall id s', Installation.Wallets m !! id = Some s' -> exists s, Installation.Wallets m0 !! id = Some s /\
      NextAddressIndex s' = default (NextAddressIndex s) (targets !! id).
Proof.
  intros (H & Ht & _)%ledger_call_inv.
  apply update_cases in H as [[_ (e & [=])]|(m0 & a & m1 & -> & _ & Hc & Hf & [[= ->]|(e & [=])])].
  apply result_bind_ok in Hc as (ws & Hws & [= <- <-]). exists m0. split_and!; try done.
  intros id s' Hs'. cbn in Hs'.
  destruct (raise_targets_exact _ _ _ Hws (NoDup_fst_map_to_list _) _ _ Hs') as (s & Hs & _ & Hn).
  rewrite list_to_map_to_list in Hn. eauto.
Qed.

Lemma clear_call st env w m w' :
  ledger_call (fun fs now => ClearSkippedAddressIndices fs st now) env w = (Ok m, w') ->
  exists m0, file w = Some m0 /\ file w' = Some m /\ tables w' = tables w /\
    InstallationID m = InstallationID m0 /\
    Installation.Wallets m = (fun s => set_skipped s []) <$> Installation.Wallets m0.
Proof.
  intros (H & Ht & _)%ledger_call_inv.
  apply update_cases in H as [[_ (e & [=])]|(m0 & a & m1 & -> & _ & [= <- <-] & Hf & [[= ->]|(e & [=])])].
  exists m0. by split_and!.
Qed.

Lemma recover_registry cfg d D ack expected overrides env w m' w' :
  deterministic d D -> ledger_typed (file w) ->
  Recover cfg (Some d) ack expected overrides env w = (Ok m', w') ->
  ack = RecoverAcknowledgement /\
  exists m targets, file w = Some m /\ RecoveryTargets m overrides = Ok targets /\
    file w' = Some m' /\ InstallationID m' = InstallationID m /\
    sealed (InstallationID m) (tables w') /\
    (forall id s, Installation.Wallets m' !! id = Some s ->
       targets !! id = Some (NextAddressIndex s) /\ SkippedAddressIndices s = []) /\
    (forall id, covered m' (tables w') id) /\
    (forall x, x ∈ Config.Wallets cfg -> exists t, targets !! Config.WalletID x = Some t /\
       forall i, 0 <= i < t -> recorded (tables w') (Config.WalletID x) i (D (Config.UFVK x) i)) /\
    TrimSpace expected = Sum (mapping_text (network_string (Config.Network cfg)) (InstallationID m)
                                (map (mapping_of D targets) (sorted_wallets cfg))).
Proof.
  intros Hd Hty. unfold Recover. destruct (String.eqb_spec ack RecoverAcknowledgement) as [->|]; cbn [negb]; [|done].
  intros H. split; [done|].
  apply w_bind_ok in H as ([st m] & w1 & ([Hf1 Ht1] & Hfile & Hok & Hv & _)%open_ledger_ok & H).
  apply w_bind_ok in H as (bound & w2 & [[Hf2 Ht2] _]%InstallationID_call & H).
  destruct bound as [e|]; [by destruct (negb _) in H|].
  apply w_bind_ok in H as (targets & w3 & [= Htg <-] & H).
  destruct (negb (lower_sha256 _)); [done|].
  apply w_bind_ok in H as (actual & w4 & Hsum & H).
  assert (Hto : targets_ok targets) by (rewrite Hfile in Hty; by eapply targets_bounded).
  apply w_bind_ok in Hsum as (c0 & w4' & Hsum & [= <- <-]).
  apply (checksum_wallets_ok _ _ _ D) in Hsum as ([Hf4 Ht4] & Hdom & ->); [|done|done].
  case_match eqn:Heq; [done|]. apply negb_false_iff, String.eqb_eq in Heq.
  apply w_bind_ok in H as ([] & w5 & [Hf5 Ha5]%begin_recovery_call & H).
  apply w_bind_ok in H as (m1 & w6 & (m0 & Hm0 & Hf6 & Ht6 & Hid6 & Hw6)%raise_call & H).
  assert (m0 = m) as -> by congruence.
  apply w_bind_ok in H as ([] & w7 & (Hf7 & Hle7 & Hrec)%(restore_wallets_ok _ _ _ D) & H); [|done|done].
  apply w_bind_ok in H as (m2 & w8 & (m1' & Hm1' & Hf8 & Ht8 & Hid8 & Hw8)%w_map_err_ok%clear_call & H).
  assert (m1' = m1) as -> by congruence.
  apply w_bind_ok in H as ([] & w9 & Hcov & H).
  apply w_bind_ok in H as ([] & w10 & (Hf10 & Ha10 & Hseal)%w_map_err_ok%bind_recovered_call & [= <- <-]).
  assert (Hnext : forall id s, Installation.Wallets m2 !! id = Some s ->
            targets !! id = Some (NextAddressIndex s) /\ SkippedAddressIndices s = []).
  { intros id s Hs. rewrite Hw8, lookup_fmap in Hs. apply fmap_Some in Hs as (s1 & Hs1 & ->). cbn.
    split; [|done]. destruct (Hw6 _ _ Hs1) as (s0 & Hs0 & ->).
    apply recovery_targets_union in Htg as [_ ->]. rewrite lookup_union, lookup_fmap, Hs0.
    by destruct (overrides !! id). }
  apply verify_coverage_ok in Hcov as [[Hf9 Ht9] Hcov].
  2:{ intros id s Hin%elem_of_map_to_list. split_and!; [constructor| |constructor].
      destruct (Hnext _ _ Hin) as [Ht _]. by apply Hto in Ht as [? _]. }
  exists m, targets. split_and!; try done; try congruence.
  - intros id s Hs i. destruct (Hnext _ _ Hs) as [_ ->]. rewrite Ha10, Ht9.
    apply Hcov. by apply elem_of_map_to_list.
  - intros x Hx. assert (Hin : x ∈ sorted_wallets cfg) by (unfold sorted_wallets; by rewrite merge_sort_Permutation).
    rewrite Forall_forall in Hdom, Hrec. destruct (Hdom _ Hin) as [t Htx]. exists t. split; [done|].
    intros i Hi. specialize (Hrec _ Hin). rewrite Htx in Hrec. destruct (Hrec i Hi) as (row & Hrow & Had).
    exists row. split; [|done]. by rewrite Ha10, Ht9, Ht8.
Qed.

(** a recovery that succeeds was acknowledged and ran on an unbound
    database; it leaves that database sealed for the manifest's installation,
    the high-water marks at the targets with nothing skipped, exactly the
    indices below them recorded, each with the address the deriver gives, and
    the checksum the operator confirmed is the digest of that registry. *)
Theorem Recover_restores cfg d D ack expected overrides env w m' w' :
  deterministic d D -> ledger_typed (file w) ->
  Recover cfg (Some d) ack expected overrides env w = (Ok m', w') ->
  ack = RecoverAcknowledgement /\
  exists m targets, file w = Some m /\ RecoveryTargets m overrides = Ok targets /\
    file w' = Some m' /\ InstallationID m' = InstallationID m /\
    sealed (InstallationID m) (tables w') /\
    (forall id s, Installation.Wallets m' !! id = Some s ->
       targets !! id = Some (NextAddressIndex s) /\ SkippedAddressIndices s = []) /\
    (forall id, covered m' (tables w') id) /\
    (forall x, x ∈ Config.Wallets cfg -> exists t, targets !! Config.WalletID x = Some t /\
       forall i, 0 <= i < t -> recorded (tables w') (Config.WalletID x) i (D (Config.UFVK x) i)) /\
    TrimSpace expected = Sum (mapping_text (network_string (Config.Network cfg)) (InstallationID m)
                                (map (mapping_of D targets) (sorted_wallets cfg))).
Proof. apply recover_registry. Qed.

(** * Serving *)

Definition unsigned (m : Manifest) : Prop :=
  forall id s, Installation.Wallets m !! id = Some s ->
    0 <= NextAddressIndex s /\ Forall (fun i => 0 <= i) (SkippedAddressIndices s).

Definition healthy (env : nat -> call_env) : Prop :=
  forall n, file_works (call_fs (env n)) /\ call_io (env n) = [].

Lemma check_indices_works l :
  Forall uint32 l -> check_indices l = Ok l.
Proof.
  induction 1 as [|i l Hi Hl IH]; cbn; [done|]. width.
  destruct (Z.ltb_spec i 0); [lia|]. destruct (Z.ltb_spec (2 ^ 32 - 1) i); [lia|]. cbn. by rewrite IH.
Qed.

Lemma AddressIndices_works id d :
  (forall i, is_Some (db_addresses d !! (id, i)) -> uint32 i) ->
  exists l, AddressIndices id [] d = (Ok l, d).
Proof.
  intros Hu. unfold AddressIndices, run_auto, mbind, m_bind, query, stmt, driver. cbn.
  set (l := merge_sort Z.le _). assert (Hl : Forall uint32 l).
  { apply Forall_forall. intros i Hi. subst l. rewrite merge_sort_Permutation in Hi.
    apply list_elem_of_fmap in Hi as ([[x j] r] & -> & Hr%elem_of_rows_where).
    cbn in Hr. destruct Hr as [Hr ->%String.eqb_eq]. apply Hu. by exists r. }
  exists l. unfold of_result. by rewrite (check_indices_works l Hl).
Qed.

Lemma wallet_sorted m st id s :
  manifest_ok m st -> validateIdentity st = Ok tt -> Installation.Wallets m !! id = Some s ->
  StronglySorted Z.lt (SkippedAddressIndices s) /\ NextAddressIndex s <= index_space.
Proof.
  intros Hok Hv%validateIdentity_NoDup Hs.
  destruct (manifest_domain _ _ _ _ Hok Hv Hs) as (wi & _ & _ & (_ & _ & _ & ? & _ & ?)). done.
Qed.

Lemma verify_coverage_works ws env w :
  healthy env ->
  (forall id s, (id, s) ∈ ws -> StronglySorted Z.lt (SkippedAddressIndices s) /\ 0 <= NextAddressIndex s <= index_space /\
     Forall (fun i => 0 <= i) (SkippedAddressIndices s) /\
     forall i, (0 <= i < NextAddressIndex s) <->
       (i ∈ SkippedAddressIndices s \/ is_Some (db_addresses (tables w) !! (id, i)))) ->
  exists w', verify_coverage SkippedAddressIndices ws env w = (Ok tt, w').
Proof.
  intros Henv. revert w. induction ws as [|[id s] ws IH]; cbn [verify_coverage]; intros w Hall; [by eexists|].
  destruct (Hall id s ltac:(left)) as (Hsk & Hnx & Hpos & Hcov).
  destruct (AddressIndices_works id (tables w)) as [l Hl].
  { intros i Hi. assert (0 <= i < NextAddressIndex s) by (apply Hcov; by right).
    unfold index_space in *. width. lia. }
  assert (Hcall : store_call (fun _ => AddressIndices id) env w =
    (Ok l, {| file := file w; tables := tables w; tick := S (tick w) |})).
  { unfold store_call. destruct (Henv (tick w)) as [_ ->]. by rewrite Hl. }
  apply AddressIndices_ok in Hl as (_ & Hsort & Hlpos & Hin).
  assert (Hv : verifyAddressCoverage id (NextAddressIndex s) (SkippedAddressIndices s) l = Ok tt).
  { apply coverage_ok; [done|done| |lia|].
    - rewrite Forall_forall in Hpos, Hlpos. intros i [?|?]; auto.
    - intros i. rewrite Hcov, Hin. done. }
  destruct (IH {| file := file w; tables := tables w; tick := S (tick w) |}) as [w' Hw'].
  { intros id' s' Hs'. apply Hall. by right. }
  exists w'. unfold mbind, w_bind. rewrite Hcall. unfold w_lift. rewrite Hv. exact Hw'.
Qed.

Lemma OpenForServe_sound cfg env w st m w' :
  OpenForServe cfg env w = (Ok (st, m), w') -> (forall m, file w = Some m -> unsigned m) ->
  same_stores w w' /\ file w = Some m /\ manifest_ok m st /\ validateIdentity st = Ok tt /\
  st = canonicalIdentity (Identity_of cfg) /\ bound_to (InstallationID m) (tables w) /\
  forall id, covered m (tables w) id.
Proof.
  unfold OpenForServe. intros H Hun.
  apply w_bind_ok in H as ([st1 m1] & w1 & ([Hf1 Ht1] & Hfile & Hok & Hv & Hst)%open_ledger_ok & H).
  apply w_bind_ok in H as (bound & w2 & [[Hf2 Ht2] Hb]%InstallationID_call & H).
  destruct bound as [id|]; [|done]. specialize (Hb _ eq_refl).
  destruct (String.eqb_spec id (InstallationID m1)) as [->|]; cbn [negb] in H; [|done].
  apply w_bind_ok in H as ([] & w3 & Hcov & [= <- <- <-]).
  apply verify_coverage_ok in Hcov as [[Hf3 Ht3] Hcov].
  2:{ intros id s Hs%elem_of_map_to_list. destruct (wallet_sorted _ _ _ _ Hok Hv Hs).
      destruct (Hun _ Hfile _ _ Hs). done. }
  split_and!; try done; [split; congruence|by rewrite <- Ht1|].
  intros id s Hs i. rewrite <- Ht1, <- Ht2. apply Hcov. by apply elem_of_map_to_list.
Qed.

Lemma serves_iff cfg env w st m :
  healthy env -> newState (Config.InstallationStatePath cfg) (Identity_of cfg) = Ok st ->
  (forall m, file w = Some m -> unsigned m) ->
  (exists w', OpenForServe cfg env w = (Ok (st, m), w') /\ same_stores w w') <->
  file w = Some m /\ manifest_ok m st /\ bound_to (InstallationID m) (tables w) /\
  forall id, covered m (tables w) id.
Proof.
  intros Henv Hst Hun. split.
  { intros (w' & H & _). apply OpenForServe_sound in H as (_ & ? & ? & _ & _ & ? & ?); done. }
  intros (Hfile & Hok & Hb & Hcov).
  pose proof (proj2 (newState_ok _ _ _ Hst)) as Hv.
  set (w1 := {| file := file w; tables := tables w; tick := S (tick w) |}).
  set (w2 := {| file := file w; tables := tables w; tick := S (S (tick w)) |}).
  assert (Hopen : open_ledger cfg env w = (Ok (st, m), w1)).
  { unfold open_ledger, ledger_call, Installation.Open. destruct (Henv (tick w)) as [Hf _].
    rewrite Hst, Hfile. unfold w1. rewrite Hfile. cbn [mbind result_bind].
    pose proof Hf as (-> & _ & _). by rewrite (readAndVerify_works _ _ _ Hf Hok). }
  assert (Hbound : store_call (fun _ => Wallets.InstallationID) env w1 = (Ok (Some (InstallationID m)), w2)).
  { unfold store_call. destruct (Henv (tick w1)) as [_ ->].
    unfold Wallets.InstallationID, run_auto, mbind, m_bind, query_opt, query, stmt, driver, select_metadata, row_of.
    cbn -[lower_hex32_bytes]. rewrite Hb. cbn -[lower_hex32_bytes]. by rewrite (ok_id _ _ Hok). }
  destruct (verify_coverage_works (map_to_list (Installation.Wallets m)) env w2 Henv) as [w' Hw'].
  { intros id s Hs%elem_of_map_to_list. destruct (wallet_sorted _ _ _ _ Hok Hv Hs).
    destruct (Hun _ Hfile _ _ Hs). split_and!; try done. by apply Hcov. }
  exists w'. unfold OpenForServe, mbind, w_bind. rewrite Hopen, Hbound, String.eqb_refl. cbn [negb].
  rewrite Hw'. split; [done|]. apply verify_coverage_ok in Hw' as [[? ?] _]; [done|].
  intros id s Hs%elem_of_map_to_list. destruct (wallet_sorted _ _ _ _ Hok Hv Hs).
  destruct (Hun _ Hfile _ _ Hs). done.
Qed.

(** on a healthy file system and driver the gateway serves exactly when the
    manifest verifies for the configuration, the database is bound to it and
    the registry of every wallet is complete; an empty, foreign or truncated
    database is refused and nothing is written. *)
Theorem OpenForServe_iff cfg env w st m :
  healthy env -> newState (Config.InstallationStatePath cfg) (Identity_of cfg) = Ok st ->
  (forall m, file w = Some m -> unsigned m) ->
  (exists w', OpenForServe cfg env w = (Ok (st, m), w') /\ same_stores w w') <->
  file w = Some m /\ manifest_ok m st /\ bound_to (InstallationID m) (tables w) /\
  forall id, covered m (tables w) id.
Proof. apply serves_iff. Qed.

(** * Initialisation *)

#[local] Arguments TrimSpace : simpl never.

Lemma validated_identity_trimmed url_Parse c cfg :
  Config.Validate url_Parse c = Ok cfg -> trimmed (Identity_of cfg).
Proof.
  intros (ws & crs & -> & _ & _ & -> & _ & _ & Hall)%Validate_inv.
  split.
  - cbn. rewrite !Forall_app in Hall. destruct Hall as [Hb _]. apply Forall_inv in Hb. cbn in Hb.
    destruct (Config.Network c); try reflexivity. by cbn in Hb.
  - cbn [Identity_of id_Wallets Config.set_wallets_credentials Config.Wallets].
    rewrite map_map. apply Forall_forall. intros wi (x & -> & _)%list_elem_of_fmap.
    unfold trim_wallet, wallet_identity, Config.trim_wallet. cbn. rewrite TrimSpace_idem. f_equal.
    apply TrimSpace_plain. unfold Config.UFVKFingerprint, all_bytes. apply forallb_forall.
    intros ch Hch. apply lower_hex_plain.
    pose proof (EncodeToString_lower (Sum256 (TrimSpace (Config.UFVK
      {| Config.WalletID := TrimSpace (Config.WalletID x); Config.UFVK := TrimSpace (Config.UFVK x);
         Config.BirthdayHeight := Config.BirthdayHeight x; Config.Account := Config.Account x |})))) as Hl.
    unfold all_bytes in Hl. rewrite forallb_forall in Hl. by apply Hl.
Qed.

Lemma create_ledger_ok cfg env w st m w' :
  create_ledger cfg env w = (Ok (st, m), w') ->
  exists raw, call_random (env (tick w)) = Ok raw /\ file w = None /\ file w' = Some m /\
    tables w' = tables w /\ st = canonicalIdentity (Identity_of cfg) /\ validateIdentity st = Ok tt /\
    newState (Config.InstallationStatePath cfg) (Identity_of cfg) = Ok st /\
    m = create_manifest (Identity_of cfg) (EncodeToString raw) (call_clock (env (tick w))).
Proof.
  unfold create_ledger. intros (H & Ht & _)%ledger_call_inv. unfold Installation.Create in H.
  destruct (newState _ _) as [st0|e] eqn:Hst; [|done]. pose proof (newState_ok _ _ _ Hst) as [Heq Hv].
  unfold withLock in H. destruct (lock_fault _); [done|]. destruct (file w) eqn:Hf; [done|].
  destruct (randomID (call_random (env (tick w)))) as [id|e] eqn:Hr; [|done].
  unfold writeAtomic in H. destruct (write _); [|done|done]. injection H as <- <- Hf'.
  apply result_bind_ok in Hr as (raw & Hraw%map_err_ok & [= <-]). exists raw. by split_and!.
Qed.

Lemma ensure_wallets_ok cfg l env w u w' :
  ensure_wallets cfg l env w = (Ok u, w') ->
  file w' = file w /\ db_addresses (tables w') = db_addresses (tables w) /\
  db_metadata (tables w') = db_metadata (tables w).
Proof.
  revert w. induction l as [|x l IH]; cbn [ensure_wallets]; intros w H; [by injection H as <- <-|].
  apply w_bind_ok in H as ([] & w1 & (Hw & Hf & _)%w_map_err_ok%store_call_inv & H).
  apply EnsureWallet_registers in Hw as (r & Hw & _).
  apply IH in H as (-> & -> & ->). by rewrite Hw, Hf.
Qed.

(** Checking the configured keys leaves both stores alone. *)
Lemma validate_first_ok d prefix seen l env w u w' :
  validate_first_addresses d prefix seen l env w = (Ok u, w') -> same_stores w w'.
Proof.
  revert seen w. induction l as [|x l IH]; cbn [validate_first_addresses]; intros seen w H.
  { by injection H as <- <-. }
  apply w_bind_ok in H as (a1 & w1 & [_ H1]%w_map_err_ok%outside_call_ok & H).
  apply w_bind_ok in H as (a2 & w2 & [= _ <-] & H).
  apply w_bind_ok in H as (a3 & w3 & [_ H3]%w_map_err_ok%outside_call_ok & H).
  apply w_bind_ok in H as (a4 & w4 & [= _ <-] & H).
  destruct (negb _); [done|]. destruct (seen !! a2); [done|]. apply IH in H.
  etrans; [exact H1|]. by etrans.
Qed.

Lemma assert_initializable_call env w u w' :
  store_call (fun _ => AssertInitializable) env w = (Ok u, w') ->
  same_stores w w' /\ db_addresses (tables w) = ∅ /\ db_metadata (tables w) = ∅ /\ db_wallets (tables w) = ∅.
Proof.
  intros (H & Hf & _)%store_call_inv. unfold AssertInitializable in H.
  apply run_auto_cases in H as [[_ (e & [=])]|(a & io2 & [= ->] & H)]. tx_inv.
  match goal with H : negb _ = false |- _ => apply negb_false_iff in H; rename H into Hz end.
  unfold all_zero, table_counts in Hz. cbn in Hz. bool_to_prop.
  repeat match goal with
  | H : match ?n with 0%nat => true | S _ => false end = true |- _ =>
      let E := fresh "E" in destruct n eqn:E; [clear H|discriminate H] end.
  repeat match goal with E : size _ = 0%nat |- _ => apply map_size_empty_inv in E end.
  by split_and!.
Qed.

Lemma bind_installation_call id env w u w' :
  store_call (fun _ => BindInstallation id) env w = (Ok u, w') ->
  file w' = file w /\ db_addresses (tables w') = db_addresses (tables w) /\ bound_to id (tables w').
Proof.
  intros (H & Hf & _)%store_call_inv. split; [done|]. split.
  - eapply meta_write_addresses, bind_write. exact H.
  - unfold BindInstallation, bindInstallation, validateInstallationID in H.
    destruct (lower_hex32_bytes id); cbn [negb] in H; [|done].
    apply run_tx_cases in H
      as [[_ (e & [=])]|[(-> & a & io1 & io2 & s2 & [= ->] & H1)|(a & io1 & io2 & [= ->] & H1)]];
      meta_inv; unfold bound_to; try match goal with H : _ = tables w' |- _ => rewrite <- H end;
      cbn; by simplify_map_eq.
Qed.

(** [Initialize] on a validated configuration was acknowledged, found no
    manifest and empty tables, and leaves a fresh manifest that verifies, with
    no index used, bound to the database; from then on the gateway serves it on
    any healthy system, and a second [Initialize] is refused. *)
Theorem Initialize_then_serve url_Parse c cfg deriver ack env w m w' :
  Config.Validate url_Parse c = Ok cfg ->
  (forall n, call_clock (env n) <> 0 /\ forall raw, call_random (env n) = Ok raw -> len raw = 32) ->
  Initialize cfg deriver ack env w = (Ok m, w') ->
  ack = InitAcknowledgement /\ file w = None /\ db_addresses (tables w) = ∅ /\ db_metadata (tables w) = ∅ /\
  file w' = Some m /\ bound_to (InstallationID m) (tables w') /\
  (forall id s, Installation.Wallets m !! id = Some s -> NextAddressIndex s = 0 /\ SkippedAddressIndices s = []) /\
  (forall env', healthy env' -> exists st w'', OpenForServe cfg env' w' = (Ok (st, m), w'')) /\
  (forall env' deriver' ack', exists e w'', Initialize cfg deriver' ack' env' w' = (Err e, w'') /\ same_stores w' w'').
Proof.
  intros Htr%validated_identity_trimmed Henv. unfold Initialize at 1.
  destruct (String.eqb_spec ack InitAcknowledgement) as [->|]; cbn [negb]; [|done].
  intros H. split; [done|].
  apply w_bind_ok in H as (ex & w1 & Hex & H). destruct ex; [done|].
  assert (same_stores w w1) as [Hf1 Ht1].
  { unfold Exists in Hex. case_match; [done|]. by injection Hex as _ <-. }
  unfold validateConfiguredWallets in H.
  apply w_bind_ok in H as ([] & w2 & Hval & H). destruct deriver as [d|]; [|done].
  apply validate_first_ok in Hval as [Hf2 Ht2].
  apply w_bind_ok in H as ([] & w3 & ([Hf3 Ht3] & Ha & Hm & _)%assert_initializable_call & H).
  apply w_bind_ok in H as ([st m1] & w4 & Hcr & H).
  apply create_ledger_ok in Hcr as (raw & Hraw & Hnone & Hf4 & Ht4 & Hst & Hv & Hns & Hm1).
  apply w_bind_ok in H as ([] & w5 & [Hf5 Ha5]%w_map_err_ok%begin_recovery_call & H).
  apply w_bind_ok in H as ([] & w6 & (Hf6 & Ha6 & _)%ensure_wallets_ok & H).
  apply w_bind_ok in H as ([] & w7 & (Hf7 & Ha7 & Hb)%w_map_err_ok%bind_installation_call & [= -> ->]).
  assert (Hfile : file w' = Some m) by congruence.
  assert (Hfresh : forall id s, Installation.Wallets m !! id = Some s ->
            NextAddressIndex s = 0 /\ SkippedAddressIndices s = []).
  { intros id s. rewrite Hm1. cbn. unfold initial_wallets. intros Hs%initial_wallets_zero.
    destruct Hs as [Hs|(_ & ? & ?)]; [by rewrite lookup_empty in Hs|done]. }
  split_and!; try done; try congruence.
  - intros env' Henv'. exists st.
    destruct (proj2 (serves_iff cfg env' w' st m Henv' Hns ltac:(intros m' Hm' id s Hs;
      rewrite Hfile in Hm'; injection Hm' as <-; destruct (Hfresh _ _ Hs) as [-> ->]; done)))
      as (w'' & Hw'' & _); [|by exists w''].
    split_and!; [done| |done|].
    + rewrite Hm1, Hst. destruct (Henv (tick w3)) as [Hck Hrd].
      apply create_manifest_ok; [done| |by apply EncodeToString_id, Hrd|done].
      apply canonical_NoDup; [done|]. rewrite <- Hst. by apply validateIdentity_NoDup.
    + intros id s Hs i. destruct (Hfresh _ _ Hs) as [-> ->].
      rewrite Ha7, Ha6, Ha5, Ht4, Ht3, Ha, lookup_empty, elem_of_nil. split; [lia|intros [[]|[? [=]]]].
  - intros env' deriver' ack'. unfold Initialize. destruct (negb (String.eqb ack' _)); [do 2 eexists; split; reflexivity|].
    unfold mbind at 1, w_bind. destruct (Exists env' w') as [[b|e] w''] eqn:He; unfold Exists in He;
      rewrite Hfile, bool_decide_true in He by done; destruct (read_fault _); try done;
      injection He as <- <-; do 2 eexists; (split; [reflexivity|split; cbn; congruence]).
Qed.

(** * Concrete runs *)

Definition demo_address (ufvk : string) (i : Z) : string := AddressHRP Mainnet +:+ "1" +:+ ufvk +:+ pretty i +:+ " ".
Definition demo_D (ufvk : string) (i : Z) : string := TrimSpace (demo_address ufvk i).

(** One deriver works index by index, the other in batches. *)
Definition demo_deriver : Deriver :=
  {| Derive := fun _ u i => Ok (demo_address u i); DeriveBatch := None |}.
Definition demo_batched : Deriver :=
  {| Derive := fun _ u i => Ok (demo_address u i);
     DeriveBatch := Some (fun _ u start count => Ok (map (demo_address u) (seqZ start count))) |}.

Lemma demo_deterministic : deterministic demo_deriver demo_D.
Proof. intros u i raw [(n & [= <-])|(? & ? & ? & ? & ? & [=] & _)]. reflexivity. Qed.

Lemma demo_batched_deterministic : deterministic demo_batched demo_D.
Proof.
  intros u i raw [(n & [= <-])|(f & n & start & count & l & [= <-] & [= <-] & Hi & Hl)]; [reflexivity|].
  apply list_lookup_fmap_Some in Hl as (j & -> & [-> _]%lookup_seqZ). unfold demo_D. do 2 f_equal. lia.
Qed.

Definition demo_cfg : Config.Config :=
  match Config.Validate Config.demo_url_Parse Config.demo_config with Ok c => c | Err _ => Config.demo_config end.

Lemma demo_cfg_valid : Config.Validate Config.demo_url_Parse Config.demo_config = Ok demo_cfg.
Proof. vm_compute. reflexivity. Qed.

Definition good_env (n : nat) : call_env :=
  {| call_fs := fs_ok; call_io := []; call_clock := 1000 + Z.of_nat n; call_ctx := None;
     call_random := Ok demo_random |}.

Definition later_env (n : nat) : call_env :=
  {| call_fs := fs_ok; call_io := []; call_clock := 2000 + Z.of_nat n; call_ctx := None;
     call_random := Ok demo_random |}.

Definition new_world : world := {| file := None; tables := empty_db true; tick := 0 |}.
Definition init_run : result Manifest * world :=
  Initialize demo_cfg (Some demo_deriver) InitAcknowledgement good_env new_world.
(** The database is lost, the manifest is not. *)
Definition lose_database (w : world) : world := {| file := file w; tables := empty_db true; tick := 0 |}.
Definition lost_world : world := lose_database init_run.2.
Definition demo_targets : gmap string Z := {["hot"%string := 3; "cold"%string := 0]}.
Definition demo_checksum : string :=
  Sum (mapping_text "mainnet" (EncodeToString demo_random)
         (map (mapping_of demo_D demo_targets) (sorted_wallets demo_cfg))).
Definition recover_run : result Manifest * world :=
  Recover demo_cfg (Some demo_batched) RecoverAcknowledgement demo_checksum {["hot"%string := 3]}
    later_env lost_world.

Example demo_runs : is_ok init_run.1 = true /\ is_ok recover_run.1 = true.
Proof. vm_compute. done. Qed.

Lemma good_env_healthy : healthy good_env.
Proof. intros n. by split. Qed.

Lemma good_env_inputs n :
  call_clock (good_env n) <> 0 /\ forall raw, call_random (good_env n) = Ok raw -> len raw = 32.
Proof. cbn. split; [lia|]. by intros raw [= <-]. Qed.

Lemma Initialize_then_serve_witness :
  exists m w', init_run = (Ok m, w') /\ file w' = Some m /\
    exists st w'', OpenForServe demo_cfg good_env w' = (Ok (st, m), w'').
Proof.
  assert (Hv : is_ok init_run.1 = true) by (vm_compute; reflexivity).
  unfold init_run in *.
  destruct (Initialize demo_cfg (Some demo_deriver) InitAcknowledgement good_env new_world) as [[m|e] w'] eqn:H;
    [|discriminate Hv].
  destruct (Initialize_then_serve _ _ _ _ _ _ _ _ _ demo_cfg_valid good_env_inputs H)
    as (_ & _ & _ & _ & Hf & _ & _ & Hs & _).
  exact (ex_intro _ m (ex_intro _ w' (conj eq_refl (conj Hf (Hs _ good_env_healthy))))).
Defined.

Lemma init_file_fresh m : file init_run.2 = Some m -> unsigned m /\ ledger_typed (Some m).
Proof.
  intros Hm.
  assert (Hv : map_Forall (fun _ s => NextAddressIndex s = 0 /\ SkippedAddressIndices s = [])
                 (Installation.Wallets m)).
  { apply (f_equal (fun f => match f with Some m => Installation.Wallets m | None => ∅ end)) in Hm.
    rewrite <- Hm. apply (bool_decide_unpack _). vm_compute. exact I. }
  split.
  - intros id s Hs. destruct (Hv _ _ Hs) as [-> ->]. split; [lia|constructor].
  - intros id n. rewrite high_water_some. intros (s & Hs & ->)%fmap_Some. by destruct (Hv _ _ Hs) as [-> _].
Qed.

Lemma typed_of (f : option Manifest) : (forall m, f = Some m -> ledger_typed (Some m)) -> ledger_typed f.
Proof. intros Hf. destruct f as [m|]; [by apply Hf|]. by intros id n. Qed.

Lemma file_lose w : file (lose_database w) = file w.
Proof. reflexivity. Qed.

Lemma lost_typed : ledger_typed (file lost_world).
Proof.
  unfold lost_world. rewrite file_lose. apply typed_of. intros m Hm. exact (proj2 (init_file_fresh m Hm)).
Qed.

Lemma Recover_restores_witness :
  exists m' w', recover_run = (Ok m', w') /\ sealed (InstallationID m') (tables w') /\
    forall id, covered m' (tables w') id.
Proof.
  assert (Hv : is_ok recover_run.1 = true) by (vm_compute; reflexivity).
  unfold recover_run in *.
  destruct (Recover demo_cfg (Some demo_batched) RecoverAcknowledgement demo_checksum {["hot"%string := 3]}
    later_env lost_world) as [[m|e] w'] eqn:H; [|discriminate Hv].
  destruct (Recover_restores _ _ _ _ _ _ _ _ _ _ demo_batched_deterministic lost_typed H)
    as (_ & m0 & targets & _ & _ & _ & Hid & Hseal & _ & Hcov & _).
  exists m, w'. rewrite Hid. exact (conj eq_refl (conj Hseal Hcov)).
Defined.

Lemma OpenForServe_iff_witness :
  exists st m, newState (Config.InstallationStatePath demo_cfg) (Identity_of demo_cfg) = Ok st /\
    file init_run.2 = Some m /\
    ((exists w', OpenForServe demo_cfg good_env init_run.2 = (Ok (st, m), w') /\ same_stores init_run.2 w') <->
     file init_run.2 = Some m /\ manifest_ok m st /\ bound_to (InstallationID m) (tables init_run.2) /\
     forall id, covered m (tables init_run.2) id).
Proof.
  assert (Hn : is_ok (newState (Config.InstallationStatePath demo_cfg) (Identity_of demo_cfg)) = true)
    by (vm_compute; reflexivity).
  assert (Hm : match file init_run.2 with Some _ => true | None => false end = true) by (vm_compute; reflexivity).
  destruct (newState _ _) as [st|e] eqn:Hst; [|discriminate Hn].
  destruct (file init_run.2) as [m|] eqn:Hf; [|discriminate Hm].
  assert (Hu : forall m, file init_run.2 = Some m -> unsigned m) by (intros m' H'; exact (proj1 (init_file_fresh m' H'))).
  exists st, m. pose proof (OpenForServe_iff demo_cfg good_env init_run.2 st m good_env_healthy Hst Hu) as H.
  rewrite Hf in H. exact (conj eq_refl (conj eq_refl H)).
Defined.

Lemma demo_targets_ok : targets_ok demo_targets.
Proof.
  assert (Hv : map_Forall (fun _ t => 0 <= t <= uint32_max + 1) demo_targets)
    by (apply (bool_decide_unpack _); vm_compute; exact I).
  exact Hv.
Qed.

Lemma RecoveryChecksum_spec_witness :
  exists c w', RecoveryChecksum demo_cfg demo_manifest demo_targets (Some demo_batched) good_env new_world = (Ok c, w') /\
    c = Sum (mapping_text "mainnet" (InstallationID demo_manifest)
               (map (mapping_of demo_D demo_targets) (sorted_wallets demo_cfg))).
Proof.
  assert (Hv : is_ok (RecoveryChecksum demo_cfg demo_manifest demo_targets (Some demo_batched) good_env new_world).1 = true)
    by (vm_compute; reflexivity).
  destruct (RecoveryChecksum demo_cfg demo_manifest demo_targets (Some demo_batched) good_env new_world)
    as [[c|e] w'] eqn:H; [|discriminate Hv].
  exists c, w'. split; [reflexivity|].
  exact (proj2 (proj2 (RecoveryChecksum_spec _ _ _ _ _ _ _ _ _ demo_batched_deterministic demo_targets_ok H))).
Defined.

Lemma forEachDerivedAddress_visits_witness :
  exists w' raws, forEachDerivedAddress (add_mapping "hot") (AddressHRP Mainnet +:+ "1") demo_deriver "k" 2 ""
      good_env new_world = (Ok (Add (Add "" "hot" 0 (demo_D "k" 0)) "hot" 1 (demo_D "k" 1)), w') /\
    Z.of_nat (length raws) = 2 /\ NoDup (map TrimSpace raws).
Proof.
  assert (Hv : (forEachDerivedAddress (add_mapping "hot") (AddressHRP Mainnet +:+ "1") demo_deriver "k" 2 ""
      good_env new_world).1 = Ok (Add (Add "" "hot" 0 (demo_D "k" 0)) "hot" 1 (demo_D "k" 1)))
    by (vm_compute; reflexivity).
  assert (Ht : 0 <= 2 <= uint32_max + 1) by (split; [lia|discriminate]).
  destruct (forEachDerivedAddress (add_mapping "hot") (AddressHRP Mainnet +:+ "1") demo_deriver "k" 2 ""
      good_env new_world) as [r w'] eqn:H. cbn [fst] in Hv. subst r.
  destruct (forEachDerivedAddress_visits _ _ _ _ _ _ _ _ _ _ Ht H) as (raws & Hl & _ & _ & Hn & _).
  exact (ex_intro _ w' (ex_intro _ raws (conj eq_refl (conj Hl Hn)))).
Defined.
