(* ===== verification/Addrgen.v ===== *)
(** The address deriver, [internal/adapters/addrgen/addrgen.go]: it runs the
    [juno-addrgen] program and reads the JSON it prints.

    [run n args ufvk] is what the run of call [n] comes to; the program gets the
    viewing key in an environment variable of its own. *)
From S2P Require Import Prelude GoString Json Config Lifecycle.

(** What [cmd.Output] gives: the output, an [exec.ExitError], or another error. *)
Inductive outcome : Type :=
  | printed (raw : string)
  | exited
  | failed (e : error).

Definition outputVersion : string := "v1".

(** * One address *)

Record single := { sg_Version : string; sg_Status : string; sg_Address : string; sg_Error : string }.
Definition no_single : single := {| sg_Version := ""; sg_Status := ""; sg_Address := ""; sg_Error := "" |}.

Definition into_single (j : json) (o : single) : option single :=
  ms ← struct_members j;
  version ← decode_field "version" into_string (sg_Version o) ms;
  status ← decode_field "status" into_string (sg_Status o) ms;
  address ← decode_field "address" into_string (sg_Address o) ms;
  error ← decode_field "error" into_string (sg_Error o) ms;
  Some {| sg_Version := version; sg_Status := status; sg_Address := address; sg_Error := error |}.

Definition derive_args (index : Z) : list string :=
  ["derive"; "--ufvk-env"; "JUNO_GATEWAY_DERIVE_UFVK"; "--index"; pretty index; "--json"]%string.

(** * A range of addresses *)

Record batch := { bt_Version : string; bt_Status : string; bt_Start : Z; bt_Count : Z; bt_Addresses : list string }.
Definition no_batch : batch := {| bt_Version := ""; bt_Status := ""; bt_Start := 0; bt_Count := 0; bt_Addresses := [] |}.

Definition into_batch (j : json) (o : batch) : option batch :=
  ms ← struct_members j;
  version ← decode_field "version" into_string (bt_Version o) ms;
  status ← decode_field "status" into_string (bt_Status o) ms;
  start ← decode_field "start" into_uint32 (bt_Start o) ms;
  count ← decode_field "count" into_uint32 (bt_Count o) ms;
  addresses ← decode_field "addresses" (into_slice into_string ""%string) (bt_Addresses o) ms;
  Some {| bt_Version := version; bt_Status := status; bt_Start := start; bt_Count := count; bt_Addresses := addresses |}.

Definition batch_args (start count : Z) : list string :=
  ["batch"; "--ufvk-env"; "JUNO_GATEWAY_DERIVE_UFVK"; "--start"; pretty start; "--count"; pretty count; "--json"]%string.

Definition range_invalid (start count : Z) : bool :=
  (count =? 0) || (100000 <? count) || (uint32_max + 1 <? start + count).

(** The loop over the addresses: trimmed, none of them empty. *)
Fixpoint trim_addresses (addresses : list string) : result (list string) :=
  match addresses with
  | [] => Ok []
  | a :: rest =>
      let a := TrimSpace a in
      if String.eqb a "" then Err (New "address batch deriver returned an empty address")
      else rest ← trim_addresses rest; Ok (a :: rest)
  end.

Section deriver.
Context (run : nat -> list string -> string -> outcome).

(** [index] is a [uint32]. *)
Definition Derive (n : nat) (ufvk : string) (index : Z) : result string :=
  match run n (derive_args (wrapu32 index)) ufvk with
  | exited => Err (New "address derivation rejected UFVK or index")
  | failed e => Err (Wrap "start address deriver" e)
  | printed raw =>
      match Unmarshal into_single no_single raw with
      | None => Err (New "address deriver returned invalid JSON")
      | Some out =>
          if negb (String.eqb (sg_Version out) outputVersion) || negb (String.eqb (sg_Status out) "ok")
             || String.eqb (TrimSpace (sg_Address out)) ""
          then Err (New "address derivation failed") else Ok (TrimSpace (sg_Address out))
      end
  end.

(** [start] and [count] are [uint32]s. *)
Definition DeriveBatch (n : nat) (ufvk : string) (start count : Z) : result (list string) :=
  let start := wrapu32 start in
  let count := wrapu32 count in
  if range_invalid start count then Err (New "address derivation batch range is invalid")
  else
    match run n (batch_args start count) ufvk with
    | exited => Err (New "address batch derivation rejected UFVK or range")
    | failed e => Err (Wrap "start address batch deriver" e)
    | printed raw =>
        match Unmarshal into_batch no_batch raw with
        | None => Err (New "address batch deriver returned invalid JSON")
        | Some out =>
            if negb (String.eqb (bt_Version out) outputVersion) || negb (String.eqb (bt_Status out) "ok")
               || negb (bt_Start out =? start) || negb (bt_Count out =? count)
               || negb (Z.of_nat (length (bt_Addresses out)) =? count)
            then Err (New "address batch derivation failed") else trim_addresses (bt_Addresses out)
        end
    end.

(** The deriver the commands run with. *)
Definition deriver : Lifecycle.Deriver :=
  {| Lifecycle.Derive := Derive; Lifecycle.DeriveBatch := Some DeriveBatch |}.
End deriver.

(** * Theorems *)

Lemma trim_addresses_ok l out : trim_addresses l = Ok out <->
  out = map TrimSpace l /\ Forall (fun a => TrimSpace a <> ""%string) l.
Proof.
  revert out. induction l as [|a l IH]; intros out; cbn [trim_addresses map].
  - split; [intros [= <-]; by split|by intros [-> _]].
  - rewrite Forall_cons. destruct (String.eqb_spec (TrimSpace a) "") as [He|He]; [by split; [|intros [_ [? _]]]|].
    rewrite result_bind_ok. split.
    + intros (rest & [-> Hl]%IH & [= <-]). by split.
    + intros [-> [_ Hl]]. exists (map TrimSpace l). split; [by apply IH|done].
Qed.

Lemma wrapu32_range z : uint32 (wrapu32 z).
Proof. unfold wrapu32. pose proof (Z.mod_pos_bound z (2 ^ 32)). width. lia. Qed.

(** What the text of an address a deriver gives is like. *)
Definition clean (a : string) : Prop := a <> ""%string /\ TrimSpace a = a.

(** whatever the program prints, a batch that is accepted is a full one: it
    was asked for a range inside the index space, the program named that very
    range, and there is one address for each of its indices, trimmed and not empty. *)
Theorem DeriveBatch_covers run n ufvk start count l : uint32 start -> uint32 count ->
  DeriveBatch run n ufvk start count = Ok l ->
  1 <= count <= 100000 /\ start + count <= uint32_max + 1 /\
  Z.of_nat (length l) = count /\ Forall clean l /\
  exists raw out, run n (batch_args start count) ufvk = printed raw /\ Unmarshal into_batch no_batch raw = Some out /\
    bt_Start out = start /\ bt_Count out = count /\ l = map TrimSpace (bt_Addresses out).
Proof.
  intros Hs Hc. unfold DeriveBatch. cbv zeta. rewrite !wrapu32_id by done.
  unfold range_invalid. destruct (_ || _ || _) eqn:Hr; [done|].
  destruct (run _ _ _) as [raw| |e] eqn:Hrun; [|done..]. destruct (Unmarshal _ _ _) as [out|] eqn:Hu; [|done].
  destruct (_ || _ || _ || _ || _) eqn:Hg; [done|]. intros [-> Hne]%trim_addresses_ok. bool_to_prop.
  split; [width; lia|]. split; [lia|]. rewrite length_map. split; [done|]. split.
  { apply Forall_map. eapply Forall_impl; [exact Hne|]. intros a Ha. split; [exact Ha|apply TrimSpace_idem]. }
  by exists raw, out.
Qed.

(** ** A program that keeps to its output format *)

Definition single_json (address : string) : json :=
  JObject [("version", JString outputVersion); ("status", JString "ok"); ("address", JString address)]%string.
Definition batch_json (start count : Z) (addresses : list string) : json :=
  JObject [("version", JString outputVersion); ("status", JString "ok"); ("start", JInt start); ("count", JInt count);
           ("addresses", JArray (map JString addresses))]%string.

(** [D ufvk i] is the address of index [i]. *)
Record keeps_format (run : nat -> list string -> string -> outcome) (D : string -> Z -> string) : Prop := {
  prints_single : forall n u i, uint32 i -> run n (derive_args i) u = printed (Marshal (single_json (D u i)));
  prints_batch : forall n u s c, uint32 s -> 1 <= c <= 100000 -> s + c <= uint32_max + 1 ->
    run n (batch_args s c) u = printed (Marshal (batch_json s c (map (D u) (seqZ s c))));
  address_text : forall u i, utf8_string (D u i) = true /\ TrimSpace (D u i) <> ""%string
}.

Lemma read_single a : utf8_string a = true ->
  Unmarshal into_single no_single (Marshal (single_json a)) =
  Some {| sg_Version := outputVersion; sg_Status := "ok"; sg_Address := a; sg_Error := "" |}.
Proof.
  intros Ha. unfold Unmarshal. rewrite parse_Marshal by (cbn; rewrite ?Ha; done || lia).
  cbn [mbind option_bind]. unfold single_json, into_single. by decode_json.
Qed.

Lemma into_strings l : into_slice into_string ""%string (JArray (map JString l)) [] = Some l.
Proof. cbn [into_slice]. induction l as [|a l IH]; [done|]. cbn [map into_elements head tail]. unfold mbind, option_bind in *. cbn [into_string default]. by rewrite IH. Qed.

Lemma read_batch s c l : uint32 s -> uint32 c -> Forall (fun a => utf8_string a = true) l ->
  Unmarshal into_batch no_batch (Marshal (batch_json s c l)) =
  Some {| bt_Version := outputVersion; bt_Status := "ok"; bt_Start := s; bt_Count := c; bt_Addresses := l |}.
Proof.
  intros Hs Hc Hl. unfold Unmarshal. rewrite parse_Marshal.
  - cbn [mbind option_bind]. unfold batch_json, into_batch.
    assert (Hu : forall z old, uint32 z -> into_uint32 (JInt z) old = Some z).
    { intros z old Hz. unfold into_uint32, into_int, JInt. apply ParseUint_pretty_Z. width; lia. }
    generalize (Hu s 0 Hs), (Hu c 0 Hc), (into_strings l).
    generalize (JInt s), (JInt c), (JArray (map JString l)). intros js jc jl Es Ec El.
    decode_json. cbn [no_batch bt_Start bt_Count bt_Addresses]. rewrite Es. decode_json. rewrite Ec. decode_json.
    rewrite El. by decode_json.
  - assert (Hp : forallb printable (map JString l) = true).
    { apply forallb_forall. intros j (a & <- & Ha%list_elem_of_In)%in_map_iff.
      rewrite Forall_forall in Hl. cbn [printable]. by apply Hl. }
    cbn [printable forallb fst snd JInt batch_json]. by rewrite !number_literal_pretty, Hp.
  - cbn [depth map foldr snd JInt batch_json]. assert (Hd : foldr Z.max 0 (map depth (map JString l)) = 0).
    { clear. induction l as [|a l IH]; [done|]. cbn. by rewrite IH. }
    rewrite Hd. lia.
Qed.

Lemma program_is_read run D : keeps_format run D ->
  (forall n u i, uint32 i -> Derive run n u i = Ok (TrimSpace (D u i))) /\
  (forall n u s c, uint32 s -> 1 <= c <= 100000 -> s + c <= uint32_max + 1 ->
     DeriveBatch run n u s c = Ok (map (fun i => TrimSpace (D u i)) (seqZ s c))) /\
  deterministic (deriver run) (fun u i => TrimSpace (D u (wrapu32 i))).
Proof.
  intros [Hsingle Hbatch Htext].
  assert (Hone : forall n u i, Derive run n u i = Ok (TrimSpace (D u (wrapu32 i)))).
  { intros n u i. unfold Derive. rewrite Hsingle by apply wrapu32_range.
    destruct (Htext u (wrapu32 i)) as [Hu Hne]. rewrite read_single by done. cbn [sg_Version sg_Status sg_Address].
    by destruct (String.eqb_spec (TrimSpace (D u (wrapu32 i))) ""). }
  assert (Hmany : forall n u s c, uint32 s -> 1 <= c <= 100000 -> s + c <= uint32_max + 1 ->
     DeriveBatch run n u s c = Ok (map (fun i => TrimSpace (D u i)) (seqZ s c))).
  { intros n u s c Hs Hc Hsc. assert (Hc32 : uint32 c) by (width; lia).
    unfold DeriveBatch, range_invalid. cbv zeta. rewrite !wrapu32_id by done.
    rewrite (proj2 (Z.eqb_neq c 0)), (proj2 (Z.ltb_ge 100000 c)), (proj2 (Z.ltb_ge (uint32_max + 1) (s + c))) by lia.
    cbn [orb]. rewrite Hbatch by done. rewrite read_batch; [|done..|].
    2:{ apply Forall_map, Forall_forall. intros i _. apply (proj1 (Htext u i)). }
    cbn [bt_Version bt_Status bt_Start bt_Count bt_Addresses]. rewrite !Z.eqb_refl, length_map, length_seqZ.
    rewrite Z2Nat.id, Z.eqb_refl by lia. cbn [negb orb String.eqb Ascii.eqb Bool.eqb outputVersion].
    apply trim_addresses_ok. rewrite map_map. split; [done|].
    apply Forall_map, Forall_forall. intros i _. apply (proj2 (Htext u i)). }
  split; [intros n u i Hi; by rewrite Hone, wrapu32_id|]. split; [exact Hmany|].
  intros u i raw [(n & Hn)|(f & n & s & c & l & [= <-] & Hf & Hi & Hl)].
  - cbn in Hn. rewrite Hone in Hn. injection Hn as <-. apply TrimSpace_idem.
  - pose proof wrapu32_range as Hrange. assert (Hwrap : DeriveBatch run n u s c = DeriveBatch run n u (wrapu32 s) (wrapu32 c)).
    { unfold DeriveBatch. by rewrite !(wrapu32_id (wrapu32 _)) by done. }
    rewrite Hwrap in Hf. pose proof Hf as Hf'. apply DeriveBatch_covers in Hf' as (Hc & Hsc & _); [|done..].
    rewrite Hmany in Hf by done. injection Hf as <-.
    apply list_lookup_fmap_Some in Hl as (j & -> & [-> Hj]%lookup_seqZ). rewrite TrimSpace_idem. do 2 f_equal.
    rewrite Z2Nat.id in * by lia. unfold wrapu32 in *. rewrite <- (Z.mod_small (s mod 2 ^ 32 + (i - s)) (2 ^ 32)).
    + rewrite Zplus_mod_idemp_l. f_equal. lia.
    + pose proof (Z.mod_pos_bound s (2 ^ 32)). unfold uint32_max in *. lia.
Qed.

(** C29: a program that keeps to its output format is read exactly: single
    derivations and batches give its addresses, index for index; and they agree,
    whatever run they come from, as the recovery of a registry needs. *)
Theorem program_addresses_are_read run D : keeps_format run D ->
  (forall n u i, uint32 i -> Derive run n u i = Ok (TrimSpace (D u i))) /\
  (forall n u s c, uint32 s -> 1 <= c <= 100000 -> s + c <= uint32_max + 1 ->
     DeriveBatch run n u s c = Ok (map (fun i => TrimSpace (D u i)) (seqZ s c))) /\
  deterministic (deriver run) (fun u i => TrimSpace (D u (wrapu32 i))).
Proof. apply program_is_read. Qed.

(** * Witnesses *)

(** A program that derives [jregtest1] followed by the index. *)
Definition demo_D (ufvk : string) (i : Z) : string := "jregtest1" +:+ pretty i.
Definition demo_run (n : nat) (args : list string) (ufvk : string) : outcome :=
  match args with
  | [_; _; _; _; i; _] => match ParseInt i with Some i => printed (Marshal (single_json (demo_D ufvk i))) | None => exited end
  | [_; _; _; _; s; _; c; _] =>
      match ParseInt s, ParseInt c with
      | Some s, Some c => printed (Marshal (batch_json s c (map (demo_D ufvk) (seqZ s c))))
      | _, _ => exited
      end
  | _ => exited
  end.

Lemma DeriveBatch_covers_witness :
  DeriveBatch demo_run 0 "k" 7 2 = Ok ["jregtest17"; "jregtest18"]%string /\ 7 + 2 <= uint32_max + 1.
Proof.
  assert (H : DeriveBatch demo_run 0 "k" 7 2 = Ok ["jregtest17"; "jregtest18"]%string) by (vm_compute; reflexivity).
  split; [exact H|]. refine (proj1 (proj2 (DeriveBatch_covers demo_run 0 "k" 7 2 _ _ _ H))); width; lia.
Defined.

Lemma pretty_digits z : 0 <= z -> all_bytes is_digit (pretty z) = true.
Proof.
  intros Hz. destruct z as [|p|p]; [done| |lia]. unfold all_bytes.
  destruct (pretty_N_literal p) as (c & D & Hb & Hc & _ & HD & _). change (pretty (Zpos p)) with (pretty (Npos p)).
  rewrite Hb. cbn. by rewrite Hc.
Qed.

Lemma demo_keeps_format : keeps_format demo_run (fun u i => demo_D u (Z.abs i)).
Proof.
  assert (Hp : forall z, uint32 z -> ParseInt (pretty z) = Some z).
  { intros z Hz. apply ParseInt_pretty. width. lia. }
  split.
  - intros n u i Hi. unfold demo_run, derive_args. rewrite Hp by done. do 3 f_equal. width. f_equal. lia.
  - intros n u s c Hs Hc Hsc. unfold demo_run, batch_args. width. rewrite !Hp by (width; lia). do 3 f_equal.
    apply map_ext_in. intros i Hi%list_elem_of_In%elem_of_seqZ. f_equal. lia.
  - intros u i. assert (Hd : all_bytes is_alnum (demo_D u (Z.abs i)) = true).
    { unfold all_bytes, demo_D. rewrite to_bytes_app, forallb_app.
      assert (Hz := pretty_digits (Z.abs i) (Z.abs_nonneg i)). cbn [to_bytes forallb]. apply andb_true_iff. split; [done|].
      revert Hz. unfold all_bytes. generalize (to_bytes (pretty (Z.abs i))). intros l. rewrite !forallb_forall.
      intros Hl c Hc%Hl. unfold is_alnum. by rewrite Hc. }
    split.
    + revert Hd. apply all_bytes_ascii. intros c. destruct c as [[] [] [] [] [] [] [] []]; done.
    + rewrite TrimSpace_plain; [done|]. revert Hd. unfold all_bytes. rewrite !forallb_forall. intros Hl c Hc%Hl.
      revert Hc. destruct c as [[] [] [] [] [] [] [] []]; done.
Qed.

Lemma program_addresses_are_read_witness :
  DeriveBatch demo_run 0 "k" 4294967295 1 = Ok ["jregtest14294967295"]%string.
Proof.
  destruct (program_addresses_are_read _ _ demo_keeps_format) as (_ & Hb & _).
  refine (Hb 0%nat "k"%string 4294967295 1 _ _ _); width; lia.
Defined.
