(* ===== verification/Opening.v ===== *)
(** The stores of a command, [storage.Open] among its calls: the ledger and the rows
    of the database, which [Lifecycle] works on, and the rest of the database's file,
    which [Open] of [internal/storage/sqlite/sqlite.go] creates or migrates before
    anything else is done with it. *)
From S2P Require Import Prelude Tx GoString GoTime Domain Database Schema Wallets Installation Guarded Lifecycle.

Record machine := {
  stores_of : world;
  db_tables : gmap string (list string);
  db_indexes : gset string;
  db_versions : gset Z
}.

Definition database (m : machine) : db_file :=
  {| Schema.tables := db_tables m; indexes := db_indexes m; versions := db_versions m; rows := tables (stores_of m) |}.

Definition set_database (f : db_file) (m : machine) : machine :=
  {| stores_of := {| file := file (stores_of m); tables := rows f; tick := tick (stores_of m) |};
     db_tables := Schema.tables f; db_indexes := indexes f; db_versions := versions f |}.

Definition set_stores_of (w : world) (m : machine) : machine :=
  {| stores_of := w; db_tables := db_tables m; db_indexes := db_indexes m; db_versions := db_versions m |}.

(** A part of a command. *)
Definition C (A : Type) : Type := (nat -> call_env) -> machine -> result A * machine.

#[export] Instance c_ret : MRet C := fun A a env m => (Ok a, m).
#[export] Instance c_bind : base.MBind C := fun A B f p env m =>
  match p env m with (Ok a, m') => f a env m' | (Err e, m') => (Err e, m') end.

Definition on_stores {A} (p : W A) : C A := fun env m =>
  let '(r, w) := p env (stores_of m) in (r, set_stores_of w m).

(** [storage.Open]: [sql_open] is what [sql.Open] says of the data source, [io] what
    the driver answers to the statements of the migration. *)
Definition storage_Open (sql_open : string -> result unit) (io : outcomes) (dsn : string) : C unit := fun env m =>
  let '(r, f) := Schema.Open (sql_open dsn) io (database m) in (r, set_database f m).

(** * What opening leaves alone *)

(** The database is one that a release of the program left, or one of a newer release. *)
Definition released (f : db_file) : Prop := (exists n, legal n f) \/ exists v, v ∈ versions f /\ 4 < v.

Lemma Open_rows opened io f : released f -> rows (Schema.Open opened io f).2 = rows f.
Proof.
  intros [[n Hl]|(v & Hv & H4)]; (destruct opened as [u|e]; [|done]); cbn.
  - by destruct (migrate_reached n f io Hl) as (? & ? & ? & ? & ?).
  - by destruct (newer_schema_refused io f v Hv H4) as [_ Hr].
Qed.

Lemma Open_current opened io f f' : released f -> Schema.Open opened io f = (Ok tt, f') -> legal 4 f' /\ rows f' = rows f.
Proof.
  intros Hrel Ho. split; [|by rewrite <- (Open_rows opened io f Hrel), Ho].
  destruct opened as [u|e]; [|done]. cbn in Ho. destruct Hrel as [[n Hl]|(v & Hv & H4)].
  - destruct (migrate_reached n f io Hl) as (n' & _ & Hl' & _ & H4 & _). rewrite Ho in *. by rewrite (H4 eq_refl) in Hl'.
  - destruct (newer_schema_refused io f v Hv H4) as [[e He] _]. by rewrite Ho in He.
Qed.

(** The current schema does not speak of the rows. *)
Lemma legal_rows f d : legal 4 f ->
  legal 4 {| Schema.tables := Schema.tables f; indexes := indexes f; versions := versions f; rows := d |}.
Proof.
  intros Hl. split; try apply Hl; [lia|]. intros Hc. pose proof (lg_receipts _ _ Hl ltac:(lia)) as Hy. unfold has_column in *. cbn in Hc. by rewrite Hy in Hc.
Qed.

Lemma c_bind_ok {A B} (p : C A) (k : A -> C B) env m b m' :
  (p ≫= k) env m = (Ok b, m') <-> exists a m1, p env m = (Ok a, m1) /\ k a env m1 = (Ok b, m').
Proof. unfold mbind, c_bind. destruct (p env m) as [[a|e] m1]; naive_solver. Qed.

Lemma on_stores_ok {A} (p : W A) env m a m' : on_stores p env m = (Ok a, m') <->
  exists w, p env (stores_of m) = (Ok a, w) /\ m' = set_stores_of w m.
Proof. unfold on_stores. destruct (p env (stores_of m)) as [r w]. naive_solver. Qed.

(** What a command did: nothing to the stores, or nothing but opening the database. *)
Definition untouched (m m' : machine) : Prop := same_stores (stores_of m) (stores_of m') /\ database m' = database m.
Definition only_opened (sql_open : string -> result unit) (io : outcomes) (m m' : machine) : Prop :=
  same_stores (stores_of m) (stores_of m') /\ exists dsn, database m' = (Schema.Open (sql_open dsn) io (database m)).2.

#[export] Instance untouched_preorder : PreOrder untouched.
Proof. split; [done|]. intros m1 m2 m3 [H1 E1] [H2 E2]. split; [by etrans|congruence]. Qed.

Lemma untouched_stores w m : same_stores (stores_of m) w -> untouched m (set_stores_of w m).
Proof. intros [Hf Ht]. split; [done|]. unfold database, set_stores_of. cbn. by rewrite Ht. Qed.

Lemma storage_Open_only sql_open io dsn env m : released (database m) ->
  only_opened sql_open io m (storage_Open sql_open io dsn env m).2.
Proof.
  intros Hr. unfold storage_Open. pose proof (Open_rows (sql_open dsn) io _ Hr) as Hrows.
  destruct (Schema.Open _ _ _) as [r f] eqn:Ho. cbn in *. split; [done|]. exists dsn. rewrite Ho.
  unfold database. cbn. by destruct f.
Qed.

Lemma only_opened_untouched sql_open io m m1 m2 : only_opened sql_open io m m1 -> untouched m1 m2 -> only_opened sql_open io m m2.
Proof. intros [H1 [dsn E1]] [H2 E2]. split; [by etrans|]. exists dsn. congruence. Qed.

(** * A machine with nothing on it *)

Definition fresh_machine (w : world) : machine := {| stores_of := w; db_tables := ∅; db_indexes := ∅; db_versions := ∅ |}.

Lemma fresh_released w fk : tables w = empty_db fk -> released (database (fresh_machine w)).
Proof. intros Hw. left. exists 0. unfold database. cbn. rewrite Hw. apply (new_file_legal fk). Qed.
