(* ===== verification/Main.v ===== *)
(** The program's commands, [cmd/juno-exchange-gateway/main.go]: the choice of the
    command, its flags, the calls it makes, its exit code and what it prints.

    The environment, the files, [url.Parse], what the driver answers, the address
    program and the writing of the standard output are parameters.  Logs
    and the messages on the standard error are not modelled.  Of [runServe], what
    happens before the servers listen and what the exit code is made of are
    modelled; the servers are [Router] and [Front]. *)
From S2P Require Import Prelude GoString Json Domain Database Schema Wallets Config Environ Installation Guarded Lifecycle Addrgen Opening.

(** * Flags *)

(** What [FlagSet.Parse] makes of the arguments. *)
Inductive parsed (A : Type) : Type :=
  | flags_ok (values : A) (rest : list string)
  | flags_help
  | flags_error.
Arguments flags_ok {A} values rest.
Arguments flags_help {A}.
Arguments flags_error {A}.

(** The text of an argument after its dashes, and whether it is a flag:
    [None] ends the flags, and [stop] is whether the argument is consumed. *)
Inductive argument : Type := positional | terminator | flag_text (name : string).
Definition argument_of (s : string) : argument :=
  match s with
  | String "-" (String "-" EmptyString) => terminator
  | String "-" (String "-" name) => flag_text name
  | String "-" (String c name) => flag_text (String c name)
  | _ => positional
  end.

Section flags.
Context {A : Type} (formal : string -> option (string -> A -> result A)).

Fixpoint parse_flags (values : A) (args : list string) : parsed A :=
  match args with
  | [] => flags_ok values []
  | s :: rest =>
      match argument_of s with
      | positional => flags_ok values args
      | terminator => flags_ok values rest
      | flag_text text =>
          if String.eqb text "" || HasPrefix text "-" || HasPrefix text "=" then flags_error
          else
            let '(name, value, has_value) := Cut text "=" in
            match formal name with
            | None => if String.eqb name "help" || String.eqb name "h" then flags_help else flags_error
            | Some set =>
                if (has_value : bool) then
                  match set value values with Ok values' => parse_flags values' rest | Err _ => flags_error end
                else
                  match rest with
                  | [] => flags_error
                  | value :: rest' =>
                      match set value values with Ok values' => parse_flags values' rest' | Err _ => flags_error end
                  end
            end
      end
  end.
End flags.

(** [nextIndexFlags]. *)
Definition next_index_Set (raw : string) (f : gmap string Z) : result (gmap string Z) :=
  let '(walletID, indexRaw, ok) := Cut (TrimSpace raw) "=" in
  if negb ok || blank walletID || blank indexRaw then Err (New "next-index must use wallet_id=N")
  else match ParseUint indexRaw 64 with
       | None => Err (New "next-index must use a non-negative integer")
       | Some index =>
           match f !! walletID with
           | Some _ => Err (New ("next-index for wallet " +:+ quote walletID +:+ " was provided more than once"))
           | None => Ok (<[walletID := index]> f)
           end
       end.

Record flags := {
  acknowledge : string;
  mapping_sha256 : string;
  next_index : gmap string Z;
  installation_id : string;
  reconciliation_reference : string
}.
Definition no_flags : flags :=
  {| acknowledge := ""; mapping_sha256 := ""; next_index := ∅; installation_id := ""; reconciliation_reference := "" |}.

Definition set_acknowledge (v : string) (f : flags) : result flags :=
  Ok {| acknowledge := v; mapping_sha256 := mapping_sha256 f; next_index := next_index f;
        installation_id := installation_id f; reconciliation_reference := reconciliation_reference f |}.
Definition set_mapping_sha256 (v : string) (f : flags) : result flags :=
  Ok {| acknowledge := acknowledge f; mapping_sha256 := v; next_index := next_index f;
        installation_id := installation_id f; reconciliation_reference := reconciliation_reference f |}.
Definition set_next_index (v : string) (f : flags) : result flags :=
  m ← next_index_Set v (next_index f);
  Ok {| acknowledge := acknowledge f; mapping_sha256 := mapping_sha256 f; next_index := m;
        installation_id := installation_id f; reconciliation_reference := reconciliation_reference f |}.
Definition set_installation_id (v : string) (f : flags) : result flags :=
  Ok {| acknowledge := acknowledge f; mapping_sha256 := mapping_sha256 f; next_index := next_index f;
        installation_id := v; reconciliation_reference := reconciliation_reference f |}.
Definition set_reconciliation_reference (v : string) (f : flags) : result flags :=
  Ok {| acknowledge := acknowledge f; mapping_sha256 := mapping_sha256 f; next_index := next_index f;
        installation_id := installation_id f; reconciliation_reference := v |}.

(** The flags of a command. *)
Definition formal_of (names : list (string * (string -> flags -> result flags))) (name : string) :=
  (list_to_map names : gmap string (string -> flags -> result flags)) !! name.
Definition init_flags := formal_of [("acknowledge", set_acknowledge)]%string.
Definition checksum_flags := formal_of [("next-index", set_next_index)]%string.
Definition recover_flags := formal_of
  [("acknowledge", set_acknowledge); ("mapping-sha256", set_mapping_sha256); ("next-index", set_next_index)]%string.
Definition unseal_flags := formal_of
  [("acknowledge", set_acknowledge); ("installation-id", set_installation_id);
   ("reconciliation-reference", set_reconciliation_reference)]%string.

(** * Commands *)

(** The exit code, and the JSON value on the standard output. *)
Record outcome := { exit_code : Z; stdout : option json }.
Definition exits (code : Z) : outcome := {| exit_code := code; stdout := None |}.

(** The name of the command, and its arguments. *)
Definition command_of (args : list string) : string * list string :=
  match args with
  | a :: rest => if HasPrefix a "-" then ("serve"%string, args) else (a, rest)
  | [] => ("serve"%string, [])
  end.
Definition commands : list string :=
  ["serve"; "init"; "recovery-checksum"; "recover"; "recovery-unseal-coordinator"]%string.

(** A map of numbers, with its keys in order. *)
Definition targets_json (targets : gmap string Z) : json :=
  JObject (map (fun p => (p.1, JInt p.2)) (merge_sort (fun p q => String.le p.1 q.1) (map_to_list targets))).

(** Why [runServe] leaves its [select]: the context, or the end of a server. *)
Inductive stop : Type := stopped | closed | broken.

Section main.
Context (getenv : string -> string) (open_file : string -> result Environ.file) (parse_url : string -> option URL).
(** [sql.Open] and the driver under [storage.Open], the address program, and the
    writing to the standard output. *)
Context (sql_open : string -> result unit) (opening : Schema.outcomes) (program : nat -> list string -> string -> Addrgen.outcome) (write : result unit).
(** The construction of the servers ([Startup.v]), why they stop, and whether each
    of them is shut down in time. *)
Context (launch : Config -> W unit) (why : stop) (shutdowns : list bool).

Definition writeJSON (j : json) : outcome :=
  match write with Ok _ => {| exit_code := 0; stdout := Some j |} | Err _ => exits 1 end.

(** The flags of a command, which takes no other arguments. *)
Definition with_flags (formal : string -> option (string -> flags -> result flags)) (args : list string)
    (command : flags -> machine -> outcome * machine) (m : machine) : outcome * machine :=
  match parse_flags formal no_flags args with
  | flags_help => (exits 0, m)
  | flags_error => (exits 2, m)
  | flags_ok f [] => command f m
  | flags_ok f (_ :: _) => (exits 2, m)
  end.

(** [if err != nil { log; return 1 }; return writeJSON(...)]. *)
Definition finish {A} (env : nat -> call_env) (p : C A) (report : A -> json) (m : machine) : outcome * machine :=
  let '(r, m') := p env m in (match r with Ok a => writeJSON (report a) | Err _ => exits 1 end, m').

Definition open_store (cfg : Config) : C unit := storage_Open sql_open opening (StateDSN cfg).

Definition runInit (cfg : Config) (args : list string) (env : nat -> call_env) : machine -> outcome * machine :=
  with_flags init_flags args (fun f =>
    finish env (_ ← open_store cfg;
                on_stores (Initialize cfg (Some (deriver program)) (acknowledge f)))
      (fun m => JObject [("installation_id", JString (InstallationID m));
                         ("network", JString (Installation.mf_Network m)); ("status", JString "initialized");
                         ("wallets", JInt (Z.of_nat (size (Installation.Wallets m))))]%string)).

Definition runRecoveryChecksum (cfg : Config) (args : list string) (env : nat -> call_env) : machine -> outcome * machine :=
  with_flags checksum_flags args (fun f =>
    finish env (on_stores (
        '(_, m) ← open_ledger cfg;
        targets ← w_lift (RecoveryTargets m (next_index f));
        checksum ← RecoveryChecksum cfg m targets (Some (deriver program));
        mret (m, targets, checksum)))
      (fun '(m, targets, checksum) =>
         JObject [("installation_id", JString (InstallationID m)); ("mapping_sha256", JString checksum);
                  ("network", JString (Installation.mf_Network m)); ("next_address_index", targets_json targets);
                  ("status", JString "verified")]%string)).

Definition runRecover (cfg : Config) (args : list string) (env : nat -> call_env) : machine -> outcome * machine :=
  with_flags recover_flags args (fun f =>
    finish env (_ ← open_store cfg;
                on_stores (Recover cfg (Some (deriver program)) (acknowledge f) (mapping_sha256 f) (next_index f)))
      (fun m => JObject [("coordinator_automation", JString "sealed"); ("installation_id", JString (InstallationID m));
                         ("mapping_sha256", JString (mapping_sha256 f)); ("network", JString (Installation.mf_Network m));
                         ("status", JString "recovered")]%string)).

Definition runRecoveryUnsealCoordinator (cfg : Config) (args : list string) (env : nat -> call_env)
    : machine -> outcome * machine :=
  with_flags unseal_flags args (fun f =>
    let reference := TrimSpace (reconciliation_reference f) in
    finish env (_ ← open_store cfg;
                on_stores (Lifecycle.UnsealCoordinatorRecovery cfg (acknowledge f) (installation_id f) reference))
      (fun '(m, unsealed) =>
         JObject [("installation_id", JString (InstallationID m)); ("network", JString (Installation.mf_Network m));
                  ("reconciliation_reference", JString reference);
                  ("status", JString (if (unsealed : bool) then "coordinator_automation_unsealed"
                                      else "coordinator_automation_already_unsealed"))]%string)).

(** The end of [runServe]. *)
Definition serve_exit : Z :=
  let failed := match why with stopped | closed => false | broken => true end in
  if failed || existsb negb shutdowns then 1 else 0.

Definition runServe (cfg : Config) (env : nat -> call_env) (m : machine) : outcome * machine :=
  let '(r, m') := (_ ← open_store cfg; on_stores (_ ← OpenForServe cfg; launch cfg)) env m in
  (match r with Ok _ => exits serve_exit | Err _ => exits 1 end, m').

Definition run (args : list string) (env : nat -> call_env) (m : machine) : outcome * machine :=
  let '(command, args) := command_of args in
  if negb (bool_decide (command ∈ commands)) then (exits 2, m)
  else
    match Load getenv open_file parse_url with
    | Err _ => (exits 2, m)
    | Ok cfg =>
        if String.eqb command "init" then runInit cfg args env m
        else if String.eqb command "recovery-checksum" then runRecoveryChecksum cfg args env m
        else if String.eqb command "recover" then runRecover cfg args env m
        else if String.eqb command "recovery-unseal-coordinator" then runRecoveryUnsealCoordinator cfg args env m
        else match args with _ :: _ => (exits 2, m) | [] => runServe cfg env m end
    end.
End main.

(** * Theorems *)

(** ** Flags *)

Lemma append_assoc a b c : (a +:+ b) +:+ c = a +:+ b +:+ c.
Proof. induction a as [|x a IH]; [done|]. change (String x ((a +:+ b) +:+ c) = String x (a +:+ b +:+ c)). by rewrite IH. Qed.

(** The text is an argument, or what follows an [=] of one. *)
Definition given (args : list string) (v : string) : Prop :=
  exists a, a ∈ args /\ (a = v \/ exists p, a = p +:+ "=" +:+ v).

Lemma given_cons a args v : given args v -> given (a :: args) v.
Proof. intros (b & Hb & Hv). exists b. split; [by right|done]. Qed.

Lemma flag_text_suffix s text : argument_of s = flag_text text -> exists p, s = p +:+ text.
Proof.
  destruct s as [|c s]; [done|]. cbn [argument_of].
  destruct (Ascii.ascii_dec c "-") as [->|Hc]; [|by destruct c as [[] [] [] [] [] [] [] []]].
  destruct s as [|d s]; [done|]. destruct (Ascii.ascii_dec d "-") as [->|Hd].
  - destruct s; [done|]. intros [= <-]. by exists "--"%string.
  - assert (He : argument_of (String "-" (String d s)) = flag_text (String d s))
      by (destruct d as [[] [] [] [] [] [] [] []]; done).
    cbn [argument_of] in He. rewrite He. intros [= <-]. by exists "-"%string.
Qed.

(** A field that only one of the setters sets. *)
Lemma parse_flags_given {A} (formal : string -> option (string -> A -> result A)) (field : A -> string) args values f rest :
  (forall name set v f f', formal name = Some set -> set v f = Ok f' -> field f' = field f \/ field f' = v) ->
  parse_flags formal values args = flags_ok f rest -> field f = field values \/ given args (field f).
Proof.
  intros Hset. revert values.
  induction args as [args IH] using (well_founded_induction (Wf_nat.well_founded_ltof _ (@length string))).
  intros values. destruct args as [|s args]; cbn [parse_flags]; [intros [= <- _]; by left|].
  destruct (argument_of s) as [| |text] eqn:Hs; [intros [= <- _]; by left..|].
  destruct (_ || _); [done|]. destruct (Cut text "=") as [[name value] found] eqn:Hcut.
  destruct (formal name) as [set|] eqn:Hf; [|by destruct (_ || _)].
  assert (Hgo : forall v args', Nat.lt (length args') (length (s :: args)) -> given (s :: args) v ->
    (forall w, given args' w -> given (s :: args) w) ->
    match set v values with Ok values' => parse_flags formal values' args' | Err _ => flags_error end = flags_ok f rest ->
    field f = field values \/ given (s :: args) (field f)).
  { intros v args' Hlen Hv Hmore. destruct (set v values) as [values'|] eqn:Hset'; [|done]. intros Hp.
    destruct (IH args' Hlen _ Hp) as [Heq|Hg]; [|right; by apply Hmore].
    destruct (Hset _ _ _ _ _ Hf Hset') as [H'|H']; rewrite Heq, H'; [by left|by right]. }
  destruct found.
  - apply Hgo; [cbn; lia| |by apply given_cons].
    apply Cut_found in Hcut as ->. apply flag_text_suffix in Hs as [p ->].
    eexists. split; [by left|]. right. exists (p +:+ name). by rewrite append_assoc.
  - destruct args as [|v args']; [done|].
    apply Hgo; [cbn; lia| |intros w Hw; by apply given_cons, given_cons].
    exists v. split; [right; by left|by left].
Qed.

Lemma acknowledge_set names name set v f f' :
  Forall (fun p => p.2 = set_acknowledge \/ p.2 = set_mapping_sha256 \/ p.2 = set_next_index \/
                   p.2 = set_installation_id \/ p.2 = set_reconciliation_reference) names ->
  formal_of names name = Some set -> set v f = Ok f' -> acknowledge f' = acknowledge f \/ acknowledge f' = v.
Proof.
  unfold formal_of. intros Hall Hin%elem_of_list_to_map_2 Hset. rewrite Forall_forall in Hall. specialize (Hall _ Hin). cbn in Hall.
  destruct Hall as [->|[->|[->|[->| ->]]]]; [right|left..]; try (by injection Hset as <-).
  unfold set_next_index in Hset. apply result_bind_ok in Hset as (m & _ & [= <-]). done.
Qed.

(** ** Calls that leave the stores alone *)

Definition quiet {A} (m : W A) : Prop := forall env w, same_stores w (m env w).2.

Lemma quiet_ret {A} (a : A) : quiet (mret a).
Proof. by intros env w. Qed.
Lemma quiet_fail {A} e : quiet (w_fail (A := A) e).
Proof. by intros env w. Qed.
Lemma quiet_lift {A} (r : result A) : quiet (w_lift r).
Proof. by intros env w. Qed.
Lemma quiet_map_err {A} f (m : W A) : quiet m -> quiet (w_map_err f m).
Proof. intros Hm env w. specialize (Hm env w). unfold w_map_err. by destruct (m env w). Qed.
Lemma quiet_bind {A B} (m : W A) (f : A -> W B) : quiet m -> (forall a, quiet (f a)) -> quiet (m ≫= f).
Proof.
  intros Hm Hf env w. specialize (Hm env w). unfold mbind, w_bind. destruct (m env w) as [[a|e] w1]; [|done].
  etrans; [exact Hm|]. apply Hf.
Qed.
Lemma quiet_ctx : quiet ctx_Err.
Proof. by intros env w. Qed.
Lemma quiet_outside {A} (f : nat -> result A) : quiet (outside_call f).
Proof. by intros env w. Qed.
Lemma quiet_open_ledger cfg : quiet (open_ledger cfg).
Proof. by intros env w. Qed.

Create HintDb quiet.
#[local] Hint Resolve quiet_ret quiet_fail quiet_lift quiet_map_err quiet_bind quiet_ctx quiet_outside quiet_open_ledger : quiet.

Section quiet_derivation.
Context {St : Type} (visit : St -> Z -> string -> W St) (Hvisit : forall st i a, quiet (visit st i a)).

Lemma quiet_visit prefix seen st i raw : quiet (validatedVisit visit prefix seen st i raw).
Proof. unfold validatedVisit. apply quiet_bind; [auto with quiet|]. intros a. case_match; auto with quiet. Qed.

Lemma quiet_visit_batch prefix l seen st start : quiet (visit_batch visit prefix seen st start l).
Proof.
  revert seen st start. induction l as [|a l IH]; intros; cbn [visit_batch]; [auto with quiet|].
  apply quiet_bind; [apply quiet_visit|]. intros [seen' st']. apply IH.
Qed.

Lemma quiet_derived prefix d ufvk target st : quiet (forEachDerivedAddress visit prefix d ufvk target st).
Proof.
  unfold forEachDerivedAddress. destruct (Lifecycle.DeriveBatch d) as [batched|].
  - generalize (S (Z.to_nat (target / batchSize))), 0, (∅ : gmap string Z). intros fuel. revert st.
    induction fuel as [|fuel IH]; intros st start seen; cbn [batch_loop]; [auto with quiet|].
    destruct (start <? target); [|auto with quiet]. apply quiet_bind; [auto with quiet|]. intros u.
    apply quiet_bind; [auto with quiet|]. intros addresses. destruct (negb _); [auto with quiet|].
    apply quiet_bind; [apply quiet_visit_batch|]. intros [seen' st']. apply IH.
  - generalize (Z.to_nat target), 0, (∅ : gmap string Z). intros fuel. revert st.
    induction fuel as [|fuel IH]; intros st start seen; cbn [single_loop]; [auto with quiet|].
    destruct (start <? target); [|auto with quiet]. apply quiet_bind; [auto with quiet|]. intros u.
    apply quiet_bind; [auto with quiet|]. intros a. apply quiet_bind; [apply quiet_visit|]. intros [seen' st']. apply IH.
Qed.
End quiet_derivation.

Lemma quiet_checksum cfg m targets d : quiet (RecoveryChecksum cfg m targets d).
Proof.
  unfold RecoveryChecksum. destruct d as [d|]; [|auto with quiet]. apply quiet_bind; [|auto with quiet].
  generalize (sorted_wallets cfg), (NewMappingChecksum (network_string (Config.Network cfg)) (InstallationID m)).
  intros l. induction l as [|x l IH]; intros c; cbn [checksum_wallets]; [auto with quiet|].
  case_match; [|auto with quiet]. apply quiet_bind; [|auto].
  apply quiet_map_err, quiet_derived. intros st i a. unfold add_mapping. auto with quiet.
Qed.

(** ** Commands *)

Section theorems.
Context (getenv : string -> string) (open_file : string -> result Environ.file) (parse_url : string -> option URL).
Context (sql_open : string -> result unit) (opening : Schema.outcomes).
Context (program : nat -> list string -> string -> Addrgen.outcome) (write : result unit).
Context (launch : Config -> W unit) (why : stop) (shutdowns : list bool).

Definition program_run := run getenv open_file parse_url sql_open opening program write launch why shutdowns.

(** Before anything is done, or by a command that finished. *)
Definition ended (m : machine) (r : outcome * machine) : Prop :=
  r = (exits 2, m) \/ exit_code r.1 = 0 \/ exit_code r.1 = 1 /\ stdout r.1 = None.

Lemma finish_ended {A} env (p : C A) report m : ended m (finish write env p report m).
Proof.
  right. unfold finish, writeJSON. destruct (p env m) as [[a|e] m']; [|by right].
  destruct write; [by left|by right].
Qed.

Lemma with_flags_ended formal args command m :
  (forall f, ended m (command f m)) -> ended m (with_flags formal args command m).
Proof. intros H. unfold with_flags. destruct (parse_flags _ _ _) as [f [|]| |]; [done|by left|right; by left|by left]. Qed.

Lemma runServe_ended cfg env m : ended m (runServe sql_open opening launch why shutdowns cfg env m).
Proof.
  right. unfold runServe. match goal with |- context [match ?x with pair _ _ => _ end] => destruct x as [[u|e] m'] end; [|by right].
  unfold serve_exit. cbv zeta. case_match; [by right|by left].
Qed.

Lemma run_ended args env m : ended m (program_run args env m).
Proof.
  unfold program_run, run. destruct (command_of args) as [command rest]. destruct (negb _); [by left|].
  destruct (Load _ _ _) as [cfg|]; [|by left].
  repeat (case_match; [apply with_flags_ended; intros f; apply finish_ended|]).
  destruct rest; [apply runServe_ended|by left].
Qed.

(** the exit code says what happened: it is 0, 1 or 2; with 2, a usage or
    configuration error, neither the ledger nor the database was touched; and a
    result is printed only by a command that succeeded. *)
Theorem exit_code_is_honest args env m o m' : program_run args env m = (o, m') ->
  (exit_code o = 0 \/ exit_code o = 1 \/ exit_code o = 2) /\ (exit_code o = 2 -> m' = m) /\
  (exit_code o <> 0 -> stdout o = None).
Proof.
  intros H. pose proof (run_ended args env m) as He. rewrite H in He. unfold ended in He. cbn [fst] in He.
  destruct He as [[= -> ->]|[He|[He Hn]]]; [cbn|rewrite He..]; split_and!; try done; by auto.
Qed.

(** The acknowledgement a command needs before it acts. *)
Definition acknowledgement_of (command : string) : option string :=
  if String.eqb command "init" then Some InitAcknowledgement
  else if String.eqb command "recover" then Some RecoverAcknowledgement
  else if String.eqb command "recovery-unseal-coordinator" then Some CoordinatorRecoveryUnsealAcknowledgement
  else None.

(** Without the acknowledgement, the command leaves the stores alone. *)
Definition needs {A} (ack : string) (f : flags) (m : W A) : Prop :=
  acknowledge f <> ack -> quiet m.

Lemma acknowledged_Initialize cfg d f : needs InitAcknowledgement f (Initialize cfg d (acknowledge f)).
Proof. intros Hne. unfold Initialize. destruct (String.eqb_spec (acknowledge f) InitAcknowledgement); [done|]. apply quiet_fail. Qed.
Lemma acknowledged_Recover cfg d f sum l : needs RecoverAcknowledgement f (Recover cfg d (acknowledge f) sum l).
Proof. intros Hne. unfold Recover. destruct (String.eqb_spec (acknowledge f) RecoverAcknowledgement); [done|]. apply quiet_fail. Qed.
Lemma acknowledged_Unseal cfg f id reference :
  needs CoordinatorRecoveryUnsealAcknowledgement f (Lifecycle.UnsealCoordinatorRecovery cfg (acknowledge f) id reference).
Proof.
  intros Hne. unfold Lifecycle.UnsealCoordinatorRecovery.
  destruct (String.eqb_spec (acknowledge f) CoordinatorRecoveryUnsealAcknowledgement); [done|]. apply quiet_fail.
Qed.

Lemma finish_machine {A} env (p : C A) report m : (finish write env p report m).2 = (p env m).2.
Proof. unfold finish. by destruct (p env m) as [r m']. Qed.

Lemma on_stores_quiet {A} (p : W A) env m : quiet p -> untouched m (on_stores p env m).2.
Proof.
  intros Hp. unfold on_stores. specialize (Hp env (stores_of m)). destruct (p env (stores_of m)) as [r w].
  by apply untouched_stores.
Qed.

(** After the opening, the command does nothing. *)
Lemma opened_quiet {A} cfg (p : W A) env m : released (database m) -> quiet p ->
  only_opened sql_open opening m ((_ ← open_store sql_open opening cfg; on_stores p) env m).2.
Proof.
  intros Hr Hp. pose proof (storage_Open_only sql_open opening (StateDSN cfg) env m Hr) as Ho.
  unfold open_store, mbind, c_bind. destruct (storage_Open _ _ _ env m) as [[u|e] m1]; [|done].
  eapply only_opened_untouched; [exact Ho|]. by apply on_stores_quiet.
Qed.

(** Either the flags are no good, or they are and so is what [Q] says, or the
    acknowledgement is among the arguments. *)
Lemma with_flags_acknowledged names ack args command m (Q : machine -> Prop) :
  Forall (fun p => p.2 = set_acknowledge \/ p.2 = set_mapping_sha256 \/ p.2 = set_next_index \/
                   p.2 = set_installation_id \/ p.2 = set_reconciliation_reference) names -> ack <> ""%string ->
  (forall f, acknowledge f <> ack -> Q (command f m).2) ->
  untouched m (with_flags (formal_of names) args command m).2 \/ Q (with_flags (formal_of names) args command m).2 \/
    given args ack.
Proof.
  intros Hnames Hne Hcommand. unfold with_flags. destruct (parse_flags _ _ _) as [f [|]| |] eqn:Hp; [|by left..].
  destruct (decide (acknowledge f = ack)) as [Heq|Hno]; [|right; left; by apply Hcommand].
  apply (parse_flags_given _ acknowledge) in Hp; [|intros *; by apply acknowledge_set].
  destruct Hp as [Hp|Hp]; [by rewrite Heq in Hp|right; right; by rewrite Heq in Hp].
Qed.

Lemma acknowledged_command {A} names ack args cfg env m (p : flags -> W A) report :
  Forall (fun p => p.2 = set_acknowledge \/ p.2 = set_mapping_sha256 \/ p.2 = set_next_index \/
                   p.2 = set_installation_id \/ p.2 = set_reconciliation_reference) names -> ack <> ""%string ->
  released (database m) -> (forall f, needs ack f (p f)) ->
  let r := with_flags (formal_of names) args
             (fun f => finish write env (_ ← open_store sql_open opening cfg; on_stores (p f)) (report f)) m in
  untouched m r.2 \/ only_opened sql_open opening m r.2 \/ given args ack.
Proof.
  intros Hn Hne Hr Hp r. apply with_flags_acknowledged; [done..|]. intros f Hf. rewrite finish_machine.
  apply opened_quiet; [done|]. by apply Hp.
Qed.

(** C11: a command other than [serve], on a database that a release left, changes the
    ledger or a row of the database only if its own acknowledgement stands among its
    arguments, word for word.  Without it, [recovery-checksum] touches nothing, and
    another command has done no more than to open the database, which creates or
    migrates its tables. *)
Theorem changes_are_acknowledged command args env m o m' : command <> "serve"%string -> HasPrefix command "-" = false ->
  released (database m) -> program_run (command :: args) env m = (o, m') ->
  untouched m m' \/ acknowledgement_of command <> None /\ only_opened sql_open opening m m' \/
  exists ack, acknowledgement_of command = Some ack /\ given args ack.
Proof.
  intros Hserve Hdash Hr H. change m' with (snd (o, m')). rewrite <- H. unfold program_run, run, command_of. rewrite Hdash.
  destruct (bool_decide _) eqn:Hc; cbn [negb]; [|by left]. destruct (Load _ _ _) as [cfg|]; [|by left].
  unfold acknowledgement_of. destruct (String.eqb_spec command "init") as [->|Hi].
  { edestruct @acknowledged_command as [Hs|[Hs|Hg]]; [..|left; exact Hs|right; left; by split|right; right; by eexists];
      [by repeat constructor|done|done|]. intros f. apply acknowledged_Initialize. }
  destruct (String.eqb_spec command "recovery-checksum") as [->|Hrc].
  { left. unfold runRecoveryChecksum, with_flags. destruct (parse_flags _ _ _) as [f [|]| |]; [|done..].
    rewrite finish_machine. apply on_stores_quiet. apply quiet_bind; [auto with quiet|]. intros [st mf].
    apply quiet_bind; [auto with quiet|]. intros targets. apply quiet_bind; [apply quiet_checksum|]. auto with quiet. }
  destruct (String.eqb_spec command "recover") as [->|Hrec].
  { edestruct @acknowledged_command as [Hs|[Hs|Hg]]; [..|left; exact Hs|right; left; by split|right; right; by eexists];
      [by repeat constructor; auto|done|done|]. intros f. apply acknowledged_Recover. }
  destruct (String.eqb_spec command "recovery-unseal-coordinator") as [->|Hu].
  { edestruct @acknowledged_command as [Hs|[Hs|Hg]]; [..|left; exact Hs|right; left; by split|right; right; by eexists];
      [by repeat constructor; auto|done|done|]. intros f. apply acknowledged_Unseal. }
  exfalso. apply bool_decide_eq_true in Hc. repeat (apply elem_of_cons in Hc as [Hc|Hc]; [done|]). by apply elem_of_nil in Hc.
Qed.

(** C26: a [recover] command that prints its result was acknowledged and ran on the
    ledger of the loaded configuration; when the address program keeps to its output
    format, it leaves the coordinator sealed for that installation, nothing skipped
    in the ledger, and under every wallet each index below its mark with the very
    address the program prints for it. *)
Theorem recover_command_restores D args env before o after j :
  let w := stores_of before in let w' := stores_of after in
  keeps_format program D -> ledger_typed (file w) ->
  program_run ("recover"%string :: args) env before = (o, after) -> stdout o = Some j ->
  exists cfg m m', Load getenv open_file parse_url = Ok cfg /\ given args RecoverAcknowledgement /\
    file w = Some m /\ file w' = Some m' /\ InstallationID m' = InstallationID m /\
    sealed (InstallationID m) (tables w') /\ (forall id, covered m' (tables w') id) /\
    forall x s, x ∈ Config.Wallets cfg -> Installation.Wallets m' !! Config.WalletID x = Some s ->
      SkippedAddressIndices s = [] /\
      forall i, uint32 i -> i < NextAddressIndex s ->
        recorded (tables w') (Config.WalletID x) i (TrimSpace (D (Config.UFVK x) i)).
Proof.
  intros w w' HD Hty H Hj. unfold program_run, run in H. cbn [command_of HasPrefix String.prefix] in H.
  destruct (Load _ _ _) as [cfg|]; [|by injection H as <- _]. change (runRecover sql_open opening program write cfg args env before = (o, after)) in H.
  unfold runRecover, with_flags in H. destruct (parse_flags _ _ _) as [f [|]| |] eqn:Hp; try (by injection H as <- _).
  unfold finish in H. destruct ((_ : C Manifest) env before) as [r after'] eqn:Hrun.
  destruct r as [m'|e]; [|by injection H as <- _]. injection H as _ <-.
  apply c_bind_ok in Hrun as (u & opened & Hopen & Hrun). apply on_stores_ok in Hrun as (w1 & Hrun & ->).
  assert (Hf : file (stores_of opened) = file w).
  { unfold open_store, storage_Open in Hopen. destruct (Schema.Open _ _ _) as [r f']. by injection Hopen as _ <-. }
  rewrite <- Hf in Hty |- *.
  destruct (program_is_read _ _ HD) as (_ & _ & Hdet).
  destruct (recover_registry _ _ _ _ _ _ _ _ _ _ Hdet Hty Hrun)
    as (Hack & m & targets & Hm & _ & Hm' & Hid & Hseal & Hnext & Hcov & Hrec & _).
  exists cfg, m, m'. split; [done|]. split.
  { apply (parse_flags_given _ acknowledge) in Hp; [|intros *; apply acknowledge_set; by repeat constructor; auto].
    rewrite Hack in Hp. by destruct Hp as [Hp|Hp]. }
  split_and!; [done..|]. intros x s Hx Hs. destruct (Hnext _ _ Hs) as [Ht Hsk]. split; [done|].
  intros i Hi Hlt. destruct (Hrec _ Hx) as (t & Ht' & Hall). rewrite Ht in Ht'. injection Ht' as <-.
  specialize (Hall i ltac:(width; lia)). by rewrite wrapu32_id in Hall.
Qed.
End theorems.

(** ** Recovery marks on the command line *)

Definition next_index_args (l : list (string * Z)) : list string :=
  flat_map (fun p => ["--next-index"; p.1 +:+ "=" +:+ pretty p.2]%string) l.

(** A wallet id with its mark, the way it is written. *)
Definition mark_ok (p : string * Z) : Prop := safeID p.1 = true /\ 0 <= p.2 < 2 ^ 64.

Lemma Cut_plain a b : forallb (fun c => negb (Ascii.eqb c "=")) (to_bytes a) = true -> Cut (a +:+ String "=" b) "=" = (a, b, true).
Proof.
  induction a as [|c a IH]; [done|]. change (to_bytes (String c a)) with (c :: to_bytes a). cbn [forallb].
  intros [Hc Ha]%andb_prop. change (String c a +:+ String "=" b) with (String c (a +:+ String "=" b)). cbn [Cut].
  apply negb_true_iff in Hc. rewrite Hc. by rewrite IH.
Qed.

Definition wallet_char (c : ascii) : bool := is_alnum c || one_of "._-" c.

Lemma wallet_char_plain c : wallet_char c = true -> plain_byte c = true /\ Ascii.eqb c "=" = false.
Proof. destruct c as [[] [] [] [] [] [] [] []]; by vm_compute. Qed.

Lemma safeID_chars s : safeID s = true -> s <> ""%string /\ forallb wallet_char (to_bytes s) = true.
Proof.
  unfold safeID. destruct s as [|c s]; [done|]. cbn [ident_re]. intros H. bool_to_prop. split; [done|].
  change (to_bytes (String c s)) with (c :: to_bytes s). cbn [forallb]. unfold wallet_char at 1.
  apply andb_true_iff. split; [by apply orb_true_iff; left|done].
Qed.

Lemma Set_mark p (m : gmap string Z) : mark_ok p ->
  next_index_Set (p.1 +:+ "=" +:+ pretty p.2) m =
  match m !! p.1 with
  | Some _ => Err (New ("next-index for wallet " +:+ quote p.1 +:+ " was provided more than once"))
  | None => Ok (<[p.1 := p.2]> m)
  end.
Proof.
  destruct p as [id n]. intros [Hid Hn]. cbn [fst snd] in *. apply safeID_chars in Hid as [Hne Hid].
  assert (Hdig : forallb is_digit (to_bytes (pretty n)) = true) by (apply pretty_digits; lia).
  assert (Hplain : forall l, forallb wallet_char l = true \/ forallb is_digit l = true -> forallb plain_byte l = true).
  { intros l H. rewrite !forallb_forall in *. intros c Hc. apply wallet_char_plain. unfold wallet_char, is_alnum.
    destruct H as [H|H]; apply H in Hc; [exact Hc|by rewrite Hc]. }
  unfold next_index_Set.
  rewrite (TrimSpace_plain (id +:+ _)).
  2:{ unfold all_bytes. rewrite to_bytes_app, forallb_app, Hplain by auto. rewrite to_bytes_app, forallb_app.
      rewrite (Hplain (to_bytes (pretty n))) by auto. done. }
  change ("=" +:+ pretty n) with (String "=" (pretty n)). rewrite Cut_plain.
  2:{ rewrite forallb_forall in *. intros c Hc%Hid. by apply wallet_char_plain in Hc as [_ ->]. }
  assert (Hb : forall s, s <> ""%string -> forallb wallet_char (to_bytes s) = true \/ forallb is_digit (to_bytes s) = true -> blank s = false).
  { intros s Hs Hl. unfold blank. rewrite TrimSpace_plain by (unfold all_bytes; auto). by apply String.eqb_neq. }
  assert (Hnp : pretty n <> ""%string).
  { intros He. pose proof (ParseUint_pretty_Z n 64 Hn) as Hu. by rewrite He in Hu. }
  rewrite !Hb by auto. cbn [negb orb]. rewrite ParseUint_pretty_Z by done. reflexivity.
Qed.

Lemma parse_mark formal p args f : formal "next-index"%string = Some set_next_index -> mark_ok p ->
  parse_flags formal f ("--next-index"%string :: (p.1 +:+ "=" +:+ pretty p.2) :: args) =
  match next_index f !! p.1 with
  | Some _ => flags_error
  | None => parse_flags formal {| acknowledge := acknowledge f; mapping_sha256 := mapping_sha256 f;
      next_index := <[p.1 := p.2]> (next_index f); installation_id := installation_id f;
      reconciliation_reference := reconciliation_reference f |} args
  end.
Proof.
  intros Hf Hp. cbn [parse_flags argument_of]. change (Cut "next-index" "=") with ("next-index"%string, ""%string, false).
  cbn [String.eqb HasPrefix String.prefix orb Ascii.eqb Bool.eqb]. rewrite Hf. unfold set_next_index. rewrite Set_mark by done.
  by destruct (next_index f !! p.1).
Qed.

Lemma parse_marks l f : Forall mark_ok l ->
  parse_flags checksum_flags f (next_index_args l) =
  if bool_decide (NoDup l.*1 /\ Forall (fun id => next_index f !! id = None) l.*1)
  then flags_ok {| acknowledge := acknowledge f; mapping_sha256 := mapping_sha256 f;
                   next_index := list_to_map l ∪ next_index f; installation_id := installation_id f;
                   reconciliation_reference := reconciliation_reference f |} []
  else flags_error.
Proof.
  intros Hl. revert f. induction Hl as [|p l Hp _ IH]; intros f.
  { rewrite bool_decide_true by (split; constructor). cbn [next_index_args flat_map parse_flags list_to_map foldr].
    rewrite (left_id_L ∅ (∪)). by destruct f. }
  cbn [next_index_args flat_map app]. rewrite parse_mark by done.
  destruct (next_index f !! p.1) as [n|] eqn:Hn.
  { rewrite bool_decide_false; [done|]. intros [_ Hall]. apply Forall_cons in Hall as [Hc _]. congruence. }
  change (flat_map _ l) with (next_index_args l). rewrite IH. cbn [next_index acknowledge mapping_sha256 installation_id reconciliation_reference].
  assert (Hiff : (NoDup l.*1 /\ Forall (fun id => <[p.1 := p.2]> (next_index f) !! id = None) l.*1) <->
    (NoDup (p :: l).*1 /\ Forall (fun id => next_index f !! id = None) (p :: l).*1)).
  { rewrite fmap_cons, NoDup_cons, Forall_cons, !Forall_forall. split.
    - intros [Hnd Hall]. split_and!; [|done|done|].
      + intros Hin%Hall. by rewrite lookup_insert_eq in Hin.
      + intros id Hid%Hall. by apply lookup_insert_None in Hid as [? _].
    - intros [[Hnin Hnd] [_ Hall]]. split; [done|]. intros id Hid. rewrite lookup_insert_ne; [by apply Hall|]. intros Heq. apply Hnin. by rewrite Heq. }
  rewrite (bool_decide_ext _ _ Hiff). case_bool_decide as Hb; [|done]. do 2 f_equal.
  destruct Hb as [[Hnin _]%NoDup_cons _]. destruct p as [id n]. cbn [fst snd list_to_map foldr].
  change (list_to_map ((id, n) :: l)) with (<[id := n]> (list_to_map l : gmap string Z)).
  apply map_eq. intros k. rewrite !lookup_union. destruct (decide (id = k)) as [<-|Hk].
  - rewrite !lookup_insert_eq, (not_elem_of_list_to_map_1 _ _ Hnin). cbn in Hn. by rewrite Hn.
  - by rewrite !lookup_insert_ne.
Qed.

(** the recovery marks on the command line are read back exactly: for any list of
    valid wallet ids with 64-bit marks, the flags give the map of that list when no
    wallet is named twice, and are refused when one is. *)
Theorem next_index_flags_are_read l : Forall mark_ok l ->
  parse_flags checksum_flags no_flags (next_index_args l) =
  if bool_decide (NoDup l.*1)
  then flags_ok {| acknowledge := ""; mapping_sha256 := ""; next_index := list_to_map l; installation_id := "";
                   reconciliation_reference := "" |} []
  else flags_error.
Proof.
  intros Hl. rewrite parse_marks by done. cbn [no_flags next_index acknowledge mapping_sha256 installation_id reconciliation_reference].
  rewrite (right_id_L ∅ (∪)). assert (Hiff : (NoDup l.*1 /\ Forall (fun id => (∅ : gmap string Z) !! id = None) l.*1) <-> NoDup l.*1).
  { split; [by intros [? _]|]. intros Hnd. split; [done|]. apply Forall_forall. intros id _. apply lookup_empty. }
  by rewrite (bool_decide_ext _ _ Hiff).
Qed.

(** * Concrete runs *)

Definition demo (args : list string) : (nat -> call_env) -> machine -> outcome * machine :=
  program_run (Environ.demo_env []) Environ.demo_open Config.demo_url_Parse (fun _ => Ok tt) no_faults Addrgen.demo_run (Ok tt) (fun _ => mret tt) stopped [] args.

(** Nothing is there yet. *)
Definition blank : machine := fresh_machine new_world.
Definition initialized : outcome * machine := demo ["init"; "--acknowledge"; InitAcknowledgement]%string good_env blank.
(** The database is lost after the initialization. *)
Definition lost : machine := fresh_machine (lose_database (stores_of initialized.2)).
Definition confirmed : string :=
  match stdout (demo ["recovery-checksum"; "--next-index=hot=2"]%string later_env lost).1 with
  | Some (JObject [_; (_, JString sum); _; _; _]) => sum
  | _ => ""%string
  end.
Definition recover_args : list string :=
  ["-acknowledge=" +:+ RecoverAcknowledgement; "--mapping-sha256"; confirmed; "--next-index"; "hot=2"]%string.
Definition recovered : outcome * machine := demo ("recover"%string :: recover_args) later_env lost.

Example demo_exit_codes :
  (exit_code initialized.1, exit_code recovered.1, exit_code (demo ["init"]%string good_env blank).1,
   exit_code (demo ["reset"]%string good_env blank).1, exit_code (demo ["recover"; "--help"]%string good_env blank).1,
   exit_code (demo ["serve"; "now"]%string good_env blank).1, exit_code (demo ["--acknowledge"]%string good_env blank).1,
   exit_code (demo [] good_env initialized.2).1)
  = (0, 0, 1, 2, 0, 2, 2, 0).
Proof. vm_compute. reflexivity. Qed.

Lemma exit_code_is_honest_witness :
  exit_code (demo ["reset"]%string good_env blank).1 = 2 /\ (demo ["reset"]%string good_env blank).2 = blank.
Proof.
  destruct (demo ["reset"]%string good_env blank) as [o w'] eqn:H.
  assert (Ho : exit_code o = 2) by (assert (He : o = (demo ["reset"]%string good_env blank).1) by (rewrite H; reflexivity);
    rewrite He; vm_compute; reflexivity).
  split; [exact Ho|].
  exact (proj1 (proj2 (exit_code_is_honest _ _ _ _ _ _ _ _ _ _ _ _ _ _ _ H)) Ho).
Defined.

(** Without the acknowledgement, [init] creates the tables and nothing else. *)
Definition refused : outcome * machine := demo ["init"]%string good_env blank.

Lemma changes_are_acknowledged_witness :
  acknowledgement_of "init" <> None /\ only_opened (fun _ => Ok tt) no_faults blank refused.2 /\
  max_version (database refused.2) = 4.
Proof.
  assert (Hv : max_version (database refused.2) = 4) by (vm_compute; reflexivity).
  destruct refused as [o m'] eqn:H.
  destruct (changes_are_acknowledged _ _ _ _ _ _ _ _ _ _ "init"%string _ _ _ _ _ ltac:(discriminate) eq_refl
              (fresh_released new_world true eq_refl) H) as [[_ Hsame]|[[Ha Ho]|(ack & _ & Hg)]].
  - exfalso. cbn [snd] in Hv. rewrite Hsame in Hv. vm_compute in Hv. discriminate Hv.
  - exact (conj Ha (conj Ho Hv)).
  - exfalso. destruct Hg as (a & Ha & _). exact (not_elem_of_nil a Ha).
Defined.

Lemma recover_command_restores_witness :
  let w := stores_of recovered.2 in
  exists m', file w = Some m' /\ sealed (InstallationID m') (tables w) /\ forall id, covered m' (tables w) id.
Proof.
  intros w. subst w. destruct recovered as [o w'] eqn:H.
  assert (Ho : match stdout o with Some _ => true | None => false end = true)
    by (assert (He : o = recovered.1) by (rewrite H; reflexivity); rewrite He; vm_compute; reflexivity).
  destruct (stdout o) as [j|] eqn:Hj; [|discriminate Ho].
  assert (Hty : ledger_typed (file (stores_of lost))).
  { change (stores_of lost) with (lose_database (stores_of initialized.2)). rewrite file_lose. apply typed_of. intros m Hm id n. rewrite high_water_some. intros (s & Hs & ->)%fmap_Some.
    assert (Hall : map_Forall (fun _ s => 0 <= NextAddressIndex s) (Installation.Wallets m)).
    { apply (f_equal (fun f => match f with Some m => Installation.Wallets m | None => ∅ end)) in Hm.
      rewrite <- Hm. apply (bool_decide_unpack _). vm_compute. exact I. }
    exact (Hall _ _ Hs). }
  destruct (recover_command_restores _ _ _ _ _ _ _ _ _ _ _ _ _ _ _ _ _ demo_keeps_format Hty H Hj)
    as (cfg & m & m' & _ & _ & _ & Hm' & Hid & Hseal & Hcov & _).
  exists m'. split; [exact Hm'|]. split; [rewrite Hid; exact Hseal|exact Hcov].
Defined.

Lemma next_index_flags_are_read_witness :
  parse_flags checksum_flags no_flags ["--next-index"; "hot=3"; "--next-index"; "hot=4"]%string = flags_error.
Proof.
  refine (eq_trans (next_index_flags_are_read [("hot", 3); ("hot", 4)]%string _) _); [|reflexivity].
  repeat constructor; reflexivity || (cbn; lia).
Defined.
