(* ===== verification/Request.v ===== *)
(** The request, plan and response types of [internal/coordinator/types.go]:
    normalisation of a transaction request, validation of the planner's TxPlan
    and the views of an attempt.

    [Marshal_request] is [encoding/json] on a request, [Unmarshal_request] and
    [Unmarshal_plan] are its decoders ([None] is an error). *)
From S2P Require Import Prelude GoString GoTime Sha256 Json Domain Config Database.

(** * Data *)

Record Output := { ToAddress : string; AmountZat : string; MemoHex : string }.

#[export] Instance Output_eq_dec : EqDecision Output.
Proof. solve_decision. Defined.

Record NoteSplit := { NoteCount : Z; NoteZat : string }.

Record CreateRequest := {
  rq_WalletID : string;
  rq_ApprovalReference : string;
  Outputs : list Output;
  RequestSplit : option NoteSplit
}.

Definition isSplit (r : CreateRequest) : bool :=
  match RequestSplit r with Some _ => true | None => false end.

Definition planOutputs (r : CreateRequest) (changeAddress : string) : list Output :=
  match RequestSplit r with
  | None => Outputs r
  | Some s => replicate (Z.to_nat (NoteCount s))
                {| ToAddress := changeAddress; AmountZat := NoteZat s; MemoHex := "" |}
  end.

Definition planKind (r : CreateRequest) : string :=
  match RequestSplit r with Some _ => "rebalance" | None => "withdrawal" end.

Record APIError := { api_Code : string; api_Message : string; api_Retryable : bool }.

(** [Attempt]. *)
Record AttemptView := {
  view_AttemptID : string;
  view_State : AttemptState;
  view_WalletID : string;
  view_ApprovalReference : string;
  view_ChangeAddress : string;
  view_PlanDigest : string;
  view_FeeZat : string;
  view_ExpiryHeight : Z;
  view_SelectedNoteIDs : list string;
  view_TxID : string;
  view_RawTxHex : string;
  view_OutputIndices : list Z;
  view_ChangeIndex : option Z;
  view_Error : option APIError;
  view_CreatedAt : string;
  view_UpdatedAt : string
}.

Record txPlan := {
  plan_Version : string;
  plan_Kind : string;
  plan_WalletID : string;
  plan_CoinType : Z;
  plan_Account : Z;
  plan_Chain : string;
  plan_ExpiryHeight : Z;
  plan_Outputs : list Output;
  plan_ChangeAddress : string;
  plan_FeeZat : string;
  plan_Notes : list string
}.

Record planResult := {
  pr_Bytes : string;
  pr_Digest : string;
  pr_FeeZat : string;
  pr_ExpiryHeight : Z;
  pr_SelectedNoteIDs : list string;
  pr_OutputCount : Z
}.

Record signerResult := {
  sr_TxID : string;
  sr_RawTxHex : string;
  sr_FeeZat : string;
  sr_OutputIndices : list Z;
  sr_ChangeIndex : option Z;
  sr_Replay : bool
}.

Definition maxPlanOutputs : Z := 199.

(** * Regular expressions *)

Definition idempotencyRE (s : string) : bool :=
  ident_re is_alnum (fun c => is_alnum c || one_of "._:/-" c) 127 s.

Definition attemptIDRE (s : string) : bool :=
  HasPrefix s "txn_" && (len s =? 36) && all_bytes is_lower_hex (drop_string 4 s).

Definition txIDRE (s : string) : bool := lower_hex64 s.

Definition noteIDRE (s : string) : bool :=
  let '(hash, index, found) := Cut s ":" in
  found && lower_hex64 hash
  && (String.eqb index "0"
      || match index with
         | EmptyString => false
         | String c rest => is_digit c && negb (Ascii.eqb c "0") && all_bytes is_digit rest
         end).

(** * JSON *)

(** Fields tagged [omitempty] are left out when empty. *)
Definition output_json (o : Output) : json :=
  JObject ([("to_address", JString (ToAddress o)); ("amount_zat", JString (AmountZat o))]%string
           ++ omit_empty "memo_hex" (MemoHex o)).

Definition split_json (s : NoteSplit) : json :=
  JObject [("note_count", JInt (NoteCount s)); ("note_zat", JString (NoteZat s))]%string.

Definition request_json (r : CreateRequest) : json :=
  JObject ([("wallet_id", JString (rq_WalletID r)); ("approval_reference", JString (rq_ApprovalReference r))]%string
    ++ (match Outputs r with [] => [] | l => [("outputs"%string, JArray (map output_json l))] end)
    ++ (match RequestSplit r with None => [] | Some s => [("split"%string, split_json s)] end)).

Definition Marshal_request (r : CreateRequest) : string := Marshal (request_json r).

(** The decoders; [strict] is [DisallowUnknownFields]. *)
Section decoders.
Context (strict : bool).

Definition into_output (j : json) (o : Output) : option Output :=
  ms ← fields_of strict ["to_address"; "amount_zat"; "memo_hex"]%string j;
  address ← decode_field "to_address" into_string (ToAddress o) ms;
  amount ← decode_field "amount_zat" into_string (AmountZat o) ms;
  memo ← decode_field "memo_hex" into_string (MemoHex o) ms;
  Some {| ToAddress := address; AmountZat := amount; MemoHex := memo |}.

Definition into_split (j : json) (s : NoteSplit) : option NoteSplit :=
  ms ← fields_of strict ["note_count"; "note_zat"]%string j;
  count ← decode_field "note_count" into_int64 (NoteCount s) ms;
  zat ← decode_field "note_zat" into_string (NoteZat s) ms;
  Some {| NoteCount := count; NoteZat := zat |}.

Definition no_output : Output := {| ToAddress := ""; AmountZat := ""; MemoHex := "" |}.
Definition zero_split : NoteSplit := {| NoteCount := 0; NoteZat := "" |}.

Definition into_request (j : json) (r : CreateRequest) : option CreateRequest :=
  ms ← fields_of strict ["wallet_id"; "approval_reference"; "outputs"; "split"]%string j;
  wallet ← decode_field "wallet_id" into_string (rq_WalletID r) ms;
  approval ← decode_field "approval_reference" into_string (rq_ApprovalReference r) ms;
  outputs ← decode_field "outputs" (into_slice into_output no_output) (Outputs r) ms;
  split ← decode_field "split" (into_ptr into_split zero_split) (RequestSplit r) ms;
  Some {| rq_WalletID := wallet; rq_ApprovalReference := approval; Outputs := outputs; RequestSplit := split |}.
End decoders.

Definition no_request : CreateRequest :=
  {| rq_WalletID := ""; rq_ApprovalReference := ""; Outputs := []; RequestSplit := None |}.

Definition Unmarshal_request : string -> option CreateRequest := Unmarshal (into_request false) no_request.

Definition into_note (j : json) (id : string) : option string :=
  ms ← struct_members j; decode_field "note_id" into_string id ms.

Definition into_plan (j : json) (p : txPlan) : option txPlan :=
  ms ← struct_members j;
  version ← decode_field "version" into_string (plan_Version p) ms;
  kind ← decode_field "kind" into_string (plan_Kind p) ms;
  wallet ← decode_field "wallet_id" into_string (plan_WalletID p) ms;
  coin ← decode_field "coin_type" into_uint32 (plan_CoinType p) ms;
  account ← decode_field "account" into_uint32 (plan_Account p) ms;
  chain ← decode_field "chain" into_string (plan_Chain p) ms;
  expiry ← decode_field "expiry_height" into_uint32 (plan_ExpiryHeight p) ms;
  outputs ← decode_field "outputs" (into_slice (into_output false) no_output) (plan_Outputs p) ms;
  change ← decode_field "change_address" into_string (plan_ChangeAddress p) ms;
  fee ← decode_field "fee_zat" into_string (plan_FeeZat p) ms;
  notes ← decode_field "notes" (into_slice into_note "") (plan_Notes p) ms;
  Some {| plan_Version := version; plan_Kind := kind; plan_WalletID := wallet; plan_CoinType := coin;
          plan_Account := account; plan_Chain := chain; plan_ExpiryHeight := expiry; plan_Outputs := outputs;
          plan_ChangeAddress := change; plan_FeeZat := fee; plan_Notes := notes |}.

Definition no_plan : txPlan :=
  {| plan_Version := ""; plan_Kind := ""; plan_WalletID := ""; plan_CoinType := 0; plan_Account := 0;
     plan_Chain := ""; plan_ExpiryHeight := 0; plan_Outputs := []; plan_ChangeAddress := ""; plan_FeeZat := "";
     plan_Notes := [] |}.

Definition Unmarshal_plan : string -> option txPlan := Unmarshal into_plan no_plan.

Example Marshal_request_ex :
  Marshal_request {| rq_WalletID := "hot"; rq_ApprovalReference := "a<b"; RequestSplit := None;
    Outputs := [{| ToAddress := "j1x"; AmountZat := "5"; MemoHex := "" |}] |}
  = of_bytes (map (fun c => if Ascii.eqb c "'" then ascii_of_N 34 else c)
      (to_bytes "{'wallet_id':'hot','approval_reference':'a" ++ u_escape "003c"
       ++ to_bytes "b','outputs':[{'to_address':'j1x','amount_zat':'5'}]}")).
Proof. vm_compute. reflexivity. Qed.

Arguments Marshal_request : simpl never.

(** * Normalisation *)

Definition parseDecimalZat (raw : string) : option Z :=
  if String.eqb raw "" || ((1 <? len raw) && HasPrefix raw "0") then None else ParseUint raw 64.

Definition output_error (i : Z) (text : string) : error :=
  New ("outputs[" +:+ pretty i +:+ "]" +:+ text).

(** The loop over the outputs from index [i], with the sum so far. *)
Fixpoint normalize_outputs (cfg : Config.Config) (i total : Z) (outputs : list Output)
    : result (list Output) :=
  match outputs with
  | [] => Ok []
  | out :: rest =>
      let toAddress := TrimSpace (ToAddress out) in
      let amountZat := TrimSpace (AmountZat out) in
      let memoHex := TrimSpace (MemoHex out) in
      let max := wrapu64 (CoordinatorMaxAmountZat cfg) in
      if negb (String.eqb memoHex (ToLower memoHex))
      then Err (output_error i ".memo_hex must be lowercase hexadecimal")
      else if String.eqb toAddress "" || negb (HasPrefix toAddress (AddressHRP (Config.Network cfg) +:+ "1"))
      then Err (output_error i (".to_address does not match " +:+ network_string (Config.Network cfg)))
      else match parseDecimalZat amountZat with
           | None => Err (output_error i ".amount_zat must be a positive base-10 integer")
           | Some amount =>
               if amount =? 0 then Err (output_error i ".amount_zat must be a positive base-10 integer")
               else if (max <? amount) || (wrapu64 (max - amount) <? total)
               then Err (New "outputs exceed the configured maximum amount")
               else if (1024 <? len memoHex) || negb (Z.even (len memoHex))
               then Err (output_error i ".memo_hex must encode at most 512 bytes")
               else if negb (String.eqb memoHex "") && negb (hex_ok memoHex)
               then Err (output_error i ".memo_hex must be lowercase hexadecimal")
               else
                 rest' ← normalize_outputs cfg (i + 1) (wrapu64 (total + amount)) rest;
                 Ok ({| ToAddress := toAddress; AmountZat := amountZat; MemoHex := memoHex |} :: rest')
           end
  end.

(** The normalised request, its canonical JSON and its digest. *)
Definition canonical (r : CreateRequest) : CreateRequest * string * string :=
  let json := Marshal_request r in (r, json, EncodeToString (Sum256 json)).

Definition normalizeCreateRequest (req : CreateRequest) (cfg : Config.Config) (wallet : Config.Wallet)
    : result (CreateRequest * string * string) :=
  let walletID := TrimSpace (rq_WalletID req) in
  let approval := TrimSpace (rq_ApprovalReference req) in
  if negb (String.eqb walletID (Config.WalletID wallet)) then Err (New "wallet_id is invalid")
  else if String.eqb approval "" || (128 <? len approval)
  then Err (New "approval_reference must contain 1 to 128 characters")
  else match RequestSplit req with
       | Some split =>
           if negb (Nat.eqb (length (Outputs req)) 0)
           then Err (New "split requests must not include outputs")
           else
             let noteZat := TrimSpace (NoteZat split) in
             if (NoteCount split <? 2) || (CoordinatorMaxOutputs cfg <? NoteCount split)
             then Err (New ("split.note_count must be between 2 and " +:+ pretty (CoordinatorMaxOutputs cfg)))
             else match parseDecimalZat noteZat with
                  | None => Err (New "split.note_zat must be a positive base-10 integer")
                  | Some zat =>
                      if zat =? 0 then Err (New "split.note_zat must be a positive base-10 integer")
                      else if zat <? wrapu64 (CoordinatorMinNoteZat cfg)
                      then Err (New "split.note_zat is below the coordinator minimum note value")
                      else if wrapu64 (CoordinatorMaxAmountZat cfg) / wrapu64 (NoteCount split) <? zat
                      then Err (New "split exceeds the configured maximum amount")
                      else Ok (canonical {| rq_WalletID := walletID; rq_ApprovalReference := approval;
                                            Outputs := Outputs req;
                                            RequestSplit := Some {| NoteCount := NoteCount split;
                                                                    NoteZat := noteZat |} |})
                  end
       | None =>
           if Nat.ltb (length (Outputs req)) 1
              || (CoordinatorMaxOutputs cfg <? Z.of_nat (length (Outputs req)))
           then Err (New ("outputs must contain between 1 and " +:+ pretty (CoordinatorMaxOutputs cfg)
                          +:+ " entries"))
           else
             outputs ← normalize_outputs cfg 0 0 (Outputs req);
             Ok (canonical {| rq_WalletID := walletID; rq_ApprovalReference := approval;
                              Outputs := outputs; RequestSplit := None |})
       end.

(** * Plans *)

Definition coinType (n : Domain.Network) : Z :=
  match n with Mainnet => 8133 | Testnet => 8134 | Regtest => 8135 | OtherNetwork _ => 0 end.

(** The loop over the notes: their ids, if they are distinct note ids. *)
Fixpoint plan_notes (i : Z) (seen : gset string) (notes : list string) : result (list string) :=
  match notes with
  | [] => Ok []
  | id :: rest =>
      if negb (noteIDRE id) then Err (New ("planner returned invalid notes[" +:+ pretty i +:+ "].note_id"))
      else match ParseUint (nth 1 (GoString.Split id ":") "") 32 with
           | None => Err (New ("planner returned out-of-range notes[" +:+ pretty i +:+ "].note_id"))
           | Some _ =>
               if bool_decide (id ∈ seen) then Err (New "planner returned duplicate note IDs")
               else rest' ← plan_notes (i + 1) ({[id]} ∪ seen) rest; Ok (id :: rest')
           end
  end.

(** The loop over the outputs after the approved ones. *)
Definition split_change (changeAddress : string) (o : Output) : bool :=
  String.eqb (ToAddress o) changeAddress && String.eqb (MemoHex o) ""
  && match parseDecimalZat (AmountZat o) with Some amount => negb (amount =? 0) | None => false end.

Definition validatePlan (raw : string) (request : CreateRequest) (wallet : Config.Wallet)
    (network : Domain.Network) (changeAddress : string) : result planResult :=
  match (if String.eqb raw "" then None else Unmarshal_plan raw) with
  | None => Err (New "planner returned invalid TxPlan JSON")
  | Some plan =>
      let expected := planOutputs request changeAddress in
      let outputs := plan_Outputs plan in
      if negb (String.eqb (plan_Version plan) "v0") || negb (String.eqb (plan_Kind plan) (planKind request))
         || negb (String.eqb (plan_WalletID plan) (Config.WalletID wallet))
         || negb (plan_Account plan =? Config.Account wallet)
         || negb (String.eqb (plan_Chain plan) (NodeChain network))
      then Err (New "planner returned a TxPlan with mismatched kind, wallet, account, or network")
      else if negb (plan_CoinType plan =? coinType network) || String.eqb changeAddress ""
              || negb (String.eqb (plan_ChangeAddress plan) changeAddress)
              || Nat.ltb (length outputs) (length expected) || (maxPlanOutputs <? Z.of_nat (length outputs))
      then Err (New "planner returned a TxPlan with mismatched coin type, change, or outputs")
      else if negb (bool_decide (take (length expected) outputs = expected))
      then Err (New "planner returned output data different from the approved request")
      else if Nat.ltb (length expected) (length outputs) && isSplit request
      then Err (New "planner returned extra outputs for a note split")
      else if negb (forallb (split_change changeAddress) (drop (length expected) outputs))
      then Err (New "planner returned an extra output that is not split change")
      else if match parseDecimalZat (plan_FeeZat plan) with None => true | Some _ => false end
              || (plan_ExpiryHeight plan =? 0) || Nat.eqb (length (plan_Notes plan)) 0
      then Err (New "planner returned invalid fee, expiry, or selected notes")
      else
        noteIDs ← plan_notes 0 ∅ (plan_Notes plan);
        Ok {| pr_Bytes := raw; pr_Digest := "sha256:" +:+ EncodeToString (Sum256 raw);
              pr_FeeZat := plan_FeeZat plan; pr_ExpiryHeight := plan_ExpiryHeight plan;
              pr_SelectedNoteIDs := noteIDs; pr_OutputCount := Z.of_nat (length outputs) |}
  end.

(** * Views *)

Definition view_error (code message : string) (retryable : bool) : option APIError :=
  if String.eqb code "" then None
  else Some {| api_Code := code; api_Message := message; api_Retryable := retryable |}.

Definition attemptView (v : TransactionAttempt) : AttemptView :=
  {| view_AttemptID := AttemptID v; view_State := State v; view_WalletID := WalletID v;
     view_ApprovalReference := ApprovalReference v; view_ChangeAddress := ChangeAddress v;
     view_PlanDigest := PlanDigest v; view_FeeZat := FeeZat v; view_ExpiryHeight := ExpiryHeight v;
     view_SelectedNoteIDs := SelectedNoteIDs v; view_TxID := TxID v;
     view_RawTxHex := match State v with
                      | expired_pending_reconciliation | released => ""
                      | _ => RawTxHex v
                      end;
     view_OutputIndices := OrchardOutputActionIndices v; view_ChangeIndex := OrchardChangeActionIndex v;
     view_Error := view_error (ErrorCode v) (ErrorMessage v) (ErrorRetryable v);
     view_CreatedAt := FormatRFC3339Nano (CreatedAt v); view_UpdatedAt := FormatRFC3339Nano (UpdatedAt v) |}.

Definition activeAttemptView (v : ActiveAttempt) : AttemptView :=
  {| view_AttemptID := Active_AttemptID v; view_State := Active_State v; view_WalletID := Active_WalletID v;
     view_ApprovalReference := Active_ApprovalReference v; view_ChangeAddress := Active_ChangeAddress v;
     view_PlanDigest := Active_PlanDigest v; view_FeeZat := Active_FeeZat v;
     view_ExpiryHeight := Active_ExpiryHeight v; view_SelectedNoteIDs := Active_SelectedNoteIDs v;
     view_TxID := Active_TxID v; view_RawTxHex := "";
     view_OutputIndices := Active_OrchardOutputActionIndices v;
     view_ChangeIndex := Active_OrchardChangeActionIndex v;
     view_Error := view_error (Active_ErrorCode v) (Active_ErrorMessage v) (Active_ErrorRetryable v);
     view_CreatedAt := FormatRFC3339Nano (Active_CreatedAt v);
     view_UpdatedAt := FormatRFC3339Nano (Active_UpdatedAt v) |}.

(** * Bounds of a normalised request *)

#[local] Arguments TrimSpace : simpl never.
#[local] Arguments ToLower : simpl never.
#[local] Arguments hex_ok : simpl never.
#[local] Arguments HasPrefix : simpl never.

Definition amount_of (o : Output) : Z := default 0 (parseDecimalZat (AmountZat o)).

Definition amounts (l : list Output) : Z := foldr (fun o acc => amount_of o + acc) 0 l.

(** The limits [Config.Validate] puts on the coordinator's settings. *)
Definition limits_ok (cfg : Config.Config) : Prop :=
  0 <= CoordinatorMaxAmountZat cfg <= int64_max /\ 0 <= CoordinatorMinNoteZat cfg <= int64_max /\
  CoordinatorMaxOutputs cfg <= maxPlanOutputs.

Record output_ok (cfg : Config.Config) (o : Output) : Prop := {
  ok_address : HasPrefix (ToAddress o) (AddressHRP (Config.Network cfg) +:+ "1") = true /\ ToAddress o <> "";
  ok_amount : exists a, parseDecimalZat (AmountZat o) = Some a /\ 0 < a;
  ok_memo : ToLower (MemoHex o) = MemoHex o /\ len (MemoHex o) <= 1024 /\
            (MemoHex o = "" \/ hex_ok (MemoHex o) = true);
  ok_trimmed : TrimSpace (ToAddress o) = ToAddress o /\ TrimSpace (AmountZat o) = AmountZat o /\
               TrimSpace (MemoHex o) = MemoHex o
}.

Lemma parseDecimalZat_range raw a : parseDecimalZat raw = Some a -> uint64 a.
Proof.
  unfold parseDecimalZat. case_match; [done|]. intros Hp. apply ParseUint_digits in Hp as [Hd Hlt].
  apply digits_value_bounds in Hd. width. lia.
Qed.

Lemma normalize_outputs_ok cfg i total l l' :
  limits_ok cfg -> 0 <= total <= CoordinatorMaxAmountZat cfg ->
  normalize_outputs cfg i total l = Ok l' ->
  Forall (output_ok cfg) l' /\ length l' = length l /\
  total + amounts l' <= CoordinatorMaxAmountZat cfg /\
  normalize_outputs cfg i total l' = Ok l'.
Proof.
  intros Hlim. pose proof Hlim as (Hmax & _ & _). width.
  revert i total l'. induction l as [|o l IH]; cbn [normalize_outputs]; intros i total l' Ht H.
  { injection H as <-. cbn. split_and!; try done; lia. }
  destruct (negb (String.eqb (TrimSpace (MemoHex o)) _)) eqn:Hlow; [done|].
  destruct (_ || negb (HasPrefix _ _)) eqn:Haddr; [done|].
  destruct (parseDecimalZat (TrimSpace (AmountZat o))) as [a|] eqn:Ha; [|done].
  pose proof (parseDecimalZat_range _ _ Ha) as Hra. width.
  destruct (a =? 0) eqn:Hz; [done|].
  rewrite (wrapu64_id (CoordinatorMaxAmountZat cfg)) in H by (width; lia).
  destruct (_ || (wrapu64 _ <? total)) eqn:Hsum; [done|].
  destruct (_ || negb (Z.even _)) eqn:Hlen; [done|].
  destruct (negb (String.eqb _ "") && _) eqn:Hhex; [done|].
  apply result_bind_ok in H as (rest & Hrest & [= <-]). bool_to_prop.
  rewrite (wrapu64_id (_ - a)) in * by (width; lia). rewrite (wrapu64_id (total + a)) in * by (width; lia).
  destruct (IH (i + 1) (total + a) _ ltac:(lia) Hrest) as (Hall & Hn & Hbound & Hidem).
  split_and!.
  - constructor; [|done]. split; cbn; [done| |split_and!; try done|by rewrite !TrimSpace_idem].
    + exists a. split; [done|lia].
    + apply andb_false_iff in Hhex as [Hhex|Hhex]; bool_to_prop; auto.
  - cbn. by rewrite Hn.
  - cbn [amounts foldr]. unfold amount_of at 1. cbn. rewrite Ha. cbn. unfold amounts in Hbound. lia.
  - cbn [normalize_outputs ToAddress AmountZat MemoHex]. rewrite !TrimSpace_idem.
    match goal with H : TrimSpace (MemoHex o) = ToLower _ |- _ => rewrite <- H, String.eqb_refl end.
    cbn [negb].
    destruct (String.eqb_spec (TrimSpace (ToAddress o)) ""); [done|].
    match goal with H : HasPrefix _ _ = true |- _ => rewrite H end. cbn [negb orb].
    rewrite Ha, (proj2 (Z.eqb_neq a 0)) by done. rewrite (wrapu64_id (CoordinatorMaxAmountZat cfg)) by (width; lia).
    rewrite (wrapu64_id (_ - a)), (wrapu64_id (total + a)) by (width; lia).
    destruct (Z.ltb_spec (CoordinatorMaxAmountZat cfg) a); [lia|].
    destruct (Z.ltb_spec (CoordinatorMaxAmountZat cfg - a) total); [lia|]. cbn [orb].
    destruct (Z.ltb_spec 1024 (len (TrimSpace (MemoHex o)))); [lia|].
    match goal with H : Z.even _ = true |- _ => rewrite H end. cbn [negb orb].
    rewrite Hhex, Hidem. done.
Qed.

(** What normalisation accepts. *)
Definition request_ok (cfg : Config.Config) (wallet : Config.Wallet) (r : CreateRequest) : Prop :=
  rq_WalletID r = Config.WalletID wallet /\
  rq_ApprovalReference r <> "" /\ len (rq_ApprovalReference r) <= 128 /\
  match RequestSplit r with
  | None => 1 <= Z.of_nat (length (Outputs r)) <= CoordinatorMaxOutputs cfg /\ Forall (output_ok cfg) (Outputs r)
  | Some s => Outputs r = [] /\ 2 <= NoteCount s <= CoordinatorMaxOutputs cfg /\
      exists zat, parseDecimalZat (NoteZat s) = Some zat /\ 0 < zat /\ CoordinatorMinNoteZat cfg <= zat
  end.

Lemma amounts_replicate o n : amounts (replicate n o) = Z.of_nat n * amount_of o.
Proof. induction n as [|n IH]; cbn [replicate amounts foldr]; [lia|]. unfold amounts in IH. lia. Qed.

Lemma normalize_ok req cfg wallet r json digest :
  limits_ok cfg -> normalizeCreateRequest req cfg wallet = Ok (r, json, digest) ->
  request_ok cfg wallet r /\ json = Marshal_request r /\ digest = EncodeToString (Sum256 json) /\
  (forall change, amounts (planOutputs r change) <= CoordinatorMaxAmountZat cfg /\
                  Z.of_nat (length (planOutputs r change)) <= maxPlanOutputs) /\
  normalizeCreateRequest r cfg wallet = Ok (r, json, digest).
Proof.
  intros Hlim. pose proof Hlim as (Hmax & Hmin & Hout). unfold normalizeCreateRequest.
  destruct (String.eqb_spec (TrimSpace (rq_WalletID req)) (Config.WalletID wallet)) as [Hw|]; cbn [negb]; [|done].
  destruct (String.eqb_spec (TrimSpace (rq_ApprovalReference req)) "") as [|Ha]; [done|]. cbn [orb].
  destruct (Z.ltb_spec 128 (len (TrimSpace (rq_ApprovalReference req)))); [done|].
  destruct (RequestSplit req) as [s|] eqn:Hs.
  - destruct (Outputs req) as [|o l] eqn:Ho; cbn [length Nat.eqb negb]; [|done].
    destruct (Z.ltb_spec (NoteCount s) 2); [done|].
    destruct (Z.ltb_spec (CoordinatorMaxOutputs cfg) (NoteCount s)); [done|]. cbn [orb].
    destruct (parseDecimalZat (TrimSpace (NoteZat s))) as [z|] eqn:Hz; [|done].
    pose proof (parseDecimalZat_range _ _ Hz).
    destruct (Z.eqb_spec z 0); [done|].
    unfold maxPlanOutputs in *.
    rewrite (wrapu64_id (CoordinatorMinNoteZat cfg)), (wrapu64_id (CoordinatorMaxAmountZat cfg)),
      (wrapu64_id (NoteCount s)) by (width; lia).
    destruct (Z.ltb_spec z (CoordinatorMinNoteZat cfg)); [done|].
    destruct (Z.ltb_spec (CoordinatorMaxAmountZat cfg / NoteCount s) z); [done|].
    assert (NoteCount s * z <= CoordinatorMaxAmountZat cfg).
    { pose proof (Z.mul_div_le (CoordinatorMaxAmountZat cfg) (NoteCount s) ltac:(lia)). nia. }
    intros [= <- <- <-].
    assert (Hok : request_ok cfg wallet {| rq_WalletID := TrimSpace (rq_WalletID req);
        rq_ApprovalReference := TrimSpace (rq_ApprovalReference req); Outputs := [];
        RequestSplit := Some {| NoteCount := NoteCount s; NoteZat := TrimSpace (NoteZat s) |} |}).
    { unfold request_ok; cbn. split_and!; try done; try lia. exists z. width. split_and!; [done|lia|lia]. }
    split_and!; try done.
    + intros change. unfold planOutputs. cbn [RequestSplit NoteCount NoteZat].
      rewrite amounts_replicate, length_replicate. unfold amount_of. cbn [AmountZat]. rewrite Hz. cbn. lia.
    + cbn [rq_WalletID rq_ApprovalReference RequestSplit Outputs NoteZat NoteCount length Nat.eqb negb].
      rewrite !TrimSpace_idem, Hw, String.eqb_refl. cbn [negb].
      destruct (String.eqb_spec (TrimSpace (rq_ApprovalReference req)) ""); [done|]. cbn [orb].
      destruct (Z.ltb_spec 128 (len (TrimSpace (rq_ApprovalReference req)))); [lia|].
      destruct (Z.ltb_spec (NoteCount s) 2); [lia|].
      destruct (Z.ltb_spec (CoordinatorMaxOutputs cfg) (NoteCount s)); [lia|]. cbn [orb].
      rewrite Hz, (proj2 (Z.eqb_neq z 0)) by done.
      rewrite ?(wrapu64_id (CoordinatorMinNoteZat cfg)), ?(wrapu64_id (CoordinatorMaxAmountZat cfg)),
        ?(wrapu64_id (NoteCount s)) by (width; lia).
      destruct (Z.ltb_spec z (CoordinatorMinNoteZat cfg)); [lia|].
      destruct (Z.ltb_spec (CoordinatorMaxAmountZat cfg / NoteCount s) z); [lia|]. done.
  - destruct (_ || _) eqn:Hn; [done|]. intros Hnorm. apply result_bind_ok in Hnorm as (l' & Hl & Hnorm).
    injection Hnorm as <- <- <-. width.
    destruct (normalize_outputs_ok cfg 0 0 _ _ Hlim ltac:(lia) Hl) as (Hall & Hlen & Hsum & Hidem).
    pose proof Hn as Hn'. apply orb_false_iff in Hn' as [H1%Nat.ltb_ge H2%Z.ltb_ge].
    split_and!; try done.
    + unfold request_ok; cbn. rewrite Hlen. split_and!; try done; lia.
    + intros change. unfold planOutputs. cbn [RequestSplit Outputs]. rewrite Hlen. lia.
    + cbn [rq_WalletID rq_ApprovalReference RequestSplit Outputs].
      rewrite !TrimSpace_idem, Hw, String.eqb_refl. cbn [negb].
      destruct (String.eqb_spec (TrimSpace (rq_ApprovalReference req)) ""); [done|]. cbn [orb].
      destruct (Z.ltb_spec 128 (len (TrimSpace (rq_ApprovalReference req)))); [lia|].
      rewrite Hlen, Hn, Hidem. done.
Qed.

(** a normalised request names its wallet, carries between 1 and 199 outputs
    (or split notes), each with a positive amount and, for outputs, an address of
    the network and a lower-case memo; the amounts sum to at most the configured
    maximum with no overflow; normalising it again changes nothing, so the
    stored request always reproduces its own JSON and digest. *)
Theorem normalizeCreateRequest_spec req cfg wallet r json digest :
  limits_ok cfg -> normalizeCreateRequest req cfg wallet = Ok (r, json, digest) ->
  request_ok cfg wallet r /\ json = Marshal_request r /\ digest = EncodeToString (Sum256 json) /\
  (forall change, amounts (planOutputs r change) <= CoordinatorMaxAmountZat cfg /\
                  Z.of_nat (length (planOutputs r change)) <= maxPlanOutputs) /\
  normalizeCreateRequest r cfg wallet = Ok (r, json, digest).
Proof. apply normalize_ok. Qed.

(** The next guard of a validator in [H] was passed. *)
Ltac pass_guard H G :=
  match type of H with (if ?c then _ else _) = _ => destruct c eqn:G; [discriminate H|] end.

(** * Note ids *)

Lemma Split_Cut s sep before after :
  Cut s sep = (before, after, true) -> GoString.Split s sep = before :: GoString.Split after sep.
Proof.
  revert before after. induction s as [|c s IH]; intros before after; cbn; [done|].
  destruct (Ascii.eqb_spec c sep) as [->|Hc]; [by intros [= <- <-]|].
  destruct (Cut s sep) as [[b a] f]. intros [= <- <- ->]. by rewrite (IH _ _ eq_refl).
Qed.

Lemma digits_no_sep s sep :
  all_bytes is_digit s = true -> is_digit sep = false ->
  GoString.Split s sep = [s] /\ Contains s (String sep EmptyString) = false.
Proof.
  intros Hs Hsep. unfold all_bytes in Hs. induction s as [|c s IH]; cbn in *; [done|].
  apply andb_prop in Hs as [Hc Hs]. destruct (IH Hs) as [-> ->].
  destruct (Ascii.eqb_spec c sep) as [->|Hne]; [congruence|].
  destruct (Ascii.ascii_dec sep c) as [->|]; [done|].
  by rewrite orb_false_r.
Qed.

Lemma lower_hex64_isLowerHex64 s : isLowerHex64 s = lower_hex64 s.
Proof. unfold isLowerHex64, lower_hex64. by destruct (len s =? 64). Qed.

(** The planner check of a note id is the validator of the domain. *)
Lemma noteID_valid id :
  (noteIDRE id = true /\ is_Some (ParseUint (nth 1 (GoString.Split id ":") "") 32)) <-> ValidNoteID id = true.
Proof.
  unfold noteIDRE, ValidNoteID. destruct (Cut id ":") as [[hash idx] found] eqn:Hcut.
  rewrite lower_hex64_isLowerHex64. destruct found; cbn [negb andb orb]; [|naive_solver].
  rewrite (Split_Cut _ _ _ _ Hcut). destruct (lower_hex64 hash); cbn [andb negb]; [|rewrite orb_true_r; naive_solver].
  rewrite orb_false_r. destruct (all_bytes is_digit idx) eqn:Hd.
  - destruct (digits_no_sep idx ":" Hd eq_refl) as [-> ->]. cbn [orb negb nth].
    destruct idx as [|c rest]; [naive_solver|]. cbn [String.eqb orb].
    unfold all_bytes in Hd. cbn in Hd. apply andb_prop in Hd as [Hc Hrest]. rewrite Hc.
    change (all_bytes is_digit rest = true) in Hrest. rewrite Hrest. cbn [andb byte_at String.get].
    destruct (Ascii.eqb_spec c "0") as [->|Hne]; cbn [negb andb orb].
    + destruct rest as [|r rest]; [naive_solver|]. cbn [String.eqb orb].
      assert ((1 <? len (String "0" (String r rest))) = true) as -> by (apply Z.ltb_lt; unfold len; cbn [String.length]; lia).
      rewrite bool_decide_true by done. naive_solver.
    + rewrite bool_decide_false by congruence. rewrite andb_false_r.
      split; [intros [_ [v ->]]; done|]. intros H. split; [done|]. by case_match; [eexists|].
  - split.
    + intros [H _]. apply orb_true_iff in H as [->%String.eqb_eq|H]; [done|].
      destruct idx as [|c rest]; [done|]. bool_to_prop. change (is_digit c && all_bytes is_digit rest = false) in Hd.
      apply andb_false_iff in Hd as [?|?]; congruence.
    + intros H. by case_match.
Qed.

Lemma plan_notes_spec i seen l l' :
  plan_notes i seen l = Ok l' <->
  l' = l /\ NoDup l /\ Forall (fun id => ValidNoteID id = true) l /\ Forall (fun id => id ∉ seen) l.
Proof.
  revert i seen l'. induction l as [|id l IH]; cbn [plan_notes]; intros i seen l'.
  { split; [intros [= <-]; split_and!; constructor|by intros (-> & _)]. }
  rewrite !Forall_cons, NoDup_cons, <- (noteID_valid id).
  destruct (noteIDRE id); cbn [negb]; [|naive_solver].
  destruct (ParseUint _ 32) as [v|]; [|split; [done|intros (_ & _ & [[_ [? [=]]] _] & _)]].
  case_bool_decide as Hseen; [naive_solver|]. rewrite result_bind_ok. split.
  - intros (r & (-> & Hnd & Hv & Hf)%IH & [= <-]).
    assert (Hf' : forall x, x ∈ l -> x <> id /\ x ∉ seen).
    { intros x Hx. rewrite Forall_forall in Hf. by apply Config.not_elem_of_add, Hf. }
    split_and!; try done; [|apply Forall_forall; intros x Hx; by apply Hf'].
    intros Hin. by destruct (Hf' _ Hin).
  - intros (-> & [Hn Hnd] & [_ Hv] & [_ Hf]). exists l. split; [|done]. apply IH. split_and!; try done.
    rewrite Forall_forall in *. intros x Hx. apply Config.not_elem_of_add. split; [by intros ->|auto].
Qed.

(** * What an accepted plan is *)

(** Value paid back to the attempt's own change address, without a memo. *)
Definition own_change (changeAddress : string) (o : Output) : Prop :=
  ToAddress o = changeAddress /\ MemoHex o = "" /\ 0 < amount_of o.

Record plan_matches (request : CreateRequest) (wallet : Config.Wallet) (network : Domain.Network)
    (changeAddress : string) (plan : txPlan) : Prop := {
  pm_header : plan_Version plan = "v0" /\ plan_Kind plan = planKind request /\
              plan_WalletID plan = Config.WalletID wallet /\ plan_Account plan = Config.Account wallet /\
              plan_Chain plan = NodeChain network /\ plan_CoinType plan = coinType network;
  pm_change : changeAddress <> "" /\ plan_ChangeAddress plan = changeAddress;
  pm_outputs : exists extra, plan_Outputs plan = planOutputs request changeAddress ++ extra /\
                 Forall (own_change changeAddress) extra /\ (isSplit request = true -> extra = []) /\
                 Z.of_nat (length (plan_Outputs plan)) <= maxPlanOutputs;
  pm_fee : (exists fee, parseDecimalZat (plan_FeeZat plan) = Some fee) /\ plan_ExpiryHeight plan <> 0;
  pm_notes : plan_Notes plan <> [] /\ NoDup (plan_Notes plan) /\
             Forall (fun id => ValidNoteID id = true) (plan_Notes plan)
}.

Definition plan_result_of (raw : string) (plan : txPlan) : planResult :=
  {| pr_Bytes := raw; pr_Digest := "sha256:" +:+ EncodeToString (Sum256 raw);
     pr_FeeZat := plan_FeeZat plan; pr_ExpiryHeight := plan_ExpiryHeight plan;
     pr_SelectedNoteIDs := plan_Notes plan; pr_OutputCount := Z.of_nat (length (plan_Outputs plan)) |}.

Lemma split_change_spec change o : split_change change o = true <-> own_change change o.
Proof.
  unfold split_change, own_change, amount_of. destruct (parseDecimalZat (AmountZat o)) as [a|] eqn:Ha; cbn.
  - apply parseDecimalZat_range in Ha. width.
    destruct (String.eqb_spec (ToAddress o) change), (String.eqb_spec (MemoHex o) ""), (Z.eqb_spec a 0); cbn;
      split; try done; try (intros (? & ? & ?); congruence || lia). intros _. split_and!; [done|done|lia].
  - rewrite andb_false_r. split; [done|]. intros (_ & _ & ?). lia.
Qed.

Lemma validatePlan_ok raw request wallet network change pr :
  validatePlan raw request wallet network change = Ok pr ->
  exists plan, raw <> "" /\ Unmarshal_plan raw = Some plan /\
    plan_matches request wallet network change plan /\ pr = plan_result_of raw plan.
Proof.
  unfold validatePlan. destruct (String.eqb_spec raw ""); [done|].
  destruct (Unmarshal_plan raw) as [plan|]; [|done]. intros H.
  pass_guard H Hh. pass_guard H Hc. pass_guard H Ht. pass_guard H Hs. pass_guard H He. pass_guard H Hf.
  apply result_bind_ok in H as (ids & (-> & Hnd & Hv & _)%plan_notes_spec & [= <-]).
  exists plan. split_and!; try done. bool_to_prop.
  repeat match goal with H : Nat.ltb _ _ = false |- _ => apply Nat.ltb_ge in H end.
  repeat match goal with H : Nat.eqb _ _ = false |- _ => apply Nat.eqb_neq in H end.
  split; try done.
  - exists (drop (length (planOutputs request change)) (plan_Outputs plan)).
    split_and!; [|apply Forall_forall; intros o Ho; apply split_change_spec; eapply forallb_forall; [exact He|by apply list_elem_of_In]| |done].
    + rewrite <- Ht at 1. by rewrite take_drop.
    + intros Hsplit. rewrite Hsplit, andb_true_r in Hs. apply Nat.ltb_ge in Hs.
      by apply drop_ge.
  - split; [|done]. case_match; [by eexists|done].
  - split_and!; try done. by destruct (plan_Notes plan).
Qed.

(** C39: a TxPlan is accepted only if it is for this wallet, account, network and
    kind, starts with exactly the approved outputs, pays everything after them
    back to the attempt's own change address without a memo (nothing at all for
    a note split), and spends a non-empty list of distinct valid notes; the
    result carries the exact bytes and their digest. *)
Theorem validatePlan_spec raw request wallet network change pr :
  validatePlan raw request wallet network change = Ok pr ->
  exists plan, raw <> "" /\ Unmarshal_plan raw = Some plan /\
    plan_matches request wallet network change plan /\ pr = plan_result_of raw plan.
Proof. apply validatePlan_ok. Qed.

(** * Concrete runs *)

Definition demo_request : CreateRequest :=
  {| rq_WalletID := " hot"; rq_ApprovalReference := "ticket-1 "; RequestSplit := None;
     Outputs := [ {| ToAddress := "j1alice"; AmountZat := "700"; MemoHex := "" |};
                  {| ToAddress := " j1bob"; AmountZat := "300 "; MemoHex := "c0ffee" |} ] |}.

Definition demo_split : CreateRequest :=
  {| rq_WalletID := "hot"; rq_ApprovalReference := "fan-out"; Outputs := [];
     RequestSplit := Some {| NoteCount := 4; NoteZat := "250" |} |}.

Definition the_wallet : Config.Wallet := Config.demo_wallet "hot" "jview1abc".

Lemma demo_limits : limits_ok Config.demo_config.
Proof. unfold limits_ok. cbn. width. unfold maxPlanOutputs. lia. Qed.

Definition demo_normalized : CreateRequest :=
  match normalizeCreateRequest demo_request Config.demo_config the_wallet with
  | Ok (r, _, _) => r | Err _ => demo_request end.

Lemma normalizeCreateRequest_spec_witness :
  exists r json digest, normalizeCreateRequest demo_request Config.demo_config the_wallet = Ok (r, json, digest) /\
    request_ok Config.demo_config the_wallet r.
Proof.
  assert (Hv : is_ok (normalizeCreateRequest demo_request Config.demo_config the_wallet) = true)
    by (vm_compute; reflexivity).
  destruct (normalizeCreateRequest demo_request Config.demo_config the_wallet) as [[[r json] digest]|e] eqn:H;
    [|discriminate Hv].
  exists r, json, digest. split; [reflexivity|].
  exact (proj1 (normalizeCreateRequest_spec _ _ _ _ _ _ demo_limits H)).
Defined.

Definition note_a : string := "00000000000000000000000000000000000000000000000000000000000000aa:0".
Definition note_b : string := "00000000000000000000000000000000000000000000000000000000000000bb:7".

Definition demo_plan : txPlan :=
  {| plan_Version := "v0"; plan_Kind := "withdrawal"; plan_WalletID := "hot"; plan_CoinType := 8133;
     plan_Account := 0; plan_Chain := "main"; plan_ExpiryHeight := 1000;
     plan_Outputs := Outputs demo_normalized ++ [{| ToAddress := "j1change"; AmountZat := "5"; MemoHex := "" |}];
     plan_ChangeAddress := "j1change"; plan_FeeZat := "10"; plan_Notes := [note_a; note_b] |}.

(** The text of a plan. *)
Definition plan_json (p : txPlan) : string := Marshal (JObject
  [("version", JString (plan_Version p)); ("kind", JString (plan_Kind p)); ("wallet_id", JString (plan_WalletID p));
   ("coin_type", JInt (plan_CoinType p)); ("account", JInt (plan_Account p)); ("chain", JString (plan_Chain p));
   ("expiry_height", JInt (plan_ExpiryHeight p)); ("outputs", JArray (map output_json (plan_Outputs p)));
   ("change_address", JString (plan_ChangeAddress p)); ("fee_zat", JString (plan_FeeZat p));
   ("notes", JArray (map (fun id => JObject [("note_id", JString id)]) (plan_Notes p)))]%string).

Definition demo_raw : string := Eval vm_compute in plan_json demo_plan.

Lemma validatePlan_spec_witness :
  exists pr, validatePlan demo_raw demo_normalized the_wallet Mainnet "j1change" = Ok pr /\
    exists plan, Unmarshal_plan demo_raw = Some plan /\
      plan_matches demo_normalized the_wallet Mainnet "j1change" plan.
Proof.
  assert (Hv : is_ok (validatePlan demo_raw demo_normalized the_wallet Mainnet "j1change") = true)
    by (vm_compute; reflexivity).
  destruct (validatePlan demo_raw demo_normalized the_wallet Mainnet "j1change") as [pr|e] eqn:H;
    [|discriminate Hv].
  destruct (validatePlan_spec _ _ _ _ _ _ H) as (plan & _ & Hu & Hm & _).
  exact (ex_intro _ pr (conj eq_refl (ex_intro _ plan (conj Hu Hm)))).
Defined.
