(* ===== verification/Signer.v ===== *)
(** The signer client of [internal/coordinator/signer.go] and the operation
    errors of [errors.go].  The HTTP exchange over the Unix socket is a
    parameter. *)
From S2P Require Import Prelude GoString GoTime Sha256 Json Base64 Exchange Domain Config Database Request.

(** * Operation errors *)

Definition opError (code message : string) (retryable : bool) : error :=
  OperationError code message retryable false.

Definition wrapOpError (code message : string) (retryable unknown : bool) (err : option string) : error :=
  let message := match err with
                 | Some text => if String.eqb message "" then text else message
                 | None => message end in
  let message := if String.eqb message "" then code +:+ " failed" else message in
  OperationError code message retryable unknown.

(** [errors.As(err, &operation)]. *)
Fixpoint as_operation (e : error) : option (string * string * bool * bool) :=
  match e with
  | OperationError code message retryable unknown => Some (code, message, retryable, unknown)
  | Wrap _ cause => as_operation cause
  | UpstreamError _ cause => as_operation cause
  | _ => None
  end.

(** * The request *)

(** [json.Marshal] of the map writes its keys in order. *)
Definition sign_payload (attemptID : string) (plan : planResult) : string :=
  "{" +:+ String.concat "," [field "attempt_id" (Marshal_string attemptID);
    field "plan_digest" (Marshal_string (pr_Digest plan));
    field "txplan_base64" (Marshal_string (base64_EncodeToString (pr_Bytes plan)));
    field "version" (Marshal_string "v1")] +:+ "}".

(** * The response *)

Record envelope := {
  env_Version : string;
  env_Status : string;
  env_AttemptID : string;
  env_PlanDigest : string;
  env_Replayed : bool;
  env_TxID : string;
  env_RawTxHex : string;
  env_FeeZat : string;
  env_OutputIndices : list Z;
  env_ChangeIndex : option Z;
  env_ErrorCode : string;
  env_ErrorMessage : string
}.

Definition set_data (e : envelope) (attemptID digest : string) (replayed : bool) (txid raw fee : string)
    (indices : list Z) (change : option Z) : envelope :=
  {| env_Version := env_Version e; env_Status := env_Status e; env_AttemptID := attemptID;
     env_PlanDigest := digest; env_Replayed := replayed; env_TxID := txid; env_RawTxHex := raw;
     env_FeeZat := fee; env_OutputIndices := indices; env_ChangeIndex := change;
     env_ErrorCode := env_ErrorCode e; env_ErrorMessage := env_ErrorMessage e |}.

Definition into_data (j : json) (e : envelope) : option envelope :=
  ms ← struct_members j;
  attemptID ← decode_field "attempt_id" into_string (env_AttemptID e) ms;
  digest ← decode_field "plan_digest" into_string (env_PlanDigest e) ms;
  replayed ← decode_field "replayed" into_bool (env_Replayed e) ms;
  txid ← decode_field "txid" into_string (env_TxID e) ms;
  raw ← decode_field "raw_tx_hex" into_string (env_RawTxHex e) ms;
  fee ← decode_field "fee_zat" into_string (env_FeeZat e) ms;
  indices ← decode_field "orchard_output_action_indices" (into_slice into_uint32 0) (env_OutputIndices e) ms;
  change ← decode_field "orchard_change_action_index" (into_ptr into_uint32 0) (env_ChangeIndex e) ms;
  Some (set_data e attemptID digest replayed txid raw fee indices change).

Definition set_status (e : envelope) (version status code message : string) : envelope :=
  {| env_Version := version; env_Status := status; env_AttemptID := env_AttemptID e;
     env_PlanDigest := env_PlanDigest e; env_Replayed := env_Replayed e; env_TxID := env_TxID e;
     env_RawTxHex := env_RawTxHex e; env_FeeZat := env_FeeZat e; env_OutputIndices := env_OutputIndices e;
     env_ChangeIndex := env_ChangeIndex e; env_ErrorCode := code; env_ErrorMessage := message |}.

Definition into_signer_error (j : json) (e : envelope) : option envelope :=
  ms ← struct_members j;
  code ← decode_field "code" into_string (env_ErrorCode e) ms;
  message ← decode_field "message" into_string (env_ErrorMessage e) ms;
  Some (set_status e (env_Version e) (env_Status e) code message).

Definition into_envelope (j : json) (e : envelope) : option envelope :=
  ms ← struct_members j;
  version ← decode_field "version" into_string (env_Version e) ms;
  status ← decode_field "status" into_string (env_Status e) ms;
  e ← decode_field "data" into_data e ms;
  e ← decode_field "error" into_signer_error e ms;
  Some (set_status e version status (env_ErrorCode e) (env_ErrorMessage e)).

Definition Unmarshal_envelope : string -> option envelope := Unmarshal into_envelope
  {| env_Version := ""; env_Status := ""; env_AttemptID := ""; env_PlanDigest := ""; env_Replayed := false;
     env_TxID := ""; env_RawTxHex := ""; env_FeeZat := ""; env_OutputIndices := []; env_ChangeIndex := None;
     env_ErrorCode := ""; env_ErrorMessage := "" |}.

Definition bodyLimit : Z := 8 * 2 ^ 20.

Definition signerHTTPError (status : Z) (code message : string) : error :=
  let code := if String.eqb code "" then "signer_unavailable" else code in
  let message := if String.eqb message "" then "signer returned HTTP " +:+ pretty status else message in
  if bool_decide (code ∈ ["invalid_request"; "plan_not_allowed"]%string)
  then OperationError code message false false
  else if String.eqb code "signer_busy" then OperationError code message true false
  else if bool_decide (code ∈ ["attempt_outcome_unknown"; "signing_outcome_unknown"; "attempt_digest_conflict";
                               "journal_unsafe"; "journal_unavailable"; "journal_write_failed"]%string)
  then OperationError code message (negb (String.eqb code "attempt_digest_conflict")) true
  else OperationError code message ((500 <=? status) || (status =? 429)) (500 <=? status).

Definition matches_plan (attemptID : string) (plan : planResult) (e : envelope) : bool :=
  String.eqb (env_AttemptID e) attemptID && String.eqb (env_PlanDigest e) (pr_Digest plan)
  && txIDRE (env_TxID e) && negb (String.eqb (env_RawTxHex e) "")
  && String.eqb (env_RawTxHex e) (ToLower (env_RawTxHex e)) && Z.even (len (env_RawTxHex e))
  && String.eqb (env_FeeZat e) (pr_FeeZat plan).

Section signer.
Context (Do : string -> result http_response).

Definition Sign (attemptID : string) (plan : planResult) : result signerResult :=
  match Do (sign_payload attemptID plan) with
  | Err _ => Err (wrapOpError "signer_unavailable" "signer response is unknown; notes remain reserved"
                    true true (Some "request failed"))
  | Ok resp =>
      match read_limited (bodyLimit + 1) (Body resp) with
      | Err _ => Err (wrapOpError "signer_unavailable" "signer response could not be read; notes remain reserved"
                        true true (Some "read failed"))
      | Ok body =>
          if bodyLimit <? len body
          then Err (opError "signer_invalid_response" "signer response exceeds the 8 MiB limit" true)
          else match Unmarshal_envelope body with
               | None => Err (opError "signer_invalid_response" "signer returned invalid JSON" true)
               | Some e =>
                   if negb (String.eqb (env_Version e) "v1")
                   then Err (opError "signer_invalid_response" "signer returned invalid JSON" true)
                   else if negb (StatusCode resp =? 200) || negb (String.eqb (env_Status e) "ok")
                   then Err (signerHTTPError (StatusCode resp) (env_ErrorCode e) (env_ErrorMessage e))
                   else if negb (matches_plan attemptID plan e)
                   then Err (opError "signer_invalid_response"
                               "signer returned data that does not match the reserved plan" true)
                   else if negb (hex_ok (env_RawTxHex e))
                   then Err (opError "signer_invalid_response" "signer returned invalid raw transaction hex" true)
                   else Ok {| sr_TxID := env_TxID e; sr_RawTxHex := env_RawTxHex e; sr_FeeZat := env_FeeZat e;
                              sr_OutputIndices := env_OutputIndices e; sr_ChangeIndex := env_ChangeIndex e;
                              sr_Replay := env_Replayed e |}
               end
      end
  end.

(** [Health]: the answer to [GET /healthz]. *)
Definition signer_Health (health : result http_response) : result unit :=
  resp ← health;
  if negb (StatusCode resp =? 200)
  then Err (New ("signer health returned HTTP " +:+ pretty (StatusCode resp))) else Ok tt.

(** The signer confirmed this plan: the answer of a signature. *)
Definition confirms (attemptID : string) (plan : planResult) (r : signerResult) : Prop :=
  exists resp body e, Do (sign_payload attemptID plan) = Ok resp /\ StatusCode resp = 200 /\
    read_limited (bodyLimit + 1) (Body resp) = Ok body /\ len body <= bodyLimit /\
    Unmarshal_envelope body = Some e /\ env_Version e = "v1" /\ env_Status e = "ok" /\
    env_AttemptID e = attemptID /\ env_PlanDigest e = pr_Digest plan /\
    r = {| sr_TxID := env_TxID e; sr_RawTxHex := env_RawTxHex e; sr_FeeZat := pr_FeeZat plan;
           sr_OutputIndices := env_OutputIndices e; sr_ChangeIndex := env_ChangeIndex e;
           sr_Replay := env_Replayed e |} /\
    lower_hex64 (sr_TxID r) = true /\ hex_ok (sr_RawTxHex r) = true /\ sr_RawTxHex r <> "" /\
    ToLower (sr_RawTxHex r) = sr_RawTxHex r.

(** The errors that say the attempt is not signed: the signer said so with a
    status or a code, or it answered with something that could not be matched
    to the plan. *)
Definition reported_unsigned (attemptID : string) (plan : planResult) : Prop :=
  exists resp, Do (sign_payload attemptID plan) = Ok resp /\
    ((exists body, read_limited (bodyLimit + 1) (Body resp) = Ok body /\
      ((exists e, Unmarshal_envelope body = Some e /\ env_Version e = "v1" /\
          (StatusCode resp <> 200 \/ env_Status e <> "ok") /\
          (StatusCode resp < 500 \/ env_ErrorCode e ∈ ["invalid_request"; "plan_not_allowed"; "signer_busy"]%string)) \/
       bodyLimit < len body \/ Unmarshal_envelope body = None \/
       (exists e, Unmarshal_envelope body = Some e /\ (env_Version e <> "v1" \/
          (StatusCode resp = 200 /\ env_Status e = "ok" /\
           (matches_plan attemptID plan e = false \/ hex_ok (env_RawTxHex e) = false))))))).

Lemma signerHTTPError_known status code message c m r :
  signerHTTPError status code message = OperationError c m r false ->
  status < 500 \/ code ∈ ["invalid_request"; "plan_not_allowed"; "signer_busy"]%string.
Proof.
  unfold signerHTTPError. intros H. destruct (Z.ltb_spec status 500); [by left|]. right.
  destruct (String.eqb_spec code "") as [->|Hne].
  - cbn in H. by destruct (Z.leb_spec 500 status); [|lia].
  - case_bool_decide as H1; [set_solver|]. destruct (String.eqb_spec code "signer_busy") as [->|]; [set_solver|].
    case_bool_decide; [done|]. by destruct (Z.leb_spec 500 status); [|lia].
Qed.

Lemma Sign_ok attemptID plan r : Sign attemptID plan = Ok r -> confirms attemptID plan r.
Proof.
  unfold Sign. destruct (Do _) as [resp|] eqn:Hdo; [|done].
  destruct (read_limited _ _) as [body|] eqn:Hb; [|done].
  intros H. pass_guard H Hlen. destruct (Unmarshal_envelope body) as [e|] eqn:He; [|done].
  pass_guard H Hv. pass_guard H Hs. pass_guard H Hm. pass_guard H Hx. injection H as <-.
  unfold matches_plan in Hm. bool_to_prop. exists resp, body, e.
  split_and!; try done; try congruence.
Qed.

Lemma Sign_err attemptID plan e :
  Sign attemptID plan = Err e ->
  exists code message retryable unknown, e = OperationError code message retryable unknown /\
    (unknown = false -> reported_unsigned attemptID plan).
Proof.
  unfold Sign, opError, wrapOpError. intros H.
  destruct (Do _) as [resp|] eqn:Hdo; [|injection H as <-; by do 4 eexists].
  destruct (read_limited _ _) as [body|] eqn:Hb; [|injection H as <-; by do 4 eexists].
  assert (Hgot : forall P : Prop, P -> (P -> _) -> reported_unsigned attemptID plan) by
    (intros P HP HQ; exists resp; split; [exact Hdo|]; exists body; split; [exact Hb|]; exact (HQ HP)).
  destruct (Z.ltb_spec bodyLimit (len body)) as [Hlen|].
  { injection H as <-. do 4 eexists. split; [done|]. intros _. apply (Hgot _ Hlen). tauto. }
  destruct (Unmarshal_envelope body) as [en|] eqn:He.
  2:{ injection H as <-. do 4 eexists. split; [done|]. intros _. apply (Hgot _ He). tauto. }
  destruct (String.eqb_spec (env_Version en) "v1") as [Hv|Hv]; cbn [negb] in H.
  2:{ injection H as <-. do 4 eexists. split; [done|]. intros _. apply (Hgot _ (conj He Hv)).
      intros []. do 3 right. exists en. tauto. }
  destruct (negb _ || _) eqn:Hs.
  - injection H as <-. assert (exists c m r u, signerHTTPError (StatusCode resp) (env_ErrorCode en)
        (env_ErrorMessage en) = OperationError c m r u) as (c & m & r & u & Heq).
    { unfold signerHTTPError. repeat case_match; by do 4 eexists. }
    exists c, m, r, u. split; [done|]. intros ->. apply signerHTTPError_known in Heq.
    apply (Hgot _ (conj He Heq)). intros []. left. exists en. split_and!; try done.
    apply orb_true_iff in Hs as [Hs|Hs]; bool_to_prop; auto.
  - bool_to_prop. destruct (matches_plan attemptID plan en) eqn:Hm; cbn [negb] in H;
      [destruct (hex_ok (env_RawTxHex en)) eqn:Hx; cbn [negb] in H; [done|]|];
      injection H as <-; do 4 eexists; (split; [done|]); intros _; apply (Hgot _ He); intros _;
      do 3 right; exists en; tauto.
Qed.

(** a signature is accepted only as the signer's confirmation of this
    attempt and this plan digest, with the plan's fee, a transaction id and a
    non-empty lower-case transaction; every refusal is an operation error, and
    only a response actually received can be reported as "not signed". *)
Theorem Sign_spec attemptID plan :
  match Sign attemptID plan with
  | Ok r => confirms attemptID plan r
  | Err e => exists code message retryable unknown, e = OperationError code message retryable unknown /\
      (unknown = false -> reported_unsigned attemptID plan)
  end.
Proof. destruct (Sign attemptID plan) eqn:H; [by apply Sign_ok|by apply Sign_err]. Qed.
End signer.
