(* ===== verification/Planner.v ===== *)
(** The planner client of [internal/coordinator/planner.go]: the command line it
    gives to [juno-txbuild], the bounded capture of its output, and what it makes
    of the result.  The file system, the child process and the JSON decoders are
    parameters. *)
From S2P Require Import Prelude GoString GoTime Sha256 Json Domain Config Database Request Signer.

Definition plannerOutputLimit : Z := 64 * 2 ^ 10.
Definition planLimit : Z := 3 * 2 ^ 20.

(** * cappedBuffer *)

(** One [Write]: the number it reports and the bytes kept. *)
Definition capped_Write (limit : Z) (buffer value : bytes) : Z * bytes :=
  let remaining := limit - Z.of_nat (length buffer) in
  (Z.of_nat (length value),
   if 0 <? remaining
   then buffer ++ (if remaining <? Z.of_nat (length value) then take (Z.to_nat remaining) value else value)
   else buffer).

Definition capped_Writes (limit : Z) (writes : list bytes) : bytes :=
  foldl (fun buffer value => (capped_Write limit buffer value).2) [] writes.

(** * The command line *)

Definition option_args (name value : string) : list string := [name; value].

Definition base_args (cfg : Config.Config) (request : CreateRequest) (wallet : Config.Wallet)
    (changeAddress outputsPath planPath : string) : list string :=
  [if isSplit request then "rebalance"%string else "send-many"%string]
  ++ option_args "--wallet-id" (Config.WalletID wallet)
  ++ option_args "--coin-type" "0"
  ++ option_args "--account" (pretty (Config.Account wallet))
  ++ option_args "--outputs-file" outputsPath
  ++ option_args "--change-address" changeAddress
  ++ option_args "--fee-multiplier" (pretty (CoordinatorFeeMultiplier cfg))
  ++ option_args "--fee-add-zat" (pretty (CoordinatorFeeAddZat cfg))
  ++ option_args "--min-change-zat" (pretty (CoordinatorMinChangeZat cfg))
  ++ option_args "--min-note-zat" (pretty (CoordinatorMinNoteZat cfg))
  ++ option_args "--minconf" (pretty (DefaultConfirmations cfg))
  ++ option_args "--expiry-offset" (pretty (CoordinatorExpiryOffset cfg))
  ++ option_args "--out" planPath
  ++ ["--json"%string].

Definition plan_args (cfg : Config.Config) (request : CreateRequest) (wallet : Config.Wallet)
    (changeAddress outputsPath planPath : string) (excludedNoteIDs : list string) (SplitChange : Z)
    : list string :=
  base_args cfg request wallet changeAddress outputsPath planPath
  ++ (if (1 <? SplitChange) && negb (isSplit request)
      then option_args "--split-change" (pretty SplitChange)
           ++ option_args "--split-change-min-zat" (pretty (CoordinatorSplitMinNoteZat cfg))
      else [])
  ++ concat (map (option_args "--exclude-note-id") excludedNoteIDs).

Definition plannerCodedError (code message : string) : error :=
  let message := if String.eqb (TrimSpace message) "" then "transaction planning failed" else message in
  if bool_decide (code ∈ ["insufficient_balance"; "too_many_inputs"; "no_liquidity_in_hot"; "invalid_request"]%string)
  then opError code message false
  else if String.eqb code "not_found" then opError code message true
  else opError "planner_unavailable" message true.

(** * The run *)

Inductive ctx_state : Type := ctx_live | DeadlineExceeded | Canceled.

(** What the child process left: its error, if any, the context then, and what
    it wrote. *)
Record child := {
  exit_error : option string;
  child_ctx : ctx_state;
  child_stdout : list bytes;
  child_stderr : list bytes
}.

(** The outcomes of the calls on the file system, in order. *)
Record workspace := {
  mkdir_all : option string;
  chmod_dir : option string;
  mkdir_temp : result string;
  chmod_temp : option string;
  write_outputs : option string;
  read_plan : result string
}.

Section planner.
Context (cfg : Config.Config) (run : list string -> string -> child).

(** The code and the message of the error in the output. *)
Definition into_error (j : json) (e : string * string) : option (string * string) :=
  ms ← struct_members j;
  code ← decode_field "code" into_string e.1 ms;
  message ← decode_field "message" into_string e.2 ms;
  Some (code, message).
Definition Unmarshal_error : string -> option (string * string) :=
  Unmarshal (fun j e => ms ← struct_members j; decode_field "error" into_error e ms) (""%string, ""%string).

Definition stderr_text (c : child) : string :=
  TrimSpace (of_bytes (capped_Writes plannerOutputLimit (child_stderr c))).

Definition run_error (c : child) (err : string) : error :=
  match child_ctx c with
  | DeadlineExceeded => opError "planner_timeout" "transaction planning timed out" true
  | Canceled => opError "planner_cancelled" "transaction planning was cancelled" true
  | ctx_live =>
      match Unmarshal_error (of_bytes (capped_Writes plannerOutputLimit (child_stdout c))) with
      | Some (code, message) =>
          if negb (String.eqb code "") then plannerCodedError code message
          else wrapOpError "planner_unavailable"
                 (if String.eqb (stderr_text c) "" then "transaction planner failed" else stderr_text c)
                 true false (Some err)
      | None => wrapOpError "planner_unavailable"
                  (if String.eqb (stderr_text c) "" then "transaction planner failed" else stderr_text c)
                  true false (Some err)
      end
  end.

(** The bytes written to [outputs.json]. *)
Definition outputs_json (request : CreateRequest) (changeAddress : string) : string :=
  Marshal (match RequestSplit request, Outputs request with
           | None, [] => JNull
           | _, _ => JArray (map output_json (planOutputs request changeAddress))
           end).

Definition error_text (e : error) : string := match e with New msg => msg | _ => "" end.

Definition Plan (ws : workspace) (request : CreateRequest) (wallet : Config.Wallet)
    (changeAddress : string) (excludedNoteIDs : list string) (SplitChange : Z) : result planResult :=
  match mkdir_all ws with
  | Some err => Err (wrapOpError "planner_unavailable" "planner work directory is unavailable" true false (Some err))
  | None =>
  match chmod_dir ws with
  | Some err => Err (wrapOpError "planner_unavailable"
                       "planner work directory permissions could not be secured" false false (Some err))
  | None =>
  match mkdir_temp ws with
  | Err err => Err (wrapOpError "planner_unavailable" "planner workspace could not be created" true false None)
  | Ok dir =>
  match chmod_temp ws with
  | Some err => Err (wrapOpError "planner_unavailable"
                       "planner workspace permissions could not be secured" false false (Some err))
  | None =>
  match write_outputs ws with
  | Some err => Err (wrapOpError "planner_unavailable" "planner outputs could not be written" true false (Some err))
  | None =>
      let args := plan_args cfg request wallet changeAddress (dir +:+ "/outputs.json") (dir +:+ "/txplan.json")
                    excludedNoteIDs SplitChange in
      let c := run args (outputs_json request changeAddress) in
      match exit_error c with
      | Some err => Err (run_error c err)
      | None =>
          match read_plan ws with
          | Err _ => Err (wrapOpError "planner_invalid_response" "planner did not durably return a TxPlan"
                            true false None)
          | Ok raw =>
              if planLimit <? len raw
              then Err (opError "planner_invalid_response" "planner TxPlan exceeds the 3 MiB limit" false)
              else match validatePlan raw request wallet (Config.Network cfg) changeAddress with
                   | Err err => Err (wrapOpError "planner_invalid_response" (error_text err) false false None)
                   | Ok pr => Ok pr
                   end
          end
      end
  end end end end end.

Lemma capped_Writes_take limit writes :
  0 <= limit -> capped_Writes limit writes = take (Z.to_nat limit) (concat writes).
Proof.
  intros Hlim. unfold capped_Writes.
  assert (H : forall buffer, Z.of_nat (length buffer) <= limit ->
    foldl (fun buffer value => (capped_Write limit buffer value).2) buffer writes =
    take (Z.to_nat limit) (buffer ++ concat writes)).
  { induction writes as [|v l IH]; intros buffer Hb; cbn [foldl concat].
    { by rewrite app_nil_r, take_ge by lia. }
    assert (Hw : Z.of_nat (length (capped_Write limit buffer v).2) <= limit /\
      take (Z.to_nat limit) ((capped_Write limit buffer v).2 ++ concat l) =
      take (Z.to_nat limit) (buffer ++ v ++ concat l)).
    { unfold capped_Write. cbn [snd]. cbv zeta.
      destruct (Z.ltb_spec 0 (limit - Z.of_nat (length buffer))).
      - destruct (Z.ltb_spec (limit - Z.of_nat (length buffer)) (Z.of_nat (length v))).
        + rewrite length_app, length_take. split; [lia|]. rewrite <- app_assoc.
          rewrite !(take_app buffer), (take_app (take _ v)), !(take_app v), take_take, length_take.
          f_equal. replace (Z.to_nat limit - length buffer - _)%nat with 0%nat by lia.
          replace (Z.to_nat limit - length buffer - length v)%nat with 0%nat by lia.
          f_equal. f_equal. lia.
        + rewrite length_app, <- app_assoc. split; [lia|done].
      - split; [lia|]. by rewrite !take_app_le by lia. }
    destruct Hw as [Hlen Heq]. by rewrite IH. }
  apply (H []). cbn. lia.
Qed.

(** Every reserved note is excluded on the command line. *)
Lemma plan_args_excludes request wallet change o p excluded k n :
  n ∈ excluded -> exists pre post, plan_args cfg request wallet change o p excluded k =
    pre ++ ["--exclude-note-id"%string; n] ++ post.
Proof.
  intros (l1 & l2 & ->)%list_elem_of_split. unfold plan_args. generalize (base_args cfg request wallet change o p).
  intros base. match goal with |- context [if ?c then ?a else ?b] => generalize (if c then a else b) end.
  intros split. rewrite map_app, concat_app. cbn [map concat].
  exists (base ++ split ++ concat (map (option_args "--exclude-note-id") l1)),
    (concat (map (option_args "--exclude-note-id") l2)).
  by rewrite <- !app_assoc.
Qed.

Lemma run_error_operation c err : exists code message retryable, run_error c err = OperationError code message retryable false.
Proof.
  unfold run_error, plannerCodedError, opError, wrapOpError. repeat case_match; by do 3 eexists.
Qed.

(** the planner is run with the wallet, the change address and every
    excluded note of the request on its command line; its result is returned
    only if the run succeeded and the plan it wrote validates against the
    request; every failure is an operation error that never claims an unknown
    outcome, since nothing was signed. *)
Theorem Plan_spec ws request wallet change excluded k :
  match Plan ws request wallet change excluded k with
  | Ok pr => exists dir raw args, mkdir_temp ws = Ok dir /\ read_plan ws = Ok raw /\ len raw <= planLimit /\
      args = plan_args cfg request wallet change (dir +:+ "/outputs.json") (dir +:+ "/txplan.json") excluded k /\
      exit_error (run args (outputs_json request change)) = None /\
      (forall n, n ∈ excluded -> exists pre post, args = pre ++ ["--exclude-note-id"%string; n] ++ post) /\
      validatePlan raw request wallet (Config.Network cfg) change = Ok pr
  | Err e => exists code message retryable, e = OperationError code message retryable false
  end.
Proof.
  unfold Plan.
  destruct (mkdir_all ws); [by do 3 eexists|]. destruct (chmod_dir ws); [by do 3 eexists|].
  destruct (mkdir_temp ws) as [dir|]; [|by do 3 eexists]. destruct (chmod_temp ws); [by do 3 eexists|].
  destruct (write_outputs ws); [by do 3 eexists|]. cbv zeta. set (args := plan_args _ _ _ _ _ _ _ _).
  destruct (exit_error _) eqn:Hx; [apply run_error_operation|].
  destruct (read_plan ws) as [raw|]; [|by do 3 eexists].
  destruct (Z.ltb_spec planLimit (len raw)); [by do 3 eexists|].
  destruct (validatePlan _ _ _ _ _) as [pr|] eqn:Hv; [|by do 3 eexists].
  exists dir, raw, args. split_and!; try done. intros n. apply plan_args_excludes.
Qed.
End planner.
