(* ===== verification/Coordinator.v ===== *)
(** The world of the coordinator service: the tables it shares with everything
    else, its queue, and the collaborators of [internal/coordinator/service.go]
    as an interface.

    Call number [n] of a run sees the tables as the other requests, workers and
    processes left them: [interfere n] is what they did since the last call, so
    every interleaving of store calls is a choice of [interfere].  The answers of
    node, scanner, planner, signer, clock and driver at call [n] are likewise
    functions of [n]; a deadline that expires is one of these answers. *)
From S2P Require Import Prelude Tx GoString GoTime Sha256 Domain Config Database Attempts Request.

(** * Collaborators *)

Class Ports := {
  interfere : nat -> db -> db;
  port_io : nat -> faults;
  port_clock : nat -> time;
  ctx_done : nat -> bool;
  random16 : nat -> result string;
  node_Tip : nat -> result NodeTip;
  node_Transaction : nat -> string -> bool -> result (option Transaction);
  scanner_Health : nat -> result ScannerHealth;
  scanner_NoteStatuses : nat -> string -> list string -> result (option WalletNoteStatuses);
  scanner_NoteSummary : nat -> string -> Z -> Z -> Z -> result (option WalletNoteSummary);
  allocate : nat -> string -> string -> db -> result Address * db;
  planner_Plan : nat -> CreateRequest -> Config.Wallet -> string -> list string -> Z -> result planResult;
  signer_Sign : nat -> string -> planResult -> result signerResult;
  signer_Healthy : nat -> result unit;
  txbuild_executable : nat -> bool
}.

(** * The service's state *)

Record svc := {
  tables : db;
  queue : list string;
  inflight : gset string;
  recoveryAfter : string;
  tick : nat
}.

Definition S (A : Type) : Type := svc -> A * svc.

#[export] Instance s_ret : MRet S := fun A a w => (a, w).
#[export] Instance s_bind : base.MBind S := fun A B f m w => let '(a, w') := m w in f a w'.

Definition set_tables (w : svc) (d : db) : svc :=
  {| tables := d; queue := queue w; inflight := inflight w; recoveryAfter := recoveryAfter w;
     tick := Datatypes.S (tick w) |}.
Definition next_tick (w : svc) : svc := set_tables w (tables w).
Definition set_queue (w : svc) (q : list string) : svc :=
  {| tables := tables w; queue := q; inflight := inflight w; recoveryAfter := recoveryAfter w; tick := tick w |}.
Definition set_after (w : svc) (id : string) : svc :=
  {| tables := tables w; queue := queue w; inflight := inflight w; recoveryAfter := id; tick := tick w |}.
Definition set_inflight (w : svc) (s : gset string) : svc :=
  {| tables := tables w; queue := queue w; inflight := s; recoveryAfter := recoveryAfter w; tick := tick w |}.

Section calls.
Context `{Ports}.

(** A call on the store: what the others did first, then the operation. *)
Definition store_call {A} (f : time -> faults -> db -> A * db) : S A := fun w =>
  let n := tick w in
  let '(a, d') := f (port_clock n) (port_io n) (interfere n (tables w)) in (a, set_tables w d').

Definition ask {A} (f : nat -> A) : S A := fun w => (f (tick w), next_tick w).
End calls.

(** [_, ok := m[key]] on a Go map built from the configured wallets: the last
    wallet of an id wins. *)
Definition wallet_map (wallets : list Config.Wallet) : gmap string Config.Wallet :=
  foldl (fun m w => <[Config.WalletID w := w]> m) ∅ wallets.

(** * Inventory *)

Section inventory.
Context `{Ports} (cfg : Config.Config).

Definition maxInventoryReservations : Z := 5000.

Definition opErr (code message : string) (retryable : bool) : error :=
  OperationError code message retryable false.

Definition spendableSummary (walletID : string) : S (result WalletNoteSummary) :=
  answer ← ask (fun n => scanner_NoteSummary n walletID (DefaultConfirmations cfg)
                           (CoordinatorMinNoteZat cfg) (NoteSummaryMaxNotes cfg));
  mret (match answer with
        | Err e => if errors_Is ErrNoteSummaryLimitExceeded e
                   then Err (opErr "note_summary_limit_exceeded"
                          "wallet has more unspent notes than the configured summary limit" false)
                   else Err (opErr "scanner_unavailable" "scanner note summary is unavailable" true)
        | Ok None => Err (opErr "not_found" "wallet is not known to the scanner" false)
        | Ok (Some summary) =>
            if negb (WalletNoteSummary_ValidFor summary walletID (DefaultConfirmations cfg)
                       (CoordinatorMinNoteZat cfg) (NoteSummaryMaxNotes cfg))
            then Err (opErr "scanner_unavailable" "scanner returned an invalid note summary" true)
            else Ok summary
        end).

Definition statusBatch : nat := 200.

(** The loop over batches of 200 reserved notes; [None] is the scanner error
    that ends it. *)
Fixpoint status_batches (fuel : nat) (walletID : string) (ids : list string)
    (statuses : gmap string NoteStatus) : S (result (gmap string NoteStatus)) :=
  match fuel, ids with
  | Datatypes.S fuel', _ :: _ =>
      let batch_ids := take statusBatch ids in
      answer ← ask (fun n => scanner_NoteStatuses n walletID batch_ids);
      match answer with
      | Err _ => mret (Err (opErr "scanner_unavailable" "scanner note status is unavailable" true))
      | Ok batch =>
          let statuses' :=
            match batch with
            | Some b => if WalletNoteStatuses_ValidFor b walletID batch_ids
                        then foldl (fun m s => <[ns_NoteID s := s]> m) statuses (wns_Statuses b) else statuses
            | None => statuses
            end in
          status_batches fuel' walletID (drop statusBatch ids) statuses'
      end
  | _, _ => mret (Ok statuses)
  end.

Definition reservedNotes (walletID : string)
    : S (result (list NoteReservation * gmap string NoteStatus)) :=
  answer ← store_call (fun _ => NoteReservations (network_string (Config.Network cfg)) walletID);
  match answer with
  | Err _ => mret (Err (opErr "reservation_state_unavailable" "active note reservations could not be read" true))
  | Ok reservations =>
      if maxInventoryReservations <? Z.of_nat (length reservations)
      then mret (Err (opErr "attempt_list_limit_exceeded" "too many active note reservations to report" false))
      else
        let ids := map Reservation_NoteID reservations in
        statuses ← status_batches (length ids) walletID ids ∅;
        mret (m ← statuses; Ok (reservations, m))
  end.

Record NoteReservationView := {
  nrv_NoteID : string;
  nrv_AttemptID : string;
  nrv_AttemptState : AttemptState;
  nrv_ExpiryHeight : Z;
  nrv_NoteState : NoteState;
  nrv_ValueZat : option Z;
  nrv_ReservedAt : string
}.

Record NoteInventory := {
  inv_WalletID : string;
  inv_MinConfirmations : Z;
  inv_MinNoteZat : Z;
  inv_AsOfScannerHeight : Z;
  inv_Spendable : NoteValueSummary;
  inv_Reserved : NoteValueSummary;
  inv_Unreserved : NoteValueSummary;
  inv_TargetNotes : Z;
  inv_LowNoteInventory : bool;
  inv_ChangeSplitMax : Z;
  inv_ReservedByAttempts : list NoteReservationView;
  inv_ReservationsComplete : bool
}.

(** The loop over the reservations: the reserved totals, whether every note's
    state is known, and the views. *)
Fixpoint inventory_views (statuses : gmap string NoteStatus) (held : NoteValueSummary) (complete : bool)
    (l : list NoteReservation) : NoteValueSummary * bool * list NoteReservationView :=
  match l with
  | [] => (held, complete, [])
  | r :: rest =>
      let view state value :=
        {| nrv_NoteID := Reservation_NoteID r; nrv_AttemptID := Reservation_AttemptID r;
           nrv_AttemptState := Reservation_State r; nrv_ExpiryHeight := Reservation_ExpiryHeight r;
           nrv_NoteState := state; nrv_ValueZat := value;
           nrv_ReservedAt := FormatRFC3339Nano (Reservation_CreatedAt r) |} in
      match statuses !! Reservation_NoteID r with
      | Some status =>
          let held' :=
            if decide (ns_State status = NoteUnspent)
            then {| nv_NoteCount := add64 (nv_NoteCount held) 1;
                    nv_ValueZat := match ns_ValueZat status with
                                   | Some v => add64 (nv_ValueZat held) v
                                   | None => nv_ValueZat held
                                   end |}
            else held in
          let '(totals, c, views) := inventory_views statuses held' complete rest in
          (totals, c, view (ns_State status) (ns_ValueZat status) :: views)
      | None =>
          let '(totals, c, views) := inventory_views statuses held false rest in
          (totals, c, view NoteUnknown None :: views)
      end
  end.

Definition no_notes : NoteValueSummary := {| nv_NoteCount := 0; nv_ValueZat := 0 |}.

Definition inventory_of (walletID : string) (summary : WalletNoteSummary) (reservations : list NoteReservation)
    (statuses : gmap string NoteStatus) : NoteInventory :=
  let '(held, complete, views) := inventory_views statuses no_notes true reservations in
  let spendable := sp_Value (ws_Spendable summary) in
  let unreserved :=
    {| nv_NoteCount := Z.max (sub64 (nv_NoteCount spendable) (nv_NoteCount held)) 0;
       nv_ValueZat := Z.max (sub64 (nv_ValueZat spendable) (nv_ValueZat held)) 0 |} in
  {| inv_WalletID := walletID; inv_MinConfirmations := ws_MinConfirmations summary;
     inv_MinNoteZat := ws_MinNoteZat summary; inv_AsOfScannerHeight := ws_AsOfScannerHeight summary;
     inv_Spendable := spendable; inv_Reserved := held; inv_Unreserved := unreserved;
     inv_TargetNotes := CoordinatorTargetNotes cfg;
     inv_LowNoteInventory := (0 <? CoordinatorTargetNotes cfg)
                             && (nv_NoteCount unreserved <? CoordinatorTargetNotes cfg);
     inv_ChangeSplitMax := CoordinatorChangeSplitMax cfg; inv_ReservedByAttempts := views;
     inv_ReservationsComplete := complete |}.

Definition NoteInventory_of (walletID : string) : S (result NoteInventory) :=
  match wallet_map (Config.Wallets cfg) !! walletID with
  | None => mret (Err (opErr "not_found" "wallet not found" false))
  | Some _ =>
      summary ← spendableSummary walletID;
      match summary with
      | Err e => mret (Err e)
      | Ok summary =>
          held ← reservedNotes walletID;
          mret ('(reservations, statuses) ← held; Ok (inventory_of walletID summary reservations statuses))
      end
  end.

(** * Change splitting *)

Record changeSplitPolicy := { deficit : Z; split_max : Z }.

Definition no_split : changeSplitPolicy := {| deficit := 0; split_max := 0 |}.

(** [options]: the [SplitChange] of a plan that spends [spends] notes. *)
Definition options (p : changeSplitPolicy) (spends : Z) : Z :=
  if split_max p <? 2 then 0
  else
    let want := add64 (deficit p) (Z.max spends 1) in
    if want <? 2 then 0 else Z.min want (split_max p).

Definition splitPolicy (request : CreateRequest) (walletID : string) : S changeSplitPolicy :=
  if (CoordinatorTargetNotes cfg <? 1) || (CoordinatorChangeSplitMax cfg <? 2) || isSplit request
  then mret no_split
  else
    summary ← spendableSummary walletID;
    match summary with
    | Err _ => mret no_split
    | Ok summary =>
        answer ← reservedNotes walletID;
        match answer with
        | Err _ => mret no_split
        | Ok (reservations, statuses) =>
            let unspent r := match statuses !! Reservation_NoteID r with
                             | Some s => bool_decide (ns_State s = NoteUnspent) | None => false end in
            let held := Z.of_nat (length (filter (fun r => unspent r = true) reservations)) in
            let unreserved := Z.max (sub64 (nv_NoteCount (sp_Value (ws_Spendable summary))) held) 0 in
            mret {| deficit := sub64 (CoordinatorTargetNotes cfg) unreserved;
                    split_max := CoordinatorChangeSplitMax cfg |}
        end
    end.

Definition fundableWithoutReservations (request : CreateRequest) (wallet : Config.Wallet)
    (changeAddress : string) : S bool :=
  result ← ask (fun n => planner_Plan n request wallet changeAddress [] 0);
  mret (is_ok result).
End inventory.
