(* ===== verification/Service.v ===== *)
(** The coordinator service of [internal/coordinator/service.go]: creating,
    reading and cancelling attempts, the recovery scan, and the worker's
    processing of an attempt (planning, signing, reconciliation).

    Logging, the goroutines and the per-wallet mutex are not modelled: what other
    goroutines do between two store calls is the interference of [Coordinator.v].
    A Go closure's deadline is part of the answer of the call it bounds. *)
From S2P Require Import Prelude Tx GoString GoTime Sha256 Domain Config Database Attempts Wallets Journal Request Signer Coordinator.

Definition workerCount : Z := 4.
Definition recoveryBatchSize : Z := 1000.
Definition signingUnknownRetryInterval : Z := 60 * second.

Definition newAttemptID (random : result string) : result string :=
  r ← random; Ok ("txn_" +:+ EncodeToString r).

Definition nul_byte : string := String (ascii_of_N 0) EmptyString.

Definition scopedAttemptKey (principal key : string) : string :=
  "v1:" +:+ EncodeToString (Sum256 ("v1" +:+ nul_byte +:+ principal +:+ nul_byte +:+ key)).

Definition recoverableState (s : AttemptState) : bool :=
  match s with
  | planning | reserved | signing | signing_unknown | signed | broadcast | mined
  | expired_pending_reconciliation | orphaned => true
  | _ => false
  end.

Definition expirySensitiveResponseState (s : AttemptState) : bool :=
  match s with signed | broadcast | orphaned => true | _ => false end.

(** [retryDue] at the clock [now]. *)
Definition retryDue (now : time) (a : TransactionAttempt) : bool :=
  if decide (State a = signing_unknown) then signingUnknownRetryInterval <=? Sub now (UpdatedAt a) else true.

Definition sameStringSet (left right : list string) : bool :=
  Nat.eqb (length left) (length right)
  && bool_decide (merge_sort String.le left = merge_sort String.le right).

(** The loop over the output mapping. *)
Fixpoint check_action_indices (seen : gset Z) (indices : list Z) : result (gset Z) :=
  match indices with
  | [] => Ok seen
  | i :: rest =>
      if 199 <? i then Err (New "signer output mapping contains an action index above 199")
      else if bool_decide (i ∈ seen) then Err (New "signer output mapping contains duplicate action indices")
      else check_action_indices ({[i]} ∪ seen) rest
  end.

Definition validateSignerResult (r : signerResult) (planOutputs : Z) : result unit :=
  if negb (Z.of_nat (length (sr_OutputIndices r)) =? planOutputs)
  then Err (New ("signer output mapping has " +:+ pretty (Z.of_nat (length (sr_OutputIndices r)))
                 +:+ " entries for " +:+ pretty planOutputs +:+ " plan outputs"))
  else
    seen ← check_action_indices ∅ (sr_OutputIndices r);
    match sr_ChangeIndex r with
    | None => Ok tt
    | Some i =>
        if 199 <? i then Err (New "signer change mapping contains an action index above 199")
        else if bool_decide (i ∈ seen) then Err (New "signer change action overlaps a requested output")
        else Ok tt
    end.

Definition valid_expiry (h : Z) : bool := negb ((h <=? 0) || (uint32_max <? h)).

Section service.
Context `{Ports} (cfg : Config.Config).

Definition network : string := network_string (Config.Network cfg).
Definition wallets : gmap string Config.Wallet := wallet_map (Config.Wallets cfg).

(** * Requests *)

Definition requireAutomationUnsealed : S (result unit) :=
  answer ← store_call (fun _ => CoordinatorRecoverySealed);
  mret (match answer with
        | Err _ => Err (opError "recovery_gate_unavailable" "coordinator recovery state could not be verified" true)
        | Ok true => Err (opError "coordinator_recovery_sealed" "transaction automation is sealed after gateway database recovery; reconcile all prior transaction attempts and run recovery-unseal-coordinator" false)
        | Ok false => Ok tt
        end).

Definition enqueue (attemptID : string) : S bool := fun w =>
  if Z.of_nat (length (queue w)) <? recoveryBatchSize
  then (true, set_queue w (queue w ++ [attemptID])) else (false, w).

Definition good_tip (answer : result NodeTip) : option NodeTip :=
  match answer with
  | Ok tip => if negb (String.eqb (tip_Network tip) (NodeChain (Config.Network cfg)))
                 || tip_InitialBlockDownload tip then None else Some tip
  | Err _ => None
  end.

Definition set_view (v : AttemptView) (s : AttemptState) : AttemptView :=
  {| view_AttemptID := view_AttemptID v; view_State := s; view_WalletID := view_WalletID v;
     view_ApprovalReference := view_ApprovalReference v; view_ChangeAddress := view_ChangeAddress v;
     view_PlanDigest := view_PlanDigest v; view_FeeZat := view_FeeZat v;
     view_ExpiryHeight := view_ExpiryHeight v; view_SelectedNoteIDs := view_SelectedNoteIDs v;
     view_TxID := view_TxID v; view_RawTxHex := ""; view_OutputIndices := view_OutputIndices v;
     view_ChangeIndex := view_ChangeIndex v; view_Error := view_Error v;
     view_CreatedAt := view_CreatedAt v; view_UpdatedAt := view_UpdatedAt v |}.

Definition attemptForResponse (value : TransactionAttempt) : S (result AttemptView) :=
  let view := attemptView value in
  if negb (expirySensitiveResponseState (State value)) then mret (Ok view)
  else if negb (valid_expiry (ExpiryHeight value))
  then mret (Err (opError "internal" "stored signed transaction expiry is invalid" false))
  else
    answer ← ask node_Tip;
    mret (match good_tip answer with
          | None => Err (opError "expiry_status_unavailable" "current canonical tip could not be verified; signed transaction material was withheld" true)
          | Some tip => if ExpiryHeight value <? tip_Height tip
                        then Ok (set_view view expired_pending_reconciliation) else Ok view
          end).

Definition new_attempt (id key digest principal json : string) (r : CreateRequest) (now : time)
    : TransactionAttempt :=
  {| AttemptID := id; ScopedIdempotencyKey := key; RequestDigest := digest; PrincipalName := principal;
     WalletID := rq_WalletID r; ApprovalReference := rq_ApprovalReference r; RequestJSON := json;
     State := OtherState ""; ChangeAddress := ""; PlanJSON := ""; PlanDigest := ""; FeeZat := "";
     ExpiryHeight := 0; SelectedNoteIDs := []; TxID := ""; RawTxHex := ""; OrchardOutputActionIndices := [];
     OrchardChangeActionIndex := None; ErrorCode := ""; ErrorMessage := ""; ErrorRetryable := false;
     CreatedAt := now; UpdatedAt := 0 |}.

Definition error_text (e : error) : string := match e with New msg => msg | _ => "" end.

Definition enqueue_recoverable (a : TransactionAttempt) : S bool :=
  if recoverableState (State a) then enqueue (AttemptID a) else mret false.

(** [Create]: the attempt and whether it is a replay. *)
Definition Create (principal idempotencyKey : string) (request : CreateRequest)
    : S (result (AttemptView * bool)) :=
  unsealed ← requireAutomationUnsealed;
  match unsealed with
  | Err e => mret (Err e)
  | Ok _ =>
  if negb (idempotencyRE idempotencyKey)
  then mret (Err (opError "invalid_request" "a valid Idempotency-Key header is required" false))
  else
  let request := {| rq_WalletID := TrimSpace (rq_WalletID request);
                    rq_ApprovalReference := rq_ApprovalReference request;
                    Outputs := Outputs request; RequestSplit := RequestSplit request |} in
  match wallets !! rq_WalletID request with
  | None => mret (Err (opError "not_found" "wallet not found" false))
  | Some wallet =>
  match normalizeCreateRequest request cfg wallet with
  | Err e => mret (Err (opError "invalid_request" (error_text e) false))
  | Ok (normalized, json, digest) =>
  random ← ask random16;
  match newAttemptID random with
  | Err _ => mret (Err (opError "internal" "transaction attempt ID could not be created" false))
  | Ok attemptID =>
  now ← ask port_clock;
  claim ← store_call (fun clock => ClaimAttempt clock
            (new_attempt attemptID (scopedAttemptKey principal idempotencyKey) digest principal json normalized now));
  match claim with
  | Err _ => mret (Err (opError "internal" "transaction attempt state could not be claimed" false))
  | Ok claim =>
      let attempt := AttemptClaim_Attempt claim in
      match AttemptClaim_State claim with
      | ClaimConflict => mret (Err (opError "idempotency_conflict" "idempotency key was used with a different payload" false))
      | ClaimAcquired => _ ← enqueue (AttemptID attempt); mret (Ok (attemptView attempt, false))
      | ClaimReplay =>
          answer ← attemptForResponse attempt;
          _ ← enqueue_recoverable attempt;
          mret (view ← answer; Ok (view, true))
      | ClaimInProgress => mret (Err (opError "internal" "unexpected idempotency state" false))
      end
  end end end end end.

(** The attempt a principal may see. *)
Definition owned_attempt (principal attemptID : string) : S (result TransactionAttempt) :=
  if negb (attemptIDRE attemptID) then mret (Err (opError "invalid_request" "attempt_id is invalid" false))
  else
    answer ← store_call (fun _ => Attempts.Attempt attemptID);
    mret (match answer with
          | Err _ => Err (opError "internal" "transaction attempt state could not be read" false)
          | Ok None => Err (opError "not_found" "transaction attempt not found" false)
          | Ok (Some value) =>
              if negb (String.eqb (PrincipalName value) principal)
              then Err (opError "forbidden" "credential does not own this transaction attempt" false)
              else Ok value
          end).

(** [Service.Attempt]. *)
Definition get_attempt (principal attemptID : string) : S (result AttemptView) :=
  found ← owned_attempt principal attemptID;
  match found with
  | Err e => mret (Err e)
  | Ok value =>
      answer ← attemptForResponse value;
      match answer with
      | Ok view => if decide (view_State view = State value) then mret (Ok view)
                   else _ ← enqueue (AttemptID value); mret (Ok view)
      | Err e => mret (Err e)
      end
  end.

Definition ActiveAttempts (principal walletID : string) : S (result (list AttemptView)) :=
  match wallets !! walletID with
  | None => mret (Err (opError "not_found" "wallet not found" false))
  | Some _ =>
      answer ← store_call (fun _ => ActiveAttemptsByWallet walletID principal 1000);
      mret (match answer with
            | Ok values => Ok (map activeAttemptView values)
            | Err e => if errors_Is ErrAttemptListLimit e
                       then Err (opError "attempt_list_limit_exceeded" "more than 1000 active attempts; contact the coordinator operator" false)
                       else Err (opError "internal" "active transaction attempts could not be read" false)
            end)
  end.

Definition Cancel (principal attemptID : string) : S (result AttemptView) :=
  found ← owned_attempt principal attemptID;
  match found with
  | Err e => mret (Err e)
  | Ok _ =>
      answer ← store_call (fun now => CancelAttempt attemptID now);
      mret (match answer with
            | Ok value => Ok (attemptView value)
            | Err e => if errors_Is ErrAttemptStateConflict e
                       then Err (opError "attempt_not_cancellable" "only a provably unsigned planning or reserved attempt can be cancelled" false)
                       else Err (opError "internal" "transaction attempt could not be cancelled" false)
            end)
  end.

(** [Ready]; [ping] is the answer of [store.Ping]. *)
Definition Ready (ping : nat -> result unit) : S (result unit) :=
  pong ← ask ping;
  match pong with
  | Err _ => mret (Err (New "coordinator state is unavailable"))
  | Ok _ =>
      unsealed ← requireAutomationUnsealed;
      match unsealed with
      | Err (OperationError _ message _ _) => mret (Err (New message))
      | Err e => mret (Err e)
      | Ok _ =>
          executable ← ask txbuild_executable;
          if negb executable then mret (Err (New "transaction planner is unavailable"))
          else
            health ← ask signer_Healthy;
            mret (match health with Err _ => Err (New "transaction signer is unavailable") | Ok _ => Ok tt end)
      end
  end.
End service.
