(* ===== verification/Worker.v ===== *)
(** The worker half of [internal/coordinator/service.go]: the recovery scan, the
    queue, and [process] with planning, signing and reconciliation.

    One run of a worker is one run of [process]; what the other workers,
    requests and processes do between its store calls is the interference of
    [Coordinator.v].  The error log lines are left out. *)
From S2P Require Import Prelude Tx GoString GoTime Sha256 Domain Config Database Attempts Wallets Journal Request Signer Coordinator Service.

Section worker.
Context `{Ports} (cfg : Config.Config).

(** * Recording outcomes *)

Definition mark (attemptID : string) (state : AttemptState) (code message : string)
    (retryable release : bool) : S (result unit) :=
  store_call (fun now => MarkAttemptState attemptID state code message retryable release now).

Definition failUnsignedWith (attemptID code message : string) (retryable : bool) : S unit :=
  _ ← mark attemptID failed_unsigned code message retryable true; mret tt.

Definition failUnsigned (attemptID code message : string) : S unit :=
  failUnsignedWith attemptID code message false.

Definition recordPlanningError (attemptID code message : string) (retryable : bool) : S unit :=
  _ ← mark attemptID planning code message retryable false; mret tt.

Definition markSigningUnknown (attemptID code message : string) (retryable : bool) : S unit :=
  _ ← mark attemptID signing_unknown code message retryable false; mret tt.

Definition transition (attempt : TransactionAttempt) (state : AttemptState) (release : bool) : S unit :=
  if bool_decide (State attempt = state) then mret tt
  else _ ← mark (AttemptID attempt) state "" "" false release; mret tt.

Definition decodeRequest (attempt : TransactionAttempt) : result (CreateRequest * Config.Wallet) :=
  match wallets cfg !! WalletID attempt with
  | None => Err (New "stored wallet is not configured")
  | Some wallet =>
      match Unmarshal_request (RequestJSON attempt) with
      | None => Err (New "stored request JSON is invalid")
      | Some request =>
          match normalizeCreateRequest request cfg wallet with
          | Err _ => Err (New "stored request integrity validation failed")
          | Ok (normalized, canonical, digest) =>
              if negb (String.eqb digest (RequestDigest attempt))
                 || negb (String.eqb canonical (RequestJSON attempt))
              then Err (New "stored request integrity validation failed")
              else Ok (normalized, wallet)
          end
      end
  end.

(** * Planning *)

Definition notes_reserved_message : string :=
  "eligible notes are reserved by other active attempts; retry with a new request once they are released".

(** [var operation *operationError; if !errors.As(err, &operation)]: the
    operation error of a failed plan. *)
Definition planning_operation (e : error) : string * string * bool * bool :=
  default ("planner_unavailable", "transaction planner failed", true, false)%string (as_operation e).

(** The widening loop: the last valid plan. *)
Fixpoint widen (fuel : nat) (policy : changeSplitPolicy) (request : CreateRequest) (wallet : Config.Wallet)
    (changeAddress : string) (excluded : list string) (current : Z) (plan : planResult) : S planResult :=
  match fuel with
  | O => mret plan
  | Datatypes.S fuel' =>
      let wider := options policy (Z.of_nat (length (pr_SelectedNoteIDs plan))) in
      if wider <=? current then mret plan
      else
        answer ← ask (fun n => planner_Plan n request wallet changeAddress excluded wider);
        match answer with
        | Err _ => mret plan
        | Ok plan' => widen fuel' policy request wallet changeAddress excluded wider plan'
        end
  end.

(** The replanning loop. *)
Fixpoint replan (fuel : nat) (policy : changeSplitPolicy) (request : CreateRequest) (wallet : Config.Wallet)
    (attempt : TransactionAttempt) (changeAddress : string) : S bool :=
  match fuel with
  | O =>
      _ ← recordPlanningError (AttemptID attempt) "reservation_conflict"
            "selected notes raced with another transaction; planning will retry" true;
      mret false
  | Datatypes.S fuel' =>
      answer ← store_call (fun _ => ActiveNoteIDs (network cfg) (WalletID attempt));
      match answer with
      | Err _ =>
          _ ← recordPlanningError (AttemptID attempt) "reservation_state_unavailable"
                "active note reservations could not be read" true;
          mret false
      | Ok excluded =>
          answer ← ask (fun n => planner_Plan n request wallet changeAddress excluded (options policy 1));
          match answer with
          | Err planErr =>
              let '(code, message, retryable, _) := planning_operation planErr in
              others ← (if String.eqb code "insufficient_balance" && negb (Nat.eqb (length excluded) 0)
                        then fundableWithoutReservations request wallet changeAddress else mret false);
              if (others : bool)
              then _ ← failUnsignedWith (AttemptID attempt) "notes_reserved" notes_reserved_message true; mret false
              else if retryable
              then _ ← recordPlanningError (AttemptID attempt) code message retryable; mret false
              else _ ← failUnsigned (AttemptID attempt) code message; mret false
          | Ok plan =>
              plan ← widen (Z.to_nat (CoordinatorChangeSplitMax cfg)) policy request wallet changeAddress
                       excluded (options policy 1) plan;
              reserve ← store_call (fun now => ReserveAttemptPlan (AttemptID attempt) (network cfg) (pr_Bytes plan)
                          (pr_Digest plan) (pr_FeeZat plan) (pr_ExpiryHeight plan) (pr_SelectedNoteIDs plan) now);
              match reserve with
              | Ok _ => mret true
              | Err e => if errors_Is ErrNoteReservation e
                         then replan fuel' policy request wallet attempt changeAddress else mret false
              end
          end
      end
  end.

(** The change address: the attempt's own, or one allocated and recorded now. *)
Definition ensure_change_address (attempt : TransactionAttempt) : S (option string) :=
  if negb (String.eqb (ChangeAddress attempt) "") then mret (Some (ChangeAddress attempt))
  else
    allocated ← (fun w =>
      let n := tick w in
      let '(a, d') := allocate n (WalletID attempt) ("internal_change_" +:+ AttemptID attempt) (interfere n (tables w)) in
      (a, set_tables w d'));
    match allocated with
    | Err _ =>
        _ ← recordPlanningError (AttemptID attempt) "change_address_unavailable"
              "registered change address could not be allocated" true;
        mret None
    | Ok address =>
        stored ← store_call (fun now => SetAttemptChangeAddress (AttemptID attempt) (Address_Address address) now);
        match stored with
        | Err _ => mret None
        | Ok _ => mret (Some (Address_Address address))
        end
    end.

Definition planAttempt (initial : TransactionAttempt) : S bool :=
  answer ← store_call (fun _ => Attempts.Attempt (AttemptID initial));
  match answer with
  | Err _ | Ok None => mret false
  | Ok (Some attempt) =>
      if negb (bool_decide (State attempt = planning)) then mret false
      else if String.eqb (ErrorCode attempt) "notes_reserved"
      then _ ← failUnsignedWith (AttemptID attempt) "notes_reserved" notes_reserved_message true; mret false
      else
        match decodeRequest attempt with
        | Err e => _ ← failUnsigned (AttemptID attempt) "stored_request_invalid" (error_text e); mret false
        | Ok (request, wallet) =>
            change ← ensure_change_address attempt;
            match change with
            | None => mret false
            | Some changeAddress =>
                policy ← splitPolicy cfg request (WalletID attempt);
                replan (Z.to_nat (CoordinatorMaxReplans cfg)) policy request wallet attempt changeAddress
            end
        end
  end.

(** * Signing *)

Definition with_bytes (p : planResult) (raw : string) : planResult :=
  {| pr_Bytes := raw; pr_Digest := pr_Digest p; pr_FeeZat := pr_FeeZat p;
     pr_ExpiryHeight := pr_ExpiryHeight p; pr_SelectedNoteIDs := pr_SelectedNoteIDs p;
     pr_OutputCount := pr_OutputCount p |}.

(** The stored plan still matches the attempt. *)
Definition stored_plan (request : CreateRequest) (wallet : Config.Wallet) (a : TransactionAttempt)
    : option planResult :=
  match validatePlan (PlanJSON a) request wallet (Config.Network cfg) (ChangeAddress a) with
  | Err _ => None
  | Ok validated =>
      if negb (String.eqb (pr_Digest validated) (PlanDigest a)) || negb (String.eqb (pr_FeeZat validated) (FeeZat a))
         || negb (pr_ExpiryHeight validated =? ExpiryHeight a)
         || negb (sameStringSet (pr_SelectedNoteIDs validated) (SelectedNoteIDs a))
      then None else Some validated
  end.

(** What follows a failed signer call. *)
Definition signer_failed (uncertainBeforeCall : bool) (attemptID : string) (signErr : error) : S bool :=
  let '(code, message, retryable, unknown) :=
    default ("signer_unavailable", "signer result is unknown; notes remain reserved", true, true)%string
            (as_operation signErr) in
  if uncertainBeforeCall || unknown
  then _ ← markSigningUnknown attemptID code message retryable; mret false
  else if (retryable : bool)
  then _ ← mark attemptID reserved code message true false; mret false
  else _ ← mark attemptID failed_unsigned code message false true; mret false.

(** The action indices of the approved outputs.  The slice expression needs
    [len(planOutputs) <= len(indices)]; [approved_in_range] shows it holds. *)
Definition approvedIndices (request : CreateRequest) (changeAddress : string) (r : signerResult) : list Z :=
  take (length (planOutputs request changeAddress)) (sr_OutputIndices r).

Definition signAttempt (initial : TransactionAttempt) : S bool :=
  let uncertainBeforeCall := bool_decide (State initial = signing) || bool_decide (State initial = signing_unknown) in
  match decodeRequest initial with
  | Err e =>
      _ ← markSigningUnknown (AttemptID initial) "stored_request_invalid" (error_text e) false; mret false
  | Ok (request, wallet) =>
      match stored_plan request wallet initial with
      | None =>
          if bool_decide (State initial = reserved)
          then _ ← failUnsigned (AttemptID initial) "stored_plan_invalid" "reserved TxPlan failed integrity validation";
               mret false
          else _ ← markSigningUnknown (AttemptID initial) "stored_plan_invalid"
                     "TxPlan integrity failed after signing may have begun" false;
               mret false
      | Some validated =>
          begun ← store_call (fun now => BeginAttemptSigning (AttemptID initial) now);
          match begun with
          | Err _ => mret false
          | Ok signing_ =>
              answer ← ask (fun n => signer_Sign n (AttemptID signing_) (with_bytes validated (PlanJSON signing_)));
              match answer with
              | Err signErr => signer_failed uncertainBeforeCall (AttemptID signing_) signErr
              | Ok r =>
                  match validateSignerResult r (pr_OutputCount validated) with
                  | Err e => _ ← markSigningUnknown (AttemptID signing_) "signer_invalid_response" (error_text e) true;
                             mret false
                  | Ok _ =>
                      done_ ← store_call (fun now => CompleteAttemptSigning (AttemptID signing_) (sr_TxID r)
                                (sr_RawTxHex r) (sr_FeeZat r) (approvedIndices request (ChangeAddress initial) r)
                                (sr_ChangeIndex r) now);
                      mret (is_ok done_)
                  end
              end
          end
      end
  end.

(** * Reconciliation *)

Definition pastExpiry (attempt : TransactionAttempt) : S bool :=
  if negb (valid_expiry (ExpiryHeight attempt)) then mret false
  else
    answer ← ask node_Tip;
    mret (match good_tip cfg answer with
          | Some tip => ExpiryHeight attempt <? tip_Height tip
          | None => false
          end).

Definition healthy_at (health : ScannerHealth) (tip : NodeTip) : bool :=
  String.eqb (health_Status health) "ok" && String.eqb (health_Network health) (network cfg)
  && String.eqb (health_UAHRP health) (AddressHRP (Config.Network cfg))
  && bool_decide (health_Ready health = Some true)
  && bool_decide (health_Confirmations health = Some (DefaultConfirmations cfg))
  && bool_decide (health_HistoryComplete health = Some true)
  && bool_decide (health_PendingSpendsReady health = Some true)
  && bool_decide (health_ScannedHeight health = Some (tip_Height tip))
  && String.eqb (health_ScannedHash health) (tip_Hash tip).

Definition scannerProof (attempt : TransactionAttempt) : S (option (NodeTip * WalletNoteStatuses)) :=
  answer ← ask node_Tip;
  match good_tip cfg answer with
  | None => mret None
  | Some tip =>
      health ← ask scanner_Health;
      match health with
      | Err _ => mret None
      | Ok health =>
          if negb (healthy_at health tip) then mret None
          else
            answer ← ask (fun n => scanner_NoteStatuses n (WalletID attempt) (SelectedNoteIDs attempt));
            mret (match answer with
                  | Ok (Some statuses) =>
                      if negb (WalletNoteStatuses_ValidFor statuses (WalletID attempt) (SelectedNoteIDs attempt))
                         || negb (wns_AsOfScannerHeight statuses =? tip_Height tip)
                         || negb (String.eqb (wns_AsOfScannerHash statuses) (tip_Hash tip))
                      then None else Some (tip, statuses)
                  | _ => None
                  end)
      end
  end.

Definition spent_by (txid : string) (s : NoteStatus) : bool :=
  bool_decide (ns_State s = NoteSpent) && bool_decide (ns_SpentTxID s = Some txid)
  && negb (is_none (ns_SpentHeight s)) && negb (is_none (ns_SpentConfirmedHeight s)).

Definition reconcileFinal (attempt : TransactionAttempt) : S unit :=
  proof ← scannerProof attempt;
  match proof with
  | None => mret tt
  | Some (_, statuses) =>
      if forallb (spent_by (TxID attempt)) (wns_Statuses statuses)
      then transition attempt final true else mret tt
  end.

Definition reconcileExpired (attempt : TransactionAttempt) : S unit :=
  if negb (valid_expiry (ExpiryHeight attempt)) then mret tt
  else
    proof ← scannerProof attempt;
    match proof with
    | None => mret tt
    | Some (tip, statuses) =>
        if tip_Height tip <? add64 (ExpiryHeight attempt) (DefaultConfirmations cfg) then mret tt
        else if forallb (fun s => bool_decide (ns_State s = NoteUnspent)) (wns_Statuses statuses)
        then transition attempt released true else mret tt
    end.

(** [attempt.State = s] on the local copy. *)
Definition in_state (a : TransactionAttempt) (s : AttemptState) : TransactionAttempt := with_state a s (UpdatedAt a).

(** The move to [expired_pending_reconciliation] and what follows it. *)
Definition expire (attempt : TransactionAttempt) : S unit :=
  _ ← transition attempt expired_pending_reconciliation false;
  reconcileExpired (in_state attempt expired_pending_reconciliation).

Definition reconcileAttempt (attempt : TransactionAttempt) : S unit :=
  answer ← ask (fun n => node_Transaction n (TxID attempt) false);
  match answer with
  | Err _ => mret tt
  | Ok (Some tx) =>
      if String.eqb (tx_State tx) "mempool" then
        past ← pastExpiry attempt;
        if (past : bool) then expire attempt else transition attempt broadcast false
      else if String.eqb (tx_State tx) "confirmed" then
        if DefaultConfirmations cfg <=? tx_Confirmations tx then reconcileFinal attempt
        else transition attempt mined false
      else if String.eqb (tx_State tx) "orphaned" then
        _ ← transition attempt orphaned false;
        past ← pastExpiry (in_state attempt orphaned);
        if (past : bool) then expire (in_state attempt orphaned) else reconcileExpired (in_state attempt orphaned)
      else if String.eqb (tx_State tx) "expired" then expire attempt
      else mret tt
  | Ok None =>
      past ← pastExpiry attempt;
      if (past : bool) then expire attempt else reconcileExpired attempt
  end.

(** * The worker *)

(** [ctx_done n] is [ctx.Err() != nil]. *)
Fixpoint transitions (fuel : nat) (attemptID : string) : S unit :=
  match fuel with
  | O => mret tt
  | Datatypes.S fuel' =>
      stop ← ask ctx_done;
      if (stop : bool) then mret tt
      else
        answer ← store_call (fun _ => Attempts.Attempt attemptID);
        match answer with
        | Err _ | Ok None => mret tt
        | Ok (Some attempt) =>
            match State attempt with
            | planning =>
                more ← planAttempt attempt;
                if (more : bool) then transitions fuel' attemptID else mret tt
            | reserved | signing | signing_unknown =>
                more ← signAttempt attempt;
                if (more : bool) then transitions fuel' attemptID else mret tt
            | signed | broadcast | mined | expired_pending_reconciliation | orphaned =>
                reconcileAttempt attempt
            | _ => mret tt
            end
        end
  end.

Definition process (attemptID : string) : S unit :=
  unsealed ← requireAutomationUnsealed;
  match unsealed with
  | Err _ => mret tt
  | Ok _ => transitions 3 attemptID
  end.

Definition beginAttempt (attemptID : string) : S bool := fun w =>
  if decide (attemptID ∈ inflight w) then (false, w)
  else (true, set_inflight w ({[attemptID]} ∪ inflight w)).

Definition endAttempt (attemptID : string) : S unit := fun w =>
  (tt, set_inflight w (inflight w ∖ {[attemptID]})).

(** One receive of [worker]'s loop. *)
Definition worker_step : S unit := fun w =>
  match queue w with
  | [] => (tt, w)
  | attemptID :: rest =>
      (begun ← beginAttempt attemptID;
       if (begun : bool) then _ ← process attemptID; endAttempt attemptID else mret tt) (set_queue w rest)
  end.

(** * The recovery scan *)

Definition advance_after (id : string) : S unit := fun w => (tt, set_after w id).

(** The loop over the page, with the number of attempts processed so far. *)
Fixpoint schedule (processed : Z) (values : list TransactionAttempt) : S Z :=
  match values with
  | [] => mret processed
  | value :: rest =>
      now ← ask port_clock;
      if negb (retryDue now value)
      then _ ← advance_after (AttemptID value); schedule (processed + 1) rest
      else
        queued ← enqueue (AttemptID value);
        if negb queued then mret processed
        else _ ← advance_after (AttemptID value); schedule (processed + 1) rest
  end.

Definition scheduleRecoverable : S unit :=
  unsealed ← requireAutomationUnsealed;
  match unsealed with
  | Err _ => mret tt
  | Ok _ =>
      scan ← (fun w => ((recoveryAfter w, Z.of_nat (length (queue w))), w));
      let '(after, queued) := (scan : string * Z) in
      let available := recoveryBatchSize - queued in
      if available <? 1 then mret tt
      else
        let limit := Z.min recoveryBatchSize available in
        answer ← store_call (fun _ => RecoverableAttempts after limit);
        match answer with
        | Err _ => mret tt
        | Ok [] => advance_after ""
        | Ok values =>
            processed ← schedule 0 values;
            if (processed =? Z.of_nat (length values)) && (Z.of_nat (length values) <? limit)
            then advance_after "" else mret tt
        end
  end.
End worker.
