(* ===== verification/Demo.v ===== *)
(** A concrete world around the coordinator, for the witnesses: one wallet, a
    planner that answers with one plan, a signer given as an argument, no
    interference and no driver failures. *)
From S2P Require Import Prelude Tx GoString GoTime Sha256 Domain Config Database Attempts Wallets Journal Request Signer Coordinator Service Worker.

Definition demo_cfg : Config.Config := Eval vm_compute in
  match Config.Validate Config.demo_url_Parse Config.demo_config with Ok c => c | Err _ => Config.demo_config end.

Definition hash_a : string := "00000000000000000000000000000000000000000000000000000000000000aa".

Definition demo_tip (height : Z) : NodeTip :=
  {| tip_Network := "main"; tip_Height := height; tip_Hash := hash_a; tip_BlockTime := 0; tip_Headers := height;
     tip_InitialBlockDownload := false; tip_VerificationProgress := SpecFloat.S754_zero false |}.

Definition demo_health (height : Z) : ScannerHealth :=
  {| health_Status := "ok"; health_Network := "mainnet"; health_UAHRP := AddressHRP Mainnet;
     health_Confirmations := Some 10; health_EventEpoch := hash_a; health_Ready := Some true;
     health_NodeHeight := Some height; health_ScannedHeight := Some height; health_ScannedHash := hash_a;
     health_ScannerLag := Some 0; health_MaxReadyLag := Some 1; health_HistoryComplete := Some true;
     health_PendingSpendsReady := Some true |}.

Definition demo_status (id : string) : NoteStatus :=
  {| ns_NoteID := id; ns_State := NoteUnspent; ns_SourceHeight := Some 1; ns_ValueZat := Some 5;
     ns_PendingSpentTxID := None; ns_PendingSpentAt := None; ns_PendingSpentExpiryHeight := None;
     ns_SpentTxID := None; ns_SpentHeight := None; ns_SpentConfirmedHeight := None |}.

Definition demo_statuses (height : Z) (ids : list string) : WalletNoteStatuses :=
  {| wns_WalletID := "hot"; wns_EventEpoch := hash_a; wns_AsOfScannerHeight := height;
     wns_AsOfScannerHash := hash_a; wns_Statuses := map demo_status ids |}.

Definition demo_plan_result : planResult :=
  match validatePlan demo_raw demo_normalized the_wallet Mainnet "j1change" with
  | Ok p => p
  | Err _ => {| pr_Bytes := ""; pr_Digest := ""; pr_FeeZat := ""; pr_ExpiryHeight := 0;
                pr_SelectedNoteIDs := []; pr_OutputCount := 0 |}
  end.

Definition demo_signature (plan : planResult) : signerResult :=
  {| sr_TxID := hash_a; sr_RawTxHex := "00ff"; sr_FeeZat := pr_FeeZat plan; sr_OutputIndices := [2; 0; 1];
     sr_ChangeIndex := Some 3; sr_Replay := false |}.

(** The chain at [height] and the signer [sign]; the deriver gives one address. *)
Definition demo_ports (height : Z) (sign : string -> planResult -> result signerResult) : Ports := {|
  interfere := fun _ d => d;
  port_io := fun _ => [];
  port_clock := fun n => 1000 + Z.of_nat n;
  ctx_done := fun _ => false;
  random16 := fun _ => Ok "0123456789abcdef"%string;
  node_Tip := fun _ => Ok (demo_tip height);
  node_Transaction := fun _ _ _ => Ok None;
  scanner_Health := fun _ => Ok (demo_health height);
  scanner_NoteStatuses := fun _ _ ids => Ok (Some (demo_statuses height ids));
  scanner_NoteSummary := fun _ _ _ _ _ => Ok None;
  allocate := fun n wallet label d =>
    AllocateAddress wallet label (Some (fun _ => Ok "j1change"%string)) (Z.of_nat n) [] d;
  planner_Plan := fun _ _ _ _ _ _ => Ok demo_plan_result;
  signer_Sign := fun _ => sign;
  signer_Healthy := fun _ => Ok tt;
  txbuild_executable := fun _ => true
|}.

Definition signs (attemptID : string) (plan : planResult) : result signerResult := Ok (demo_signature plan).
Definition times_out (attemptID : string) (plan : planResult) : result signerResult :=
  Err (OperationError "signer_timeout" "signer did not answer" true true).

Definition demo_tables : db :=
  run_ops [(OpEnsureWallet "hot" "mainnet" fp_a 100 1, [])] (empty_db true).

Definition demo_svc (d : db) : svc :=
  {| tables := d; queue := []; inflight := ∅; recoveryAfter := ""; tick := 0 |}.

Lemma demo_tables_reachable : reachable "mainnet" demo_tables.
Proof. exists true. apply run_ops_steps. exact (conj Logic.I Logic.I). Qed.

Lemma demo_tables_steps d : steps "mainnet" d d.
Proof. constructor. Qed.

Lemma demo_allocate_steps height sign n wallet label d :
  steps "mainnet" d (allocate (Ports := demo_ports height sign) n wallet label d).2.
Proof.
  eapply steps_step; [|constructor].
  exact (step_op "mainnet" (OpAllocateAddress wallet label (Some (fun _ => Ok "j1change"%string)) (Z.of_nat n)) [] d Logic.I).
Qed.

Definition the_id : string := "txn_30313233343536373839616263646566".

(** A request created, then signed; or created, and its signer lost. *)
Definition demo_created : svc := Eval vm_compute in
  (Create (H := demo_ports 500 signs) demo_cfg "ops" "key-0000000001" demo_request (demo_svc demo_tables)).2.
Definition demo_signed : svc := Eval vm_compute in (worker_step (H := demo_ports 500 signs) demo_cfg demo_created).2.
Definition demo_unknown : svc := Eval vm_compute in (worker_step (H := demo_ports 500 times_out) demo_cfg demo_created).2.

Definition state_of (w : svc) : option AttemptState := a_state <$> db_attempts (tables w) !! the_id.
