(* ===== verification/Unmatched.v ===== *)
(** A signature that the coordinator cannot match to its plan: the attempt goes back
    among the cancellable ones, although the signer may have signed it. *)
From S2P Require Import Prelude Tx GoString GoTime Sha256 Json Exchange Domain Config Database Attempts Wallets Journal Request Signer Coordinator Service Worker Demo.

(** * Answers that do not match *)

(** An answer with HTTP 200 that [Sign] takes for no signature of the plan: it is too
    long, no envelope of version 1, or says "ok" of something else. *)
Definition unmatched (attemptID : string) (plan : planResult) (resp : http_response) : Prop :=
  StatusCode resp = 200 /\ exists body, read_limited (bodyLimit + 1) (Body resp) = Ok body /\
    (bodyLimit < len body \/ Unmarshal_envelope body = None \/
     exists e, Unmarshal_envelope body = Some e /\ (env_Version e <> "v1"%string \/
       env_Status e = "ok"%string /\ (matches_plan attemptID plan e = false \/ hex_ok (env_RawTxHex e) = false))).

Lemma Sign_unmatched Do attemptID plan resp : Do (sign_payload attemptID plan) = Ok resp -> unmatched attemptID plan resp ->
  exists message, Sign Do attemptID plan = Err (OperationError "signer_invalid_response" message true false).
Proof.
  intros Hdo (H200 & body & Hb & Hbad). unfold Sign, opError. rewrite Hdo, Hb.
  destruct (Z.ltb_spec bodyLimit (len body)) as [|Hlen]; [by eexists|].
  destruct Hbad as [Hbad|[->|(e & -> & Hbad)]]; [lia|by eexists|].
  destruct (String.eqb_spec (env_Version e) "v1") as [Hv|Hv]; [|by eexists]. destruct Hbad as [Hbad|[Hok Hbad]]; [done|].
  rewrite H200, Hok. cbn [negb Z.eqb Pos.eqb orb String.eqb Ascii.eqb Bool.eqb].
  destruct (matches_plan attemptID plan e); [|by eexists]. destruct Hbad as [| ->]; [done|by eexists].
Qed.

(** * Operations of the journal without failures *)

Section journal.
Context (id : string) (now : time) (d : db) (row : attempt_row) (Hrow : db_attempts d !! id = Some row).

Lemma updated cond f : cond row = true -> update_attempt id cond f d = Ok (1, put_attempt d id (f row)).
Proof. intros Hc. unfold update_attempt. by rewrite Hrow, Hc. Qed.

Lemma event_recorded d' state detail : is_Some (db_attempts d' !! id) ->
  insertAttemptEvent id state detail now [] d' = Ok (tt, [], log_event d' id state detail now).
Proof.
  intros [r Hr]. unfold insertAttemptEvent, stmt, driver. rewrite Hr, bool_decide_false by done. by rewrite andb_false_r.
Qed.

Lemma put_present r : is_Some (db_attempts (put_attempt d id r) !! id).
Proof. unfold put_attempt. cbn. rewrite lookup_insert_eq. by eexists. Qed.

Lemma Attempt_runs a : scanAttempt id row = Ok a -> Attempt id [] d = (Ok (Some a), d).
Proof. intros Ha. unfold Attempt, run_auto, query_opt, row_of. cbn [driver]. rewrite Hrow. cbn [mbind result_bind]. by rewrite Ha. Qed.

Lemma Begin_runs a : a_state row = reserved -> scanAttempt id row = Ok a ->
  BeginAttemptSigning id now [] d =
    (Ok (with_state a signing now), log_event (put_attempt d id (set_state signing None None false now row)) id signing None now).
Proof.
  intros Hs Ha. pose proof (scanAttempt_fields _ _ _ Ha) as (_ & Hst & _). rewrite Hs in Hst.
  unfold BeginAttemptSigning. rewrite run_tx_no_faults. unfold mbind, m_bind, query, stmt, row_of. cbn [driver].
  rewrite Hrow. cbn [mbind result_bind]. rewrite Ha. cbn [mbind result_bind]. rewrite Hst.
  rewrite updated by (by rewrite Hs). cbn -[insertAttemptEvent put_attempt log_event].
  by rewrite event_recorded by apply put_present.
Qed.

Lemma Mark_runs code message retryable : a_state row = signing ->
  MarkAttemptState id reserved code message retryable false now [] d =
    (Ok tt, log_event (put_attempt d id (set_state reserved (nullableString code) (nullableString message) retryable now row))
              id reserved (Some (code, retryable)) now).
Proof.
  intros Hs. unfold MarkAttemptState. rewrite bool_decide_false by done. rewrite run_tx_no_faults.
  unfold mbind, m_bind, query, stmt, row_of. cbn [driver]. rewrite Hrow. cbn [mbind result_bind]. rewrite Hs.
  rewrite (bool_decide_false (signing = reserved)) by done.
  assert (allowedAttemptTransition signing reserved = true) as -> by done. cbn -[insertAttemptEvent put_attempt log_event update_attempt].
  rewrite updated by done. by rewrite event_recorded by apply put_present.
Qed.

Lemma Cancel_runs a : a_state row = reserved -> scanAttempt id row = Ok a ->
  CancelAttempt id now [] d =
    (Ok (with_state a cancelled now),
     log_event (put_attempt (drop_reservations d id) id (set_state cancelled None None false now row)) id cancelled None now).
Proof.
  intros Hs Ha. pose proof (scanAttempt_fields _ _ _ Ha) as (_ & Hst & _). rewrite Hs in Hst.
  unfold CancelAttempt. rewrite run_tx_no_faults. unfold mbind, m_bind, query, stmt, row_of. cbn [driver].
  rewrite Hrow. cbn [mbind result_bind]. rewrite Ha. cbn [mbind result_bind]. rewrite Hst.
  rewrite (bool_decide_false (reserved = cancelled)), (bool_decide_false (reserved = planning)), bool_decide_true by done.
  cbn -[insertAttemptEvent put_attempt log_event update_attempt drop_reservations].
  change (set_reservations d _) with (drop_reservations d id). unfold update_attempt at 1.
  change (db_attempts (drop_reservations d id)) with (db_attempts d). rewrite Hrow, Hs, bool_decide_true by done.
  cbn -[insertAttemptEvent put_attempt log_event drop_reservations].
  change (set_attempts _ _) with (put_attempt (drop_reservations d id) id (set_state cancelled None None false now row)).
  rewrite event_recorded by (cbn; rewrite lookup_insert_eq; by eexists). done.
Qed.
End journal.

(** * A run of a worker, and a cancellation *)

Section run.
Context `{Ports} (cfg : Config.Config).

(** No one else touches the tables, the driver does not fail, and the service is not
    stopped. *)
Record calm : Prop := {
  calm_others : forall n d, interfere n d = d;
  calm_driver : forall n, port_io n = [];
  calm_context : forall n, ctx_done n = false
}.

(** The attempt is reserved, its request and its plan are intact, and the coordinator
    is not sealed. *)
Record signable (id : string) (d : db) (row : attempt_row) (a : TransactionAttempt) (request : CreateRequest)
    (wallet : Config.Wallet) (plan : planResult) : Prop := {
  sg_row : db_attempts d !! id = Some row;
  sg_state : a_state row = reserved;
  sg_attempt : scanAttempt id row = Ok a;
  sg_request : decodeRequest cfg a = Ok (request, wallet);
  sg_plan : stored_plan cfg request wallet a = Some plan;
  sg_unsealed : db_metadata d !! "coordinator_recovery_seal"%string = None
}.

Context (Hcalm : calm).

Lemma calm_store {A} (f : time -> faults -> db -> A * db) w a d :
  f (port_clock (tick w)) [] (tables w) = (a, d) -> store_call f w = (a, set_tables w d).
Proof. intros Hf. unfold store_call. by rewrite (calm_others Hcalm), (calm_driver Hcalm), Hf. Qed.

Lemma unsealed_runs w : db_metadata (tables w) !! "coordinator_recovery_seal"%string = None ->
  requireAutomationUnsealed w = (Ok tt, next_tick w).
Proof.
  intros Hs. unfold requireAutomationUnsealed, mbind, s_bind.
  rewrite (calm_store _ w (Ok false) (tables w)); [done|].
  unfold CoordinatorRecoverySealed, run_auto, mbind, m_bind, query_opt, select_metadata, row_of. cbn. by rewrite Hs.
Qed.

(** The attempt as signing began, and as it is given back. *)
Definition began (now : time) (row : attempt_row) : attempt_row := set_state signing None None false now row.
Definition given_back (message : string) (now : time) (row : attempt_row) : attempt_row :=
  set_state reserved (nullableString "signer_invalid_response") (nullableString message) true now row.

Context (id : string) (row : attempt_row) (a : TransactionAttempt) (request : CreateRequest) (wallet : Config.Wallet)
  (plan : planResult).
Context (Do : nat -> string -> result http_response).
Context (Hsigner : forall n attemptID p, signer_Sign n attemptID p = Sign (Do n) attemptID p).
Context (Hbad : forall n, exists resp, Do n (sign_payload id (with_bytes plan (PlanJSON a))) = Ok resp /\
  unmatched id (with_bytes plan (PlanJSON a)) resp).

Lemma sign_unmatched w : signable id (tables w) row a request wallet plan ->
  exists message t t' w', signAttempt cfg a w = (false, w') /\
    db_attempts (tables w') !! id = Some (given_back message t' (began t row)) /\
    db_reservations (tables w') = db_reservations (tables w).
Proof.
  intros []. pose proof (scanAttempt_fields _ _ _ sg_attempt0) as (Hid & Hst & _). rewrite sg_state0 in Hst.
  unfold signAttempt. rewrite Hst, sg_request0, sg_plan0, Hid. unfold mbind at 1, s_bind at 1.
  erewrite calm_store by (by eapply Begin_runs). unfold ask. set (w1 := set_tables w _).
  change (AttemptID (with_state a signing _)) with (AttemptID a). change (PlanJSON (with_state a signing _)) with (PlanJSON a).
  rewrite Hid. unfold mbind at 1, s_bind at 1. rewrite Hsigner.
  destruct (Hbad (tick w1)) as (resp & Hdo & Hun). destruct (Sign_unmatched _ _ _ _ Hdo Hun) as [message ->].
  assert (Hr1 : db_attempts (tables (next_tick w1)) !! id = Some (began (port_clock (tick w)) row))
    by (cbn; by rewrite lookup_insert_eq).
  unfold signer_failed. rewrite !bool_decide_false by done. cbn [as_operation default from_option Datatypes.id orb]. unfold mark, mbind, s_bind.
  erewrite calm_store by (by eapply Mark_runs). exists message, (port_clock (tick w)), (port_clock (tick (next_tick w1))). eexists.
  split; [reflexivity|]. split; [|done]. cbn. by rewrite lookup_insert_eq.
Qed.

Lemma process_unmatched w : signable id (tables w) row a request wallet plan ->
  exists message t t', db_attempts (tables (process cfg id w).2) !! id = Some (given_back message t' (began t row)) /\
    db_reservations (tables (process cfg id w).2) = db_reservations (tables w).
Proof.
  intros Hs. pose proof Hs as [Hrow Hst Ha _ _ Hun]. pose proof (scanAttempt_fields _ _ _ Ha) as (_ & Hsta & _).
  rewrite Hst in Hsta. unfold process. unfold mbind, s_bind. rewrite unsealed_runs by done. cbn [transitions].
  unfold mbind, s_bind, ask. rewrite (calm_context Hcalm). set (w1 := next_tick (next_tick w)).
  rewrite (calm_store _ w1 (Ok (Some a)) (tables w1)) by (by apply Attempt_runs with row). rewrite Hsta.
  destruct (sign_unmatched (set_tables w1 (tables w1)) Hs) as (message & t & t' & w' & -> & Hr & Hres). cbn [snd].
  by exists message, t, t'.
Qed.

Lemma Cancel_given_back w message t t' : scanAttempt id row = Ok a -> attemptIDRE id = true ->
  db_attempts (tables w) !! id = Some (given_back message t' (began t row)) ->
  let c := Cancel (a_principal_name row) id w in
  is_ok c.1 = true /\ (exists row2, db_attempts (tables c.2) !! id = Some row2 /\ a_state row2 = cancelled) /\
  forall k, holder (tables c.2) k <> Some id.
Proof.
  intros Ha Hid Hrow. unfold scanAttempt in Ha. apply result_bind_ok in Ha as (change & Hchange & _).
  assert (Ha' : exists a', scanAttempt id (given_back message t' (began t row)) = Ok a' /\ PrincipalName a' = a_principal_name row).
  { unfold scanAttempt. cbn [a_change_action_index given_back began set_state]. rewrite Hchange. by eexists. }
  destruct Ha' as (a' & Ha' & Hp). unfold Cancel, owned_attempt. rewrite Hid. cbn [negb]. unfold mbind, s_bind.
  rewrite (calm_store _ w _ _ (Attempt_runs id (tables w) _ Hrow a' Ha')). rewrite Hp, String.eqb_refl. cbn [negb].
  unfold mret, s_ret. set (w1 := set_tables w (tables w)).
  rewrite (calm_store (fun now => CancelAttempt id now) w1 _ _ (Cancel_runs id (port_clock (tick w1)) (tables w1) _ Hrow a' eq_refl Ha')).
  cbn [fst snd tables set_tables]. split; [done|]. split.
  - eexists. cbn. rewrite lookup_insert_eq. by split.
  - intros k. unfold holder. cbn. rewrite map_lookup_filter. destruct (db_reservations (tables w) !! k) as [r|]; [|done]. cbn.
    case_guard as Hne; [|done]. cbn. congruence.
Qed.
End run.

(** C23: whatever a signer answers with HTTP 200 that the coordinator cannot match to
    the plan (it may well be a signed transaction that spends the notes), a worker
    leaves the attempt reserved with its notes, as if the signer had not been called;
    its owner can then cancel it, which gives the notes back.  When nothing else
    happens to the attempt and no call fails. *)
Theorem mismatched_signature_is_cancellable `{Ports} cfg id w row a request wallet plan Do :
  calm -> signable cfg id (tables w) row a request wallet plan -> attemptIDRE id = true ->
  (forall n attemptID p, signer_Sign n attemptID p = Sign (Do n) attemptID p) ->
  (forall n, exists resp, Do n (sign_payload id (with_bytes plan (PlanJSON a))) = Ok resp /\
     unmatched id (with_bytes plan (PlanJSON a)) resp) ->
  let w1 := (process cfg id w).2 in let c := Cancel (a_principal_name row) id w1 in
  (exists row1, db_attempts (tables w1) !! id = Some row1 /\ a_state row1 = reserved) /\
  db_reservations (tables w1) = db_reservations (tables w) /\
  is_ok c.1 = true /\ (exists row2, db_attempts (tables c.2) !! id = Some row2 /\ a_state row2 = cancelled) /\
  forall k, holder (tables c.2) k <> Some id.
Proof.
  intros Hcalm Hs Hid Hsigner Hbad w1 c.
  destruct (process_unmatched cfg Hcalm id row a request wallet plan Do Hsigner Hbad w Hs) as (message & t & t' & Hr & Hres).
  split; [by eexists|]. split; [exact Hres|]. by eapply (Cancel_given_back Hcalm id row a w1); [apply Hs|..].
Qed.

(** * A signature with another digest *)

Definition other_digest : string := Marshal (JObject
  [("version", JString "v1"); ("status", JString "ok");
   ("data", JObject [("attempt_id", JString the_id); ("plan_digest", JString "sha256:other");
      ("replayed", JBool false); ("txid", JString hash_a); ("raw_tx_hex", JString "00ff");
      ("fee_zat", JString "10"); ("orchard_output_action_indices", JArray [JInt 0; JInt 1; JInt 2])])]%string).

Definition answers_other_digest (payload : string) : result http_response := Ok {| StatusCode := 200; Body := Ok other_digest |}.

(** The attempt of [Demo], planned, whose signer answered so once already. *)
#[local] Instance mismatching : Ports := demo_ports 500 (Sign answers_other_digest).
Definition demo_planned : svc := Eval vm_compute in (worker_step demo_cfg demo_created).2.

Lemma demo_signer (n : nat) attemptID p : signer_Sign n attemptID p = Sign answers_other_digest attemptID p.
Proof. cbv beta iota delta [signer_Sign mismatching demo_ports]. reflexivity. Qed.

Lemma demo_calm : calm.
Proof. by split. Qed.

Lemma demo_signable : exists row a request wallet plan,
  signable demo_cfg the_id (tables demo_planned) row a request wallet plan /\
  unmatched the_id (with_bytes plan (PlanJSON a)) {| StatusCode := 200; Body := Ok other_digest |}.
Proof.
  assert (Hall : match db_attempts (tables demo_planned) !! the_id, Unmarshal_envelope other_digest with
    | Some row, Some e =>
        bool_decide (a_state row = reserved) && String.eqb (env_Status e) "ok" &&
        match scanAttempt the_id row with
        | Ok a => match decodeRequest demo_cfg a with
                  | Ok (request, wallet) =>
                      match stored_plan demo_cfg request wallet a with
                      | Some plan => negb (matches_plan the_id (with_bytes plan (PlanJSON a)) e)
                      | None => false
                      end
                  | Err _ => false
                  end
        | Err _ => false
        end
    | _, _ => false
    end = true) by (vm_compute; reflexivity).
  destruct (db_attempts (tables demo_planned) !! the_id) as [row|] eqn:Hrow; [|discriminate Hall].
  destruct (Unmarshal_envelope other_digest) as [e|] eqn:He; [|discriminate Hall].
  apply andb_prop in Hall as [[Hst Hok]%andb_prop Hall]. apply bool_decide_eq_true in Hst. apply String.eqb_eq in Hok.
  destruct (scanAttempt the_id row) as [a|] eqn:Ha; [|discriminate Hall].
  destruct (decodeRequest demo_cfg a) as [[request wallet]|] eqn:Hreq; [|discriminate Hall].
  destruct (stored_plan demo_cfg request wallet a) as [plan|] eqn:Hplan; [|discriminate Hall].
  apply negb_true_iff in Hall. exists row, a, request, wallet, plan. split; [by split|].
  split; [done|]. exists other_digest. split; [vm_compute; reflexivity|]. right. right. exists e. split; [exact He|].
  right. split; [exact Hok|]. by left.
Qed.

Lemma mismatched_signature_is_cancellable_witness :
  exists row, let c := Cancel (a_principal_name row) the_id (process demo_cfg the_id demo_planned).2 in
    db_attempts (tables demo_planned) !! the_id = Some row /\ is_ok c.1 = true /\
    holder (tables c.2) ("mainnet", "hot", note_a)%string <> Some the_id.
Proof.
  assert (Hid : attemptIDRE the_id = true) by (vm_compute; reflexivity).
  assert (Hans : forall p, answers_other_digest p = Ok {| StatusCode := 200; Body := Ok other_digest |}) by reflexivity.
  destruct demo_signable as (row & a & request & wallet & plan & Hs & Hun).
  destruct (mismatched_signature_is_cancellable demo_cfg the_id demo_planned row a request wallet plan
              (fun _ => answers_other_digest) demo_calm Hs Hid demo_signer
              (fun _ => ex_intro _ _ (conj (Hans _) Hun))) as (_ & _ & Hok & _ & Hfree).
  exists row. exact (conj (sg_row _ _ _ _ _ _ _ _ Hs) (conj Hok (Hfree _))).
Defined.
