(* ===== verification/Stored.v ===== *)
(** What the coordinator stores of a request is what its worker reads back: the
    canonical JSON that [Create] writes ([Request.v]) is decoded and checked by
    [decodeRequest] ([Worker.v]) to the request it was made from. *)
From S2P Require Import Prelude GoString GoTime Sha256 Json Domain Config Database Attempts Wallets Journal Request Signer Coordinator Service Worker Demo.

(** * The canonical JSON *)

Definition output_text (o : Output) : bool :=
  utf8_string (ToAddress o) && utf8_string (AmountZat o) && utf8_string (MemoHex o).

(** The strings of a request are valid UTF-8, as those decoded from JSON are. *)
Definition request_text (r : CreateRequest) : bool :=
  utf8_string (rq_WalletID r) && utf8_string (rq_ApprovalReference r) && forallb output_text (Outputs r)
  && match RequestSplit r with Some s => utf8_string (NoteZat s) | None => true end.

Lemma output_json_printable o : output_text o = true -> printable (output_json o) = true /\ depth (output_json o) = 1.
Proof.
  unfold output_text. intros H. bool_to_prop. unfold output_json, omit_empty.
  destruct (String.eqb (MemoHex o) ""); cbn [app printable forallb fst snd depth map foldr andb]; split; try done;
    repeat match goal with H : utf8_string _ = true |- _ => rewrite H end; done.
Qed.

Lemma outputs_json_printable l : forallb output_text l = true ->
  forallb printable (map output_json l) = true /\ foldr Z.max 0 (map depth (map output_json l)) <= 1.
Proof.
  induction l as [|o l IH]; cbn [map forallb foldr]; [lia|]. intros [Ho Hl]%andb_prop.
  destruct (output_json_printable o Ho) as [-> ->], (IH Hl) as [-> ?]. split; [done|lia].
Qed.

Lemma request_json_printable r : request_text r = true ->
  printable (request_json r) = true /\ depth (request_json r) <= 10000.
Proof.
  destruct r as [w a l s]. unfold request_text, request_json. cbn [rq_WalletID rq_ApprovalReference Outputs RequestSplit].
  intros H. bool_to_prop. destruct (outputs_json_printable l ltac:(done)) as [Hl Hd].
  assert (Hp : printable (JArray (map output_json l)) = true /\ depth (JArray (map output_json l)) <= 2)
    by (cbn [printable depth]; split; [done|lia]). destruct Hp as [Hp Hd'].
  destruct l as [|o l]; [|revert Hp Hd'; generalize (JArray (map output_json (o :: l))); intros j Hp Hd'];
    destruct s as [[n z]|]; cbn [app printable forallb fst snd depth map foldr andb split_json JInt NoteCount NoteZat];
    cbn [NoteZat] in *; rewrite ?number_literal_pretty, ?Hp; repeat match goal with H : utf8_string _ = true |- _ => rewrite H end;
    split; try done; lia.
Qed.

Section decoding.
Context (strict : bool).

Lemma into_output_json o : into_output strict (output_json o) no_output = Some o.
Proof.
  destruct o as [a z m]. unfold output_json, omit_empty. cbn [ToAddress AmountZat MemoHex].
  destruct strict, (String.eqb_spec m "") as [->|]; done.
Qed.

Lemma into_outputs_json l :
  into_elements (into_output strict) no_output (map output_json l) [] = Some l.
Proof. induction l as [|o l IH]; [done|]. cbn [map into_elements head tail]. cbn [default].
  rewrite into_output_json. cbn [mbind option_bind]. change (tail []) with (@nil Output). by rewrite IH.
Qed.

Lemma into_split_json s : int64 (NoteCount s) -> into_split strict (split_json s) zero_split = Some s.
Proof.
  destruct s as [n z]. cbn [NoteCount]. intros Hn%ParseInt_pretty.
  assert (Hi : into_int64 (JInt n) 0 = Some n) by exact Hn. revert Hi. unfold split_json. cbn [NoteCount NoteZat].
  generalize (JInt n). intros j Hi. unfold into_split.
  destruct strict; decode_json; cbn [NoteCount NoteZat zero_split]; rewrite Hi; by decode_json.
Qed.

Lemma into_request_json r : (forall s, RequestSplit r = Some s -> int64 (NoteCount s)) ->
  into_request strict (request_json r) no_request = Some r.
Proof.
  destruct r as [w a l s]. cbn [RequestSplit]. intros Hs. unfold request_json.
  cbn [rq_WalletID rq_ApprovalReference Outputs RequestSplit].
  assert (Ho : into_slice (into_output strict) no_output (JArray (map output_json l)) [] = Some l)
    by apply into_outputs_json.
  assert (Hp : forall x, s = Some x -> into_ptr (into_split strict) zero_split (split_json x) None = Some s).
  { intros x ->. unfold into_ptr. cbn [split_json default]. rewrite (into_split_json x) by auto. done. }
  destruct l as [|o l]; [|revert Ho; generalize (JArray (map output_json (o :: l))); intros j Ho];
    (destruct s as [x|]; [specialize (Hp x eq_refl); revert Hp; generalize (split_json x); intros sj Hp|]);
    unfold into_request; destruct strict; decode_json;
    cbn [rq_WalletID rq_ApprovalReference Outputs RequestSplit no_request into_string]; decode_json;
    rewrite ?Ho; decode_json; rewrite ?Hp; by decode_json.
Qed.
End decoding.

Lemma Unmarshal_Marshal_request r : request_text r = true ->
  (forall s, RequestSplit r = Some s -> int64 (NoteCount s)) -> Unmarshal_request (Marshal_request r) = Some r.
Proof.
  intros Ht Hs. destruct (request_json_printable r Ht). unfold Unmarshal_request, Unmarshal, Marshal_request.
  rewrite parse_Marshal by done. by apply into_request_json.
Qed.

(** C24: a stored request is read back as it was approved: an attempt that holds the
    JSON and the digest which normalisation made, for a wallet that is still
    configured, passes the worker's integrity check, and the worker acts on exactly
    the normalised request. *)
Theorem stored_request_is_decoded (cfg : Config.Config) req wallet r json digest a :
  limits_ok cfg -> normalizeCreateRequest req cfg wallet = Ok (r, json, digest) -> request_text r = true ->
  wallets cfg !! WalletID a = Some wallet -> RequestJSON a = json -> RequestDigest a = digest ->
  decodeRequest cfg a = Ok (r, wallet).
Proof.
  intros Hl Hn Ht Hw Hj Hd. destruct (normalize_ok req cfg wallet r json digest Hl Hn) as (Hok & -> & -> & _ & Hi).
  unfold decodeRequest. rewrite Hw, Hj, Unmarshal_Marshal_request, Hi, Hd, !String.eqb_refl; [done..|].
  intros s Hs. unfold request_ok in Hok. rewrite Hs in Hok. destruct Hok as (_ & _ & _ & _ & Hc & _).
  destruct Hl as (_ & _ & Hm). unfold maxPlanOutputs in Hm. width. lia.
Qed.

(** The attempt that [Create] claims for a request. *)
Definition demo_attempt (r : CreateRequest) : TransactionAttempt :=
  new_attempt the_id "key" (EncodeToString (Sum256 (Marshal_request r))) "ops" (Marshal_request r) r 5.

Definition demo_hot : Config.Wallet := Eval vm_compute in default the_wallet (wallets demo_cfg !! "hot"%string).

Lemma stored_request_is_decoded_witness :
  decodeRequest demo_cfg (demo_attempt demo_normalized) = Ok (demo_normalized, demo_hot).
Proof.
  assert (Hl : limits_ok demo_cfg) by (unfold limits_ok, maxPlanOutputs; cbn; width; lia).
  set (r := demo_normalized). set (json := Marshal_request r). set (digest := EncodeToString (Sum256 json)).
  assert (Hn : normalizeCreateRequest demo_request demo_cfg demo_hot = Ok (r, json, digest))
    by (vm_compute; reflexivity).
  assert (Ht : request_text r = true) by (vm_compute; reflexivity).
  set (a := demo_attempt r).
  assert (Ha : wallets demo_cfg !! WalletID a = Some demo_hot) by (vm_compute; reflexivity).
  assert (Hj : RequestJSON a = json) by reflexivity.
  assert (Hd : RequestDigest a = digest) by reflexivity.
  clearbody json digest a.
  exact (stored_request_is_decoded demo_cfg demo_request demo_hot r json digest a Hl Hn Ht Ha Hj Hd).
Defined.
