(* ===== verification/Rely.v ===== *)
(** A small program logic for coordinator runs.

    [run R P m Q]: from tables that satisfy [P], the run [m] moves the tables
    along the preorder [R], however the others interfere, and ends with a result
    and tables that satisfy [Q].  The section's hypotheses are the rely: what the
    interference and the address allocator may do between two calls.

    [others] is the rely that the in-flight set gives a worker: other
    goroutines and processes make any store calls, but on this attempt only
    cancellation.  [Interleaving.v] proves that they keep to it. *)
From S2P Require Import Prelude Tx GoString GoTime Domain Config Database Attempts Receipts Wallets Journal Request Coordinator.

Section logic.
Context `{Ports} (R : relation db) `{!PreOrder R}.

Definition run {A} (P : db -> Prop) (m : S A) (Q : A -> db -> Prop) : Prop :=
  forall w, P (tables w) -> R (tables w) (tables (m w).2) /\ Q (m w).1 (tables (m w).2).

(** A property of the tables that no move along [R] breaks. *)
Class Stable (P : db -> Prop) : Prop := stable : forall d d', R d d' -> P d -> P d'.

Lemma run_ret {A} (a : A) (P : db -> Prop) (Q : A -> db -> Prop) :
  (forall d, P d -> Q a d) -> run P (mret a) Q.
Proof. intros HQ w Hw. split; [reflexivity|by apply HQ]. Qed.

Lemma run_bind {A B} (m : S A) (f : A -> S B) P Q Q' :
  run P m Q -> (forall a, run (Q a) (f a) Q') -> run P (m ≫= f) Q'.
Proof.
  intros Hm Hf w Hw. specialize (Hm w Hw). unfold mbind, s_bind.
  destruct (m w) as [a w1]. cbn in Hm. destruct Hm as [HR HQ].
  destruct (Hf a w1 HQ) as [HR' HQ']. split; [by transitivity (tables w1)|done].
Qed.

Lemma run_conseq {A} (m : S A) (P P' : db -> Prop) (Q Q' : A -> db -> Prop) :
  (forall d, P d -> P' d) -> (forall a d, Q' a d -> Q a d) -> run P' m Q' -> run P m Q.
Proof. intros HP HQ Hm w Hw. destruct (Hm w (HP _ Hw)). eauto. Qed.

Lemma run_ask {A} (f : nat -> A) (P : db -> Prop) : run P (ask f) (fun a d => P d /\ exists n, f n = a).
Proof. intros w Hw. split; [reflexivity|]. cbn. eauto. Qed.

(** Operations on the queue, the in-flight set and the cursor. *)
Lemma run_local {A} (m : S A) (P : db -> Prop) :
  (forall w, tables (m w).2 = tables w) -> run P m (fun _ => P).
Proof. intros Hm w Hw. rewrite Hm. split; [reflexivity|done]. Qed.

Context (interfere_R : forall n d, R d (interfere n d)).

Lemma run_store {A} (f : time -> faults -> db -> A * db) (P : db -> Prop) (Q : A -> db -> Prop) :
  Stable P ->
  (forall now io d, P d -> R d (f now io d).2 /\ Q (f now io d).1 (f now io d).2) ->
  run P (store_call f) Q.
Proof.
  intros HP Hf w Hw. unfold store_call.
  assert (Hi : P (interfere (tick w) (tables w))) by (eapply HP; [apply interfere_R|done]).
  specialize (Hf (port_clock (tick w)) (port_io (tick w)) _ Hi).
  destruct (f _ _ _) as [a d']. cbn in *. destruct Hf. split; [|done].
  by transitivity (interfere (tick w) (tables w)).
Qed.

(** A store call that only reads. *)
Lemma run_read {A} (f : time -> faults -> db -> A * db) (P : db -> Prop) (Q : A -> db -> Prop) :
  Stable P -> (forall now io d, (f now io d).2 = d) ->
  (forall now io d, P d -> Q (f now io d).1 d) -> run P (store_call f) Q.
Proof.
  intros HP Hf HQ. apply run_store; [done|]. intros now io d Hd. rewrite Hf. split; [reflexivity|eauto].
Qed.
End logic.

#[export] Instance stable_true R : Stable R (fun _ => True).
Proof. done. Qed.

Lemma stable_and R (P Q : db -> Prop) : Stable R P -> Stable R Q -> Stable R (fun d => P d /\ Q d).
Proof. intros HP HQ d d' HR []. split; eauto. Qed.

#[export] Instance steps_preorder network : PreOrder (steps network).
Proof. split; [intros d; constructor|intros d1 d2 d3; apply steps_trans]. Qed.

(** * Reads *)

Lemma Attempt_reads id io d : (Attempts.Attempt id io d).2 = d.
Proof.
  unfold Attempts.Attempt. destruct (run_auto _ _ _) as [r d'] eqn:Hr. cbn.
  apply run_auto_cases in Hr as [[-> _]|(x & io2 & _ & Hr)]; [done|]. by db_inv.
Qed.

Lemma Attempt_found id io d a :
  (Attempts.Attempt id io d).1 = Ok (Some a) ->
  exists row, db_attempts d !! id = Some row /\ scanAttempt id row = Ok a.
Proof.
  unfold Attempts.Attempt. destruct (run_auto _ _ _) as [r d'] eqn:Hr. cbn. intros ->.
  apply run_auto_cases in Hr as [(_ & e & ?)|(x & io2 & [= <-] & Hr)]; [done|].
  db_inv. unfold row_of in *. destruct (db_attempts d !! id) eqn:?; cbn in *; [eauto|done].
Qed.

Ltac solve_reads :=
  repeat case_match; try done;
  match goal with |- (run_auto ?b ?io ?d).2 = _ =>
    let r := fresh "r" in let d' := fresh "d'" in let Hr := fresh "Hr" in
    destruct (run_auto b io d) as [r d'] eqn:Hr; cbn;
    apply run_auto_cases in Hr as [[-> _]|(? & ? & _ & Hr)]; [done|]; by db_inv
  end.

Lemma CoordinatorRecoverySealed_reads io d : (CoordinatorRecoverySealed io d).2 = d.
Proof. unfold CoordinatorRecoverySealed. solve_reads. Qed.

Lemma ActiveNoteIDs_reads nw w io d : (ActiveNoteIDs nw w io d).2 = d.
Proof. unfold ActiveNoteIDs. solve_reads. Qed.

Lemma NoteReservations_reads nw w io d : (NoteReservations nw w io d).2 = d.
Proof. unfold NoteReservations. solve_reads. Qed.

Lemma RecoverableAttempts_reads after limit io d : (RecoverableAttempts after limit io d).2 = d.
Proof. unfold RecoverableAttempts. solve_reads. Qed.

Lemma ActiveAttemptsByWallet_reads w p limit io d : (ActiveAttemptsByWallet w p limit io d).2 = d.
Proof. unfold ActiveAttemptsByWallet. solve_reads. Qed.

(** * The other actors *)

(** The store calls that only the worker that holds the attempt makes on it. *)
Definition worker_call_on (id : string) (o : store_op) : Prop :=
  match o with
  | OpSetAttemptChangeAddress i _ _ | OpReserveAttemptPlan i _ _ _ _ _ _ _ | OpBeginAttemptSigning i _
  | OpCompleteAttemptSigning i _ _ _ _ _ _ | OpMarkAttemptState i _ _ _ _ _ _ => i = id
  | _ => False
  end.

Inductive others (network id : string) : db -> db -> Prop :=
  | others_refl d : others network id d d
  | others_step o io d d' :
      issued network o d -> ~ worker_call_on id o ->
      others network id (exec o io d) d' -> others network id d d'.

#[export] Instance others_preorder network id : PreOrder (others network id).
Proof.
  split; [intros d; constructor|]. intros d1 d2 d3 H12 H23.
  induction H12; [done|]. eapply others_step; eauto.
Qed.

Lemma others_steps network id d d' : others network id d d' -> steps network d d'.
Proof. induction 1; [constructor|]. eapply steps_step; [by constructor|done]. Qed.

Definition cancellable (s : AttemptState) : bool :=
  match s with planning | reserved => true | _ => false end.

(** The row of another attempt, or of one that is not cancellable, stays. *)
Ltac frame_tx :=
  match goal with H : run_tx _ _ _ _ _ = _ |- _ =>
    apply run_tx_cases in H as [[-> _]|[(-> & _)|(? & ? & ? & _ & H)]]; [done..|] end.

Lemma put_other d i id (r : attempt_row) :
  i <> id -> db_attempts (put_attempt d i r) !! id = db_attempts d !! id.
Proof. intros. cbn. by rewrite lookup_insert_ne. Qed.

Ltac solve_frame :=
  db_inv; effects; cbn in *; rewrite ?lookup_insert_ne by congruence; done.

Lemma SetAttemptChangeAddress_frame i address now io d id :
  i <> id -> db_attempts (SetAttemptChangeAddress i address now io d).2 !! id = db_attempts d !! id.
Proof.
  intros Hne. destruct (SetAttemptChangeAddress _ _ _ _ _) as [r d'] eqn:H. cbn. unfold SetAttemptChangeAddress in H.
  case_match; [naive_solver|].
  apply run_auto_cases in H as [[-> _]|(? & ? & _ & H)]; [done|]. solve_frame.
Qed.

Lemma BeginAttemptSigning_frame i now io d id :
  i <> id -> db_attempts (BeginAttemptSigning i now io d).2 !! id = db_attempts d !! id.
Proof.
  intros Hne. destruct (BeginAttemptSigning _ _ _ _) as [r d'] eqn:H. cbn.
  unfold BeginAttemptSigning in H. frame_tx. solve_frame.
Qed.

Lemma CompleteAttemptSigning_frame i x raw fee os c now io d id :
  i <> id -> db_attempts (CompleteAttemptSigning i x raw fee os c now io d).2 !! id = db_attempts d !! id.
Proof.
  intros Hne. destruct (CompleteAttemptSigning _ _ _ _ _ _ _ _ _) as [r d'] eqn:H. cbn.
  unfold CompleteAttemptSigning in H. frame_tx. solve_frame.
Qed.

Lemma MarkAttemptState_frame i s c m rt rel now io d id :
  i <> id -> db_attempts (MarkAttemptState i s c m rt rel now io d).2 !! id = db_attempts d !! id.
Proof.
  intros Hne. destruct (MarkAttemptState _ _ _ _ _ _ _ _ _) as [r d'] eqn:H. cbn.
  unfold MarkAttemptState in H. case_match; [naive_solver|]. frame_tx. solve_frame.
Qed.

Lemma ReserveAttemptPlan_frame i nw p g f e ns now io d id :
  i <> id -> db_attempts (ReserveAttemptPlan i nw p g f e ns now io d).2 !! id = db_attempts d !! id.
Proof.
  intros Hne. destruct (ReserveAttemptPlan _ _ _ _ _ _ _ _ _ _) as [r d'] eqn:H. cbn.
  unfold ReserveAttemptPlan in H. do 2 (case_match; [naive_solver|]). frame_tx. db_inv.
  match goal with H : reserve_notes _ _ _ _ _ _ _ = _ |- _ =>
    eapply reserve_notes_ok in H as (Hnd & Hfree & Heq); [subst|done] end.
  effects. cbn. by rewrite lookup_insert_ne.
Qed.

(** Cancellation leaves a row alone, or cancels it from [planning] or [reserved]. *)
Definition kept_or_cancelled (r r' : attempt_row) : Prop :=
  r' = r \/ (cancellable (a_state r) = true /\ a_state r' = cancelled).

Lemma CancelAttempt_row i now io d id r :
  db_attempts d !! id = Some r ->
  exists r', db_attempts (CancelAttempt i now io d).2 !! id = Some r' /\ kept_or_cancelled r r'.
Proof.
  intros Hr. assert (Hno : exists r', db_attempts d !! id = Some r' /\ kept_or_cancelled r r')
    by (exists r; split; [done|by left]).
  destruct (CancelAttempt _ _ _ _) as [u d'] eqn:H. cbn.
  unfold CancelAttempt in H. frame_tx. db_inv; effects. destruct (decide (i = id)) as [->|].
  - cbn. rewrite lookup_insert_eq. eexists. split; [done|]. right. split; [|done]. simplify_eq.
    bool_to_prop. match goal with H : _ && _ = false |- _ => apply andb_false_iff in H as [?|?] end;
      bool_to_prop; repeat match goal with H : negb _ = false |- _ => apply negb_false_iff in H end;
      bool_to_prop; destruct (a_state r); try done; congruence.
  - cbn. by rewrite lookup_insert_ne.
Qed.

Lemma ClaimAttempt_frame clock c io d id r :
  db_attempts d !! id = Some r -> db_attempts (ClaimAttempt clock c io d).2 !! id = Some r.
Proof.
  intros Hr. destruct (ClaimAttempt clock c io d) as [u d'] eqn:H. cbn.
  unfold ClaimAttempt in H. case_match; [naive_solver|]. frame_tx. db_inv. effects.
  rewrite lookup_insert_ne by congruence. done.
Qed.

Lemma others_exec id o io d r :
  ~ worker_call_on id o -> db_attempts d !! id = Some r ->
  exists r', db_attempts (exec o io d) !! id = Some r' /\ kept_or_cancelled r r'.
Proof.
  intros Hno Hr. assert (Hsame : forall d', db_attempts d' !! id = Some r ->
    exists r', db_attempts d' !! id = Some r' /\ kept_or_cancelled r r') by (intros; exists r; split; [done|by left]).
  destruct o; cbn [exec worker_call_on] in *.
  - apply Hsame. by rewrite (proj1 (EnsureWallet_journal _ _ _ _ _ io d)).
  - apply Hsame. by rewrite (proj1 (AdvanceBackfill_journal _ _ _ io d)).
  - apply Hsame. by rewrite (proj1 (SetBackfillProgress_journal _ _ io d)).
  - apply Hsame. by rewrite (proj1 (AllocateAddress_journal _ _ _ _ io d)).
  - apply Hsame. by rewrite (proj1 (AllocateAddressAt_journal _ _ _ _ _ io d)).
  - apply Hsame. by rewrite (proj1 (receipt_write_journal _ _ _ (exec_receipt_write _ io d))).
  - apply Hsame. by rewrite (proj1 (meta_write_journal _ _ _ (exec_meta_write _ io d))).
  - by apply Hsame, ClaimAttempt_frame.
  - apply Hsame. by rewrite SetAttemptChangeAddress_frame.
  - apply Hsame. by rewrite ReserveAttemptPlan_frame.
  - apply Hsame. by rewrite BeginAttemptSigning_frame.
  - apply Hsame. by rewrite CompleteAttemptSigning_frame.
  - apply Hsame. by rewrite MarkAttemptState_frame.
  - by apply CancelAttempt_row.
Qed.

Lemma others_row network id d d' r :
  others network id d d' -> db_attempts d !! id = Some r ->
  exists r', db_attempts d' !! id = Some r' /\ kept_or_cancelled r r'.
Proof.
  intros Ho. revert r. induction Ho as [d|o io d d' Hiss Hno Ho IH]; intros r Hr.
  { exists r. split; [done|by left]. }
  destruct (others_exec id o io d r Hno Hr) as (r1 & Hr1 & [-> | [Hc Hs]]); [by apply IH|].
  destruct (IH r1 Hr1) as (r2 & Hr2 & [-> | [Hc' _]]); [|by rewrite Hs in Hc'].
  exists r1. split; [done|by right].
Qed.

Lemma others_keep network id d d' r :
  others network id d d' -> db_attempts d !! id = Some r -> cancellable (a_state r) = false ->
  db_attempts d' !! id = Some r.
Proof.
  intros Ho Hr Hc. destruct (others_row _ _ _ _ _ Ho Hr) as (r' & ? & [-> | [Hc' _]]); [done|].
  by rewrite Hc in Hc'.
Qed.
