(* ===== verification/Programs.v ===== *)
(** Coordinator runs as programs.

    A run of [Coordinator.v] takes the interference of the other goroutines as
    one function, given in advance.  A [prog] is the same run cut at each of its
    calls, so that the calls of several goroutines can be put in any order
    ([Concurrency.v]); [denote] runs one under a given interference, and [triple]
    relates a run to its program together with what the program's own calls may
    do: each is a move along [G], from tables that satisfy the assertion there. *)
From S2P Require Import Prelude Tx GoTime Domain Config Database Attempts Wallets Journal Request Coordinator Rely.

(** * Programs *)

(** What the goroutines of the service share beside the tables. *)
Record shared := { sh_queue : list string; sh_inflight : gset string; sh_after : string }.

Definition shared_of (w : svc) : shared :=
  {| sh_queue := queue w; sh_inflight := inflight w; sh_after := recoveryAfter w |}.

Definition put_shared (s : shared) (w : svc) : svc :=
  {| tables := tables w; queue := sh_queue s; inflight := sh_inflight s; recoveryAfter := sh_after s; tick := tick w |}.

Definition with_interference (i : nat -> db -> db) (H : Ports) : Ports := {|
  interfere := i; port_io := port_io; port_clock := port_clock; ctx_done := ctx_done; random16 := random16;
  node_Tip := node_Tip; node_Transaction := node_Transaction; scanner_Health := scanner_Health;
  scanner_NoteStatuses := scanner_NoteStatuses; scanner_NoteSummary := scanner_NoteSummary;
  allocate := allocate; planner_Plan := planner_Plan; signer_Sign := signer_Sign;
  signer_Healthy := signer_Healthy; txbuild_executable := txbuild_executable |}.

(** The collaborators without the interference, which is all a program sees. *)
Definition alone : Ports -> Ports := with_interference (fun _ d => d).

Inductive prog (A : Type) : Type :=
  | Done (a : A)
  | Asking {X : Type} (f : Ports -> nat -> X) (k : X -> prog A)
  | Calling {X : Type} (f : Ports -> nat -> db -> X * db) (k : X -> prog A)
  | Touching {X : Type} (f : shared -> X * shared) (k : X -> prog A).
Arguments Done {A} a.
Arguments Asking {A X} f k.
Arguments Calling {A X} f k.
Arguments Touching {A X} f k.

Fixpoint seq {A B} (p : prog A) (g : A -> prog B) : prog B :=
  match p with
  | Done a => g a
  | Asking f k => Asking f (fun x => seq (k x) g)
  | Calling f k => Calling f (fun x => seq (k x) g)
  | Touching f k => Touching f (fun x => seq (k x) g)
  end.

(** The run of a program under the interference of [H]. *)
Fixpoint denote {A} (p : prog A) (H : Ports) (w : svc) : A * svc :=
  match p with
  | Done a => (a, w)
  | Asking f k => denote (k (f (alone H) (tick w))) H (next_tick w)
  | Calling f k =>
      let '(x, d') := f (alone H) (tick w) (interfere (tick w) (tables w)) in denote (k x) H (set_tables w d')
  | Touching f k => let '(x, s) := f (shared_of w) in denote (k x) H (put_shared s w)
  end.

Lemma denote_seq {A B} (p : prog A) (g : A -> prog B) H w :
  denote (seq p g) H w = let '(a, w') := denote p H w in denote (g a) H w'.
Proof.
  revert w. induction p as [a|X f k IH|X f k IH|X f k IH]; intros w; cbn; [done|apply IH|..];
    destruct (f _) as [x y] || destruct (f _ _ _) as [x y]; apply IH.
Qed.

(** * Triples *)

Section logic.
Context (net : string).
Notation stable := (Stable (steps net)).

(** [G]: what a call may do.  [touches]: what a step on the shared state may.
    [collab]: the collaborators a run is meant for. *)
Context (G : relation db) (touches : relation shared) (collab : Ports -> Prop).

Fixpoint safe {A} (Q : A -> db -> Prop) (p : prog A) (P : db -> Prop) : Prop :=
  stable P /\
  match p with
  | Done a => forall d, P d -> Q a d
  | Asking f k => forall x, safe Q (k x) P
  | @Calling _ X f k => exists P' : X -> db -> Prop,
      (forall H n d, collab H -> P d ->
         G d (f (alone H) n d).2 /\ P' (f (alone H) n d).1 (f (alone H) n d).2) /\
      forall x, safe Q (k x) (P' x)
  | Touching f k => (forall s, touches s (f s).2) /\ forall x, safe Q (k x) P
  end.

Lemma safe_stable {A} (Q : A -> db -> Prop) p P : safe Q p P -> stable P.
Proof. by destruct p; intros []. Qed.

Lemma safe_weaken {A} (Q Q' : A -> db -> Prop) p (P P' : db -> Prop) :
  stable P' -> (forall d, P' d -> P d) -> (forall a d, Q a d -> Q' a d) -> safe Q p P -> safe Q' p P'.
Proof.
  intros HP' HP HQ. revert P P' HP' HP.
  induction p as [a|X f k IH|X f k IH|X f k IH]; intros P P' HP' HP [_ Hs]; (split; [done|]); cbn in *.
  - auto.
  - intros x. by eapply IH.
  - destruct Hs as (R & Hf & Hk). exists R. split; [by auto|]. intros x. eapply IH; [|done|apply Hk].
    by eapply safe_stable.
  - destruct Hs as [Hf Hk]. split; [done|]. intros x. by eapply IH.
Qed.

Lemma safe_seq {A B} (Q : A -> db -> Prop) (Q' : B -> db -> Prop) p (g : A -> prog B) P :
  safe Q p P -> (forall a, safe Q' (g a) (Q a)) -> safe Q' (seq p g) P.
Proof.
  intros Hp Hg. revert P Hp.
  induction p as [a|X f k IH|X f k IH|X f k IH]; intros P [HP Hs]; cbn in *.
  - by eapply safe_weaken; [..|apply Hg].
  - split; [done|]. eauto.
  - split; [done|]. destruct Hs as (R & ? & ?). exists R. eauto.
  - destruct Hs. eauto.
Qed.

(** The run [m], whatever the collaborators, is that of a program all of whose
    calls are safe from [P], and which ends with [Q]. *)
Definition triple {A} (P : db -> Prop) (m : forall H : Ports, S A) (Q : A -> db -> Prop) : Type :=
  { p : prog A | (forall H w, m H w = denote p H w) /\ safe Q p P }.

Definition t_ret {A} (a : A) P (Q : A -> db -> Prop) :
  stable P -> (forall d, P d -> Q a d) -> triple P (fun _ => mret a) Q.
Proof. intros. by exists (Done a). Defined.

Definition t_conseq {A} P P' (m : forall H : Ports, S A) (Q Q' : A -> db -> Prop) :
  stable P' -> (forall d, P' d -> P d) -> (forall a d, Q a d -> Q' a d) -> triple P m Q -> triple P' m Q'.
Proof.
  intros HP' HP HQ [p [Hm Hs]]. exists p. split; [done|]. by eapply safe_weaken.
Defined.

Definition t_bind {A B} P (m : forall H : Ports, S A) (f : forall H : Ports, A -> S B) Q Q' :
  triple P m Q -> (forall a, triple (Q a) (fun H => f H a) Q') -> triple P (fun H => m H ≫= f H) Q'.
Proof.
  intros [p [Hm Hs]] Hf. exists (seq p (fun a => proj1_sig (Hf a))). split.
  - intros H w. rewrite denote_seq. unfold mbind, s_bind. rewrite (Hm H w). destruct (denote p H w) as [a w'].
    apply (proj1 (proj2_sig (Hf a))).
  - eapply safe_seq; [done|]. intros a. apply (proj2_sig (Hf a)).
Defined.

Definition t_ask {A} (f : Ports -> nat -> A) P :
  stable P -> (forall H, f (alone H) = f H) -> triple P (fun H => ask (f H)) (fun _ => P).
Proof.
  intros HP Hf. exists (Asking f Done). split; [|by split].
  intros H w. cbn. by rewrite Hf.
Defined.

(** A call whose answer has [φ] in every state, and what follows it. *)
Definition t_call {A B} (f : Ports -> nat -> db -> A * db) (φ : A -> Prop) P Q
    (k : forall H : Ports, A -> S B) (Q' : B -> db -> Prop) :
  stable P -> (forall H, f (alone H) = f H) -> (forall H n d, φ (f H n d).1) ->
  (forall H n d, collab H -> P d -> G d (f H n d).2 /\ Q (f H n d).1 (f H n d).2) ->
  (forall a, φ a -> triple (Q a) (fun H => k H a) Q') ->
  triple P (fun H => (fun w => let '(a, d') := f H (tick w) (interfere (tick w) (tables w)) in (a, set_tables w d')) ≫= k H) Q'.
Proof.
  intros HP Hblind Hφ Hf Hk.
  set (g := fun H n d => (((f H n d).1 ↾ Hφ H n d : {a | φ a}), (f H n d).2)).
  exists (Calling g (fun x => proj1_sig (Hk (`x) (proj2_sig x)))). split.
  - intros H w. cbn. rewrite <- (Hblind H). unfold mbind, s_bind.
    rewrite (surjective_pairing (f (alone H) _ _)) at 1. apply (proj1 (proj2_sig (Hk _ _))).
  - split; [done|]. exists (fun x => Q (`x)). split; [|intros [a Ha]; apply (proj2_sig (Hk a Ha))].
    intros H n d HH Hd. cbn. rewrite (Hblind H). by apply Hf.
Defined.

Definition t_ext {A} P (m m' : forall H : Ports, S A) (Q : A -> db -> Prop) :
  (forall H w, m' H w = m H w) -> triple P m Q -> triple P m' Q.
Proof. intros Heq [p [Hm Hs]]. exists p. split; [|done]. intros H w. by rewrite Heq. Defined.

Definition t_touch {A} (f : shared -> A * shared) (m : forall H : Ports, S A) P :
  stable P -> (forall H w, m H w = let '(a, s) := f (shared_of w) in (a, put_shared s w)) ->
  (forall s, touches s (f s).2) -> triple P m (fun _ => P).
Proof.
  intros HP Hm Hf. exists (Touching f Done). split; [|by split].
  intros H w. rewrite Hm. cbn. by destruct (f _).
Defined.

(** * Soundness for the runs of [Rely.v] *)

Context (G_steps : forall d d', G d d' -> steps net d d').

Lemma denote_run {A} (p : prog A) P (Q : A -> db -> Prop) (H : Ports) :
  (forall n d, steps net d (interfere n d)) -> collab H -> safe Q p P -> run (steps net) P (denote p H) Q.
Proof.
  intros Hi Ha. revert P. induction p as [a|X f k IH|X f k IH|X f k IH]; intros P [HP Hs] w Hw; cbn in *.
  - split; [constructor|auto].
  - apply (IH _ P (Hs _) (next_tick w) Hw).
  - destruct Hs as (R & Hf & Hk).
    destruct (Hf H (tick w) (interfere (tick w) (tables w)) Ha (HP _ _ (Hi _ _) Hw)) as [Hg Hr].
    destruct (f _ _ _) as [x d']. destruct (IH x (R x) (Hk x) (set_tables w d') Hr) as [Hs HQ]. split; [|done].
    eapply steps_trans; [apply Hi|]. eapply steps_trans; [by apply G_steps|done].
  - destruct Hs as [_ Hk]. destruct (f _) as [x s]. apply (IH _ P (Hk x) (put_shared s w) Hw).
Qed.

Lemma triple_run {A} P (m : forall H : Ports, S A) Q (H : Ports) :
  (forall n d, steps net d (interfere n d)) -> collab H -> triple P m Q -> run (steps net) P (m H) Q.
Proof.
  intros Hi Ha [p [Hm Hs]] w Hw. rewrite Hm. by apply (denote_run p P Q H).
Qed.
End logic.
