(* ===== verification/Calls.v ===== *)
(** The calls of the coordinator's computations: [internal/coordinator/service.go]
    and [inventory.go] as programs ([Programs.v]), each with what its own store
    calls may be.

    A request makes no call that belongs to a worker; a worker makes such calls
    only on the attempt it has in flight, and each within the discipline of the
    journal. *)
From S2P Require Import Prelude Tx GoString GoTime Sha256 Domain Config Database Attempts Receipts Wallets Journal Request Signer Coordinator Service Worker Rely Programs.

(** * Attempts that left [planning] *)

Definition planned (id : string) (d : db) : Prop :=
  exists r, db_attempts d !! id = Some r /\ a_state r <> planning.

Lemma planned_stable network id : Stable (steps network) (planned id).
Proof.
  intros d d' Hs (r & Hr & Hp). destruct (steps_kept _ _ _ _ _ Hs Hr) as (r' & Hr' & Hk).
  exists r'. split; [done|]. by destruct (kept_plan _ _ Hk Hp).
Qed.

Lemma BeginAttemptSigning_planned id now io d a :
  (BeginAttemptSigning id now io d).1 = Ok a ->
  AttemptID a = id /\ planned id (BeginAttemptSigning id now io d).2.
Proof.
  destruct (BeginAttemptSigning id now io d) as [r d'] eqn:Hb. cbn. intros ->. unfold BeginAttemptSigning in Hb.
  apply run_tx_cases in Hb as [(_ & e & ?)|[(-> & x & ? & ? & ? & [= <-] & Hb)|(x & ? & ? & [= <-] & Hb)]]; [done|..];
    db_inv; unfold row_of in *; destruct (db_attempts d !! id) as [row|] eqn:Hrow; simplify_eq/=;
    match goal with Hs : scanAttempt id row = Ok ?x |- _ => destruct (scanAttempt_fields _ _ _ Hs) as (Hid & Hst & _) end.
  all: effects; cbn; simplify_eq; (split; [done|]); try (exists row; split; [done|congruence]).
  eexists. cbn. rewrite lookup_insert_eq. split; [done|]. done.
Qed.

(** A read of an attempt answers with that attempt. *)
Lemma Attempt_id id io d a : (Attempts.Attempt id io d).1 = Ok (Some a) -> AttemptID a = id.
Proof. intros (row & _ & Hs)%Attempt_found. by destruct (scanAttempt_fields _ _ _ Hs). Qed.

Section calls.
Context (cfg : Config.Config).
Let net : string := network cfg.

(** [may]: the store calls that are allowed. *)
Context (may : store_op -> Prop) (G : relation db) (touches : relation shared) (collab : Ports -> Prop).
Context (G_refl : forall d, G d d).
Context (G_op : forall o io d, may o -> issued net o d -> G d (exec o io d)).
Context (may_other : forall o, (forall id, ~ worker_call_on id o) -> may o).

Context (G_steps : forall d d', G d d' -> steps net d d').

Notation stable := (Stable (steps net)).
Notation triple := (triple net G touches collab).

(** What the allocator may do. *)
Definition allocates (H : Ports) : Prop := forall n wallet label d, G d (allocate n wallet label d).2.
Context (collab_allocates : forall H, collab H -> allocates H).

(** A computation that keeps [P]. *)
Definition keeping {A} (P : db -> Prop) (m : forall H : Ports, S A) : Type := triple P m (fun _ => P).

Definition k_ret {A} P (a : A) : stable P -> keeping P (fun _ => mret a).
Proof. intros. by apply t_ret. Defined.

Definition k_bind {A B} P (m : forall H : Ports, S A) (f : forall H : Ports, A -> S B) :
  keeping P m -> (forall a, keeping P (fun H => f H a)) -> keeping P (fun H => m H ≫= f H).
Proof. apply t_bind. Defined.

Definition k_ask {A} P (f : Ports -> nat -> A) :
  stable P -> (forall H, f (alone H) = f H) -> keeping P (fun H => ask (f H)).
Proof. apply t_ask. Defined.

(** A store call with an answer that has [φ], and what follows it. *)
Definition t_store {A B} (f : time -> faults -> db -> A * db) (φ : A -> Prop) P Q
    (k : forall H : Ports, A -> S B) (Q' : B -> db -> Prop) :
  stable P -> (forall now io d, φ (f now io d).1) ->
  (forall now io d, P d -> G d (f now io d).2 /\ Q (f now io d).1 (f now io d).2) ->
  (forall a, φ a -> triple (Q a) (fun H => k H a) Q') ->
  triple P (fun H => store_call f ≫= k H) Q'.
Proof.
  intros HP Hφ Hf Hk.
  apply (t_call net G touches collab (fun H n d => f (port_clock n) (port_io n) d) φ P Q k Q' HP); auto.
Defined.

Definition t_store_last {A} (f : time -> faults -> db -> A * db) P Q :
  stable P -> (forall a, stable (Q a)) ->
  (forall now io d, P d -> G d (f now io d).2 /\ Q (f now io d).1 (f now io d).2) ->
  triple P (fun H => store_call f) Q.
Proof.
  intros HP HQ Hf. apply (t_ext _ _ _ _ _ (fun H => store_call f ≫= mret)).
  { intros H w. unfold mbind, s_bind. by destruct (store_call f w). }
  apply (t_store f (fun _ => True) P Q (fun _ => mret)); auto. intros a _. by apply t_ret.
Defined.

Lemma op_moves o io d : may o -> issued net o d -> G d (exec o io d) /\ steps net d (exec o io d).
Proof. intros. split; [by apply G_op|]. eapply steps_step; [by constructor|constructor]. Qed.

Definition k_op {A} P (f : time -> faults -> db -> A * db) (o : time -> store_op) :
  stable P -> (forall now io d, (f now io d).2 = exec (o now) io d) -> (forall now, may (o now)) ->
  (forall now d, P d -> issued net (o now) d) -> keeping P (fun _ => store_call f).
Proof.
  intros HP Hf Hmay Hiss. apply t_store_last; [done|done|]. intros now io d Hd. rewrite Hf.
  destruct (op_moves (o now) io d (Hmay now) (Hiss now d Hd)). split; [done|]. by eapply HP.
Defined.

(** An allocation, and what follows it. *)
Definition k_allocation {B} P wallet label (k : forall H : Ports, result Address -> S B) :
  stable P -> (forall x, keeping P (fun H => k H x)) ->
  keeping P (fun H => (fun w => let '(x, d') := allocate (tick w) wallet label (interfere (tick w) (tables w)) in
                              (x, set_tables w d')) ≫= k H).
Proof.
  intros HP Hk.
  apply (t_call net G touches collab (fun H n d => allocate n wallet label d) (fun _ => True) P (fun _ => P)); [done..| |intros x _; apply Hk].
  intros H n d Ha Hd. pose proof (collab_allocates H Ha n wallet label d) as Hg.
  split; [done|]. eapply HP; [|done]. by apply G_steps.
Defined.

Definition k_read {A} P (f : time -> faults -> db -> A * db) :
  stable P -> (forall now io d, (f now io d).2 = d) -> keeping P (fun _ => store_call f).
Proof. intros HP Hf. apply t_store_last; [done..|]. intros now io d Hd. by rewrite Hf. Defined.

Ltac keep_step :=
  match goal with
  | |- keeping _ (fun _ => match ?x with _ => _ end) => destruct x eqn:?
  | |- keeping _ (fun _ => _ ≫= _) => apply k_bind; [|intros]
  | |- keeping _ _ => solve [eauto with kept]
  end.
Ltac keep := repeat keep_step.

Create HintDb kept discriminated.
Hint Resolve k_ret k_ask : kept.

(** ** Reads, and the calls that are nobody's *)

Section common.
Context (P : db -> Prop) (HP : stable P).

Definition k_sealed : keeping P (fun _ => store_call (fun _ => CoordinatorRecoverySealed)).
Proof. apply k_read; [done|]. intros. apply CoordinatorRecoverySealed_reads. Defined.

Definition k_Attempt i : keeping P (fun _ => store_call (fun _ => Attempts.Attempt i)).
Proof. apply k_read; [done|]. intros. apply Attempt_reads. Defined.

Definition k_ActiveNoteIDs w : keeping P (fun _ => store_call (fun _ => ActiveNoteIDs net w)).
Proof. apply k_read; [done|]. intros. apply ActiveNoteIDs_reads. Defined.

Definition k_NoteReservations nw w : keeping P (fun _ => store_call (fun _ => NoteReservations nw w)).
Proof. apply k_read; [done|]. intros. apply NoteReservations_reads. Defined.

Definition k_RecoverableAttempts a l : keeping P (fun _ => store_call (fun _ => RecoverableAttempts a l)).
Proof. apply k_read; [done|]. intros. apply RecoverableAttempts_reads. Defined.

Definition k_ActiveAttemptsByWallet w p l : keeping P (fun _ => store_call (fun _ => ActiveAttemptsByWallet w p l)).
Proof. apply k_read; [done|]. intros. apply ActiveAttemptsByWallet_reads. Defined.

Definition k_Claim c : keeping P (fun _ => store_call (fun clock => ClaimAttempt clock c)).
Proof. by apply (k_op P _ (fun now => OpClaimAttempt now c)); [..|intros; apply may_other; intros ? []|]. Defined.

Definition k_CancelAttempt i : keeping P (fun _ => store_call (fun now => CancelAttempt i now)).
Proof. by apply (k_op P _ (OpCancelAttempt i)); [..|intros; apply may_other; intros ? []|]. Defined.
End common.
Hint Resolve k_sealed k_Attempt k_ActiveNoteIDs k_NoteReservations k_RecoverableAttempts
  k_ActiveAttemptsByWallet k_Claim k_CancelAttempt : kept.

Section shared.
Context (P : db -> Prop) (HP : stable P).

Definition k_unsealed : keeping P (@requireAutomationUnsealed).
Proof. unfold requireAutomationUnsealed. keep. Defined.

Definition k_spendable w : keeping P (fun _ => spendableSummary cfg w).
Proof. unfold spendableSummary. keep. Defined.

Definition k_batches fuel w ids m : keeping P (fun _ => status_batches fuel w ids m).
Proof. revert ids m. induction fuel; intros; cbn [status_batches]; keep. Defined.
Hint Resolve k_batches k_spendable : kept.

Definition k_reservedNotes w : keeping P (fun _ => reservedNotes cfg w).
Proof. unfold reservedNotes. keep. Defined.
Hint Resolve k_reservedNotes : kept.

Definition k_splitPolicy r w : keeping P (fun _ => splitPolicy cfg r w).
Proof. unfold splitPolicy. keep. Defined.

Definition k_inventory w : keeping P (fun _ => NoteInventory_of cfg w).
Proof. unfold NoteInventory_of. keep. Defined.

Definition k_fundable r w c : keeping P (fun _ => fundableWithoutReservations r w c).
Proof. unfold fundableWithoutReservations. keep. Defined.

Definition k_widen fuel pol r w c ex k p : keeping P (fun _ => widen fuel pol r w c ex k p).
Proof. revert k p. induction fuel; intros; cbn [widen]; keep. Defined.

Definition k_pastExpiry a : keeping P (fun _ => pastExpiry cfg a).
Proof. unfold pastExpiry. keep. Defined.

Definition k_scannerProof a : keeping P (fun _ => scannerProof cfg a).
Proof. unfold scannerProof. keep. Defined.

Definition k_response v : keeping P (fun _ => attemptForResponse cfg v).
Proof. unfold attemptForResponse. keep. Defined.

Definition k_owned p i : keeping P (fun _ => owned_attempt p i).
Proof. unfold owned_attempt. keep. Defined.
Hint Resolve k_owned : kept.

Definition k_list p w : keeping P (fun _ => ActiveAttempts cfg p w).
Proof. unfold ActiveAttempts. keep. Defined.

Definition k_Cancel p i : keeping P (fun _ => Cancel p i).
Proof. unfold Cancel. keep. Defined.
End shared.
Hint Resolve k_unsealed k_splitPolicy k_fundable k_widen k_pastExpiry k_scannerProof k_response k_owned : kept.

(** ** The worker of one attempt *)

Section worker.
Context (id : string) (may_id : forall o, worker_call_on id o -> may o).

Definition k_mine {A} P (f : time -> faults -> db -> A * db) (o : time -> store_op) :
  stable P -> (forall now io d, (f now io d).2 = exec (o now) io d) ->
  (forall now, worker_call_on id (o now)) -> (forall now d, P d -> issued net (o now) d) ->
  keeping P (fun _ => store_call f).
Proof. intros. apply (k_op P f o); auto. Defined.

Definition k_mark_as P i s code msg retryable release :
  stable P -> i = id -> (s = reserved -> forall d, P d -> planned i d) ->
  (ends_reservation s = true -> release = true) ->
  keeping P (fun _ => mark i s code msg retryable release).
Proof.
  intros HP Hi Hs Hrel. apply (k_mine P _ (OpMarkAttemptState i s code msg retryable release)); [done..|].
  intros now d Hd. split; [|done]. intros -> r Hr. destruct (Hs eq_refl d Hd) as (? & ? & ?). by simplify_eq.
Defined.

Definition k_mark P i s code msg retryable release :
  stable P -> i = id -> s <> reserved -> (ends_reservation s = true -> release = true) ->
  keeping P (fun _ => mark i s code msg retryable release).
Proof. intros. by apply k_mark_as. Defined.
Hint Extern 1 (keeping _ (fun _ => mark _ _ _ _ _ _)) =>
  (apply k_mark; [assumption|(assumption || reflexivity)|discriminate|done]) : kept.

(** A read of an attempt, and what follows it. *)
Definition k_attempt {B} P i (k : forall H : Ports, result (option TransactionAttempt) -> S B) :
  stable P -> (forall x, (forall a, x = Ok (Some a) -> AttemptID a = i) -> keeping P (fun H => k H x)) ->
  keeping P (fun H => store_call (fun _ => Attempts.Attempt i) ≫= k H).
Proof.
  intros HP Hk. apply (t_store _ (fun x => forall a, x = Ok (Some a) -> AttemptID a = i) P (fun _ => P)); [done|..|done].
  - intros _ io d a. apply Attempt_id.
  - intros _ io d Hd. by rewrite Attempt_reads.
Defined.

Section planning.
Context (P : db -> Prop) (HP : stable P).

Definition k_fail i c m r : i = id -> keeping P (fun _ => failUnsignedWith i c m r).
Proof. intros. unfold failUnsignedWith. keep. Defined.

Definition k_record i c m r : i = id -> keeping P (fun _ => recordPlanningError i c m r).
Proof. intros. unfold recordPlanningError. keep. Defined.

Definition k_unknown i c m r : i = id -> keeping P (fun _ => markSigningUnknown i c m r).
Proof. intros. unfold markSigningUnknown. keep. Defined.
Hint Resolve k_fail k_record k_unknown : kept.

Definition k_Reserve i p g f e ns :
  i = id -> keeping P (fun _ => store_call (fun now => ReserveAttemptPlan i net p g f e ns now)).
Proof. intros Hi. by apply (k_mine P _ (OpReserveAttemptPlan i net p g f e ns)). Defined.

Definition k_SetChange i a :
  i = id -> keeping P (fun _ => store_call (fun now => SetAttemptChangeAddress i a now)).
Proof. intros Hi. by apply (k_mine P _ (OpSetAttemptChangeAddress i a)). Defined.

Definition k_Complete i x raw f os c :
  i = id -> keeping P (fun _ => store_call (fun now => CompleteAttemptSigning i x raw f os c now)).
Proof. intros Hi. by apply (k_mine P _ (OpCompleteAttemptSigning i x raw f os c)). Defined.
Hint Resolve k_Reserve k_SetChange k_Complete : kept.

Definition k_replan fuel pol r w a c : AttemptID a = id -> keeping P (fun _ => replan cfg fuel pol r w a c).
Proof. intros. induction fuel; cbn [replan]; unfold failUnsigned; keep. Defined.

Definition k_change a : AttemptID a = id -> keeping P (fun _ => ensure_change_address a).
Proof.
  intros Hid. unfold ensure_change_address. keep_step; [keep|].
  apply (k_allocation P (WalletID a) ("internal_change_" +:+ AttemptID a)); [done|]. intros x. keep.
Defined.
Hint Resolve k_replan k_change : kept.

Definition k_planAttempt a : AttemptID a = id -> keeping P (fun _ => planAttempt cfg a).
Proof.
  intros. unfold planAttempt, failUnsigned. apply k_attempt; [done|]. intros x Hx.
  destruct x as [[b|]|]; [|keep..]. specialize (Hx b eq_refl).
  assert (AttemptID b = id) by congruence. keep.
Defined.
End planning.
Hint Resolve k_fail k_record k_unknown k_Complete k_planAttempt : kept.

Definition k_signer_failed P i u e :
  stable P -> i = id -> (forall d, P d -> planned i d) -> keeping P (fun _ => signer_failed u i e).
Proof.
  intros HP Hi Hpl. unfold signer_failed. keep. by apply k_mark_as.
Defined.

(** After the move to [signing], the attempt has left [planning] for good. *)
Definition k_begin {B} P i (k : forall H : Ports, TransactionAttempt -> S B) (no : B) :
  stable P -> i = id -> (forall a, AttemptID a = i -> keeping (fun d => P d /\ planned i d) (fun H => k H a)) ->
  keeping P (fun H => begun ← store_call (fun now => BeginAttemptSigning i now);
                    match begun with Err _ => mret no | Ok a => k H a end).
Proof.
  intros HP Hi Hk.
  apply (t_store _ (fun x => forall a, x = Ok a -> AttemptID a = i) P
    (fun x d => P d /\ (is_ok x = true -> planned i d))); [done|..].
  - intros now io d a Ha. by apply BeginAttemptSigning_planned in Ha as [].
  - intros now io d Hd. destruct (op_moves (OpBeginAttemptSigning i now) io d) as [Hg Hs]; [auto|done|].
    split; [done|]. split; [by eapply HP|]. destruct (BeginAttemptSigning i now io d) as [[a|] d'] eqn:Hb; [|done].
    intros _. pose proof (BeginAttemptSigning_planned i now io d a) as Hpl. rewrite Hb in Hpl. by apply Hpl.
  - intros [a|e] Ha.
    + eapply t_conseq; [..|apply (Hk a (Ha a eq_refl))].
      * apply stable_and; [done|]. intros d d' Hs Hpl _. eapply planned_stable; eauto.
      * intros d [Hd Hpl]. auto.
      * by intros _ d [].
    + apply t_ret; [|by intros d []]. apply stable_and; [done|]. by intros d d' _ _.
Defined.

Definition k_signAttempt P a : stable P -> AttemptID a = id -> keeping P (fun _ => signAttempt cfg a).
Proof.
  intros HP Ha. unfold signAttempt, failUnsigned. destruct (decodeRequest cfg a) as [[r wal]|]; [|keep].
  destruct (stored_plan cfg r wal a); [|keep]. apply k_begin; [done..|]. intros b Hb.
  assert (HQ : stable (fun d => P d /\ planned (AttemptID a) d)) by (apply stable_and; [done|apply planned_stable]).
  assert (AttemptID b = id) by congruence. keep. apply k_signer_failed; [done..|]. rewrite Hb. by intros ? [].
Defined.
Hint Resolve k_signAttempt : kept.

Section runs.
Context (P : db -> Prop) (HP : stable P).

Definition k_transition a s release :
  AttemptID a = id -> s <> reserved -> (ends_reservation s = true -> release = true) ->
  keeping P (fun _ => transition a s release).
Proof. intros. unfold transition. keep. by apply k_mark. Defined.
Hint Extern 1 (keeping _ (fun _ => transition _ _ _)) => (apply k_transition; [assumption|discriminate|done]) : kept.

Definition k_reconcileFinal a : AttemptID a = id -> keeping P (fun _ => reconcileFinal cfg a).
Proof. intros. unfold reconcileFinal. keep. Defined.

Definition k_reconcileExpired a : AttemptID a = id -> keeping P (fun _ => reconcileExpired cfg a).
Proof. intros. unfold reconcileExpired. keep. Defined.
Hint Resolve k_reconcileFinal k_reconcileExpired : kept.

Definition k_expire a : AttemptID a = id -> keeping P (fun _ => expire cfg a).
Proof. intros. unfold expire. keep. Defined.
Hint Resolve k_expire : kept.

Definition k_reconcileAttempt a : AttemptID a = id -> keeping P (fun _ => reconcileAttempt cfg a).
Proof. intros. unfold reconcileAttempt. keep. Defined.
Hint Resolve k_reconcileAttempt : kept.

Definition k_transitions fuel : keeping P (fun _ => transitions cfg fuel id).
Proof.
  induction fuel; cbn [transitions]; [keep|]. keep_step; [keep|]. keep_step; [keep|].
  apply k_attempt; [done|]. intros x Hx. destruct x as [[b|]|]; [|keep..]. specialize (Hx b eq_refl). keep.
Defined.
Hint Resolve k_transitions : kept.

Definition k_process : keeping P (fun _ => process cfg id).
Proof. unfold process. keep. Defined.
End runs.
End worker.

(** ** Requests and the recovery scan *)

Section requests.
Context (touches_queue : forall s q after, (length q <= max (length (sh_queue s)) (Z.to_nat recoveryBatchSize))%nat ->
  touches s {| sh_queue := q; sh_inflight := sh_inflight s; sh_after := after |}).
Context (P : db -> Prop) (HP : stable P).

Definition k_enqueue i : keeping P (fun _ => enqueue i).
Proof.
  apply (t_touch net G touches collab (fun s =>
    if Z.of_nat (length (sh_queue s)) <? recoveryBatchSize
    then (true, {| sh_queue := sh_queue s ++ [i]; sh_inflight := sh_inflight s; sh_after := sh_after s |})
    else (false, s))); [done|..].
  - intros H w. unfold enqueue. cbn. case_match; [done|]. by destruct w.
  - intros s. case_match; cbn.
    + apply touches_queue. rewrite length_app. cbn. unfold recoveryBatchSize in *. bool_to_prop. lia.
    + destruct s. apply touches_queue. cbn. lia.
Defined.
Hint Resolve k_enqueue : kept.

Definition k_Create p k r : keeping P (fun _ => Create cfg p k r).
Proof. unfold Create, enqueue_recoverable. keep. Defined.

Definition k_advance i : keeping P (fun _ => advance_after i).
Proof.
  apply (t_touch net G touches collab (fun s => (tt, {| sh_queue := sh_queue s; sh_inflight := sh_inflight s; sh_after := i |})));
    [done..|]. intros s. apply touches_queue. cbn. lia.
Defined.
Hint Resolve k_advance : kept.

Definition k_schedule n l : keeping P (fun _ => schedule n l).
Proof. revert n. induction l; intros; cbn [schedule]; keep. Defined.
Hint Resolve k_schedule : kept.

Definition k_scan : keeping P (@scheduleRecoverable).
Proof.
  unfold scheduleRecoverable. keep.
  apply (t_touch net G touches collab (fun s => ((sh_after s, Z.of_nat (length (sh_queue s))), s))); [done|..].
  - intros H w. by destruct w.
  - intros []. apply touches_queue. cbn. lia.
Defined.

Definition k_get p i : keeping P (fun _ => get_attempt cfg p i).
Proof. unfold get_attempt. keep. Defined.
End requests.
End calls.
