(* ===== verification/Custody.v ===== *)
(** Who holds an attempt's notes, and when they are let go.

    [uncertain_signing_holds]: from the moment signing may have begun, a worker
    never puts the attempt back among the cancellable ones.
    [release_needs_proof]: a worker marks an attempt final or released, the two
    moves that give its notes back after signing, only on the scanner's proof at
    the node's tip.  Both hold under every interference of [Rely.v]. *)
From S2P Require Import Prelude Tx GoString GoTime Sha256 Json Exchange Domain Config Database Attempts Receipts Wallets Journal Request Signer Coordinator Service Worker Demo Rely Programs Calls Coordination.

(** * What a state change does to the row *)

Inductive marked (s : AttemptState) (r : attempt_row) : attempt_row -> Prop :=
  | marked_not : marked s r r
  | marked_refresh now : marked s r (touch now r)
  | marked_moved c m rt now : allowedAttemptTransition (a_state r) s = true ->
      marked s r (set_state s c m rt now r).

Lemma MarkAttemptState_marked id s c m rt rel now io d r :
  db_attempts d !! id = Some r ->
  exists r', db_attempts (MarkAttemptState id s c m rt rel now io d).2 !! id = Some r' /\ marked s r r'.
Proof.
  intros Hr. destruct (MarkAttemptState _ _ _ _ _ _ _ _ _) as [u d'] eqn:H. cbn.
  assert (Hno : exists r', db_attempts d !! id = Some r' /\ marked s r r') by (exists r; split; [done|constructor]).
  unfold MarkAttemptState in H. case_match; [naive_solver|].
  apply run_tx_cases in H as [[-> _]|[(-> & _)|(? & ? & ? & _ & H)]]; [done..|].
  db_inv; effects; bool_to_prop; simplify_eq; cbn; eexists; rewrite lookup_insert_eq; (split; [done|]); by constructor.
Qed.

Lemma BeginAttemptSigning_keeps id now io d r :
  db_attempts d !! id = Some r -> a_state r <> reserved ->
  db_attempts (BeginAttemptSigning id now io d).2 !! id = Some r.
Proof.
  intros Hr Hs. destruct (BeginAttemptSigning id now io d) as [u d'] eqn:H. cbn. unfold BeginAttemptSigning in H.
  apply run_tx_cases in H as [[-> _]|[(-> & _)|(? & ? & ? & _ & H)]]; [done..|].
  by db_inv; effects; bool_to_prop; simplify_eq.
Qed.

Lemma BeginAttemptSigning_id id now io d a :
  (BeginAttemptSigning id now io d).1 = Ok a -> AttemptID a = id.
Proof. intros Ha. by apply BeginAttemptSigning_planned in Ha as []. Qed.

(** The attempt a read returned, against its row. *)
Record agrees (a : TransactionAttempt) (r : attempt_row) : Prop := {
  agrees_state : State a = a_state r;
  agrees_wallet : WalletID a = a_wallet_id r;
  agrees_txid : TxID a = null_string (a_txid r);
  agrees_expiry : ExpiryHeight a = default 0 (a_expiry_height r);
  agrees_notes : SelectedNoteIDs a = selected r
}.

Lemma scanAttempt_agrees id row a : scanAttempt id row = Ok a -> AttemptID a = id /\ agrees a row.
Proof. unfold scanAttempt. intros (c & _ & [= <-])%result_bind_ok. done. Qed.

(** * Runs that keep a property of one row *)

Section row.
Context `{Ports} (cfg : Config.Config) (id : string).
Context (interfere_others : forall n d, others (network cfg) id d (interfere n d)).
Context (allocate_others : forall n wallet label d, others (network cfg) id d (allocate n wallet label d).2).

(** [G] holds of the attempt's row, and a state change keeps it. *)
Definition row_is (G : attempt_row -> Prop) (d : db) : Prop := exists r, db_attempts d !! id = Some r /\ G r.

Definition row_moves (G : attempt_row -> Prop) (d d' : db) : Prop := row_is G d -> row_is G d'.

#[export] Instance row_moves_preorder G : PreOrder (row_moves G).
Proof. split; [intros ??|intros ?????]; unfold row_moves; eauto. Qed.

(** The properties cancellation does not break. *)
Class Tolerant (G : attempt_row -> Prop) : Prop :=
  tolerant : forall d d', others (network cfg) id d d' -> row_moves G d d'.

Lemma tolerant_uncancellable (G : attempt_row -> Prop) :
  (forall r, G r -> cancellable (a_state r) = false) -> Tolerant G.
Proof. intros HG d d' Ho (r & Hr & Hg). exists r. split; [|done]. eapply others_keep; eauto. Qed.

Lemma row_stable G : Stable (row_moves G) (row_is G).
Proof. intros d d' Hm. exact Hm. Qed.

(** The run [m] keeps [G] of the row and its result satisfies [Q]. *)
Definition holds {A} (G : attempt_row -> Prop) (m : S A) (Q : A -> Prop) : Prop :=
  run (row_moves G) (row_is G) m (fun a d => row_is G d /\ Q a).

Context (G : attempt_row -> Prop) {HG : Tolerant G}.

Lemma interfere_moves n d : row_moves G d (interfere n d).
Proof. by apply tolerant. Qed.

Lemma holds_ret {A} (a : A) (Q : A -> Prop) : Q a -> holds G (mret a) Q.
Proof. intros Ha. by apply run_ret; [apply _|]. Qed.

Lemma holds_bind {A B} (m : S A) (f : A -> S B) (Q : A -> Prop) (Q' : B -> Prop) :
  holds G m Q -> (forall a, Q a -> holds G (f a) Q') -> holds G (m ≫= f) Q'.
Proof.
  intros Hm Hf. eapply run_bind; [apply _|exact Hm|]. intros a w [Hw Ha]. by apply (Hf a Ha w).
Qed.

Lemma holds_seq {A B} (m : S A) (f : A -> S B) (Q' : B -> Prop) :
  holds G m (fun _ => True) -> (forall a, holds G (f a) Q') -> holds G (m ≫= f) Q'.
Proof. intros Hm Hf. by eapply holds_bind; [exact Hm|intros a _; apply Hf]. Qed.

Lemma holds_true {A} (m : S A) (Q : A -> Prop) : holds G m Q -> holds G m (fun _ => True).
Proof. intros Hm w Hw. destruct (Hm w Hw) as (? & ? & ?). done. Qed.

Lemma holds_ask {A} (f : nat -> A) : holds G (ask f) (fun a => exists n, f n = a).
Proof. apply run_ask, _. Qed.

Lemma holds_store {A} (f : time -> faults -> db -> A * db) (Q : A -> Prop) :
  (forall now io d r, db_attempts d !! id = Some r -> G r ->
     row_is G (f now io d).2 /\ Q (f now io d).1) ->
  holds G (store_call f) Q.
Proof.
  intros Hf. apply run_store; [apply _|apply interfere_moves|apply row_stable|].
  intros now io d (r & Hr & Hg). destruct (Hf now io d r Hr Hg) as [Hd Hq]. split; [by intros _|done].
Qed.

Lemma holds_read {A} (f : time -> faults -> db -> A * db) (Q : A -> Prop) :
  (forall now io d, (f now io d).2 = d) ->
  (forall now io d r, db_attempts d !! id = Some r -> G r -> Q (f now io d).1) ->
  holds G (store_call f) Q.
Proof.
  intros Hf HQ. apply holds_store. intros now io d r Hr Hg. rewrite Hf. split; [by exists r|by eapply HQ].
Qed.

Lemma holds_mark s c m rt rel :
  (forall r r', G r -> marked s r r' -> G r') -> holds G (mark id s c m rt rel) (fun _ => True).
Proof.
  intros Hm. apply holds_store. intros now io d r Hr Hg. split; [|done].
  destruct (MarkAttemptState_marked id s c m rt rel now io d r Hr) as (r' & Hr' & Hmk). exists r'. eauto.
Qed.

Lemma holds_attempt :
  holds G (store_call (fun _ => Attempts.Attempt id))
    (fun x => forall a, x = Ok (Some a) -> AttemptID a = id /\ exists r, agrees a r /\ G r).
Proof.
  apply holds_read; [intros; apply Attempt_reads|]. intros now io d r Hr Hg a Ha.
  apply Attempt_found in Ha as (row & Hrow & [Hid Hag]%scanAttempt_agrees). simplify_eq. eauto.
Qed.

Lemma holds_local {A} (m : S A) : (forall w, tables (m w).2 = tables w) -> holds G m (fun _ => True).
Proof. intros Hm w Hw. rewrite Hm. by split; [intros ?|]. Qed.

Lemma holds_unsealed : holds G requireAutomationUnsealed (fun _ => True).
Proof.
  apply holds_seq; [|by intros [[]|]; apply holds_ret].
  apply holds_read; [|done]. intros. apply CoordinatorRecoverySealed_reads.
Qed.

(** The proof of the scanner, as the answers of node and scanner it rests on. *)
Definition scanner_proved (wallet : string) (notes : list string) (tip : NodeTip) (st : WalletNoteStatuses)
    : Prop :=
  (exists n, good_tip cfg (node_Tip n) = Some tip) /\
  (exists n health, scanner_Health n = Ok health /\ healthy_at cfg health tip = true) /\
  (exists n, scanner_NoteStatuses n wallet notes = Ok (Some st)) /\
  statuses_spec st wallet notes /\ wns_AsOfScannerHeight st = tip_Height tip /\
  wns_AsOfScannerHash st = tip_Hash tip.

Lemma holds_scannerProof a :
  holds G (scannerProof cfg a)
    (fun o => forall tip st, o = Some (tip, st) -> scanner_proved (WalletID a) (SelectedNoteIDs a) tip st).
Proof.
  unfold scannerProof. eapply holds_bind; [apply holds_ask|]. intros t [n1 <-].
  destruct (good_tip cfg (node_Tip n1)) as [tip|] eqn:Htip; [|by apply holds_ret].
  eapply holds_bind; [apply holds_ask|]. intros h [n2 Hh].
  destruct h as [health|e]; [|by apply holds_ret].
  destruct (healthy_at cfg health tip) eqn:Hok; cbn [negb]; [|by apply holds_ret].
  eapply holds_bind; [apply holds_ask|]. intros x [n3 Hx]. apply holds_ret. intros tip' st.
  destruct x as [[st'|]|]; [|done..]. intros Heq. case_match eqn:Hb; [done|]. simplify_eq.
  bool_to_prop. split_and!; eauto. by apply note_statuses_spec.
Qed.

Lemma holds_pastExpiry a :
  holds G (pastExpiry cfg a) (fun _ => True).
Proof.
  unfold pastExpiry. case_match; [by apply holds_ret|]. apply holds_seq; [eapply holds_true, holds_ask|].
  intros x. by apply holds_ret.
Qed.
End row.

(** * Signing that may have begun *)

Definition may_be_signed (s : AttemptState) : bool :=
  match s with signing | signing_unknown => true | _ => signed_stage s end.

Lemma CompleteAttemptSigning_row id x raw f os c now io d r :
  db_attempts d !! id = Some r ->
  exists r', db_attempts (CompleteAttemptSigning id x raw f os c now io d).2 !! id = Some r' /\
    (r' = r \/ r' = set_signed x raw f os c now r).
Proof.
  intros Hr. destruct (CompleteAttemptSigning _ _ _ _ _ _ _ _ _) as [u d'] eqn:H. cbn.
  unfold CompleteAttemptSigning in H.
  apply run_tx_cases in H as [[-> _]|[(-> & _)|(? & ? & ? & _ & H)]]; [by eauto..|].
  db_inv; effects; simplify_eq; cbn; eexists; rewrite lookup_insert_eq; by eauto.
Qed.

Section uncertain.
Context `{Ports} (cfg : Config.Config) (id : string).
Context (interfere_others : forall n d, others (network cfg) id d (interfere n d)).

Definition held (r : attempt_row) : Prop := may_be_signed (a_state r) = true.

Lemma held_tolerant : Tolerant cfg id held.
Proof. apply tolerant_uncancellable. intros r. unfold held. by destruct (a_state r). Qed.

Lemma held_marked s r r' : may_be_signed s = true -> held r -> marked s r r' -> held r'.
Proof. unfold held. by destruct 3. Qed.

Notation safe m := (holds id held m (fun _ => True)).
#[local] Existing Instance held_tolerant.

Lemma safe_mark s c m rt rel : may_be_signed s = true -> safe (mark id s c m rt rel).
Proof. intros Hs. apply (holds_mark cfg id interfere_others held). intros r r'. by apply held_marked. Qed.

Lemma safe_unknown c m rt : safe (markSigningUnknown id c m rt).
Proof. eapply holds_seq; [by apply safe_mark|]. intros. by eapply holds_ret. Qed.

Lemma safe_transition a s rel : AttemptID a = id -> may_be_signed s = true -> safe (transition a s rel).
Proof.
  intros Hid Hs. unfold transition. rewrite Hid. case_match; [by eapply holds_ret|].
  eapply holds_seq; [by apply safe_mark|]. intros. by eapply holds_ret.
Qed.

Lemma safe_signAttempt a :
  AttemptID a = id -> State a = signing \/ State a = signing_unknown -> safe (signAttempt cfg a).
Proof.
  intros Hid Hst. unfold signAttempt. rewrite Hid.
  assert (Hu : bool_decide (State a = signing) || bool_decide (State a = signing_unknown) = true)
    by (by destruct Hst as [-> | ->]).
  assert (Hr : bool_decide (State a = reserved) = false) by (by destruct Hst as [-> | ->]).
  rewrite Hu, Hr. assert (Hmu : forall c m rt, safe (_ ← markSigningUnknown id c m rt; mret false)).
  { intros. eapply holds_seq; [apply safe_unknown|]. intros. by eapply holds_ret. }
  destruct (decodeRequest cfg a) as [[rq wal]|]; [|done].
  destruct (stored_plan cfg rq wal a) as [p|]; [|done].
  eapply holds_bind; [eapply (holds_store cfg id interfere_others held _ (fun x => forall b, x = Ok b -> AttemptID b = id))|].
  { intros now io d r Hr' Hh. split; [|intros b; apply BeginAttemptSigning_id].
    exists r. split; [|done]. apply BeginAttemptSigning_keeps; [done|]. intros Hc. unfold held in Hh. by rewrite Hc in Hh. }
  intros [b|e] Hb; [|by eapply holds_ret]. rewrite (Hb b eq_refl).
  eapply holds_bind; [by eapply holds_ask|]. intros [sr|e] _.
  - destruct (validateSignerResult _ _); [|done].
    eapply holds_seq; [|intros; by eapply holds_ret].
    apply (holds_store cfg id interfere_others held). intros now io d r Hr' Hh. split; [|done].
    destruct (CompleteAttemptSigning_row id (sr_TxID sr) (sr_RawTxHex sr) (sr_FeeZat sr)
      (approvedIndices rq (ChangeAddress a) sr) (sr_ChangeIndex sr) now io d r Hr') as (r' & Hl & [-> | ->]);
      eexists; by split.
  - unfold signer_failed. destruct (default _ _) as [[[c m] rt] u]. cbn [orb]. apply Hmu.
Qed.

Lemma safe_reconcile a : AttemptID a = id -> safe (reconcileAttempt cfg a).
Proof.
  intros Hid.
  assert (Ht : forall s rel (b : TransactionAttempt), AttemptID b = id -> may_be_signed s = true -> safe (transition b s rel))
    by (intros; by apply safe_transition).
  assert (Hx : forall b, AttemptID b = id -> safe (reconcileExpired cfg b)).
  { intros b Hb. unfold reconcileExpired. case_match; [by eapply holds_ret|].
    eapply holds_seq; [by eapply holds_true, holds_scannerProof|]. intros [[tip st]|]; [|by eapply holds_ret].
    repeat case_match; try by eapply holds_ret. by apply Ht. }
  assert (He : forall b, AttemptID b = id -> safe (expire cfg b)).
  { intros b Hb. unfold expire. eapply holds_seq; [by apply Ht|]. intros. by apply Hx. }
  unfold reconcileAttempt. eapply holds_seq; [by eapply holds_true, holds_ask|].
  intros [[tx|]|e]; [| |by eapply holds_ret].
  - repeat case_match; try (by eapply holds_ret); try (by apply Ht); try (by apply He).
    + eapply holds_seq; [by eapply holds_pastExpiry|]. intros []; [by apply He|by apply Ht].
    + unfold reconcileFinal. eapply holds_seq; [by eapply holds_true, holds_scannerProof|].
      intros [[tip st]|]; [|by eapply holds_ret]. case_match; [by apply Ht|by eapply holds_ret].
    + eapply holds_seq; [by apply Ht|]. intros. eapply holds_seq; [by eapply holds_pastExpiry|].
      intros []; [by apply He|by apply Hx].
  - eapply holds_seq; [by eapply holds_pastExpiry|]. intros []; [by apply He|by apply Hx].
Qed.

Lemma safe_transitions fuel : safe (transitions cfg fuel id).
Proof.
  induction fuel as [|fuel IH]; cbn [transitions]; [by eapply holds_ret|].
  eapply holds_seq; [by eapply holds_true, holds_ask|]. intros []; [by eapply holds_ret|].
  eapply holds_bind; [apply (holds_attempt cfg id interfere_others held)|]. intros [[a|]|e] Ha; [|by eapply holds_ret..].
  destruct (Ha a eq_refl) as (Hid & r & Hag & Hh). unfold held in Hh. rewrite <- (agrees_state _ _ Hag) in Hh.
  destruct (State a) eqn:Hst; try done; try (by eapply holds_ret); try (by apply safe_reconcile);
    (eapply holds_seq; [apply safe_signAttempt; auto|]); intros []; done || by eapply holds_ret.
Qed.

Lemma safe_process : safe (process cfg id).
Proof. eapply holds_seq; [apply (holds_unsealed cfg id interfere_others held)|]. intros []; [apply safe_transitions|by eapply holds_ret]. Qed.
End uncertain.

(** A row that stays so keeps its notes, and while it is not terminal their
    reservations. *)
Lemma held_reserves network id d d' row :
  reachable network d -> steps network d d' -> db_attempts d !! id = Some row -> may_be_signed (a_state row) = true ->
  row_is id held d' ->
  exists row', db_attempts d' !! id = Some row' /\ may_be_signed (a_state row') = true /\
    selected row' = selected row /\
    (terminalAttemptState (a_state row') = false ->
       forall n, n ∈ selected row -> holder d' (network, a_wallet_id row, n) = Some id).
Proof.
  intros [fk Hreach] Hs Hrow Hst (row' & Hrow' & Hst').
  destruct (steps_kept _ _ _ _ _ Hs Hrow) as (r2 & Hr2 & Hk). simplify_eq.
  assert (Hp : a_state row <> planning) by (intros Hc; by rewrite Hc in Hst).
  destruct (kept_plan _ _ Hk Hp) as [_ (_ & _ & _ & Hsel)].
  assert (Hn : selected row' = selected row) by (unfold selected; by rewrite Hsel).
  exists row'. split_and!; [done..|]. intros Ht n Hin.
  assert (Hw : a_wallet_id row' = a_wallet_id row) by apply (kept_identity _ _ Hk).
  assert (Hr' : reachable network d') by (exists fk; by eapply steps_trans).
  apply reachable_journal_wf in Hr' as [Hex _]. apply Hex. split; [done|]. exists row'. rewrite Hn.
  split_and!; try done. unfold held in Hst'. by destruct (a_state row').
Qed.

(** once an attempt's signing may have begun, running its worker never puts
    it back among the attempts that can be cancelled, replanned or failed as
    unsigned: whatever signer, node and scanner answer, whatever fails and
    whatever the others do, it stays signing, signing-unknown or signed, with the
    same notes, and while it is not terminal it holds every one of them. *)
Theorem uncertain_signing_holds `{Ports} cfg id w row :
  (forall n d, others (network cfg) id d (interfere n d)) ->
  (forall n wallet label d, others (network cfg) id d (allocate n wallet label d).2) ->
  reachable (network cfg) (tables w) ->
  db_attempts (tables w) !! id = Some row -> may_be_signed (a_state row) = true ->
  let d' := tables (process cfg id w).2 in
  exists row', db_attempts d' !! id = Some row' /\ may_be_signed (a_state row') = true /\
    selected row' = selected row /\
    (terminalAttemptState (a_state row') = false ->
       forall n, n ∈ selected row -> holder d' (network cfg, a_wallet_id row, n) = Some id).
Proof.
  intros Hi Ha Hreach Hrow Hst d'. eapply held_reserves; [done| |done..|].
  - apply (keeps_process cfg (fun n d => others_steps _ _ _ _ (Hi n d))
      (fun n x l d => others_steps _ _ _ _ (Ha n x l d)) (fun _ => True) (stable_true _) id w Logic.I).
  - destruct (safe_process cfg id Hi w) as [_ [Hheld _]]; [by exists row|done].
Qed.

(** * Notes given back after signing *)

Section release.
Context `{Ports} (cfg : Config.Config) (id : string).
Context (interfere_others : forall n d, others (network cfg) id d (interfere n d)).
Context (allocate_others : forall n wallet label d, others (network cfg) id d (allocate n wallet label d).2).
Context (confirmations : 0 <= DefaultConfirmations cfg <= maxConfirmationsLimit).

(** Every note is unspent well past the expiry of the transaction. *)
Definition expired_unspent (r : attempt_row) : Prop :=
  exists tip st, scanner_proved cfg (a_wallet_id r) (selected r) tip st /\
    Forall (fun s => ns_State s = NoteUnspent) (wns_Statuses st) /\
    0 < default 0 (a_expiry_height r) /\
    default 0 (a_expiry_height r) + DefaultConfirmations cfg <= tip_Height tip.

(** Every note is spent by the transaction, which the node has confirmed. *)
Definition spent_confirmed (r : attempt_row) : Prop :=
  exists n tx tip st, node_Transaction n (null_string (a_txid r)) false = Ok (Some tx) /\
    tx_State tx = "confirmed" /\ DefaultConfirmations cfg <= tx_Confirmations tx /\
    scanner_proved cfg (a_wallet_id r) (selected r) tip st /\
    Forall (fun s => ns_State s = NoteSpent /\ ns_SpentTxID s = Some (null_string (a_txid r))) (wns_Statuses st).

Definition justified (r : attempt_row) : Prop :=
  (a_state r = released -> expired_unspent r) /\ (a_state r = final -> spent_confirmed r).

(** The row the worker read: same transaction, still in a signed stage. *)
Definition read_row (a : TransactionAttempt) (r : attempt_row) : Prop :=
  justified r /\ signed_stage (a_state r) = true /\ WalletID a = a_wallet_id r /\
  TxID a = null_string (a_txid r) /\ ExpiryHeight a = default 0 (a_expiry_height r) /\
  SelectedNoteIDs a = selected r.

Lemma justified_tolerant : Tolerant cfg id justified.
Proof.
  intros d d' Ho (r & Hr & Hj). destruct (others_row _ _ _ _ _ Ho Hr) as (r' & Hr' & [-> | [_ Hc]]);
    [by exists r|exists r'; split; [done|]; by split; rewrite Hc].
Qed.

Lemma read_row_tolerant a : Tolerant cfg id (read_row a).
Proof. apply tolerant_uncancellable. intros r (_ & Hs & _). by destruct (a_state r). Qed.

#[local] Existing Instances justified_tolerant read_row_tolerant.

(** The states that give no notes back. *)
Definition keeps_notes (s : AttemptState) : bool := match s with final | released => false | _ => true end.

Lemma justified_open r : keeps_notes (a_state r) = true -> justified r.
Proof. intros Hs. split; intros Hc; by rewrite Hc in Hs. Qed.

Lemma justified_marked s r r' : keeps_notes s = true -> justified r -> marked s r r' -> justified r'.
Proof. intros Hs Hj Hm. destruct Hm; [done|done|by apply justified_open]. Qed.

Notation ok m := (holds id justified m (fun _ => True)).

Lemma ok_ret {A} (a : A) : ok (mret a).
Proof. by apply holds_ret. Qed.

Lemma ok_mark s c m rt rel : keeps_notes s = true -> ok (mark id s c m rt rel).
Proof. intros Hs. apply (holds_mark cfg id interfere_others justified). intros r r'. by apply justified_marked. Qed.

Lemma ok_store {A} (f : time -> faults -> db -> A * db) :
  (forall now io d r, db_attempts d !! id = Some r -> justified r -> row_is id justified (f now io d).2) ->
  ok (store_call f).
Proof. intros Hf. apply (holds_store cfg id interfere_others justified). intros now io d r Hr Hj. by eauto. Qed.

Lemma ok_read {A} (f : time -> faults -> db -> A * db) : (forall now io d, (f now io d).2 = d) -> ok (store_call f).
Proof. intros Hf. apply ok_store. intros now io d r Hr Hj. rewrite Hf. by exists r. Qed.

Lemma ok_ask {A} (f : nat -> A) : ok (ask f).
Proof. eapply holds_true, holds_ask. Qed.

Lemma ok_local {A} (m : S A) : (forall w, tables (m w).2 = tables w) -> ok m.
Proof. apply holds_local. Qed.

Create HintDb ok discriminated.
Hint Resolve ok_ret ok_ask : ok.
Hint Extern 1 (holds _ _ (mark _ _ _ _ _ _) _) => (apply ok_mark; reflexivity) : ok.

Ltac ok_step :=
  match goal with
  | |- holds _ _ (match ?x with _ => _ end) _ => destruct x eqn:?
  | |- holds _ _ (_ ≫= _) _ => apply holds_seq; [|intros]
  | |- holds _ _ (let '(_, _) := ?x in _) _ => destruct x
  | |- _ => solve [eauto with ok]
  end.
Ltac ok := repeat ok_step.

Lemma ok_Attempt i : ok (store_call (fun _ => Attempts.Attempt i)).
Proof. apply ok_read. intros. apply Attempt_reads. Qed.

Lemma ok_ActiveNoteIDs w : ok (store_call (fun _ => ActiveNoteIDs (network cfg) w)).
Proof. apply ok_read. intros. apply ActiveNoteIDs_reads. Qed.

Lemma ok_NoteReservations nw w : ok (store_call (fun _ => NoteReservations nw w)).
Proof. apply ok_read. intros. apply NoteReservations_reads. Qed.

Lemma ok_unsealed : ok requireAutomationUnsealed.
Proof. apply (holds_unsealed cfg id interfere_others justified). Qed.

(** The other writes leave the row justified, whichever it is. *)
Lemma ok_write {A} (f : time -> faults -> db -> A * db) :
  (forall now io d, attempt_write (fun _ => True) (fun _ s _ => keeps_notes s = true) d (f now io d).2) ->
  ok (store_call f).
Proof.
  intros Hf. apply ok_store. intros now io d r Hr Hj.
  assert (Hput : forall i row row', db_attempts d !! i = Some row -> (justified row -> justified row') ->
    exists r', <[i := row']> (db_attempts d) !! id = Some r' /\ justified r').
  { intros i row row' Hi Hk. destruct (decide (i = id)) as [->|].
    - rewrite lookup_insert_eq. simplify_eq. eauto.
    - rewrite lookup_insert_ne by done. eauto. }
  unfold row_is. destruct (Hf now io d) as
    [ | i row t Hnone _ Hst Hsel | i row a t Hi Hst _ | i row nw p g fee e ns t Hi Hst _ _ _ _ | i row t Hi Hst
    | i row x raw fee o c t Hi Hst | i row t Hi
    | i row s c m rt dt t Hi Hal Hs | i row s c m rt dt t Hi Hal _ Hs | i row t Hi Hst ]; cbn;
    try (eapply Hput; [exact Hi|]; intros Hj'; by apply justified_open); [eauto| | |].
  - rewrite lookup_insert_ne by congruence. eauto.
  - eapply Hput; [exact Hi|]. intros _. apply justified_open. cbn. by rewrite Hst.
  - by eapply Hput; [exact Hi|].
Qed.

Ltac ok_write_by l := apply ok_write; intros now io d;
  match goal with |- attempt_write _ _ _ ?x.2 => destruct x as [? ?] eqn:? end; cbn; eapply l; eassumption || done.

Lemma ok_Reserve i nw p g fee e ns : ok (store_call (fun now => ReserveAttemptPlan i nw p g fee e ns now)).
Proof.
  apply ok_write. intros now io d. destruct (ReserveAttemptPlan _ _ _ _ _ _ _ _ _ _) eqn:Hw.
  by eapply ReserveAttemptPlan_write; [|exact Hw].
Qed.

Lemma ok_Begin i : ok (store_call (fun now => BeginAttemptSigning i now)).
Proof. ok_write_by BeginAttemptSigning_write. Qed.

Lemma ok_Complete i x raw fee os c : ok (store_call (fun now => CompleteAttemptSigning i x raw fee os c now)).
Proof. ok_write_by CompleteAttemptSigning_write. Qed.

Lemma ok_SetChange i a : ok (store_call (fun now => SetAttemptChangeAddress i a now)).
Proof. ok_write_by SetAttemptChangeAddress_write. Qed.

(** A state change of any attempt that gives nothing back. *)
Lemma ok_mark_any i s c m rt rel : keeps_notes s = true -> ok (mark i s c m rt rel).
Proof.
  intros Hs. apply ok_write. intros now io d. destruct (MarkAttemptState _ _ _ _ _ _ _ _ _) eqn:Hw.
  by eapply MarkAttemptState_write; [|exact Hw].
Qed.

Hint Resolve ok_Attempt ok_ActiveNoteIDs ok_NoteReservations ok_unsealed ok_Reserve ok_Begin ok_Complete
  ok_SetChange : ok.
Hint Extern 1 (holds _ _ (mark _ _ _ _ _ _) _) => (apply ok_mark_any; reflexivity) : ok.

Lemma ok_fail i c m r : ok (failUnsignedWith i c m r).
Proof. unfold failUnsignedWith. ok. Qed.

Lemma ok_record i c m r : ok (recordPlanningError i c m r).
Proof. unfold recordPlanningError. ok. Qed.

Lemma ok_unknown i c m r : ok (markSigningUnknown i c m r).
Proof. unfold markSigningUnknown. ok. Qed.

Lemma ok_spendable w : ok (spendableSummary cfg w).
Proof. unfold spendableSummary. ok. Qed.

Lemma ok_batches fuel w ids m : ok (status_batches fuel w ids m).
Proof. revert ids m. induction fuel; intros; cbn [status_batches]; ok. Qed.
Hint Resolve ok_fail ok_record ok_unknown ok_spendable ok_batches : ok.

Lemma ok_reservedNotes w : ok (reservedNotes cfg w).
Proof. unfold reservedNotes. ok. Qed.
Hint Resolve ok_reservedNotes : ok.

Lemma ok_splitPolicy r w : ok (splitPolicy cfg r w).
Proof. unfold splitPolicy. ok. Qed.

Lemma ok_fundable r w c : ok (fundableWithoutReservations r w c).
Proof. unfold fundableWithoutReservations. ok. Qed.

Lemma ok_widen fuel pol r w c ex k p : ok (widen fuel pol r w c ex k p).
Proof. revert k p. induction fuel; intros; cbn [widen]; ok. Qed.
Hint Resolve ok_splitPolicy ok_fundable ok_widen : ok.

Lemma ok_replan fuel pol r w a c : ok (replan cfg fuel pol r w a c).
Proof. induction fuel; cbn [replan]; unfold failUnsigned; ok. Qed.

Lemma ok_change a : ok (ensure_change_address a).
Proof.
  unfold ensure_change_address. ok_step; [ok|]. apply holds_seq; [|intros; ok].
  intros w Hw. set (d1 := interfere _ _). pose proof (allocate_others (tick w) (WalletID a)
    ("internal_change_" +:+ AttemptID a) d1) as Hs.
  destruct (allocate _ _ _ d1) as [r d2] eqn:Ha. unfold d1 in *. cbn in *.
  assert (Hj : row_is id justified d2).
  { apply (justified_tolerant _ _ Hs), (justified_tolerant _ _ (interfere_others _ _)), Hw. }
  split; [by intros _|by split].
Qed.
Hint Resolve ok_replan ok_change : ok.

Lemma ok_planAttempt a : ok (planAttempt cfg a).
Proof. unfold planAttempt, failUnsigned. ok. Qed.

Lemma ok_signer_failed u i e : ok (signer_failed u i e).
Proof. unfold signer_failed. ok. Qed.
Hint Resolve ok_signer_failed : ok.

Lemma ok_signAttempt a : ok (signAttempt cfg a).
Proof. unfold signAttempt, failUnsigned. ok. Qed.

(** Reconciliation, from the row the worker read. *)
Section reconcile.
Context (a : TransactionAttempt) (Hid : AttemptID a = id).

Notation rec m := (holds id (read_row a) m (fun _ => True)).

Lemma rec_ret {A} (x : A) : rec (mret x).
Proof. by apply holds_ret. Qed.

Lemma read_row_marked s r r' :
  signed_stage s = true ->
  (s = released -> expired_unspent r) -> (s = final -> spent_confirmed r) ->
  read_row a r -> marked s r r' -> read_row a r'.
Proof.
  intros Hs Hrel Hfin (Hj & Hst & Hf) Hm. destruct Hm; [by split|by split|].
  split; [|by split]. by split; intros Hc; cbn in Hc; [apply Hrel|apply Hfin].
Qed.

Lemma rec_transition b s rel :
  AttemptID b = id -> signed_stage s = true ->
  (forall r, read_row a r -> s = released -> expired_unspent r) ->
  (forall r, read_row a r -> s = final -> spent_confirmed r) ->
  rec (transition b s rel).
Proof.
  intros Hb Hs Hrel Hfin. unfold transition. rewrite Hb. case_match; [apply rec_ret|].
  apply holds_seq; [|intros; apply rec_ret].
  apply (holds_mark cfg id interfere_others (read_row a)). intros r r' Hr. eapply read_row_marked; eauto.
Qed.

Lemma rec_open b s rel : AttemptID b = id -> signed_stage s = true -> keeps_notes s = true -> rec (transition b s rel).
Proof. intros Hb Hs Hk. apply rec_transition; [done..| |]; intros r _ ->; done. Qed.

Lemma rec_expired b :
  AttemptID b = id -> WalletID b = WalletID a -> SelectedNoteIDs b = SelectedNoteIDs a ->
  ExpiryHeight b = ExpiryHeight a -> rec (reconcileExpired cfg b).
Proof.
  intros Hb Hw Hn He. unfold reconcileExpired. rewrite He.
  destruct (valid_expiry (ExpiryHeight a)) eqn:Hv; cbn [negb]; [|apply rec_ret].
  eapply holds_bind; [eapply holds_scannerProof|]. intros [[tip st]|] Hp; [|apply rec_ret].
  destruct (Z.ltb_spec (tip_Height tip) (add64 (ExpiryHeight a) (DefaultConfirmations cfg))) as [|Htip]; [apply rec_ret|].
  destruct (forallb _ _) eqn:Hall; [|apply rec_ret].
  apply rec_transition; [done..| |by intros ? _ ?]. intros r (_ & _ & Hrw & _ & Hre & Hrn) _.
  exists tip, st. rewrite <- Hrw, <- Hre, <- Hrn, <- Hw, <- Hn.
  unfold valid_expiry in Hv. bool_to_prop. unfold maxConfirmationsLimit in confirmations.
  rewrite add64_id in Htip by (width; lia). split_and!; [by apply Hp| |lia|lia].
  apply Forall_forall. intros x Hx. eapply forallb_forall in Hall; [|by apply list_elem_of_In]. by bool_to_prop.
Qed.

Lemma rec_expire b :
  AttemptID b = id -> WalletID b = WalletID a -> SelectedNoteIDs b = SelectedNoteIDs a ->
  ExpiryHeight b = ExpiryHeight a -> rec (expire cfg b).
Proof. intros. unfold expire. apply holds_seq; [by apply rec_open|]. intros. by apply rec_expired. Qed.

Lemma rec_final n tx :
  node_Transaction n (TxID a) false = Ok (Some tx) -> tx_State tx = "confirmed" ->
  DefaultConfirmations cfg <= tx_Confirmations tx -> rec (reconcileFinal cfg a).
Proof.
  intros Htx Hst Hc. unfold reconcileFinal.
  eapply holds_bind; [eapply holds_scannerProof|]. intros [[tip st]|] Hp; [|apply rec_ret].
  destruct (forallb _ _) eqn:Hall; [|apply rec_ret].
  apply rec_transition; [done..|by intros ? _ ?|]. intros r (_ & _ & Hrw & Hrt & _ & Hrn) _.
  exists n, tx, tip, st. rewrite <- Hrw, <- Hrt, <- Hrn. split_and!; [done..|by apply Hp|].
  apply Forall_forall. intros x Hx. eapply forallb_forall in Hall; [|by apply list_elem_of_In].
  unfold spent_by in Hall. by bool_to_prop.
Qed.

Lemma rec_attempt : rec (reconcileAttempt cfg a).
Proof.
  assert (Hp : forall b, rec (pastExpiry cfg b)) by (intros b; by apply holds_pastExpiry).
  unfold reconcileAttempt. eapply holds_bind; [eapply holds_ask|]. intros [[tx|]|e] [n Hn]; [| |apply rec_ret].
  - repeat case_match; bool_to_prop; try apply rec_ret; try (by apply rec_open); try (by apply rec_expire).
    + apply holds_seq; [apply Hp|]. intros []; [by apply rec_expire|by apply rec_open].
    + by eapply rec_final.
    + apply holds_seq; [by apply rec_open|]. intros. apply holds_seq; [apply Hp|].
      intros []; [by apply rec_expire|by apply rec_expired].
  - apply holds_seq; [apply Hp|]. intros []; [by apply rec_expire|by apply rec_expired].
Qed.
End reconcile.

(** A run that keeps the stronger property of the row it starts from. *)
Lemma ok_from {A} (G : attempt_row -> Prop) (m : S A) :
  (forall r, G r -> justified r) -> holds id G m (fun _ => True) ->
  run (row_moves id justified) (row_is id G) m (fun _ => row_is id justified).
Proof.
  intros HG Hm w Hw. destruct (Hm w Hw) as (_ & (r & Hr & Hg) & _).
  assert (Hj : row_is id justified (tables (m w).2)) by (exists r; eauto). split; [by intros _|done].
Qed.

Definition after_read (x : result (option TransactionAttempt)) (d : db) : Prop :=
  row_is id justified d /\
  forall a, x = Ok (Some a) -> AttemptID a = id /\ row_is id (fun r => agrees a r /\ justified r) d.

Lemma ok_read_attempt :
  run (row_moves id justified) (row_is id justified) (store_call (fun _ => Attempts.Attempt id)) after_read.
Proof.
  apply run_read; [apply _|apply interfere_moves with cfg; apply _ || done|apply row_stable|intros; apply Attempt_reads|].
  intros now io d (r & Hr & Hj). split; [by exists r|]. intros a Ha.
  apply Attempt_found in Ha as (row & Hrow & [Hid Hag]%scanAttempt_agrees). simplify_eq. split; [done|]. by exists r.
Qed.

Lemma ok_weaken {A} (P : db -> Prop) (m : S A) :
  (forall d, P d -> row_is id justified d) -> ok m ->
  run (row_moves id justified) P m (fun _ => row_is id justified).
Proof. intros HP Hm. eapply run_conseq; [exact HP| |exact Hm]. by intros a d []. Qed.

Lemma ok_transitions fuel : ok (transitions cfg fuel id).
Proof.
  induction fuel as [|fuel IH]; cbn [transitions]; [ok|]. apply holds_seq; [ok|]. intros []; [ok|].
  apply (run_conseq _ _ (row_is id justified) (row_is id justified) _ (fun _ => row_is id justified)); [done|by split|].
  eapply run_bind; [apply _|exact ok_read_attempt|].
  intros x. assert (Hj : forall d, after_read x d -> row_is id justified d) by (by intros d []).
  destruct x as [[a|]|e]; [|by apply ok_weaken; [|ok]..].
  assert (Hrec : signed_stage (State a) = true ->
    run (row_moves id justified) (after_read (Ok (Some a))) (reconcileAttempt cfg a) (fun _ => row_is id justified)).
  { intros Hs w Hw. destruct (proj2 Hw a eq_refl) as [Hid _].
    apply (ok_from (read_row a) _ (fun r Hr => proj1 Hr) (rec_attempt a Hid)).
    destruct (proj2 Hw a eq_refl) as (_ & r & Hr & [[] Hjr]). exists r. split; [done|].
    split_and!; [done|congruence|done..]. }
  destruct (State a) eqn:Hst; try (by apply Hrec); apply ok_weaken; try done;
    try (apply holds_seq; [apply ok_planAttempt || apply ok_signAttempt|intros []; [done|]]); ok.
Qed.

Lemma ok_process : ok (process cfg id).
Proof. apply holds_seq; [ok|]. intros []; [apply ok_transitions|ok]. Qed.
End release.

(** running the worker of an attempt whose notes are still reserved marks it
    released only when the scanner, complete and at the tip of a synchronised
    node on this network, reports every one of its notes unspent at least the
    required confirmations past the transaction's expiry; and final only when the
    node has confirmed its transaction and the scanner reports every one of its
    notes spent by it. *)
Theorem release_needs_proof `{Ports} cfg id w row :
  (forall n d, others (network cfg) id d (interfere n d)) ->
  (forall n wallet label d, others (network cfg) id d (allocate n wallet label d).2) ->
  0 <= DefaultConfirmations cfg <= maxConfirmationsLimit ->
  db_attempts (tables w) !! id = Some row -> a_state row <> released -> a_state row <> final ->
  exists row', db_attempts (tables (process cfg id w).2) !! id = Some row' /\
    (a_state row' = released -> expired_unspent cfg row') /\
    (a_state row' = final -> spent_confirmed cfg row').
Proof.
  intros Hi Ha Hc Hrow Hr Hf. destruct (ok_process cfg id Hi Ha Hc w) as [_ ((row' & Hrow' & Hj) & _)]; [|by exists row'].
  exists row. split; [done|]. by split.
Qed.

(** * Concrete runs *)

Lemma demo_others id (d : db) : others "mainnet" id d d.
Proof. constructor. Qed.

Lemma demo_allocate_others height sign id n wallet label d :
  others "mainnet" id d (allocate (Ports := demo_ports height sign) n wallet label d).2.
Proof.
  eapply (others_step _ _ (OpAllocateAddress wallet label (Some (fun _ => Ok "j1change"%string)) (Z.of_nat n)) []);
    [done|by intros []|constructor].
Qed.

Lemma demo_unknown_runs :
  demo_unknown = serve (H := demo_ports 500 times_out) demo_cfg
                   [DoCreate "ops" "key-0000000001" demo_request; DoWork] (demo_svc demo_tables).
Proof.
  exact (eq_refl demo_unknown <: demo_unknown = serve (H := demo_ports 500 times_out) demo_cfg
           [DoCreate "ops" "key-0000000001" demo_request; DoWork] (demo_svc demo_tables)).
Qed.

Lemma demo_unknown_reachable : reachable "mainnet" (tables demo_unknown).
Proof.
  rewrite demo_unknown_runs. apply (serve_reaches (demo_ports 500 times_out) demo_cfg).
  - intros n. apply demo_tables_steps.
  - apply demo_allocate_steps.
  - apply demo_tables_reachable.
Qed.

(** The signer timed out; asked again, it signs. *)
Lemma uncertain_signing_holds_witness :
  state_of demo_unknown = Some signing_unknown /\
  exists row', db_attempts (tables (process (H := demo_ports 500 signs) demo_cfg the_id demo_unknown).2) !! the_id
                 = Some row' /\ a_state row' = signed /\
    holder (tables (process (H := demo_ports 500 signs) demo_cfg the_id demo_unknown).2)
      ("mainnet", "hot", note_b)%string = Some the_id.
Proof.
  assert (Hv : state_of demo_unknown = Some signing_unknown) by (vm_compute; reflexivity).
  assert (Hrow0 : (fun r => (a_wallet_id r, bool_decide (note_b ∈ selected r)))
    <$> db_attempts (tables demo_unknown) !! the_id = Some ("hot"%string, true)) by (vm_compute; reflexivity).
  assert (Hst : state_of (process (H := demo_ports 500 signs) demo_cfg the_id demo_unknown).2 = Some signed)
    by (vm_compute; reflexivity).
  split; [exact Hv|]. unfold state_of in Hv.
  destruct (db_attempts (tables demo_unknown) !! the_id) as [row|] eqn:Hrow; [|discriminate Hv].
  injection Hv as Hs. assert (Hm : may_be_signed (a_state row) = true) by (rewrite Hs; reflexivity).
  injection Hrow0 as Hw Hn. apply bool_decide_eq_true in Hn.
  pose proof (@uncertain_signing_holds (demo_ports 500 signs) demo_cfg the_id demo_unknown row
    (fun _ => demo_others the_id) (demo_allocate_others 500 signs the_id) demo_unknown_reachable Hrow Hm) as Hthm.
  cbv zeta in Hthm. change (network demo_cfg) with "mainnet"%string in Hthm. rewrite Hw in Hthm.
  revert Hst Hthm. generalize (process (H := demo_ports 500 signs) demo_cfg the_id demo_unknown).2.
  intros w' Hst (row' & Hrow' & _ & _ & Hhold). unfold state_of in Hst. rewrite Hrow' in Hst. injection Hst as Hst.
  rewrite Hst in Hhold. exact (ex_intro _ row' (conj Hrow' (conj Hst (Hhold eq_refl note_b Hn)))).
Defined.

(** The chain is far past the expiry and the notes are unspent. *)
Lemma release_needs_proof_witness :
  exists row', db_attempts (tables (process (H := demo_ports 2000 signs) demo_cfg the_id demo_signed).2) !! the_id
                 = Some row' /\ a_state row' = released /\
    expired_unspent (H := demo_ports 2000 signs) demo_cfg row'.
Proof.
  assert (Hv : state_of demo_signed = Some signed) by (vm_compute; reflexivity). unfold state_of in Hv.
  destruct (db_attempts (tables demo_signed) !! the_id) as [row|] eqn:Hrow; [|discriminate Hv].
  injection Hv as Hs. assert (H1 : a_state row <> released) by (rewrite Hs; discriminate).
  assert (H2 : a_state row <> final) by (rewrite Hs; discriminate).
  assert (Hc : 0 <= DefaultConfirmations demo_cfg <= maxConfirmationsLimit)
    by (vm_compute; split; discriminate).
  pose proof (@release_needs_proof (demo_ports 2000 signs) demo_cfg the_id demo_signed row
    (fun _ => demo_others the_id) (demo_allocate_others 2000 signs the_id) Hc Hrow H1 H2) as Hthm.
  assert (Hst : state_of (process (H := demo_ports 2000 signs) demo_cfg the_id demo_signed).2 = Some released)
    by (vm_compute; reflexivity).
  revert Hst Hthm. generalize (process (H := demo_ports 2000 signs) demo_cfg the_id demo_signed).2.
  intros w' Hst (row' & Hrow' & Hrel & _). unfold state_of in Hst. rewrite Hrow' in Hst. injection Hst as Hst.
  exact (ex_intro _ row' (conj Hrow' (conj Hst (Hrel Hst)))).
Defined.
