(* ===== verification/Concurrency.v ===== *)
(** The coordinator's goroutines ([Start], [worker] and [recoverLoop] of
    [internal/coordinator/service.go]) run side by side.

    A [state] holds the tables, the queue, the in-flight set and the recovery
    cursor, which all of them share, and the goroutines: four workers, the
    recovery loop and one for each request being served.  Each runs the program of
    its code ([Calls.v]) one call at a time, in any order; what other processes
    and the gateway's other requests do to the tables comes between any two calls.
    The wallet locks of [planAttempt] are left out: without them more orders are
    possible, and what is proved here holds of all of these. *)
From S2P Require Import Prelude Tx GoString GoTime Sha256 Domain Config Database Attempts Receipts Wallets Journal Request Signer Coordinator Service Worker Demo Rely Programs Calls Coordination Custody.

(** * What a goroutine's calls do *)

(** The calls of a goroutine that works on [own]. *)
Definition own_may (own : option string) (o : store_op) : Prop := forall id, worker_call_on id o -> own = Some id.

Inductive acts (network : string) (own : option string) : db -> db -> Prop :=
  | acts_refl d : acts network own d d
  | acts_step o io d d' :
      issued network o d -> own_may own o -> acts network own (exec o io d) d' -> acts network own d d'.

Lemma acts_op network own o io d : own_may own o -> issued network o d -> acts network own d (exec o io d).
Proof. intros Ho Hi. by eapply acts_step; [..|constructor]. Qed.

Lemma acts_steps network own d d' : acts network own d d' -> steps network d d'.
Proof. induction 1; [constructor|]. eapply steps_step; [by constructor|done]. Qed.

Lemma acts_others network own id d d' : own <> Some id -> acts network own d d' -> others network id d d'.
Proof. intros Hne. induction 1; [constructor|]. eapply others_step; [done|by intros Hw; apply Hne; auto|done]. Qed.

Lemma acts_weaken network own d d' : acts network None d d' -> acts network own d d'.
Proof. induction 1; [constructor|]. eapply acts_step; [done|by intros i Hw; discriminate (H0 i Hw)|done]. Qed.

Lemma may_other own o : (forall id, ~ worker_call_on id o) -> own_may own o.
Proof. intros Hno id Hw. by destruct (Hno id). Qed.

Lemma may_own id o : worker_call_on id o -> own_may (Some id) o.
Proof. destruct o; cbn; try done; intros -> i; cbn; congruence. Qed.

(** What requests and scans do to the shared state, and what a worker does within
    [process]: nothing. *)
Definition queues (s s' : shared) : Prop :=
  sh_inflight s' = sh_inflight s /\
  (length (sh_queue s') <= max (length (sh_queue s)) (Z.to_nat recoveryBatchSize))%nat.

Definition leaves (s s' : shared) : Prop := False.

(** * Goroutines *)

(** The handlers' calls. *)
Inductive request : Type :=
  | ReqCreate (principal idempotencyKey : string) (body : CreateRequest)
  | ReqAttempt (principal attemptID : string)
  | ReqActiveAttempts (principal walletID : string)
  | ReqCancel (principal attemptID : string)
  | ReqNoteInventory (walletID : string).

Inductive goroutine : Type :=
  | Receiving
  | Received (id : string)
  | Working (id : string) (H : Ports) (n : nat) (p : prog unit)
  | Scanning (H : Ports) (n : nat) (p : prog unit)
  | Handling (H : Ports) (n : nat) (p : prog unit)
  | Stopped.

Record state := { st_tables : db; st_shared : shared; st_goroutines : list goroutine }.

(** One call of a program. *)
Definition advance {A} (H : Ports) (n : nat) (p : prog A) (d : db) (s : shared) : option (nat * prog A * db * shared) :=
  match p with
  | Done _ => None
  | Asking f k => Some (Datatypes.S n, k (f (alone H) n), d, s)
  | Calling f k => let '(x, d') := f (alone H) n d in Some (Datatypes.S n, k x, d', s)
  | Touching f k => let '(x, s') := f s in Some (n, k x, d, s')
  end.

Section system.
Context (cfg : Config.Config).
Let net : string := network cfg.

(** The allocator makes no call that belongs to a worker. *)
Definition collaborates (H : Ports) : Prop := allocates (acts net None) H.

Lemma collaborates_allocates own H : collaborates H -> allocates (acts net own) H.
Proof. intros HH n wallet label d. apply acts_weaken, HH. Qed.

(** [process], cut at its calls. *)
Definition process_program (id : string) :=
  k_process cfg (own_may (Some id)) (acts net (Some id)) leaves collaborates (acts_refl net (Some id))
    (fun o io d => acts_op net (Some id) o io d) (acts_steps net (Some id)) (collaborates_allocates (Some id))
    id (may_own id)
    (fun _ => True) (stable_true _).
Definition process_prog (id : string) : prog unit := proj1_sig (process_program id).

Lemma queues_queue s q after :
  (length q <= max (length (sh_queue s)) (Z.to_nat recoveryBatchSize))%nat ->
  queues s {| sh_queue := q; sh_inflight := sh_inflight s; sh_after := after |}.
Proof. by split. Qed.

(** [scheduleRecoverable], cut at its calls. *)
Definition scan_program :=
  k_scan cfg (acts net None) queues collaborates (acts_refl net None) queues_queue (fun _ => True) (stable_true _).
Definition scan_prog : prog unit := proj1_sig scan_program.

Definition request_run (r : request) `{Ports} : S unit :=
  match r with
  | ReqCreate p k b => _ ← Create cfg p k b; mret tt
  | ReqAttempt p i => _ ← get_attempt cfg p i; mret tt
  | ReqActiveAttempts p w => _ ← ActiveAttempts cfg p w; mret tt
  | ReqCancel p i => _ ← Cancel p i; mret tt
  | ReqNoteInventory w => _ ← NoteInventory_of cfg w; mret tt
  end.

(** A handler's call, cut at its calls. *)
Definition request_program (r : request) :
  keeping cfg (acts net None) queues collaborates (fun _ => True) (fun H => request_run r).
Proof.
  pose proof (stable_true (steps net)) as HP. pose proof (acts_refl net None) as Hr.
  pose proof (fun o io d => acts_op net None o io d) as Ho. pose proof queues_queue as Hq.
  destruct r; cbn [request_run]; (apply k_bind; [|intros; by apply k_ret]).
  - by apply (k_Create cfg (own_may None) _ queues collaborates Hr Ho (may_other None) Hq).
  - by apply (k_get cfg _ queues collaborates Hr Hq).
  - by apply (k_list cfg _ queues collaborates Hr).
  - by apply (k_Cancel cfg (own_may None) _ queues collaborates Hr Ho (may_other None)).
  - by apply (k_inventory cfg _ queues collaborates Hr).
Defined.
Definition request_prog (r : request) : prog unit := proj1_sig (request_program r).

(** * Steps *)

(** One step of [worker]: it receives from the queue, looks at the in-flight set,
    makes a call of [process], or lets the attempt go.  [H] is what a run that
    starts now will meet. *)
Definition worker (H : Ports) (g : goroutine) (d : db) (s : shared) : option (goroutine * db * shared) :=
  match g with
  | Receiving =>
      match sh_queue s with
      | [] => None
      | id :: rest => Some (Received id, d, {| sh_queue := rest; sh_inflight := sh_inflight s; sh_after := sh_after s |})
      end
  | Received id =>
      if decide (id ∈ sh_inflight s) then Some (Receiving, d, s)
      else Some (Working id H 0 (process_prog id), d,
                 {| sh_queue := sh_queue s; sh_inflight := {[id]} ∪ sh_inflight s; sh_after := sh_after s |})
  | Working id H n p =>
      match advance H n p d s with
      | Some (n', p', d', s') => Some (Working id H n' p', d', s')
      | None => Some (Receiving, d,
                  {| sh_queue := sh_queue s; sh_inflight := sh_inflight s ∖ {[id]}; sh_after := sh_after s |})
      end
  | _ => None
  end.

(** One step of [recoverLoop]: it makes a call of its scan or, after it, waits for
    the ticker and starts again with [H]. *)
Definition recoverLoop (H H0 : Ports) (n : nat) (p : prog unit) (d : db) (s : shared)
    : option (goroutine * db * shared) :=
  match advance H0 n p d s with
  | Some (n', p', d', s') => Some (Scanning H0 n' p', d', s')
  | None => Some (Scanning H 0 scan_prog, d, s)
  end.

Definition go (H : Ports) (g : goroutine) (d : db) (s : shared) : option (goroutine * db * shared) :=
  match g with
  | Scanning H0 n p => recoverLoop H H0 n p d s
  | Handling H n p =>
      match advance H n p d s with
      | Some (n', p', d', s') => Some (Handling H n' p', d', s')
      | None => Some (Stopped, d, s)
      end
  | _ => worker H g d s
  end.

(** [case <-ctx.Done(): return] *)
Definition halt (g : goroutine) : option goroutine :=
  match g with Receiving | Scanning _ _ (Done _) => Some Stopped | _ => None end.

(** What happens next: goroutine [i] goes on, or sees that the context is done; a
    request arrives; or a call on the tables is made elsewhere. *)
Inductive event : Type :=
  | Go (i : nat) (H : Ports)
  | Halt (i : nat)
  | Arrive (r : request) (H : Ports)
  | Elsewhere (o : store_op) (io : faults).

Definition next (e : event) (st : state) : option state :=
  let gs := st_goroutines st in
  match e with
  | Go i H =>
      g ← gs !! i; '(g', d, s) ← go H g (st_tables st) (st_shared st);
      Some {| st_tables := d; st_shared := s; st_goroutines := <[i := g']> gs |}
  | Halt i =>
      g ← gs !! i; g' ← halt g;
      Some {| st_tables := st_tables st; st_shared := st_shared st; st_goroutines := <[i := g']> gs |}
  | Arrive r H =>
      Some {| st_tables := st_tables st; st_shared := st_shared st;
              st_goroutines := gs ++ [Handling H 0 (request_prog r)] |}
  | Elsewhere o io =>
      Some {| st_tables := exec o io (st_tables st); st_shared := st_shared st; st_goroutines := gs |}
  end.

(** [W]: the collaborators that a run may meet. *)
Context (W : Ports -> Prop).

Definition admissible (e : event) (st : state) : Prop :=
  match e with
  | Go _ H | Arrive _ H => W H
  | Halt _ => True
  | Elsewhere o _ => issued net o (st_tables st) /\ forall id, ~ worker_call_on id o
  end.

Definition step (st st' : state) : Prop := exists e, admissible e st /\ next e st = Some st'.

(** [NewService] and [Start] over the tables [d]. *)
Definition started (d : db) (H : Ports) : state :=
  {| st_tables := d;
     st_shared := {| sh_queue := []; sh_inflight := ∅; sh_after := "" |};
     st_goroutines := repeat Receiving (Z.to_nat workerCount) ++ [Scanning H 0 scan_prog] |}.

(** * The invariant *)

(** A program whose calls are those of a goroutine that works on [own]. *)
Definition settled (own : option string) (touches : relation shared) (p : prog unit) (d : db) : Prop :=
  exists P : db -> Prop, P d /\ safe net (acts net own) touches collaborates (fun _ _ => True) p P.

Lemma settled_stable own touches p d d' : steps net d d' -> settled own touches p d -> settled own touches p d'.
Proof. intros Hs (P & Hd & Hp). exists P. split; [|done]. eapply safe_stable; eauto. Qed.

Lemma settled_program own touches (p : prog unit) d :
  safe net (acts net own) touches collaborates (fun _ _ => True) p (fun _ => True) -> settled own touches p d.
Proof. intros Hp. by exists (fun _ => True). Qed.

Lemma process_settled id d : settled (Some id) leaves (process_prog id) d.
Proof. apply settled_program. exact (proj2 (proj2_sig (process_program id))). Qed.

Lemma scan_settled d : settled None queues scan_prog d.
Proof. apply settled_program. exact (proj2 (proj2_sig scan_program)). Qed.

Lemma request_settled r d : settled None queues (request_prog r) d.
Proof. apply settled_program. exact (proj2 (proj2_sig (request_program r))). Qed.

#[local] Opaque process_prog scan_prog request_prog.

Lemma advance_settled own touches H n p d s n' p' d' s' :
  collaborates H -> settled own touches p d -> advance H n p d s = Some (n', p', d', s') ->
  settled own touches p' d' /\ acts net own d d' /\ (s' = s \/ touches s s').
Proof.
  intros HH (P & Hd & Hp) Ha.
  destruct p as [a|X f k|X f k|X f k]; cbn in Hp, Ha; destruct Hp as [HP Hp]; simplify_eq.
  - split_and!; [by exists P|constructor|by left].
  - destruct Hp as (R & Hf & Hk).
    destruct (Hf H n d HH Hd) as [Hg HR].
    destruct (f _ n d) as [x d1]. simplify_eq. split_and!; [by exists (R x)|done|by left].
  - destruct Hp as [Hf Hk]. specialize (Hf s). destruct (f s) as [x s1]. simplify_eq.
    split_and!; [by exists P|constructor|by right].
Qed.

Context (W_collaborates : forall H, W H -> collaborates H).

(** The attempt a goroutine has in flight. *)
Definition owner (g : goroutine) : option string := match g with Working id _ _ _ => Some id | _ => None end.

Definition well_behaved (g : goroutine) (d : db) : Prop :=
  match g with
  | Working id H _ p => W H /\ settled (Some id) leaves p d
  | Scanning H _ p | Handling H _ p => W H /\ settled None queues p d
  | _ => True
  end.

Record wf (st : state) : Prop := {
  wf_goroutines i g : st_goroutines st !! i = Some g -> well_behaved g (st_tables st);
  wf_alone i j g h id : st_goroutines st !! i = Some g -> st_goroutines st !! j = Some h ->
    owner g = Some id -> owner h = Some id -> i = j;
  wf_inflight id : id ∈ sh_inflight (st_shared st) <-> exists i g, st_goroutines st !! i = Some g /\ owner g = Some id;
  wf_queue : (length (sh_queue (st_shared st)) <= Z.to_nat recoveryBatchSize)%nat
}.

Lemma well_behaved_stable g d d' : steps net d d' -> well_behaved g d -> well_behaved g d'.
Proof. intros Hs. destruct g; cbn; intros; destruct_and?; eauto using settled_stable. Qed.

(** What one step of a goroutine may do: its calls are its owner's; it keeps its
    attempt, takes a free one or lets it go. *)
Record moved (g g' : goroutine) (d d' : db) (s s' : shared) : Prop := {
  moved_good : well_behaved g' d';
  moved_acts : acts net (owner g) d d';
  moved_owner : (owner g' = owner g /\ sh_inflight s' = sh_inflight s) \/
    (exists id, owner g = None /\ owner g' = Some id /\ id ∉ sh_inflight s /\
                sh_inflight s' = {[id]} ∪ sh_inflight s) \/
    (exists id, owner g = Some id /\ owner g' = None /\ sh_inflight s' = sh_inflight s ∖ {[id]});
  moved_queue : (length (sh_queue s') <= max (length (sh_queue s)) (Z.to_nat recoveryBatchSize))%nat
}.

Lemma go_moved H g d s g' d' s' :
  W H -> well_behaved g d -> go H g d s = Some (g', d', s') -> moved g g' d d' s s'.
Proof.
  intros HH Hg Hgo. destruct g as [|id|id H0 n p|H0 n p|H0 n p|]; cbn in Hgo, Hg; unfold recoverLoop in *; [| | | | |done].
  - destruct (sh_queue s) as [|id rest] eqn:Hq; simplify_eq.
    split; cbn; [done|constructor|by left|rewrite Hq; cbn; lia].
  - case_decide as Hin; simplify_eq; [by split; [| constructor|left|lia]|].
    split; [|constructor|right; left; by exists id|cbn; lia].
    split; [done|]. apply process_settled.
  - destruct Hg as [HH0 Hp]. destruct (advance H0 n p d s) as [[[[n1 p1] d1] s1]|] eqn:Ha; simplify_eq.
    + destruct (advance_settled _ _ _ _ _ _ _ _ _ _ _ (W_collaborates _ HH0) Hp Ha) as (Hp' & Hacts & [-> | []]).
      split; [by split|done|by left|lia].
    + split; [done|constructor|right; right; by exists id|cbn; lia].
  - destruct Hg as [HH0 Hp]. destruct (advance H0 n p d s) as [[[[n1 p1] d1] s1]|] eqn:Ha; simplify_eq.
    + destruct (advance_settled _ _ _ _ _ _ _ _ _ _ _ (W_collaborates _ HH0) Hp Ha) as (Hp' & Hacts & [-> | [Hq Hl]]);
        (split; [by split|done|by left|lia]).
    + split; [|constructor|by left|lia]. split; [done|]. apply scan_settled.
  - destruct Hg as [HH0 Hp]. destruct (advance H0 n p d s) as [[[[n1 p1] d1] s1]|] eqn:Ha; simplify_eq.
    + destruct (advance_settled _ _ _ _ _ _ _ _ _ _ _ (W_collaborates _ HH0) Hp Ha) as (Hp' & Hacts & [-> | [Hq Hl]]);
        (split; [by split|done|by left|lia]).
    + by split; [|constructor|left|lia].
Qed.

Lemma wf_move st i g g' d' s' :
  wf st -> st_goroutines st !! i = Some g -> moved g g' (st_tables st) d' (st_shared st) s' ->
  wf {| st_tables := d'; st_shared := s'; st_goroutines := <[i := g']> (st_goroutines st) |}.
Proof.
  intros [Hgs Halone Hin Hq] Hi [Hgood Hacts Hown Hqueue]. pose proof (acts_steps _ _ _ _ Hacts) as Hsteps.
  assert (Hlen : (i < length (st_goroutines st))%nat) by (by eapply lookup_lt_Some).
  assert (Hother : forall id j h, j <> i -> st_goroutines st !! j = Some h -> owner h = Some id -> owner g' <> Some id).
  { intros id j h Hne Hj Hh Hg'. destruct Hown as [[Ho _]|[(id' & _ & Ho & Hfree & _)|(? & _ & Ho & _)]]; [|simplify_eq..].
    - rewrite Ho in Hg'. by destruct (Hne (Halone j i h g id Hj Hi Hh Hg')).
    - destruct Hfree. apply Hin. eauto. }
  split; cbn.
  - intros j h. rewrite list_lookup_insert_Some. intros [(<- & <- & _)|[Hne Hj]]; [done|].
    eapply well_behaved_stable; [done|]. by eapply Hgs.
  - intros j k h h' id. rewrite !list_lookup_insert_Some.
    intros [(<- & <- & _)|[Hne Hj]] [(<- & <- & _)|[Hne' Hk]] Hh Hh'; [done|..].
    + by destruct (Hother id k h').
    + by destruct (Hother id j h).
    + by eapply Halone.
  - intros id. split.
    + intros Hid. destruct (decide (owner g' = Some id)) as [Ho|Ho].
      { exists i, g'. by rewrite list_lookup_insert_eq. }
      assert (id ∈ sh_inflight (st_shared st) /\ owner g <> Some id) as [(j & h & Hj & Hh)%Hin Hg].
      { destruct Hown as [[Ho' Heq]|[(id' & Ho' & ? & _ & Heq)|(id' & Ho' & ? & Heq)]]; rewrite Heq in Hid.
        - split; [done|congruence].
        - split; [|congruence]. set_solver.
        - split; [set_solver|]. intros Hc. simplify_eq. set_solver. }
      exists j, h. split; [|done]. rewrite list_lookup_insert_ne; [done|]. intros <-. simplify_eq.
    + intros (j & h & Hj & Hh). apply list_lookup_insert_Some in Hj as [(<- & <- & _)|[Hne Hj]].
      * destruct Hown as [[Ho Heq]|[(id' & _ & Ho & _ & Heq)|(id' & _ & Ho & Heq)]]; rewrite Heq; simplify_eq.
        -- apply Hin. exists i, g. split; [done|congruence].
        -- set_solver.
      * assert (Hid : id ∈ sh_inflight (st_shared st)) by (apply Hin; eauto).
        destruct Hown as [[_ Heq]|[(id' & _ & _ & _ & Heq)|(id' & Ho & _ & Heq)]]; rewrite Heq; [done|set_solver|].
        apply elem_of_difference. split; [done|]. intros ->%elem_of_singleton.
        destruct Hne. by eapply (Halone i j g h).
  - lia.
Qed.

(** What a step is: a goroutine moves, by going on or by stopping; or a request
    arrives; or the tables change elsewhere. *)
Inductive stepped (st st' : state) : Prop :=
  | stepped_move i g g' :
      st_goroutines st !! i = Some g -> st_goroutines st' = <[i := g']> (st_goroutines st) ->
      moved g g' (st_tables st) (st_tables st') (st_shared st) (st_shared st') ->
      ((exists H, W H /\ go H g (st_tables st) (st_shared st) = Some (g', st_tables st', st_shared st')) \/
       (owner g = None /\ g' = Stopped)) -> stepped st st'
  | stepped_arrive r H :
      W H -> st_tables st' = st_tables st -> st_shared st' = st_shared st ->
      st_goroutines st' = st_goroutines st ++ [Handling H 0 (request_prog r)] -> stepped st st'
  | stepped_elsewhere :
      (forall id, others net id (st_tables st) (st_tables st')) ->
      st_shared st' = st_shared st -> st_goroutines st' = st_goroutines st -> stepped st st'.

Lemma step_stepped st st' : wf st -> step st st' -> stepped st st'.
Proof.
  intros Hwf ([i H|i|r H|o io] & Hadm & Hn); cbn in Hn.
  - apply bind_Some in Hn as (g & Hi & Hn). apply bind_Some in Hn as ([[g' d'] s'] & Hgo & [= <-]).
    eapply stepped_move; [done..| |by left; exists H].
    eapply go_moved; [done| |done]. by eapply wf_goroutines.
  - apply bind_Some in Hn as (g & Hi & Hn). apply bind_Some in Hn as (g' & Hh & [= <-]).
    assert (owner g = None /\ g' = Stopped) as [Ho ->].
    { destruct g as [|?|?|? ? []|?|]; cbn in *; by simplify_eq. }
    eapply stepped_move; [done..| |by right]. split; cbn; [done|constructor|left; by rewrite Ho|lia].
  - simplify_eq. by eapply stepped_arrive.
  - simplify_eq. destruct Hadm as [Hiss Hno]. apply stepped_elsewhere; [|done..].
    intros id. eapply others_step; [done|apply Hno|constructor].
Qed.

Lemma wf_step st st' : wf st -> step st st' -> wf st'.
Proof.
  intros Hwf Hstep. destruct (step_stepped st st' Hwf Hstep) as [i g g' Hi Hgs Hm _|r H HW Ht Hs Hgs|Ho Hs Hgs].
  - destruct st' as [d' s' gs']. cbn in *. subst gs'. by eapply wf_move.
  - destruct Hwf as [Hgood Halone Hin Hq]. split; rewrite ?Ht, ?Hs; [| | |done].
    + intros i g. rewrite Hgs. intros [Hi|(_ & Hi)]%lookup_app_Some; [by eapply Hgood|].
      apply list_lookup_singleton_Some in Hi as [_ <-]. split; [done|]. apply request_settled.
    + intros i j g h id. rewrite Hgs. intros [Hi|(_ & Hi)]%lookup_app_Some [Hj|(_ & Hj)]%lookup_app_Some;
        [by eapply Halone|by apply list_lookup_singleton_Some in Hj as [_ <-]
        |by apply list_lookup_singleton_Some in Hi as [_ <-]..].
    + intros id. rewrite Hin, Hgs. split; intros (i & g & Hi & Hg); exists i, g; (split; [|done]).
      * by apply lookup_app_l_Some.
      * apply lookup_app_Some in Hi as [Hi|(_ & Hi)]; [done|]. by apply list_lookup_singleton_Some in Hi as [_ <-].
  - destruct Hwf as [Hgood Halone Hin Hq]. split; rewrite ?Hs, ?Hgs; [|done..].
    intros i g Hi. eapply well_behaved_stable; [eapply others_steps, (Ho "")|]. by eapply Hgood.
Qed.

Lemma started_goroutines d H i g :
  st_goroutines (started d H) !! i = Some g -> g = Receiving \/ g = Scanning H 0 scan_prog.
Proof.
  intros Hi%list_elem_of_lookup_2. change (g ∈ [Receiving; Receiving; Receiving; Receiving; Scanning H 0 scan_prog]) in Hi.
  rewrite !elem_of_cons, elem_of_nil in Hi. naive_solver.
Qed.

Lemma started_wf d H : W H -> wf (started d H).
Proof.
  intros HH. split.
  - intros i g [-> | ->]%started_goroutines; [done|]. split; [done|]. apply scan_settled.
  - by intros i j g h id [-> | ->]%started_goroutines.
  - intros id. split; [cbn; set_solver|]. by intros (i & g & [-> | ->]%started_goroutines & ?).
  - cbn. lia.
Qed.

Lemma reachable_wf d H st : W H -> rtc step (started d H) st -> wf st.
Proof.
  intros HH Hs. revert st Hs. apply (rtc_ind_r wf); [by apply started_wf|].
  intros y z _ Hyz Hy. by eapply wf_step.
Qed.
End system.

(** * Schedules *)

(** The events in order, as long as every state reached has [φ]. *)
Fixpoint run_while (cfg : Config.Config) (φ : state -> bool) (es : list event) (st : state) : option state :=
  match es with
  | [] => Some st
  | e :: es' => st' ← next cfg e st; if φ st' then run_while cfg φ es' st' else None
  end.

Definition run_events (cfg : Config.Config) : list event -> state -> option state := run_while cfg (fun _ => true).

(** Whom a schedule meets; it has no call made elsewhere. *)
Definition meets (W : Ports -> Prop) (e : event) : Prop :=
  match e with Go _ H | Arrive _ H => W H | Halt _ => True | Elsewhere _ _ => False end.

Lemma run_while_rtc cfg W φ es st st' :
  Forall (meets W) es -> run_while cfg φ es st = Some st' ->
  rtc (fun a b => step cfg W a b /\ φ b = true) st st'.
Proof.
  revert st. induction es as [|e es IH]; intros st Hes Hrun; cbn in Hrun; [by simplify_eq|].
  apply bind_Some in Hrun as (st1 & He & Hrun). apply Forall_cons in Hes as [Hm Hes].
  destruct (φ st1) eqn:Hφ; [|done]. eapply rtc_l; [|by apply IH].
  split; [|done]. exists e. split; [|done]. by destruct e.
Qed.

Lemma run_events_rtc cfg W es st st' :
  Forall (meets W) es -> run_events cfg es st = Some st' -> rtc (step cfg W) st st'.
Proof. intros Hes Hrun. eapply rtc_subrel, run_while_rtc; [|done..]. by intros ? ? []. Qed.

Lemma demo_collaborates height sign : collaborates demo_cfg (demo_ports height sign).
Proof.
  intros n wallet label d.
  eapply (acts_step _ _ (OpAllocateAddress wallet label (Some (fun _ => Ok "j1change"%string)) (Z.of_nat n)) []);
    [done|by intros ? []|constructor].
Qed.

(** C15: however the goroutines interleave, no two of them ever work on the same
    attempt; the in-flight set holds exactly the attempts being worked on; and the
    queue never exceeds its capacity. *)
Theorem attempts_are_worked_alone cfg W d H st :
  (forall H, W H -> collaborates cfg H) -> W H -> rtc (step cfg W) (started cfg d H) st ->
  (forall i j g h id, st_goroutines st !! i = Some g -> st_goroutines st !! j = Some h ->
     owner g = Some id -> owner h = Some id -> i = j) /\
  (forall id, id ∈ sh_inflight (st_shared st) <->
     exists i g, st_goroutines st !! i = Some g /\ owner g = Some id) /\
  Z.of_nat (length (sh_queue (st_shared st))) <= recoveryBatchSize.
Proof.
  intros HW HH Hst. destruct (reachable_wf cfg W HW d H st HH Hst) as [_ Halone Hin Hq].
  split_and!; [done..|]. unfold recoveryBatchSize in *. lia.
Qed.

Definition demo_create (H : Ports) : event := Arrive (ReqCreate "ops" "key-0000000001" demo_request) H.

(** A request and its replay queue the attempt twice; one worker takes it, and a
    second receives it while the first is working. *)
Definition queued_twice : list event :=
  let H := demo_ports 500 signs in
  [demo_create H; demo_create H] ++ repeat (Go 5 H) 6 ++ repeat (Go 6 H) 6 ++ repeat (Go 0 H) 6 ++ repeat (Go 1 H) 2.

Lemma attempts_are_worked_alone_witness :
  let o := run_events demo_cfg queued_twice (started demo_cfg demo_tables (demo_ports 500 signs)) in
  (fun st => map owner (st_goroutines st)) <$> o = Some [Some the_id; None; None; None; None; None; None] /\
  forall st, o = Some st -> Z.of_nat (length (sh_queue (st_shared st))) <= recoveryBatchSize /\
    exists g, st_goroutines st !! 0%nat = Some g /\ owner g = Some the_id /\
      forall j h, st_goroutines st !! j = Some h -> owner h = Some the_id -> j = 0%nat.
Proof.
  intros o. assert (Hv : (fun st => map owner (st_goroutines st)) <$> o
    = Some [Some the_id; None; None; None; None; None; None]) by (vm_compute; reflexivity).
  split; [exact Hv|]. intros st Ho. rewrite Ho in Hv. injection Hv as Hv.
  assert (Hrun : rtc (step demo_cfg (eq (demo_ports 500 signs))) (started demo_cfg demo_tables (demo_ports 500 signs)) st).
  { apply (run_events_rtc demo_cfg _ queued_twice); [repeat constructor|exact Ho]. }
  destruct (attempts_are_worked_alone demo_cfg (eq (demo_ports 500 signs)) demo_tables (demo_ports 500 signs) st
    (fun H HH => eq_ind _ (collaborates demo_cfg) (demo_collaborates 500 signs) H HH) eq_refl Hrun) as (Halone & _ & Hq).
  split; [exact Hq|]. destruct (st_goroutines st) as [|g gs] eqn:Hgs; [discriminate Hv|].
  injection Hv as Hg _. exists g. split; [reflexivity|]. split; [exact Hg|]. intros j h Hj Hh.
  exact (Halone j 0%nat h g the_id Hj eq_refl Hh Hg).
Defined.
