(* ===== verification/Interleaving.v ===== *)
(** Each worker's run, in any interleaving, is a run of the model.

    [workers_run_the_model]: what a goroutine does between [beginAttempt] and the
    end of [process], whatever the others do meanwhile, is [process] of
    [Worker.v] under an interference that keeps to [others]; so the theorems about
    that run hold of every interleaving.  [uncertain_signing_holds_concurrently]
    and [release_needs_proof_concurrently] draw the consequences for the whole
    service, over any number of runs. *)
From S2P Require Import Prelude Tx GoString GoTime Sha256 Domain Config Database Attempts Receipts Wallets Journal Request Signer Coordinator Service Worker Demo Rely Programs Calls Coordination Custody Concurrency.

#[local] Instance wallet_row_eq_dec : EqDecision wallet_row.
Proof. solve_decision. Defined.
#[local] Instance address_row_eq_dec : EqDecision address_row.
Proof. solve_decision. Defined.
#[local] Instance receipt_row_eq_dec : EqDecision receipt_row.
Proof. solve_decision. Defined.
#[local] Instance attempt_row_eq_dec : EqDecision attempt_row.
Proof. solve_decision. Defined.
#[local] Instance reservation_row_eq_dec : EqDecision reservation_row.
Proof. solve_decision. Defined.
#[local] Instance event_row_eq_dec : EqDecision event_row.
Proof. solve_decision. Defined.
#[export] Instance db_eq_dec : EqDecision db.
Proof. solve_decision. Defined.

Section run.
Context (cfg : Config.Config) (W : Ports -> Prop).
Context (W_collaborates : forall H, W H -> collaborates cfg H).
Let net : string := network cfg.
Notation step := (step cfg W).
Notation wf := (wf cfg W).

(** The coordinator as the run of call number [n] sees it. *)
Definition world (d : db) (s : shared) (n : nat) : svc :=
  put_shared s {| tables := d; queue := []; inflight := ∅; recoveryAfter := ""; tick := n |}.

(** The run of [process] on [id], from the tables [d0], has made its calls up to
    number [n] under the interference [J]: it has [p] left, and its last call left
    the tables [d]. *)
Definition reached (id : string) (H : Ports) (J : nat -> db -> db) (d0 : db) (n : nat) (p : prog unit) (d : db) : Prop :=
  (forall m x, others net id x (J m x)) /\
  forall J' s, (forall m x, (m < n)%nat -> J' m x = J m x) ->
    process cfg id (H := with_interference J' H) (world d0 s 0) = denote p (with_interference J' H) (world d s n).

Lemma reached_start id H d0 : reached id H (fun _ d => d) d0 0 (process_prog cfg id) d0.
Proof.
  split; [constructor|]. intros J' s _. apply (proj1 (proj2_sig (process_program cfg id))).
Qed.

#[local] Opaque process_prog scan_prog request_prog.

Lemma reached_advance id H J d0 n p dl d s n' p' d' s' :
  reached id H J d0 n p dl -> others net id dl d -> settled cfg (Some id) leaves p d ->
  advance H n p d s = Some (n', p', d', s') ->
  exists J' dl', reached id H J' d0 n' p' dl' /\ others net id dl' d'.
Proof.
  intros [HJ Hr] Ho (P & Hd & Hs) Ha.
  destruct p as [a|X f k|X f k|X f k]; cbn in Ha, Hs; destruct Hs as [HP Hs]; simplify_eq.
  - exists J, dl. split; [|done]. split; [done|]. intros J' sh Hag. by rewrite Hr by (intros; apply Hag; lia).
  - destruct (f (alone H) n d) as [x d1] eqn:Hf. simplify_eq.
    exists (fun m y => if decide (m = n /\ y = dl) then d else J m y), d'. split; [|constructor]. split.
    + intros m y. case_decide as Hc; [by destruct Hc as [_ ->]|apply HJ].
    + intros J' sh Hag. rewrite Hr.
      * cbn. rewrite Hag, decide_True by (done || lia). change (alone (with_interference J' H)) with (alone H). by rewrite Hf.
      * intros m y Hm. rewrite Hag by lia. rewrite decide_False; [done|]. lia.
  - destruct Hs as [Hl _]. destruct (Hl s).
Qed.

Lemma reached_end id H J d0 n d s :
  reached id H J d0 n (Done tt) d -> tables (process cfg id (H := with_interference J H) (world d0 s 0)).2 = d.
Proof. intros [_ Hr]. by rewrite (Hr J s). Qed.

(** Goroutine [i] works on [id], in a run that began with the tables [d0]. *)
Definition tracked (i : nat) (id : string) (H : Ports) (d0 : db) (st : state) : Prop :=
  exists n p J d, st_goroutines st !! i = Some (Working id H n p) /\
    reached id H J d0 n p d /\ others net id d (st_tables st).

(** A step of another goroutine. *)
Lemma tracked_aside i id H d0 st st' :
  tracked i id H d0 st -> st_goroutines st' !! i = st_goroutines st !! i ->
  others net id (st_tables st) (st_tables st') -> tracked i id H d0 st'.
Proof.
  intros (n & p & J & d & Hi & Hr & Ho) Hgs Hd. exists n, p, J, d. rewrite Hgs. split_and!; [done..|]. by etrans.
Qed.

(** A step keeps the run tracked, or is its end. *)
Lemma tracked_step i id H d0 st st' :
  wf st -> step st st' -> tracked i id H d0 st ->
  tracked i id H d0 st' \/
  (sh_inflight (st_shared st') = sh_inflight (st_shared st) ∖ {[id]} /\
   exists J, (forall m x, others net id x (J m x)) /\ forall s,
     others net id (tables (process cfg id (H := with_interference J H) (world d0 s 0)).2) (st_tables st')).
Proof.
  intros Hwf Hstep Htr.
  destruct (step_stepped cfg W W_collaborates st st' Hwf Hstep) as [j g g' Hj Hgs Hm Hgo|r H' HW Ht Hs Hgs|Ho Hs Hgs].
  - destruct (decide (j = i)) as [->|Hne].
    + destruct Htr as (n & p & J & d & Hi & Hr & Ho). simplify_eq.
      destruct (wf_goroutines _ _ _ Hwf _ _ Hi) as [HW Hset].
      assert (Hlen : (i < length (st_goroutines st))%nat) by (by eapply lookup_lt_Some).
      destruct Hgo as [(H1 & _ & Hgo)|[Hno _]]; [|done]. cbn in Hgo.
      destruct (advance H n p _ _) as [[[[n' p'] d'] s']|] eqn:Ha; simplify_eq.
      * left. destruct (reached_advance _ _ _ _ _ _ _ _ _ _ _ _ _ Hr Ho Hset Ha) as (J' & dl & Hr' & Ho').
        exists n', p', J', dl. split_and!; [|done|congruence]. by rewrite Hgs, list_lookup_insert_eq.
      * right. destruct p as [[]|X f k|X f k|X f k]; cbn in Ha; try done;
          [|by destruct (f _ _ _)|by destruct (f _)].
        split; [by match goal with H : _ = st_shared st' |- _ => rewrite <- H end|].
        exists J. split; [apply Hr|]. intros s. rewrite (reached_end _ _ _ _ _ _ _ Hr). congruence.
    + left. apply (tracked_aside i id H d0 st); [done|by rewrite Hgs, list_lookup_insert_ne|].
      destruct Htr as (n & p & J & d & Hi & _). eapply acts_others; [|apply (moved_acts _ _ _ _ _ _ _ _ Hm)].
      intros Hc. destruct Hne. by eapply (wf_alone _ _ _ Hwf j i).
  - left. apply (tracked_aside i id H d0 st); [done| |rewrite Ht; constructor].
    destruct Htr as (n & p & J & d & Hi & _). rewrite Hi, Hgs. by apply lookup_app_l_Some.
  - left. by apply (tracked_aside i id H d0 st); [|rewrite Hgs|].
Qed.

(** Where a run begins. *)
Lemma tracked_start i id H st :
  st_goroutines st !! i = Some (Working id H 0 (process_prog cfg id)) -> tracked i id H (st_tables st) st.
Proof.
  intros Hi. exists 0%nat, (process_prog cfg id), (fun _ d => d), (st_tables st).
  split_and!; [done|apply reached_start|constructor].
Qed.

(** A step with no run on [id] leaves it to the others, or begins one. *)
Lemma idle_step id st st' :
  wf st -> step st st' -> id ∉ sh_inflight (st_shared st) ->
  others net id (st_tables st) (st_tables st') /\
  (id ∉ sh_inflight (st_shared st') \/ exists i H, W H /\ tracked i id H (st_tables st) st').
Proof.
  intros Hwf Hstep Hid.
  destruct (step_stepped cfg W W_collaborates st st' Hwf Hstep) as [j g g' Hj Hgs Hm Hgo|r H' HW Ht Hs Hgs|Ho Hs Hgs].
  - assert (Hown : owner g <> Some id) by (intros Hc; apply Hid, (wf_inflight _ _ _ Hwf); eauto).
    split; [eapply acts_others; [exact Hown|apply (moved_acts _ _ _ _ _ _ _ _ Hm)]|].
    destruct (moved_owner _ _ _ _ _ _ _ _ Hm) as [[_ Hin]|[(id' & Hno & Hg' & _ & Hin)|(id' & _ & _ & Hin)]];
      [left; by rewrite Hin| |left; rewrite Hin; set_solver].
    destruct (decide (id' = id)) as [->|Hne]; [right|left; rewrite Hin; set_solver].
    destruct Hgo as [(H & HW & Hgo)|[_ ->]]; [|done].
    assert (g' = Working id H 0 (process_prog cfg id) /\ st_tables st' = st_tables st) as [-> Ht].
    { destruct g as [|i|i H0 n p|H0 n p|H0 n p|]; cbn in Hgo, Hno; unfold recoverLoop in Hgo; try done; repeat case_match; by simplify_eq/=. }
    exists j, H. split; [done|]. rewrite <- Ht. apply tracked_start. rewrite Hgs.
    apply list_lookup_insert_eq. by eapply lookup_lt_Some.
  - split; [rewrite Ht; constructor|left; by rewrite Hs].
  - split; [done|left; by rewrite Hs].
Qed.

(** * Invariants of one attempt, from one idle moment to another *)

Section quiescent.
Context (id : string) (Φ : db -> Prop).
Context (Φ_others : forall d d', others net id d d' -> Φ d -> Φ d').
Context (Φ_run : forall H J s d, W H -> (forall m x, others net id x (J m x)) ->
  Φ d -> Φ (tables (process cfg id (H := with_interference J H) (world d s 0)).2)).

Definition kept_at (st : state) : Prop :=
  (id ∉ sh_inflight (st_shared st) /\ Φ (st_tables st)) \/ exists i H d0, W H /\ Φ d0 /\ tracked i id H d0 st.

Lemma kept_step st st' : wf st -> step st st' -> kept_at st -> kept_at st'.
Proof.
  intros Hwf Hstep [[Hid HΦ]|(i & H & d0 & HW & HΦ & Htr)].
  - destruct (idle_step id st st' Hwf Hstep Hid) as [Ho [Hid'|(i & H & HW & Htr)]].
    + left. split; [done|]. by eapply Φ_others.
    + right. by exists i, H, (st_tables st).
  - destruct (tracked_step i id H d0 st st' Hwf Hstep Htr) as [Htr'|[Hin (J & HJ & Ho)]].
    + right. by exists i, H, d0.
    + left. split; [rewrite Hin; set_solver|]. eapply Φ_others; [apply (Ho (st_shared st))|]. by apply Φ_run.
Qed.

Lemma quiescent_kept st st' :
  wf st -> rtc step st st' -> id ∉ sh_inflight (st_shared st) -> Φ (st_tables st) ->
  id ∉ sh_inflight (st_shared st') -> Φ (st_tables st').
Proof.
  intros Hwf Hs Hid HΦ Hid'.
  assert (kept_at st' /\ wf st') as [[[_ ?]|(i & H & d0 & _ & _ & n & p & J & d & Hi & _)] Hwf']; [|done|].
  { revert st' Hs Hid'. intros st' Hs _. revert st' Hs. apply rtc_ind_r; [split; [by left|done]|].
    intros y z _ Hyz [Hk Hy]. split; [by eapply kept_step|by eapply wf_step]. }
  destruct Hid'. apply (wf_inflight _ _ _ Hwf'). eauto.
Qed.
End quiescent.

Lemma step_steps st st' : wf st -> step st st' -> steps net (st_tables st) (st_tables st').
Proof.
  intros Hwf Hstep. destruct (step_stepped cfg W W_collaborates st st' Hwf Hstep) as [j g g' _ _ Hm _|r H' _ Ht _ _|Ho _ _].
  - eapply acts_steps, (moved_acts _ _ _ _ _ _ _ _ Hm).
  - rewrite Ht. constructor.
  - eapply others_steps, (Ho "").
Qed.

Lemma run_steps st st' : wf st -> rtc step st st' -> steps net (st_tables st) (st_tables st').
Proof.
  intros Hwf Hs. assert (steps net (st_tables st) (st_tables st') /\ wf st') as [? _]; [|done].
  revert st' Hs. apply rtc_ind_r; [split; [constructor|done]|]. intros y z _ Hyz [Hy Hwfy].
  split; [by eapply steps_trans, step_steps|by eapply wf_step].
Qed.

(** * Custody *)

Lemma others_with H : W H -> forall id n wallet label d, others net id d (allocate n wallet label d).2.
Proof. intros HW id n wallet label d. eapply acts_others; [|by apply W_collaborates]. done. Qed.

Lemma held_run id H J s d :
  W H -> (forall m x, others net id x (J m x)) -> row_is id held d ->
  row_is id held (tables (process cfg id (H := with_interference J H) (world d s 0)).2).
Proof. intros HW HJ Hd. by destruct (safe_process cfg id (H := with_interference J H) HJ (world d s 0) Hd) as (_ & ? & _). Qed.

(** The proof that let the notes of a released or final attempt go, as answers
    that some run met. *)
Definition proved (r : attempt_row) : Prop :=
  (a_state r = released -> exists H, W H /\ expired_unspent (H := H) cfg r) /\
  (a_state r = final -> exists H, W H /\ spent_confirmed (H := H) cfg r).

Lemma proved_kept r r' : proved r -> kept r r' -> terminalAttemptState (a_state r) = true -> proved r'.
Proof.
  intros [Hrel Hfin] Hk Ht. pose proof (kept_terminal _ _ Hk Ht) as Hs.
  destruct (kept_identity _ _ Hk) as (_ & _ & _ & Hw & _).
  assert (Hplan : a_state r <> planning -> selected r' = selected r /\ a_expiry_height r' = a_expiry_height r).
  { intros Hp. destruct (kept_plan _ _ Hk Hp) as [_ (_ & _ & ? & Hsel)]. unfold selected. by rewrite Hsel. }
  split; rewrite Hs; intros Hc; (destruct Hplan as [Hn He]; [congruence|]).
  - destruct (Hrel Hc) as (H & HW & Hp). exists H. split; [done|]. unfold expired_unspent in *. by rewrite Hw, Hn, He.
  - destruct (Hfin Hc) as (H & HW & Hp). exists H. split; [done|]. unfold spent_confirmed in *.
    destruct (kept_signed _ _ Hk) as [_ [Htx _]]; [by rewrite Hc|]. by rewrite Hw, Hn, Htx.
Qed.

Lemma proved_others id d d' : others net id d d' -> row_is id proved d -> row_is id proved d'.
Proof.
  intros Ho (r & Hr & Hp). destruct (others_row _ _ _ _ _ Ho Hr) as (r' & Hr' & [-> | [_ Hc]]);
    [by exists r|]. exists r'. split; [done|]. by split; rewrite Hc.
Qed.

Lemma proved_run id H J s d :
  0 <= DefaultConfirmations cfg <= maxConfirmationsLimit ->
  W H -> (forall m x, others net id x (J m x)) -> row_is id proved d ->
  row_is id proved (tables (process cfg id (H := with_interference J H) (world d s 0)).2).
Proof.
  intros Hconf HW HJ (r & Hr & Hp).
  pose proof (others_with H HW id : forall n w l d, others net id d (@allocate (with_interference J H) n w l d).2) as Ha.
  destruct (terminalAttemptState (a_state r)) eqn:Ht.
  - destruct (keeps_process cfg (H := with_interference J H) (fun n d => others_steps _ _ _ _ (HJ n d))
      (fun n x l d => others_steps _ _ _ _ (Ha n x l d)) (fun _ => True) (stable_true _) id (world d s 0) Logic.I) as [Hs _].
    destruct (steps_kept _ _ _ _ _ Hs Hr) as (r' & Hr' & Hk). exists r'. split; [done|]. by eapply proved_kept.
  - destruct (ok_process (H := with_interference J H) cfg id HJ Ha Hconf (world d s 0))
      as (_ & (r' & Hr' & Hrel & Hfin) & _); [by exists r; split; [|split; intros Hc; rewrite Hc in Ht]|].
    exists r'. split; [done|]. split; intros Hc; exists H; split; [done| |done|]; [exact (Hrel Hc)|exact (Hfin Hc)].
Qed.
End run.

(** * The service *)

#[local] Opaque process_prog scan_prog request_prog.

Definition busy (i : nat) (id : string) (st : state) : Prop := owner <$> st_goroutines st !! i = Some (Some id).

(** C4: when a worker takes an attempt and works on it to the end, while the other
    workers, the recovery loop, the requests and whoever else uses the tables go on
    in any order, what it does to the tables is a run of [process] under an
    interference that makes, on its attempt, no call but cancellation: the rely of
    the theorems about [process] is met by the service itself. *)
Theorem workers_run_the_model cfg W d H0 i id H st0 st1 st2 st3 :
  (forall H, W H -> collaborates cfg H) -> W H0 -> W H -> rtc (step cfg W) (started cfg d H0) st0 ->
  st_goroutines st0 !! i = Some (Received id) -> next cfg (Go i H) st0 = Some st1 ->
  busy i id st1 -> rtc (fun st st' => step cfg W st st' /\ busy i id st') st1 st2 ->
  step cfg W st2 st3 -> ~ busy i id st3 ->
  exists J, (forall n x, others (network cfg) id x (J n x)) /\ forall s,
    others (network cfg) id (tables (process cfg id (H := with_interference J H) (world (st_tables st0) s 0)).2) (st_tables st3).
Proof.
  intros HW HH0 HH Hreach Hi Hgo Hbusy Hrun Hend Hout.
  pose proof (reachable_wf cfg W HW d H0 st0 HH0 Hreach) as Hwf0.
  assert (Hstep : step cfg W st0 st1) by (by exists (Go i H)).
  pose proof (wf_step cfg W HW _ _ Hwf0 Hstep) as Hwf1.
  assert (Hbegin : tracked cfg i id H (st_tables st0) st1).
  { cbn in Hgo. rewrite Hi in Hgo. cbn in Hgo. unfold busy in Hbusy. case_decide; simplify_eq/=.
    - by rewrite list_lookup_insert_eq in Hbusy by (by eapply lookup_lt_Some).
    - apply (tracked_start cfg i id H {| st_tables := st_tables st0; st_shared := _; st_goroutines := _ |}).
      apply list_lookup_insert_eq. by eapply lookup_lt_Some. }
  assert (tracked cfg i id H (st_tables st0) st2 /\ wf cfg W st2) as [Htr Hwf2].
  { revert st2 Hrun Hend. intros st2 Hrun _. revert st2 Hrun. apply rtc_ind_r; [done|].
    intros y z _ [Hyz Hz] [Hy Hwfy]. split; [|by eapply wf_step].
    destruct (tracked_step cfg W HW _ _ _ _ _ _ Hwfy Hyz Hy) as [|[Hin _]]; [done|].
    pose proof (wf_step cfg W HW _ _ Hwfy Hyz) as Hwfz. unfold busy in Hz. apply fmap_Some in Hz as (g & Hg & Ho).
    assert (Hc : id ∈ sh_inflight (st_shared z)) by (apply (wf_inflight _ _ _ Hwfz); eauto). rewrite Hin in Hc. set_solver. }
  destruct (tracked_step cfg W HW _ _ _ _ _ _ Hwf2 Hend Htr) as [(n & p & J & dl & Hg & _)|[_ HJ]]; [|done].
  destruct Hout. unfold busy. by rewrite Hg.
Qed.

(** C7: over any stretch of the service's life, with any number of workers, scans,
    requests and other calls in any order, an attempt whose signing may have begun
    is, whenever no worker has it in flight, still signing, signing-unknown or
    signed, with the same notes; and while it is not terminal it holds them all. *)
Theorem uncertain_signing_holds_concurrently cfg W d H0 id st st' row :
  (forall H, W H -> collaborates cfg H) -> W H0 -> reachable (network cfg) d ->
  rtc (step cfg W) (started cfg d H0) st -> rtc (step cfg W) st st' ->
  id ∉ sh_inflight (st_shared st) -> id ∉ sh_inflight (st_shared st') ->
  db_attempts (st_tables st) !! id = Some row -> may_be_signed (a_state row) = true ->
  exists row', db_attempts (st_tables st') !! id = Some row' /\ may_be_signed (a_state row') = true /\
    selected row' = selected row /\
    (terminalAttemptState (a_state row') = false ->
       forall n, n ∈ selected row -> holder (st_tables st') (network cfg, a_wallet_id row, n) = Some id).
Proof.
  intros HW HH0 [fk Hreach] Hst Hst' Hid Hid' Hrow Hs.
  pose proof (started_wf cfg W HW d H0 HH0) as Hwf0. pose proof (reachable_wf cfg W HW d H0 st HH0 Hst) as Hwf.
  eapply held_reserves; [|by eapply run_steps|done..|].
  - exists fk. eapply steps_trans; [exact Hreach|]. apply (run_steps cfg W HW _ _ Hwf0 Hst).
  - eapply (quiescent_kept cfg W HW id (row_is id held)); [|by intros; eapply held_run|done..|by exists row|done].
    intros x y Ho. by apply (held_tolerant cfg id).
Qed.

(** C9: over any such stretch, an attempt that was neither released nor final is
    released only if, in the collaborators' answers to some run, the scanner at the
    tip of a synchronised node reported all its notes unspent past its expiry; and
    final only if the node confirmed its transaction and the scanner reported all
    its notes spent by it. *)
Theorem release_needs_proof_concurrently cfg W d H0 id st st' row :
  (forall H, W H -> collaborates cfg H) -> W H0 -> 0 <= DefaultConfirmations cfg <= maxConfirmationsLimit ->
  rtc (step cfg W) (started cfg d H0) st -> rtc (step cfg W) st st' ->
  id ∉ sh_inflight (st_shared st) -> id ∉ sh_inflight (st_shared st') ->
  db_attempts (st_tables st) !! id = Some row -> a_state row <> released -> a_state row <> final ->
  exists row', db_attempts (st_tables st') !! id = Some row' /\
    (a_state row' = released -> exists H, W H /\ expired_unspent (H := H) cfg row') /\
    (a_state row' = final -> exists H, W H /\ spent_confirmed (H := H) cfg row').
Proof.
  intros HW HH0 Hconf Hst Hst' Hid Hid' Hrow Hr Hf.
  pose proof (reachable_wf cfg W HW d H0 st HH0 Hst) as Hwf.
  assert (Hp : row_is id (proved cfg W) (st_tables st)) by (exists row; split; [done|by split]).
  destruct (quiescent_kept cfg W HW id (row_is id (proved cfg W)) (proved_others cfg W id)
    (fun H J s x HH HJ => proved_run cfg W HW id H J s x Hconf HH HJ) st st' Hwf Hst' Hid Hp Hid') as (row' & ? & ? & ?).
  by exists row'.
Qed.

(** * Concrete schedules *)

Definition working (i : nat) (id : string) (st : state) : bool :=
  bool_decide (owner <$> st_goroutines st !! i = Some (Some id)).

(** A worker plans; a request cancels the attempt meanwhile; the worker's next
    write fails and it lets the attempt go. *)
Definition takes : list event :=
  let H := demo_ports 500 signs in [demo_create H] ++ repeat (Go 5 H) 6 ++ [Go 0 H].
Definition cancelled_meanwhile : list event :=
  let H := demo_ports 500 signs in
  repeat (Go 0 H) 5 ++ [Arrive (ReqCancel "ops" the_id) H] ++ repeat (Go 6 H) 3 ++ [Go 0 H].

Definition demo_run : option (state * state * state * state) :=
  let H := demo_ports 500 signs in
  st0 ← run_events demo_cfg takes (started demo_cfg demo_tables H);
  st1 ← next demo_cfg (Go 0 H) st0;
  st2 ← run_while demo_cfg (working 0 the_id) cancelled_meanwhile st1;
  st3 ← next demo_cfg (Go 0 H) st2; Some (st0, st1, st2, st3).

Lemma demo_met (H : Ports) : demo_ports 500 signs = H -> collaborates demo_cfg H.
Proof. intros <-. apply demo_collaborates. Qed.

Lemma workers_run_the_model_witness :
  is_Some demo_run /\ forall st0 st1 st2 st3, demo_run = Some (st0, st1, st2, st3) ->
    a_state <$> db_attempts (st_tables st3) !! the_id = Some cancelled /\
    exists J, (forall n x, others "mainnet" the_id x (J n x)) /\ forall s,
      others "mainnet" the_id
        (tables (process demo_cfg the_id (H := with_interference J (demo_ports 500 signs)) (world (st_tables st0) s 0)).2)
        (st_tables st3).
Proof.
  set (P := demo_ports 500 signs).
  assert (Hv : (fun x : state * state * state * state => let '(st0, st1, st2, st3) := x in
      ((a_state <$> db_attempts (st_tables st3) !! the_id,
        match st_goroutines st0 !! 0%nat with Some (Received i) => bool_decide (i = the_id) | _ => false end),
       (working 0 the_id st1, working 0 the_id st3)))
    <$> demo_run = Some ((Some cancelled, true), (true, false))) by (vm_compute; reflexivity).
  split; [destruct demo_run; [by eexists|discriminate Hv]|]. intros st0 st1 st2 st3 Hrun. rewrite Hrun in Hv.
  injection Hv as Hs Hg Hb Hn. split; [exact Hs|].
  destruct (st_goroutines st0 !! 0%nat) as [[|i| | | |]|] eqn:H0; try discriminate Hg.
  apply bool_decide_eq_true in Hg as ->. apply bool_decide_eq_true in Hb. apply bool_decide_eq_false in Hn.
  apply bind_Some in Hrun as (x0 & H1 & Hrun). apply bind_Some in Hrun as (x1 & H2 & Hrun).
  apply bind_Some in Hrun as (x2 & H3 & Hrun). apply bind_Some in Hrun as (x3 & H4 & Hrun).
  injection Hrun as -> -> -> ->.
  apply (workers_run_the_model demo_cfg (eq P) demo_tables P 0 the_id P st0 st1 st2 st3 demo_met eq_refl eq_refl);
    [|exact H0|exact H2|exact Hb| |exists (Go 0 P); split; [reflexivity|exact H4]|exact Hn].
  - apply (run_events_rtc demo_cfg _ takes); [repeat constructor|exact H1].
  - eapply rtc_subrel; [|apply (run_while_rtc demo_cfg (eq P) (working 0 the_id) cancelled_meanwhile); [repeat constructor|exact H3]].
    intros a b [Hab Hw]. split; [exact Hab|]. apply bool_decide_eq_true in Hw. exact Hw.
Defined.

(** The attempt whose signer was lost is asked for again: a worker has it signed. *)
Definition asked_again (H : Ports) (k m : nat) : list event :=
  [demo_create H] ++ repeat (Go 5 H) k ++ repeat (Go 0 H) m.

Definition outcome (st : state) : option AttemptState * bool :=
  (a_state <$> db_attempts (st_tables st) !! the_id, bool_decide (the_id ∉ sh_inflight (st_shared st))).

Lemma uncertain_signing_holds_concurrently_witness :
  state_of demo_unknown = Some signing_unknown /\
  exists st, run_events demo_cfg (asked_again (demo_ports 500 signs) 6 16)
      (started demo_cfg (tables demo_unknown) (demo_ports 500 signs)) = Some st /\
    outcome st = (Some signed, true) /\
    holder (st_tables st) ("mainnet", "hot", note_b)%string = Some the_id.
Proof.
  set (P := demo_ports 500 signs). set (o := run_events demo_cfg _ _).
  assert (Hv : state_of demo_unknown = Some signing_unknown) by (vm_compute; reflexivity).
  assert (Hout : outcome <$> o = Some (Some signed, true)) by (vm_compute; reflexivity).
  assert (Hrow0 : (fun r => (a_wallet_id r, bool_decide (note_b ∈ selected r)))
    <$> db_attempts (tables demo_unknown) !! the_id = Some ("hot"%string, true)) by (vm_compute; reflexivity).
  split; [exact Hv|]. destruct o as [st|] eqn:Ho; [|discriminate Hout]. injection Hout as Hst Hidle.
  exists st. split; [reflexivity|]. split; [unfold outcome; by rewrite Hst, Hidle|]. unfold state_of in Hv.
  destruct (db_attempts (tables demo_unknown) !! the_id) as [row|] eqn:Hrow; [|discriminate Hv].
  injection Hv as Hs. injection Hrow0 as Hw Hn. apply bool_decide_eq_true in Hn, Hidle.
  assert (Hm : may_be_signed (a_state row) = true) by (rewrite Hs; reflexivity).
  assert (Hrun : rtc (step demo_cfg (eq P)) (started demo_cfg (tables demo_unknown) P) st).
  { apply (run_events_rtc demo_cfg _ (asked_again P 6 16)); [repeat constructor|exact Ho]. }
  destruct (uncertain_signing_holds_concurrently demo_cfg (eq P) (tables demo_unknown) P the_id
    (started demo_cfg (tables demo_unknown) P) st row demo_met eq_refl demo_unknown_reachable (rtc_refl _ _) Hrun
    (not_elem_of_empty the_id) Hidle Hrow Hm) as (row' & Hrow' & _ & _ & Hhold).
  rewrite Hrow' in Hst. injection Hst as Hst. rewrite Hst, Hw in Hhold. exact (Hhold eq_refl note_b Hn).
Defined.

(** The signed transaction has expired, its notes are unspent far past the expiry. *)
Lemma demo_met_late (H : Ports) : demo_ports 2000 signs = H -> collaborates demo_cfg H.
Proof. intros <-. apply demo_collaborates. Qed.

Lemma release_needs_proof_concurrently_witness :
  state_of demo_signed = Some signed /\
  exists st row', run_events demo_cfg (asked_again (demo_ports 2000 signs) 7 13)
      (started demo_cfg (tables demo_signed) (demo_ports 2000 signs)) = Some st /\
    outcome st = (Some released, true) /\ db_attempts (st_tables st) !! the_id = Some row' /\
    expired_unspent (H := demo_ports 2000 signs) demo_cfg row'.
Proof.
  set (P := demo_ports 2000 signs). set (o := run_events demo_cfg _ _).
  assert (Hv : state_of demo_signed = Some signed) by (vm_compute; reflexivity).
  assert (Hout : outcome <$> o = Some (Some released, true)) by (vm_compute; reflexivity).
  split; [exact Hv|]. destruct o as [st|] eqn:Ho; [|discriminate Hout]. injection Hout as Hst Hidle.
  pose proof Hidle as Hidle'. apply bool_decide_eq_true in Hidle'. unfold state_of in Hv.
  destruct (db_attempts (tables demo_signed) !! the_id) as [row|] eqn:Hrow; [|discriminate Hv].
  injection Hv as Hs. assert (H1 : a_state row <> released) by (rewrite Hs; discriminate).
  assert (H2 : a_state row <> final) by (rewrite Hs; discriminate).
  assert (Hc : 0 <= DefaultConfirmations demo_cfg <= maxConfirmationsLimit) by (vm_compute; split; discriminate).
  assert (Hrun : rtc (step demo_cfg (eq P)) (started demo_cfg (tables demo_signed) P) st).
  { apply (run_events_rtc demo_cfg _ (asked_again P 7 13)); [repeat constructor|exact Ho]. }
  destruct (release_needs_proof_concurrently demo_cfg (eq P) (tables demo_signed) P the_id
    (started demo_cfg (tables demo_signed) P) st row demo_met_late eq_refl Hc (rtc_refl _ _) Hrun
    (not_elem_of_empty the_id) Hidle' Hrow H1 H2) as (row' & Hrow' & Hrel & _).
  exists st, row'. split; [reflexivity|]. split; [unfold outcome; by rewrite Hst, Hidle|]. split; [exact Hrow'|].
  rewrite Hrow' in Hst. injection Hst as Hst. destruct (Hrel Hst) as (H & <- & Hexp). exact Hexp.
Defined.

