(* ===== verification/Recovery.v ===== *)
(** The recovery scan and the recovery seal.

    [sealed_is_inert]: a sealed coordinator writes nothing and queues nothing.
    [scheduleRecoverable_spec]: what one scan queues and where its cursor goes.
    [recovery_reaches_everyone]: scanning again and again, with the queue drained
    in between, queues every recoverable attempt that is due, from any cursor. *)
From S2P Require Import Prelude Tx GoString GoTime Sha256 Domain Config Database Attempts Wallets Journal Request Signer Coordinator Service Worker Demo Rely.

(** * The seal *)

Lemma sealed_never_open io d s :
  db_metadata d !! "coordinator_recovery_seal"%string = Some s -> (CoordinatorRecoverySealed io d).1 <> Ok false.
Proof.
  intros Hs. destruct (CoordinatorRecoverySealed io d) as [r d'] eqn:Hc. cbn. intros ->.
  unfold CoordinatorRecoverySealed in Hc. apply run_auto_cases in Hc as [(_ & ? & ?)|(x & ? & [= <-] & Hc)]; [done|].
  db_inv. unfold select_metadata in *. db_inv. repeat match goal with H : exists _, _ |- _ => destruct H as (? & H & ?) end.
  by db_inv.
Qed.

Section gate.
Context `{Ports} (cfg : Config.Config).

(** The tables a run's first call sees. *)
Definition first_seen (w : svc) : db := interfere (tick w) (tables w).

Lemma gate_answer w :
  requireAutomationUnsealed w =
  (match (CoordinatorRecoverySealed (port_io (tick w)) (first_seen w)).1 with
   | Err _ => Err (opError "recovery_gate_unavailable" "coordinator recovery state could not be verified" true)
   | Ok true => Err (opError "coordinator_recovery_sealed" "transaction automation is sealed after gateway database recovery; reconcile all prior transaction attempts and run recovery-unseal-coordinator" false)
   | Ok false => Ok tt
   end, set_tables w (first_seen w)).
Proof.
  unfold requireAutomationUnsealed, mbind, s_bind, store_call, mret, s_ret. cbn. fold (first_seen w).
  pose proof (CoordinatorRecoverySealed_reads (port_io (tick w)) (first_seen w)) as Hd.
  destruct (CoordinatorRecoverySealed _ _) as [r d']. cbn in Hd |- *. by subst.
Qed.

Lemma gate_closed w s :
  db_metadata (first_seen w) !! "coordinator_recovery_seal"%string = Some s ->
  exists code msg retryable, requireAutomationUnsealed w =
    (Err (OperationError code msg retryable false), set_tables w (first_seen w)) /\
    (code = "coordinator_recovery_sealed" \/ code = "recovery_gate_unavailable")%string.
Proof.
  intros Hs. rewrite gate_answer. pose proof (sealed_never_open (port_io (tick w)) _ _ Hs) as Hn.
  unfold opError. destruct (CoordinatorRecoverySealed _ _).1 as [[]|]; [|done|]; eauto 8.
Qed.

End gate.

(** C22: while a database recovery seal is set, whatever its value and whatever
    driver calls fail, a request to create an attempt is refused with one of the
    two gate errors, and neither it, nor a worker's processing of any attempt,
    nor the recovery scan writes to the tables or queues an attempt. *)
Theorem sealed_is_inert `{Ports} cfg w s :
  db_metadata (first_seen w) !! "coordinator_recovery_seal"%string = Some s ->
  let idle := set_tables w (first_seen w) in
  (forall principal key request, exists code msg retryable,
     Create cfg principal key request w = (Err (OperationError code msg retryable false), idle) /\
     (code = "coordinator_recovery_sealed" \/ code = "recovery_gate_unavailable")%string) /\
  (forall id, process cfg id w = (tt, idle)) /\ scheduleRecoverable w = (tt, idle).
Proof.
  intros Hs idle. destruct (gate_closed w s Hs) as (c & m & r & Hg & Hc).
  assert (Hk : forall A (k : result unit -> S A), (requireAutomationUnsealed ≫= k) w = k (Err (OperationError c m r false)) idle)
    by (intros; unfold mbind, s_bind; by rewrite Hg).
  split_and!.
  - intros p key rq. exists c, m, r. split; [|done]. unfold Create. by rewrite Hk.
  - intros id. unfold process. by rewrite Hk.
  - unfold scheduleRecoverable. by rewrite Hk.
Qed.

Definition sealed_tables : db :=
  run_ops [(OpMeta (MBeginRecovery hash_a), []); (OpMeta (MBind hash_a true), [])] (empty_db true).

(** * One scan *)

Section scan.
Context `{Ports}.

(** The attempts of a page that are due, the first looked at on call [n]. *)
Fixpoint due_from (n : nat) (l : list TransactionAttempt) : list TransactionAttempt :=
  match l with
  | [] => []
  | a :: l' => (if retryDue (port_clock n) a then [a] else []) ++ due_from (Datatypes.S n) l'
  end.

Definition last_id (after : string) (l : list TransactionAttempt) : string :=
  default after (AttemptID <$> last l).

Lemma last_id_cons after a l : last_id after (a :: l) = last_id (AttemptID a) l.
Proof. unfold last_id. rewrite last_cons. by destruct (last l). Qed.

Lemma schedule_room p l w :
  Z.of_nat (length (queue w)) + Z.of_nat (length l) <= recoveryBatchSize ->
  schedule p l w =
  (p + Z.of_nat (length l),
   {| tables := tables w; queue := queue w ++ map AttemptID (due_from (tick w) l); inflight := inflight w;
      recoveryAfter := last_id (recoveryAfter w) l; tick := (tick w + length l)%nat |}).
Proof.
  revert p w. induction l as [|a l IH]; intros p w Hroom.
  { cbn. unfold mret, s_ret, last_id. cbn. rewrite Z.add_0_r, app_nil_r, Nat.add_0_r. by destruct w. }
  cbn [schedule length due_from]. unfold mbind, s_bind, ask, advance_after. rewrite last_id_cons.
  destruct (retryDue (port_clock (tick w)) a) eqn:Hdue; cbn [negb].
  - unfold enqueue. cbn [queue next_tick set_tables]. cbn [length] in Hroom.
    destruct (Z.ltb_spec (Z.of_nat (length (queue w))) recoveryBatchSize); [|lia]. cbn [negb].
    rewrite IH by (cbn; rewrite length_app; cbn; lia). cbn. f_equal; [lia|]. f_equal; [|lia].
    by rewrite <- app_assoc.
  - cbn [length] in Hroom. rewrite IH by (cbn; lia). cbn. f_equal; [lia|]. f_equal. lia.
Qed.

(** The page a scan reads and the tables it reads it from. *)
Definition scan_seen (w : svc) : db := interfere (Datatypes.S (tick w)) (first_seen w).
Definition scan_limit (w : svc) : Z := Z.min recoveryBatchSize (recoveryBatchSize - Z.of_nat (length (queue w))).
Definition scan_page (w : svc) : result (list TransactionAttempt) :=
  (RecoverableAttempts (recoveryAfter w) (scan_limit w) (port_io (Datatypes.S (tick w))) (scan_seen w)).1.

Lemma scan_runs w l :
  (CoordinatorRecoverySealed (port_io (tick w)) (first_seen w)).1 = Ok false ->
  Z.of_nat (length (queue w)) < recoveryBatchSize -> scan_page w = Ok l ->
  Z.of_nat (length l) <= scan_limit w ->
  let w' := (scheduleRecoverable w).2 in
  tables w' = scan_seen w /\
  queue w' = queue w ++ map AttemptID (due_from (2 + tick w)%nat l) /\
  recoveryAfter w' = (if Z.of_nat (length l) <? scan_limit w then EmptyString else last_id (recoveryAfter w) l).
Proof.
  intros Hgate Hroom Hpage Hlen. unfold scheduleRecoverable.
  cbv [mbind s_bind]. rewrite gate_answer, Hgate. cbn [tick queue recoveryAfter tables set_tables].
  destruct (Z.ltb_spec (recoveryBatchSize - Z.of_nat (length (queue w))) 1); [lia|].
  unfold store_call. cbn [tick queue recoveryAfter tables set_tables]. fold (scan_limit w) (scan_seen w).
  pose proof (RecoverableAttempts_reads (recoveryAfter w) (scan_limit w) (port_io (Datatypes.S (tick w))) (scan_seen w)) as Hd.
  unfold scan_page in Hpage. destruct (RecoverableAttempts _ _ _ _) as [r d']. cbn in Hd, Hpage. subst.
  unfold scan_limit in Hlen |- *. destruct l as [|a l].
  { cbn [length map due_from snd advance_after queue recoveryAfter tables set_after set_tables]. rewrite app_nil_r.
    rewrite (proj2 (Z.ltb_lt _ _)) by (cbn; lia). done. }
  set (l0 := a :: l) in *. rewrite schedule_room by (cbn [queue set_tables]; lia).
  cbn [tick queue recoveryAfter tables set_tables].
  rewrite Z.add_0_l, Z.eqb_refl. cbn [andb].
  by destruct (Z.ltb_spec (Z.of_nat (length l0)) (recoveryBatchSize `min` (recoveryBatchSize - Z.of_nat (length (queue w))))).
Qed.
End scan.

(** * The pages *)

Lemma string_ltb_spec a b : string_ltb a b = true <-> String.le a b /\ a <> b.
Proof. unfold string_ltb. by rewrite bool_decide_eq_true. Qed.

Lemma string_lt_trans a b c : string_ltb a b = true -> string_ltb b c = true -> string_ltb a c = true.
Proof.
  rewrite !string_ltb_spec. intros [H1 N1] [H2 N2]. split; [by transitivity b|].
  intros ->. by apply N1, (anti_symm String.le).
Qed.

Lemma string_lt_total a b : string_ltb a b = true \/ a = b \/ string_ltb b a = true.
Proof.
  destruct (decide (a = b)); [by right; left|]. rewrite !string_ltb_spec.
  destruct (total String.le a b); [left|right; right]; naive_solver.
Qed.

Lemma empty_lt s : s <> EmptyString -> string_ltb EmptyString s = true.
Proof. intros Hs. apply string_ltb_spec. split; [by destruct s|done]. Qed.

(** The recoverable attempts after a cursor, in order. *)
Definition rows_after (after : string) (d : db) : list (string * attempt_row) :=
  order_by fst (rows_where (fun id r => recoverable_sql (a_state r) && string_ltb after id) (db_attempts d)).

Lemma elem_of_rows_after after d id r :
  (id, r) ∈ rows_after after d <->
  db_attempts d !! id = Some r /\ recoverable_sql (a_state r) = true /\ string_ltb after id = true.
Proof.
  unfold rows_after. rewrite elem_of_order_by, elem_of_rows_where, andb_true_iff. naive_solver.
Qed.

Definition key_le (x y : string * attempt_row) : Prop := String.le x.1 y.1.

Lemma rows_after_sorted after d : StronglySorted key_le (rows_after after d).
Proof.
  unfold rows_after, order_by. apply StronglySorted_merge_sort.
  - intros x y z. unfold key_le. by transitivity y.1.
  - intros x y. apply (total String.le).
Qed.

Lemma rows_after_NoDup after d : NoDup (rows_after after d).*1.
Proof.
  unfold rows_after, order_by. rewrite merge_sort_Permutation. unfold rows_where.
  eapply sublist_NoDup; [apply (NoDup_fst_map_to_list (db_attempts d))|]. apply fmap_sublist, sublist_filter.
Qed.

Lemma scan_all_pages rows l :
  scan_all (fun p => scanAttempt p.1 p.2) rows = Ok l ->
  Forall2 (fun p a => scanAttempt p.1 p.2 = Ok a /\ AttemptID a = p.1) rows l.
Proof.
  revert l. induction rows as [|p rows IH]; intros l; cbn.
  { intros [= <-]. constructor. }
  intros (a & Ha & (l' & Hl & [= <-])%result_bind_ok)%result_bind_ok. constructor; [|by apply IH].
  split; [done|]. by apply scanAttempt_fields in Ha as [].
Qed.

Lemma page_rows after limit io d l :
  (RecoverableAttempts after limit io d).1 = Ok l ->
  Forall2 (fun p a => scanAttempt p.1 p.2 = Ok a /\ AttemptID a = p.1) (take (Z.to_nat limit) (rows_after after d)) l.
Proof.
  unfold RecoverableAttempts. case_match; [done|]. destruct (run_auto _ _ _) as [r d'] eqn:Hr. cbn. intros ->.
  apply run_auto_cases in Hr as [(_ & ? & ?)|(x & ? & [= <-] & Hr)]; [done|]. db_inv. by apply scan_all_pages.
Qed.

Lemma scan_all_works rows :
  Forall (fun p => is_ok (scanAttempt p.1 p.2) = true) rows ->
  exists l, scan_all (fun p => scanAttempt p.1 p.2) rows = Ok l.
Proof.
  induction 1 as [|p rows Hp _ [l IH]]; cbn; [by eexists|]. destruct (scanAttempt p.1 p.2); [|done].
  cbn. rewrite IH. by eexists.
Qed.

Lemma page_works after limit d :
  1 <= limit <= 1000 -> (forall id r, db_attempts d !! id = Some r -> is_ok (scanAttempt id r) = true) ->
  exists l, (RecoverableAttempts after limit [] d).1 = Ok l.
Proof.
  intros Hl Hok. unfold RecoverableAttempts.
  destruct (Z.ltb_spec limit 1); [lia|]. destruct (Z.ltb_spec 1000 limit); [lia|]. cbn [orb].
  destruct (scan_all_works (take (Z.to_nat limit) (rows_after after d))) as [l Hs].
  { apply Forall_forall. intros [id r] Hin%subseteq_take. apply (Hok id r). by apply elem_of_rows_after in Hin as []. }
  exists l. unfold run_auto, mbind, m_bind, query, stmt. cbn [driver].
  fold (rows_after after d). cbv [mbind result_bind]. cbn. unfold of_result. by rewrite Hs.
Qed.

(** * Scanning again and again *)

Section liveness.
Context `{Ports}.
Context (quiet : forall n d, interfere n d = d) (no_faults : forall n, port_io n = []).

Definition scan_round (w : svc) : svc := (scheduleRecoverable (set_queue w [])).2.

(** The recoverable attempts ahead of a cursor. *)
Definition ahead (after : string) (d : db) : gset string :=
  dom (filter (fun kv => recoverable_sql (a_state kv.2) && string_ltb after kv.1 = true) (db_attempts d)).

Lemma elem_of_ahead after d id :
  id ∈ ahead after d <->
  exists r, db_attempts d !! id = Some r /\ recoverable_sql (a_state r) = true /\ string_ltb after id = true.
Proof.
  unfold ahead. rewrite elem_of_dom. split.
  - intros [r [Hr Hc]%map_lookup_filter_Some]. apply andb_true_iff in Hc. naive_solver.
  - intros (r & Hr & H1 & H2). exists r. apply map_lookup_filter_Some. cbn. by rewrite H1, H2.
Qed.

Lemma ahead_shrinks c c' d : string_ltb c c' = true -> c' ∈ ahead c d -> (size (ahead c' d) < size (ahead c d))%nat.
Proof.
  intros Hlt Hin. apply subset_size. split.
  - intros x (r & Hr & H1 & H2)%elem_of_ahead. apply elem_of_ahead. exists r. eauto using string_lt_trans.
  - intros Hsub. apply Hsub in Hin. apply elem_of_ahead in Hin as (r & _ & _ & Hc%string_ltb_spec). naive_solver.
Qed.

Lemma last_page after (l : list TransactionAttempt) p :
  Forall2 (fun p a => scanAttempt p.1 p.2 = Ok a /\ AttemptID a = p.1) p l ->
  p <> [] -> exists q, last p = Some q /\ last_id after l = q.1.
Proof.
  intros Hp Hne. destruct (last p) as [q|] eqn:Hq; [|by apply last_None in Hq].
  exists q. split; [done|]. unfold last_id.
  apply last_Some in Hq as [p' ->]. apply Forall2_app_inv_l in Hp as (l1 & l2 & _ & H2 & ->).
  apply Forall2_cons_inv_l in H2 as (a & l3 & [_ Ha] & ->%Forall2_nil_inv_l & ->).
  by rewrite last_snoc.
Qed.

Lemma due_from_in n l a : (forall k, retryDue (port_clock k) a = true) -> a ∈ l -> a ∈ due_from n l.
Proof.
  intros Hdue. revert n. induction l as [|b l IH]; intros n; [by intros ?%elem_of_nil|].
  cbn. rewrite elem_of_cons, elem_of_app. intros [<- | Hin]; [left; rewrite Hdue; left|right; by apply IH].
Qed.

Context (d : db) (open : db_metadata d !! "coordinator_recovery_seal"%string = None).
Context (readable : forall id r, db_attempts d !! id = Some r -> is_ok (scanAttempt id r) = true).

Lemma gate_open io : io = [] -> (CoordinatorRecoverySealed io d).1 = Ok false.
Proof.
  intros ->. unfold CoordinatorRecoverySealed, run_auto, mbind, m_bind, query_opt, select_metadata, row_of. cbn.
  by rewrite open.
Qed.

(** One round: the page after the cursor is queued where due, and the cursor
    moves to its end, or wraps when the page is the last one. *)
Lemma round_runs w :
  tables w = d ->
  exists l, Forall2 (fun p a => scanAttempt p.1 p.2 = Ok a /\ AttemptID a = p.1)
              (take 1000 (rows_after (recoveryAfter w) d)) l /\
    tables (scan_round w) = d /\
    queue (scan_round w) = map AttemptID (due_from (2 + tick w)%nat l) /\
    recoveryAfter (scan_round w) =
      (if Z.of_nat (length l) <? 1000 then EmptyString else last_id (recoveryAfter w) l).
Proof.
  intros Hd. set (w0 := set_queue w []).
  assert (H1 : first_seen w0 = d) by (unfold first_seen; by rewrite quiet).
  assert (H2 : scan_seen w0 = d) by (unfold scan_seen; by rewrite quiet).
  assert (Hlim : scan_limit w0 = 1000) by done.
  destruct (page_works (recoveryAfter w0) 1000 d) as [l Hl]; [lia|done|].
  assert (Hpage : scan_page w0 = Ok l) by (unfold scan_page; by rewrite H2, Hlim, no_faults).
  pose proof (page_rows _ _ _ _ _ Hl) as Hrows.
  assert (Hlen : (length l <= 1000)%nat).
  { apply Forall2_length in Hrows. rewrite <- Hrows, length_take. lia. }
  destruct (scan_runs w0 l) as (Ht & Hq & Ha).
  - rewrite H1. by apply gate_open, no_faults.
  - cbn. unfold recoveryBatchSize. lia.
  - done.
  - rewrite Hlim. lia.
  - exists l. rewrite Hlim in Ha. unfold scan_round. fold w0. split_and!; [done|by rewrite Ht|done|done].
Qed.

Context (id : string) (row : attempt_row) (a : TransactionAttempt).
Context (Hrow : db_attempts d !! id = Some row) (Hrec : recoverable_sql (a_state row) = true).
Context (Hscan : scanAttempt id row = Ok a) (Hdue : forall k, retryDue (port_clock k) a = true) (Hne : id <> EmptyString).

(** A round from a cursor before the attempt queues it or moves up towards it. *)
Lemma round_before w :
  tables w = d -> string_ltb (recoveryAfter w) id = true ->
  id ∈ queue (scan_round w) \/
  (string_ltb (recoveryAfter (scan_round w)) id = true /\
   (size (ahead (recoveryAfter (scan_round w)) d) < size (ahead (recoveryAfter w) d))%nat).
Proof.
  intros Hd Hlt. destruct (round_runs w Hd) as (l & Hl & _ & Hq & Ha).
  set (rows := rows_after (recoveryAfter w) d) in *.
  assert (Hin : (id, row) ∈ rows) by (by apply elem_of_rows_after).
  rewrite <- (take_drop 1000 rows) in Hin. apply elem_of_app in Hin as [Hin|Hin].
  - left. rewrite Hq. apply list_elem_of_fmap. exists a. apply scanAttempt_fields in Hscan as Hf. destruct Hf as [Hid _].
    split; [done|]. apply due_from_in; [done|].
    apply list_elem_of_lookup in Hin as [i Hi]. destruct (Forall2_lookup_l _ _ _ _ _ Hl Hi) as (b & Hb & Hsb & _).
    cbn in Hsb. rewrite Hscan in Hsb. injection Hsb as <-. by eapply list_elem_of_lookup_2.
  - right. assert (Hlen : (1000 < length rows)%nat).
    { destruct (decide (1000 < length rows)%nat); [done|]. rewrite drop_ge in Hin by lia. by apply elem_of_nil in Hin. }
    assert (Hll : length l = 1000%nat) by (apply Forall2_length in Hl; rewrite <- Hl, length_take; lia).
    rewrite Hll in Ha. change (Z.of_nat 1000 <? 1000) with false in Ha. cbn in Ha.
    destruct (last_page (recoveryAfter w) l _ Hl) as (q & Hlast & Hq').
    { intros Hnil. rewrite Hnil in Hl. by apply Forall2_nil_inv_l in Hl as ->. }
    rewrite Ha, Hq'. apply last_Some in Hlast as [p' Hp'].
    assert (Hqt : q ∈ take 1000 rows) by (rewrite Hp'; set_solver).
    assert (Hle : key_le q (id, row)).
    { pose proof (rows_after_sorted (recoveryAfter w) d) as Hs. fold rows in Hs. rewrite <- (take_drop 1000 rows) in Hs.
      by eapply StronglySorted_app_1_elem_of in Hs. }
    destruct q as [qid qr]. pose proof (subseteq_take _ _ _ Hqt) as Hqr. apply elem_of_rows_after in Hqr as (Hqr & Hqs & Hqlt).
    assert (Hneq : qid <> id).
    { intros ->. pose proof (rows_after_NoDup (recoveryAfter w) d) as Hnd. fold rows in Hnd.
      rewrite <- (take_drop 1000 rows), fmap_app in Hnd. apply NoDup_app in Hnd as (_ & Hdis & _).
      apply (Hdis id); apply list_elem_of_fmap; eexists; split; [|exact Hqt| |exact Hin]; done. }
    split; [by apply string_ltb_spec|]. apply ahead_shrinks; [done|]. apply elem_of_ahead. eauto.
Qed.

(** A round from any other cursor wraps or moves up. *)
Lemma round_after w :
  tables w = d -> string_ltb (recoveryAfter w) id = false ->
  recoveryAfter (scan_round w) = EmptyString \/
  (size (ahead (recoveryAfter (scan_round w)) d) < size (ahead (recoveryAfter w) d))%nat.
Proof.
  intros Hd Hlt. destruct (round_runs w Hd) as (l & Hl & _ & _ & Ha). rewrite Ha.
  destruct (Z.ltb_spec (Z.of_nat (length l)) 1000) as [|Hll]; [by left|right].
  destruct (last_page (recoveryAfter w) l _ Hl) as ([qid qr] & Hlast & ->).
  { intros Hnil. rewrite Hnil in Hl. apply Forall2_nil_inv_l in Hl as ->. cbn in Hll. lia. }
  apply last_Some in Hlast as [p' Hp'].
  assert (Hqt : (qid, qr) ∈ take 1000 (rows_after (recoveryAfter w) d)) by (rewrite Hp'; set_solver).
  apply subseteq_take in Hqt. apply elem_of_rows_after in Hqt as (Hqr & Hqs & Hqlt).
  apply ahead_shrinks; [done|]. apply elem_of_ahead. eauto.
Qed.

Lemma round_tables w : tables w = d -> tables (scan_round w) = d.
Proof. intros Hd. by destruct (round_runs w Hd) as (l & _ & ? & _). Qed.

Lemma reached_before n w :
  tables w = d -> string_ltb (recoveryAfter w) id = true -> (size (ahead (recoveryAfter w) d) <= n)%nat ->
  exists k, (1 <= k <= n + 1)%nat /\ id ∈ queue (Nat.iter k scan_round w).
Proof.
  revert w. induction n as [|n IH]; intros w Hd Hlt Hn; destruct (round_before w Hd Hlt) as [Hq|[Hlt' Hsz]];
    try (exists 1%nat; split; [lia|exact Hq]); [lia|].
  destruct (IH (scan_round w)) as (k & Hk & Hin); [by apply round_tables|done|lia|].
  exists (Datatypes.S k). split; [lia|]. by rewrite Nat.iter_succ_r.
Qed.

Lemma reached n w :
  tables w = d -> (size (ahead (recoveryAfter w) d) <= n)%nat ->
  exists k, (1 <= k <= n + 2 + size (ahead EmptyString d))%nat /\ id ∈ queue (Nat.iter k scan_round w).
Proof.
  revert w. induction n as [|n IH]; intros w Hd Hn;
    (destruct (string_ltb (recoveryAfter w) id) eqn:Hlt;
      [destruct (reached_before _ w Hd Hlt Hn) as (k & ? & ?); exists k; split; [lia|done]|]);
    (destruct (round_after w Hd Hlt) as [Hwrap|Hsz];
      [destruct (reached_before (size (ahead EmptyString d)) (scan_round w)) as (k & ? & ?);
         [by apply round_tables|by rewrite Hwrap, empty_lt|by rewrite Hwrap|];
       exists (Datatypes.S k); split; [lia|by rewrite Nat.iter_succ_r]|]); [lia|].
  destruct (IH (scan_round w)) as (k & Hk & Hin); [by apply round_tables|lia|].
  exists (Datatypes.S k). split; [lia|]. by rewrite Nat.iter_succ_r.
Qed.
End liveness.

(** one scan of an open coordinator with room in its queue queues exactly
    the due attempts of the page it reads, in order, writes nothing, and leaves
    its cursor at the end of the page, or at the start when the page was the
    last one. *)
Theorem scheduleRecoverable_spec `{Ports} w l :
  (CoordinatorRecoverySealed (port_io (tick w)) (first_seen w)).1 = Ok false ->
  Z.of_nat (length (queue w)) < recoveryBatchSize -> scan_page w = Ok l ->
  let w' := (scheduleRecoverable w).2 in
  tables w' = scan_seen w /\
  queue w' = queue w ++ map AttemptID (due_from (2 + tick w)%nat l) /\
  recoveryAfter w' = (if Z.of_nat (length l) <? scan_limit w then EmptyString else last_id (recoveryAfter w) l) /\
  Forall2 (fun p a => scanAttempt p.1 p.2 = Ok a /\ AttemptID a = p.1)
    (take (Z.to_nat (scan_limit w)) (rows_after (recoveryAfter w) (scan_seen w))) l.
Proof.
  intros Hg Hr Hp w'. pose proof (page_rows _ _ _ _ _ Hp) as Hrows.
  destruct (scan_runs w l Hg Hr Hp) as (? & ? & ?); [|by split_and!].
  apply Forall2_length in Hrows. rewrite <- Hrows, length_take. unfold scan_limit, recoveryBatchSize in *. lia.
Qed.

(** C14: no recoverable attempt starves: on quiet tables with an open gate, from
    whatever cursor, every recoverable attempt that stays due is queued within a
    bounded number of scans, however many others there are, as long as the
    workers drain the queue between two scans. *)
Theorem recovery_reaches_everyone `{Ports} w id row a :
  (forall n d, interfere n d = d) -> (forall n, port_io n = []) ->
  db_metadata (tables w) !! "coordinator_recovery_seal"%string = None ->
  (forall i r, db_attempts (tables w) !! i = Some r -> is_ok (scanAttempt i r) = true) ->
  db_attempts (tables w) !! id = Some row -> recoverable_sql (a_state row) = true ->
  scanAttempt id row = Ok a -> (forall n, retryDue (port_clock n) a = true) -> id <> EmptyString ->
  exists k, (1 <= k <= 2 * size (db_attempts (tables w)) + 2)%nat /\ id ∈ queue (Nat.iter k scan_round w).
Proof.
  intros Hq Hio Hseal Hread Hrow Hrec Hscan Hdue Hne.
  assert (Hsize : forall c, (size (ahead c (tables w)) <= size (db_attempts (tables w)))%nat).
  { intros c. unfold ahead. rewrite size_dom. apply map_size_filter. }
  destruct (reached Hq Hio (tables w) Hseal Hread id row a Hrow Hrec Hscan Hdue Hne _ w eq_refl (Nat.le_refl _))
    as (k & Hk & Hin).
  exists k. split; [|done]. pose proof (Hsize EmptyString). pose proof (Hsize (recoveryAfter w)). lia.
Qed.

(** * Concrete runs *)

(** A database recovered for an installation: sealed. *)
Lemma sealed_is_inert_witness :
  let P := demo_ports 500 signs in
  db_metadata sealed_tables !! "coordinator_recovery_seal"%string = Some hash_a /\
  process demo_cfg the_id (demo_svc sealed_tables) = (tt, set_tables (demo_svc sealed_tables) sealed_tables).
Proof.
  intros P. assert (Hs : db_metadata sealed_tables !! "coordinator_recovery_seal"%string = Some hash_a)
    by (vm_compute; reflexivity).
  exact (conj Hs (proj1 (proj2 (@sealed_is_inert P demo_cfg (demo_svc sealed_tables) hash_a Hs)) the_id)).
Defined.

Lemma scheduleRecoverable_spec_witness :
  let P := demo_ports 500 signs in
  queue (scheduleRecoverable (demo_svc (tables demo_signed))).2 = [the_id].
Proof.
  intros P. pose (w := demo_svc (tables demo_signed)).
  assert (Hg : (CoordinatorRecoverySealed (port_io (tick w)) (first_seen w)).1 = Ok false) by (vm_compute; reflexivity).
  assert (Hr : Z.of_nat (length (queue w)) < recoveryBatchSize) by reflexivity.
  assert (Hv : is_ok (scan_page w) = true) by (vm_compute; reflexivity).
  assert (Hq : (l ← scan_page w; Ok (queue w ++ map AttemptID (due_from (2 + tick w) l))) = Ok [the_id])
    by (vm_compute; reflexivity).
  destruct (scan_page w) as [l|] eqn:Hp; [|discriminate Hv].
  pose proof (@scheduleRecoverable_spec P w l Hg Hr Hp) as Hspec. cbv zeta in Hspec.
  injection Hq as Hq. exact (eq_trans (proj1 (proj2 Hspec)) Hq).
Defined.

Lemma recovery_reaches_everyone_witness :
  let P := demo_ports 500 signs in
  exists k, (1 <= k <= 4)%nat /\ the_id ∈ queue (Nat.iter k scan_round (set_after (demo_svc (tables demo_signed)) "zz")).
Proof.
  intros P. pose (w := set_after (demo_svc (tables demo_signed)) "zz").
  assert (Hseal : db_metadata (tables w) !! "coordinator_recovery_seal"%string = None) by (vm_compute; reflexivity).
  assert (Hread : forall i r, db_attempts (tables w) !! i = Some r -> is_ok (scanAttempt i r) = true).
  { assert (Hall : map_Forall (fun i r => is_ok (scanAttempt i r) = true) (db_attempts (tables w)))
      by (apply (bool_decide_unpack _); vm_compute; exact Logic.I).
    exact Hall. }
  assert (Hn : (2 * size (db_attempts (tables w)) + 2)%nat = 4%nat) by (vm_compute; reflexivity).
  assert (Hv : ((fun r => (a_state r, is_ok (scanAttempt the_id r))) <$> db_attempts (tables w) !! the_id)
               = Some (signed, true)) by (vm_compute; reflexivity).
  destruct (db_attempts (tables w) !! the_id) as [row|] eqn:Hrow; [|discriminate Hv].
  cbn [fmap option_fmap option_map] in Hv. injection Hv as Hst Hok.
  destruct (scanAttempt the_id row) as [a|] eqn:Hscan; [|discriminate Hok].
  assert (Hrec : recoverable_sql (a_state row) = true) by (rewrite Hst; reflexivity).
  assert (Hdue : forall n, retryDue (port_clock n) a = true).
  { intros n. unfold retryDue. destruct (proj2 (scanAttempt_fields _ _ _ Hscan)) as [Hs _].
    rewrite Hs, Hst. reflexivity. }
  assert (Hne : the_id <> EmptyString) by discriminate.
  destruct (@recovery_reaches_everyone P w the_id row a (fun _ _ => eq_refl) (fun _ => eq_refl) Hseal Hread Hrow Hrec
    Hscan Hdue Hne) as (k & Hk & Hin).
  rewrite Hn in Hk. exact (ex_intro _ k (conj Hk Hin)).
Defined.
