(* ===== verification/Results.v ===== *)
(** What the coordinator computes from its collaborators' answers: the action
    mapping of a signature ([validateSignerResult_spec]), the change split
    ([widen_covers]) and the note inventory ([inventory_of_spec]). *)
From S2P Require Import Prelude Tx GoString GoTime Sha256 Domain Config Database Attempts Wallets Journal Request Signer Coordinator Service Worker Demo.

(** * The action mapping of a signature *)

Lemma check_action_indices_spec seen l s :
  check_action_indices seen l = Ok s <->
  Forall (fun i => i <= 199) l /\ NoDup l /\ (forall i, i ∈ l -> i ∉ seen) /\ s = list_to_set l ∪ seen.
Proof.
  revert seen. induction l as [|i l IH]; intros seen; cbn [check_action_indices].
  { split; [intros [= <-]|intros (_ & _ & _ & ->)].
    - split_and!; [constructor..|by intros ? ?%elem_of_nil|set_solver].
    - f_equal. set_solver. }
  destruct (Z.ltb_spec 199 i).
  { split; [done|]. intros ([? _]%Forall_cons & _). lia. }
  case_bool_decide as Hin.
  { split; [done|]. intros (_ & _ & Hd & _). by destruct (Hd i); [left|]. }
  rewrite IH, Forall_cons, NoDup_cons. split.
  - intros (Hf & Hn & Hd & ->). split_and!; [done|done| |done| |].
    + intros Hc. apply (Hd i Hc). set_solver.
    + intros j [-> |Hj]%elem_of_cons; [done|]. intros Hc. apply (Hd j Hj). set_solver.
    + cbn. set_solver.
  - intros ((_ & Hf) & (Hni & Hn) & Hd & ->). split_and!; [done..| |].
    + intros j Hj. rewrite elem_of_union, elem_of_singleton. intros [-> |Hc]; [done|].
      apply (Hd j); [by right|done].
    + cbn. set_solver.
Qed.

Lemma validateSignerResult_iff r outputs :
  validateSignerResult r outputs = Ok tt <->
  Z.of_nat (length (sr_OutputIndices r)) = outputs /\ NoDup (sr_OutputIndices r) /\
  Forall (fun i => i <= 199) (sr_OutputIndices r) /\
  (forall c, sr_ChangeIndex r = Some c -> c <= 199 /\ c ∉ sr_OutputIndices r).
Proof.
  unfold validateSignerResult. destruct (Z.eqb_spec (Z.of_nat (length (sr_OutputIndices r))) outputs) as [Hl|Hl];
    cbn [negb]; [|split; [done|by intros [? _]]].
  destruct (check_action_indices ∅ (sr_OutputIndices r)) as [s|e] eqn:Hc; cbn.
  - pose proof Hc as (Hf & Hn & _ & ->)%check_action_indices_spec.
    destruct (sr_ChangeIndex r) as [c|]; [|split; [intros _; split_and!; done|done]].
    destruct (Z.ltb_spec 199 c); [split; [done|]; intros (_ & _ & _ & Hx); destruct (Hx c eq_refl); lia|].
    case_bool_decide as Hin.
    + split; [done|]. intros (_ & _ & _ & Hx). destruct (Hx c eq_refl) as [_ Hnin].
      apply elem_of_union in Hin as [Hin%elem_of_list_to_set|Hin]; [done|set_solver].
    + split; [|done]. intros _. split_and!; [done..|]. intros ? [= <-]. split; [lia|].
      intros Hx. apply Hin, elem_of_union. left. by apply elem_of_list_to_set.
  - split; [done|]. intros (_ & Hn & Hf & _).
    assert (Hok : check_action_indices ∅ (sr_OutputIndices r) = Ok (list_to_set (sr_OutputIndices r) ∪ ∅))
      by (apply check_action_indices_spec; split_and!; [done..|set_solver|done]).
    congruence.
Qed.

(** a signature's action mapping is accepted exactly when it maps every
    output of the plan to its own Orchard action, at most 199, and puts the
    change, if any, on an action no output uses. *)
Theorem validateSignerResult_spec r outputs :
  validateSignerResult r outputs = Ok tt <->
  Z.of_nat (length (sr_OutputIndices r)) = outputs /\ NoDup (sr_OutputIndices r) /\
  Forall (fun i => i <= 199) (sr_OutputIndices r) /\
  (forall c, sr_ChangeIndex r = Some c -> c <= 199 /\ c ∉ sr_OutputIndices r).
Proof. apply validateSignerResult_iff. Qed.

(** The slice of the approved outputs is in range: every accepted plan has at
    least the approved outputs, and the signature maps each of its outputs. *)
Lemma approved_in_range `{Ports} cfg request wallet a p r :
  stored_plan cfg request wallet a = Some p -> validateSignerResult r (pr_OutputCount p) = Ok tt ->
  (length (planOutputs request (ChangeAddress a)) <= length (sr_OutputIndices r))%nat /\
  length (approvedIndices request (ChangeAddress a) r) = length (planOutputs request (ChangeAddress a)).
Proof.
  unfold stored_plan. destruct (validatePlan _ _ _ _ _) as [v|] eqn:Hv; [|done].
  case_match; [done|]. intros [= ->] (Hl & _)%validateSignerResult_iff.
  apply validatePlan_ok in Hv as (plan & _ & _ & Hm & ->). destruct (pm_outputs _ _ _ _ _ Hm) as (extra & Ho & _).
  cbn in Hl. rewrite Ho, length_app in Hl. unfold approvedIndices. rewrite length_take. lia.
Qed.

(** * Change splitting *)

Lemma options_range p spends : options p spends = 0 \/ 2 <= options p spends <= split_max p.
Proof.
  unfold options. destruct (Z.ltb_spec (split_max p) 2); [by left|]. cbv zeta.
  destruct (Z.ltb_spec (add64 (deficit p) (Z.max spends 1)) 2); [by left|right; lia].
Qed.

Section widening.
Context `{Ports} (policy : changeSplitPolicy) (request : CreateRequest) (wallet : Config.Wallet)
  (changeAddress : string) (excluded : list string).

Definition planned_with (k : Z) (plan : planResult) : Prop :=
  exists n, planner_Plan n request wallet changeAddress excluded k = Ok plan.

(** The split a plan asks for: its own notes back, and the missing ones. *)
Definition asked (plan : planResult) : Z := options policy (Z.of_nat (length (pr_SelectedNoteIDs plan))).

(** The loop stopped for a reason: the split covers the plan, or the planner
    could not make the wider one. *)
Definition settled (k : Z) (plan : planResult) : Prop :=
  asked plan <= k \/
  exists n e, planner_Plan n request wallet changeAddress excluded (asked plan) = Err e.

Lemma widen_settles fuel k plan w :
  0 <= k -> planned_with k plan -> split_max policy - k <= Z.of_nat fuel ->
  exists k', k <= k' /\ planned_with k' (widen fuel policy request wallet changeAddress excluded k plan w).1 /\
    settled k' (widen fuel policy request wallet changeAddress excluded k plan w).1.
Proof.
  revert k plan w. induction fuel as [|fuel IH]; intros k plan w Hk Hp Hfuel; cbn [widen].
  { exists k. split_and!; [lia|done|]. left. unfold asked. cbn.
    pose proof (options_range policy (Z.of_nat (length (pr_SelectedNoteIDs plan)))). lia. }
  fold (asked plan). destruct (Z.leb_spec (asked plan) k) as [Hle|Hlt].
  { exists k. split_and!; [lia|done|by left]. }
  unfold mbind, s_bind, ask.
  destruct (planner_Plan (tick w) request wallet changeAddress excluded (asked plan)) as [plan'|e] eqn:Ha.
  - destruct (IH (asked plan) plan' (next_tick w)) as (k' & Hk' & Hp' & Hs); [lia|by eexists|lia|].
    exists k'. split_and!; [lia|done..].
  - exists k. split_and!; [lia|done|]. right. cbn. eauto.
Qed.
End widening.

(** the loop that widens the change split always ends on its own account
    within [CoordinatorChangeSplitMax] rounds: the plan it returns was made by
    the planner with a split at least as wide as the first one, and either that
    split covers every note the plan spends and every missing note (up to the
    cap), or the planner refused the split that would. *)
Theorem widen_covers `{Ports} policy request wallet changeAddress excluded k plan w :
  0 <= k -> planned_with request wallet changeAddress excluded k plan ->
  let r := (widen (Z.to_nat (split_max policy)) policy request wallet changeAddress excluded k plan w).1 in
  exists k', k <= k' /\ planned_with request wallet changeAddress excluded k' r /\
    settled policy request wallet changeAddress excluded k' r.
Proof. intros Hk Hp r. apply widen_settles; [done..|lia]. Qed.

(** * The inventory *)

Definition unspent_in (statuses : gmap string NoteStatus) (r : NoteReservation) : bool :=
  match statuses !! Reservation_NoteID r with Some s => bool_decide (ns_State s = NoteUnspent) | None => false end.

Definition value_in (statuses : gmap string NoteStatus) (r : NoteReservation) : Z :=
  match statuses !! Reservation_NoteID r with
  | Some s => if decide (ns_State s = NoteUnspent) then default 0 (ns_ValueZat s) else 0
  | None => 0
  end.

Definition total_in statuses (l : list NoteReservation) : Z := foldr (fun r acc => value_in statuses r + acc) 0 l.
Definition count_in statuses (l : list NoteReservation) : Z :=
  foldr (fun r acc => (if unspent_in statuses r then 1 else 0) + acc) 0 l.

Lemma total_nonneg statuses l : (forall r, r ∈ l -> 0 <= value_in statuses r) -> 0 <= total_in statuses l.
Proof.
  induction l as [|r l IH]; intros Hv; [done|]. cbn. pose proof (Hv r ltac:(left)).
  specialize (IH ltac:(intros x Hx; apply Hv; by right)). unfold total_in in IH. lia.
Qed.

Lemma count_bounds statuses l : 0 <= count_in statuses l <= Z.of_nat (length l).
Proof. unfold count_in. induction l; cbn [foldr length]; [done|]. destruct (unspent_in _ _); lia. Qed.

(** The view of one reservation. *)
Definition view_of (statuses : gmap string NoteStatus) (r : NoteReservation) (v : NoteReservationView) : Prop :=
  nrv_NoteID v = Reservation_NoteID r /\ nrv_AttemptID v = Reservation_AttemptID r /\
  nrv_AttemptState v = Reservation_State r /\
  match statuses !! Reservation_NoteID r with
  | Some s => nrv_NoteState v = ns_State s /\ nrv_ValueZat v = ns_ValueZat s
  | None => nrv_NoteState v = NoteUnknown /\ nrv_ValueZat v = None
  end.

Lemma inventory_views_spec statuses held complete l :
  (forall r, r ∈ l -> 0 <= value_in statuses r) -> 0 <= nv_NoteCount held -> 0 <= nv_ValueZat held ->
  int64 (nv_NoteCount held + Z.of_nat (length l)) -> int64 (nv_ValueZat held + total_in statuses l) ->
  let '(totals, c, views) := inventory_views statuses held complete l in
  nv_NoteCount totals = nv_NoteCount held + count_in statuses l /\
  nv_ValueZat totals = nv_ValueZat held + total_in statuses l /\
  c = complete && forallb (fun r => negb (is_none (statuses !! Reservation_NoteID r))) l /\
  Forall2 (view_of statuses) l views.
Proof.
  revert held complete. induction l as [|r l IH]; intros held complete Hv Hc Hz Hcount Htotal; cbn [inventory_views].
  { unfold count_in, total_in. cbn. rewrite andb_true_r. split_and!; [lia|lia|done|constructor]. }
  assert (Hl : forall x, x ∈ l -> 0 <= value_in statuses x) by (intros x Hx; apply Hv; by right).
  assert (Hr : 0 <= value_in statuses r) by (apply Hv; left).
  pose proof (total_nonneg _ _ Hl) as Ht0. pose proof (count_bounds statuses l) as Hc0.
  cbn [length total_in foldr] in Hcount, Htotal. fold (total_in statuses l) in Htotal.
  cbn [count_in total_in foldr forallb]. fold (total_in statuses l) (count_in statuses l).
  unfold unspent_in at 1, value_in at 1. unfold value_in in Hr, Htotal.
  destruct (statuses !! Reservation_NoteID r) as [s|] eqn:Hs; cbn [is_none negb].
  - destruct (decide (ns_State s = NoteUnspent)) as [Hu|Hu].
    + rewrite bool_decide_eq_true_2 by done.
      set (held' := Build_NoteValueSummary _ _).
      assert (H1 : nv_NoteCount held' = nv_NoteCount held + 1) by (cbn; apply add64_id; width; lia).
      assert (H2 : nv_ValueZat held' = nv_ValueZat held + default 0 (ns_ValueZat s)).
      { cbn. destruct (ns_ValueZat s); cbn in *; [apply add64_id; width; lia|lia]. }
      specialize (IH held' complete Hl). destruct (inventory_views statuses held' complete l) as [[t c] v].
      destruct IH as (Ha & Hb & Hd & He); [rewrite ?H1, ?H2; width; lia..|].
      rewrite Ha, Hb, H1, H2. split_and!; [lia|lia|done|].
      constructor; [|done]. unfold view_of. by rewrite Hs.
    + rewrite bool_decide_eq_false_2 by done.
      specialize (IH held complete Hl). destruct (inventory_views statuses held complete l) as [[t c] v].
      destruct IH as (Ha & Hb & Hd & He); [width; lia..|].
      split_and!; [done|lia|done|]. constructor; [|done]. unfold view_of. by rewrite Hs.
  - specialize (IH held false Hl). destruct (inventory_views statuses held false l) as [[t c] v].
    destruct IH as (Ha & Hb & Hd & He); [width; lia..|].
    split_and!; [done|lia|by rewrite Hd, andb_false_r|]. constructor; [|done]. unfold view_of. by rewrite Hs.
Qed.

(** the inventory of a wallet lists every active reservation with its note's
    state, counts and totals as reserved exactly those whose note is unspent,
    says it is complete exactly when every reserved note's state is known, and
    reports as unreserved what remains, never below zero. *)
Theorem inventory_of_spec cfg walletID summary reservations statuses :
  (forall r, r ∈ reservations -> 0 <= value_in statuses r) ->
  Z.of_nat (length reservations) <= maxInventoryReservations -> total_in statuses reservations <= int64_max ->
  int64 (nv_NoteCount (sp_Value (ws_Spendable summary))) -> int64 (nv_ValueZat (sp_Value (ws_Spendable summary))) ->
  0 <= nv_NoteCount (sp_Value (ws_Spendable summary)) -> 0 <= nv_ValueZat (sp_Value (ws_Spendable summary)) ->
  let inv := inventory_of cfg walletID summary reservations statuses in
  let spendable := sp_Value (ws_Spendable summary) in
  nv_NoteCount (inv_Reserved inv) = count_in statuses reservations /\
  nv_ValueZat (inv_Reserved inv) = total_in statuses reservations /\
  nv_NoteCount (inv_Unreserved inv) = Z.max (nv_NoteCount spendable - count_in statuses reservations) 0 /\
  nv_ValueZat (inv_Unreserved inv) = Z.max (nv_ValueZat spendable - total_in statuses reservations) 0 /\
  (inv_ReservationsComplete inv = true <->
     forall r, r ∈ reservations -> is_Some (statuses !! Reservation_NoteID r)) /\
  Forall2 (view_of statuses) reservations (inv_ReservedByAttempts inv).
Proof.
  intros Hv Hlen Htot Hc64 Hv64 Hc0 Hv0. unfold inventory_of.
  pose proof (total_nonneg _ _ Hv) as Ht0. pose proof (count_bounds statuses reservations) as Hcnt.
  unfold maxInventoryReservations in Hlen.
  pose proof (inventory_views_spec statuses no_notes true reservations Hv) as Hspec.
  destruct (inventory_views _ _ _ _) as [[held c] views].
  destruct Hspec as (Ha & Hb & Hd & He); [cbn; width; lia..|]. cbn in Ha, Hb, Hd |- *.
  rewrite Ha, Hb. rewrite !sub64_id by (width; lia). split_and!; [done..| |done].
  rewrite Hd, forallb_forall. split.
  - intros Hall r Hr. specialize (Hall r ltac:(by apply list_elem_of_In)). by destruct (statuses !! _).
  - intros Hall r Hr%list_elem_of_In. by destruct (Hall r Hr) as [? ->].
Qed.

(** * Concrete runs *)

Definition three_notes : planResult :=
  {| pr_Bytes := "wide"; pr_Digest := "d"; pr_FeeZat := "20"; pr_ExpiryHeight := 9;
     pr_SelectedNoteIDs := [note_a; note_b; "n3"]%string; pr_OutputCount := 4 |}.

(** A planner whose wider plans spend three notes, and refuses splits above 5. *)
Definition widening_ports : Ports := {|
  interfere := fun _ d => d; port_io := fun _ => []; port_clock := fun n => 1000 + Z.of_nat n;
  ctx_done := fun _ => false; random16 := fun _ => Ok "0123456789abcdef"%string;
  node_Tip := fun _ => Ok (demo_tip 500); node_Transaction := fun _ _ _ => Ok None;
  scanner_Health := fun _ => Ok (demo_health 500);
  scanner_NoteStatuses := fun _ _ ids => Ok (Some (demo_statuses 500 ids));
  scanner_NoteSummary := fun _ _ _ _ _ => Ok None;
  allocate := fun n wallet label d => (Err ErrNoRows, d);
  planner_Plan := fun _ _ _ _ _ k =>
    if 5 <? k then Err (New "too wide") else if 2 <? k then Ok three_notes else Ok demo_plan_result;
  signer_Sign := fun _ => signs; signer_Healthy := fun _ => Ok tt; txbuild_executable := fun _ => true |}.

Lemma widen_covers_witness :
  let P := widening_ports in
  let r := (widen 8 {| deficit := 2; split_max := 8 |} demo_normalized the_wallet "j1change" [] 2 demo_plan_result
              (demo_svc demo_tables)).1 in
  r = three_notes /\ exists k', 2 <= k' /\ settled {| deficit := 2; split_max := 8 |} demo_normalized the_wallet "j1change" [] k' r.
Proof.
  intros P r. assert (Hp : planned_with demo_normalized the_wallet "j1change" [] 2 demo_plan_result)
    by (exists 0%nat; vm_compute; reflexivity).
  assert (H2 : 0 <= 2) by lia.
  destruct (@widen_covers P {| deficit := 2; split_max := 8 |} _ _ _ _ 2 demo_plan_result (demo_svc demo_tables) H2 Hp)
    as (k' & Hk & _ & Hs).
  split; [vm_compute; reflexivity|]. exact (ex_intro _ k' (conj Hk Hs)).
Defined.

Definition demo_reservation (id : string) : NoteReservation :=
  {| Reservation_NoteID := id; Reservation_AttemptID := "a1"; Reservation_State := signed;
     Reservation_ExpiryHeight := 9; Reservation_CreatedAt := 5 |}.

Definition demo_held : list NoteReservation := [demo_reservation note_a; demo_reservation note_b].
Definition demo_known : gmap string NoteStatus := {[ note_a := demo_status note_a ]}.

(** Two notes held, one of them unknown to the scanner. *)
Lemma inventory_of_spec_witness :
  let inv := inventory_of demo_cfg "hot" example_summary demo_held demo_known in
  nv_NoteCount (inv_Reserved inv) = 1 /\ nv_ValueZat (inv_Unreserved inv) = 25 /\
  (inv_ReservationsComplete inv = true <-> forall r, r ∈ demo_held -> is_Some (demo_known !! Reservation_NoteID r)).
Proof.
  intros inv.
  assert (Hv : forall r, r ∈ demo_held -> 0 <= value_in demo_known r).
  { intros r [-> |[-> |Hr%elem_of_nil]%elem_of_cons]%elem_of_cons; [vm_compute; discriminate..|destruct Hr]. }
  assert (Hlen : Z.of_nat (length demo_held) <= maxInventoryReservations) by (vm_compute; discriminate).
  assert (Htot : total_in demo_known demo_held <= int64_max) by (vm_compute; discriminate).
  assert (Hc : int64 (nv_NoteCount (sp_Value (ws_Spendable example_summary)))) by (width; cbn; lia).
  assert (Hz : int64 (nv_ValueZat (sp_Value (ws_Spendable example_summary)))) by (width; cbn; lia).
  assert (Hc0 : 0 <= nv_NoteCount (sp_Value (ws_Spendable example_summary))) by (cbn; lia).
  assert (Hz0 : 0 <= nv_ValueZat (sp_Value (ws_Spendable example_summary))) by (cbn; lia).
  destruct (inventory_of_spec demo_cfg "hot" example_summary demo_held demo_known Hv Hlen Htot Hc Hz Hc0 Hz0)
    as (H1 & _ & _ & H4 & H5 & _).
  assert (Hcount : count_in demo_known demo_held = 1) by (vm_compute; reflexivity).
  assert (Hmax : Z.max (nv_ValueZat (sp_Value (ws_Spendable example_summary)) - total_in demo_known demo_held) 0 = 25)
    by (vm_compute; reflexivity).
  exact (conj (eq_trans H1 Hcount) (conj (eq_trans H4 Hmax) H5)).
Defined.
