(* ===== verification/Cursor.v ===== *)
(** The signed deposit cursors of [internal/api/cursor.go].

    A cursor carries the wallet, the scanner's event epoch, a digest of the
    filters and the position, signed with the installation's cursor key. *)
From S2P Require Import Prelude GoString Sha256 Json Base64.

Definition errCursorResetRequired : error := New "cursor reset required".
Definition errCursorFilterMismatch : error := New "cursor filter mismatch".
Definition invalid_cursor : error := New "invalid cursor".

Record cursorPayload := {
  cp_Version : Z;
  cp_WalletID : string;
  cp_Epoch : string;
  cp_Filter : string;
  cp_Position : Z
}.

(** [json.Marshal]: empty [omitempty] fields are left out. *)
Definition omitempty (name value : string) : list (string * json) :=
  if String.eqb value "" then [] else [(name, JString value)].

Definition payload_json (p : cursorPayload) : json :=
  JObject ([("v", JInt (cp_Version p)); ("w", JString (cp_WalletID p))]
           ++ omitempty "e" (cp_Epoch p) ++ omitempty "f" (cp_Filter p)
           ++ [("p", JInt (cp_Position p))]).

(** [json.Unmarshal]. *)
Definition Unmarshal_payload (raw : string) : option cursorPayload :=
  v ← parse raw; ms ← struct_members v;
  version ← decode_field "v" into_int64 0 ms;
  walletID ← decode_field "w" into_string "" ms;
  epoch ← decode_field "e" into_string "" ms;
  filter ← decode_field "f" into_string "" ms;
  position ← decode_field "p" into_int64 0 ms;
  Some {| cp_Version := version; cp_WalletID := walletID; cp_Epoch := epoch; cp_Filter := filter;
          cp_Position := position |}.

Definition encode (key walletID epoch filter : string) (position : Z) : string :=
  let payload := Marshal (payload_json
    {| cp_Version := 2; cp_WalletID := walletID; cp_Epoch := epoch; cp_Filter := filter;
       cp_Position := position |}) in
  RawURL_EncodeToString payload +:+ "." +:+ RawURL_EncodeToString (HMAC_SHA256 key payload).

Definition decode (key raw walletID epoch filter : string) : result Z :=
  if String.eqb raw "" then Ok 0
  else
    let '(payloadPart, signaturePart, found) := Cut raw "." in
    if negb found || String.eqb payloadPart "" || String.eqb signaturePart "" then Err invalid_cursor
    else match RawURL_DecodeString payloadPart, RawURL_DecodeString signaturePart with
    | Some payload, Some signature =>
        if negb (String.eqb signature (HMAC_SHA256 key payload)) then Err invalid_cursor
        else match Unmarshal_payload payload with
        | None => Err invalid_cursor
        | Some decoded =>
            if negb (String.eqb (cp_WalletID decoded) walletID) || (cp_Position decoded <? 0)
            then Err invalid_cursor
            else if cp_Version decoded =? 1 then Err errCursorResetRequired
            else if negb (cp_Version decoded =? 2) then Err invalid_cursor
            else if negb (String.eqb (cp_Epoch decoded) epoch) then Err errCursorResetRequired
            else if negb (String.eqb (cp_Filter decoded) filter) then Err errCursorFilterMismatch
            else Ok (cp_Position decoded)
        end
    | _, _ => Err invalid_cursor
    end.

(** * Theorems *)

Definition well_formed (p : cursorPayload) : Prop :=
  int64 (cp_Version p) /\ int64 (cp_Position p) /\ utf8_string (cp_WalletID p) = true
  /\ utf8_string (cp_Epoch p) = true /\ utf8_string (cp_Filter p) = true.

Lemma payload_printable p : well_formed p -> printable (payload_json p) = true /\ depth (payload_json p) <= 10000.
Proof.
  intros (_ & _ & Hw & He & Hf). unfold payload_json, omitempty, JInt. split.
  - cbn [printable forallb app fst snd]. repeat case_match;
      cbn [forallb app fst snd printable]; rewrite ?Hw, ?He, ?Hf, !number_literal_pretty; done.
  - cbn [depth]. repeat case_match; cbn; lia.
Qed.

Lemma Unmarshal_Marshal_payload p : well_formed p ->
  Unmarshal_payload (Marshal (payload_json p)) = Some p.
Proof.
  intros Hp. destruct (payload_printable p Hp) as [Hprint Hdepth].
  unfold Unmarshal_payload. rewrite parse_Marshal by done. cbn [mbind option_bind struct_members payload_json].
  destruct p as [v w e f n], Hp as (Hv & Hn & _). cbn in Hv, Hn.
  pose proof (ParseInt_pretty v Hv) as Hpv. pose proof (ParseInt_pretty n Hn) as Hpn.
  unfold omitempty. cbn [cp_Version cp_WalletID cp_Epoch cp_Filter cp_Position].
  destruct (String.eqb_spec e "") as [->|_], (String.eqb_spec f "") as [->|_];
    unfold decode_field; cbn -[ParseInt pretty int64]; rewrite ?Hpv, ?Hpn; cbn -[ParseInt pretty];
    rewrite ?Hpv, ?Hpn; done.
Qed.

Lemma Cut_no_sep a b (c : ascii) : forallb (fun x => negb (Ascii.eqb x c)) (to_bytes a) = true ->
  Cut (a +:+ String c b) c = (a, b, true).
Proof.
  induction a as [|x a IH].
  { intros _. change ("" +:+ String c b) with (String c b). cbn [Cut]. by rewrite Ascii.eqb_refl. }
  change (to_bytes (String x a)) with (x :: to_bytes a).
  change (String x a +:+ String c b) with (String x (a +:+ String c b)). cbn [forallb Cut].
  intros H. apply andb_prop in H as [Hx Ha]. apply negb_true_iff in Hx. rewrite Hx, IH by done. done.
Qed.

Lemma RawURL_parts payload signature : payload <> "" -> signature <> "" ->
  Cut (RawURL_EncodeToString payload +:+ "." +:+ RawURL_EncodeToString signature) "."
    = (RawURL_EncodeToString payload, RawURL_EncodeToString signature, true)
  /\ RawURL_EncodeToString payload <> "" /\ RawURL_EncodeToString signature <> "".
Proof.
  intros Hp Hs. split; [apply Cut_no_sep, RawURL_no_dot|].
  by split; intros H; apply RawURL_nonempty in H.
Qed.

Lemma HMAC_nonempty key msg : HMAC_SHA256 key msg <> "".
Proof. intros H. pose proof (HMAC_SHA256_len key msg) as Hl. by rewrite H in Hl. Qed.

(** [decode] on a payload signed with the key. *)
Lemma decode_signed key p walletID epoch filter : well_formed p ->
  decode key (RawURL_EncodeToString (Marshal (payload_json p)) +:+ "."
              +:+ RawURL_EncodeToString (HMAC_SHA256 key (Marshal (payload_json p)))) walletID epoch filter
  = if negb (String.eqb (cp_WalletID p) walletID) || (cp_Position p <? 0) then Err invalid_cursor
    else if cp_Version p =? 1 then Err errCursorResetRequired
    else if negb (cp_Version p =? 2) then Err invalid_cursor
    else if negb (String.eqb (cp_Epoch p) epoch) then Err errCursorResetRequired
    else if negb (String.eqb (cp_Filter p) filter) then Err errCursorFilterMismatch
    else Ok (cp_Position p).
Proof.
  intros Hp. unfold decode.
  assert (Hne : Marshal (payload_json p) <> "") by done.
  pose proof (Unmarshal_Marshal_payload p Hp) as Hu.
  revert Hu Hne. generalize (Marshal (payload_json p)). intros payload Hu Hne.
  pose proof (HMAC_nonempty key payload) as Hs.
  destruct (RawURL_parts payload _ Hne Hs) as (-> & Hp1 & Hs1).
  destruct (String.eqb_spec (RawURL_EncodeToString payload +:+ "." +:+ RawURL_EncodeToString (HMAC_SHA256 key payload)) "")
    as [He|_]; [by destruct (RawURL_EncodeToString payload)|].
  apply String.eqb_neq in Hp1, Hs1. rewrite Hp1, Hs1. cbn [negb orb].
  rewrite !RawURL_round_trip, String.eqb_refl, Hu. done.
Qed.

(** The page that follows a page. *)
Lemma decode_issued key walletID epoch filter position :
  utf8_string walletID = true -> utf8_string epoch = true -> utf8_string filter = true ->
  0 <= position -> int64 position ->
  decode key (encode key walletID epoch filter position) walletID epoch filter = Ok position.
Proof.
  intros Hw He Hf Hpos Hint. unfold encode. rewrite decode_signed by (repeat split; cbn; done || (width; lia)).
  cbn [cp_WalletID cp_Epoch cp_Filter cp_Position cp_Version].
  destruct (Z.ltb_spec position 0); [lia|]. by rewrite !String.eqb_refl.
Qed.

(** C31: a cursor the gateway issued for a wallet, an event epoch and filters at
    a position gives that position back when it is presented with the same
    wallet, epoch and filters; with another wallet it is invalid, in another
    epoch the client must restart, and with other filters it is a mismatch. *)
Theorem decode_encode key walletID epoch filter position walletID' epoch' filter' :
  utf8_string walletID = true -> utf8_string epoch = true -> utf8_string filter = true ->
  0 <= position -> int64 position ->
  decode key (encode key walletID epoch filter position) walletID' epoch' filter'
  = if decide (walletID' = walletID) then
      if decide (epoch' = epoch) then
        if decide (filter' = filter) then Ok position else Err errCursorFilterMismatch
      else Err errCursorResetRequired
    else Err invalid_cursor.
Proof.
  intros Hw He Hf Hpos Hint. unfold encode. rewrite decode_signed by (repeat split; cbn; done || (width; lia)).
  cbn [cp_WalletID cp_Epoch cp_Filter cp_Position cp_Version].
  destruct (Z.ltb_spec position 0); [lia|]. rewrite orb_false_r.
  repeat case_decide; subst; rewrite ?String.eqb_refl; try done;
    repeat match goal with H : _ <> _ |- _ => apply not_eq_sym, String.eqb_neq in H; rewrite H; clear H end; done.
Qed.

(** a cursor that is accepted carries a payload that was signed with the
    cursor key, of version 2, for this wallet, epoch and filters, and its position
    is the one of that payload; only the absent cursor stands for the beginning. *)
Theorem decode_authentic key raw walletID epoch filter position :
  decode key raw walletID epoch filter = Ok position ->
  (raw = "" /\ position = 0)
  \/ exists payloadPart signaturePart payload,
       raw = payloadPart +:+ "." +:+ signaturePart
       /\ RawURL_DecodeString payloadPart = Some payload
       /\ RawURL_DecodeString signaturePart = Some (HMAC_SHA256 key payload)
       /\ Unmarshal_payload payload
          = Some {| cp_Version := 2; cp_WalletID := walletID; cp_Epoch := epoch; cp_Filter := filter;
                    cp_Position := position |}
       /\ 0 <= position.
Proof.
  unfold decode. destruct (String.eqb_spec raw "") as [->|_]; [intros [= <-]; by left|].
  destruct (Cut raw ".") as [[payloadPart signaturePart] found] eqn:Hcut.
  destruct (negb found || _ || _) eqn:Hparts; [done|]. bool_to_prop. subst found.
  destruct (RawURL_DecodeString payloadPart) as [payload|] eqn:Hp; [|done].
  destruct (RawURL_DecodeString signaturePart) as [signature|] eqn:Hs; [|done].
  case_match eqn:Hmac; [done|]. destruct (Unmarshal_payload payload) as [d|] eqn:Hd; [|done].
  repeat (case_match; [done|]). bool_to_prop. subst. intros [= <-]. right.
  exists payloadPart, signaturePart, payload. repeat split; try done.
  - by apply Cut_found.
  - rewrite Hd. destruct d; cbn in *; by subst.
Qed.

Definition demo_key : string := "0123456789abcdef0123456789abcdef".

Lemma decode_encode_witness :
  decode demo_key (encode demo_key "hot" "e1" "f1" 41) "hot" "e1" "f2" = Err errCursorFilterMismatch.
Proof. by apply (decode_encode demo_key "hot" "e1" "f1" 41 "hot" "e1" "f2"). Defined.

Lemma decode_authentic_witness :
  exists payload, Unmarshal_payload payload = Some {| cp_Version := 2; cp_WalletID := "hot";
    cp_Epoch := "e1"; cp_Filter := "f1"; cp_Position := 41 |}.
Proof.
  destruct (decode_authentic demo_key (encode demo_key "hot" "e1" "f1" 41) "hot" "e1" "f1" 41)
    as [[H _]|(a & b & p & _ & _ & _ & H & _)]; [by vm_compute|done|].
  eauto.
Defined.
