(* ===== verification/Access.v ===== *)
(** Who may call the public API, and how often: [internal/api/auth.go] and
    [internal/api/ratelimit.go].

    The token buckets count in [float64]; they are [spec_float] at precision 53,
    with the library's rounding. *)
From Stdlib Require Import SpecFloat.
From S2P Require Import Prelude GoString GoTime Sha256 Domain Config Environ.

(** * Principals *)

Record principal := {
  p_name : string;
  p_scopes : gset string;
  p_wallets : gset string;
  p_all : bool
}.

Definition no_principal : principal := {| p_name := ""; p_scopes := ∅; p_wallets := ∅; p_all := false |}.

Definition hasScope (p : principal) (scope : string) : bool :=
  p_all p || bool_decide (scope ∈ p_scopes p) || bool_decide ("admin"%string ∈ p_scopes p).

Definition hasWallet (p : principal) (walletID : string) : bool :=
  p_all p || bool_decide ("*"%string ∈ p_wallets p) || bool_decide (walletID ∈ p_wallets p).

Record authenticator := { credentials : list Credential; allowAnonymous : bool }.

Definition anonymous : principal :=
  {| p_name := "regtest-anonymous"; p_scopes := ∅; p_wallets := ∅; p_all := true |}.

Definition principal_of (c : Credential) : principal :=
  {| p_name := Name c; p_scopes := list_to_set (Scopes c); p_wallets := list_to_set (cr_Wallets c);
     p_all := false |}.

(** The token of an [Authorization] header; [None] when it is not a bearer
    token. *)
Definition bearer_token (header : string) : option string :=
  let header := TrimSpace header in
  if (len header <? 8) || negb (EqualFold (String.substring 0 7 header) "Bearer ") then None
  else let token := TrimSpace (drop_string 7 header) in
       if String.eqb token "" then None else Some token.

(** The loop over the credentials. *)
Fixpoint credential_for (hash : string) (creds : list Credential) : option Credential :=
  match creds with
  | [] => None
  | c :: rest => if String.eqb hash (TokenHash c) then Some c else credential_for hash rest
  end.

Definition authenticate (a : authenticator) (header : string) : option principal :=
  if allowAnonymous a && bool_decide (credentials a = []) then Some anonymous
  else token ← bearer_token header;
       principal_of <$> credential_for (Sum256 token) (credentials a).

(** * Rate limits *)

Definition float := spec_float.
Definition float_of (z : Z) : float := binary_normalize 53 1024 z 0 false.
Definition fadd : float -> float -> float := SFadd 53 1024.
Definition fsub : float -> float -> float := SFsub 53 1024.
Definition fmul : float -> float -> float := SFmul 53 1024.
Definition fdiv : float -> float -> float := SFdiv 53 1024.

(** [Duration.Seconds]. *)
Definition Seconds (d : Z) : float :=
  fadd (float_of (Z.quot d second)) (fdiv (float_of (Z.rem d second)) (float_of second)).

Record bucket := { tokens : float; updated : time; seen : time }.

Record limiter := {
  rps : float;
  burst : float;
  buckets : gmap string bucket;
  lastCleanup : time
}.

Definition newLimiter (rate : RateLimit) : limiter :=
  {| rps := RPS rate; burst := float_of (Burst rate); buckets := ∅; lastCleanup := 0 |}.

Definition refill (l : limiter) (b : bucket) (now : time) : float :=
  let t := fadd (tokens b) (fmul (Seconds (Sub now (updated b))) (rps l)) in
  if SFltb (burst l) t then burst l else t.

Definition allow (l : limiter) (key : string) (now : time) : bool * limiter :=
  let b := default {| tokens := burst l; updated := now; seen := 0 |} (buckets l !! key) in
  let t := refill l b now in
  let allowed := SFleb (float_of 1) t in
  let t := if allowed then fsub t (float_of 1) else t in
  let m := <[key := {| tokens := t; updated := now; seen := now |}]> (buckets l) in
  let stale := 5 * minute <? Sub now (lastCleanup l) in
  (allowed,
   {| rps := rps l; burst := burst l;
      buckets := if stale then filter (fun kv => Sub now (seen kv.2) <= 10 * minute) m else m;
      lastCleanup := if stale then now else lastCleanup l |}).

(** * Theorems *)

Lemma credential_for_spec hash creds c : credential_for hash creds = Some c <->
  exists before after, creds = before ++ c :: after /\ TokenHash c = hash
    /\ Forall (fun c' => TokenHash c' <> hash) before.
Proof.
  induction creds as [|c' creds IH]; cbn [credential_for].
  - split; [done|]. by intros ([|] & after & H & _).
  - destruct (String.eqb_spec hash (TokenHash c')) as [->|Hne].
    + split.
      * intros [= ->]. by exists [], creds.
      * intros ([|c0 before] & after & [= -> ->] & Hc & Hb); [done|].
        by apply Forall_cons in Hb as [Hb _].
    + rewrite IH. split.
      * intros (before & after & -> & Hc & Hb). exists (c' :: before), after.
        repeat split; [done|]. by constructor.
      * intros ([|c0 before] & after & [= -> ->] & Hc & Hb); [done|].
        apply Forall_cons in Hb as [_ Hb]. by exists before, after.
Qed.

(** with credentials configured, a request is authenticated exactly when its
    header is a bearer token whose SHA-256 is the hash of a credential, and its
    principal is the one of the first such credential, with that credential's
    scopes and wallets and nothing more. *)
Theorem authenticate_iff a header p : credentials a <> [] ->
  authenticate a header = Some p <->
  exists token before c after, bearer_token header = Some token
    /\ credentials a = before ++ c :: after /\ TokenHash c = Sum256 token
    /\ Forall (fun c' => TokenHash c' <> Sum256 token) before
    /\ p_name p = Name c /\ p_all p = false
    /\ (forall s, hasScope p s = true <-> s ∈ Scopes c \/ "admin"%string ∈ Scopes c)
    /\ (forall w, hasWallet p w = true <-> w ∈ cr_Wallets c \/ "*"%string ∈ cr_Wallets c)
    /\ p = principal_of c.
Proof.
  intros Hne. unfold authenticate. rewrite (bool_decide_false _ Hne), andb_false_r.
  split.
  - destruct (bearer_token header) as [token|]; [|done]. cbn [mbind option_bind].
    rewrite fmap_Some. intros (c & Hc & ->). apply credential_for_spec in Hc as (before & after & Ha & Hh & Hb).
    exists token, before, c, after. repeat split; try done; unfold hasScope, hasWallet; cbn.
    all: rewrite ?orb_true_iff, ?bool_decide_eq_true, ?elem_of_list_to_set; tauto.
  - intros (token & before & c & after & -> & Ha & Hh & Hb & _ & _ & _ & _ & ->).
    cbn [mbind option_bind]. apply fmap_Some. exists c. split; [|done].
    apply credential_for_spec. by exists before, after.
Qed.

Definition demo_authenticator : authenticator :=
  {| allowAnonymous := false;
     credentials := [{| Name := "ops"; Token := ""; TokenSHA256 := ""; Scopes := ["read"; "address"]%string;
                        cr_Wallets := ["hot"%string]; TokenHash := Sum256 "exchange-token-of-ops-0001" |}] |}.

Lemma authenticate_iff_witness :
  authenticate demo_authenticator "bearer  exchange-token-of-ops-0001 "
  = Some (principal_of (List.hd {| Name := ""; Token := ""; TokenSHA256 := ""; Scopes := [];
      cr_Wallets := []; TokenHash := "" |} (credentials demo_authenticator))).
Proof.
  apply (authenticate_iff demo_authenticator); [done|].
  eexists "exchange-token-of-ops-0001"%string, [], _, [].
  split; [vm_compute; reflexivity|]. repeat (split; [done|]).
  repeat split; unfold hasScope, hasWallet; cbn [p_all p_scopes p_wallets principal_of credentials
    demo_authenticator List.hd Scopes cr_Wallets orb];
    rewrite ?orb_true_iff, ?bool_decide_eq_true, ?elem_of_list_to_set; tauto.
Defined.

(** ** Rates that are not finite *)

(** The answers to requests that come one after another, each with its key. *)
Fixpoint admissions (l : limiter) (requests : list (string * time)) : list bool :=
  match requests with
  | [] => []
  | (key, now) :: rest => let '(ok, l') := allow l key now in ok :: admissions l' rest
  end.

(** No bucket holds a number. *)
Definition stuck (r : float) (l : limiter) : Prop :=
  rps l = r /\ forall key b, buckets l !! key = Some b -> tokens b = S754_nan.

Lemma stuck_refuses r l key now : r = S754_infinity false \/ r = S754_nan -> stuck r l ->
  (allow l key now).1 = false /\ stuck r (allow l key now).2.
Proof.
  intros Hr [Hrps Hb]. unfold allow, refill. rewrite Hrps. set (b := default _ (buckets l !! key)).
  assert (Ht : fadd (tokens b) (fmul (Seconds (Sub now (updated b))) r) = S754_nan).
  { subst b. destruct (buckets l !! key) as [b|] eqn:Hk; cbn [from_option id].
    - by rewrite (Hb _ _ Hk).
    - cbn [tokens updated]. assert (Hs : Sub now now = 0) by (unfold Sub; rewrite Z.sub_diag; reflexivity).
      rewrite Hs. assert (Hn : fmul (Seconds 0) r = S754_nan) by (by destruct Hr as [->| ->]).
      rewrite Hn. by destruct (burst l). }
  rewrite Ht. assert (Hlt : SFltb (burst l) S754_nan = false) by by destruct (burst l). rewrite Hlt.
  assert (Hle : SFleb (float_of 1) S754_nan = false) by reflexivity. rewrite Hle. split; [done|]. split; [done|].
  cbn [snd buckets]. intros k b' Hk.
  assert (Hins : forall b'', (<[key := {| tokens := S754_nan; updated := now; seen := now |}]> (buckets l) : gmap string bucket)
                               !! k = Some b'' -> tokens b'' = S754_nan).
  { intros b'' H. destruct (decide (key = k)) as [<-|Hne].
    - rewrite lookup_insert_eq in H. by injection H as <-.
    - rewrite lookup_insert_ne in H by done. by eapply Hb. }
  destruct (_ <? _); [|by apply Hins].
  apply map_lookup_filter_Some in Hk as [Hk _]. by apply Hins.
Qed.

(** C40: a rate of infinity, or one that is not a number, passes the validation of
    rates although it admits nothing: a limiter with that rate refuses every request
    of every caller for as long as it runs. *)
Theorem infinite_rate_admits_nothing rate : RPS rate = S754_infinity false \/ RPS rate = S754_nan -> 0 < Burst rate ->
  rate_invalid rate = false /\ forall requests, Forall (eq false) (admissions (newLimiter rate) requests).
Proof.
  intros Hr Hburst. split.
  - unfold rate_invalid. rewrite (proj2 (Z.leb_gt _ _) Hburst). by destruct Hr as [->| ->].
  - intros requests. assert (Hs : stuck (RPS rate) (newLimiter rate)) by (split; [done|intros key b H; cbn [newLimiter buckets] in H; by rewrite lookup_empty in H]).
    revert Hs. generalize (newLimiter rate). induction requests as [|[key now] requests IH]; intros l Hs; [constructor|].
    cbn [admissions]. pose proof (stuck_refuses _ l key now Hr Hs) as [Hno Hs']. destruct (allow l key now) as [ok l'].
    cbn in Hno, Hs'. constructor; [done|]. by apply IH.
Qed.

(** The configuration that says [Inf] is loaded. *)
Lemma infinite_rate_admits_nothing_witness :
  exists c, demo_load [("JUNO_GATEWAY_READ_RATE_RPS", "Inf")]%string = Ok c /\
    Forall (eq false) (admissions (newLimiter (ReadRate c)) [("a", 0); ("a", 60 * second); ("b", 61 * second)]%string).
Proof.
  destruct (demo_load [("JUNO_GATEWAY_READ_RATE_RPS", "Inf")]%string) as [c|e] eqn:Hl; [|vm_compute in Hl; discriminate Hl].
  exists c. split; [reflexivity|]. refine (proj2 (infinite_rate_admits_nothing (ReadRate c) _ _) _);
    [left|]; vm_compute in Hl; injection Hl as <-; reflexivity.
Defined.
