(* ===== verification/Effects.v ===== *)
(** Wallet effects: what the API makes of the scanner's events,
    [internal/api/wallet_effects.go].

    A scanner event carries a JSON payload; [sanitizeWalletEffect] decodes it
    strictly and lets it through only if its fields agree with the event and with
    each other. *)
From S2P Require Import Prelude GoString GoTime Json Domain.

(** * Data *)

Record walletEffectSourceNote := { sn_TxID : string; sn_ActionIndex : Z; sn_BlockHeight : Z }.

Record walletEffect := {
  we_EventID : Z;
  we_Kind : string;
  we_ObservedHeight : Z;
  we_ObservedAt : time;
  we_WalletID : string;
  we_TxID : string;
  we_State : string;
  we_BlockHeight : option Z;
  we_Confirmations : option Z;
  we_RequiredConfirmations : option Z;
  we_ConfirmedHeight : option Z;
  we_RollbackHeight : option Z;
  we_PreviousConfirmedHeight : option Z;
  we_OrphanedAtHeight : option Z;
  we_ExpiryHeight : option Z;
  we_ActionIndex : option Z;
  we_AmountZat : option Z;
  we_Address : string;
  we_DiversifierIndex : option Z;
  we_MemoHex : string;
  we_OVKScope : string;
  we_RecipientScope : string;
  we_SourceNote : option walletEffectSourceNote
}.

Record rawWalletEffectStatus := {
  rs_State : option string;
  rs_Height : option Z;
  rs_Confirmations : option Z
}.

Record rawWalletEffectPayload := {
  rp_Version : option string;
  rp_WalletID : option string;
  rp_AccountID : option string;
  rp_DiversifierIndex : option Z;
  rp_TxID : option string;
  rp_Height : option Z;
  rp_ActionIndex : option Z;
  rp_AmountZatoshis : option Z;
  rp_MemoHex : option string;
  rp_Status : option rawWalletEffectStatus;
  rp_Origin : option string;
  rp_RecipientAddress : option string;
  rp_NoteNullifier : option string;
  rp_NoteTxID : option string;
  rp_NoteActionIndex : option Z;
  rp_NoteHeight : option Z;
  rp_ExpiryHeight : option Z;
  rp_OVKScope : option string;
  rp_RecipientScope : option string;
  rp_ConfirmedHeight : option Z;
  rp_RequiredConfirmations : option Z;
  rp_OrphanedAtHeight : option Z;
  rp_RollbackHeight : option Z;
  rp_PreviousConfirmedHeight : option Z
}.

(** * Decoding *)

Definition ptr_string (name : string) (ms : list (string * json)) : option (option string) :=
  decode_field name (into_ptr into_string "") None ms.
Definition ptr_int64 (name : string) (ms : list (string * json)) : option (option Z) :=
  decode_field name (into_ptr into_int64 0) None ms.
Definition ptr_uint32 (name : string) (ms : list (string * json)) : option (option Z) :=
  decode_field name (into_ptr into_uint32 0) None ms.
Definition ptr_uint64 (name : string) (ms : list (string * json)) : option (option Z) :=
  decode_field name (into_ptr into_uint64 0) None ms.

Definition no_status : rawWalletEffectStatus :=
  {| rs_State := None; rs_Height := None; rs_Confirmations := None |}.

Definition into_status (j : json) (old : rawWalletEffectStatus) : option rawWalletEffectStatus :=
  ms ← struct_members j;
  if negb (known_fields ["state"; "height"; "confirmations"] ms) then None
  else
    state ← decode_field "state" (into_ptr into_string "") (rs_State old) ms;
    height ← decode_field "height" (into_ptr into_int64 0) (rs_Height old) ms;
    confirmations ← decode_field "confirmations" (into_ptr into_int64 0) (rs_Confirmations old) ms;
    Some {| rs_State := state; rs_Height := height; rs_Confirmations := confirmations |}.

Definition payload_fields : list string :=
  ["version"; "wallet_id"; "account_id"; "diversifier_index"; "txid"; "height"; "action_index";
   "amount_zatoshis"; "memo_hex"; "status"; "origin"; "recipient_address"; "note_nullifier";
   "note_txid"; "note_action_index"; "note_height"; "expiry_height"; "ovk_scope"; "recipient_scope";
   "confirmed_height"; "required_confirmations"; "orphaned_at_height"; "rollback_height";
   "previous_confirmed_height"].

Definition payload_of_json (j : json) : option rawWalletEffectPayload :=
  ms ← struct_members j;
  if negb (known_fields payload_fields ms) then None
  else
    version ← ptr_string "version" ms; wallet ← ptr_string "wallet_id" ms;
    account ← ptr_string "account_id" ms; diversifier ← ptr_uint32 "diversifier_index" ms;
    txid ← ptr_string "txid" ms; height ← ptr_int64 "height" ms;
    action ← ptr_uint32 "action_index" ms; amount ← ptr_uint64 "amount_zatoshis" ms;
    memo ← ptr_string "memo_hex" ms;
    status ← decode_field "status" (into_ptr into_status no_status) None ms;
    origin ← ptr_string "origin" ms; recipient ← ptr_string "recipient_address" ms;
    nullifier ← ptr_string "note_nullifier" ms; note_txid ← ptr_string "note_txid" ms;
    note_action ← ptr_uint32 "note_action_index" ms; note_height ← ptr_int64 "note_height" ms;
    expiry ← ptr_int64 "expiry_height" ms; ovk ← ptr_string "ovk_scope" ms;
    recipient_scope ← ptr_string "recipient_scope" ms; confirmed ← ptr_int64 "confirmed_height" ms;
    required ← ptr_int64 "required_confirmations" ms; orphaned ← ptr_int64 "orphaned_at_height" ms;
    rollback ← ptr_int64 "rollback_height" ms; previous ← ptr_int64 "previous_confirmed_height" ms;
    Some {| rp_Version := version; rp_WalletID := wallet; rp_AccountID := account;
            rp_DiversifierIndex := diversifier; rp_TxID := txid; rp_Height := height;
            rp_ActionIndex := action; rp_AmountZatoshis := amount; rp_MemoHex := memo;
            rp_Status := status; rp_Origin := origin; rp_RecipientAddress := recipient;
            rp_NoteNullifier := nullifier; rp_NoteTxID := note_txid; rp_NoteActionIndex := note_action;
            rp_NoteHeight := note_height; rp_ExpiryHeight := expiry; rp_OVKScope := ovk;
            rp_RecipientScope := recipient_scope; rp_ConfirmedHeight := confirmed;
            rp_RequiredConfirmations := required; rp_OrphanedAtHeight := orphaned;
            rp_RollbackHeight := rollback; rp_PreviousConfirmedHeight := previous |}.

(** * Validation *)

Definition invalidWalletEffect (reason : string) : error :=
  UpstreamError "invalid_response" (New ("scanner returned an invalid wallet effect: " +:+ reason)).

Definition txIDPattern (s : string) : bool := lower_hex64 s.

Definition nonzero (value : option Z) : bool :=
  match value with Some z => negb (z =? 0) | None => false end.
Definition valueOrZero (value : option Z) : Z := default 0 value.

(** [p != nil && f( *p )]. *)
Definition set_and {A} (o : option A) (f : A -> bool) : bool :=
  match o with Some a => f a | None => false end.

Definition reachedRequiredConfirmations (blockHeight confirmedHeight requiredConfirmations : Z) : bool :=
  if (blockHeight <? 0) || (confirmedHeight <? blockHeight) || (requiredConfirmations <? 1) then false
  else sub64 requiredConfirmations 1 <=? sub64 confirmedHeight blockHeight.

Definition requireOnlyLifecycleFields (payload : rawWalletEffectPayload) (lifecycle : string) : result unit :=
  guard_not
    (negb (String.eqb lifecycle "confirmed")
       && (negb (is_none (rp_ConfirmedHeight payload)) || negb (is_none (rp_RequiredConfirmations payload)))
     || negb (String.eqb lifecycle "unconfirmed")
       && (negb (is_none (rp_RollbackHeight payload)) || negb (is_none (rp_PreviousConfirmedHeight payload)))
     || negb (String.eqb lifecycle "orphaned") && negb (is_none (rp_OrphanedAtHeight payload)))
    (invalidWalletEffect "payload mixes lifecycle-specific fields").

(** The payload's status; [sanitizeWalletEffect] has checked that it is there. *)
Definition status_of (payload : rawWalletEffectPayload) : rawWalletEffectStatus :=
  default no_status (rp_Status payload).
Definition state_of (payload : rawWalletEffectPayload) : string :=
  default ""%string (rs_State (status_of payload)).

(** [event.Height-*payload.Height+1]. *)
Definition confirmations_at (eventHeight height : Z) : Z := add64 (sub64 eventHeight height) 1.

Definition validateLifecycle (event : ScannerEvent) (payload : rawWalletEffectPayload)
    (requiredConfirmations : Z) (prefix : string) : result unit :=
  let state := state_of payload in
  let confirmations := valueOrZero (rs_Confirmations (status_of payload)) in
  let h := se_Height event in
  if String.eqb (se_Kind event) (prefix +:+ "Event") then
    _ ← guard_not
          (negb (String.eqb state "confirmed")
           || negb (set_and (rp_Height payload) (fun b => (h =? b) && (confirmations =? 1))))
          (invalidWalletEffect "detected lifecycle fields are inconsistent");
    requireOnlyLifecycleFields payload "event"
  else if String.eqb (se_Kind event) (prefix +:+ "Confirmed") then
    _ ← guard_not
          (negb (String.eqb state "confirmed")
           || negb (set_and (rp_Height payload) (fun b => (b <=? h) && (confirmations =? confirmations_at h b)))
           || negb (set_and (rp_ConfirmedHeight payload) (fun c => c =? h))
           || negb (set_and (rp_RequiredConfirmations payload) (fun r => r =? requiredConfirmations))
           || (confirmations <? requiredConfirmations))
          (invalidWalletEffect "confirmed lifecycle fields are inconsistent");
    requireOnlyLifecycleFields payload "confirmed"
  else if String.eqb (se_Kind event) (prefix +:+ "Unconfirmed") then
    let expected := match rp_Height payload with
                    | Some b => if b <=? h then confirmations_at h b else 0
                    | None => 0
                    end in
    _ ← guard_not
          (negb (String.eqb state "confirmed")
           || negb (set_and (rp_RollbackHeight payload) (fun r => r =? h))
           || negb (set_and (rp_Height payload) (fun b =>
                      (b <=? h)
                      && set_and (rp_PreviousConfirmedHeight payload) (fun p =>
                           (h <? p) && reachedRequiredConfirmations b p requiredConfirmations)))
           || set_and (rp_RequiredConfirmations payload) (fun r => negb (r =? requiredConfirmations))
           || negb (confirmations =? expected) || (requiredConfirmations <=? expected))
          (invalidWalletEffect "unconfirmed lifecycle fields are inconsistent");
    requireOnlyLifecycleFields payload "unconfirmed"
  else if String.eqb (se_Kind event) (prefix +:+ "Orphaned") then
    _ ← guard_not
          (negb (String.eqb state "orphaned")
           || negb (set_and (rp_Height payload) (fun b => h <? b))
           || negb (set_and (rp_OrphanedAtHeight payload) (fun o => o =? h))
           || nonzero (rs_Confirmations (status_of payload)))
          (invalidWalletEffect "orphaned lifecycle fields are inconsistent");
    requireOnlyLifecycleFields payload "orphaned"
  else Err (invalidWalletEffect "lifecycle kind is invalid").

(** [payload.Status.Height == nil || *payload.Status.Height != *payload.Height]. *)
Definition status_height_differs (payload : rawWalletEffectPayload) : bool :=
  negb (set_and (rp_Height payload) (fun b => set_and (rs_Height (status_of payload)) (fun s => s =? b))).

Definition on_network (addressHRP address : string) : bool :=
  HasPrefix (TrimSpace address) (addressHRP +:+ "1").

Definition validateDepositEffect (event : ScannerEvent) (payload : rawWalletEffectPayload)
    (addressHRP : string) (requiredConfirmations : Z) : result unit :=
  _ ← guard_not
        (negb (set_and (rp_Origin payload) (String.eqb "external"))
         || is_none (rp_Height payload) || is_none (rp_ActionIndex payload)
         || is_none (rp_AmountZatoshis payload)
         || negb (set_and (rp_RecipientAddress payload) (on_network addressHRP)))
        (invalidWalletEffect "deposit identity or value fields are incomplete");
  _ ← guard_not (status_height_differs payload)
        (invalidWalletEffect "deposit status height does not match its block");
  validateLifecycle event payload requiredConfirmations "Deposit".

Definition validateSpendEffect (event : ScannerEvent) (payload : rawWalletEffectPayload)
    (addressHRP : string) (requiredConfirmations : Z) : result unit :=
  _ ← guard_not
        (is_none (rp_Height payload) || negb (set_and (rp_NoteTxID payload) txIDPattern)
         || is_none (rp_NoteActionIndex payload)
         || negb (set_and (rp_NoteHeight payload) (fun n =>
                    (0 <=? n) && set_and (rp_Height payload) (fun b => n <=? b)))
         || is_none (rp_AmountZatoshis payload))
        (invalidWalletEffect "spend source-note fields are incomplete or invalid");
  _ ← guard_not
        (set_and (rp_RecipientAddress payload) (fun a =>
           negb (String.eqb (TrimSpace a) "") && negb (on_network addressHRP a)))
        (invalidWalletEffect "spend source address is on another network");
  _ ← guard_not (status_height_differs payload)
        (invalidWalletEffect "spend status height does not match its block");
  validateLifecycle event payload requiredConfirmations "Spend".

Definition scope_ok (s : string) : bool := String.eqb s "external" || String.eqb s "internal".

(** The memo is lower-case hexadecimal of at most 512 bytes. *)
Definition memo_invalid (memo : string) : bool :=
  let memo := TrimSpace memo in
  (1024 <? len memo) || negb (Z.even (len memo)) || negb (String.eqb memo (ToLower memo)) || negb (hex_ok memo).

Definition validateOutgoingEffect (event : ScannerEvent) (payload : rawWalletEffectPayload)
    (addressHRP : string) (requiredConfirmations : Z) : result unit :=
  _ ← guard_not
        (is_none (rp_ActionIndex payload) || is_none (rp_AmountZatoshis payload)
         || negb (set_and (rp_RecipientAddress payload) (on_network addressHRP))
         || negb (set_and (rp_OVKScope payload) scope_ok))
        (invalidWalletEffect "outgoing output fields are incomplete or invalid");
  _ ← guard_not
        (set_and (rp_RecipientScope payload) (fun s => negb (String.eqb s "") && negb (scope_ok s)))
        (invalidWalletEffect "outgoing recipient scope is invalid");
  _ ← guard_not (set_and (rp_MemoHex payload) memo_invalid)
        (invalidWalletEffect "outgoing memo is invalid");
  let state := state_of payload in
  let status := status_of payload in
  if String.eqb (se_Kind event) "OutgoingOutputEvent" then
    if String.eqb state "mempool" then
      _ ← guard_not
            (negb (se_Height event =? 0) || negb (is_none (rp_Height payload))
             || nonzero (rs_Confirmations status) || negb (is_none (rs_Height status)))
            (invalidWalletEffect "mempool output has mined fields");
      requireOnlyLifecycleFields payload "event"
    else if String.eqb state "confirmed" then
      _ ← guard_not
            (negb (set_and (rp_Height payload) (fun b => se_Height event =? b))
             || status_height_differs payload || negb (valueOrZero (rs_Confirmations status) =? 1))
            (invalidWalletEffect "mined output fields are inconsistent");
      requireOnlyLifecycleFields payload "event"
    else Err (invalidWalletEffect "outgoing output state is invalid")
  else if String.eqb (se_Kind event) "OutgoingOutputExpired" then
    _ ← guard_not
          (negb (String.eqb state "expired") || negb (is_none (rp_Height payload))
           || negb (set_and (rp_ExpiryHeight payload) (fun e => e <? se_Height event))
           || negb (is_none (rs_Height status)) || nonzero (rs_Confirmations status))
          (invalidWalletEffect "expired output fields are inconsistent");
    requireOnlyLifecycleFields payload "expired"
  else
    _ ← guard_not (status_height_differs payload)
          (invalidWalletEffect "outgoing lifecycle block height is missing");
    validateLifecycle event payload requiredConfirmations "OutgoingOutput".

Definition deposit_kinds : list string :=
  ["DepositEvent"; "DepositConfirmed"; "DepositUnconfirmed"; "DepositOrphaned"].
Definition spend_kinds : list string :=
  ["SpendEvent"; "SpendConfirmed"; "SpendUnconfirmed"; "SpendOrphaned"].
Definition outgoing_kinds : list string :=
  ["OutgoingOutputEvent"; "OutgoingOutputConfirmed"; "OutgoingOutputUnconfirmed";
   "OutgoingOutputOrphaned"; "OutgoingOutputExpired"].

(** The strict decode of the payload: one value with known fields only. *)
Definition decode_payload (raw : string) : result rawWalletEffectPayload :=
  match next_value (to_bytes raw) with
  | None => Err (invalidWalletEffect "payload is not valid v1 JSON")
  | Some (j, rest) =>
      match payload_of_json j with
      | None => Err (invalidWalletEffect "payload is not valid v1 JSON")
      | Some payload =>
          if forallb isSpace rest then Ok payload
          else Err (invalidWalletEffect "payload contains more than one JSON value")
      end
  end.

Definition negative (o : option Z) : bool := set_and o (fun z => z <? 0).

(** The checks that do not depend on the kind of event. *)
Definition check_identity (event : ScannerEvent) (payload : rawWalletEffectPayload)
    (walletID expectedTxID : string) : result unit :=
  _ ← guard_not
        ((se_ID event <=? 0) || (se_Height event <? 0)
         || negb (set_and (rp_Version payload) (fun v => String.eqb v "v1"))
         || negb (set_and (rp_WalletID payload) (fun w => String.eqb w walletID))
         || negb (set_and (rp_TxID payload) (fun t =>
                    txIDPattern t && (String.eqb expectedTxID "" || String.eqb t expectedTxID)))
         || negb (set_and (rp_Status payload) (fun s => negb (is_none (rs_State s)))))
        (invalidWalletEffect "identity, version, or status is invalid");
  _ ← guard_not (negative (rp_Height payload) || negative (rp_ExpiryHeight payload))
        (invalidWalletEffect "height is negative");
  _ ← guard_not (set_and (rp_AmountZatoshis payload) (fun a => int64_max <? a))
        (invalidWalletEffect "amount exceeds signed 64-bit range");
  guard_not (negative (rs_Height (status_of payload)) || negative (rs_Confirmations (status_of payload)))
    (invalidWalletEffect "status height or confirmations is negative").

Definition trimmed (o : option string) : string := match o with Some s => TrimSpace s | None => "" end.

(** The effect without the fields that depend on the kind of event. *)
Definition common_effect (event : ScannerEvent) (payload : rawWalletEffectPayload) (walletID : string)
    (action diversifier : option Z) (address memo ovk recipient : string)
    (source : option walletEffectSourceNote) : walletEffect :=
  {| we_EventID := se_ID event; we_Kind := se_Kind event; we_ObservedHeight := se_Height event;
     we_ObservedAt := se_CreatedAt event; we_WalletID := walletID;
     we_TxID := default ""%string (rp_TxID payload); we_State := state_of payload;
     we_BlockHeight := rp_Height payload; we_Confirmations := rs_Confirmations (status_of payload);
     we_RequiredConfirmations := rp_RequiredConfirmations payload;
     we_ConfirmedHeight := rp_ConfirmedHeight payload; we_RollbackHeight := rp_RollbackHeight payload;
     we_PreviousConfirmedHeight := rp_PreviousConfirmedHeight payload;
     we_OrphanedAtHeight := rp_OrphanedAtHeight payload; we_ExpiryHeight := rp_ExpiryHeight payload;
     we_ActionIndex := action; we_AmountZat := rp_AmountZatoshis payload; we_Address := address;
     we_DiversifierIndex := diversifier; we_MemoHex := memo; we_OVKScope := ovk;
     we_RecipientScope := recipient; we_SourceNote := source |}.

Definition sanitizeWalletEffect (event : ScannerEvent) (walletID expectedTxID addressHRP : string)
    (requiredConfirmations : Z) : result walletEffect :=
  payload ← decode_payload (se_Payload event);
  _ ← check_identity event payload walletID expectedTxID;
  let out := common_effect event payload walletID in
  if bool_decide (se_Kind event ∈ deposit_kinds) then
    _ ← validateDepositEffect event payload addressHRP requiredConfirmations;
    Ok (out (rp_ActionIndex payload) (rp_DiversifierIndex payload)
          (trimmed (rp_RecipientAddress payload)) "" "" "" None)
  else if bool_decide (se_Kind event ∈ spend_kinds) then
    _ ← validateSpendEffect event payload addressHRP requiredConfirmations;
    Ok (out None None "" "" "" ""
          (Some {| sn_TxID := default ""%string (rp_NoteTxID payload);
                   sn_ActionIndex := default 0 (rp_NoteActionIndex payload);
                   sn_BlockHeight := default 0 (rp_NoteHeight payload) |}))
  else if bool_decide (se_Kind event ∈ outgoing_kinds) then
    _ ← validateOutgoingEffect event payload addressHRP requiredConfirmations;
    Ok (out (rp_ActionIndex payload) None (trimmed (rp_RecipientAddress payload))
          (trimmed (rp_MemoHex payload)) (trimmed (rp_OVKScope payload))
          (trimmed (rp_RecipientScope payload)) None)
  else Err (invalidWalletEffect "kind is not supported").

(** * What an accepted effect says *)

(** The life of a mined output: seen in its block, confirmed, rolled back under
    its confirmations, or gone from the chain; each with its own fields only. *)
Inductive lifecycle (required : Z) (prefix : string) (e : walletEffect) : Prop :=
  | Detected h : we_Kind e = prefix +:+ "Event" -> we_State e = "confirmed" ->
      we_BlockHeight e = Some h -> we_ObservedHeight e = h -> valueOrZero (we_Confirmations e) = 1 ->
      we_ConfirmedHeight e = None -> we_RequiredConfirmations e = None -> we_RollbackHeight e = None ->
      we_PreviousConfirmedHeight e = None -> we_OrphanedAtHeight e = None ->
      lifecycle required prefix e
  | Confirmed h : we_Kind e = prefix +:+ "Confirmed" -> we_State e = "confirmed" ->
      we_BlockHeight e = Some h -> h <= we_ObservedHeight e ->
      valueOrZero (we_Confirmations e) = confirmations_at (we_ObservedHeight e) h ->
      required <= valueOrZero (we_Confirmations e) ->
      we_ConfirmedHeight e = Some (we_ObservedHeight e) -> we_RequiredConfirmations e = Some required ->
      we_RollbackHeight e = None -> we_PreviousConfirmedHeight e = None -> we_OrphanedAtHeight e = None ->
      lifecycle required prefix e
  | Unconfirmed h p : we_Kind e = prefix +:+ "Unconfirmed" -> we_State e = "confirmed" ->
      we_BlockHeight e = Some h -> h <= we_ObservedHeight e < p -> 1 <= required <= p - h + 1 ->
      valueOrZero (we_Confirmations e) = confirmations_at (we_ObservedHeight e) h ->
      valueOrZero (we_Confirmations e) < required ->
      we_ConfirmedHeight e = None -> we_RequiredConfirmations e = None ->
      we_RollbackHeight e = Some (we_ObservedHeight e) -> we_PreviousConfirmedHeight e = Some p ->
      we_OrphanedAtHeight e = None ->
      lifecycle required prefix e
  | Orphaned h : we_Kind e = prefix +:+ "Orphaned" -> we_State e = "orphaned" ->
      we_BlockHeight e = Some h -> we_ObservedHeight e < h -> valueOrZero (we_Confirmations e) = 0 ->
      we_ConfirmedHeight e = None -> we_RequiredConfirmations e = None -> we_RollbackHeight e = None ->
      we_PreviousConfirmedHeight e = None -> we_OrphanedAtHeight e = Some (we_ObservedHeight e) ->
      lifecycle required prefix e.

(** The fields of an effect that [validateLifecycle] looks at are the payload's. *)
Record describes (event : ScannerEvent) (payload : rawWalletEffectPayload) (e : walletEffect) : Prop := {
  d_kind : we_Kind e = se_Kind event;
  d_state : we_State e = state_of payload;
  d_observed : we_ObservedHeight e = se_Height event;
  d_block : we_BlockHeight e = rp_Height payload;
  d_confirmations : we_Confirmations e = rs_Confirmations (status_of payload);
  d_required : we_RequiredConfirmations e = rp_RequiredConfirmations payload;
  d_confirmed : we_ConfirmedHeight e = rp_ConfirmedHeight payload;
  d_rollback : we_RollbackHeight e = rp_RollbackHeight payload;
  d_previous : we_PreviousConfirmedHeight e = rp_PreviousConfirmedHeight payload;
  d_orphaned : we_OrphanedAtHeight e = rp_OrphanedAtHeight payload
}.

(** The ranges decoding and the identity check leave. *)
Definition ranged (event : ScannerEvent) (payload : rawWalletEffectPayload) (required : Z) : Prop :=
  int64 (se_Height event) /\ int64 required
  /\ (forall h, rp_Height payload = Some h -> 0 <= h /\ int64 h)
  /\ (forall p, rp_PreviousConfirmedHeight payload = Some p -> int64 p).

Lemma set_and_true {A} (o : option A) f : set_and o f = true <-> exists a, o = Some a /\ f a = true.
Proof. destruct o; cbn; naive_solver. Qed.

Lemma set_and_eqb (o : option Z) z : set_and o (fun x => x =? z) = true <-> o = Some z.
Proof. destruct o as [x|]; cbn; [rewrite Z.eqb_eq|]; naive_solver. Qed.

Lemma nonzero_false o : nonzero o = false <-> valueOrZero o = 0.
Proof. destruct o as [z|]; cbn; [rewrite negb_false_iff; lia|done]. Qed.

Lemma is_none_iff {A} (o : option A) : is_none o = true <-> o = None.
Proof. by destruct o. Qed.

Ltac only_fields := unfold requireOnlyLifecycleFields; rewrite guard_not_ok; cbn;
  rewrite ?orb_false_iff, ?negb_false_iff, ?is_none_iff.

Lemma only_event p u : requireOnlyLifecycleFields p "event" = Ok u <->
  rp_ConfirmedHeight p = None /\ rp_RequiredConfirmations p = None /\ rp_RollbackHeight p = None
  /\ rp_PreviousConfirmedHeight p = None /\ rp_OrphanedAtHeight p = None.
Proof. only_fields. tauto. Qed.
Lemma only_confirmed p u : requireOnlyLifecycleFields p "confirmed" = Ok u <->
  rp_RollbackHeight p = None /\ rp_PreviousConfirmedHeight p = None /\ rp_OrphanedAtHeight p = None.
Proof. only_fields. tauto. Qed.
Lemma only_unconfirmed p u : requireOnlyLifecycleFields p "unconfirmed" = Ok u <->
  rp_ConfirmedHeight p = None /\ rp_RequiredConfirmations p = None /\ rp_OrphanedAtHeight p = None.
Proof. only_fields. tauto. Qed.
Lemma only_orphaned p u : requireOnlyLifecycleFields p "orphaned" = Ok u <->
  rp_ConfirmedHeight p = None /\ rp_RequiredConfirmations p = None /\ rp_RollbackHeight p = None
  /\ rp_PreviousConfirmedHeight p = None.
Proof. only_fields. tauto. Qed.

Lemma reached_spec b c r : int64 b -> int64 c -> int64 r -> 0 <= b ->
  reachedRequiredConfirmations b c r = true <-> b <= c /\ 1 <= r <= c - b + 1.
Proof.
  intros Hb Hc Hr H0. unfold reachedRequiredConfirmations.
  destruct (Z.ltb_spec b 0); [lia|]. destruct (Z.ltb_spec c b); cbn [orb]; [split; [done|lia]|].
  destruct (Z.ltb_spec r 1); [split; [done|lia]|]. rewrite Z.leb_le, !sub64_id by (width; lia). lia.
Qed.

Lemma kind_eqb kind prefix a : String.eqb kind (prefix +:+ a) = true <-> kind = prefix +:+ a.
Proof. apply String.eqb_eq. Qed.

Lemma kind_suffix prefix a b : prefix +:+ a = prefix +:+ b -> a = b.
Proof. apply (inj (String.append prefix)). Qed.

Lemma bind_guard {A} c err (k : result A) a :
  (guard_not c err ≫= fun _ => k) = Ok a <-> c = false /\ k = Ok a.
Proof. destruct c; cbn; naive_solver. Qed.

Section lifecycle_spec.
Context (event : ScannerEvent) (payload : rawWalletEffectPayload) (required : Z) (prefix : string)
  (e : walletEffect).
Hypotheses (D : describes event payload e) (R : ranged event payload required).

Lemma same_stage a b : we_Kind e = prefix +:+ a -> se_Kind event = prefix +:+ b -> a = b.
Proof using D. intros H1 H2. apply (kind_suffix prefix). by rewrite <- H1, <- H2, <- (d_kind _ _ _ D). Qed.

(** At one stage of the life cycle the others are excluded. *)
Ltac at_stage K :=
  intros [h|h|h p|h]; match goal with H : we_Kind e = prefix +:+ ?a |- _ =>
    first [pose proof (same_stage a _ H K); discriminate | idtac] end.

Lemma observed_conf : valueOrZero (rs_Confirmations (status_of payload)) = valueOrZero (we_Confirmations e).
Proof using D. by rewrite (d_confirmations _ _ _ D). Qed.

Lemma detected_spec u : se_Kind event = prefix +:+ "Event" ->
  validateLifecycle event payload required prefix = Ok u <-> lifecycle required prefix e.
Proof using D.
  intros K. unfold validateLifecycle. rewrite observed_conf, K, String.eqb_refl.
  rewrite bind_guard, only_event, !orb_false_iff, !negb_false_iff, String.eqb_eq, set_and_true.
  split.
  - intros [[Hs (b & Hbl & Hx)] (? & ? & ? & ? & ?)]. bool_to_prop.
    apply (Detected _ _ _ b); destruct D; congruence.
  - at_stage K. destruct D. split; [split; [congruence|]|repeat split; congruence].
    exists h. split; [congruence|]. apply andb_true_intro. split; apply Z.eqb_eq; congruence.
Qed.

Lemma stage_neq a b : a <> b -> se_Kind event = prefix +:+ a ->
  String.eqb (se_Kind event) (prefix +:+ b) = false.
Proof using. intros Hne K. apply String.eqb_neq. rewrite K. intros H. by apply kind_suffix in H. Qed.

Lemma confirmed_spec u : se_Kind event = prefix +:+ "Confirmed" ->
  validateLifecycle event payload required prefix = Ok u <-> lifecycle required prefix e.
Proof using D.
  intros K. unfold validateLifecycle. rewrite observed_conf, (stage_neq "Confirmed" "Event") by done.
  rewrite K, String.eqb_refl.
  rewrite bind_guard, only_confirmed, !orb_false_iff, !negb_false_iff, String.eqb_eq, set_and_true, !set_and_eqb.
  split.
  - intros [[[[[Hs (b & Hbl & Hx)] Hc] Hrq] Hge] (? & ? & ?)]. bool_to_prop.
    apply (Confirmed _ _ _ b); destruct D; congruence || lia.
  - at_stage K. destruct D. repeat split; try congruence; [|apply Z.ltb_ge; lia].
    exists h. split; [congruence|]. rewrite d_observed0 in *. apply andb_true_intro.
    split; [by apply Z.leb_le|by apply Z.eqb_eq].
Qed.

Lemma unconfirmed_spec u : se_Kind event = prefix +:+ "Unconfirmed" ->
  validateLifecycle event payload required prefix = Ok u <-> lifecycle required prefix e.
Proof using D R.
  intros K. destruct R as (Hh & Hr & Hb & Hp). unfold validateLifecycle.
  rewrite observed_conf, (stage_neq "Unconfirmed" "Event"), (stage_neq "Unconfirmed" "Confirmed") by done.
  rewrite K, String.eqb_refl.
  rewrite bind_guard, only_unconfirmed, !orb_false_iff, !negb_false_iff, String.eqb_eq, set_and_eqb, set_and_true.
  split.
  - intros [[[[[[Hs Hrb] (b & Hbl & Hx)] _] Hc] Hlt] (? & ? & ?)]. bool_to_prop.
    apply set_and_true in H3 as (p & Hpp & Hx). bool_to_prop. rewrite Hbl in Hc, Hlt.
    destruct (Z.leb_spec b (se_Height event)); [|lia].
    apply reached_spec in H4; [|by apply Hb|by apply Hp|done|by apply Hb].
    apply (Unconfirmed _ _ _ b p); destruct D; try congruence; rewrite ?d_observed0; lia.
  - at_stage K. destruct D. rewrite d_block0 in *. rewrite d_previous0 in *.
    rewrite d_observed0 in *. match goal with H : rp_Height payload = Some h |- _ => rewrite H end.
    destruct (Hb h) as [? ?]; [done|]. pose proof (Hp p ltac:(done)).
    destruct (Z.leb_spec h (se_Height event)); [|lia].
    repeat split; try congruence; [|by rewrite <- d_required0, H7|by apply Z.eqb_eq|apply Z.leb_gt; lia].
    + exists h. split; [done|]. apply andb_true_intro. split; [by apply Z.leb_le|].
      apply set_and_true. exists p. split; [done|]. apply andb_true_intro. split; [apply Z.ltb_lt; lia|].
      apply reached_spec; done || lia.
Qed.

Lemma orphaned_spec u : se_Kind event = prefix +:+ "Orphaned" ->
  validateLifecycle event payload required prefix = Ok u <-> lifecycle required prefix e.
Proof using D.
  intros K. unfold validateLifecycle.
  rewrite (stage_neq "Orphaned" "Event"), (stage_neq "Orphaned" "Confirmed"),
    (stage_neq "Orphaned" "Unconfirmed") by done.
  rewrite K, String.eqb_refl.
  rewrite bind_guard, only_orphaned, !orb_false_iff, !negb_false_iff, String.eqb_eq, set_and_true, set_and_eqb,
    nonzero_false, observed_conf.
  split.
  - intros [[[[Hs (b & Hbl & Hx)] Hc] Hz] (? & ? & ? & ?)]. bool_to_prop.
    apply (Orphaned _ _ _ b); destruct D; congruence || lia.
  - at_stage K. destruct D. repeat split; try congruence.
    exists h. split; [congruence|]. apply Z.ltb_lt. congruence.
Qed.

(** [validateLifecycle] accepts exactly the four stages of a mined output. *)
Lemma validateLifecycle_spec u :
  validateLifecycle event payload required prefix = Ok u <-> lifecycle required prefix e.
Proof using D R.
  destruct (String.eqb_spec (se_Kind event) (prefix +:+ "Event")); [by apply detected_spec|].
  destruct (String.eqb_spec (se_Kind event) (prefix +:+ "Confirmed")); [by apply confirmed_spec|].
  destruct (String.eqb_spec (se_Kind event) (prefix +:+ "Unconfirmed")); [by apply unconfirmed_spec|].
  destruct (String.eqb_spec (se_Kind event) (prefix +:+ "Orphaned")); [by apply orphaned_spec|].
  unfold validateLifecycle.
  repeat match goal with H : se_Kind event <> _ |- _ => rewrite (proj2 (String.eqb_neq _ _) H) end.
  split; [done|]. pose proof (d_kind _ _ _ D). intros [h|h|h p|h]; congruence.
Qed.
End lifecycle_spec.

(** What an accepted effect is evidence of. *)
Inductive effect_evidence (addressHRP : string) (required : Z) (e : walletEffect) : Prop :=
  | A_deposit action amount : lifecycle required "Deposit" e ->
      HasPrefix (we_Address e) (addressHRP +:+ "1") = true ->
      we_ActionIndex e = Some action -> we_AmountZat e = Some amount -> we_SourceNote e = None ->
      effect_evidence addressHRP required e
  | A_spend note h : lifecycle required "Spend" e -> we_SourceNote e = Some note ->
      lower_hex64 (sn_TxID note) = true -> we_BlockHeight e = Some h ->
      0 <= sn_BlockHeight note <= h ->
      effect_evidence addressHRP required e
  | A_mined_output action amount : lifecycle required "OutgoingOutput" e ->
      HasPrefix (we_Address e) (addressHRP +:+ "1") = true ->
      we_ActionIndex e = Some action -> we_AmountZat e = Some amount ->
      effect_evidence addressHRP required e
  | A_mempool_output action amount : we_Kind e = "OutgoingOutputEvent" -> we_State e = "mempool" ->
      HasPrefix (we_Address e) (addressHRP +:+ "1") = true ->
      we_ActionIndex e = Some action -> we_AmountZat e = Some amount ->
      we_ObservedHeight e = 0 -> we_BlockHeight e = None -> valueOrZero (we_Confirmations e) = 0 ->
      effect_evidence addressHRP required e
  | A_expired_output action amount x : we_Kind e = "OutgoingOutputExpired" -> we_State e = "expired" ->
      HasPrefix (we_Address e) (addressHRP +:+ "1") = true ->
      we_ActionIndex e = Some action -> we_AmountZat e = Some amount ->
      we_BlockHeight e = None -> we_ExpiryHeight e = Some x -> x < we_ObservedHeight e ->
      valueOrZero (we_Confirmations e) = 0 ->
      effect_evidence addressHRP required e.

(** ** Decoded integers are in the range of their type *)

Lemma ptr_int64_range name ms v : ptr_int64 name ms = Some (Some v) -> int64 v.
Proof.
  intros H. refine (decode_field_inv (fun o => forall v, o = Some v -> int64 v) _ _ _ _ _ _ _ H v eq_refl); [done|].
  intros j a b Hb _ w ->. unfold into_ptr, into_int64, into_int in Hb.
  destruct j; cbn in Hb; try done. destruct (ParseInt literal) eqn:Hp; [|done].
  injection Hb as ->. by eapply ParseInt_range.
Qed.

Lemma ptr_uint64_range name ms v : ptr_uint64 name ms = Some (Some v) -> 0 <= v.
Proof.
  intros H. refine (decode_field_inv (fun o => forall v, o = Some v -> 0 <= v) _ _ _ _ _ _ _ H v eq_refl); [done|].
  intros j a b Hb _ w ->. unfold into_ptr, into_uint64, into_int in Hb.
  destruct j; cbn in Hb; try done. destruct (ParseUint literal 64) eqn:Hp; [|done].
  injection Hb as ->. apply ParseUint_range in Hp. lia.
Qed.

Lemma payload_of_json_range j payload : payload_of_json j = Some payload ->
  (forall h, rp_Height payload = Some h -> int64 h)
  /\ (forall p, rp_PreviousConfirmedHeight payload = Some p -> int64 p)
  /\ (forall a, rp_AmountZatoshis payload = Some a -> 0 <= a).
Proof.
  unfold payload_of_json. intros H.
  repeat (first [case_match; [done|] | apply bind_Some in H as (? & ? & H)]).
  injection H as <-. cbn. split; [|split]; intros v ->; by (eapply ptr_int64_range || eapply ptr_uint64_range).
Qed.

(** ** The theorem *)

Lemma guards_false (c : bool) e u : guard_not c e = Ok u -> c = false.
Proof. by rewrite guard_not_ok. Qed.

Lemma check_identity_ok event payload w t u : check_identity event payload w t = Ok u ->
  exists txid status, 0 < se_ID event /\ 0 <= se_Height event
  /\ rp_TxID payload = Some txid /\ lower_hex64 txid = true /\ (t = "" \/ txid = t)
  /\ rp_Status payload = Some status
  /\ (forall h, rp_Height payload = Some h -> 0 <= h)
  /\ (forall a, rp_AmountZatoshis payload = Some a -> a <= int64_max).
Proof.
  unfold check_identity. rewrite !bind_guard, guard_not_ok, !orb_false_iff, !negb_false_iff, !set_and_true.
  intros ((((((Hid & Hh) & _) & _) & (txid & Htx & Hx)) & (status & Hst & _)) & (Hn & _) & Ha & _).
  bool_to_prop. exists txid, status. repeat split; try done.
  - destruct (orb_prop _ _ H0) as [He|He]; apply String.eqb_eq in He; auto.
  - intros h Hb. unfold negative in Hn. rewrite Hb in Hn. cbn in Hn. by apply Z.ltb_ge.
  - intros a Hb. rewrite Hb in Ha. cbn in Ha. by apply Z.ltb_ge.
Qed.

Lemma common_describes event payload w action diversifier address memo ovk recipient source :
  describes event payload (common_effect event payload w action diversifier address memo ovk recipient source).
Proof. by constructor. Qed.

Section kinds.
Context (event : ScannerEvent) (payload : rawWalletEffectPayload) (addressHRP : string) (required : Z)
  (e : walletEffect).
Hypotheses (D : describes event payload e) (R : ranged event payload required)
  (Hamount : we_AmountZat e = rp_AmountZatoshis payload).

Lemma some_of {A} (o : option A) : is_none o = false -> exists a, o = Some a.
Proof using. destruct o; eauto. done. Qed.

Lemma on_network_trimmed : set_and (rp_RecipientAddress payload) (on_network addressHRP) = true ->
  HasPrefix (trimmed (rp_RecipientAddress payload)) (addressHRP +:+ "1") = true.
Proof using. rewrite set_and_true. by intros (a & -> & H). Qed.

Lemma deposit_evidence u : validateDepositEffect event payload addressHRP required = Ok u ->
  we_ActionIndex e = rp_ActionIndex payload -> we_Address e = trimmed (rp_RecipientAddress payload) ->
  we_SourceNote e = None -> effect_evidence addressHRP required e.
Proof using D R Hamount.
  unfold validateDepositEffect. rewrite !bind_guard, !orb_false_iff, !negb_false_iff.
  intros (((((_ & _) & Ha) & Hz) & Hr) & _ & Hl) Hact Haddr Hsrc.
  apply some_of in Ha as [a Ha], Hz as [z Hz].
  apply (validateLifecycle_spec _ _ _ _ e D R) in Hl.
  apply (A_deposit _ _ _ a z); try congruence. rewrite Haddr. by apply on_network_trimmed.
Qed.

Lemma spend_evidence u : validateSpendEffect event payload addressHRP required = Ok u ->
  we_SourceNote e = Some {| sn_TxID := default ""%string (rp_NoteTxID payload);
                   sn_ActionIndex := default 0 (rp_NoteActionIndex payload);
                   sn_BlockHeight := default 0 (rp_NoteHeight payload) |} ->
  effect_evidence addressHRP required e.
Proof using D R.
  unfold validateSpendEffect. rewrite !bind_guard, !orb_false_iff, !negb_false_iff.
  intros (((((_ & Ht) & _) & Hn) & _) & _ & _ & Hl) Hsrc.
  apply (validateLifecycle_spec _ _ _ _ e D R) in Hl.
  apply set_and_true in Ht as (t & Ht & Hhex), Hn as (n & Hn & Hx).
  apply andb_prop in Hx as [H0 Hx]. apply set_and_true in Hx as (b & Hb & Hle). bool_to_prop.
  eapply (A_spend _ _ _ _ b); [done|exact Hsrc|..]; rewrite ?Ht, ?Hn; try done.
  by rewrite (d_block _ _ _ D).
Qed.

Lemma outgoing_evidence u : validateOutgoingEffect event payload addressHRP required = Ok u ->
  we_ActionIndex e = rp_ActionIndex payload -> we_Address e = trimmed (rp_RecipientAddress payload) ->
  we_ExpiryHeight e = rp_ExpiryHeight payload -> effect_evidence addressHRP required e.
Proof using D R Hamount.
  unfold validateOutgoingEffect. rewrite !bind_guard, !orb_false_iff, !negb_false_iff.
  intros ((((Ha & Hz) & Hr) & _) & _ & _ & Hl) Hact Haddr Hexp.
  apply some_of in Ha as [a Ha], Hz as [z Hz]. apply on_network_trimmed in Hr. rewrite <- Haddr in Hr.
  destruct (String.eqb_spec (se_Kind event) "OutgoingOutputEvent") as [K|_].
  { destruct (String.eqb_spec (state_of payload) "mempool") as [Hs|_].
    - apply bind_guard in Hl as [Hg _]. rewrite !orb_false_iff, !negb_false_iff, !is_none_iff, nonzero_false in Hg.
      destruct Hg as [[[Hh Hb] Hc] _]. bool_to_prop.
      apply (A_mempool_output _ _ _ a z); destruct D; congruence.
    - destruct (String.eqb_spec (state_of payload) "confirmed") as [Hs|_]; [|done].
      apply bind_guard in Hl as [Hg Ho]. apply only_event in Ho as (? & ? & ? & ? & ?).
      rewrite !orb_false_iff, !negb_false_iff, set_and_true in Hg.
      destruct Hg as [[(b & Hb & Hbe) _] Hc]. cbn beta in Hbe. bool_to_prop.
      apply (A_mined_output _ _ _ a z); try congruence.
      apply (Detected _ _ _ b); [rewrite (d_kind _ _ _ D), K; done|destruct D; congruence..]. }
  destruct (String.eqb_spec (se_Kind event) "OutgoingOutputExpired") as [K|_].
  { apply bind_guard in Hl as [Hg _].
    rewrite !orb_false_iff, !negb_false_iff, !is_none_iff, nonzero_false, set_and_true in Hg.
    destruct Hg as [[[[Hs Hb] (x & Hx & Hlt)] _] Hc]. cbn beta in Hlt. bool_to_prop.
    apply (A_expired_output _ _ _ a z x); destruct D; congruence. }
  apply bind_guard in Hl as [_ Hl]. apply (validateLifecycle_spec _ _ _ _ e D R) in Hl.
  apply (A_mined_output _ _ _ a z); congruence.
Qed.
End kinds.

Lemma decode_payload_range raw payload : decode_payload raw = Ok payload ->
  (forall h, rp_Height payload = Some h -> int64 h)
  /\ (forall p, rp_PreviousConfirmedHeight payload = Some p -> int64 p)
  /\ (forall a, rp_AmountZatoshis payload = Some a -> 0 <= a).
Proof.
  unfold decode_payload. destruct (next_value (to_bytes raw)) as [[j rest]|]; [|done].
  destruct (payload_of_json j) eqn:Hj; [|done]. case_match; [|done]. intros [= <-].
  by eapply payload_of_json_range.
Qed.

(** C38: an effect the API passes on carries the event's identity, belongs to the
    wallet (and transaction) asked about, has an amount that fits a signed 64-bit
    integer, and is evidence of one of five things, each with exactly the fields
    of its stage: a deposit to an address of the network, a spend of an older
    note, a mined output, an unmined output, or an output that expired. *)
Theorem sanitizeWalletEffect_sound event walletID expectedTxID addressHRP required e :
  int64 (se_Height event) -> int64 required ->
  sanitizeWalletEffect event walletID expectedTxID addressHRP required = Ok e ->
  effect_evidence addressHRP required e
  /\ we_EventID e = se_ID event /\ 0 < we_EventID e /\ we_Kind e = se_Kind event
  /\ we_ObservedHeight e = se_Height event /\ 0 <= we_ObservedHeight e
  /\ we_WalletID e = walletID /\ lower_hex64 (we_TxID e) = true
  /\ (expectedTxID = "" \/ we_TxID e = expectedTxID)
  /\ (forall a, we_AmountZat e = Some a -> 0 <= a <= int64_max).
Proof.
  intros Hh Hreq. unfold sanitizeWalletEffect. rewrite result_bind_ok. intros (payload & Hp & H).
  apply decode_payload_range in Hp as (Hb64 & Hp64 & Ha0).
  rewrite result_bind_ok in H. destruct H as (u & Hid & H).
  apply check_identity_ok in Hid as (txid & status & Hpos & Hh0 & Htx & Hhex & Ht & Hst & Hb0 & Hmax).
  assert (R : ranged event payload required) by (split; [done|split; [done|split; [intros h Hh'; split; auto|done]]]).
  assert (Hcommon : forall action diversifier address memo ovk recipient source,
    e = common_effect event payload walletID action diversifier address memo ovk recipient source ->
    we_EventID e = se_ID event /\ 0 < we_EventID e /\ we_Kind e = se_Kind event
    /\ we_ObservedHeight e = se_Height event /\ 0 <= we_ObservedHeight e
    /\ we_WalletID e = walletID /\ lower_hex64 (we_TxID e) = true
    /\ (expectedTxID = "" \/ we_TxID e = expectedTxID)
    /\ (forall a, we_AmountZat e = Some a -> 0 <= a <= int64_max)).
  { intros ? ? ? ? ? ? ? ->. cbn. rewrite Htx. cbn. repeat split; auto. }
  revert H. repeat case_bool_decide; [..|done]; rewrite result_bind_ok; intros (v & Hv & [= <-]);
    (split; [|by eapply Hcommon]).
  - by eapply deposit_evidence; [apply common_describes|..].
  - by eapply spend_evidence; [apply common_describes|..].
  - by eapply outgoing_evidence; [apply common_describes|..].
Qed.

Definition demo_txid : string := "00000000000000000000000000000000000000000000000000000000000000aa".

Definition demo_event : ScannerEvent :=
  {| se_ID := 7; se_Kind := "DepositConfirmed"; se_Height := 109; se_CreatedAt := 5;
     se_Payload := dq ("{'version':'v1','wallet_id':'hot','txid':'" +:+ demo_txid +:+ "','height':100,"
       +:+ "'action_index':2,'diversifier_index':3,'amount_zatoshis':500,'origin':'external',"
       +:+ "'recipient_address':'j1abc','confirmed_height':109,'required_confirmations':10,"
       +:+ "'status':{'state':'confirmed','height':100,'confirmations':10}}") |}.

Definition demo_effect : walletEffect :=
  {| we_EventID := 7; we_Kind := "DepositConfirmed"; we_ObservedHeight := 109; we_ObservedAt := 5;
     we_WalletID := "hot"; we_TxID := demo_txid; we_State := "confirmed"; we_BlockHeight := Some 100;
     we_Confirmations := Some 10; we_RequiredConfirmations := Some 10; we_ConfirmedHeight := Some 109;
     we_RollbackHeight := None; we_PreviousConfirmedHeight := None; we_OrphanedAtHeight := None;
     we_ExpiryHeight := None; we_ActionIndex := Some 2; we_AmountZat := Some 500;
     we_Address := "j1abc"; we_DiversifierIndex := Some 3; we_MemoHex := ""; we_OVKScope := "";
     we_RecipientScope := ""; we_SourceNote := None |}.

Lemma demo_effect_ok : sanitizeWalletEffect demo_event "hot" "" "j" 10 = Ok demo_effect.
Proof. vm_compute. reflexivity. Qed.

Lemma sanitizeWalletEffect_sound_witness :
  effect_evidence "j" 10 demo_effect /\ we_AmountZat demo_effect = Some 500.
Proof.
  split; [|reflexivity].
  apply (sanitizeWalletEffect_sound demo_event "hot" "" "j" 10 demo_effect);
    [width; cbn; lia|width; lia|exact demo_effect_ok].
Defined.

(** A payload with an unknown field, or of another wallet, or confirmed too
    early, is refused. *)
Example refused :
  map (fun r => is_ok (sanitizeWalletEffect demo_event r.1 "" "j" r.2)) [("hot", 10); ("cold", 10); ("hot", 11)]
  = [true; false; false]%string.
Proof. vm_compute. reflexivity. Qed.
