(* ===== verification/Front.v ===== *)
(** The HTTP surface of the coordinator, [internal/coordinator/http.go]: requests
    over its Unix socket, their credentials, rate limit, routes and answers.

    The request's context and its timeout are answers of the calls it bounds
    ([Coordinator.v]); the JSON text of a response is not modelled, its data is. *)
From Stdlib Require Import SpecFloat.
From S2P Require Import Prelude Tx GoString GoTime Sha256 Json Domain Config Database Attempts Request Signer Access Http Coordinator Service.

(** * Principals *)

Record coordinatorPrincipal := {
  cp_name : string;
  cp_scopes : gset string;
  cp_wallets : gset string
}.

Definition hasScope (p : coordinatorPrincipal) (scope : string) : bool :=
  bool_decide ("admin"%string ∈ cp_scopes p) || bool_decide (scope ∈ cp_scopes p).
Definition hasWallet (p : coordinatorPrincipal) (wallet : string) : bool :=
  bool_decide ("*"%string ∈ cp_wallets p) || bool_decide (wallet ∈ cp_wallets p).

Definition principal_of (c : Credential) : coordinatorPrincipal :=
  {| cp_name := Name c; cp_scopes := list_to_set (Scopes c); cp_wallets := list_to_set (cr_Wallets c) |}.

Definition authenticate (creds : list Credential) (r : request) : option coordinatorPrincipal :=
  token ← bearer_token (header r "Authorization");
  principal_of <$> credential_for (Sum256 token) creds.

(** * Rate limit *)

Record coordinatorBucket := { cb_tokens : float; cb_last : time }.

Record coordinatorLimiter := {
  cl_rps : float;
  cl_burst : float;
  cl_buckets : gmap string coordinatorBucket
}.

Definition newCoordinatorLimiter (limit : RateLimit) : coordinatorLimiter :=
  {| cl_rps := RPS limit; cl_burst := float_of (Burst limit); cl_buckets := ∅ |}.

Definition allow (l : coordinatorLimiter) (key : string) (now : time) : bool * coordinatorLimiter :=
  let b := default {| cb_tokens := cl_burst l; cb_last := now |} (cl_buckets l !! key) in
  let t := fadd (cb_tokens b) (fmul (Seconds (Sub now (cb_last b))) (cl_rps l)) in
  let t := if SFltb (cl_burst l) t then cl_burst l else t in
  let allowed := negb (SFltb t (float_of 1)) in
  let t := if allowed then fsub t (float_of 1) else t in
  (allowed, {| cl_rps := cl_rps l; cl_burst := cl_burst l;
               cl_buckets := <[key := {| cb_tokens := t; cb_last := now |}]> (cl_buckets l) |}).

(** * Paths *)

Definition segments (path : string) : list string := Split (TrimByte path "/") "/".
Definition some (s : string) : bool := negb (String.eqb s "").

(** The attempt's id, and whether the path is its cancellation. *)
Definition attemptPath (path : string) : option (string * bool) :=
  match segments path with
  | ["v1"; "transaction-attempts"; id] => if some id then Some (id, false) else None
  | ["v1"; "transaction-attempts"; id; "cancel"] => if some id then Some (id, true) else None
  | _ => None
  end%string.

Definition activeAttemptsPath (path : string) : option string :=
  match segments path with
  | ["v1"; "wallets"; w; "transaction-attempts"; "active"] => if some w then Some w else None
  | _ => None
  end%string.

Definition noteInventoryPath (path : string) : option string :=
  match segments path with
  | ["v1"; "wallets"; w; "note-inventory"] => if some w then Some w else None
  | _ => None
  end%string.

Definition jsonContentType (value : string) : bool :=
  match ParseMediaType value with Some mediaType => EqualFold mediaType "application/json" | None => false end.

(** * Responses *)

Inductive front_data : Type :=
  | LiveData
  | ReadyData
  | AttemptData (attempt : AttemptView)
  | ActiveData (wallet_id : string) (attempts : list AttemptView)
  | InventoryData (inventory : NoteInventory).

Inductive front_body : Type :=
  | Data_body (d : front_data)
  | API_error (e : APIError).

Record front_response := {
  fs_status : Z;
  fs_headers : list (string * string);
  fs_body : front_body
}.

Definition writeData (status : Z) (d : front_data) : front_response :=
  {| fs_status := status; fs_headers := []; fs_body := Data_body d |}.
Definition writeError (status : Z) (code message : string) (retryable : bool) : front_response :=
  {| fs_status := status; fs_headers := [];
     fs_body := API_error {| api_Code := code; api_Message := message; api_Retryable := retryable |} |}.
Definition add_header (name value : string) (r : front_response) : front_response :=
  {| fs_status := fs_status r; fs_headers := (name, value) :: fs_headers r; fs_body := fs_body r |}.

Definition method_not_allowed (allowed : string) : front_response :=
  add_header "Allow" allowed (writeError 405 "method_not_allowed" "method not allowed" false).
Definition wrong_wallet : front_response :=
  writeError 403 "forbidden" "credential is not authorized for this wallet" false.

(** The status of an operation error. *)
Definition operation_status (code : string) : Z :=
  if String.eqb code "invalid_request" then 400
  else if String.eqb code "unauthorized" then 401
  else if String.eqb code "forbidden" then 403
  else if String.eqb code "not_found" then 404
  else if existsb (String.eqb code) ["idempotency_conflict"; "attempt_not_cancellable"]%string then 409
  else if existsb (String.eqb code) ["coordinator_recovery_sealed"; "recovery_gate_unavailable";
            "expiry_status_unavailable"; "scanner_unavailable"; "reservation_state_unavailable"]%string then 503
  else if String.eqb code "rate_limited" then 429
  else if existsb (String.eqb code) ["attempt_list_limit_exceeded"; "note_summary_limit_exceeded"]%string then 422
  else 500.

Definition writeOperationError (e : error) : front_response :=
  match as_operation e with
  | None => writeError 500 "internal" "internal coordinator error" false
  | Some (code, message, retryable, _) => writeError (operation_status code) code message retryable
  end.

(** * Handlers *)

Record front := { service : svc; limit : coordinatorLimiter }.

(** A handler has answered, or goes on with a value. *)
Definition handler (A : Type) : Type := front -> (front_response + A) * front.

#[export] Instance handler_ret : MRet handler := fun A a f => (inr a, f).
#[export] Instance handler_bind : base.MBind handler := fun A B k m f =>
  match m f with (inl r, f') => (inl r, f') | (inr a, f') => k a f' end.

Definition answer {A} (r : front_response) : handler A := fun f => (inl r, f).
Definition refuse_if (c : bool) (r : front_response) : handler unit := if c then answer r else mret tt.
(** A call on the service. *)
Definition call {A} (m : S A) : handler A := fun f =>
  let '(a, w) := m (service f) in (inr a, {| service := w; limit := limit f |}).
(** A call whose error is written as an operation error. *)
Definition operate {A} (m : S (result A)) : handler A :=
  answered ← call m;
  match answered with Ok a => mret a | Err e => answer (writeOperationError e) end.
Definition finish (h : handler front_response) (f : front) : front_response * front :=
  match h f with (inl r, f') | (inr r, f') => (r, f') end.

Section http.
Context `{Ports} (cfg : Config.Config) (ping : nat -> result unit).

Definition is_get (r : request) : bool := String.eqb (Method r) "GET" || String.eqb (Method r) "HEAD".
Definition is_post (r : request) : bool := String.eqb (Method r) "POST".

(** ** Create *)

(** The body of a creation, through [http.MaxBytesReader]: the response that
    refuses it, or the request. *)
Definition read_create (body : string) : front_response + CreateRequest :=
  let limit := CoordinatorMaxBodyBytes cfg in
  let available := take (Z.to_nat (Z.min limit (len body))) (to_bytes body) in
  let more := limit <? len body in
  let invalid := writeError 400 "invalid_request" "invalid request JSON" false in
  if more && unfinished BeginValue [] available
  then inl (writeError 413 "invalid_request" "request body exceeds the configured limit" false)
  else match next_value available with
       | None => inl invalid
       | Some (j, rest) =>
           match into_request true j no_request with
           | None => inl invalid
           | Some request =>
               if more || negb (forallb isSpace rest)
               then inl (writeError 400 "invalid_request" "request must contain one JSON object" false)
               else inr request
           end
       end.

Definition handleCreate (r : request) (p : coordinatorPrincipal) : handler front_response :=
  _ ← refuse_if (negb (jsonContentType (header r "Content-Type")))
        (writeError 415 "unsupported_media_type" "Content-Type must be application/json" false);
  match read_create (request_body r) with
  | inl refused => answer refused
  | inr request =>
      _ ← refuse_if (negb (hasWallet p (TrimSpace (rq_WalletID request)))) wrong_wallet;
      created ← operate (Create cfg (cp_name p) (TrimSpace (header r "Idempotency-Key")) request);
      let '(attempt, replayed) := (created : AttemptView * bool) in
      let status := if replayed && negb (recoverableState (view_State attempt)) then 200 else 202 in
      let response := writeData status (AttemptData attempt) in
      mret (if (replayed : bool) then add_header "Idempotency-Replayed" "true" response else response)
  end.

(** ** Read and cancel *)

Definition handleGet (p : coordinatorPrincipal) (attemptID : string) : handler front_response :=
  attempt ← operate (get_attempt cfg (cp_name p) attemptID);
  _ ← refuse_if (negb (hasWallet p (view_WalletID attempt))) wrong_wallet;
  mret (writeData 200 (AttemptData attempt)).

Definition empty_body (r : request) : bool :=
  let body := TrimSpace (of_bytes (take 17 (to_bytes (request_body r)))) in
  String.eqb body "" || String.eqb body "{}".

Definition handleCancel (r : request) (p : coordinatorPrincipal) (attemptID : string) : handler front_response :=
  let contentType := TrimSpace (header r "Content-Type") in
  _ ← refuse_if (negb (String.eqb contentType "") && negb (jsonContentType contentType))
        (writeError 415 "unsupported_media_type" "Content-Type must be application/json when a body is sent" false);
  _ ← refuse_if (negb (empty_body r))
        (writeError 400 "invalid_request" "cancel accepts an empty body or one empty JSON object" false);
  attempt ← operate (get_attempt cfg (cp_name p) attemptID);
  _ ← refuse_if (negb (hasWallet p (view_WalletID attempt))) wrong_wallet;
  attempt ← operate (Cancel (cp_name p) attemptID);
  mret (writeData 200 (AttemptData attempt)).

(** ** Reads of a wallet *)

Definition wallet_read (r : request) (p : coordinatorPrincipal) (walletID : string)
    (read : handler front_data) : handler front_response :=
  _ ← refuse_if (negb (is_get r)) (method_not_allowed "GET");
  _ ← refuse_if (negb (hasWallet p walletID)) wrong_wallet;
  d ← read; mret (writeData 200 d).

Definition handleReady (r : request) : handler front_response :=
  _ ← refuse_if (negb (is_get r)) (method_not_allowed "GET");
  ready ← call (Ready ping);
  match ready with
  | Ok _ => mret (writeData 200 ReadyData)
  | Err e => answer (writeError 503 "coordinator_not_ready" (error_text e) true)
  end.

Definition handleAttempt (r : request) (p : coordinatorPrincipal) (id : string) (cancel : bool)
    : handler front_response :=
  if negb cancel && is_get r then handleGet p id
  else if cancel && is_post r then handleCancel r p id
  else answer (method_not_allowed (if cancel then "POST" else "GET")).

Definition dispatch (r : request) (p : coordinatorPrincipal) : handler front_response :=
  if String.eqb (Path r) "/v1/health/ready" then handleReady r
  else if String.eqb (Path r) "/v1/transaction-attempts"
  then _ ← refuse_if (negb (is_post r)) (method_not_allowed "POST"); handleCreate r p
  else match noteInventoryPath (Path r) with
       | Some w => wallet_read r p w (inventory ← operate (NoteInventory_of cfg w); mret (InventoryData inventory))
       | None =>
       match activeAttemptsPath (Path r) with
       | Some w => wallet_read r p w (l ← operate (ActiveAttempts cfg (cp_name p) w); mret (ActiveData w l))
       | None =>
       match attemptPath (Path r) with
       | Some (id, cancel) => handleAttempt r p id cancel
       | None => answer (writeError 404 "not_found" "route not found" false)
       end end end.

(** ** ServeHTTP *)

Definition take_token (key : string) (now : time) : handler bool := fun f =>
  let '(ok, l) := allow (limit f) key now in (inr ok, {| service := service f; limit := l |}).

Definition handleLive (r : request) : handler front_response :=
  _ ← refuse_if (negb (is_get r)) (method_not_allowed "GET"); mret (writeData 200 LiveData).

Definition protected (r : request) : handler front_response :=
  match authenticate (Credentials cfg) r with
  | None => answer (add_header "WWW-Authenticate" "Bearer"
              (writeError 401 "unauthorized" "a valid bearer credential is required" false))
  | Some p =>
      _ ← refuse_if (negb (hasScope p "plan")) (writeError 403 "forbidden" "credential lacks the plan scope" false);
      now ← call (ask port_clock);
      allowed ← take_token (cp_name p) now;
      _ ← refuse_if (negb allowed)
            (add_header "Retry-After" "1" (writeError 429 "rate_limited" "request rate limit exceeded" true));
      dispatch r p
  end.

Definition id_char (c : ascii) : bool := is_alnum c || one_of "._:-" c.

(** Without random bytes, the id is a hash of the clock's text. *)
Definition clock_id (now : time) : string :=
  EncodeToString (of_bytes (take 16 (to_bytes (Sum256 (time_String now))))).

Definition requestID (supplied : string) : S string :=
  let supplied := TrimSpace supplied in
  if (0 <? len supplied) && (len supplied <=? 128) && all_bytes id_char supplied then mret supplied
  else
    random ← ask random16;
    match random with
    | Ok b => mret (EncodeToString b)
    | Err _ => now ← ask port_clock; mret (clock_id now)
    end.

Definition ServeHTTP (r : request) (f : front) : front_response * front :=
  let '(id, w) := requestID (header r "X-Request-ID") (service f) in
  let '(rs, f') := finish (if String.eqb (Path r) "/v1/health/live" then handleLive r else protected r)
                     {| service := w; limit := limit f |} in
  (add_header "X-Request-ID" id (add_header "Cache-Control" "no-store" (add_header "Pragma" "no-cache"
     (add_header "X-Content-Type-Options" "nosniff" (add_header "X-Frame-Options" "DENY" rs)))), f').
End http.

(** [NewHandler]. *)
Definition NewHandler (cfg : Config.Config) (w : svc) : front :=
  {| service := w; limit := newCoordinatorLimiter (CoordinatorRate cfg) |}.
