(* ===== verification/Tenancy.v ===== *)
(** What a credential can do through the coordinator's HTTP surface ([Front.v]):
    nothing without the plan scope, and no more than read and cancel its own
    attempts in its own wallets ([requests_stay_within_authority]); every request
    keeps the journal's protocol ([front_refines_journal]); and what a creation
    accepts of its body ([create_reads_one_request]). *)
From S2P Require Import Prelude Tx GoString GoTime Sha256 Json Domain Config Database Attempts Receipts Wallets Journal Request Signer Access Http Coordinator Service Worker Demo Stored Rely Coordination Front.

(** * A program logic for handlers *)

Section logic.
Context `{Ports} (R : relation db) `{!PreOrder R}.

Definition held (f : front) : db := tables (service f).

(** From tables that satisfy [P] the tables move along [R], and the handler
    answers with [Qr] or goes on with [Q]. *)
Definition serves {A} (P : db -> Prop) (h : handler A) (Q : A -> db -> Prop)
    (Qr : front_response -> db -> Prop) : Prop :=
  forall f, P (held f) -> R (held f) (held (h f).2) /\
    match (h f).1 with inl rs => Qr rs (held (h f).2) | inr a => Q a (held (h f).2) end.

Context (Qr : front_response -> db -> Prop).

Lemma sv_bind {A B} (m : handler A) (k : A -> handler B) P Q Q' :
  serves P m Q Qr -> (forall a, serves (Q a) (k a) Q' Qr) -> serves P (m ≫= k) Q' Qr.
Proof.
  intros Hm Hk f Hf. specialize (Hm f Hf). unfold mbind, handler_bind.
  destruct (m f) as [[rs|a] f1]; cbn [fst snd] in *; [done|]. destruct Hm as [HR HQ].
  destruct (Hk a f1 HQ) as [HR' HQ']. split; [by transitivity (held f1)|done].
Qed.

Lemma sv_ret {A} (a : A) P : serves P (mret a) (fun b d => b = a /\ P d) Qr.
Proof. intros f Hf. by split. Qed.

Lemma sv_answer {A} rs P (Q : A -> db -> Prop) : (forall d, P d -> Qr rs d) -> serves P (answer rs) Q Qr.
Proof. intros HQ f Hf. split; [reflexivity|]. by apply HQ. Qed.

Lemma sv_refuse c rs P : (c = true -> forall d, P d -> Qr rs d) ->
  serves P (refuse_if c rs) (fun _ d => c = false /\ P d) Qr.
Proof. intros HQ. destruct c; [by apply sv_answer, HQ|]. intros f Hf. by split. Qed.

Lemma sv_call {A} (m : S A) P Q : run R P m Q -> serves P (call m) Q Qr.
Proof.
  intros Hm f Hf. specialize (Hm (service f) Hf). unfold call, held in *. by destruct (m (service f)).
Qed.

Lemma sv_operate {A} (m : S (result A)) P (Q : A -> db -> Prop) :
  run R P m (fun r d => match r with Ok a => Q a d | Err e => Qr (writeOperationError e) d end) ->
  serves P (operate m) Q Qr.
Proof.
  intros Hm. eapply sv_bind; [by apply sv_call|]. intros [a|e]; [|by apply sv_answer].
  intros f Hf. by split.
Qed.

Lemma sv_pre {A} (h : handler A) (P P' : db -> Prop) Q :
  (forall d, P d -> P' d) -> serves P' h Q Qr -> serves P h Q Qr.
Proof. intros HP Hh f Hf. by apply Hh, HP. Qed.

Lemma sv_pure {A} (h : handler A) (C : Prop) P Q :
  (C -> serves P h Q Qr) -> serves (fun d => C /\ P d) h Q Qr.
Proof. intros Hh f [HC HP]. by apply Hh. Qed.

Lemma sv_post {A} (h : handler A) P (Q Q' : A -> db -> Prop) :
  (forall a d, Q a d -> Q' a d) -> serves P h Q Qr -> serves P h Q' Qr.
Proof.
  intros HQ Hh f Hf. specialize (Hh f Hf). destruct (h f) as [[rs|a] f1]; cbn in *; [done|].
  destruct Hh. eauto.
Qed.

Lemma sv_finish (h : handler front_response) P f :
  serves P h Qr Qr -> P (held f) ->
  R (held f) (held (finish h f).2) /\ Qr (finish h f).1 (held (finish h f).2).
Proof.
  intros Hh Hf. specialize (Hh f Hf). unfold finish. by destruct (h f) as [[rs|rs] f'].
Qed.

(** The bucket is not in the tables. *)
Lemma sv_token key now P : serves P (take_token key now) (fun _ => P) Qr.
Proof.
  intros f Hf. unfold take_token. destruct (allow (limit f) key now) as [ok l]. by split.
Qed.
End logic.

(** * Computations that only read *)

Section reads.
Context `{Ports} (R : relation db) `{!PreOrder R}.
Context (interfere_R : forall n d, R d (interfere n d)).
Context (cfg : Config.Config) (P : db -> Prop) (HP : Stable R P).

Notation looks m := (run R P m (fun _ => P)).

Lemma looks_ret {A} (a : A) : looks (mret a).
Proof. by apply run_ret; [apply _|]. Qed.

Lemma looks_bind {A B} (m : S A) (f : A -> S B) : looks m -> (forall a, looks (f a)) -> looks (m ≫= f).
Proof. intros Hm Hf. by eapply run_bind; [apply _|exact Hm|]. Qed.

Lemma looks_ask {A} (f : nat -> A) : looks (ask f).
Proof. eapply run_conseq; [..|apply run_ask, _]; naive_solver. Qed.

Lemma looks_store {A} (f : time -> faults -> db -> A * db) :
  (forall now io d, (f now io d).2 = d) -> looks (store_call f).
Proof. intros Hf. by apply run_read; [apply _|..]. Qed.

Create HintDb looks discriminated.
Hint Resolve looks_ret looks_ask : looks.
Hint Extern 1 (run _ _ (store_call (fun _ => NoteReservations _ _)) _) =>
  (apply looks_store; intros; apply NoteReservations_reads) : looks.
Hint Extern 1 (run _ _ (store_call (fun _ => CoordinatorRecoverySealed)) _) =>
  (apply looks_store; intros; apply CoordinatorRecoverySealed_reads) : looks.

Ltac look_step :=
  match goal with
  | |- run _ _ (match ?x with _ => _ end) _ => destruct x eqn:?
  | |- run _ _ (_ ≫= _) _ => apply looks_bind; [|intros]
  | |- run _ _ (let '(_, _) := ?x in _) _ => destruct x
  | |- _ => solve [eauto with looks]
  end.
Ltac look := repeat look_step.

Lemma looks_spendable w : looks (spendableSummary cfg w).
Proof. unfold spendableSummary. look. Qed.

Lemma looks_batches fuel w ids m : looks (status_batches fuel w ids m).
Proof. revert ids m. induction fuel; intros; cbn [status_batches]; look. Qed.
Hint Resolve looks_spendable looks_batches : looks.

Lemma looks_reservedNotes w : looks (reservedNotes cfg w).
Proof. unfold reservedNotes. look. Qed.
Hint Resolve looks_reservedNotes : looks.

Lemma looks_inventory w : looks (NoteInventory_of cfg w).
Proof. unfold NoteInventory_of. look. Qed.

Lemma looks_unsealed : looks requireAutomationUnsealed.
Proof. unfold requireAutomationUnsealed. look. Qed.
Hint Resolve looks_unsealed : looks.

Lemma looks_ready ping : looks (Ready ping).
Proof. unfold Ready. look. Qed.

Lemma looks_id supplied : looks (requestID supplied).
Proof. unfold requestID. look. Qed.
End reads.

(** * Ownership *)

(** The attempt is this principal's, of this wallet. *)
Definition belongs (name wallet id : string) (d : db) : Prop :=
  exists row, db_attempts d !! id = Some row /\ a_principal_name row = name /\ a_wallet_id row = wallet.

Lemma belongs_steps network name wallet id d d' : steps network d d' -> belongs name wallet id d -> belongs name wallet id d'.
Proof.
  intros Hs (row & Hr & Hn & Hw). destruct (steps_kept _ _ _ _ _ Hs Hr) as (row' & Hr' & Hk).
  exists row'. split; [done|]. destruct (kept_identity _ _ Hk). naive_solver congruence.
Qed.

Lemma CancelAttempt_id id now io d a : (CancelAttempt id now io d).1 = Ok a ->
  AttemptID a = id /\ exists row, db_attempts d !! id = Some row /\ WalletID a = a_wallet_id row.
Proof.
  destruct (CancelAttempt id now io d) as [r d'] eqn:Hc. cbn. intros ->. unfold CancelAttempt in Hc.
  apply run_tx_cases in Hc as [(_ & e & ?)|[(-> & x & ? & ? & ? & [= <-] & Hc)|(x & ? & ? & [= <-] & Hc)]]; [done|..];
    db_inv; unfold row_of in *; destruct (db_attempts d !! id) as [row|] eqn:Hrow; simplify_eq/=;
    match goal with Hs : scanAttempt id row = Ok ?x |- _ => destruct (scanAttempt_fields _ _ _ Hs) as (Hid & _ & Hw & _) end;
    split; try done; by exists row.
Qed.

Lemma scanAttempt_owner id row a : scanAttempt id row = Ok a ->
  AttemptID a = id /\ PrincipalName a = a_principal_name row /\ WalletID a = a_wallet_id row.
Proof. unfold scanAttempt. intros (c & _ & [= <-])%result_bind_ok. done. Qed.

Lemma scan_all_in {A B} (scan : A -> result B) l out v : scan_all scan l = Ok out -> v ∈ out ->
  exists x, x ∈ l /\ scan x = Ok v.
Proof.
  revert out. induction l as [|x l IH]; cbn [scan_all]; intros out H Hv.
  { injection H as <-. by apply elem_of_nil in Hv. }
  apply result_bind_ok in H as (y & Hy & (ys & Hys & [= <-])%result_bind_ok).
  apply elem_of_cons in Hv as [-> |Hv]; [exists x; split; [by left|done]|].
  destruct (IH _ Hys Hv) as (x' & ? & ?). exists x'. split; [by right|done].
Qed.

Lemma scanActiveAttempt_owner id row v : scanActiveAttempt id row = Ok v ->
  Active_AttemptID v = id /\ Active_WalletID v = a_wallet_id row.
Proof. unfold scanActiveAttempt. intros (c & _ & [= <-])%result_bind_ok. done. Qed.

Lemma ActiveAttemptsByWallet_belongs w name limit io d l v :
  (ActiveAttemptsByWallet w name limit io d).1 = Ok l -> v ∈ l ->
  belongs name w (Active_AttemptID v) d.
Proof.
  unfold ActiveAttemptsByWallet. case_match; [done|]. destruct (run_auto _ _ _) as [r d'] eqn:Hr. cbn. intros -> Hv.
  apply run_auto_cases in Hr as [(_ & e & ?)|(x & io2 & [= <-] & Hr)]; [done|]. db_inv.
  match goal with H : scan_all _ _ = Ok _ |- _ => destruct (scan_all_in _ _ _ _ H Hv) as ([id row] & Hin & Hs) end.
  cbn in Hs. destruct (scanActiveAttempt_owner _ _ _ Hs) as [-> _].
  apply elem_of_take in Hin as (i & Hin & _). apply list_elem_of_lookup_2 in Hin.
  rewrite merge_sort_Permutation in Hin. apply elem_of_rows_where in Hin as [Hrow Hp]. cbn in Hrow, Hp. bool_to_prop.
  by exists row.
Qed.

(** * Authority *)

(** The attempts a response shows. *)
Definition shown (rs : front_response) : list AttemptView :=
  match fs_body rs with
  | Data_body (AttemptData v) => [v]
  | Data_body (ActiveData _ l) => l
  | _ => []
  end.

Lemma shown_header n v rs : shown (add_header n v rs) = shown rs.
Proof. done. Qed.

Section authority.
Context `{Ports} (cfg : Config.Config) (ping : nat -> result unit).
Context (interfere_steps : forall n d, steps (network cfg) d (interfere n d)).

(** What may happen to the tables while the request of [p] runs: what the others
    do, and the cancellation of an attempt of [p], in a wallet granted to it, that
    the request asks for. *)
Inductive move (r : request) (p : coordinatorPrincipal) : db -> db -> Prop :=
  | by_others n d : move r p d (interfere n d)
  | by_cancel now io id w d : attemptPath (Path r) = Some (id, true) -> Method r = "POST"%string ->
      belongs (cp_name p) w id d -> hasWallet p w = true -> move r p d (CancelAttempt id now io d).2.

Definition moves (r : request) (p : coordinatorPrincipal) : relation db := rtc (move r p).

Lemma moves_steps r p d d' : moves r p d d' -> steps (network cfg) d d'.
Proof.
  induction 1 as [|d1 d2 d3 Hm _ IH]; [constructor|]. eapply steps_trans; [|exact IH].
  destruct Hm as [n d|now io id w d]; [done|].
  eapply steps_step; [exact (step_op (network cfg) (OpCancelAttempt id now) io d Logic.I)|constructor].
Qed.

Definition owned (p : coordinatorPrincipal) (id : string) (d : db) : Prop :=
  exists w, belongs (cp_name p) w id d /\ hasWallet p w = true.

(** Every attempt shown is the principal's. *)
Definition discreet (p : coordinatorPrincipal) (rs : front_response) (d : db) : Prop :=
  forall v, v ∈ shown rs -> owned p (view_AttemptID v) d.

Lemma discreet_silent p rs d : shown rs = [] -> discreet p rs d.
Proof. intros Hs v Hv. rewrite Hs in Hv. by apply elem_of_nil in Hv. Qed.

Lemma shown_error e : shown (writeOperationError e) = [].
Proof. unfold writeOperationError. by destruct (as_operation e) as [[[[? ?] ?] ?]|]. Qed.

Section one.
Context (r : request) (p : coordinatorPrincipal).
Notation R := (moves r p).
Notation silent := (fun _ : db => True).

#[local] Instance moves_preorder : PreOrder R.
Proof. apply rtc_po. Qed.

Lemma others_move n d : R d (interfere n d).
Proof. apply rtc_once. constructor. Qed.

#[local] Instance belongs_stable n w id : Stable R (belongs n w id).
Proof. intros d d' Hm. eapply belongs_steps, moves_steps, Hm. Qed.

Notation sv h Q := (serves R silent h Q (discreet p)).

(** The attempt of a principal, as its owner reads it. *)
Lemma owned_attempt_run name id :
  run R silent (owned_attempt name id)
    (fun a d => forall v, a = Ok v -> AttemptID v = id /\ belongs name (WalletID v) id d).
Proof.
  unfold owned_attempt. destruct (negb (attemptIDRE id)); [by apply run_ret; [apply _|]|].
  eapply run_bind; [apply _|apply (run_read R others_move _ silent
    (fun a d => forall v, a = Ok (Some v) -> AttemptID v = id /\ belongs (PrincipalName v) (WalletID v) id d))|].
  - done.
  - intros. apply Attempt_reads.
  - intros now io d _ v Hv. destruct (Attempt_found id io d v Hv) as (row & Hrow & Hs).
    destruct (scanAttempt_owner _ _ _ Hs) as (? & ? & ?). split; [done|]. by exists row.
  - intros a. apply run_ret; [apply _|]. intros d Ha v Hv.
    destruct a as [[v'|]|]; try done. destruct (String.eqb_spec (PrincipalName v') name) as [<-|]; [|done].
    injection Hv as ->. by apply Ha.
Qed.

Lemma attemptForResponse_view a w v w' : attemptForResponse cfg a w = (Ok v, w') ->
  view_AttemptID v = AttemptID a /\ view_WalletID v = WalletID a.
Proof.
  unfold attemptForResponse. destruct (expirySensitiveResponseState (State a)); cbn [negb]; [|by intros [= <- _]].
  destruct (valid_expiry (ExpiryHeight a)); cbn [negb]; [|done].
  unfold mbind, s_bind. destruct (ask node_Tip w) as [t w1]. destruct (good_tip cfg t); [|done].
  cbn. destruct (_ <? _); by intros [= <- _].
Qed.

Lemma attemptForResponse_run a P : run R P (attemptForResponse cfg a)
  (fun u d => P d /\ forall v, u = Ok v -> view_AttemptID v = AttemptID a /\ view_WalletID v = WalletID a).
Proof.
  intros w Hw. destruct (attemptForResponse cfg a w) as [u w'] eqn:Hu. cbn.
  assert (Ht : tables w' = tables w).
  { revert Hu. unfold attemptForResponse, ask, mbind, s_bind, mret, s_ret.
    repeat case_match; intros; simplify_eq/=; done. }
  rewrite Ht. split; [reflexivity|]. split; [done|]. intros v ->. by eapply attemptForResponse_view.
Qed.

Lemma get_attempt_run name id :
  run R silent (get_attempt cfg name id)
    (fun a d => forall v, a = Ok v -> view_AttemptID v = id /\ belongs name (view_WalletID v) id d).
Proof.
  unfold get_attempt. eapply run_bind; [apply _|apply owned_attempt_run|]. intros [value|e].
  2:{ by apply run_ret; [apply _|]. }
  eapply run_bind; [apply _| |].
  - eapply (run_conseq R _ _ (fun d => AttemptID value = id /\ belongs name (WalletID value) id d)); [|done|apply attemptForResponse_run].
    intros d Hd. by apply Hd.
  - intros [view|e]; [|by apply run_ret; [apply _|]].
    assert (Hret : run R (fun d => (AttemptID value = id /\ belongs name (WalletID value) id d) /\
        (forall v, Ok view = Ok v -> view_AttemptID v = AttemptID value /\ view_WalletID v = WalletID value))
      (mret (Ok view)) (fun a d => forall v, a = Ok v -> view_AttemptID v = id /\ belongs name (view_WalletID v) id d)).
    { apply run_ret; [apply _|]. intros d [[Hid Hb] Hv] v [= <-]. destruct (Hv view eq_refl) as [-> ->]. done. }
    case_decide; [exact Hret|]. eapply run_bind; [apply _|apply run_local; [apply _|intros w; unfold enqueue; by case_match]|].
    intros ?. exact Hret.
Qed.

(** A cancellation of an attempt that is the principal's. *)
Lemma Cancel_run id w : attemptPath (Path r) = Some (id, true) -> Method r = "POST"%string -> hasWallet p w = true ->
  run R (belongs (cp_name p) w id) (Cancel (cp_name p) id)
    (fun a d => forall v, a = Ok v -> view_AttemptID v = id /\ belongs (cp_name p) w id d).
Proof.
  intros Hpath Hpost Hw. unfold Cancel. eapply (run_bind R _ _ _ (fun _ d => belongs (cp_name p) w id d)).
  - intros s Hs. destruct (owned_attempt_run (cp_name p) id s Logic.I) as [HR _]. split; [exact HR|].
    eapply belongs_stable; [exact HR|exact Hs].
  - intros [value|e]; [|by apply run_ret; [apply _|]].
    eapply run_bind; [apply _|apply (run_store R others_move _ (belongs (cp_name p) w id)
      (fun a d => belongs (cp_name p) w id d /\ forall v, a = Ok v -> AttemptID v = id))|].
    + apply _.
    + intros now io d Hd. assert (HR : R d (CancelAttempt id now io d).2).
      { apply rtc_once. by eapply by_cancel. }
      split; [exact HR|]. split; [by eapply belongs_stable|]. intros v Hv. by apply CancelAttempt_id in Hv as [? _].
    + intros a. apply run_ret; [apply _|]. intros d [Hd Ha] v Hv. destruct a as [value'|]; [|by case_match].
      injection Hv as <-. split; [|done]. cbn. by apply Ha.
Qed.

Lemma ActiveAttempts_run name w :
  run R silent (ActiveAttempts cfg name w)
    (fun a d => forall l v, a = Ok l -> v ∈ l -> belongs name w (view_AttemptID v) d).
Proof.
  unfold ActiveAttempts. destruct (_ !! w); [|by apply run_ret; [apply _|]].
  eapply run_bind; [apply _|apply (run_read R others_move _ silent
    (fun a d => forall l v, a = Ok l -> v ∈ l -> belongs name w (Active_AttemptID v) d))|].
  - done.
  - intros. apply ActiveAttemptsByWallet_reads.
  - intros now io d _ l v. apply ActiveAttemptsByWallet_belongs.
  - intros a. apply run_ret; [apply _|]. intros d Ha l v Hl Hv. destruct a as [l'|e]; [|by case_match].
    injection Hl as <-. apply list_elem_of_fmap in Hv as (x & -> & Hx). by apply (Ha l').
Qed.

(** ** The handlers *)

Lemma sv_refused c rs P : shown rs = [] -> serves R P (refuse_if c rs) (fun _ d => c = false /\ P d) (discreet p).
Proof. intros Hs. apply sv_refuse; [apply _|]. intros _ d _. by apply discreet_silent. Qed.

Lemma sv_done P rs : shown rs = [] -> serves R P (mret rs) (discreet p) (discreet p).
Proof. intros Hs f Hf. split; [reflexivity|]. by apply discreet_silent. Qed.

Lemma sv_attempt id {A} (k : AttemptView -> handler A) Q :
  (forall v, view_AttemptID v = id -> hasWallet p (view_WalletID v) = true ->
     serves R (belongs (cp_name p) (view_WalletID v) id) (k v) Q (discreet p)) ->
  serves R silent (v ← operate (get_attempt cfg (cp_name p) id);
                   _ ← refuse_if (negb (hasWallet p (view_WalletID v))) wrong_wallet; k v) Q (discreet p).
Proof.
  intros Hk. eapply sv_bind; [apply _|apply (sv_operate R _ _ _
    (fun v d => view_AttemptID v = id /\ belongs (cp_name p) (view_WalletID v) id d))|].
  - eapply run_conseq; [..|apply get_attempt_run]; [done|]. intros [v|e] d Hv; [by apply Hv|].
    apply discreet_silent, shown_error.
  - intros v. apply sv_pure. intros Hid. eapply sv_bind; [apply _|by apply sv_refused|]. intros ?.
    apply sv_pure. intros Hw%negb_false_iff. by apply Hk.
Qed.

Lemma sv_show v id : view_AttemptID v = id -> hasWallet p (view_WalletID v) = true ->
  serves R (belongs (cp_name p) (view_WalletID v) id) (mret (writeData 200 (AttemptData v))) (discreet p) (discreet p).
Proof.
  intros <- Hw f Hf. split; [reflexivity|]. intros v' ->%list_elem_of_singleton. by eexists.
Qed.

Lemma handleGet_sv id : sv (handleGet cfg p id) (discreet p).
Proof. apply sv_attempt. intros v Hid Hw. by apply sv_show. Qed.

Lemma handleCancel_sv id : attemptPath (Path r) = Some (id, true) -> Method r = "POST"%string ->
  sv (handleCancel cfg r p id) (discreet p).
Proof.
  intros Hpath Hpost. unfold handleCancel. eapply sv_bind; [apply _|by apply sv_refused|]. intros ?.
  apply sv_pure. intros _. eapply sv_bind; [apply _|by apply sv_refused|]. intros ?. apply sv_pure. intros _.
  apply sv_attempt. intros v Hid Hw. eapply sv_bind; [apply _|apply (sv_operate R _ _ _
    (fun v' d => view_AttemptID v' = id /\ belongs (cp_name p) (view_WalletID v) id d))|].
  - eapply run_conseq; [..|by apply (Cancel_run id (view_WalletID v))]; [done|].
    intros [v'|e] d Hv; [by apply Hv|]. apply discreet_silent, shown_error.
  - intros v'. apply sv_pure. intros <- f Hf. split; [reflexivity|]. intros x ->%list_elem_of_singleton. by eexists.
Qed.

Lemma handleReady_sv : sv (handleReady ping r) (discreet p).
Proof.
  unfold handleReady. eapply sv_bind; [apply _|by apply sv_refused|]. intros ?. apply sv_pure. intros _.
  eapply sv_bind; [apply _|apply sv_call, looks_ready; [apply _|exact others_move|done]|].
  intros [u|e]; [by apply sv_done|]. apply sv_answer; [apply _|]. intros d _. by apply discreet_silent.
Qed.

Lemma wallet_read_sv w (read : handler front_data) :
  serves R silent read (fun x d => hasWallet p w = true -> discreet p (writeData 200 x) d) (discreet p) ->
  sv (wallet_read r p w read) (discreet p).
Proof.
  intros Hread. unfold wallet_read. eapply sv_bind; [apply _|by apply sv_refused|]. intros ?. apply sv_pure. intros _.
  eapply sv_bind; [apply _|by apply sv_refused|]. intros ?. apply sv_pure. intros Hw%negb_false_iff.
  eapply sv_bind; [apply _|apply Hread|]. intros x f Hf. split; [reflexivity|]. by apply Hf.
Qed.

Lemma inventory_sv w : sv (wallet_read r p w (i ← operate (NoteInventory_of cfg w); mret (InventoryData i))) (discreet p).
Proof.
  apply wallet_read_sv. eapply sv_bind; [apply _|apply (sv_operate R _ _ _ (fun _ _ => True))|].
  - apply (run_conseq R _ _ silent _ (fun _ => silent)); [done| |by apply looks_inventory; [apply _|exact others_move|]].
    intros [i|e] d _; [done|]. apply discreet_silent, shown_error.
  - intros i f _. split; [reflexivity|]. intros _. by apply discreet_silent.
Qed.

Lemma active_sv w : sv (wallet_read r p w (l ← operate (ActiveAttempts cfg (cp_name p) w); mret (ActiveData w l))) (discreet p).
Proof.
  apply wallet_read_sv. eapply sv_bind; [apply _|apply (sv_operate R _ _ _
    (fun l d => forall v, v ∈ l -> belongs (cp_name p) w (view_AttemptID v) d))|].
  - eapply run_conseq; [..|apply ActiveAttempts_run]; [done|]. intros [l|e] d Hl; [intros v; by apply Hl|].
    apply discreet_silent, shown_error.
  - intros l f Hl. split; [reflexivity|]. intros Hw v Hv. exists w. split; [by apply Hl|done].
Qed.

Lemma dispatch_sv : Path r <> "/v1/transaction-attempts"%string -> sv (dispatch cfg ping r p) (discreet p).
Proof.
  intros Hpath. unfold dispatch. case_match; [apply handleReady_sv|]. case_match; [by bool_to_prop|].
  case_match; [apply inventory_sv|]. case_match; [apply active_sv|].
  destruct (attemptPath (Path r)) as [[id cancel]|] eqn:Hid;
    [|apply sv_answer; [apply _|]; intros d _; by apply discreet_silent].
  unfold handleAttempt. destruct cancel; cbn [negb andb].
  - destruct (is_post r) eqn:Hp; [|apply sv_answer; [apply _|]; intros d _; by apply discreet_silent].
    apply handleCancel_sv; [done|]. by apply String.eqb_eq in Hp.
  - case_match; [apply handleGet_sv|]. apply sv_answer; [apply _|]. intros d _. by apply discreet_silent.
Qed.

Lemma protected_sv : authenticate (Credentials cfg) r = Some p -> Path r <> "/v1/transaction-attempts"%string ->
  sv (protected cfg ping r) (discreet p).
Proof.
  intros Hp Hpath. unfold protected. rewrite Hp. eapply sv_bind; [apply _|by apply sv_refused|]. intros ?.
  apply sv_pure. intros _. eapply sv_bind; [apply _|apply sv_call, looks_ask; apply _|]. intros now.
  eapply sv_bind; [apply _|apply sv_token, _|]. intros ok. eapply sv_bind; [apply _|by apply sv_refused|]. intros ?.
  apply sv_pure. intros _. by apply dispatch_sv.
Qed.
End one.

(** The response of [ServeHTTP] is the one of the routes, with headers. *)
Lemma ServeHTTP_eq r f : exists id w h,
  requestID (header r "X-Request-ID") (service f) = (id, w) /\
  h = finish (if String.eqb (Path r) "/v1/health/live" then handleLive r else protected cfg ping r)
        {| service := w; limit := limit f |} /\
  shown (ServeHTTP cfg ping r f).1 = shown h.1 /\ fs_status (ServeHTTP cfg ping r f).1 = fs_status h.1 /\
  (ServeHTTP cfg ping r f).2 = h.2.
Proof.
  unfold ServeHTTP. destruct (requestID _ _) as [id w]. exists id, w. eexists. split; [done|]. split; [done|].
  by destruct (finish _ _) as [rs f'].
Qed.

(** The request id is no part of the service's state. *)
Lemma requestID_local supplied w id w' : requestID supplied w = (id, w') ->
  tables w' = tables w /\ queue w' = queue w /\ inflight w' = inflight w /\ recoveryAfter w' = recoveryAfter w.
Proof.
  unfold requestID. generalize id_char. intros ok. case_match; [by intros [= _ <-]|].
  unfold mbind, s_bind, ask. generalize clock_id EncodeToString. intros g e.
  destruct (random16 (tick w)); intros H1; injection H1 as _ <-; done.
Qed.

(** The service is as it was, but for the number of calls made. *)
Definition idle (f f' : front) : Prop :=
  tables (service f') = tables (service f) /\ queue (service f') = queue (service f) /\
  inflight (service f') = inflight (service f) /\ recoveryAfter (service f') = recoveryAfter (service f) /\
  limit f' = limit f.

(** A request that ends before it reaches the service. *)
Definition turned_away (r : request) (rs : front_response) : Prop :=
  shown rs = [] /\ (Path r = "/v1/health/live"%string \/ fs_status rs = 401 \/ fs_status rs = 403).

Lemma protected_turned_away r f :
  (forall p, authenticate (Credentials cfg) r = Some p -> hasScope p "plan" = false) ->
  exists rs, protected cfg ping r f = (inl rs, f) /\ shown rs = [] /\ (fs_status rs = 401 \/ fs_status rs = 403).
Proof.
  intros Hno. unfold protected. destruct (authenticate _ r) as [p|]; [|eexists; split; [done|]; split; [done|by left]].
  rewrite (Hno p eq_refl). eexists. split; [done|]. split; [done|by right].
Qed.

Lemma handleLive_turned_away r f : exists rs, finish (handleLive r) f = (rs, f) /\ shown rs = [].
Proof. unfold handleLive. destruct (is_get r); (eexists; split; [reflexivity|done]). Qed.
End authority.

(** C6: a request without a credential that has the plan scope leaves the
    coordinator as it was, and shows nothing.  One with such a credential that is
    not a creation shows only attempts of that credential, in wallets granted to
    it, and while it runs the tables move only by what the others do and by the
    cancellation of one such attempt, if that is what it asks for. *)
Theorem requests_stay_within_authority `{Ports} (cfg : Config.Config) ping r f rs f' :
  (forall n d, steps (network cfg) d (interfere n d)) ->
  ServeHTTP cfg ping r f = (rs, f') ->
  (exists p, authenticate (Credentials cfg) r = Some p /\ hasScope p "plan" = true /\
     (Path r <> "/v1/transaction-attempts"%string -> moves r p (held f) (held f') /\ discreet p rs (held f'))) \/
  (idle f f' /\ turned_away r rs).
Proof.
  intros Hi Hrun. destruct (ServeHTTP_eq cfg ping r f) as (id & w & h & Hid & Hh & Hshown & Hstatus & Hf').
  rewrite Hrun in Hshown, Hstatus, Hf'. cbn in Hshown, Hstatus, Hf'. apply requestID_local in Hid.
  assert (Hidle : idle f {| service := w; limit := limit f |}) by (unfold idle; cbn; tauto).
  destruct (String.eqb_spec (Path r) "/v1/health/live") as [Hlive|_].
  - right. destruct (handleLive_turned_away r {| service := w; limit := limit f |}) as (rs1 & Hl & Hs).
    rewrite Hl in Hh. subst h f'. split; [exact Hidle|]. split; [by rewrite Hshown|by left].
  - destruct (authenticate (Credentials cfg) r) as [p|] eqn:Hp.
    destruct (hasScope p "plan") eqn:Hscope.
    + left. exists p. split; [done|]. split; [done|]. intros Hpath. subst f'.
      assert (Hheld : held {| service := w; limit := limit f |} = held f) by (unfold held; cbn; tauto).
      destruct (sv_finish (moves r p) (discreet p) _ _ {| service := w; limit := limit f |}
        (protected_sv cfg ping Hi r p Hp Hpath) Logic.I) as [HR HQ].
      rewrite <- Hh, Hheld in HR. rewrite <- Hh in HQ. split; [done|].
      intros v Hv. rewrite Hshown in Hv. by apply HQ.
    + right. destruct (protected_turned_away cfg ping r {| service := w; limit := limit f |}) as (rs1 & Hl & Hs & Hst).
      { intros p' Hp'. rewrite Hp in Hp'. by injection Hp' as <-. }
      unfold finish in Hh. rewrite Hl in Hh. subst h f'. split; [exact Hidle|]. cbn in Hstatus.
      rewrite <- Hstatus in Hst. split; [by rewrite Hshown|by right].
    + right. destruct (protected_turned_away cfg ping r {| service := w; limit := limit f |}) as (rs1 & Hl & Hs & Hst).
      { intros p' Hp'. by rewrite Hp in Hp'. }
      unfold finish in Hh. rewrite Hl in Hh. subst h f'. split; [exact Hidle|]. cbn in Hstatus.
      rewrite <- Hstatus in Hst. split; [by rewrite Hshown|by right].
Qed.

(** * The journal *)

Section refinement.
Context `{Ports} (cfg : Config.Config) (ping : nat -> result unit).
Context (interfere_steps : forall n d, steps (network cfg) d (interfere n d)).
Context (r : request).

Notation kept h := (serves (steps (network cfg)) (fun _ => True) h (fun _ _ => True) (fun _ _ => True)).

Lemma kept_call {A B} (m : S (result A)) (k : A -> handler B) :
  keeps cfg (fun _ => True) m -> (forall a, kept (k a)) -> kept (a ← operate m; k a).
Proof.
  intros Hm Hk. eapply sv_bind; [apply _|apply (sv_operate _ _ _ _ (fun _ _ => True))|exact Hk].
  eapply run_conseq; [..|exact Hm]; [done|]. by intros [].
Qed.

Lemma kept_refuse {B} c rs (k : unit -> handler B) : kept (k tt) -> kept (u ← refuse_if c rs; k u).
Proof.
  intros Hk. eapply sv_bind; [apply _|by apply sv_refuse; [apply _|]|]. intros []. by apply sv_pure.
Qed.

Lemma kept_done (rs : front_response) : kept (mret rs : handler front_response).
Proof. intros f _. split; [reflexivity|done]. Qed.

Lemma kept_answer {A} rs : kept (answer rs : handler A).
Proof. intros f _. split; [reflexivity|done]. Qed.

Create HintDb kept discriminated.
Hint Resolve kept_done kept_answer : kept.

Ltac kept_step :=
  match goal with
  | |- kept (match ?x with _ => _ end) => destruct x
  | |- kept (_ ← refuse_if _ _; _) => apply kept_refuse
  | |- kept (_ ← operate _; _) => apply kept_call; [|intros]
  | |- _ => solve [eauto with kept]
  end.

Lemma kept_create p : kept (handleCreate cfg r p).
Proof.
  unfold handleCreate. repeat kept_step. by apply keeps_Create.
Qed.

Lemma kept_protected : kept (protected cfg ping r).
Proof.
  destruct (authenticate (Credentials cfg) r) as [q|] eqn:Hq; [|unfold protected; rewrite Hq; apply kept_answer].
  destruct (decide (Path r = "/v1/transaction-attempts"%string)) as [Hpath|Hpath].
  - unfold protected. rewrite Hq. kept_step.
    eapply sv_bind; [apply _|apply (sv_call _ _ _ (fun _ => True) (fun _ _ => True)); apply looks_ask, _|]. intros now.
    eapply sv_bind; [apply _|apply (sv_token _ _ _ _ (fun _ => True)); apply _|]. intros ok. cbv beta. kept_step.
    unfold dispatch. rewrite Hpath. change (String.eqb "/v1/transaction-attempts" "/v1/health/ready") with false.
    rewrite String.eqb_refl. cbv iota. kept_step. apply kept_create.
  - intros f _. destruct (protected_sv cfg ping interfere_steps r q Hq Hpath f Logic.I) as [HR _].
    split; [by eapply moves_steps|]. by destruct (protected cfg ping r f) as [[] ?].
Qed.

Lemma ServeHTTP_steps f : steps (network cfg) (held f) (held (ServeHTTP cfg ping r f).2).
Proof.
  destruct (ServeHTTP_eq cfg ping r f) as (id & w & h & Hid & Hh & _ & _ & ->). apply requestID_local in Hid.
  assert (Hheld : held f = held {| service := w; limit := limit f |}) by (unfold held; cbn; symmetry; tauto).
  rewrite Hheld, Hh. destruct (String.eqb _ _).
  - destruct (handleLive_turned_away r {| service := w; limit := limit f |}) as (rs1 & -> & _). constructor.
  - eapply (sv_finish (steps (network cfg)) (fun _ _ => True) _ (fun _ => True)); [apply kept_protected|done].
Qed.
End refinement.

(** The requests of a coordinator's lifetime, one after another: what runs beside
    each is in the interference. *)
Definition ServeAll `{Ports} (cfg : Config.Config) ping (l : list request) (f : front) : front :=
  foldl (fun f r => (ServeHTTP cfg ping r f).2) f l.

(** C25: the coordinator's HTTP surface implements the journal's protocol: over any
    requests, with any answers of the collaborators, any driver failures and any
    interference that itself keeps the protocol, the tables move by journal steps;
    so every journal invariant holds after any request. *)
Theorem front_refines_journal `{Ports} (cfg : Config.Config) ping l f :
  (forall n d, steps (network cfg) d (interfere n d)) ->
  steps (network cfg) (held f) (held (ServeAll cfg ping l f)) /\
  (reachable (network cfg) (held f) -> reachable (network cfg) (held (ServeAll cfg ping l f))).
Proof.
  intros Hi. assert (Hs : steps (network cfg) (held f) (held (ServeAll cfg ping l f))).
  { revert f. induction l as [|r l IH]; intros f; [constructor|]. cbn [ServeAll foldl].
    eapply steps_trans; [by apply (ServeHTTP_steps cfg ping Hi r)|apply IH]. }
  split; [done|]. intros [fk Hr]. exists fk. by eapply steps_trans.
Qed.

(** * Creations *)

(** of a creation's body exactly the whole text is read: it is accepted when it
    is within the limit and is one JSON value without unknown fields, and the
    request is what that value decodes to; what is sent as the canonical JSON of a
    request is read as that request. *)
Theorem create_reads_one_request (cfg : Config.Config) body rq :
  (read_create cfg body = inr rq <->
   len body <= CoordinatorMaxBodyBytes cfg /\ Unmarshal (into_request true) no_request body = Some rq) /\
  (len (Marshal_request rq) <= CoordinatorMaxBodyBytes cfg -> request_text rq = true ->
   (forall s, RequestSplit rq = Some s -> int64 (NoteCount s)) -> read_create cfg (Marshal_request rq) = inr rq).
Proof.
  assert (Hiff : forall body, read_create cfg body = inr rq <->
    len body <= CoordinatorMaxBodyBytes cfg /\ Unmarshal (into_request true) no_request body = Some rq).
  { clear body. intros body. unfold read_create. destruct (Z.ltb_spec (CoordinatorMaxBodyBytes cfg) (len body)) as [Hlt|Hle]; cbn [andb orb].
    - split; [|lia]. repeat case_match; done.
    - rewrite Z.min_r, take_ge by (unfold len in *; rewrite ?length_to_bytes; lia).
      unfold Unmarshal, parse. destruct (next_value (to_bytes body)) as [[j rest]|]; cbn [mbind option_bind];
        [|by split; [|intros [_ ?]]].
      destruct (forallb isSpace rest); cbn [negb mbind option_bind].
      + destruct (into_request true j no_request) as [q|]; [|by split; [|intros [_ ?]]].
        split; [by intros [= ->]|by intros [_ [= ->]]].
      + split; [|by intros [_ ?]]. by destruct (into_request true j no_request). }
  split; [done|]. intros Hlen Ht Hs. apply Hiff. split; [done|].
  destruct (request_json_printable rq Ht). unfold Unmarshal, Marshal_request.
  rewrite parse_Marshal by done. by apply into_request_json.
Qed.

(** * Witnesses *)

Definition demo_front : front := NewHandler demo_cfg (demo_svc demo_tables).
Definition demo_ping : nat -> result unit := fun _ => Ok tt.

Definition demo_creation : request :=
  mock_request "POST" "/v1/transaction-attempts"
    [mock_bearer; ("Idempotency-Key", "key-0000000001"); ("Content-Type", "application/json")]%string
    (Marshal_request demo_request).
Definition demo_reading : request :=
  mock_request "GET" ("/v1/transaction-attempts/" +:+ the_id) [mock_bearer] "".
Definition demo_cancelling : request :=
  mock_request "POST" ("/v1/transaction-attempts/" +:+ the_id +:+ "/cancel") [mock_bearer] " {} ".

Definition demo_after : front := Eval vm_compute in
  (ServeHTTP (H := demo_ports 500 signs) demo_cfg demo_ping demo_creation demo_front).2.

(** An attempt is created, and its owner cancels it. *)
Lemma requests_stay_within_authority_witness :
  let P := demo_ports 500 signs in
  let a := ServeHTTP demo_cfg demo_ping demo_cancelling demo_after in
  (exists v, shown a.1 = [v] /\ view_State v = cancelled) /\
  exists p, authenticate (Credentials demo_cfg) demo_cancelling = Some p /\
    moves demo_cancelling p (held demo_after) (held a.2) /\ discreet p a.1 (held a.2).
Proof.
  intros P a. assert (Hv : map view_State (shown a.1) = [cancelled]) by (vm_compute; reflexivity).
  assert (Hs : fs_status a.1 = 200) by (vm_compute; reflexivity).
  assert (Ha : ServeHTTP demo_cfg demo_ping demo_cancelling demo_after = (a.1, a.2)) by apply surjective_pairing.
  clearbody a. destruct a as [rs f']. cbn [fst snd] in *. split.
  { destruct (shown rs) as [|v [|? ?]] eqn:Hv'; try discriminate Hv. exists v. split; [reflexivity|]. by injection Hv. }
  destruct (@requests_stay_within_authority P demo_cfg demo_ping demo_cancelling demo_after rs f'
    (fun _ => demo_tables_steps) Ha) as [(p & Hp & _ & Hq)|(_ & _ & [Hl|[H1|H1]])].
  - exists p. split; [exact Hp|]. apply Hq. discriminate.
  - discriminate Hl.
  - rewrite Hs in H1. discriminate H1.
  - rewrite Hs in H1. discriminate H1.
Defined.

Lemma front_refines_journal_witness :
  let P := demo_ports 500 signs in
  let f := ServeAll demo_cfg demo_ping [demo_creation; demo_reading; demo_cancelling] demo_front in
  state_of (service f) = Some cancelled /\ reachable "mainnet" (held f).
Proof.
  intros P f. assert (Hs : state_of (service f) = Some cancelled) by (vm_compute; reflexivity).
  split; [exact Hs|].
  exact (proj2 (@front_refines_journal P demo_cfg demo_ping [demo_creation; demo_reading; demo_cancelling] demo_front
    (fun _ => demo_tables_steps)) demo_tables_reachable).
Defined.

Lemma create_reads_one_request_witness : read_create demo_cfg (Marshal_request demo_request) = inr demo_request.
Proof.
  assert (Hl : len (Marshal_request demo_request) <= CoordinatorMaxBodyBytes demo_cfg) by (vm_compute; discriminate).
  assert (Ht : request_text demo_request = true) by (vm_compute; reflexivity).
  refine (proj2 (create_reads_one_request demo_cfg "" demo_request) Hl Ht _). intros s Hs. discriminate Hs.
Defined.
