(* ===== verification/Gateway.v ===== *)
(** The world of the public API: the stores it shares with everything else, its
    own mutable state, and the services of [internal/api/api.go] as an interface.

    Call number [n] of a run meets the stores as other requests, the coordinator
    and other processes left them ([meanwhile n]) and gets the answers and the
    outcomes of call [n]; a context that ends is one of these answers.  Every
    interleaving with other activity is therefore a choice of [meanwhile]. *)
From S2P Require Import Prelude Tx GoString GoTime Sha256 Json Domain Database Config Wallets Installation Guarded Access Effects Http.

(** * Collaborators *)

Class Upstreams := {
  meanwhile : nat -> Guarded.world -> Guarded.world;
  outcome : nat -> call_env;
  store_Ping : nat -> result unit;
  node_Tip : nat -> result NodeTip;
  node_BlockHash : nat -> Z -> result string;
  node_DecodeRawTransaction : nat -> string -> result string;
  node_Transaction : nat -> string -> bool -> result (option Transaction);
  node_Broadcast : nat -> string -> result string;
  scanner_Health : nat -> result ScannerHealth;
  scanner_UpsertWallet : nat -> string -> string -> Z -> result unit;
  scanner_BackfillStatus : nat -> string -> result (option BackfillStatus);
  scanner_Backfill : nat -> string -> Z -> Z -> result Z;
  scanner_Balance : nat -> string -> string -> Z -> Z -> result (option Balance);
  scanner_NoteSummary : nat -> string -> Z -> Z -> Z -> result (option WalletNoteSummary);
  scanner_NoteStatuses : nat -> string -> list string -> result (option WalletNoteStatuses);
  scanner_Events : nat -> string -> Z -> Z -> EventFilter -> result EventsPage;
  deriver_Derive : nat -> string -> Z -> result string;
  (** The order in which a [range] over the wallet map visits it. *)
  map_range : nat -> list (string * Config.Wallet) -> list (string * Config.Wallet);
  map_range_perm n l : map_range n l ≡ₚ l;
  (** The ticks of the lease's heartbeat that fire up to call [n], with the
      driver's outcomes, and whether the request's context has ended by then. *)
  heartbeats : nat -> list (time * faults);
  parent_done : nat -> option error
}.

(** * State *)

(** What the heartbeat goroutine of a receipt lease has sent on its channel, and
    whether the lease is finished. *)
Record lease_state := { stop_err : option error; finished : bool }.

Record gateway := {
  stores : Guarded.world;
  registered : gmap string bool;
  readLimit : limiter;
  broadcastLimit : limiter;
  (** The transactions handed to [sendrawtransaction], last first. *)
  sent : list string;
  (** The lease of the broadcast request that is running. *)
  lease : lease_state
}.

Definition set_stores (g : gateway) (w : Guarded.world) : gateway :=
  {| stores := w; registered := registered g; readLimit := readLimit g;
     broadcastLimit := broadcastLimit g; sent := sent g; lease := lease g |}.
Definition set_registered (g : gateway) (m : gmap string bool) : gateway :=
  {| stores := stores g; registered := m; readLimit := readLimit g;
     broadcastLimit := broadcastLimit g; sent := sent g; lease := lease g |}.
Definition set_limits (g : gateway) (r b : limiter) : gateway :=
  {| stores := stores g; registered := registered g; readLimit := r; broadcastLimit := b;
     sent := sent g; lease := lease g |}.
Definition add_sent (g : gateway) (raw : string) : gateway :=
  {| stores := stores g; registered := registered g; readLimit := readLimit g;
     broadcastLimit := broadcastLimit g; sent := raw :: sent g; lease := lease g |}.
Definition set_lease (g : gateway) (l : lease_state) : gateway :=
  {| stores := stores g; registered := registered g; readLimit := readLimit g;
     broadcastLimit := broadcastLimit g; sent := sent g; lease := l |}.

Definition now_tick (g : gateway) : nat := tick (stores g).
Definition with_tables (w : Guarded.world) (d : db) : Guarded.world :=
  {| file := file w; tables := d; tick := S (tick w) |}.
Definition next_tick (g : gateway) : gateway :=
  set_stores g (with_tables (stores g) (tables (stores g))).

(** * Activities *)

Definition act (A : Type) : Type := gateway -> A * gateway.

#[export] Instance act_ret : MRet act := fun A a g => (a, g).
#[export] Instance act_bind : base.MBind act := fun A B f m g => let '(a, g') := m g in f a g'.

Section calls.
Context `{Upstreams}.

(** One call on a service, on the clock, on the tables, on both stores. *)
Definition ask {A} (f : nat -> A) : act A := fun g => (f (now_tick g), next_tick g).

Definition time_Now : act time := ask (fun n => call_clock (outcome n)).

Definition store_call {A} (f : time -> faults -> db -> A * db) : act A := fun g =>
  let n := now_tick g in
  let w := meanwhile n (stores g) in
  let '(a, d) := f (call_clock (outcome n)) (call_io (outcome n)) (tables w) in
  (a, set_stores g (with_tables {| file := file w; tables := tables w; tick := n |} d)).

Definition guarded_call {A} (m : W A) : act (result A) := fun g =>
  let n := now_tick g in
  let w := meanwhile n (stores g) in
  let '(r, w') := m outcome {| file := file w; tables := tables w; tick := n |} in
  (r, set_stores g w').
End calls.

(** * Responses *)

Record readiness := {
  rd_Network : Domain.Network;
  rd_Node : NodeTip;
  rd_Scanner : ScannerHealth;
  rd_ScannerLag : Z;
  rd_MaxScannerLag : Z
}.

Record noteSummary := {
  out_WalletID : string;
  out_MinConfirmations : Z;
  out_MinNoteZat : Z;
  out_AsOfNodeHeight : Z;
  out_AsOfScannerHeight : Z;
  out_AsOfScannerHash : string;
  out_ScannerLag : Z;
  out_TotalUnspent : NoteValueSummary;
  out_Spendable : SpendableNoteSummary;
  out_Immature : NoteValueSummary;
  out_PendingSpend : PendingSpendNoteSummary;
  out_BelowMinNote : NoteValueSummary;
  out_WitnessUnavailable : NoteValueSummary
}.

Record noteStatusesResponse := {
  nsr_WalletID : string;
  nsr_AsOfNodeHeight : Z;
  nsr_AsOfScannerHeight : Z;
  nsr_AsOfScannerHash : string;
  nsr_ScannerLag : Z;
  nsr_EventEpoch : string;
  nsr_Statuses : list NoteStatus
}.

Record deposit := {
  dp_DepositID : string;
  dp_EventID : string;
  dp_WalletID : string;
  dp_TxID : string;
  dp_ActionIndex : Z;
  dp_Address : string;
  dp_DiversifierIndex : Z;
  dp_AmountZat : Z;
  dp_Status : string;
  dp_BlockHeight : Z;
  dp_ConfirmedHeight : option Z;
  dp_OrphanedAtHeight : option Z;
  dp_RollbackHeight : option Z;
  dp_ObservedAt : time
}.

Record BuildInfo := {
  Version : string;
  Revision : string;
  BuildTime : string;
  APIVersion : string;
  Components : list (string * string)
}.

(** The data of a successful response, by handler. *)
Inductive data : Type :=
  | LiveData
  | VersionData (build : BuildInfo) (network : Domain.Network)
  | ReadyData (ready : readiness)
  | TipData (network : Domain.Network) (tip : NodeTip) (scanner_height : option Z) (scanner_lag : Z)
  | AddressData (address : Address)
  | BalanceData (wallet_id address : string) (balance : Balance)
  | NoteSummaryData (summary : noteSummary)
  | NoteStatusesData (statuses : noteStatusesResponse)
  | DepositsData (deposits : list deposit) (next_cursor event_epoch : string)
  | TransactionData (tx : Transaction) (wallet : option (string * list walletEffect))
  | MapData (fields : list (string * json)).

Inductive body : Type :=
  | Ok_body (d : data)
  | Error_body (code message : string) (retryable : bool) (details : list (string * json)).

Record response := { rs_status : Z; rs_headers : list (string * string); rs_body : body }.

Definition writeData (status : Z) (d : data) : response :=
  {| rs_status := status; rs_headers := []; rs_body := Ok_body d |}.
Definition writeError (status : Z) (code message : string) (retryable : bool)
    (details : list (string * json)) : response :=
  {| rs_status := status; rs_headers := []; rs_body := Error_body code message retryable details |}.
Definition with_header (name value : string) (r : response) : response :=
  {| rs_status := rs_status r; rs_headers := (name, value) :: rs_headers r; rs_body := rs_body r |}.

(** * Handlers *)

(** A handler either has answered, or goes on with a value. *)
Definition handler (A : Type) : Type := gateway -> (response + A) * gateway.

#[export] Instance handler_ret : MRet handler := fun A a g => (inr a, g).
#[export] Instance handler_bind : base.MBind handler := fun A B f m g =>
  match m g with (inl r, g') => (inl r, g') | (inr a, g') => f a g' end.

(** [writeError(...); return]. *)
Definition answer {A} (r : response) : handler A := fun g => (inl r, g).
Definition call {A} (m : act A) : handler A := fun g => let '(a, g') := m g in (inr a, g').
Definition refuse_if (c : bool) (r : response) : handler unit := if c then answer r else mret tt.

Definition finish (h : handler response) : act response := fun g =>
  match h g with (inl r, g') | (inr r, g') => (r, g') end.

Definition writeDecodeError (e : error) : response :=
  let text := match e with New msg => msg | _ => ""%string end in
  writeError (if errors_Is errBodyTooLarge e then 413 else 400) "invalid_request" text false [].
