(* ===== verification/Triple.v ===== *)
(** Hoare triples for the activities and the handlers of the public API.

    [act_triple P m Q]: from a gateway in [P], [m] gives a value and leaves a
    gateway in [Q].  [triple P h E Q]: a handler that answers does so in [E], and
    one that goes on does so in [Q].  The rules follow the constructs the handlers
    are written with; [t_step] applies the one that fits. *)
From S2P Require Import Prelude Tx GoString GoTime Json Domain Database Config Wallets Guarded Access Effects Http Gateway.

Definition act_triple {A} (P : gateway -> Prop) (m : act A) (Q : A -> gateway -> Prop) : Prop :=
  forall g, P g -> Q (m g).1 (m g).2.

Definition triple {A} (P : gateway -> Prop) (h : handler A) (E : response -> gateway -> Prop)
    (Q : A -> gateway -> Prop) : Prop :=
  forall g, P g -> match h g with (inl r, g') => E r g' | (inr a, g') => Q a g' end.

Section rules.
Implicit Types (P : gateway -> Prop) (g : gateway) (E : response -> gateway -> Prop).

(** * Activities *)

Lemma act_pre P P' {A} (m : act A) Q :
  (forall g, P g -> P' g) -> act_triple P' m Q -> act_triple P m Q.
Proof. unfold act_triple. eauto. Qed.

Lemma act_post P {A} (m : act A) (Q Q' : A -> gateway -> Prop) :
  act_triple P m Q -> (forall a g, Q a g -> Q' a g) -> act_triple P m Q'.
Proof. unfold act_triple. eauto. Qed.

Lemma act_mret P {A} (a : A) (Q : A -> gateway -> Prop) : (forall g, P g -> Q a g) -> act_triple P (mret a) Q.
Proof. unfold act_triple. eauto. Qed.

Lemma act_bind_rule P {A B} (m : act A) (f : A -> act B) Q R :
  act_triple P m Q -> (forall a, act_triple (Q a) (f a) R) -> act_triple P (m ≫= f) R.
Proof.
  intros Hm Hf g Hg. specialize (Hm g Hg). unfold mbind, act_bind.
  destruct (m g) as [a g1]. by apply Hf.
Qed.

Lemma act_ask P {A} (f : nat -> A) (Q : A -> gateway -> Prop) :
  (forall g, P g -> Q (f (now_tick g)) (next_tick g)) -> act_triple P (ask f) Q.
Proof. intros H g Hg. by apply H. Qed.

Lemma act_and P P' {A} (m : act A) (Q Q' : A -> gateway -> Prop) :
  act_triple P m Q -> act_triple P' m Q' ->
  act_triple (fun g => P g /\ P' g) m (fun a g => Q a g /\ Q' a g).
Proof. intros H H' g [Hg Hg']. split; [by apply H|by apply H']. Qed.

(** A fact that does not speak of the gateway moves to the context. *)
Lemma act_pure (F : Prop) P {A} (m : act A) Q :
  (F -> act_triple P m Q) -> act_triple (fun g => F /\ P g) m Q.
Proof. intros H g [HF Hg]. by apply H. Qed.

(** * Handlers *)

Lemma t_pre P P' {A} (h : handler A) E Q :
  (forall g, P g -> P' g) -> triple P' h E Q -> triple P h E Q.
Proof. intros HP Hh g Hg. apply Hh, HP, Hg. Qed.

Lemma t_conseq P {A} (h : handler A) E E' (Q Q' : A -> gateway -> Prop) :
  triple P h E Q -> (forall r g, E r g -> E' r g) -> (forall a g, Q a g -> Q' a g) -> triple P h E' Q'.
Proof. intros Hh HE HQ g Hg. specialize (Hh g Hg). destruct (h g) as [[r|a] g']; auto. Qed.

Lemma t_mret P {A} (a : A) E (Q : A -> gateway -> Prop) :
  (forall g, P g -> Q a g) -> triple P (mret a) E Q.
Proof. intros H g Hg. by apply H. Qed.

Lemma t_answer P {A} r E (Q : A -> gateway -> Prop) :
  (forall g, P g -> E r g) -> triple P (answer r) E Q.
Proof. intros H g Hg. by apply H. Qed.

Lemma t_bind P {A B} (m : handler A) (f : A -> handler B) E Q R :
  triple P m E Q -> (forall a, triple (Q a) (f a) E R) -> triple P (m ≫= f) E R.
Proof.
  intros Hm Hf g Hg. specialize (Hm g Hg). unfold mbind, handler_bind.
  destruct (m g) as [[r|a] g1]; [done|]. by apply Hf.
Qed.

Lemma t_call P {A} (m : act A) E Q : act_triple P m Q -> triple P (call m) E Q.
Proof. intros H g Hg. specialize (H g Hg). unfold call. by destruct (m g). Qed.

Lemma t_call_bind P {A B} (m : act A) (f : A -> handler B) E Q R :
  act_triple P m Q -> (forall a, triple (Q a) (f a) E R) -> triple P (x ← call m; f x) E R.
Proof. intros Hm Hf. eapply t_bind; [apply t_call, Hm|done]. Qed.

(** [refuse_if] before the rest. *)
Lemma t_refuse P {B} c r (h : handler B) E R :
  (c = true -> forall g, P g -> E r g) -> (c = false -> triple P h E R) ->
  triple P (_ ← refuse_if c r; h) E R.
Proof.
  intros Ht Hf g Hg. unfold refuse_if, mbind, handler_bind. destruct c; cbn.
  - by apply Ht.
  - by apply Hf.
Qed.

Lemma t_pure (F : Prop) P {A} (h : handler A) E Q :
  (F -> triple P h E Q) -> triple (fun g => F /\ P g) h E Q.
Proof. intros H g [HF Hg]. by apply H. Qed.

Lemma t_finish P (h : handler response) E g rs g' :
  triple P h E E -> P g -> finish h g = (rs, g') -> E rs g'.
Proof.
  intros H Hg Hf. specialize (H g Hg). unfold finish in Hf.
  destruct (h g) as [[r|r] g1]; by simplify_eq.
Qed.
End rules.

(** * What the calls keep *)

(** [keeps f m]: [m] leaves the part [f] of the gateway as it is. *)
Definition keeps {A B} (f : gateway -> B) (m : act A) : Prop := forall g, f (m g).2 = f g.

Lemma keeps_mret {A B} (f : gateway -> B) (a : A) : keeps f (mret a).
Proof. done. Qed.

Lemma kept_by_bind {A B C} (f : gateway -> C) (m : act A) (k : A -> act B) :
  keeps f m -> (forall a, keeps f (k a)) -> keeps f (m ≫= k).
Proof.
  intros Hm Hk g. unfold mbind, act_bind. specialize (Hm g). destruct (m g) as [a g1].
  by rewrite (Hk a g1).
Qed.

Lemma keeps_triple {A B} (f : gateway -> B) (m : act A) b :
  keeps f m -> act_triple (fun g => f g = b) m (fun _ g => f g = b).
Proof. intros Hm g Hg. by rewrite Hm. Qed.

(** * When a call was made *)

(** Call number [lo] is still to come, or is the next one. *)
Definition since (lo : nat) (g : gateway) : Prop := (lo <= now_tick g)%nat.

(** One of the calls from [lo] on and before [hi] gave this answer. *)
Definition answered {A} (lo hi : nat) (f : nat -> A) (a : A) : Prop := exists n, (lo <= n < hi)%nat /\ f n = a.

Lemma answered_widen {A} lo hi lo' hi' (f : nat -> A) a :
  answered lo hi f a -> (lo' <= lo)%nat -> (hi <= hi')%nat -> answered lo' hi' f a.
Proof. intros (n & Hn & Ha) ? ?. exists n. split; [lia|done]. Qed.

Section calls.
Context `{Upstreams}.

(** [timed lo m F]: from call [lo] on, [m] gives a value of which [F] holds by the
    number of the call that comes next. *)
Definition timed {A} (lo : nat) (m : act A) (F : A -> nat -> Prop) : Prop :=
  act_triple (since lo) m (fun a g => F a (now_tick g) /\ since lo g).

Lemma timed_ret lo {A} (a : A) (F : A -> nat -> Prop) : (forall hi, (lo <= hi)%nat -> F a hi) -> timed lo (mret a) F.
Proof. intros HF g Hg. split; [by apply HF|done]. Qed.

Lemma timed_ask lo {A} (f : nat -> A) : timed lo (ask f) (fun a hi => answered lo hi f a).
Proof.
  intros g Hg. unfold since in *. split; [|unfold now_tick in *; cbn; lia].
  exists (now_tick g). split; [unfold now_tick in *; cbn; lia|done].
Qed.

Lemma timed_store lo {A} (f : time -> faults -> db -> A * db) : timed lo (store_call f) (fun _ _ => True).
Proof.
  unfold timed, since, store_call. intros g Hg. destruct (f _ _ _) as [a d]. unfold now_tick in *. cbn. split; [done|lia].
Qed.

Lemma timed_bind lo {A B} (m : act A) (k : A -> act B) (F : A -> nat -> Prop) G :
  timed lo m F -> (forall a hi, (lo <= hi)%nat -> F a hi -> timed hi (k a) G) -> timed lo (m ≫= k) G.
Proof.
  intros Hm Hk g Hg. specialize (Hm g Hg). unfold mbind, act_bind. destruct (m g) as [a g1]. cbn [fst snd] in Hm.
  destruct Hm as [HF Hlo]. destruct (Hk a (now_tick g1) Hlo HF g1 (le_n _)) as [HG Hhi]. split; [exact HG|].
  unfold since in *. lia.
Qed.

(** A timed activity within a handler. *)
Lemma t_timed lo {A B} (m : act A) (k : A -> handler B) (F : A -> nat -> Prop) E R :
  timed lo m F -> (forall a hi, (lo <= hi)%nat -> F a hi -> triple (since hi) (k a) E R) ->
  triple (since lo) (x ← call m; k x) E R.
Proof.
  intros Hm Hk g Hg. specialize (Hm g Hg). unfold mbind, handler_bind, call. destruct (m g) as [a g1]. cbn [fst snd] in Hm.
  destruct Hm as [HF Hlo]. by apply (Hk a (now_tick g1) Hlo HF g1 (le_n _)).
Qed.

Lemma sent_ask {A} (f : nat -> A) : keeps sent (ask f). Proof. done. Qed.
Lemma ask_answer P {A} (f : nat -> A) : act_triple P (ask f) (fun a _ => exists n, a = f n).
Proof. apply act_ask. eauto. Qed.
Lemma sent_store {A} (f : time -> faults -> db -> A * db) : keeps sent (store_call f).
Proof. intros g. unfold store_call. by destruct (f _ _ _). Qed.
Lemma sent_guarded {A} (m : W A) : keeps sent (guarded_call m).
Proof. intros g. unfold guarded_call. by destruct (m _ _). Qed.
End calls.

Create HintDb keeps.
#[export] Hint Resolve keeps_mret sent_ask sent_store sent_guarded : keeps.
#[export] Hint Extern 2 (keeps _ (_ ≫= _)) => apply kept_by_bind; [|intros ?] : keeps.
#[export] Hint Extern 3 (keeps _ (match ?x with _ => _ end)) => destruct x : keeps.
#[export] Hint Extern 3 (keeps _ (let '(_, _) := ?x in _)) => destruct x : keeps.

(** The next construct of a handler.  Calls are left to the caller, who knows
    what holds after them. *)
Ltac t_step :=
  match goal with
  | |- triple (fun g => _ /\ _) _ _ _ => apply t_pure; intros ?
  | |- triple _ (_ ← refuse_if _ _; _) _ _ => apply t_refuse; intros ?
  | |- triple _ (answer _) _ _ => apply t_answer
  | |- triple _ (mret _) _ _ => apply t_mret
  | |- triple _ (match ?x with _ => _ end) _ _ => destruct x eqn:?
  | |- triple _ (let '(_, _) := ?x in _) _ _ => destruct x eqn:?
  end.
