(* ===== verification/Mock.v ===== *)
(** Concrete services, wallets and a gateway, for the witnesses of the theorems
    about the public API. *)
From Stdlib Require Import SpecFloat.
From S2P Require Import Prelude Tx GoString GoTime Sha256 Json Domain Database Config Wallets Installation Guarded Lifecycle Access Effects Http Gateway.

Definition mock_hash : string := "00000000000000000000000000000000000000000000000000000000000000bb".
Definition mock_epoch : string := "00000000000000000000000000000000000000000000000000000000000000ee".

Definition mock_tip : NodeTip :=
  {| tip_Network := NodeChain Mainnet; tip_Height := 120; tip_Hash := mock_hash; tip_BlockTime := 0;
     tip_Headers := 120; tip_InitialBlockDownload := false;
     tip_VerificationProgress := S754_finite false 4503599627370496 (-52) |}.

Definition mock_health : ScannerHealth :=
  {| health_Status := "ok"; health_Network := network_string Mainnet; health_UAHRP := AddressHRP Mainnet;
     health_Confirmations := Some (DefaultConfirmations demo_cfg); health_EventEpoch := mock_epoch;
     health_Ready := Some true; health_NodeHeight := Some 120; health_ScannedHeight := Some 119;
     health_ScannedHash := mock_hash; health_ScannerLag := Some 1; health_MaxReadyLag := None;
     health_HistoryComplete := Some true; health_PendingSpendsReady := Some true |}.

Definition mock_backfill (id : string) : option BackfillStatus :=
  w ← list_find (fun w => Config.WalletID w = id) (Config.Wallets demo_cfg);
  Some {| bf_WalletID := id; bf_UFVKFingerprint := UFVKFingerprint w.2;
          bf_BirthdayHeight := Config.BirthdayHeight w.2; bf_NextHeight := 120; bf_TargetHeight := 119;
          bf_State := "complete"; bf_UpdatedAt := 0 |}.

(** The scanner's pages over a log of events. *)
Definition page_after (log : list ScannerEvent) (position limit : Z) : EventsPage :=
  let rest := take (Z.to_nat limit) (filter (fun e => position < se_ID e) log) in
  {| ep_EventEpoch := mock_epoch; ep_Events := rest;
     ep_NextCursor := match last rest with Some e => se_ID e | None => position end |}.

(** A deposit event of the wallet: its id and action, and the address. *)
Definition mock_event (id action : Z) (address : string) : ScannerEvent :=
  {| se_ID := id; se_Kind := "DepositConfirmed"; se_Height := 109; se_CreatedAt := 5;
     se_Payload := dq ("{'version':'v1','wallet_id':'hot','txid':'" +:+ demo_txid +:+ "','height':100,"
       +:+ "'action_index':" +:+ pretty action +:+ ",'diversifier_index':3,'amount_zatoshis':500,'origin':'external',"
       +:+ "'recipient_address':'" +:+ address +:+ "','confirmed_height':109,'required_confirmations':10,"
       +:+ "'status':{'state':'confirmed','height':100,'confirmations':10}}") |}.

(** Two deposits to the wallet's address, and one between them to another. *)
Definition mock_log : list ScannerEvent :=
  [mock_event 7 2 "j1abc"; mock_event 9 0 "j1other"; mock_event 12 5 "j1abc"].

Definition mock_note : string := demo_txid +:+ ":0".
Definition mock_statuses : WalletNoteStatuses :=
  {| wns_WalletID := "hot"; wns_EventEpoch := mock_epoch; wns_AsOfScannerHeight := 119;
     wns_AsOfScannerHash := mock_hash;
     wns_Statuses :=
       [{| ns_NoteID := mock_note; ns_State := NoteUnspent; ns_SourceHeight := Some 100; ns_ValueZat := Some 500;
           ns_PendingSpentTxID := None; ns_PendingSpentAt := None; ns_PendingSpentExpiryHeight := None;
           ns_SpentTxID := None; ns_SpentHeight := None; ns_SpentConfirmedHeight := None |}] |}.

(** Healthy services: [known] is what the node has of a transaction, [log] the
    scanner's events, and the stores are only written by the gateway itself. *)
Definition mock (known : option Transaction) (log : list ScannerEvent) : Upstreams := {|
  meanwhile _ w := w;
  outcome := good_env;
  store_Ping _ := Ok tt;
  node_Tip _ := Ok mock_tip;
  node_BlockHash _ _ := Ok mock_hash;
  node_DecodeRawTransaction _ _ := Ok demo_txid;
  node_Transaction _ _ _ := Ok known;
  node_Broadcast _ _ := Ok demo_txid;
  scanner_Health _ := Ok mock_health;
  scanner_UpsertWallet _ _ _ _ := Ok tt;
  scanner_BackfillStatus _ id := Ok (mock_backfill id);
  scanner_Backfill _ _ tip _ := Ok (tip + 1);
  scanner_Balance _ _ _ _ _ := Ok None;
  scanner_NoteSummary _ _ _ _ _ := Ok None;
  scanner_NoteStatuses _ _ _ := Ok (Some mock_statuses);
  scanner_Events _ _ position limit _ := Ok (page_after log position limit);
  deriver_Derive _ ufvk i := Ok (demo_address ufvk i);
  map_range _ l := l;
  map_range_perm _ l := Permutation_refl l;
  heartbeats _ := [];
  parent_done _ := None
|}.

(** A gateway over the stores that [Initialize] left, with one address. *)
Definition mock_stores : Guarded.world :=
  with_tables init_run.2
    (AllocateAddressAt "hot" 3 "deposits" (Some (fun _ => Ok "j1abc"%string)) 7 [] (tables init_run.2)).2.

Definition mock_gateway : gateway :=
  {| stores := mock_stores; registered := {["hot"%string := true; "cold"%string := true]};
     readLimit := newLimiter (ReadRate demo_cfg); broadcastLimit := newLimiter (BroadcastRate demo_cfg);
     sent := []; lease := {| stop_err := None; finished := true |} |}.

Definition mock_wallets : gmap string Config.Wallet :=
  list_to_map (map (fun w => (Config.WalletID w, w)) (Config.Wallets demo_cfg)).

Definition mock_broadcast : request :=
  mock_request "POST" "/v1/transactions/broadcast"
    [mock_bearer; ("Idempotency-Key", "withdrawal-1"); ("Content-Type", "application/json")]%string
    (dq ("{'wallet_id':'hot','raw_tx_hex':'00ff','expected_txid':'" +:+ demo_txid +:+ "'}")).

Definition mock_principal : principal :=
  principal_of (List.hd demo_credential (Config.Credentials demo_cfg)).
