(* ===== verification/Registry.v ===== *)
(** The wallet registry of [internal/api/registry.go]: which wallets the gateway
    serves, their registration with the scanner, and their backfill. *)
From S2P Require Import Prelude Tx GoString GoTime Sha256 Domain Database Config Wallets Installation Guarded Access Effects Http Gateway.

Section registry.
Context `{Upstreams} (cfg : Config.Config) (ledger : Identity).

Definition network_name : string := network_string (Config.Network cfg).

(** * Startup *)

(** The check of one configured wallet against the scanner, before it is
    registered in the gateway's tables. *)
Definition verify_wallet (wallet : Config.Wallet) (stored : option Database.Wallet) : act (result unit) :=
  let id := Config.WalletID wallet in
  match stored with
  | None =>
      status ← ask (fun n => scanner_BackfillStatus n id);
      mret (match status with
            | Err e => Err (Wrap ("verify fresh gateway wallet " +:+ id +:+ " against scanner") e)
            | Ok (Some _) => Err (New ("gateway state is missing wallet " +:+ quote id
                +:+ " while scanner state retains it; restore the gateway backup to prevent address reuse"))
            | Ok None => Ok tt
            end)
  | Some stored =>
      if String.eqb (Wallet_UFVKFingerprint stored) "" then
        status ← ask (fun n => scanner_BackfillStatus n id);
        mret (match status with
              | Err e => Err (Wrap ("verify legacy wallet " +:+ id +:+ " UFVK binding") e)
              | Ok status =>
                  if set_and status (fun s => String.eqb (bf_UFVKFingerprint s) (UFVKFingerprint wallet))
                  then Ok tt
                  else Err (New ("legacy gateway wallet " +:+ quote id
                         +:+ " UFVK binding cannot be verified; restore matching scanner state before migration"))
              end)
      else mret (Ok tt)
  end.

Definition register_wallet (wallet : Config.Wallet) : act (result unit) :=
  let id := Config.WalletID wallet in
  stored ← store_call (fun _ => lookup_wallet id);
  match stored with
  | Err e => mret (Err e)
  | Ok stored =>
      verified ← verify_wallet wallet stored;
      match verified with
      | Err e => mret (Err e)
      | Ok _ => store_call (EnsureWallet id network_name (UFVKFingerprint wallet) (Config.BirthdayHeight wallet))
      end
  end.

Fixpoint register_wallets (known : gmap string Config.Wallet) (l : list Config.Wallet)
    : act (result (gmap string Config.Wallet)) :=
  match l with
  | [] => mret (Ok known)
  | wallet :: rest =>
      r ← register_wallet wallet;
      match r with
      | Err e => mret (Err e)
      | Ok _ => register_wallets (<[Config.WalletID wallet := wallet]> known) rest
      end
  end.

(** The registry's wallet map; nothing is registered with the scanner yet. *)
Definition newWalletRegistry : act (result (gmap string Config.Wallet)) := register_wallets ∅ (Config.Wallets cfg).

(** * The running registry *)

Context (wallets : gmap string Config.Wallet).

Definition known (walletID : string) : option Config.Wallet := wallets !! walletID.

(** [for walletID, configured := range r.wallets]. *)
Definition range_wallets : act (list (string * Config.Wallet)) :=
  ask (fun n => map_range n (map_to_list wallets)).

Definition set_registered_flag (walletID : string) (b : bool) : act unit := fun g =>
  (tt, set_registered g (<[walletID := b]> (registered g))).

Fixpoint sync_loop (l : list (string * Config.Wallet)) : act (list error) :=
  match l with
  | [] => mret []
  | (_, wallet) :: rest =>
      let id := Config.WalletID wallet in
      r ← ask (fun n => scanner_UpsertWallet n id (UFVK wallet) (Config.BirthdayHeight wallet));
      match r with
      | Err e => _ ← set_registered_flag id false; errs ← sync_loop rest;
                 mret (Wrap ("wallet " +:+ id) e :: errs)
      | Ok _ => _ ← set_registered_flag id true; sync_loop rest
      end
  end.

(** The errors that [errors.Join] joins. *)
Definition sync : act (list error) := l ← range_wallets; sync_loop l.

Definition all_registered : act bool := fun g =>
  (forallb (fun id => default false (registered g !! id)) (map fst (map_to_list wallets)), g).

Definition identity_matches (status : BackfillStatus) (configured : Config.Wallet) : bool :=
  String.eqb (bf_UFVKFingerprint status) (UFVKFingerprint configured)
  && (bf_BirthdayHeight status =? Config.BirthdayHeight configured).

Fixpoint complete_loop (height : Z) (l : list (string * Config.Wallet)) : act (result bool) :=
  match l with
  | [] => mret (Ok true)
  | (walletID, configured) :: rest =>
      status ← ask (fun n => scanner_BackfillStatus n walletID);
      match status with
      | Err e => mret (Err e)
      | Ok None => mret (Ok false)
      | Ok (Some status) =>
          if negb (identity_matches status configured) then mret (Ok false)
          else
            saved ← store_call (fun _ => SetBackfillProgress walletID (bf_NextHeight status));
            match saved with
            | Err e => mret (Err e)
            | Ok _ => if negb (String.eqb (bf_State status) "complete") || (bf_NextHeight status <=? height)
                      then mret (Ok false) else complete_loop height rest
            end
      end
  end.

Definition completeThrough (height : Z) : act (result bool) :=
  ready ← all_registered;
  if negb ready then mret (Ok false) else l ← range_wallets; complete_loop height l.

(** * Backfill *)

Record candidate := { cd_walletID : string; cd_status : BackfillStatus; cd_remaining : Z }.

(** [sort.Strings] of the wallet ids, with their wallets. *)
Definition sorted_wallets : list (string * Config.Wallet) :=
  order_by fst (map_to_list wallets).

Definition remaining_blocks (tipHeight : Z) (status : BackfillStatus) : Z :=
  Z.max (add64 (sub64 tipHeight (bf_NextHeight status)) 1) 1.

Fixpoint collect_candidates (tipHeight : Z) (l : list (string * Config.Wallet)) : act (result (list candidate)) :=
  match l with
  | [] => mret (Ok [])
  | (walletID, configured) :: rest =>
      status ← ask (fun n => scanner_BackfillStatus n walletID);
      match status with
      | Err e => mret (Err e)
      | Ok None => mret (Err (New "registered wallet missing from scanner state"))
      | Ok (Some status) =>
          if negb (identity_matches status configured)
          then mret (Err (New "scanner wallet identity does not match gateway configuration"))
          else
            saved ← store_call (fun _ => SetBackfillProgress walletID (bf_NextHeight status));
            match saved with
            | Err e => mret (Err e)
            | Ok _ =>
                others ← collect_candidates tipHeight rest;
                mret (others ← others;
                      Ok (if String.eqb (bf_State status) "complete" && (tipHeight <? bf_NextHeight status)
                          then others
                          else {| cd_walletID := walletID; cd_status := status;
                                  cd_remaining := remaining_blocks tipHeight status |} :: others))
            end
      end
  end.

(** The first candidate in the order of [sort.Slice]: the one with most blocks
    to go, the smaller id first. *)
Definition more_urgent (a b : candidate) : bool :=
  (cd_remaining b <? cd_remaining a)
  || (cd_remaining a =? cd_remaining b) && String.ltb (cd_walletID a) (cd_walletID b).

Definition select (first : candidate) (l : list candidate) : candidate :=
  foldl (fun best c => if more_urgent c best then c else best) first l.

Definition backfillOne (tipHeight batchSize : Z) : act (result bool) :=
  if batchSize <? 1 then mret (Err (New "wallet backfill batch size must be positive"))
  else
    candidates ← collect_candidates tipHeight sorted_wallets;
    match candidates with
    | Err e => mret (Err e)
    | Ok [] => mret (Ok false)
    | Ok (c :: rest) =>
        let selected := select c rest in
        let id := cd_walletID selected in
        let from := bf_NextHeight (cd_status selected) in
        next ← ask (fun n => scanner_Backfill n id tipHeight (Z.min batchSize (cd_remaining selected)));
        match next with
        | Err e => mret (Err (Wrap ("wallet " +:+ id +:+ " backfill") e))
        | Ok next =>
            if (from <=? tipHeight) && (next <=? from)
            then mret (Err (New "scanner wallet backfill did not advance"))
            else
              saved ← store_call (fun _ => SetBackfillProgress id next);
              mret (_ ← saved; Ok true)
        end
    end.

(** * Allocation *)

Definition derive_for (wallet : Config.Wallet) (n : nat) : DeriveFunc := fun index =>
  address ← deriver_Derive n (UFVK wallet) index;
  if negb (HasPrefix address (AddressHRP (Config.Network cfg) +:+ "1"))
  then Err (New "derived address has wrong network") else Ok address.

Definition allocate (walletID label : string) : act (result Address) :=
  match known walletID with
  | None => mret (Err (New "unknown wallet"))
  | Some wallet =>
      derive ← ask (fun n => derive_for wallet n);
      guarded_call (AllocateAddress ledger walletID label (Some derive))
  end.
End registry.
