(* ===== verification/Readiness.v ===== *)
(** When the gateway serves: [checkReady], [readyNode] and [validateNodeTip] of
    [internal/api/api.go]. *)
From Stdlib Require Import SpecFloat.
From S2P Require Import Prelude Tx GoString GoTime Sha256 Domain Database Config Wallets Installation Guarded Access Effects Http Gateway Registry.

Section readiness.
Context `{Upstreams} (cfg : Config.Config) (wallets : gmap string Config.Wallet).

Definition is_nan (f : float) : bool := match f with S754_nan => true | _ => false end.
Definition is_inf (f : float) : bool := match f with S754_infinity _ => true | _ => false end.

Definition validateNodeTip (tip : NodeTip) : result unit :=
  let p := tip_VerificationProgress tip in
  guard_not
    (negb (String.eqb (tip_Network tip) (NodeChain (Config.Network cfg))) || (tip_Height tip <? 0)
     || negb (txIDPattern (tip_Hash tip)) || (tip_Headers tip <? tip_Height tip)
     || is_nan p || is_inf p || SFltb p (float_of 0) || SFltb (float_of 1) p)
    (New "node returned an invalid tip for the configured network").

Definition readyNode : act (result NodeTip) :=
  tip ← ask node_Tip;
  mret (tip ← tip;
        if negb (is_ok (validateNodeTip tip)) || tip_InitialBlockDownload tip
        then Err (New "node is not ready for configured network") else Ok tip).

(** The conditions on the scanner's answer before the node is asked again. *)
Definition scanner_checks (tip : NodeTip) (health : ScannerHealth) : list (bool * string) :=
  [(negb (EqualFold (health_Status health) "ok") || is_none (health_ScannedHeight health),
    "scanner has no indexed tip");
   (String.eqb (health_Network health) "" || negb (String.eqb (health_Network health) (network_name cfg))
    || String.eqb (health_UAHRP health) ""
    || negb (String.eqb (health_UAHRP health) (AddressHRP (Config.Network cfg))),
    "scanner network does not match gateway configuration");
   (negb (set_and (health_Confirmations health) (fun c => (0 <? c) && (c =? DefaultConfirmations cfg))%Z),
    "scanner confirmation policy does not match gateway configuration");
   (negb (set_and (health_ScannedHeight health) (fun h => (0 <=? h) && (h <=? tip_Height tip))%Z)
    || negb (txIDPattern (health_ScannedHash health)),
    "scanner indexed tip is invalid");
   (negb (lower_hex64 (health_EventEpoch health)), "scanner event epoch is invalid")]%string.

(** The conditions after the node has named the block at the scanner's height. *)
Definition chain_checks (tip : NodeTip) (health : ScannerHealth) (nodeScannedHash : string)
    : list (bool * string) :=
  let lag := sub64 (tip_Height tip) (default 0 (health_ScannedHeight health)) in
  [(negb (String.eqb (health_ScannedHash health) nodeScannedHash),
    "scanner indexed tip does not match node chain");
   (negb (default false (health_Ready health)), "scanner reports not ready");
   (is_none (health_PendingSpendsReady health), "scanner cannot attest pending spend reconciliation");
   (negb (default false (health_PendingSpendsReady health)),
    "scanner pending spend reconciliation is incomplete");
   (RequireCompleteHistory cfg && is_none (health_HistoryComplete health),
    "scanner cannot attest complete history");
   (RequireCompleteHistory cfg && negb (default false (health_HistoryComplete health)),
    "scanner history is incomplete");
   ((MaxScannerLag cfg <? lag)%Z, "scanner lag exceeds configured maximum");
   (negb (set_and (health_ScannerLag health) (fun l => (0 <=? l) && (l =? lag))%Z),
    "scanner lag does not match node-derived lag")]%string.

(** The error with its public code, or the readiness. *)
Definition unready : Type := string * error.

Definition checks (l : list (bool * string)) : unready + unit :=
  match guards l with Ok _ => inr tt | Err e => inl ("scanner_not_ready"%string, e) end.

Definition checkReady : act (unready + readiness) :=
  pong ← ask store_Ping;
  match pong with
  | Err e => mret (inl ("gateway_state_not_ready"%string, e))
  | Ok _ =>
      node ← readyNode;
      match node with
      | Err e => mret (inl ("node_not_ready"%string, e))
      | Ok tip =>
          answer ← ask scanner_Health;
          match answer with
          | Err e => mret (inl ("scanner_not_ready"%string, e))
          | Ok health =>
              match checks (scanner_checks tip health) with
              | inl u => mret (inl u)
              | inr _ =>
                  let height := default 0 (health_ScannedHeight health) in
                  hash ← ask (fun n => node_BlockHash n height);
                  match hash with
                  | Err e => mret (inl ("node_not_ready"%string, e))
                  | Ok hash =>
                      match checks (chain_checks tip health hash) with
                      | inl u => mret (inl u)
                      | inr _ =>
                          complete ← completeThrough wallets height;
                          mret (match complete with
                                | Err e =>
                                    inl (if IsUpstreamKind e "unavailable" || IsUpstreamKind e "invalid_response"
                                         then "scanner_not_ready"%string else "gateway_state_not_ready"%string, e)
                                | Ok false => inl ("scanner_not_ready"%string,
                                                   New "registered wallet history is incomplete")
                                | Ok true =>
                                    inr {| rd_Network := Config.Network cfg; rd_Node := tip;
                                           rd_Scanner := health;
                                           rd_ScannerLag := sub64 (tip_Height tip) height;
                                           rd_MaxScannerLag := MaxScannerLag cfg |}
                                end)
                      end
                  end
              end
          end
      end
  end.

(** [if ..., code, err := a.checkReady(...); err != nil { writeError ...; return }]. *)
Definition require_ready (message : string) : handler readiness :=
  ready ← call checkReady;
  match ready with
  | inl (code, _) => answer (writeError 503 code message true [])
  | inr r => mret r
  end.
End readiness.
