(* ===== verification/Serving.v ===== *)
(** What a gateway that is ready has established ([checkReady]), what a wallet
    registry is opened on ([newWalletRegistry]), and how backfill proceeds
    ([backfillOne]). *)
From Stdlib Require Import SpecFloat.
From S2P Require Import Prelude Tx GoString GoTime Sha256 Json Domain Database Config Wallets Installation Guarded Lifecycle Access Effects Http Gateway Triple Mock Registry Readiness.

Section serving.
Context `{Upstreams} (cfg : Config.Config) (wallets : gmap string Config.Wallet).

(** * Readiness *)

(** Each says which calls it was learnt from: those from number [lo] on and before
    number [hi]. *)

(** The scanner has the wallet, as configured, and all of its history up to the
    height. *)
Definition history_complete (lo hi : nat) (height : Z) (id : string) (w : Config.Wallet) : Prop :=
  exists s, answered lo hi (fun n => scanner_BackfillStatus n id) (Ok (Some s)) /\ identity_matches s w = true /\
    bf_State s = "complete"%string /\ height < bf_NextHeight s.

Definition node_attested (lo hi : nat) (tip : NodeTip) : Prop :=
  answered lo hi node_Tip (Ok tip) /\ tip_Network tip = NodeChain (Config.Network cfg) /\
  0 <= tip_Height tip <= tip_Headers tip /\ txIDPattern (tip_Hash tip) = true /\
  tip_InitialBlockDownload tip = false.

Definition scanner_attested (lo hi : nat) (tip : NodeTip) (health : ScannerHealth) (height : Z) : Prop :=
  answered lo hi scanner_Health (Ok health) /\ health_ScannedHeight health = Some height /\
  0 <= height <= tip_Height tip /\
  answered lo hi (fun n => node_BlockHash n height) (Ok (health_ScannedHash health)) /\
  health_Network health = network_name cfg /\ health_UAHRP health = AddressHRP (Config.Network cfg) /\
  health_Confirmations health = Some (DefaultConfirmations cfg) /\ 0 < DefaultConfirmations cfg /\
  lower_hex64 (health_EventEpoch health) = true /\ health_Ready health = Some true /\
  health_PendingSpendsReady health = Some true /\
  (RequireCompleteHistory cfg = true -> health_HistoryComplete health = Some true).

Definition serves (lo hi : nat) (rd : readiness) : Prop :=
  exists height, rd_Network rd = Config.Network cfg /\ node_attested lo hi (rd_Node rd) /\
    scanner_attested lo hi (rd_Node rd) (rd_Scanner rd) height /\
    (int64 (tip_Height (rd_Node rd)) -> rd_ScannerLag rd = tip_Height (rd_Node rd) - height) /\
    health_ScannerLag (rd_Scanner rd) = Some (rd_ScannerLag rd) /\ rd_ScannerLag rd <= MaxScannerLag cfg /\
    (forall id w, wallets !! id = Some w -> history_complete lo hi height id w).

Lemma history_widen lo hi lo' hi' height id w : history_complete lo hi height id w -> (lo' <= lo)%nat -> (hi <= hi')%nat ->
  history_complete lo' hi' height id w.
Proof. intros (s & Ha & Hs) ? ?. exists s. split; [by eapply answered_widen|done]. Qed.

Lemma serves_widen lo hi lo' hi' rd : serves lo hi rd -> (lo' <= lo)%nat -> (hi <= hi')%nat -> serves lo' hi' rd.
Proof.
  intros (height & Hn & (Ht & Hnode) & (Hh & Hs & Hr & Hb & Hscan) & Hl & Hsl & Hm & Hw) Hlo Hhi. exists height.
  split_and!; try done.
  - split; [by eapply answered_widen|done].
  - split; [by eapply answered_widen|]. split; [done|]. split; [done|]. split; [by eapply answered_widen|done].
  - intros id w Hid. eapply history_widen; [by apply Hw|done..].
Qed.

Lemma validateNodeTip_ok tip :
  is_ok (validateNodeTip cfg tip) = true ->
  tip_Network tip = NodeChain (Config.Network cfg) /\ 0 <= tip_Height tip <= tip_Headers tip /\
  txIDPattern (tip_Hash tip) = true.
Proof. unfold validateNodeTip, guard_not. case_match; [done|]. intros _. bool_to_prop. split_and!; auto; lia. Qed.

Lemma readyNode_ok lo : timed lo (readyNode cfg) (fun r hi => forall tip, r = Ok tip -> node_attested lo hi tip).
Proof.
  unfold readyNode. eapply timed_bind; [apply timed_ask|intros r hi _ Hr]. apply timed_ret. intros hi' Hhi tip Ht.
  destruct r as [t|]; cbn in Ht; [|done]. case_match eqn:Hc; [done|]. injection Ht as <-.
  apply orb_false_iff in Hc as [Hv Hi]. apply negb_false_iff, validateNodeTip_ok in Hv as (? & ? & ?).
  split_and!; [by eapply answered_widen|done|lia..|done|done].
Qed.

Lemma checks_ok l u : checks l = inr u -> Forall (fun p => p.1 = false) l.
Proof. unfold checks. case_match eqn:Hg; [|done]. intros _. apply guards_ok. by destruct a. Qed.

Lemma complete_loop_ok lo height l :
  timed lo (complete_loop height l) (fun r hi => r = Ok true -> Forall (fun p => history_complete lo hi height p.1 p.2) l).
Proof.
  revert lo. induction l as [|[id w] l IH]; intros lo; cbn [complete_loop].
  { apply timed_ret. by constructor. }
  eapply timed_bind; [apply timed_ask|intros [[s|]|e] h1 Hh1 Hs]; [|by apply timed_ret..].
  destruct (identity_matches s w) eqn:Hid; cbn [negb]; [|by apply timed_ret].
  eapply timed_bind; [apply timed_store|intros [u|e] h2 Hh2 _]; [|by apply timed_ret].
  destruct (negb (String.eqb (bf_State s) "complete") || (bf_NextHeight s <=? height)) eqn:Hc; [by apply timed_ret|].
  eapply act_post; [apply IH|]. intros r g [Hr Hlo] . unfold since in *. split; [|lia]. intros Hok. constructor.
  - cbn. bool_to_prop. exists s. split_and!; [|done|done|lia]. eapply answered_widen; [done|lia|lia].
  - eapply Forall_impl; [by apply Hr|]. intros p Hp. eapply history_widen; [exact Hp|lia|lia].
Qed.

Lemma timed_registered lo : timed lo (all_registered wallets) (fun _ _ => True).
Proof. by intros g Hg. Qed.

Lemma completeThrough_ok lo height :
  timed lo (completeThrough wallets height) (fun r hi => r = Ok true ->
    forall id w, wallets !! id = Some w -> history_complete lo hi height id w).
Proof.
  unfold completeThrough. eapply timed_bind; [apply timed_registered|intros [|] h1 Hh1 _]; cbn [negb]; [|by apply timed_ret].
  eapply timed_bind; [apply timed_ask|intros l h2 Hh2 (n & _ & Hl)].
  eapply act_post; [apply complete_loop_ok|]. intros r g [Hr Hlo]. unfold since in *. split; [|lia]. intros Hok id w Hw.
  specialize (Hr Hok). rewrite Forall_forall in Hr. eapply (history_widen h2); [apply (Hr (id, w))|lia|done].
  rewrite <- Hl, map_range_perm. by apply elem_of_map_to_list.
Qed.

Lemma scanner_checks_ok lo hi tip health height :
  Forall (fun p => p.1 = false) (scanner_checks cfg tip health) -> answered lo hi scanner_Health (Ok health) ->
  health_ScannedHeight health = Some height -> answered lo hi (fun n => node_BlockHash n height) (Ok (health_ScannedHash health)) ->
  health_Ready health = Some true -> health_PendingSpendsReady health = Some true ->
  (RequireCompleteHistory cfg = true -> health_HistoryComplete health = Some true) ->
  scanner_attested lo hi tip health height.
Proof.
  intros Hc Hh Hs Hb Hr Hp Hf. unfold scanner_checks in Hc. rewrite !Forall_cons in Hc. cbn in Hc.
  destruct Hc as (_ & Hnet & Hconf & Hheight & Hep & _). rewrite Hs in Hheight. cbn in Hheight.
  destruct (health_Confirmations health) as [c|] eqn:Hcs; cbn in Hconf; [|done].
  bool_to_prop. subst. unfold scanner_attested. rewrite Hcs.
  split_and!; eauto; try lia; f_equal; lia.
Qed.

Lemma checkReady_serves lo : timed lo (checkReady cfg wallets) (fun r hi => forall rd, r = inr rd -> serves lo hi rd).
Proof.
  unfold checkReady. eapply timed_bind; [apply timed_ask|intros [u|e] h0 Hh0 _]; [|by apply timed_ret].
  eapply timed_bind; [apply readyNode_ok|intros [tip|e] h1 Hh1 Htip]; [|by apply timed_ret]. specialize (Htip tip eq_refl).
  eapply timed_bind; [apply timed_ask|intros [health|e] h2 Hh2 Hn]; [|by apply timed_ret].
  destruct (checks (scanner_checks cfg tip health)) as [|u1] eqn:Hc1; [by apply timed_ret|].
  apply checks_ok in Hc1. cbv zeta.
  destruct (health_ScannedHeight health) as [height|] eqn:Hheight; cbn [default]; cycle 1.
  { unfold scanner_checks in Hc1. rewrite Forall_cons, Hheight in Hc1. destruct Hc1 as [Hc1 _].
    cbn in Hc1. by rewrite orb_true_r in Hc1. }
  eapply timed_bind; [apply timed_ask|intros [hash|e] h3 Hh3 Hn']; [|by apply timed_ret].
  destruct (checks (chain_checks cfg tip health hash)) as [|u2] eqn:Hc2; [by apply timed_ret|].
  apply checks_ok in Hc2. unfold chain_checks in Hc2. rewrite !Forall_cons, Hheight in Hc2. cbn in Hc2.
  destruct Hc2 as (Hhash & Hready & _ & Hpend & _ & Hhist & Hlag & Hslag & _).
  eapply timed_bind; [apply completeThrough_ok|intros [[|]|e] h4 Hh4 Hcomplete]; apply timed_ret; try done.
  intros h5 Hh5 rd [= <-]. exists height. cbn [rd_Network rd_Node rd_Scanner rd_ScannerLag].
  destruct (health_ScannerLag health) as [slag|]; cbn in Hslag; [|done].
  bool_to_prop. subst hash.
  destruct (health_Ready health) as [[|]|] eqn:Hr; try done.
  destruct (health_PendingSpendsReady health) as [[|]|] eqn:Hp; try done.
  assert (Hatt : scanner_attested lo h5 tip health height).
  { apply scanner_checks_ok; try done; [by eapply answered_widen; [exact Hn|lia..]|by eapply answered_widen; [exact Hn'|lia..]|].
    intros Hq. rewrite Hq in Hhist. cbn in Hhist. by destruct (health_HistoryComplete health) as [[|]|]. }
  pose proof Hatt as (_ & _ & Hrange & _). destruct Htip as [Ht Htip].
  split_and!; try done; [split; [by eapply answered_widen; [exact Ht|lia..]|done]| |by f_equal; lia|].
  - intros Hint. rewrite sub64_id; [done|]. width. lia.
  - intros id w Hw. eapply history_widen; [by apply Hcomplete|lia|lia].
Qed.

(** C35: when the gateway says that it is ready, the node answered this check with a
    tip of the configured network, out of its initial download; the scanner follows
    that node's chain (the block it has indexed is the node's at that height), with
    the configured network, confirmations and history, and no further behind than the
    configured lag; and the scanner has every configured wallet, under the
    configured key and birthday, with its history complete beyond the indexed
    block.  All of these answers were given to calls of this check. *)
Theorem checkReady_attests g rd g' :
  checkReady cfg wallets g = (inr rd, g') -> let lo := now_tick g in let hi := now_tick g' in
  exists height, rd_Network rd = Config.Network cfg /\ node_attested lo hi (rd_Node rd) /\
    scanner_attested lo hi (rd_Node rd) (rd_Scanner rd) height /\
    (int64 (tip_Height (rd_Node rd)) -> rd_ScannerLag rd = tip_Height (rd_Node rd) - height) /\
    health_ScannerLag (rd_Scanner rd) = Some (rd_ScannerLag rd) /\ rd_ScannerLag rd <= MaxScannerLag cfg /\
    (forall id w, wallets !! id = Some w -> history_complete lo hi height id w).
Proof.
  intros Hrun. destruct (checkReady_serves (now_tick g) g (le_n _)) as [Hs _]. rewrite Hrun in Hs. by apply Hs.
Qed.

(** * The registry *)

(** When the turn of a wallet comes, in [g]: the tables that the next call meets have
    it under a key of theirs; or without a key, and then the scanner says to the call
    after it that it has the wallet under the configured key; or they do not have it,
    and then the scanner says that it does not have it either. *)
Definition wallet_verified (g : gateway) (w : Config.Wallet) : Prop :=
  let n := now_tick g in let id := Config.WalletID w in
  match db_wallets (tables (meanwhile n (stores g))) !! id with
  | None => scanner_BackfillStatus (Datatypes.S n) id = Ok None
  | Some row => default "" (w_ufvk_fingerprint row) = "" -> exists s,
      scanner_BackfillStatus (Datatypes.S n) id = Ok (Some s) /\ bf_UFVKFingerprint s = UFVKFingerprint w
  end.

(** After it, the tables have the wallet as it is configured. *)
Definition wallet_opened (g : gateway) (w : Config.Wallet) : Prop :=
  exists row, db_wallets (tables (stores g)) !! Config.WalletID w = Some row /\ w_network row = network_name cfg /\
    w_ufvk_fingerprint row = Some (UFVKFingerprint w) /\ w_birthday_height row = Config.BirthdayHeight w.

Lemma lookup_wallet_ok id io d stored d' : lookup_wallet id io d = (Ok stored, d') ->
  d' = d /\ stored = wallet_of id <$> db_wallets d !! id.
Proof.
  unfold lookup_wallet. intros [(_ & e & [=])|(x & io2 & [= <-] & Hq)]%run_auto_cases.
  apply query_opt_ok in Hq as [-> Hq]. split; [done|]. unfold row_of in Hq.
  destruct (db_wallets d !! id) as [row|], stored as [stored|]; cbn in Hq; [by injection Hq as <-|by destruct Hq as (e & [=] & _)|done..].
Qed.

Lemma register_wallet_ok w g g' : register_wallet cfg w g = (Ok tt, g') -> wallet_verified g w /\ wallet_opened g' w.
Proof.
  unfold register_wallet, mbind, act_bind, wallet_verified, store_call.
  set (id := Config.WalletID w). set (n := now_tick g). set (v := meanwhile n (stores g)).
  destruct (lookup_wallet id _ (tables v)) as [[stored|e] d] eqn:Hl; [|done]. apply lookup_wallet_ok in Hl as [-> ->].
  set (g1 := set_stores g _). assert (Hn : now_tick g1 = Datatypes.S n) by done.
  destruct (verify_wallet w (wallet_of id <$> db_wallets (tables v) !! id) g1) as [[u|e] g2] eqn:Hv; [|done]. cbn [fst snd].
  intros He. split.
  - clear He. unfold verify_wallet in Hv. fold id in Hv.
    destruct (db_wallets (tables v) !! id) as [row|]; cbn [fmap option_fmap option_map] in Hv.
    + intros Hfp. change (Wallet_UFVKFingerprint (wallet_of id row)) with (default "" (w_ufvk_fingerprint row)) in Hv.
      rewrite Hfp in Hv. cbn [String.eqb] in Hv. unfold ask, mbind, act_bind in Hv. rewrite Hn in Hv.
      destruct (scanner_BackfillStatus _ id) as [[s|]|e]; cbn in Hv; try done.
      destruct (String.eqb_spec (bf_UFVKFingerprint s) (UFVKFingerprint w)) as [Heq|]; [|done]. by exists s.
    + unfold ask, mbind, act_bind in Hv. rewrite Hn in Hv. by destruct (scanner_BackfillStatus _ id) as [[s|]|e].
  - destruct (EnsureWallet _ _ _ _ _ _ _) as [[[]|e] d'] eqn:Hens; [|done]. injection He as <-.
    apply EnsureWallet_registers in Hens as (row & -> & Hnet & Hfp & Hrow). exists row. cbn.
    split; [by rewrite lookup_insert_eq|]. split; [done|]. split; [done|].
    clear -Hrow. case_match; by apply Hrow.
Qed.

(** The gateway after the turns of these wallets. *)
Definition turn (l : list Config.Wallet) (g : gateway) : gateway := (register_wallets cfg ∅ l g).2.

(** Every wallet was verified when its turn came, and opened in it. *)
Definition verified_in_turn (l : list Config.Wallet) (g : gateway) : Prop :=
  forall l1 w l2, l = l1 ++ w :: l2 -> wallet_verified (turn l1 g) w /\ wallet_opened (turn (l1 ++ [w]) g) w.

Lemma register_wallets_app m l1 l2 g : register_wallets cfg m (l1 ++ l2) g =
  match register_wallets cfg m l1 g with
  | (Ok m', g') => register_wallets cfg m' l2 g'
  | (Err e, g') => (Err e, g')
  end.
Proof.
  revert m g. induction l1 as [|w l1 IH]; intros m g; [done|]. cbn [app register_wallets]. unfold mbind, act_bind.
  destruct (register_wallet cfg w g) as [[u|e] g1]; [apply IH|done].
Qed.

Lemma register_wallets_in_turn l g m g' : register_wallets cfg ∅ l g = (Ok m, g') -> verified_in_turn l g.
Proof.
  intros Hrun l1 w l2 ->. unfold turn. rewrite register_wallets_app in Hrun |- *.
  destruct (register_wallets cfg ∅ l1 g) as [[m1|e] g1]; [|done]. cbn [register_wallets snd] in *. unfold mbind, act_bind in *.
  destruct (register_wallet cfg w g1) as [[[]|e] g2] eqn:Hw; [|done]. by apply register_wallet_ok.
Qed.

(** The wallet map has the configured wallets, under their ids. *)
Definition maps_wallets (l : list Config.Wallet) (m : gmap string Config.Wallet) : Prop :=
  (forall id w, m !! id = Some w -> id = Config.WalletID w /\ w ∈ l) /\
  (forall w, w ∈ l -> is_Some (m !! Config.WalletID w)).

Lemma maps_wallets_snoc l m w : maps_wallets l m -> maps_wallets (l ++ [w]) (<[Config.WalletID w := w]> m).
Proof.
  intros [Hm Hl]. split.
  - intros id v [[<- <-]|[_ Hv]]%lookup_insert_Some; rewrite elem_of_app, list_elem_of_singleton; naive_solver.
  - intros v [Hv|Hv%list_elem_of_singleton]%elem_of_app; apply lookup_insert_is_Some'; [right; by apply Hl|left; by subst].
Qed.

Lemma register_wallets_maps before m l g m' g' : maps_wallets before m ->
  register_wallets cfg m l g = (Ok m', g') -> maps_wallets (before ++ l) m'.
Proof.
  revert before m g. induction l as [|w l IH]; intros before m g Hm; cbn [register_wallets]; unfold mbind, act_bind.
  { intros [= <- _]. by rewrite app_nil_r. }
  destruct (register_wallet cfg w g) as [[u|e] g1]; [|done]. intros Hrun.
  rewrite cons_middle, app_assoc. eapply IH; [by apply maps_wallets_snoc|exact Hrun].
Qed.

Lemma newWalletRegistry_ok g m g' :
  newWalletRegistry cfg g = (Ok m, g') ->
  verified_in_turn (Config.Wallets cfg) g /\ maps_wallets (Config.Wallets cfg) m.
Proof.
  intros Hrun. split; [by eapply register_wallets_in_turn|]. apply (register_wallets_maps [] ∅ _ _ _ _) in Hrun; [done|].
  split; [intros id w; by rewrite lookup_empty|]. intros w Hw. by apply not_elem_of_nil in Hw.
Qed.

(** the registry opens only when every configured wallet, in its turn, is in the
    tables under a key that they or the scanner name, or is one that the scanner does
    not have: a wallet whose addresses the gateway lost is never opened afresh.  The
    tables then have it as configured, and the map has exactly these wallets. *)
Theorem newWalletRegistry_verifies g m g' :
  newWalletRegistry cfg g = (Ok m, g') ->
  verified_in_turn (Config.Wallets cfg) g /\ maps_wallets (Config.Wallets cfg) m.
Proof.
  apply newWalletRegistry_ok.
Qed.

(** * Backfill *)

(** A wallet whose history is not complete, as the scanner said when asked. *)
Definition due (lo hi : nat) (tip : Z) (c : candidate) : Prop :=
  (exists w, answered lo hi (fun n => scanner_BackfillStatus n (cd_walletID c)) (Ok (Some (cd_status c))) /\
     identity_matches (cd_status c) w = true) /\
  cd_remaining c = remaining_blocks tip (cd_status c).

Lemma due_widen lo hi lo' hi' tip c : due lo hi tip c -> (lo' <= lo)%nat -> (hi <= hi')%nat -> due lo' hi' tip c.
Proof. intros [(w & Ha & Hw) Hr] ? ?. split; [|done]. exists w. split; [by eapply answered_widen|done]. Qed.

Lemma collect_candidates_ok lo tip l :
  timed lo (collect_candidates tip l) (fun r hi => forall cs, r = Ok cs ->
    Forall (due lo hi tip) cs /\
    Forall (fun p => history_complete lo hi tip p.1 p.2 \/ exists c, c ∈ cs /\ cd_walletID c = p.1) l).
Proof.
  revert lo. induction l as [|[id w] l IH]; intros lo; cbn [collect_candidates].
  { apply timed_ret. by intros hi _ cs [= <-]. }
  eapply timed_bind; [apply timed_ask|intros [[s|]|e] h1 Hh1 Hs]; [|by apply timed_ret..].
  destruct (identity_matches s w) eqn:Hid; cbn [negb]; [|by apply timed_ret].
  eapply timed_bind; [apply timed_store|intros [u|e] h2 Hh2 _]; [|by apply timed_ret].
  eapply timed_bind; [apply IH|intros [others|e] h3 Hh3 Ho]; apply timed_ret; [|done].
  intros h4 Hh4 cs [= <-]. destruct (Ho _ eq_refl) as [Hd Hl].
  assert (Hd' : Forall (due lo h4 tip) others) by (eapply Forall_impl; [exact Hd|]; intros c Hc; eapply due_widen; [exact Hc|lia..]).
  assert (Hs' : answered lo h4 (fun n => scanner_BackfillStatus n id) (Ok (Some s))) by (eapply answered_widen; [exact Hs|lia..]).
  case_match eqn:Hc; bool_to_prop.
  - split; [done|]. constructor; [left; exists s; split_and!; auto|].
    eapply Forall_impl; [exact Hl|]. intros p [Hp|Hp]; [left; eapply history_widen; [exact Hp|lia..]|by right].
  - split; [constructor; [|done]; split; [by exists w|done]|]. constructor.
    + right. eexists. split; [by left|done].
    + eapply Forall_impl; [exact Hl|]. intros p [Hp|(c & ? & ?)]; [left; eapply history_widen; [exact Hp|lia..]|right].
      exists c. split; [by right|done].
Qed.

Lemma select_most first l :
  select first l ∈ first :: l /\ Forall (fun c => cd_remaining c <= cd_remaining (select first l)) (first :: l).
Proof.
  unfold select. revert first. induction l as [|c l IH]; intros first; cbn [foldl].
  { split; [by left|]. repeat constructor. done. }
  assert (Hmore : forall a b, (if more_urgent a b then cd_remaining b <= cd_remaining a else cd_remaining a <= cd_remaining b)).
  { intros a b. unfold more_urgent. case_match eqn:Hm.
    - apply orb_true_iff in Hm as [Hm|[Hm _]%andb_true_iff]; lia.
    - apply orb_false_iff in Hm as [Hm _]. lia. }
  specialize (Hmore c first). destruct (more_urgent c first).
  - destruct (IH c) as [Hin Hall]. split; [by right|]. constructor; [|done].
    apply Forall_cons in Hall as [Hc _]. lia.
  - destruct (IH first) as [Hin Hall]. apply Forall_cons in Hall as [Hf Hl].
    split; [apply elem_of_cons in Hin as [->|Hin]; [by left|by right; right]|].
    constructor; [done|]. constructor; [lia|done].
Qed.

Lemma remaining_pos tip s : 1 <= remaining_blocks tip s.
Proof. unfold remaining_blocks. lia. Qed.

Lemma elem_of_sorted id w : wallets !! id = Some w -> (id, w) ∈ sorted_wallets wallets.
Proof. intros Hw. apply elem_of_order_by. by apply elem_of_map_to_list. Qed.

(** What a round of backfill did: nothing, as every wallet is complete, or one
    batch for a wallet with the most left. *)
Definition round_done (lo hi : nat) (tip batch : Z) (worked : bool) : Prop :=
  if worked : bool then
    exists cs c next, due lo hi tip c /\ c ∈ cs /\ Forall (fun d => cd_remaining d <= cd_remaining c) cs /\
      (forall id w, wallets !! id = Some w -> history_complete lo hi tip id w \/ exists d, d ∈ cs /\ cd_walletID d = id) /\
      1 <= Z.min batch (cd_remaining c) <= batch /\
      answered lo hi (fun n => scanner_Backfill n (cd_walletID c) tip (Z.min batch (cd_remaining c))) (Ok next) /\
      (bf_NextHeight (cd_status c) <= tip -> bf_NextHeight (cd_status c) < next)
  else forall id w, wallets !! id = Some w -> history_complete lo hi tip id w.

Lemma backfillOne_done lo tip batch : 1 <= batch ->
  timed lo (backfillOne wallets tip batch) (fun r hi => forall worked, r = Ok worked -> round_done lo hi tip batch worked).
Proof.
  intros Hb.
  unfold backfillOne. destruct (Z.ltb_spec batch 1); [lia|].
  eapply timed_bind; [apply collect_candidates_ok|intros [[|first rest]|e] h1 Hh1 Hcs]; [..|by apply timed_ret].
  { apply timed_ret. intros h2 Hh2 w [= <-] id cw Hw. destruct (Hcs _ eq_refl) as [_ Hall].
    rewrite Forall_forall in Hall. destruct (Hall _ (elem_of_sorted _ _ Hw)) as [Hc|(c & Hc & _)];
      [eapply history_widen; [exact Hc|lia..]|by apply not_elem_of_nil in Hc]. }
  cbv zeta. destruct (select_most first rest) as [Hin Hmost]. set (c := select first rest) in *.
  destruct (Hcs _ eq_refl) as [Hdue Hall].
  eapply timed_bind; [apply timed_ask|intros [next|e] h2 Hh2 Hn]; [|by apply timed_ret].
  case_match eqn:Hadv; [by apply timed_ret|].
  eapply timed_bind; [apply timed_store|intros saved h3 Hh3 _]. apply timed_ret.
  intros h4 Hh4 w Hw. destruct saved; cbn in Hw; [|done]. injection Hw as <-.
  rewrite Forall_forall in Hdue. pose proof (Hdue c Hin) as Hc. pose proof Hc as [_ Hrem].
  pose proof (remaining_pos tip (cd_status c)).
  exists (first :: rest), c, next. split_and!; try done; try lia.
  - eapply due_widen; [exact Hc|lia..].
  - intros id cw Hid. rewrite Forall_forall in Hall. destruct (Hall _ (elem_of_sorted _ _ Hid)) as [Hh|Hh]; [left|by right].
    eapply history_widen; [exact Hh|lia..].
  - eapply answered_widen; [exact Hn|lia..].
Qed.
(** a round of backfill that reports no work has found every wallet's history
    complete beyond the tip; one that reports work has asked the scanner for at
    least one and at most the batch's blocks of a wallet with the most left, and
    the scanner went on from where it was. *)
Theorem backfillOne_progress tip batch g worked g' :
  backfillOne wallets tip batch g = (Ok worked, g') -> 1 <= batch /\ round_done (now_tick g) (now_tick g') tip batch worked.
Proof.
  intros Hrun. assert (Hb : 1 <= batch).
  { unfold backfillOne in Hrun. destruct (Z.ltb_spec batch 1); [done|lia]. }
  split; [done|]. destruct (backfillOne_done (now_tick g) tip batch Hb g (le_n _)) as [Hspec _].
  rewrite Hrun in Hspec. by apply Hspec.
Qed.
End serving.

(** * Witnesses *)

#[local] Instance mocked : Upstreams := mock None [].

Definition ready_run : (unready + readiness) * gateway := checkReady demo_cfg mock_wallets mock_gateway.

Lemma checkReady_attests_witness :
  exists rd height, ready_run.1 = inr rd /\
    history_complete (now_tick mock_gateway) (now_tick ready_run.2) height "hot" (demo_wallet "hot" (UFVKHRP Mainnet +:+ "1abc")).
Proof.
  destruct ready_run as [[u|rd] g'] eqn:Hrun; [exfalso|].
  - apply (f_equal (fun r => match r.1 with inl _ => true | inr _ => false end)) in Hrun.
    revert Hrun. vm_compute. discriminate.
  - destruct (checkReady_attests demo_cfg mock_wallets _ _ _ Hrun) as (height & _ & _ & _ & _ & _ & _ & Hw).
    exists rd, height. split; [reflexivity|]. apply Hw. vm_compute. reflexivity.
Defined.

Lemma newWalletRegistry_verifies_witness :
  exists m, (newWalletRegistry demo_cfg mock_gateway).1 = Ok m /\ is_Some (m !! "cold"%string).
Proof.
  destruct (newWalletRegistry demo_cfg mock_gateway) as [[m|e] g'] eqn:Hrun; [|exfalso].
  - exists m. split; [reflexivity|].
    destruct (newWalletRegistry_verifies demo_cfg _ _ _ Hrun) as [_ [_ Hall]].
    destruct (list_find (fun w => Config.WalletID w = "cold"%string) (Config.Wallets demo_cfg)) as [[i w]|] eqn:Hf.
    + apply list_find_Some in Hf as (Hi & Hid & _). rewrite <- Hid. apply Hall. exact (list_elem_of_lookup_2 _ _ _ Hi).
    + revert Hf. vm_compute. discriminate.
  - apply (f_equal (fun r => is_ok r.1)) in Hrun. revert Hrun. vm_compute. discriminate.
Defined.

Lemma backfillOne_progress_witness :
  let r := backfillOne mock_wallets 130 5 mock_gateway in
  r.1 = Ok true /\ round_done mock_wallets (now_tick mock_gateway) (now_tick r.2) 130 5 true.
Proof.
  intros r. assert (Hr : r.1 = Ok true) by (vm_compute; reflexivity). split; [exact Hr|].
  refine (proj2 (backfillOne_progress mock_wallets 130 5 mock_gateway true r.2 _)).
  transitivity (r.1, r.2); [apply surjective_pairing|]. rewrite Hr. reflexivity.
Defined.
