(* ===== verification/Reads.v ===== *)
(** The handlers of [internal/api/api.go] for health, the chain tip, address
    allocation, balances and notes. *)
From S2P Require Import Prelude Tx GoString GoTime Sha256 Json Domain Database Config Wallets Installation Guarded Access Effects Http Gateway Triple Registry Readiness.

Section reads.
Context `{Upstreams} (cfg : Config.Config) (ledger : Identity) (wallets : gmap string Config.Wallet)
  (build : BuildInfo).

Definition bad_request (message : string) : response := writeError 400 "invalid_request" message false [].
Definition not_found (message : string) : response := writeError 404 "not_found" message false [].
Definition internal_error (message : string) : response := writeError 500 "internal" message false [].
Definition bad_scanner (message : string) : response := writeError 502 "scanner_not_ready" message true [].
Definition scanner_unavailable (message : string) : response :=
  writeError 503 "scanner_not_ready" message true [].

Definition require_wallet (walletID : string) : handler Config.Wallet :=
  match known wallets walletID with
  | None => answer (not_found "wallet not found")
  | Some wallet => mret wallet
  end.

Definition decode_body {A} (r : request) (limit : Z) (out : json -> option A) : handler A :=
  match decodeJSON r limit out with
  | Err e => answer (writeDecodeError e)
  | Ok v => mret v
  end.

(** * Health and tip *)

Definition handleLive : handler response := mret (writeData 200 LiveData).
Definition handleVersion : handler response :=
  mret (writeData 200 (VersionData build (Config.Network cfg))).

Definition handleReady : handler response :=
  ready ← require_ready cfg wallets "financial reads are not ready";
  mret (writeData 200 (ReadyData ready)).

Definition handleTip : handler response :=
  tip ← call (ask node_Tip);
  match tip with
  | Err _ => answer (writeError 502 "node_rpc_error" "node request failed" true [])
  | Ok tip =>
      _ ← refuse_if (negb (is_ok (validateNodeTip cfg tip)))
            (writeError 503 "node_not_ready" "node tip is invalid for the configured network" true []);
      health ← call (ask scanner_Health);
      match health with
      | Err _ => answer (scanner_unavailable "scanner request failed")
      | Ok health =>
          _ ← refuse_if
                (String.eqb (health_Network health) "" || negb (String.eqb (health_Network health) (network_name cfg))
                 || String.eqb (health_UAHRP health) ""
                 || negb (String.eqb (health_UAHRP health) (AddressHRP (Config.Network cfg))))
                (scanner_unavailable "scanner network does not match gateway configuration");
          let lag := match health_ScannedHeight health with
                     | Some h => Z.max (sub64 (tip_Height tip) h) 0
                     | None => 0
                     end in
          mret (writeData 200 (TipData (Config.Network cfg) tip (health_ScannedHeight health) lag))
      end
  end.

(** * Addresses *)

Definition handleAllocateAddress (r : request) (walletID : string) : handler response :=
  _ ← require_wallet walletID;
  fields ← decode_body r (JSONBodyBytes cfg) (string_fields ["label"%string]);
  let label := TrimSpace (nth 0 fields "") in
  _ ← refuse_if (128 <? len label) (bad_request "label must be at most 128 characters");
  _ ← require_ready cfg wallets "address allocation is not ready";
  address ← call (allocate cfg ledger wallets walletID label);
  match address with
  | Err _ => answer (internal_error "address allocation failed")
  | Ok address => mret (writeData 201 (AddressData address))
  end.

(** [AllocateInternalAddress]: what the coordinator's change addresses use. *)
Definition AllocateInternalAddress (walletID label : string) : act (result Address) :=
  if negb (HasPrefix label "internal_")
  then mret (Err (New "internal address label must start with internal_"))
  else if 128 <? len label then mret (Err (New "internal address label is too long"))
  else
    ready ← checkReady cfg wallets;
    match ready with
    | inl (code, e) => mret (Err (Wrap code e))
    | inr _ => allocate cfg ledger wallets walletID label
    end.

(** * Balances *)

(** [confirmations]: the query's [min_confirmations] or the default. *)
Definition confirmations (r : request) : result Z :=
  let raw := TrimSpace (query r "min_confirmations") in
  if String.eqb raw "" then Ok (DefaultConfirmations cfg)
  else match ParseInt raw with
       | Some n => if (n <? 0) || (MaxConfirmations cfg <? n)
                   then Err (New ("min_confirmations must be between 0 and " +:+ pretty (MaxConfirmations cfg)))
                   else Ok n
       | None => Err (New ("min_confirmations must be between 0 and " +:+ pretty (MaxConfirmations cfg)))
       end.

Definition require_confirmations (r : request) : handler Z :=
  match confirmations r with
  | Err e => answer (bad_request (match e with New text => text | _ => ""%string end))
  | Ok n => mret n
  end.

(** The address must be one the gateway allocated for the wallet. *)
Definition require_address (walletID address : string) : handler Address :=
  stored ← call (store_call (fun _ => lookup_address walletID address));
  match stored with
  | Err _ => answer (internal_error "state lookup failed")
  | Ok None => answer (not_found "address is not registered to this wallet")
  | Ok (Some a) => mret a
  end.

Definition handleBalance (r : request) (walletID address : string) : handler response :=
  _ ← require_wallet walletID;
  _ ← refuse_if (negb (HasPrefix address (AddressHRP (Config.Network cfg) +:+ "1")))
        (bad_request "address does not match configured network");
  _ ← require_address walletID address;
  confirmations ← require_confirmations r;
  ready ← require_ready cfg wallets "financial reads are not ready";
  balance ← call (ask (fun n => scanner_Balance n walletID address confirmations (tip_Height (rd_Node ready))));
  match balance with
  | Err _ => answer (scanner_unavailable "scanner balance request failed")
  | Ok None => answer (not_found "wallet not found in scanner")
  | Ok (Some balance) =>
      _ ← refuse_if (negb (Balance_ValidFor balance walletID address confirmations))
            (scanner_unavailable "scanner returned an invalid address balance");
      mret (writeData 200 (BalanceData walletID address balance))
  end.

(** * Notes *)

(** The scanner's indexed block. *)
Definition scanned (ready : readiness) : option Z * string :=
  (health_ScannedHeight (rd_Scanner ready), health_ScannedHash (rd_Scanner ready)).
Definition epoch (ready : readiness) : string := health_EventEpoch (rd_Scanner ready).

Definition snapshot_changed (message : string) (details : list (string * json)) : response :=
  writeError 409 "scanner_snapshot_changed" message true details.

(** The second readiness check of a snapshot read. *)
Definition require_ready_after (message : string) : handler readiness :=
  ready ← call (checkReady cfg wallets);
  match ready with
  | inl (code, _) => answer (snapshot_changed message [("readiness_code"%string, JString code)])
  | inr r => mret r
  end.

Definition min_note (r : request) : option Z :=
  let raw := TrimSpace (query r "min_note_zat") in
  if String.eqb raw "" then Some 0
  else n ← ParseInt raw; if n <? 0 then None else Some n.

Definition summary_of (walletID : string) (confirmations minNoteZat : Z) (before : readiness)
    (s : WalletNoteSummary) : noteSummary :=
  {| out_WalletID := walletID; out_MinConfirmations := confirmations; out_MinNoteZat := minNoteZat;
     out_AsOfNodeHeight := tip_Height (rd_Node before); out_AsOfScannerHeight := ws_AsOfScannerHeight s;
     out_AsOfScannerHash := ws_AsOfScannerHash s; out_ScannerLag := rd_ScannerLag before;
     out_TotalUnspent := ws_TotalUnspent s; out_Spendable := ws_Spendable s;
     out_Immature := ws_Immature s; out_PendingSpend := ws_PendingSpend s;
     out_BelowMinNote := ws_BelowMinNote s; out_WitnessUnavailable := ws_WitnessUnavailable s |}.

Definition handleNoteSummary (r : request) (walletID : string) : handler response :=
  _ ← require_wallet walletID;
  confirmations ← require_confirmations r;
  match min_note r with
  | None => answer (bad_request "min_note_zat must be a non-negative integer")
  | Some minNoteZat =>
      before ← require_ready cfg wallets "financial reads are not ready";
      _ ← refuse_if (is_none (scanned before).1) (scanner_unavailable "scanner height is unavailable");
      summary ← call (ask (fun n => scanner_NoteSummary n walletID confirmations minNoteZat
                                      (NoteSummaryMaxNotes cfg)));
      match summary with
      | Err e =>
          answer (if errors_Is ErrNoteSummaryLimitExceeded e
                  then writeError 422 "note_summary_limit_exceeded"
                         "wallet note inventory exceeds the configured summary cap" false
                         [("max_notes"%string, JInt (NoteSummaryMaxNotes cfg))]
                  else if IsUpstreamKind e "invalid_response"
                  then bad_scanner "scanner returned an invalid note summary"
                  else scanner_unavailable "scanner note summary request failed")
      | Ok None => answer (bad_scanner "scanner wallet is missing")
      | Ok (Some s) =>
          _ ← refuse_if (negb (WalletNoteSummary_ValidFor s walletID confirmations minNoteZat
                                 (NoteSummaryMaxNotes cfg)))
                (bad_scanner "scanner returned an invalid note summary");
          after ← require_ready_after "readiness changed while summarizing notes; retry";
          _ ← refuse_if
                (negb (bool_decide ((Some (ws_AsOfScannerHeight s), ws_AsOfScannerHash s) = scanned before))
                 || negb (bool_decide (scanned after = scanned before))
                 || negb (String.eqb (epoch after) (epoch before)))
                (snapshot_changed "scanner snapshot changed while summarizing notes; retry" []);
          mret (writeData 200 (NoteSummaryData (summary_of walletID confirmations minNoteZat before s)))
      end
  end.

Definition note_ids (j : json) : option (list string) :=
  ms ← struct_members j;
  if negb (known_fields ["note_ids"%string] ms) then None
  else decode_field "note_ids" (into_slice into_string "") [] ms.

(** The loop over the requested ids. *)
Fixpoint check_note_ids (seen : gset string) (ids : list string) : option string :=
  match ids with
  | [] => None
  | id :: rest =>
      if negb (ValidNoteID id) then Some "note_ids must use canonical txid:action_index form"%string
      else if bool_decide (id ∈ seen) then Some "note_ids must be unique"%string
      else check_note_ids ({[id]} ∪ seen) rest
  end.

Definition handleNoteStatuses (r : request) (walletID : string) : handler response :=
  _ ← require_wallet walletID;
  ids ← decode_body r (JSONBodyBytes cfg) note_ids;
  _ ← refuse_if ((Z.of_nat (length ids) <? 1) || (200 <? Z.of_nat (length ids)))
        (bad_request "note_ids must contain between 1 and 200 entries");
  match check_note_ids ∅ ids with
  | Some message => answer (bad_request message)
  | None =>
      before ← require_ready cfg wallets "financial reads are not ready";
      _ ← refuse_if (is_none (scanned before).1) (scanner_unavailable "scanner height is unavailable");
      statuses ← call (ask (fun n => scanner_NoteStatuses n walletID ids));
      match statuses with
      | Err e =>
          answer (if errors_Is ErrScannerSnapshotChanged e
                  then snapshot_changed "scanner snapshot changed while reading note statuses; retry" []
                  else if IsUpstreamKind e "invalid_response"
                  then bad_scanner "scanner returned invalid note statuses"
                  else scanner_unavailable "scanner note status request failed")
      | Ok None => answer (bad_scanner "scanner wallet is missing")
      | Ok (Some s) =>
          _ ← refuse_if (negb (WalletNoteStatuses_ValidFor s walletID ids))
                (bad_scanner "scanner returned invalid note statuses");
          after ← require_ready_after "readiness changed while reading note statuses; retry";
          _ ← refuse_if
                (negb (bool_decide ((Some (wns_AsOfScannerHeight s), wns_AsOfScannerHash s) = scanned before))
                 || negb (String.eqb (wns_EventEpoch s) (epoch before))
                 || negb (bool_decide (scanned after = scanned before))
                 || negb (String.eqb (epoch after) (epoch before)))
                (snapshot_changed "scanner snapshot changed while reading note statuses; retry" []);
          mret (writeData 200 (NoteStatusesData
            {| nsr_WalletID := walletID; nsr_AsOfNodeHeight := tip_Height (rd_Node before);
               nsr_AsOfScannerHeight := wns_AsOfScannerHeight s; nsr_AsOfScannerHash := wns_AsOfScannerHash s;
               nsr_ScannerLag := rd_ScannerLag before; nsr_EventEpoch := wns_EventEpoch s;
               nsr_Statuses := wns_Statuses s |}))
      end
  end.

(** * Rules of the shared refusals *)

Lemma t_require_wallet P {B} walletID (f : Config.Wallet -> handler B) E R :
  (wallets !! walletID = None -> forall g, P g -> E (not_found "wallet not found") g) ->
  (forall w, wallets !! walletID = Some w -> triple P (f w) E R) ->
  triple P (w ← require_wallet walletID; f w) E R.
Proof.
  intros Hn Hs g Hg. unfold require_wallet, known, mbind, handler_bind. destruct (wallets !! walletID); cbn.
  - by apply Hs.
  - by apply Hn.
Qed.

Lemma t_decode_body P {A B} r limit (out : json -> option A) (f : A -> handler B) E R :
  (forall e g, P g -> E (writeDecodeError e) g) ->
  (forall v, decodeJSON r limit out = Ok v -> triple P (f v) E R) ->
  triple P (v ← decode_body r limit out; f v) E R.
Proof.
  intros He Hv g Hg. unfold decode_body, mbind, handler_bind. destruct (decodeJSON r limit out); cbn.
  - by apply Hv.
  - by apply He.
Qed.
End reads.

(** The refusals of [Triple.t_step] and these. *)
Ltac h_step :=
  lazymatch goal with
  | |- triple _ (_ ← require_wallet _ _; _) _ _ => apply t_require_wallet; [intros ?|intros ? ?]
  | |- triple _ (_ ← decode_body _ _ _; _) _ _ => apply t_decode_body; [intros ?|intros ? ?]
  | _ => t_step
  end.
