(* ===== verification/Snapshots.v ===== *)
(** The snapshot reads of notes: an answer is what the scanner had at one block,
    which it stood at, ready, both before and after. *)
From S2P Require Import Prelude Tx GoString GoTime Sha256 Json Domain Database Config Wallets Installation Guarded Lifecycle Access Effects Http Gateway Triple Mock Registry Readiness Serving Reads.

Section snapshots.
Context `{Upstreams} (cfg : Config.Config) (wallets : gmap string Config.Wallet).

Definition not_ok (rs : response) : Prop := rs_status rs <> 200.

Lemma t_require_ready lo {B} message (f : readiness -> handler B) E R :
  (forall code g, E (writeError 503 code message true []) g) ->
  (forall rd hi, (lo <= hi)%nat -> serves cfg wallets lo hi rd -> triple (since hi) (f rd) E R) ->
  triple (since lo) (rd ← require_ready cfg wallets message; f rd) E R.
Proof.
  intros He Hf g Hg. destruct (checkReady_serves cfg wallets lo g Hg) as [Hs Hlo].
  unfold require_ready, mbind, handler_bind, call. destruct (checkReady cfg wallets g) as [[[code e]|rd] g1]; [apply He|].
  by apply (Hf rd (now_tick g1) Hlo (Hs rd eq_refl) g1 (le_n _)).
Qed.

Lemma t_require_ready_after lo {B} message (f : readiness -> handler B) E R :
  (forall details g, E (snapshot_changed message details) g) ->
  (forall rd hi, (lo <= hi)%nat -> serves cfg wallets lo hi rd -> triple (since hi) (f rd) E R) ->
  triple (since lo) (rd ← require_ready_after cfg wallets message; f rd) E R.
Proof.
  intros He Hf g Hg. destruct (checkReady_serves cfg wallets lo g Hg) as [Hs Hlo].
  unfold require_ready_after, mbind, handler_bind, call. destruct (checkReady cfg wallets g) as [[[code e]|rd] g1]; [apply He|].
  by apply (Hf rd (now_tick g1) Hlo (Hs rd eq_refl) g1 (le_n _)).
Qed.

(** Around call [n] of a run that begins with call [lo] and ends before call [hi], the
    gateway was ready by calls before it and again by calls after it, at one block of
    one event history. *)
Definition steady (lo n hi : nat) (before after : readiness) (height : Z) (hash : string) : Prop :=
  serves cfg wallets lo n before /\ serves cfg wallets (Datatypes.S n) hi after /\
  scanned before = (Some height, hash) /\ scanned after = (Some height, hash) /\ epoch after = epoch before.

Definition statuses_answer (r : request) (walletID : string) (lo hi : nat) (rs : response) : Prop :=
  exists ids n s before after,
    decodeJSON r (JSONBodyBytes cfg) note_ids = Ok ids /\ check_note_ids ∅ ids = None /\
    1 <= Z.of_nat (length ids) <= 200 /\
    scanner_NoteStatuses n walletID ids = Ok (Some s) /\ WalletNoteStatuses_ValidFor s walletID ids = true /\
    steady lo n hi before after (wns_AsOfScannerHeight s) (wns_AsOfScannerHash s) /\ wns_EventEpoch s = epoch before /\
    rs = writeData 200 (NoteStatusesData
      {| nsr_WalletID := walletID; nsr_AsOfNodeHeight := tip_Height (rd_Node before);
         nsr_AsOfScannerHeight := wns_AsOfScannerHeight s; nsr_AsOfScannerHash := wns_AsOfScannerHash s;
         nsr_ScannerLag := rd_ScannerLag before; nsr_EventEpoch := wns_EventEpoch s; nsr_Statuses := wns_Statuses s |}).

Lemma handleNoteStatuses_answers r walletID lo :
  let E := fun rs g => rs_status rs = 200 -> statuses_answer r walletID lo (now_tick g) rs in
  triple (since lo) (handleNoteStatuses cfg wallets r walletID) E E.
Proof.
  intros E. unfold handleNoteStatuses. h_step; [done|]. apply t_decode_body; [|intros ids Hids].
  { intros e g _. unfold E, writeDecodeError. cbn. by case_match. }
  apply t_refuse; [done|intros Hcount]. destruct (check_note_ids ∅ ids) eqn:Hcheck; [by t_step|].
  apply t_require_ready; [done|]. intros before h1 Hh1 Hbefore. apply t_refuse; [done|intros _].
  eapply t_timed; [apply timed_ask|intros [[s|]|e] h2 Hh2 Hn]; [|by t_step|t_step; intros ? ?; by repeat case_match].
  apply t_refuse; [done|intros Hvalid]. apply negb_false_iff in Hvalid.
  apply t_require_ready_after; [done|]. intros after h3 Hh3 Hafter. apply t_refuse; [done|intros Hsame]. apply t_mret.
  intros g Hg _. unfold since in Hg. destruct Hn as (n & Hlt & Hn).
  bool_to_prop. exists ids, n, s, before, after. split_and!; try done; try lia.
  split_and!; [eapply serves_widen; [exact Hbefore|lia..]|eapply serves_widen; [exact Hafter|lia..]|try done; congruence..].
Qed.

(** C34: note statuses are given only as the scanner had them, valid for the wallet
    and for the distinct ids asked, at one block of one event history at which the
    gateway was ready both before and after the read: by checks whose calls to the
    node and to the scanner were all made before the call that read the statuses,
    and all made after it. *)
Theorem note_statuses_consistent r walletID g rs g' :
  finish (handleNoteStatuses cfg wallets r walletID) g = (rs, g') -> rs_status rs = 200 ->
  exists ids n s before after,
    decodeJSON r (JSONBodyBytes cfg) note_ids = Ok ids /\ check_note_ids ∅ ids = None /\
    1 <= Z.of_nat (length ids) <= 200 /\
    scanner_NoteStatuses n walletID ids = Ok (Some s) /\ WalletNoteStatuses_ValidFor s walletID ids = true /\
    steady (now_tick g) n (now_tick g') before after (wns_AsOfScannerHeight s) (wns_AsOfScannerHash s) /\
    wns_EventEpoch s = epoch before /\
    rs = writeData 200 (NoteStatusesData
      {| nsr_WalletID := walletID; nsr_AsOfNodeHeight := tip_Height (rd_Node before);
         nsr_AsOfScannerHeight := wns_AsOfScannerHeight s; nsr_AsOfScannerHash := wns_AsOfScannerHash s;
         nsr_ScannerLag := rd_ScannerLag before; nsr_EventEpoch := wns_EventEpoch s; nsr_Statuses := wns_Statuses s |}).
Proof.
  intros Hrun. by eapply (t_finish (since (now_tick g))) in Hrun; [|apply handleNoteStatuses_answers|apply le_n].
Qed.
End snapshots.

(** * Witness *)

#[local] Instance mocked : Upstreams := mock None [].

Definition mock_notes : request :=
  mock_request "POST" "/v1/wallets/hot/notes/status" [mock_bearer; ("Content-Type", "application/json")]%string
    (dq ("{'note_ids':['" +:+ mock_note +:+ "']}")).
Definition notes_run : response * gateway :=
  finish (handleNoteStatuses demo_cfg mock_wallets mock_notes "hot") mock_gateway.

Lemma note_statuses_consistent_witness :
  exists n s before after,
    steady demo_cfg mock_wallets (now_tick mock_gateway) n (now_tick notes_run.2) before after 119 mock_hash /\
    rs_body notes_run.1 = Ok_body (NoteStatusesData s) /\ nsr_AsOfScannerHeight s = 119.
Proof.
  assert (H200 : rs_status notes_run.1 = 200) by (vm_compute; reflexivity).
  destruct (note_statuses_consistent demo_cfg mock_wallets mock_notes "hot" mock_gateway notes_run.1 notes_run.2
              (surjective_pairing _) H200) as (ids & n & s & before & after & _ & _ & _ & Hs & _ & Hsteady & _ & Hrs).
  injection Hs as <-. rewrite Hrs. cbn [rs_body writeData].
  do 4 eexists. split; [exact Hsteady|]. split; reflexivity.
Defined.
