(* ===== verification/Deposits.v ===== *)
(** The deposit feed: [handleDeposits] and what it uses, in [internal/api/api.go]. *)
From S2P Require Import Prelude Tx GoString GoTime Sha256 Json Cursor Domain Database Config Wallets Installation Guarded Access Effects Http Gateway Registry Readiness Reads.

Definition nul : string := String (ascii_of_N 0) EmptyString.

Definition depositCursorFilter (status address txid : string) : string :=
  EncodeToString (Sum256 (status +:+ nul +:+ address +:+ nul +:+ txid)).

Definition depositStatus (kind : string) : option string :=
  if String.eqb kind "DepositEvent" then Some "detected"%string
  else if String.eqb kind "DepositConfirmed" then Some "confirmed"%string
  else if String.eqb kind "DepositUnconfirmed" then Some "unconfirmed"%string
  else if String.eqb kind "DepositOrphaned" then Some "orphaned"%string else None.

Definition depositKinds : list string :=
  ["DepositEvent"; "DepositConfirmed"; "DepositUnconfirmed"; "DepositOrphaned"].

Definition set_diversifier (e : walletEffect) (index : Z) : walletEffect :=
  {| we_EventID := we_EventID e; we_Kind := we_Kind e; we_ObservedHeight := we_ObservedHeight e;
     we_ObservedAt := we_ObservedAt e; we_WalletID := we_WalletID e; we_TxID := we_TxID e;
     we_State := we_State e; we_BlockHeight := we_BlockHeight e; we_Confirmations := we_Confirmations e;
     we_RequiredConfirmations := we_RequiredConfirmations e; we_ConfirmedHeight := we_ConfirmedHeight e;
     we_RollbackHeight := we_RollbackHeight e; we_PreviousConfirmedHeight := we_PreviousConfirmedHeight e;
     we_OrphanedAtHeight := we_OrphanedAtHeight e; we_ExpiryHeight := we_ExpiryHeight e;
     we_ActionIndex := we_ActionIndex e; we_AmountZat := we_AmountZat e; we_Address := we_Address e;
     we_DiversifierIndex := Some index; we_MemoHex := we_MemoHex e; we_OVKScope := we_OVKScope e;
     we_RecipientScope := we_RecipientScope e; we_SourceNote := we_SourceNote e |}.

Definition invalid_response (text : string) : error := UpstreamError "invalid_response" (New text).

(** The effect with the index of the address the gateway allocated; [None] when
    the address is not registered. *)
Definition bind_identity (allocated : option Address) (effect : walletEffect) : result (option walletEffect) :=
  match allocated with
  | None => Ok None
  | Some a =>
      match we_DiversifierIndex effect with
      | None =>
          if Address_DiversifierIndex a =? 0 then Ok (Some (set_diversifier effect 0))
          else Err (invalid_response "scanner omitted a nonzero deposit diversifier index")
      | Some index =>
          if Address_DiversifierIndex a =? index then Ok (Some effect)
          else Err (invalid_response "scanner deposit address identity does not match the allocation ledger")
      end
  end.

Section deposits.
Context `{Upstreams} (cfg : Config.Config) (wallets : gmap string Config.Wallet) (cursor_key : string).

Definition hrp : string := AddressHRP (Config.Network cfg).

Definition bindRegisteredDepositIdentity (walletID : string) (effect : walletEffect)
    : act (result (option walletEffect)) :=
  stored ← store_call (fun _ => lookup_address walletID (we_Address effect));
  mret (allocated ← stored; bind_identity allocated effect).

Definition writeCursorReset (eventEpoch : string) : response :=
  writeError 409 "cursor_reset_required"
    "scanner event history was reset; restart without a cursor and idempotently replay deposits" false
    [("action", JString "restart_without_cursor"); ("event_epoch", JString eventEpoch)]%string.

Definition deposit_of (walletID epoch : string) (event : ScannerEvent) (effect : walletEffect)
    (publicStatus : string) : option deposit :=
  action ← we_ActionIndex effect; amount ← we_AmountZat effect;
  block ← we_BlockHeight effect; diversifier ← we_DiversifierIndex effect;
  Some {| dp_DepositID := walletID +:+ ":" +:+ we_TxID effect +:+ ":" +:+ pretty action;
          dp_EventID := epoch +:+ ":" +:+ pretty (se_ID event); dp_WalletID := walletID;
          dp_TxID := we_TxID effect; dp_ActionIndex := action; dp_Address := we_Address effect;
          dp_DiversifierIndex := diversifier; dp_AmountZat := wrapu64 amount; dp_Status := publicStatus;
          dp_BlockHeight := block; dp_ConfirmedHeight := we_ConfirmedHeight effect;
          dp_OrphanedAtHeight := we_OrphanedAtHeight effect; dp_RollbackHeight := we_RollbackHeight effect;
          dp_ObservedAt := se_CreatedAt event |}.

(** The filters of a request. *)
Record deposit_query := { dq_status : string; dq_address : string; dq_txid : string; dq_limit : nat }.

Definition wanted (q : deposit_query) (publicStatus : string) (effect : walletEffect) : bool :=
  (String.eqb (dq_status q) "" || String.eqb publicStatus (dq_status q))
  && (String.eqb (dq_address q) "" || String.eqb (we_Address effect) (dq_address q)).

(** The loop over a page: how far it came and the deposits. *)
Fixpoint deposit_loop (walletID epoch : string) (q : deposit_query) (events : list ScannerEvent)
    (next : Z) (items : list deposit) : handler (Z * list deposit) :=
  match events with
  | [] => mret (next, items)
  | event :: rest =>
      if se_ID event <=? next then answer (bad_scanner "scanner returned a non-forward deposit cursor")
      else match sanitizeWalletEffect event walletID "" hrp (DefaultConfirmations cfg) with
      | Err _ => answer (bad_scanner "scanner returned an invalid deposit event")
      | Ok effect =>
          match depositStatus (se_Kind event) with
          | None => answer (bad_scanner "scanner returned an unexpected deposit event kind")
          | Some publicStatus =>
              bound ← call (bindRegisteredDepositIdentity walletID effect);
              match bound with
              | Err e =>
                  answer (if IsUpstreamKind e "invalid_response"
                          then bad_scanner "scanner returned a deposit with mismatched address identity"
                          else internal_error "state lookup failed")
              | Ok None => deposit_loop walletID epoch q rest (se_ID event) items
              | Ok (Some effect) =>
                  if negb (wanted q publicStatus effect)
                  then deposit_loop walletID epoch q rest (se_ID event) items
                  else match deposit_of walletID epoch event effect publicStatus with
                  | None => answer (bad_scanner "scanner returned an incomplete deposit event")
                  | Some d =>
                      let items := items ++ [d] in
                      if (length items =? dq_limit q)%nat then mret (se_ID event, items)
                      else deposit_loop walletID epoch q rest (se_ID event) items
                  end
              end
          end
      end
  end.

Definition last_id (events : list ScannerEvent) (position : Z) : Z :=
  match last events with Some e => se_ID e | None => position end.

(** The position of the next cursor. *)
Definition next_position (q : deposit_query) (page : EventsPage) (items : list deposit) (next : Z) : Z :=
  let short := (length items <? dq_limit q)%nat in
  let next := if short && bool_decide (ep_Events page = []) then ep_NextCursor page else next in
  if short && negb (bool_decide (ep_Events page = [])) && (next =? last_id (ep_Events page) next)
  then ep_NextCursor page else next.

Definition parse_limit (r : request) : option nat :=
  let raw := TrimSpace (query r "limit") in
  if String.eqb raw "" then Some 100%nat
  else n ← ParseInt raw; if (n <? 1) || (1000 <? n) then None else Some (Z.to_nat n).

Definition status_filter_ok (status : string) : bool :=
  existsb (String.eqb status) [""; "detected"; "confirmed"; "unconfirmed"; "orphaned"]%string.

(** The deposits of one page of the scanner's events, from [position]. *)
Definition deposits_page (walletID : string) (q : deposit_query) (ready : readiness) (position : Z)
    : handler response :=
  let filter := depositCursorFilter (dq_status q) (dq_address q) (dq_txid q) in
  page ← call (ask (fun n => scanner_Events n walletID position 1000
                               {| ef_Kinds := depositKinds; ef_TxID := dq_txid q |}));
  match page with
  | Err _ => answer (scanner_unavailable "scanner deposit request failed")
  | Ok page =>
      _ ← refuse_if (negb (String.eqb (ep_EventEpoch page) (epoch ready))) (writeCursorReset (epoch ready));
      _ ← refuse_if (ep_NextCursor page <? position)
            (bad_scanner "scanner returned a backward deposit cursor");
      _ ← refuse_if (negb (ep_NextCursor page =? last_id (ep_Events page) position))
            (bad_scanner "scanner returned an inconsistent deposit cursor");
      '(next, items) ← deposit_loop walletID (ep_EventEpoch page) q (ep_Events page) position [];
      let next := next_position q page items next in
      _ ← refuse_if (ep_NextCursor page <? next) (bad_scanner "scanner returned a backward deposit cursor");
      mret (writeData 200 (DepositsData items
              (Cursor.encode cursor_key walletID (ep_EventEpoch page) filter next) (ep_EventEpoch page)))
  end.

Definition handleDeposits (r : request) (walletID : string) : handler response :=
  _ ← require_wallet wallets walletID;
  match parse_limit r with
  | None => answer (bad_request "limit must be between 1 and 1000")
  | Some limit =>
      let txid := TrimSpace (query r "txid") in
      _ ← refuse_if (negb (String.eqb txid "") && negb (txIDPattern txid))
            (bad_request "txid must be 64 lowercase hex characters");
      let status := TrimSpace (query r "status") in
      _ ← refuse_if (negb (status_filter_ok status)) (bad_request "invalid deposit status");
      let address := TrimSpace (query r "address") in
      _ ← (if String.eqb address "" then mret tt else _ ← require_address walletID address; mret tt);
      let q := {| dq_status := status; dq_address := address; dq_txid := txid; dq_limit := limit |} in
      ready ← require_ready cfg wallets "financial reads are not ready";
      match Cursor.decode cursor_key (TrimSpace (query r "cursor")) walletID (epoch ready)
              (depositCursorFilter status address txid) with
      | Err e =>
          answer (if errors_Is errCursorResetRequired e then writeCursorReset (epoch ready)
                  else if errors_Is errCursorFilterMismatch e
                  then writeError 409 "cursor_filter_mismatch" "cursor was created for different deposit filters"
                         false [("action", JString "restart_without_cursor_or_restore_filters")]%string
                  else bad_request "cursor is invalid for this wallet")
      | Ok position => deposits_page walletID q ready position
      end
  end.
End deposits.
