(* ===== verification/Paging.v ===== *)
(** The deposit feed of [handleDeposits]: what one page delivers, and that a
    client that follows the cursors gets every deposit of the scanner's log
    exactly once and in order, and comes to its end. *)
From S2P Require Import Prelude Tx GoString GoTime Sha256 Json Cursor Domain Database Config Wallets Installation Guarded Lifecycle Access Effects Http Gateway Triple Mock Registry Readiness Reads Deposits.

Section paging.
Context `{Upstreams} (cfg : Config.Config) (cursor_key walletID : string) (q : deposit_query).

(** What an event of the wallet comes to: the deposit of a wanted event at an
    address that the ledger, as some call met it, has for the wallet. *)
Definition delivered (epoch : string) (event : ScannerEvent) (o : option deposit) : Prop :=
  exists n w effect status allocated bound,
    sanitizeWalletEffect event walletID "" (hrp cfg) (DefaultConfirmations cfg) = Ok effect /\
    depositStatus (se_Kind event) = Some status /\
    (lookup_address walletID (we_Address effect) (call_io (outcome n)) (tables (meanwhile n w))).1 = Ok allocated /\
    bind_identity allocated effect = Ok bound /\
    o = (e ← bound; if wanted q status e then deposit_of walletID epoch event e status else None) /\
    (forall e, bound = Some e -> wanted q status e = true -> is_Some o).

(** Ids that go up from a position. *)
Fixpoint ascending (position : Z) (events : list ScannerEvent) : Prop :=
  match events with
  | [] => True
  | e :: rest => position < se_ID e /\ ascending (se_ID e) rest
  end.

(** A prefix of the page was read: it is what [items] are made of, and it stops
    early only when the page is full. *)
Definition page_read (epoch : string) (events : list ScannerEvent) (position next : Z)
    (before items : list deposit) : Prop :=
  exists consumed rest outs,
    events = consumed ++ rest /\ ascending position consumed /\ next = last_id consumed position /\
    Forall2 (delivered epoch) consumed outs /\ items = before ++ omap id outs /\
    (rest = [] \/ length items = dq_limit q).

Lemma reached_cons e events position : last_id (e :: events) position = last_id events (se_ID e).
Proof. unfold last_id. rewrite last_cons. by destruct (last events). Qed.

Lemma page_read_cons epoch e events position next before middle items o :
  position < se_ID e -> delivered epoch e o -> middle = before ++ omap id [o] ->
  page_read epoch events (se_ID e) next middle items -> page_read epoch (e :: events) position next before items.
Proof.
  intros Hp Ho -> (consumed & rest & outs & -> & Ha & -> & Hd & -> & Hr).
  exists (e :: consumed), rest, (o :: outs). rewrite reached_cons.
  split_and!; try done; [by constructor|]. rewrite <- app_assoc. f_equal. by destruct o.
Qed.

Lemma bind_identity_met effect :
  act_triple (fun _ => True) (bindRegisteredDepositIdentity walletID effect) (fun r _ => forall bound, r = Ok bound ->
    exists n w allocated,
      (lookup_address walletID (we_Address effect) (call_io (outcome n)) (tables (meanwhile n w))).1 = Ok allocated /\
      bind_identity allocated effect = Ok bound).
Proof.
  intros g _. unfold bindRegisteredDepositIdentity, mbind, act_bind, store_call.
  destruct (lookup_address _ _ _ _) as [stored d] eqn:Hl. cbn. intros bound Hb.
  destruct stored as [allocated|]; [|done]. exists (now_tick g), (stores g), allocated. by rewrite Hl.
Qed.

Lemma deposit_loop_read epoch events position before : (length before < dq_limit q)%nat ->
  triple (fun _ => True) (deposit_loop cfg walletID epoch q events position before)
    (fun rs _ => rs_status rs <> 200)
    (fun x _ => page_read epoch events position x.1 before x.2 /\ (length x.2 <= dq_limit q)%nat).
Proof.
  revert position before. induction events as [|e events IH]; intros position before Hlen; cbn [deposit_loop].
  { apply t_mret. intros _ _. split; [|cbn; lia]. exists [], [], []. cbn. rewrite app_nil_r.
    split_and!; try done; by constructor. }
  assert (Hskip : forall middle o, (length middle < dq_limit q)%nat -> position < se_ID e ->
    delivered epoch e o -> middle = before ++ omap id [o] ->
    triple (fun _ => True) (deposit_loop cfg walletID epoch q events (se_ID e) middle)
      (fun rs _ => rs_status rs <> 200)
      (fun x _ => page_read epoch (e :: events) position x.1 before x.2 /\ (length x.2 <= dq_limit q)%nat)).
  { intros middle o Hm Hp Ho Hmid. eapply t_conseq; [by apply IH|done|].
    intros x g [Hr Hl]. split; [|done]. by eapply page_read_cons. }
  t_step; [by t_step|]. bool_to_prop. destruct (sanitizeWalletEffect _ _ _ _ _) as [effect|] eqn:Heff; [|by t_step].
  destruct (depositStatus (se_Kind e)) as [status|] eqn:Hstatus; [|by t_step].
  eapply t_call_bind; [apply bind_identity_met|intros bound].
  destruct bound as [bound|err]; [|t_step; intros; by case_match].
  apply t_pre with (P' := fun g => (forall o, o = (e' ← bound; if wanted q status e'
      then deposit_of walletID epoch e e' status else None) ->
      (forall e', bound = Some e' -> wanted q status e' = true -> is_Some o) -> delivered epoch e o) /\ True).
  { intros g Hg. destruct (Hg bound eq_refl) as (n & w & allocated & Hl & Hb). split; [|done].
    intros o Ho Hs. exists n, w, effect, status, allocated, bound. done. }
  t_step. rename H0 into Hd. destruct bound as [effect'|]; cbn in Hd; cycle 1.
  { apply (Hskip before None); [done|lia|by apply Hd|by rewrite app_nil_r]. }
  destruct (wanted q status effect') eqn:Hw; cbn [negb]; cycle 1.
  { apply (Hskip before None); [done|lia| |by rewrite app_nil_r]. apply Hd; [done|]. intros ? [= <-]. congruence. }
  destruct (deposit_of walletID epoch e effect' status) as [d|] eqn:Hdep; [|by t_step].
  assert (Hdel : delivered epoch e (Some d)) by (apply Hd; eauto).
  t_step.
  - apply Nat.eqb_eq in Heqb0. t_step. intros _ _. cbn [fst snd]. split; [|lia].
    exists [e], events, [Some d]. split_and!; try done; first [by right|by repeat constructor|split; [lia|done]].
  - apply Nat.eqb_neq in Heqb0. rewrite length_app in Heqb0. cbn in Heqb0.
    apply (Hskip _ (Some d)); [rewrite length_app; cbn; lia|lia|done|done].
Qed.

Lemma last_id_ascending position events : ascending position events ->
  position <= last_id events position /\ (last_id events position = position -> events = []).
Proof.
  revert position. induction events as [|e events IH]; intros position; [by unfold last_id|].
  cbn [ascending]. rewrite reached_cons. intros [Hp Ha]. destruct (IH _ Ha). lia.
Qed.

Lemma reached_app position consumed rest :
  last_id (consumed ++ rest) position = last_id rest (last_id consumed position).
Proof.
  revert position. induction consumed as [|e consumed IH]; intros position; [done|].
  cbn [app]. by rewrite !reached_cons.
Qed.

Lemma next_position_reached epoch page items position next :
  page_read epoch (ep_Events page) position next [] items ->
  ep_NextCursor page = last_id (ep_Events page) position -> next_position q page items next = next.
Proof.
  intros (consumed & rest & outs & He & _ & Hn & _ & _ & Hr) Hc. unfold next_position.
  destruct (Nat.ltb_spec (length items) (dq_limit q)) as [Hlt|_]; [|done]. cbn [andb].
  destruct Hr as [->|Hr]; [|lia]. rewrite app_nil_r in He. rewrite He in *.
  rewrite <- Hn in Hc. rewrite Hc. by repeat case_match.
Qed.

(** The filter hash that the cursors of a query carry. *)
Definition query_filter : string := depositCursorFilter (dq_status q) (dq_address q) (dq_txid q).

(** A page of deposits, from a position. *)
Definition page_answer (ready : readiness) (position : Z) (rs : response) : Prop :=
  exists n page next items,
    scanner_Events n walletID position 1000 {| ef_Kinds := depositKinds; ef_TxID := dq_txid q |} = Ok page /\
    rs = writeData 200 (DepositsData items
           (Cursor.encode cursor_key walletID (epoch ready) query_filter next) (epoch ready)) /\
    page_read (epoch ready) (ep_Events page) position next [] items /\ (length items <= dq_limit q)%nat /\
    ep_NextCursor page = last_id (ep_Events page) position /\
    position <= next <= ep_NextCursor page /\ (next = position -> ep_Events page = []).

Lemma deposits_page_answers ready position : (1 <= dq_limit q)%nat ->
  let E := fun rs (_ : gateway) => rs_status rs = 200 -> page_answer ready position rs in
  triple (fun _ => True) (deposits_page cfg cursor_key walletID q ready position) E E.
Proof.
  intros Hlim E. unfold deposits_page. fold query_filter.
  eapply t_call_bind; [apply ask_answer|intros [page|e]]; [|t_step; by intros ? ? ?].
  apply t_pre with (P' := fun g => (exists n, Ok page = scanner_Events n walletID position 1000
    {| ef_Kinds := depositKinds; ef_TxID := dq_txid q |}) /\ True); [done|]. t_step.
  apply t_refuse; [by intros ? ? ? ?|intros Hep]. apply t_refuse; [by intros ? ? ? ?|intros _].
  apply t_refuse; [by intros ? ? ? ?|intros Hcur].
  apply negb_false_iff, String.eqb_eq in Hep. apply negb_false_iff, Z.eqb_eq in Hcur. rewrite Hep.
  eapply t_bind.
  { eapply t_conseq; [apply deposit_loop_read with (before := []); cbn; lia| |intros ? ? Hx; exact Hx].
    by intros rs g Hs ?. }
  intros [next items]. cbn [fst snd]. t_step. rename H1 into Hread.
  rewrite (next_position_reached _ _ _ _ _ Hread Hcur).
  apply t_refuse; [by intros ? ? ? ?|intros Hle]. apply t_mret. intros g Hl _. destruct H0 as [n Hn].
  exists n, page, next, items. split_and!; try done; [|lia|].
  - destruct Hread as (consumed & rest & outs & _ & Ha & -> & _). by apply last_id_ascending in Ha as [? _].
  - destruct Hread as (consumed & rest & outs & -> & Ha & -> & Hd & -> & Hr). intros Hn'.
    apply last_id_ascending in Ha as [_ Ha]. rewrite (Ha Hn') in *. apply Forall2_nil_inv_l in Hd as ->.
    destruct Hr as [->|Hr]; [done|]. cbn in Hr. lia.
Qed.

(** a page of deposits is read off one page of the scanner's events in the
    epoch the gateway is ready in, from the position asked for: a prefix of the
    events, with ids that go up, of which every one is accounted for, as the
    deposit it is or as none; the prefix is the whole page unless the limit was
    reached; the cursor stands at the last event read, and it has advanced unless
    there was no event. *)
Theorem deposits_page_spec ready position g rs g' : (1 <= dq_limit q)%nat ->
  finish (deposits_page cfg cursor_key walletID q ready position) g = (rs, g') -> rs_status rs = 200 ->
  exists n page next items,
    scanner_Events n walletID position 1000 {| ef_Kinds := depositKinds; ef_TxID := dq_txid q |} = Ok page /\
    rs = writeData 200 (DepositsData items
           (Cursor.encode cursor_key walletID (epoch ready) query_filter next) (epoch ready)) /\
    page_read (epoch ready) (ep_Events page) position next [] items /\ (length items <= dq_limit q)%nat /\
    ep_NextCursor page = last_id (ep_Events page) position /\
    position <= next <= ep_NextCursor page /\ (next = position -> ep_Events page = []).
Proof.
  intros Hlim Hrun. by eapply (t_finish (fun _ => True)) in Hrun; [|apply deposits_page_answers|].
Qed.

(** * Following the cursors *)

Lemma ascending_above a l : ascending a l -> Forall (fun e => a < se_ID e) l.
Proof.
  revert a. induction l as [|e l IH]; intros a; [by constructor|]. cbn. intros [Ha Hl]. constructor; [done|].
  eapply Forall_impl; [by apply IH|]. cbn. lia.
Qed.

Lemma ascending_below a l : ascending a l -> Forall (fun e => se_ID e <= last_id l a) l.
Proof.
  revert a. induction l as [|e l IH]; intros a; [by constructor|]. cbn [ascending]. rewrite reached_cons.
  intros [Ha Hl]. constructor; [by apply last_id_ascending in Hl as [? _]|by apply IH].
Qed.

Lemma ascending_app a l1 l2 : ascending a (l1 ++ l2) <-> ascending a l1 /\ ascending (last_id l1 a) l2.
Proof.
  revert a. induction l1 as [|e l1 IH]; intros a; [by cbn; naive_solver|].
  cbn [app ascending]. rewrite reached_cons, IH. tauto.
Qed.

Lemma filter_Forall {A} (P : A -> Prop) `{forall x, Decision (P x)} l : Forall P l -> filter P l = l.
Proof. induction 1; [done|]. rewrite filter_cons_True by done. by f_equal. Qed.

Lemma filter_none {A} (P : A -> Prop) `{forall x, Decision (P x)} l : Forall (fun x => ~ P x) l -> filter P l = [].
Proof. induction 1; [done|]. by rewrite filter_cons_False. Qed.

Lemma ascending_filter a position l : ascending a l -> a <= position ->
  ascending position (filter (fun e => position < se_ID e) l).
Proof.
  revert a. induction l as [|e l IH]; intros a; [done|]. cbn [ascending]. intros [Ha Hl] Hp.
  destruct (decide (position < se_ID e)).
  - rewrite filter_cons_True by done. rewrite filter_Forall; [done|].
    eapply Forall_impl; [by apply ascending_above|]. cbn. lia.
  - rewrite filter_cons_False by done. apply (IH (se_ID e)); [done|lia].
Qed.

(** The events of the log in an interval of ids. *)
Definition between (log : list ScannerEvent) (a b : Z) : list ScannerEvent :=
  filter (fun e => se_ID e <= b) (filter (fun e => a < se_ID e) log).

Lemma between_prefix log a0 a consumed rest : ascending a0 log -> a0 <= a ->
  filter (fun e => a < se_ID e) log = consumed ++ rest -> between log a (last_id consumed a) = consumed.
Proof.
  intros Hl Ha Hf. pose proof (ascending_filter _ _ _ Hl Ha) as Hs. unfold between. rewrite Hf in *.
  apply ascending_app in Hs as [Hc Hr]. rewrite filter_app, filter_Forall by by apply ascending_below.
  rewrite filter_none, app_nil_r; [done|]. eapply Forall_impl; [by apply ascending_above|]. cbn. lia.
Qed.

Lemma between_split log a b c a0 : ascending a0 log -> a <= b <= c ->
  between log a c = between log a b ++ between log b c.
Proof.
  intros Hl Hab. unfold between. revert a0 Hl. induction log as [|e l IH]; intros a0; [done|].
  cbn [ascending]. intros [_ Hl]. specialize (IH _ Hl). pose proof (ascending_above _ _ Hl) as Hup.
  destruct (decide (b < se_ID e)) as [Hb|Hb].
  - assert (Hbl : Forall (fun x => b < se_ID x) (e :: l)).
    { constructor; [done|]. eapply Forall_impl; [exact Hup|]. cbn. lia. }
    rewrite (filter_Forall (fun x => a < se_ID x)), (filter_Forall (fun x => b < se_ID x)) by
      (eapply Forall_impl; [exact Hbl|]; cbn; lia).
    rewrite (filter_none (fun x => se_ID x <= b)); [done|]. eapply Forall_impl; [exact Hbl|]. cbn. lia.
  - rewrite (filter_cons_False (fun x => b < se_ID x)) by done. destruct (decide (a < se_ID e)).
    + rewrite (filter_cons_True (fun x => a < se_ID x)) by done.
      rewrite (filter_cons_True (fun x => se_ID x <= c)), (filter_cons_True (fun x => se_ID x <= b)) by lia.
      cbn. by rewrite IH.
    + by rewrite (filter_cons_False (fun x => a < se_ID x)) by done.
Qed.

Context (log : list ScannerEvent) (ready : readiness).

(** The scanner pages its log, at every call of the walk. *)
Definition pages_log : Prop := forall n position page,
  scanner_Events n walletID position 1000 {| ef_Kinds := depositKinds; ef_TxID := dq_txid q |} = Ok page ->
  ep_Events page = take 1000 (filter (fun e => position < se_ID e) log).

(** A client that asks for page after page, each with the cursor of the one
    before, over any states of the gateway; the deposits it gets. *)
Inductive walk : Z -> list deposit -> Z -> Prop :=
  | walk_here position : walk position [] position
  | walk_page position g g' items cursor next more last :
      finish (deposits_page cfg cursor_key walletID q ready position) g
        = (writeData 200 (DepositsData items cursor (epoch ready)), g') ->
      Cursor.decode cursor_key cursor walletID (epoch ready) query_filter = Ok next ->
      walk next more last -> walk position (items ++ more) last.

Definition issued (position : Z) : Prop := 0 <= position /\ int64 position.

Lemma page_of_log position g g' items cursor next :
  (1 <= dq_limit q)%nat -> pages_log -> ascending 0 log -> Forall (fun e => int64 (se_ID e)) log ->
  utf8_string walletID = true -> utf8_string (epoch ready) = true -> issued position ->
  finish (deposits_page cfg cursor_key walletID q ready position) g
    = (writeData 200 (DepositsData items cursor (epoch ready)), g') ->
  Cursor.decode cursor_key cursor walletID (epoch ready) query_filter = Ok next ->
  issued next /\ position <= next /\
  (exists outs, Forall2 (delivered (epoch ready)) (between log position next) outs /\ items = omap id outs) /\
  (next = position -> filter (fun e => position < se_ID e) log = []).
Proof.
  intros Hlim Hlog Hasc Hint Hw He [Hp Hpi] Hrun Hdec.
  eapply (t_finish (fun _ => True)) in Hrun; [|by apply deposits_page_answers|done].
  destruct (Hrun eq_refl) as (n & page & next' & items' & Hpage & [= <- ->] & Hread & _ & Hcur & Hle & Hempty).
  specialize (Hlog _ _ _ Hpage). destruct Hread as (consumed & rest & outs & Hsplit & Ha & Hn' & Hd & -> & _).
  assert (Hnext : issued next').
  { split; [lia|]. rewrite Hn'. unfold last_id. destruct (last consumed) as [e|] eqn:Hlast; [|done].
    apply last_Some_elem_of in Hlast. rewrite Forall_forall in Hint. apply Hint.
    assert (He' : e ∈ ep_Events page) by (rewrite Hsplit; apply elem_of_app; by left).
    rewrite Hlog in He'. apply elem_of_take in He' as (i & He' & _).
    by apply list_elem_of_lookup_2, list_elem_of_filter in He' as [_ ?]. }
  assert (Hf : utf8_string query_filter = true).
  { eapply all_bytes_ascii; [|apply EncodeToString_lower]. intros [[] [] [] [] [] [] [] []]; by vm_compute. }
  rewrite decode_issued in Hdec by (done || apply Hnext). injection Hdec as <-.
  split; [done|]. split; [lia|]. split.
  - exists outs. split; [|done]. rewrite Hn'.
    rewrite (between_prefix log 0 position consumed (rest ++ drop 1000 (filter (fun e => position < se_ID e) log))); try done.
    by rewrite app_assoc, <- Hsplit, Hlog, take_drop.
  - intros Heq. specialize (Hempty Heq). rewrite Hempty in Hlog.
    by destruct (filter (fun e => position < se_ID e) log).
Qed.

(** C12: a client that follows the cursors from a position gets exactly the
    deposits of the scanner's events after it, up to where it stands: every event
    is accounted for once and in order, whatever happens between its requests; and
    when a page leaves it where it was, there is nothing after. *)
Theorem walk_delivers_exactly position items last :
  (1 <= dq_limit q)%nat -> pages_log -> ascending 0 log -> Forall (fun e => int64 (se_ID e)) log ->
  utf8_string walletID = true -> utf8_string (epoch ready) = true -> issued position ->
  walk position items last ->
  (exists outs, Forall2 (delivered (epoch ready)) (between log position last) outs /\ items = omap id outs) /\
  forall g g' more cursor,
    finish (deposits_page cfg cursor_key walletID q ready last) g
      = (writeData 200 (DepositsData more cursor (epoch ready)), g') ->
    Cursor.decode cursor_key cursor walletID (epoch ready) query_filter = Ok last ->
    filter (fun e => last < se_ID e) log = [].
Proof.
  intros Hlim Hlog Hasc Hint Hw He Hpos Hwalk.
  assert (Hall : issued last /\ position <= last /\
    exists outs, Forall2 (delivered (epoch ready)) (between log position last) outs /\ items = omap id outs).
  { induction Hwalk as [position|position g g' items cursor next more last Hrun Hdec Hwalk IH].
    - split; [done|]. split; [lia|]. exists []. split; [|done].
      unfold between. rewrite filter_none; [constructor|].
      apply Forall_forall. intros e [??]%list_elem_of_filter. lia.
    - destruct (page_of_log position g g' items cursor next) as (Hn & Hle & (outs & Hd & ->) & _); try done.
      destruct (IH Hn) as (Hl & Hle' & outs' & Hd' & ->). split; [done|]. split; [lia|].
      exists (outs ++ outs'). rewrite (between_split log position next last 0) by (done || lia).
      split; [by apply Forall2_app|]. by rewrite omap_app. }
  destruct Hall as (Hl & _ & Houts). split; [done|]. intros g g' more cursor Hrun Hdec.
  destruct (page_of_log last g g' more cursor last) as (_ & _ & _ & Hend); try done. by apply Hend.
Qed.
End paging.

(** * A walk *)

Definition mock_query : deposit_query := {| dq_status := ""; dq_address := ""; dq_txid := ""; dq_limit := 1 |}.
Definition mock_ready : readiness :=
  {| rd_Network := Mainnet; rd_Node := mock_tip; rd_Scanner := mock_health; rd_ScannerLag := 1; rd_MaxScannerLag := 2 |}.
#[local] Instance mocked : Upstreams := mock None mock_log.

Definition page_run (position : Z) : response * gateway :=
  finish (deposits_page demo_cfg demo_key "hot" mock_query mock_ready position) mock_gateway.
Definition page_items (rs : response) : list deposit :=
  match rs_body rs with Ok_body (DepositsData items _ _) => items | _ => [] end.
Definition page_cursor (rs : response) : string :=
  match rs_body rs with Ok_body (DepositsData _ cursor _) => cursor | _ => "" end.

Example pages : map (fun p => (map dp_ActionIndex (page_items (page_run p).1))) [0; 7; 12] = [[2]; [5]; []].
Proof. vm_compute. reflexivity. Qed.

Lemma deposits_page_spec_witness :
  exists n page, scanner_Events n "hot" 0 1000 {| ef_Kinds := depositKinds; ef_TxID := "" |} = Ok page /\
    ep_NextCursor page = 12.
Proof.
  destruct (deposits_page_spec demo_cfg demo_key "hot" mock_query mock_ready 0 mock_gateway (page_run 0).1 (page_run 0).2)
    as (n & page & _ & _ & Hp & _ & _ & _ & Hc & _);
    [cbn; lia|apply surjective_pairing|vm_compute; reflexivity|].
  exists n, page. split; [exact Hp|]. rewrite Hc.
  assert (Hpage : page = page_after mock_log 0 1000) by (injection Hp as <-; reflexivity).
  rewrite Hpage. vm_compute. reflexivity.
Defined.

Lemma mock_pages_log : pages_log "hot" mock_query mock_log.
Proof. by intros n position page [= <-]. Qed.

Lemma mock_page p next more last :
  (page_run p).1
    = writeData 200 (DepositsData (page_items (page_run p).1) (page_cursor (page_run p).1) (epoch mock_ready)) ->
  Cursor.decode demo_key (page_cursor (page_run p).1) "hot" (epoch mock_ready) (query_filter mock_query) = Ok next ->
  walk demo_cfg demo_key "hot" mock_query mock_ready next more last ->
  walk demo_cfg demo_key "hot" mock_query mock_ready p (page_items (page_run p).1 ++ more) last.
Proof.
  intros Hrs Hdec Hwalk.
  refine (walk_page _ _ _ _ _ p mock_gateway (page_run p).2 _ _ next more last _ Hdec Hwalk).
  rewrite <- Hrs. exact (surjective_pairing (page_run p)).
Qed.

Lemma walk_delivers_exactly_witness :
  exists outs, Forall2 (delivered demo_cfg "hot" mock_query mock_epoch) (between mock_log 0 12) outs /\
    map dp_ActionIndex (omap id outs) = [2; 5].
Proof.
  assert (Hids : Forall (fun e => int64 (se_ID e)) mock_log) by (repeat constructor; width; cbn; lia).
  assert (Hutf : utf8_string (epoch mock_ready) = true) by (vm_compute; reflexivity).
  assert (Hpos : issued 0) by (split; [lia|width; lia]).
  destruct (walk_delivers_exactly demo_cfg demo_key "hot" mock_query mock_log mock_ready 0
    (page_items (page_run 0).1 ++ page_items (page_run 7).1 ++ []) 12
    ltac:(cbn; lia) mock_pages_log ltac:(repeat split) Hids eq_refl Hutf Hpos) as [(outs & Hd & Ho) _].
  - apply (mock_page 0 7); [vm_compute; reflexivity..|].
    apply (mock_page 7 12); [vm_compute; reflexivity..|]. apply walk_here.
  - exists outs. split; [exact Hd|]. rewrite <- Ho. vm_compute. reflexivity.
Defined.
