(* ===== verification/Transactions.v ===== *)
(** Transaction lookup with wallet effects: [handleTransaction], [walletEffects]
    and [terminalScannerTransaction] of [internal/api/api.go]. *)
From S2P Require Import Prelude Tx GoString GoTime Sha256 Json Cursor Domain Database Config Wallets Installation Guarded Access Effects Http Gateway Registry Readiness Reads Deposits.

Definition errWalletEffectsLimit : error := New "wallet effects limit exceeded".
Definition errWalletEffectsStateLookup : error := New "wallet effects state lookup failed".

(** * terminalScannerTransaction *)

Definition live_kinds : list string :=
  ["DepositEvent"; "DepositConfirmed"; "DepositUnconfirmed"; "SpendEvent"; "SpendConfirmed";
   "SpendUnconfirmed"; "OutgoingOutputEvent"; "OutgoingOutputConfirmed"; "OutgoingOutputUnconfirmed"].
Definition orphaned_kinds : list string := ["DepositOrphaned"; "SpendOrphaned"; "OutgoingOutputOrphaned"].

(** The last effect of a known kind and the terminal state it leaves: [""] while
    the transaction lives. *)
Fixpoint latest_state (latest : option walletEffect) (state : string) (effects : list walletEffect)
    : option walletEffect * string :=
  match effects with
  | [] => (latest, state)
  | e :: rest =>
      if bool_decide (we_Kind e ∈ live_kinds) then latest_state (Some e) "" rest
      else if bool_decide (we_Kind e ∈ orphaned_kinds) then latest_state (Some e) "orphaned" rest
      else if String.eqb (we_Kind e) "OutgoingOutputExpired" then latest_state (Some e) "expired" rest
      else latest_state latest state rest
  end.

Definition terminal_transaction (txid state : string) (blockHeight expiryHeight : option Z) : Transaction :=
  {| tx_TxID := txid; tx_State := state; tx_Confirmations := 0; tx_BlockHash := "";
     tx_BlockHeight := blockHeight; tx_BlockTime := None; tx_ExpiryHeight := expiryHeight;
     tx_SerializedSize := None; tx_OrchardActions := None; tx_RawTxHex := "" |}.

Definition terminalScannerTransaction (txid : string) (effects : list walletEffect) (nodeHeight : Z)
    : result (option Transaction) :=
  match latest_state None "" effects with
  | (Some latest, state) =>
      if String.eqb state "" then Ok None
      else if negb (String.eqb (we_TxID latest) txid) || negb (String.eqb (we_State latest) state)
      then Err (invalid_response "scanner returned an invalid terminal transaction event")
      else if String.eqb state "expired" then
        if negb (set_and (we_ExpiryHeight latest) (fun x => x <? nodeHeight))
        then Err (invalid_response "scanner returned an invalid expired transaction event")
        else Ok (Some (terminal_transaction txid state (we_BlockHeight latest) (we_ExpiryHeight latest)))
      else Ok (Some (terminal_transaction txid state (we_BlockHeight latest) None))
  | (None, _) => Ok None
  end.

(** [strconv.ParseBool]. *)
Definition ParseBool (s : string) : option bool :=
  if existsb (String.eqb s) ["1"; "t"; "T"; "TRUE"; "true"; "True"]%string then Some true
  else if existsb (String.eqb s) ["0"; "f"; "F"; "FALSE"; "false"; "False"]%string then Some false
  else None.

Section transactions.
Context `{Upstreams} (cfg : Config.Config) (wallets : gmap string Config.Wallet).

(** * walletEffects *)

(** One event of a page. *)
Definition effect_of (walletID txid : string) (event : ScannerEvent) : act (result walletEffect) :=
  match sanitizeWalletEffect event walletID txid (hrp cfg) (DefaultConfirmations cfg) with
  | Err e => mret (Err e)
  | Ok effect =>
      if negb (HasPrefix (se_Kind event) "Deposit") then mret (Ok effect)
      else
        bound ← bindRegisteredDepositIdentity walletID effect;
        mret (match bound with
              | Err e => Err (if IsUpstreamKind e "invalid_response" then e
                              else Wrap "wallet effects state lookup failed" errWalletEffectsStateLookup)
              | Ok (Some effect) => Ok effect
              | Ok None =>
                  if is_none (we_DiversifierIndex effect)
                  then Err (invalid_response "scanner omitted an unregistered deposit diversifier index")
                  else Ok effect
              end)
  end.

(** The loop over a page: the position it reaches and the effects. *)
Fixpoint effects_page (walletID txid : string) (events : list ScannerEvent) (position : Z)
    (effects : list walletEffect) : act (result (Z * list walletEffect)) :=
  match events with
  | [] => mret (Ok (position, effects))
  | event :: rest =>
      if se_ID event <=? position
      then mret (Err (invalid_response "scanner returned non-forward transaction effects"))
      else
        effect ← effect_of walletID txid event;
        match effect with
        | Err e => mret (Err e)
        | Ok effect =>
            let effects := effects ++ [effect] in
            if WalletEffectsMaxEvents cfg <? Z.of_nat (length effects)
            then mret (Err errWalletEffectsLimit)
            else effects_page walletID txid rest (se_ID event) effects
        end
  end.

Definition page_limit (effects : list walletEffect) : Z :=
  Z.min 1000 (WalletEffectsMaxEvents cfg + 1 - Z.of_nat (length effects)).

(** The loop over pages; [None] is the end of the fuel. *)
Fixpoint effects_loop (fuel : nat) (walletID txid eventEpoch : string) (position : Z)
    (effects : list walletEffect) : act (option (result (list walletEffect))) :=
  match fuel with
  | O => mret None
  | S fuel' =>
      let limit := page_limit effects in
      page ← ask (fun n => scanner_Events n walletID position limit {| ef_Kinds := []; ef_TxID := txid |});
      match page with
      | Err e => mret (Some (Err e))
      | Ok page =>
          if negb (String.eqb (ep_EventEpoch page) eventEpoch)
          then mret (Some (Err Cursor.errCursorResetRequired))
          else if negb (ep_NextCursor page =? last_id (ep_Events page) position)
          then mret (Some (Err (invalid_response "scanner returned an inconsistent event cursor")))
          else
            done ← effects_page walletID txid (ep_Events page) position effects;
            match done with
            | Err e => mret (Some (Err e))
            | Ok (position, effects) =>
                if negb (ep_NextCursor page =? position)
                then mret (Some (Err (invalid_response "scanner returned an inconsistent event cursor")))
                else if Z.of_nat (length (ep_Events page)) <? limit then mret (Some (Ok effects))
                else effects_loop fuel' walletID txid eventEpoch position effects
            end
      end
  end.

(** Every page but the last adds an effect, and there are never more than the
    configured maximum. *)
Definition effects_fuel : nat := Z.to_nat (WalletEffectsMaxEvents cfg + 2).

Definition walletEffects (walletID txid eventEpoch : string) : act (option (result (list walletEffect))) :=
  effects_loop effects_fuel walletID txid eventEpoch 0 [].

(** * handleTransaction *)

Definition forbidden (message : string) : response := writeError 403 "forbidden" message false [].

Definition effects_error (ready : readiness) (e : error) : response :=
  if errors_Is Cursor.errCursorResetRequired e
  then writeError 409 "event_history_reset"
         "scanner event history changed during transaction lookup; retry the request" true
         [("event_epoch"%string, JString (epoch ready))]
  else if errors_Is errWalletEffectsLimit e
  then writeError 422 "wallet_effects_limit_exceeded"
         "wallet transaction effects exceed the configured safety cap" false
         [("max_events"%string, JInt (WalletEffectsMaxEvents cfg))]
  else if errors_Is errWalletEffectsStateLookup e then internal_error "state lookup failed"
  else scanner_unavailable "wallet transaction lookup failed".

Definition parse_include_raw (r : request) : option bool :=
  let raw := TrimSpace (query r "include_raw") in
  if String.eqb raw "" then Some false else ParseBool raw.

(** The wallet asked about, if any, with the readiness for its effects. *)
Definition transaction_wallet (p : principal) (walletID : string) : handler (option readiness) :=
  if String.eqb walletID "" then mret None
  else
    _ ← refuse_if (negb (hasScope p "withdrawal")) (forbidden "credential lacks wallet transaction scope");
    _ ← refuse_if (negb (hasWallet p walletID)) (forbidden "credential is not authorized for this wallet");
    _ ← require_wallet wallets walletID;
    ready ← require_ready cfg wallets "wallet transaction enrichment is not ready";
    mret (Some ready).

Definition transaction_effects (walletID txid : string) (ready : option readiness)
    : handler (list walletEffect) :=
  match ready with
  | None => mret []
  | Some ready =>
      effects ← call (walletEffects walletID txid (epoch ready));
      match effects with
      | Some (Ok effects) => mret effects
      | Some (Err e) => answer (effects_error ready e)
      | None => answer (scanner_unavailable "wallet transaction lookup failed")
      end
  end.

Definition transaction_data (walletID : string) (effects : list walletEffect) (tx : Transaction) : response :=
  writeData 200 (TransactionData tx (if String.eqb walletID "" then None else Some (walletID, effects))).

Definition handleTransaction (r : request) (p : principal) (txid : string) : handler response :=
  _ ← refuse_if (negb (txIDPattern txid)) (bad_request "txid must be 64 lowercase hex characters");
  match parse_include_raw r with
  | None => answer (bad_request "include_raw must be true or false")
  | Some includeRaw =>
      _ ← refuse_if (includeRaw && negb (hasScope p "raw"))
            (forbidden "credential lacks raw transaction scope");
      let walletID := TrimSpace (query r "wallet_id") in
      ready ← transaction_wallet p walletID;
      node ← call (readyNode cfg);
      _ ← refuse_if (negb (is_ok node)) (writeError 503 "node_not_ready" "node is not ready" true []);
      effects ← transaction_effects walletID txid ready;
      found ← call (ask (fun n => node_Transaction n txid includeRaw));
      match found with
      | Err _ => answer (writeError 502 "node_rpc_error" "transaction lookup failed" true [])
      | Ok (Some tx) => mret (transaction_data walletID effects tx)
      | Ok None =>
          let missing := not_found "transaction not found" in
          match ready with
          | Some ready =>
              if includeRaw then answer missing
              else match terminalScannerTransaction txid effects (tip_Height (rd_Node ready)) with
                   | Err _ => answer (scanner_unavailable "wallet transaction terminal state is invalid")
                   | Ok (Some tx) => mret (transaction_data walletID effects tx)
                   | Ok None => answer missing
                   end
          | None => answer missing
          end
      end
  end.
End transactions.
