(* ===== verification/Tracing.v ===== *)
(** The wallet effects of a transaction: the loop over the scanner's pages ends by
    itself within the configured cap, and the last effect of a kind the gateway
    knows decides whether the transaction is gone. *)
From S2P Require Import Prelude Tx GoString GoTime Sha256 Json Cursor Domain Database Config Wallets Installation Guarded Lifecycle Access Effects Http Gateway Triple Mock Registry Readiness Reads Deposits Transactions.

Section tracing.
Context `{Upstreams} (cfg : Config.Config) (walletID txid eventEpoch : string).

Lemma effects_page_grows P events position effects :
  Z.of_nat (length effects) <= WalletEffectsMaxEvents cfg ->
  act_triple P (effects_page cfg walletID txid events position effects) (fun r _ => forall x, r = Ok x ->
    length x.2 = (length effects + length events)%nat /\ Z.of_nat (length x.2) <= WalletEffectsMaxEvents cfg /\
    prefix effects x.2).
Proof.
  revert P position effects. induction events as [|e events IH]; intros P position effects Hlen; cbn [effects_page].
  { apply act_mret. intros _ _ x [= <-]. cbn. split_and!; [lia|lia|done]. }
  destruct (se_ID e <=? position); [by apply act_mret|].
  eapply act_bind_rule with (Q := fun _ _ => True); [done|intros [effect|err]]; [|by apply act_mret].
  cbv zeta. destruct (Z.ltb_spec (WalletEffectsMaxEvents cfg) (Z.of_nat (length (effects ++ [effect])))); [by apply act_mret|].
  eapply act_post; [apply IH; lia|]. intros r g Hr x Hx. destruct (Hr x Hx) as (Hl & Hm & Hp).
  rewrite length_app in Hl. cbn in *. split_and!; [lia|lia|]. etrans; [|exact Hp]. by eexists.
Qed.

(** Fuel for the events that are left and one page more is enough. *)
Lemma effects_loop_ends P fuel position effects :
  Z.of_nat (length effects) <= WalletEffectsMaxEvents cfg ->
  WalletEffectsMaxEvents cfg + 1 <= Z.of_nat (length effects + fuel) -> (1 <= fuel)%nat ->
  act_triple P (effects_loop cfg fuel walletID txid eventEpoch position effects) (fun r _ =>
    exists out, r = Some out /\ forall l, out = Ok l -> Z.of_nat (length l) <= WalletEffectsMaxEvents cfg).
Proof.
  revert P position effects. induction fuel as [|fuel IH]; intros P position effects Hlen Hfuel Hpos; [lia|].
  cbn [effects_loop]. cbv zeta.
  eapply act_bind_rule with (Q := fun _ _ => True); [done|intros [page|e]]; [|apply act_mret; naive_solver].
  destruct (negb (String.eqb (ep_EventEpoch page) eventEpoch)); [apply act_mret; naive_solver|].
  destruct (negb (ep_NextCursor page =? last_id (ep_Events page) position)); [apply act_mret; naive_solver|].
  eapply act_bind_rule; [by apply effects_page_grows|intros [[position' effects']|e]]; [|apply act_mret; naive_solver].
  eapply act_pre; [intros g Hg; exact (conj (Hg _ eq_refl) I)|]. apply act_pure. cbn [snd].
  intros (Hgrow & Hmax & _).
  destruct (negb (ep_NextCursor page =? position')); [apply act_mret; naive_solver|].
  destruct (Z.ltb_spec (Z.of_nat (length (ep_Events page))) (page_limit cfg effects)) as [Hlast|Hmore].
  { apply act_mret. intros _ _. eexists. split; [done|]. by intros l [= <-]. }
  unfold page_limit in Hmore. apply IH; lia.
Qed.

(** the loop that collects a transaction's effects, page by page, ends by
    itself, with an error or with at most the configured number of effects. *)
Theorem walletEffects_ends g : 0 <= WalletEffectsMaxEvents cfg ->
  exists out, (walletEffects cfg walletID txid eventEpoch g).1 = Some out /\
    forall l, out = Ok l -> Z.of_nat (length l) <= WalletEffectsMaxEvents cfg.
Proof.
  intros Hmax. unfold walletEffects, effects_fuel.
  apply (effects_loop_ends (fun _ => True) (Z.to_nat (WalletEffectsMaxEvents cfg + 2)) 0 []); cbn; lia || done.
Qed.
End tracing.

(** * terminalScannerTransaction *)

Definition known_kind (e : walletEffect) : Prop :=
  we_Kind e ∈ live_kinds \/ we_Kind e ∈ orphaned_kinds \/ we_Kind e = "OutgoingOutputExpired"%string.
#[export] Instance known_kind_dec e : Decision (known_kind e).
Proof. unfold known_kind. apply _. Defined.

(** The state that an effect of a known kind leaves a transaction in; [""] while
    it lives. *)
Definition terminal_state (e : walletEffect) : string :=
  if decide (we_Kind e ∈ live_kinds) then "" else if decide (we_Kind e ∈ orphaned_kinds) then "orphaned" else "expired".

Lemma latest_state_last latest state effects :
  latest_state latest state effects =
  match last (filter known_kind effects) with Some e => (Some e, terminal_state e) | None => (latest, state) end.
Proof.
  revert latest state. induction effects as [|e l IH]; intros latest state; [done|]. cbn [latest_state].
  assert (Hcons : forall s, known_kind e -> s = terminal_state e ->
    latest_state (Some e) s l = match last (filter known_kind (e :: l)) with
                                | Some e => (Some e, terminal_state e) | None => (latest, state) end).
  { intros s Hk ->. rewrite IH, filter_cons_True, last_cons by done. by destruct (last (filter known_kind l)). }
  unfold terminal_state in Hcons.
  destruct (bool_decide_reflect (we_Kind e ∈ live_kinds)) as [Hl|Hl].
  { apply Hcons; [by left|by rewrite decide_True]. }
  destruct (bool_decide_reflect (we_Kind e ∈ orphaned_kinds)) as [Ho|Ho].
  { apply Hcons; [by right; left|by rewrite decide_False, decide_True]. }
  destruct (String.eqb_spec (we_Kind e) "OutgoingOutputExpired") as [He|He].
  { apply Hcons; [by right; right|by rewrite !decide_False]. }
  rewrite IH, filter_cons_False; [done|]. unfold known_kind. tauto.
Qed.

(** C36: a transaction the node does not know is reported gone exactly when the last
    effect of a known kind says so, for this transaction and in that state, and an
    expiry is behind the node's height; when that effect says that it lives, or
    there is none, nothing is reported; anything else is an error of the scanner. *)
Theorem terminalScannerTransaction_spec txid effects nodeHeight :
  terminalScannerTransaction txid effects nodeHeight =
  match last (filter known_kind effects) with
  | None => Ok None
  | Some e =>
      if decide (terminal_state e = "") then Ok None
      else if decide (we_TxID e = txid /\ we_State e = terminal_state e) then
        if decide (terminal_state e = "expired") then
          match we_ExpiryHeight e with
          | Some expiry =>
              if decide (expiry < nodeHeight)
              then Ok (Some (terminal_transaction txid "expired" (we_BlockHeight e) (Some expiry)))
              else Err (invalid_response "scanner returned an invalid expired transaction event")
          | None => Err (invalid_response "scanner returned an invalid expired transaction event")
          end
        else Ok (Some (terminal_transaction txid (terminal_state e) (we_BlockHeight e) None))
      else Err (invalid_response "scanner returned an invalid terminal transaction event")
  end%string.
Proof.
  unfold terminalScannerTransaction. rewrite latest_state_last.
  destruct (last (filter known_kind effects)) as [e|]; [|done].
  destruct (String.eqb_spec (terminal_state e) ""), (decide (terminal_state e = "")); try done.
  destruct (String.eqb_spec (we_TxID e) txid), (String.eqb_spec (we_State e) (terminal_state e)); cbn [negb orb];
    try (rewrite decide_False by tauto; done). rewrite decide_True by done.
  destruct (String.eqb_spec (terminal_state e) "expired") as [Hx|Hx]; [rewrite Hx|by rewrite decide_False].
  cbn. destruct (we_ExpiryHeight e) as [x|]; [|by rewrite decide_True]. cbn.
  rewrite decide_True by done. destruct (Z.ltb_spec x nodeHeight); [by rewrite decide_True|by rewrite decide_False by lia].
Qed.

(** * Witness *)

Lemma walletEffects_ends_witness :
  let mocked := mock None mock_log in
  exists l, (walletEffects demo_cfg "hot" demo_txid mock_epoch mock_gateway).1 = Some (Ok l) /\
    map we_EventID l = [7; 9; 12] /\ Z.of_nat (length l) <= 10000.
Proof.
  intros mocked. assert (Hm : 0 <= WalletEffectsMaxEvents demo_cfg) by (vm_compute; discriminate).
  destruct (walletEffects_ends demo_cfg "hot" demo_txid mock_epoch mock_gateway Hm) as ([l|e] & Hr & Hl).
  - exists l. rewrite Hr. split; [done|]. split; [|exact (Hl l eq_refl)].
    apply (f_equal (fun r => match r with Some (Ok l) => map we_EventID l | _ => [] end)) in Hr.
    rewrite <- Hr. vm_compute. reflexivity.
  - exfalso. apply (f_equal (fun r => match r with Some (Ok l) => true | _ => false end)) in Hr.
    revert Hr. vm_compute. discriminate.
Defined.
