(* ===== verification/Broadcast.v ===== *)
(** Broadcasting a signed transaction: [handleBroadcast], the receipt lease with
    its heartbeat, and the stored responses, in [internal/api/api.go]. *)
From Stdlib Require Import SpecFloat.
From S2P Require Import Prelude Tx GoString GoTime Sha256 Json Domain Database Receipts Config Wallets Installation Guarded Access Effects Http Gateway Registry Readiness Reads Deposits Transactions.

(** * Requests and keys *)

Record broadcastRequest := { br_WalletID : string; br_RawTxHex : string; br_ExpectedTxID : string }.

Definition broadcast_request (j : json) : option broadcastRequest :=
  fields ← string_fields ["wallet_id"; "raw_tx_hex"; "expected_txid"]%string j;
  match fields with
  | [w; raw; txid] => Some {| br_WalletID := w; br_RawTxHex := raw; br_ExpectedTxID := txid |}
  | _ => None
  end.

Definition idempotencyPattern (s : string) : bool :=
  ident_re is_alnum (fun c => is_alnum c || one_of "._:/-" c) 127 s.
Definition walletIDPattern (s : string) : bool :=
  ident_re is_alnum (fun c => is_alnum c || one_of "._-" c) 63 s.

Definition payload_digest (req : broadcastRequest) : string :=
  EncodeToString (Sum256 (br_WalletID req +:+ nul +:+ br_RawTxHex req +:+ nul +:+ br_ExpectedTxID req)).

Definition scopedIdempotencyKey (principalName key : string) : string :=
  "v1:" +:+ EncodeToString (Sum256 ("v1" +:+ nul +:+ principalName +:+ nul +:+ key)).

Definition broadcastAlreadyKnown (found : option Transaction) : bool :=
  set_and found (fun tx => String.eqb (tx_State tx) "mempool" || String.eqb (tx_State tx) "confirmed").

(** [int64(math.Ceil(f))] of a finite [float64]. *)
Definition ceil (f : float) : Z :=
  match f with
  | S754_finite s m e =>
      let v := if s then Z.neg m else Z.pos m in
      if 0 <=? e then v * 2 ^ e else - ((- v) / 2 ^ (- e))
  | _ => 0
  end.

Definition retryAfterSeconds (updatedAt : time) (lease : Z) (now : time) : Z :=
  Z.max (ceil (Seconds (Sub (updatedAt + lease) now))) 1.

(** * Stored responses *)

Record errorBody := { eb_Code : string; eb_Message : string; eb_Retryable : bool; eb_Details : list (string * json) }.

(** A Go map with string keys as [json.Marshal] writes it: keys in order. *)
Fixpoint set_key (k : string) (v : json) (m : list (string * json)) : list (string * json) :=
  match m with
  | [] => [(k, v)]
  | (k', v') :: rest =>
      if String.eqb k k' then (k, v) :: rest
      else if String.ltb k k' then (k, v) :: m else (k', v') :: set_key k v rest
  end.
Definition to_map (ms : list (string * json)) : list (string * json) :=
  foldl (fun m kv => set_key kv.1 kv.2 m) [] ms.

Definition stored_data (m : list (string * json)) : json := JObject [("data"%string, JObject m)].
Definition stored_error (e : errorBody) : json :=
  JObject [("error", JObject [("code", JString (eb_Code e)); ("message", JString (eb_Message e));
            ("retryable", JBool (eb_Retryable e)); ("details", JObject (eb_Details e))])]%string.

Record storedReceipt := { st_Data : option json; st_Error : option errorBody }.

Definition into_map (j : json) (old : list (string * json)) : option (list (string * json)) :=
  match j with
  | JObject ms => Some (foldl (fun m kv => set_key kv.1 kv.2 m) old ms)
  | JNull => Some []
  | _ => None
  end.

Definition no_error : errorBody := {| eb_Code := ""; eb_Message := ""; eb_Retryable := false; eb_Details := [] |}.

Definition into_error (j : json) (old : errorBody) : option errorBody :=
  ms ← struct_members j;
  code ← decode_field "code" into_string (eb_Code old) ms;
  message ← decode_field "message" into_string (eb_Message old) ms;
  retryable ← decode_field "retryable" into_bool (eb_Retryable old) ms;
  details ← decode_field "details" into_map (eb_Details old) ms;
  Some {| eb_Code := code; eb_Message := message; eb_Retryable := retryable; eb_Details := details |}.

Definition Unmarshal_stored (raw : string) : option storedReceipt :=
  v ← parse raw; ms ← struct_members v;
  data ← decode_field "data" (fun j _ => Some (Some j)) None ms;
  err ← decode_field "error" (into_ptr into_error no_error) None ms;
  Some {| st_Data := data; st_Error := err |}.

(** The replay of a completed receipt. *)
Definition replay (r : Receipt) : response :=
  let broken := internal_error "stored idempotency response is invalid" in
  match Unmarshal_stored (ResponseJSON r) with
  | None => broken
  | Some stored =>
      match st_Error stored with
      | Some e => writeError (HTTPStatus r) (eb_Code e) (eb_Message e) (eb_Retryable e) (eb_Details e)
      | None =>
          match st_Data stored with
          | Some (JObject ms) =>
              writeData 200 (MapData (set_key "already_known" (JBool true)
                                       (set_key "accepted" (JBool false) (to_map ms))))
          | _ => broken
          end
      end
  end.

Section broadcast.
Context `{Upstreams} (cfg : Config.Config) (wallets : gmap string Config.Wallet).

(** * The lease *)

Record receiptLease := { ls_key : string; ls_digest : string; ls_generation : Z }.

(** The renewals of the ticks that fired, up to the first that fails. *)
Fixpoint renewals (l : receiptLease) (ticks : list (time * faults)) (d : db) : option error * db :=
  match ticks with
  | [] => (None, d)
  | (now, io) :: rest =>
      match RenewReceipt (ls_key l) (ls_digest l) (ls_generation l) now io d with
      | (Ok _, d') => renewals l rest d'
      | (Err e, d') => (Some e, d')
      end
  end.

(** The heartbeat goroutine up to this call. *)
Definition beat (l : receiptLease) : act unit := fun g =>
  match stop_err (lease g) with
  | Some _ => (tt, g)
  | None =>
      let n := now_tick g in
      let w := meanwhile n (stores g) in
      let '(e, d) := renewals l (heartbeats n) (tables w) in
      let e := match e with Some e => Some e | None => parent_done n end in
      (tt, set_lease (set_stores g (with_tables {| file := file w; tables := tables w; tick := n |} d))
             {| stop_err := e; finished := finished (lease g) |})
  end.

Definition get_stop_err : act (option error) := fun g => (stop_err (lease g), g).
Definition log_sent (raw : string) : act unit := fun g => (tt, add_sent g raw).

Definition cancelled : error := UpstreamError "unavailable" (New "context canceled").

(** A call in the lease's context, which the heartbeat cancels when it fails. *)
Definition leased {A} (l : receiptLease) (f : nat -> result A) : act (result A) :=
  _ ← beat l; stopped ← get_stop_err;
  match stopped with
  | Some _ => ask (fun _ => Err cancelled)
  | None => ask f
  end.

Definition newReceiptLease (key digest : string) (generation : Z) : act receiptLease := fun g =>
  ({| ls_key := key; ls_digest := digest; ls_generation := generation |},
   set_lease g {| stop_err := None; finished := false |}).

Definition finish_lease : act unit := fun g =>
  (tt, set_lease g {| stop_err := stop_err (lease g); finished := true |}).

(** [stop]: what the heartbeat came to. *)
Definition stop (l : receiptLease) : act (option error) := _ ← beat l; get_stop_err.

(** [_ = l.store.AbandonReceipt(...)]. *)
Definition abandon_quietly (l : receiptLease) : act unit :=
  _ ← (store_call (AbandonReceipt (ls_key l) (ls_digest l) (ls_generation l)) : act (result unit));
  mret tt.

Definition Complete (l : receiptLease) (status : Z) (response : string) : act (result unit) :=
  stopped ← stop l;
  match stopped with
  | Some e => _ ← finish_lease; mret (Err e)
  | None =>
      done ← store_call (CompleteReceipt (ls_key l) (ls_digest l) (ls_generation l) status response);
      _ ← (match done with Err _ => abandon_quietly l | Ok _ => mret tt end : act unit);
      _ ← finish_lease;
      mret done
  end.

Definition is_finished : act bool := fun g => (finished (lease g), g).

Definition Abandon (l : receiptLease) : act unit :=
  over ← is_finished;
  if (over : bool) then mret tt
  else
    stopped ← stop l;
    _ ← (match stopped with None => abandon_quietly l | Some _ => mret tt end : act unit);
    finish_lease.

Definition completeAndWrite (l : receiptLease) (status : Z) (m : list (string * json)) : handler response :=
  done ← call (Complete l status (Marshal (stored_data m)));
  match done with
  | Err _ => answer (internal_error "idempotency state failed")
  | Ok _ => mret (writeData status (MapData m))
  end.

Definition completeErrorAndWrite (l : receiptLease) (status : Z) (code message : string) (retryable : bool)
    : handler response :=
  done ← call (Complete l status (Marshal (stored_error
            {| eb_Code := code; eb_Message := message; eb_Retryable := retryable; eb_Details := [] |})));
  match done with
  | Err _ => answer (internal_error "idempotency state failed")
  | Ok _ => mret (writeError status code message retryable [])
  end.

(** * The operation *)

Definition result_data (req : broadcastRequest) (state : string) (accepted known : bool) : list (string * json) :=
  [("accepted", JBool accepted); ("already_known", JBool known); ("state", JString state);
   ("txid", JString (br_ExpectedTxID req)); ("wallet_id", JString (br_WalletID req))]%string.

Definition node_error (message : string) : response := writeError 502 "node_rpc_error" message true [].

Definition lookup_known (l : receiptLease) (req : broadcastRequest) : act (option Transaction) :=
  existing ← leased l (fun n => node_Transaction n (br_ExpectedTxID req) false);
  mret (match existing with
        | Ok found => if broadcastAlreadyKnown found then found else None
        | Err _ => None
        end).

(** [sendrawtransaction]; the log of what was handed to the node. *)
Definition send (l : receiptLease) (req : broadcastRequest) : act (result string) :=
  _ ← beat l; stopped ← get_stop_err;
  match stopped with
  | Some _ => ask (fun _ => Err cancelled)
  | None => _ ← log_sent (br_RawTxHex req); ask (fun n => node_Broadcast n (br_RawTxHex req))
  end.

(** What follows [Broadcast]. *)
Definition after_send (l : receiptLease) (req : broadcastRequest) (txid : result string) : handler response :=
  match txid with
  | Ok txid =>
      if negb (String.eqb txid (br_ExpectedTxID req))
      then answer (node_error "node returned a transaction ID different from expected_txid")
      else completeAndWrite l 202 (result_data req "mempool" true false)
  | Err e =>
      existing ← call (lookup_known l req);
      match existing with
      | Some tx => completeAndWrite l 200 (result_data req (tx_State tx) false true)
      | None =>
          if IsUpstreamKind e "rejected"
          then completeErrorAndWrite l 422 "transaction_rejected" "node rejected the signed transaction" false
          else if IsUpstreamKind e "already_known"
          then completeAndWrite l 200 (result_data req "known" false true)
          else answer (node_error "broadcast result is uncertain; retry with the same idempotency key")
      end
  end.

(** [readyNode] in the lease's context. *)
Definition leased_readyNode (l : receiptLease) : act (result NodeTip) :=
  tip ← leased l node_Tip;
  mret (tip ← tip;
        if negb (is_ok (validateNodeTip cfg tip)) || tip_InitialBlockDownload tip
        then Err (New "node is not ready for configured network") else Ok tip).

Definition operate (l : receiptLease) (req : broadcastRequest) : handler response :=
  node ← call (leased_readyNode l);
  _ ← refuse_if (negb (is_ok node)) (writeError 503 "node_not_ready" "node is not ready" true []);
  decoded ← call (leased l (fun n => node_DecodeRawTransaction n (br_RawTxHex req)));
  match decoded with
  | Err e =>
      answer (if IsUpstreamKind e "unavailable" || IsUpstreamKind e "invalid_response"
              then node_error "transaction decoding failed"
              else bad_request "raw_tx_hex is not a valid transaction")
  | Ok txid =>
      _ ← refuse_if (negb (String.eqb txid (br_ExpectedTxID req)))
            (writeError 422 "expected_txid_mismatch" "expected_txid does not match raw_tx_hex" false []);
      existing ← call (lookup_known l req);
      match existing with
      | Some tx => completeAndWrite l 200 (result_data req (tx_State tx) false true)
      | None => sent ← call (send l req); after_send l req sent
      end
  end.

(** The operation under a lease, and the deferred [Abandon]. *)
Definition with_lease (key digest : string) (generation : Z) (body : receiptLease -> handler response)
    : handler response := fun g =>
  let '(l, g) := newReceiptLease key digest generation g in
  let '(r, g) := body l g in
  let '(_, g) := Abandon l g in (r, g).

Definition raw_hex_ok (s : string) : bool :=
  negb (String.eqb s "") && String.eqb s (ToLower s) && Z.even (len s).

(** The validation of the request. *)
Definition read_broadcast (r : request) (p : principal) : handler (string * broadcastRequest) :=
  let key := TrimSpace (header r "Idempotency-Key") in
  _ ← refuse_if (negb (idempotencyPattern key)) (bad_request "a valid Idempotency-Key header is required");
  req ← decode_body r (BroadcastBodyBytes cfg) broadcast_request;
  _ ← refuse_if (negb (walletIDPattern (br_WalletID req))) (bad_request "wallet_id is invalid");
  _ ← refuse_if (negb (hasWallet p (br_WalletID req)))
        (forbidden "credential is not authorized for this wallet");
  _ ← require_wallet wallets (br_WalletID req);
  _ ← refuse_if (negb (raw_hex_ok (br_RawTxHex req)))
        (bad_request "raw_tx_hex must be non-empty, even-length lowercase hex");
  _ ← refuse_if (negb (hex_ok (br_RawTxHex req))) (bad_request "raw_tx_hex must be valid lowercase hex");
  _ ← refuse_if (negb (txIDPattern (br_ExpectedTxID req)))
        (bad_request "expected_txid must be 64 lowercase hex characters");
  mret (key, req).

Definition handleBroadcast (r : request) (p : principal) : handler response :=
  '(key, req) ← read_broadcast r p;
  let digest := payload_digest req in
  let receiptKey := scopedIdempotencyKey (p_name p) key in
  claim ← call (store_call (fun now => ClaimReceipt receiptKey digest (br_ExpectedTxID req) now
                                         (IdempotencyLease cfg)));
  match claim with
  | Err _ => answer (internal_error "idempotency state failed")
  | Ok claim =>
      match Claim_State claim with
      | ClaimConflict =>
          answer (writeError 409 "idempotency_conflict"
                    "idempotency key was used with a different payload" false [])
      | ClaimInProgress =>
          now ← call time_Now;
          let retryAfter := retryAfterSeconds (Receipt_UpdatedAt (Claim_Receipt claim)) (IdempotencyLease cfg) now in
          answer (with_header "Retry-After" (pretty retryAfter)
                    (writeError 409 "idempotency_in_progress"
                       "an identical broadcast is still being resolved" true
                       [("retry_after_seconds"%string, JInt retryAfter)]))
      | ClaimReplay => mret (replay (Claim_Receipt claim))
      | ClaimAcquired =>
          with_lease receiptKey digest (Generation (Claim_Receipt claim)) (fun l => operate l req)
      end
  end.
End broadcast.
