(* ===== verification/Broadcasting.v ===== *)
(** What [handleBroadcast] guarantees: a transaction is handed to the node only
    by the owner of the claim on its idempotency key, at most once per request,
    and a final answer is on record when it is given, so that every later claim
    of the key replays it. *)
From S2P Require Import Prelude Tx GoString GoTime Sha256 Json Domain Database Receipts Config Wallets Installation Guarded Lifecycle Access Effects Http Gateway Triple Mock Registry Readiness Reads Deposits Transactions Broadcast.

Section broadcasting.
Context `{Upstreams} (cfg : Config.Config) (wallets : gmap string Config.Wallet).

(** * What is sent *)

Lemma sent_beat l : keeps sent (beat l).
Proof. intros g. unfold beat. case_match; [done|]. by destruct (renewals l _ _). Qed.
Lemma sent_stop_err : keeps sent get_stop_err. Proof. done. Qed.
Lemma sent_finish_lease : keeps sent finish_lease. Proof. done. Qed.
Lemma sent_is_finished : keeps sent is_finished. Proof. done. Qed.
Hint Resolve sent_beat sent_stop_err sent_finish_lease sent_is_finished : keeps.

Lemma sent_leased {A} l (f : nat -> result A) : keeps sent (leased l f).
Proof. unfold leased. auto 10 with keeps. Qed.
Lemma sent_abandon_quietly l : keeps sent (abandon_quietly l).
Proof. unfold abandon_quietly. auto with keeps. Qed.
Lemma sent_stop l : keeps sent (stop l).
Proof. unfold stop. auto with keeps. Qed.
Hint Resolve sent_leased sent_abandon_quietly sent_stop : keeps.
Lemma sent_Complete l status response : keeps sent (Complete l status response).
Proof. unfold Complete. auto 10 with keeps. Qed.
Lemma sent_Abandon l : keeps sent (Abandon l).
Proof. unfold Abandon. auto 10 with keeps. Qed.
Lemma sent_lookup_known l req : keeps sent (lookup_known l req).
Proof. unfold lookup_known. auto with keeps. Qed.
Lemma sent_leased_readyNode l : keeps sent (leased_readyNode cfg l).
Proof. unfold leased_readyNode. auto with keeps. Qed.
Hint Resolve sent_Complete sent_Abandon sent_lookup_known sent_leased_readyNode : keeps.

(** * The request *)

Definition refusal (rs : response) : Prop :=
  exists status code message, code <> "transaction_rejected"%string /\
    rs = writeError status code message false [].

Lemma read_broadcast_spec g r p :
  triple (eq g) (read_broadcast cfg wallets r p) (fun rs g' => refusal rs /\ g = g')
    (fun x g' => (x.1 = TrimSpace (header r "Idempotency-Key") /\
                  decodeJSON r (BroadcastBodyBytes cfg) broadcast_request = Ok x.2 /\ hasWallet p (br_WalletID x.2) = true /\ is_Some (wallets !! br_WalletID x.2) /\
                  walletIDPattern (br_WalletID x.2) = true /\ txIDPattern (br_ExpectedTxID x.2) = true)
                 /\ g = g').
Proof.
  unfold read_broadcast, refusal. repeat h_step; intros ? <-; bool_to_prop; try (by eauto 10);
    (split; [|done]); do 3 eexists; (split; [|reflexivity]); done.
Qed.

(** * The claim and the operation *)

(** What a leased call answers is what the collaborator answered at some call. *)
Lemma leased_answer P {A} l (f : nat -> result A) :
  act_triple P (leased l f) (fun r _ => forall a, r = Ok a -> exists n, f n = Ok a).
Proof.
  unfold leased. eapply act_bind_rule with (Q := fun _ _ => True); [done|intros ?].
  eapply act_bind_rule with (Q := fun _ _ => True); [done|intros stopped].
  destruct stopped; apply act_ask; [done|]. intros g _ b Hb; naive_solver.
Qed.

Lemma send_logs l req s :
  act_triple (fun g => sent g = s) (send l req)
    (fun _ g => sent g = s \/ sent g = br_RawTxHex req :: s).
Proof.
  unfold send. eapply act_bind_rule; [apply keeps_triple, sent_beat|intros ?].
  eapply act_bind_rule; [apply keeps_triple, sent_stop_err|intros stopped].
  destruct stopped; [apply act_ask; naive_solver|].
  eapply act_bind_rule with (Q := fun _ g => sent g = br_RawTxHex req :: s).
  - intros g Hg. cbn. by rewrite Hg.
  - intros ?. apply act_ask. naive_solver.
Qed.

(** Nothing after the broadcast hands over another transaction. *)
Lemma after_send_sent (R : list string -> Prop) l req txid :
  triple (fun g => R (sent g)) (after_send l req txid) (fun _ g => R (sent g)) (fun _ g => R (sent g)).
Proof.
  assert (Hk : forall A (m : act A), keeps sent m ->
            act_triple (fun g => R (sent g)) m (fun _ g => R (sent g))).
  { intros A m Hm g Hg. by rewrite Hm. }
  unfold after_send, completeAndWrite, completeErrorAndWrite.
  repeat (t_step || (eapply t_call_bind; [apply Hk; auto with keeps|intros ?])); auto.
Qed.

Lemma operate_sent l req s :
  let E := fun (_ : response) g =>
    sent g = s \/ (exists n, node_DecodeRawTransaction n (br_RawTxHex req) = Ok (br_ExpectedTxID req))
                  /\ sent g = br_RawTxHex req :: s in
  triple (fun g => sent g = s) (operate cfg l req) E E.
Proof.
  intros E. unfold operate. subst E.
  eapply t_call_bind; [apply keeps_triple, sent_leased_readyNode|intros node].
  t_step; [naive_solver|].
  eapply t_call_bind; [|intros decoded].
  { eapply act_pre; [|apply act_and; [apply (keeps_triple sent _ s), sent_leased|apply (leased_answer (fun _ => True))]].
    by intros. }
  destruct decoded as [txid|e]; [|t_step; naive_solver].
  apply t_pre with (P' := fun g => (exists n, node_DecodeRawTransaction n (br_RawTxHex req) = Ok txid)
                                   /\ sent g = s).
  { intros g [Hs Hd]. split; [by apply Hd|done]. }
  t_step. t_step; [naive_solver|]. bool_to_prop. subst txid.
  eapply t_call_bind; [apply keeps_triple, sent_lookup_known|intros [tx|]].
  - eapply t_pre with (P' := fun g => sent g = s); [done|].
    unfold completeAndWrite. eapply t_call_bind; [apply keeps_triple, sent_Complete|intros ?].
    t_step; t_step; naive_solver.
  - eapply t_call_bind; [apply send_logs|intros txid].
    eapply t_pre; [|eapply (after_send_sent (fun l => l = s \/ _ /\ l = _))].
    intros g [Hg|Hg]; [by left|right; eauto].
Qed.

Lemma t_with_lease P key digest generation body E :
  let l := {| ls_key := key; ls_digest := digest; ls_generation := generation |} in
  triple (fun g => exists g0, P g0 /\ g = set_lease g0 {| stop_err := None; finished := false |}) (body l) E E ->
  (forall r g, E r g -> E r (Abandon l g).2) ->
  triple P (with_lease key digest generation body) E E.
Proof.
  intros l Hb Ha g Hg. unfold with_lease, newReceiptLease. fold l.
  specialize (Hb _ (ex_intro _ g (conj Hg eq_refl))).
  destruct (body l _) as [[r|r] g1]; specialize (Ha r g1 Hb); by destruct (Abandon l g1).
Qed.

(** The claim a request makes on its receipt, at the first call of its run. *)
Definition claim_of (p : principal) (key : string) (req : broadcastRequest) (g : gateway)
    : result ClaimResult * db :=
  let c := outcome (now_tick g) in
  ClaimReceipt (scopedIdempotencyKey (p_name p) key) (payload_digest req) (br_ExpectedTxID req)
    (call_clock c) (IdempotencyLease cfg) (call_io c) (tables (meanwhile (now_tick g) (stores g))).

Definition sent_under_claim (r : request) (p : principal) (g0 g : gateway) : Prop :=
  sent g = sent g0 \/
  exists req claim,
    decodeJSON r (BroadcastBodyBytes cfg) broadcast_request = Ok req /\
    hasWallet p (br_WalletID req) = true /\ is_Some (wallets !! br_WalletID req) /\
    (claim_of p (TrimSpace (header r "Idempotency-Key")) req g0).1 = Ok claim /\ Claim_State claim = ClaimAcquired /\
    (exists n, node_DecodeRawTransaction n (br_RawTxHex req) = Ok (br_ExpectedTxID req)) /\
    sent g = br_RawTxHex req :: sent g0.

Lemma handleBroadcast_sent r p g0 :
  triple (eq g0) (handleBroadcast cfg wallets r p)
    (fun _ g => sent_under_claim r p g0 g) (fun _ g => sent_under_claim r p g0 g).
Proof.
  unfold handleBroadcast. eapply t_bind.
  { eapply t_conseq; [apply read_broadcast_spec| |intros ? ? Hx; exact Hx].
    intros ? g [_ <-]. by left. }
  intros [key req]. t_step. cbn [fst snd] in *.
  eapply t_call_bind with (Q := fun claim g => claim = (claim_of p key req g0).1 /\ sent g = sent g0).
  { intros g <-. unfold store_call, claim_of. by destruct (ClaimReceipt _ _ _ _ _ _ _). }
  intros claim. t_step. destruct claim as [claim|e]; [|t_step; intros ? ?; by left].
  destruct (Claim_State claim) eqn:Hst; cycle -1.
  all: try (try (eapply t_call_bind; [apply keeps_triple, sent_ask|intros now]); t_step; intros ? ?; by left).
  apply t_with_lease; [|intros rs g]; cycle 1.
  { unfold sent_under_claim. rewrite (sent_Abandon _ g). auto. }
  eapply t_pre with (P' := fun g => sent g = sent g0); [by intros g (g1 & Hg & ->)|].
  eapply t_conseq; [apply operate_sent| |]; intros ? g Hg;
    (destruct Hg as [Hg|[Hn Hg]]; [by left|right; exists req, claim; naive_solver]).
Qed.

(** C2: whatever the schedule and the answers, a broadcast request hands at most
    one transaction to the node, and only when the credential is granted the
    wallet, the wallet is configured, the request acquired the claim on its
    idempotency key, and the node itself decoded the bytes to the transaction id
    the request expects. *)
Theorem broadcast_sends_under_claim r p g rs g' :
  finish (handleBroadcast cfg wallets r p) g = (rs, g') ->
  sent g' = sent g \/
  exists req claim,
    decodeJSON r (BroadcastBodyBytes cfg) broadcast_request = Ok req /\
    hasWallet p (br_WalletID req) = true /\ is_Some (wallets !! br_WalletID req) /\
    (claim_of p (TrimSpace (header r "Idempotency-Key")) req g).1 = Ok claim /\ Claim_State claim = ClaimAcquired /\
    (exists n, node_DecodeRawTransaction n (br_RawTxHex req) = Ok (br_ExpectedTxID req)) /\
    sent g' = br_RawTxHex req :: sent g.
Proof. intros Hf. by eapply (t_finish (eq g)) in Hf; [|apply handleBroadcast_sent|]. Qed.

(** * What is on record *)

(** The answer of a replay: a success says that the transaction is known. *)
Definition replayed (rs : response) : response :=
  match rs_body rs with
  | Ok_body (MapData m) =>
      writeData 200 (MapData (set_key "already_known" (JBool true) (set_key "accepted" (JBool false) m)))
  | _ => rs
  end.

(** The answers that settle the broadcast. *)
Definition final (rs : response) : Prop :=
  match rs_body rs with
  | Ok_body _ => True
  | Error_body code _ _ _ => code = "transaction_rejected"
  end.

(** The key's receipt is complete, for this payload, and replays [rs]. *)
Definition on_record (key digest : string) (rs : response) (g : gateway) : Prop :=
  exists row, db_receipts (tables (stores g)) !! key = Some row /\ r_complete row = true /\
    r_payload_digest row = digest /\
    (replay (scanReceipt key row) = replayed rs \/ replay (scanReceipt key row) = rs).

Lemma stored_data_replays key row status req state accepted known now :
  utf8_string (br_WalletID req) = true -> utf8_string (br_ExpectedTxID req) = true ->
  utf8_string state = true ->
  let m := result_data req state accepted known in
  replay (scanReceipt key (complete status (Marshal (stored_data m)) now row))
  = replayed (writeData status (MapData m)).
Proof.
  intros Hw Ht Hs m. unfold replay.
  change (ResponseJSON _) with (Marshal (stored_data m)). unfold Unmarshal_stored.
  rewrite parse_Marshal; [by destruct known, accepted| |cbn; lia].
  subst m. cbn -[utf8_string]. by rewrite Hw, Ht, Hs.
Qed.

Lemma stored_error_replays key row status code message retryable now :
  utf8_string code = true -> utf8_string message = true ->
  let e := {| eb_Code := code; eb_Message := message; eb_Retryable := retryable; eb_Details := [] |} in
  replay (scanReceipt key (complete status (Marshal (stored_error e)) now row))
  = writeError status code message retryable [].
Proof.
  intros Hc Hm e. unfold replay.
  change (ResponseJSON _) with (Marshal (stored_error e)). unfold Unmarshal_stored.
  rewrite parse_Marshal; [by destruct retryable| |cbn; lia].
  subst e. cbn -[utf8_string]. by rewrite Hc, Hm.
Qed.

(** A completed lease is on record and finished, so that [Abandon] leaves it. *)
Lemma Complete_ok P l status response :
  act_triple P (Complete l status response) (fun r g => r = Ok tt ->
    finished (lease g) = true /\
    exists row now, r_payload_digest row = ls_digest l /\
      db_receipts (tables (stores g)) !! ls_key l = Some (complete status response now row)).
Proof.
  unfold Complete. eapply act_bind_rule with (Q := fun _ _ => True); [done|intros [e|]].
  { eapply act_bind_rule with (Q := fun _ _ => True); [done|intros ?]. by apply act_mret. }
  eapply act_bind_rule with (Q := fun done g => forall u, done = Ok u ->
    exists row now, r_payload_digest row = ls_digest l /\
      db_receipts (tables (stores g)) !! ls_key l = Some (complete status response now row)).
  { intros g _. unfold store_call. destruct (CompleteReceipt _ _ _ _ _ _ _ _) as [r d] eqn:Hc. cbn.
    intros u ->. apply CompleteReceipt_ok in Hc as (row & ? & ?). eauto. }
  intros [u|e]; cycle 1.
  { eapply act_bind_rule with (Q := fun _ _ => True); [done|intros ?].
    eapply act_bind_rule with (Q := fun _ _ => True); [done|intros ?]. by apply act_mret. }
  intros g Hg. cbn. intros _. split; [done|]. by apply (Hg u).
Qed.

Definition settled (l : receiptLease) (rs : response) (g : gateway) : Prop :=
  final rs -> finished (lease g) = true /\ on_record (ls_key l) (ls_digest l) rs g.

Lemma not_final P l status code message retryable details :
  code <> "transaction_rejected"%string ->
  forall g, P g -> settled l (writeError status code message retryable details) g.
Proof. by intros Hc g _ Hf. Qed.

Lemma completeAndWrite_settles P l status req state accepted known :
  utf8_string (br_WalletID req) = true -> utf8_string (br_ExpectedTxID req) = true ->
  utf8_string state = true ->
  triple P (completeAndWrite l status (result_data req state accepted known)) (settled l) (settled l).
Proof.
  intros Hw Ht Hs. unfold completeAndWrite. eapply t_call_bind; [apply Complete_ok|intros [[]|e]].
  - apply t_mret. intros g Hg _. destruct (Hg eq_refl) as [Hf (row & now & Hd & Hr)].
    split; [done|]. eexists. split; [exact Hr|]. split; [done|]. split; [done|]. left.
    by apply stored_data_replays.
  - apply t_answer. by apply not_final.
Qed.

Lemma completeErrorAndWrite_settles P l status code message retryable :
  utf8_string code = true -> utf8_string message = true ->
  triple P (completeErrorAndWrite l status code message retryable) (settled l) (settled l).
Proof.
  intros Hc Hm. unfold completeErrorAndWrite. eapply t_call_bind; [apply Complete_ok|intros [[]|e]].
  - apply t_mret. intros g Hg _. destruct (Hg eq_refl) as [Hf (row & now & Hd & Hr)].
    split; [done|]. eexists. split; [exact Hr|]. split; [done|]. split; [done|]. right.
    by apply stored_error_replays.
  - apply t_answer. by apply not_final.
Qed.

Lemma lookup_known_state P l req :
  act_triple P (lookup_known l req) (fun found _ => forall tx, found = Some tx ->
    utf8_string (tx_State tx) = true).
Proof.
  unfold lookup_known. eapply act_bind_rule with (Q := fun _ _ => True); [done|intros existing].
  apply act_mret. intros _ _ tx. destruct existing as [[t|]|]; try done.
  unfold broadcastAlreadyKnown. cbn [set_and]. case_match eqn:Hk; [|done]. intros [= <-].
  apply orb_prop in Hk as [Hk|Hk]; apply String.eqb_eq in Hk; by rewrite Hk.
Qed.

Lemma operate_settles P l req :
  utf8_string (br_WalletID req) = true -> utf8_string (br_ExpectedTxID req) = true ->
  triple P (operate cfg l req) (settled l) (settled l).
Proof.
  intros Hw Ht. apply t_pre with (P' := fun _ => True); [done|].
  assert (Hfound : forall B (f : option Transaction -> handler B) E R,
    (forall tx, utf8_string (tx_State tx) = true -> triple (fun _ => True) (f (Some tx)) E R) ->
    triple (fun _ => True) (f None) E R -> triple (fun _ => True) (x ← call (lookup_known l req); f x) E R).
  { intros B f E R Hs Hn. eapply t_call_bind; [apply lookup_known_state|intros [tx|]].
    - intros g Hg. apply (Hs tx); auto.
    - by eapply t_pre; [|apply Hn]. }
  unfold operate, after_send.
  repeat lazymatch goal with
  | |- triple _ (completeAndWrite _ _ _) _ _ => apply completeAndWrite_settles; [done..|assumption || reflexivity]
  | |- triple _ (completeErrorAndWrite _ _ _ _ _) _ _ => apply completeErrorAndWrite_settles; reflexivity
  | |- triple _ (_ ← call (lookup_known _ _); _) _ _ => apply Hfound; [intros ? ?|]
  | |- triple _ (_ ← call _; _) _ _ => eapply t_call_bind with (Q := fun _ _ => True); [done|intros ?]
  | |- triple _ _ _ _ => t_step
  | |- forall g, _ => try (case_match); by apply not_final
  end.
Qed.

Lemma Abandon_finished l g : finished (lease g) = true -> (Abandon l g).2 = g.
Proof. intros Hf. unfold Abandon, is_finished, mbind, act_bind. by rewrite Hf. Qed.

Definition answered (r : request) (p : principal) (rs : response) (g : gateway) : Prop :=
  final rs -> exists req, decodeJSON r (BroadcastBodyBytes cfg) broadcast_request = Ok req /\
    on_record (scopedIdempotencyKey (p_name p) (TrimSpace (header r "Idempotency-Key")))
      (payload_digest req) rs g.

Lemma pattern_utf8 req :
  walletIDPattern (br_WalletID req) = true -> txIDPattern (br_ExpectedTxID req) = true ->
  utf8_string (br_WalletID req) = true /\ utf8_string (br_ExpectedTxID req) = true.
Proof.
  intros Hw Ht. split.
  - eapply ident_re_utf8; [..|exact Hw]; intros [[] [] [] [] [] [] [] []]; by vm_compute.
  - unfold txIDPattern, lower_hex64 in Ht. apply andb_prop in Ht as [_ Ht].
    eapply all_bytes_ascii; [|exact Ht]. intros [[] [] [] [] [] [] [] []]; by vm_compute.
Qed.

Lemma handleBroadcast_answered g0 r p :
  triple (eq g0) (handleBroadcast cfg wallets r p) (answered r p) (answered r p).
Proof.
  unfold handleBroadcast. eapply t_bind.
  { eapply t_conseq; [apply read_broadcast_spec| |intros ? ? Hx; exact Hx].
    by intros ? g [(status & code & message & Hc & ->) _] Hf. }
  intros [key req]. t_step. cbn [fst snd] in *. destruct H0 as (-> & Hreq & _ & _ & Hw & Ht).
  destruct (pattern_utf8 req Hw Ht) as [Hw' Ht'].
  eapply t_call_bind with (Q := fun claim g => forall c, claim = Ok c -> Claim_State c = ClaimReplay ->
     on_record (scopedIdempotencyKey (p_name p) (TrimSpace (header r "Idempotency-Key")))
       (payload_digest req) (replay (Claim_Receipt c)) g).
  { intros g _. unfold store_call. destruct (ClaimReceipt _ _ _ _ _ _ _) as [claim d] eqn:Hc. cbn.
    intros c -> Hst. apply ClaimReceipt_cases in Hc. rewrite Hst in Hc.
    destruct Hc as (-> & row & Hrow & -> & Hcase). rewrite Hst in Hcase. destruct Hcase. exists row. eauto. }
  intros [claim|e]; [|t_step; by intros ? ? Hf].
  destruct (Claim_State claim) eqn:Hst.
  - set (l := {| ls_key := scopedIdempotencyKey (p_name p) (TrimSpace (header r "Idempotency-Key"));
                  ls_digest := payload_digest req; ls_generation := Generation (Claim_Receipt claim) |}).
    apply t_conseq with (E := settled l) (Q := settled l); [|intros rs g Hs Hf; exists req; by destruct (Hs Hf)..].
    apply t_with_lease; [by apply operate_settles|]. fold l. intros rs g Hs Hf.
    destruct (Hs Hf) as [Hfin Hrec]. by rewrite Abandon_finished.
  - eapply t_call_bind with (Q := fun _ _ => True); [done|intros now]. t_step. by intros ? ? Hf.
  - t_step. intros g Hg _. exists req. split; [done|]. by apply (Hg claim).
  - t_step. by intros ? ? Hf.
Qed.

(** C8: when a broadcast request is settled, with a success or with the node's
    rejection, its answer is on record: whatever the claimants of receipts do
    afterwards, a later claim of the same key and payload that succeeds is a
    replay, and what it replays is that answer (a success as already known). *)
Theorem settled_broadcast_is_replayed r p g rs g' :
  finish (handleBroadcast cfg wallets r p) g = (rs, g') -> final rs ->
  exists req, decodeJSON r (BroadcastBodyBytes cfg) broadcast_request = Ok req /\
    forall l expected now lease io claim d',
      ClaimReceipt (scopedIdempotencyKey (p_name p) (TrimSpace (header r "Idempotency-Key")))
        (payload_digest req) expected now lease io (exec_receipts l (tables (stores g'))) = (Ok claim, d') ->
      Claim_State claim = ClaimReplay /\
      (replay (Claim_Receipt claim) = replayed rs \/ replay (Claim_Receipt claim) = rs).
Proof.
  intros Hrun Hf. eapply (t_finish (eq g)) in Hrun; [|apply handleBroadcast_answered|done].
  destruct (Hrun Hf) as (req & Hreq & row & Hrow & Hc & Hd & Hrep). exists req. split; [done|].
  intros l expected now lease io claim d' Hclaim.
  destruct (claim_of_complete _ _ _ _ _ _ _ _ _ _ _ Hrow Hc Hclaim) as (_ & -> & ->).
  by rewrite decide_True.
Qed.
End broadcasting.

(** * A broadcast, end to end *)

Definition broadcast_run (known : option Transaction) : response * gateway :=
  let mocked := mock known [] in
  finish (handleBroadcast demo_cfg mock_wallets mock_broadcast mock_principal) mock_gateway.

Example broadcast_accepted :
  rs_status (broadcast_run None).1 = 202 /\ sent (broadcast_run None).2 = ["00ff"%string].
Proof. vm_compute. done. Qed.

Lemma broadcast_sends_under_claim_witness :
  sent (broadcast_run None).2 = ["00ff"%string] /\
  exists req claim, decodeJSON mock_broadcast (BroadcastBodyBytes demo_cfg) broadcast_request = Ok req /\
    br_RawTxHex req = "00ff"%string /\ Claim_State claim = ClaimAcquired.
Proof.
  assert (Hs : sent (broadcast_run None).2 = ["00ff"%string]) by (vm_compute; reflexivity).
  split; [exact Hs|].
  destruct (@broadcast_sends_under_claim (mock None []) demo_cfg mock_wallets mock_broadcast mock_principal
              mock_gateway (broadcast_run None).1 (broadcast_run None).2 (surjective_pairing _))
    as [Hn|(req & claim & Hreq & _ & _ & _ & Ha & _ & Hsent)].
  - rewrite Hs in Hn. discriminate Hn.
  - exists req, claim. rewrite Hs in Hsent. injection Hsent as Hraw. split_and!; [exact Hreq|by symmetry|exact Ha].
Defined.

Lemma settled_broadcast_is_replayed_witness :
  exists req claim d',
    ClaimReceipt (scopedIdempotencyKey (p_name mock_principal) (TrimSpace (header mock_broadcast "Idempotency-Key"))) (payload_digest req) demo_txid
      (10 ^ 18) second [] (tables (stores (broadcast_run None).2)) = (Ok claim, d') /\
    Claim_State claim = ClaimReplay.
Proof.
  assert (Hf : final (broadcast_run None).1) by (vm_compute; exact I).
  destruct (@settled_broadcast_is_replayed (mock None []) demo_cfg mock_wallets mock_broadcast mock_principal
              mock_gateway (broadcast_run None).1 (broadcast_run None).2 (surjective_pairing _) Hf)
    as (req & Hreq & Hclaim).
  specialize (Hclaim [] demo_txid (10 ^ 18) second []).
  destruct (ClaimReceipt (scopedIdempotencyKey (p_name mock_principal) (TrimSpace (header mock_broadcast "Idempotency-Key"))) (payload_digest req) demo_txid
              (10 ^ 18) second [] (tables (stores (broadcast_run None).2))) as [[claim|e] d'] eqn:Hc.
  - exists req, claim, d'. split; [exact Hc|]. exact (proj1 (Hclaim claim d' Hc)).
  - exfalso. assert (Hr : decodeJSON mock_broadcast (BroadcastBodyBytes demo_cfg) broadcast_request
      = Ok {| br_WalletID := "hot"; br_RawTxHex := "00ff"; br_ExpectedTxID := demo_txid |})
      by (vm_compute; reflexivity).
    rewrite Hr in Hreq. injection Hreq as <-. apply (f_equal (fun r => is_ok r.1)) in Hc.
    revert Hc. vm_compute. discriminate.
Defined.
