(* ===== verification/Router.v ===== *)
(** The front of the public API: authentication, scopes, rate limits and routes,
    [Handler], [protected], [authenticated], [knownRouteMethod] and the request
    middleware of [internal/api/api.go].

    The path is the one the mux routes: clean and without percent escapes (the mux
    answers any other with a redirect).  Logging and the recovery from panics are
    left out. *)
From S2P Require Import Prelude Tx GoString GoTime Sha256 Json Domain Database Config Wallets Installation Guarded Access Effects Http Gateway Registry Readiness Reads Deposits Transactions Broadcast.

(** * Routes *)

Inductive route : Type :=
  | R_live | R_version | R_ready | R_tip
  | R_addresses (wallet_id : string)
  | R_balance (wallet_id address : string)
  | R_note_summary (wallet_id : string)
  | R_note_statuses (wallet_id : string)
  | R_deposits (wallet_id : string)
  | R_transaction (txid : string)
  | R_broadcast
  | R_not_found.

Definition is_method (m : string) (r : request) : bool :=
  String.eqb (Method r) m || (String.eqb m "GET" && String.eqb (Method r) "HEAD").

(** The mux: a wildcard matches one segment that is not empty. *)
Definition mux (r : request) : route :=
  let get := is_method "GET" r in
  let post := is_method "POST" r in
  let some (s : string) := negb (String.eqb s "") in
  match Split (Path r) "/" with
  | [""; "v1"; "health"; "live"] => if get then R_live else R_not_found
  | [""; "v1"; "version"] => if get then R_version else R_not_found
  | [""; "v1"; "health"; "ready"] => if get then R_ready else R_not_found
  | [""; "v1"; "network"; "tip"] => if get then R_tip else R_not_found
  | [""; "v1"; "wallets"; w; "addresses"] => if post && some w then R_addresses w else R_not_found
  | [""; "v1"; "wallets"; w; "addresses"; a; "balance"] =>
      if get && some w && some a then R_balance w a else R_not_found
  | [""; "v1"; "wallets"; w; "notes"; "summary"] => if get && some w then R_note_summary w else R_not_found
  | [""; "v1"; "wallets"; w; "notes"; "status"] => if post && some w then R_note_statuses w else R_not_found
  | [""; "v1"; "wallets"; w; "deposits"] => if get && some w then R_deposits w else R_not_found
  | [""; "v1"; "transactions"; txid] =>
      if post && String.eqb txid "broadcast" then R_broadcast
      else if get && some txid then R_transaction txid else R_not_found
  | _ => R_not_found
  end%string.

Definition knownRouteMethod (path : string) : option string :=
  if existsb (String.eqb path) ["/v1/health/live"; "/v1/version"; "/v1/health/ready"; "/v1/network/tip"]%string
  then Some "GET"%string
  else if String.eqb path "/v1/transactions/broadcast" then Some "POST"%string
  else
    let some (s : string) := negb (String.eqb s "") in
    match Split (TrimByte path "/") "/" with
    | ["v1"; "transactions"; txid] => if some txid then Some "GET" else None
    | ["v1"; "wallets"; w; "addresses"] => if some w then Some "POST" else None
    | ["v1"; "wallets"; w; "deposits"] => if some w then Some "GET" else None
    | ["v1"; "wallets"; w; "notes"; "summary"] => if some w then Some "GET" else None
    | ["v1"; "wallets"; w; "notes"; "status"] => if some w then Some "POST" else None
    | ["v1"; "wallets"; w; "addresses"; a; "balance"] => if some w && some a then Some "GET" else None
    | _ => None
    end%string.

(** * Remote address *)

Definition has_byte (c : ascii) (l : bytes) : bool := existsb (Ascii.eqb c) l.

(** The bytes before and after the last colon. *)
Definition last_colon (l : bytes) : option (bytes * bytes) :=
  let '(port, rest, found) := Cut (of_bytes (rev l)) ":" in
  if found then Some (rev (to_bytes rest), rev (to_bytes port)) else None.

(** The host of [net.SplitHostPort]; [None] is an error. *)
Definition SplitHostPort (hostport : string) : option string :=
  '(before, port) ← last_colon (to_bytes hostport);
  match before with
  | "["%char :: inside =>
      let '(host, after, found) := Cut (of_bytes inside) "]" in
      if negb found || negb (String.eqb after "") || has_byte "[" (inside ++ port) || has_byte "]" port
      then None else Some host
  | _ =>
      if has_byte ":" before || has_byte "[" (before ++ port) || has_byte "]" (before ++ port)
      then None else Some (of_bytes before)
  end.

Section router.
Context `{Upstreams} (cfg : Config.Config) (ledger : Identity) (wallets : gmap string Config.Wallet)
  (cursor_key : string) (build : BuildInfo).

Definition remoteIP (r : request) : string :=
  let direct := default (RemoteAddr r) (SplitHostPort (RemoteAddr r)) in
  if TrustProxyHeaders cfg then
    let raw := TrimSpace (nth 0 (Split (header r "X-Forwarded-For") ",") "") in
    if String.eqb raw "" then direct else raw
  else direct.

(** * Access *)

Definition auth : authenticator :=
  {| credentials := Credentials cfg; allowAnonymous := bool_decide (Config.Network cfg = Regtest) |}.

Definition unauthorized : response :=
  with_header "WWW-Authenticate" "Bearer"
    (writeError 401 "unauthorized" "a valid bearer credential is required" false []).

Definition authenticated (r : request) (next : principal -> handler response) : handler response :=
  match authenticate auth (header r "Authorization") with
  | None => answer unauthorized
  | Some p => next p
  end.

(** One request against a token bucket. *)
Definition take_token (broadcast : bool) (key : string) (now : time) : act bool := fun g =>
  if broadcast
  then let '(ok, l) := allow (broadcastLimit g) key now in (ok, set_limits g (readLimit g) l)
  else let '(ok, l) := allow (readLimit g) key now in (ok, set_limits g l (broadcastLimit g)).

Definition allow_request (broadcast : bool) (key : string) : act bool :=
  now ← time_Now; take_token broadcast key now.

Definition too_many : response :=
  with_header "Retry-After" "1" (writeError 429 "rate_limited" "request rate limit exceeded" true []).

(** [protected]; [walletID] is the path's wallet when the route has one. *)
Definition protected (scope : string) (walletID : option string) (broadcast : bool) (r : request)
    (next : principal -> handler response) : handler response :=
  authenticated r (fun p =>
    _ ← refuse_if (negb (hasScope p scope)) (forbidden "credential lacks the required scope");
    _ ← refuse_if (set_and walletID (fun w => negb (hasWallet p w)))
          (forbidden "credential is not authorized for this wallet");
    allowed ← call (allow_request broadcast (p_name p +:+ ":" +:+ remoteIP r));
    _ ← refuse_if (negb allowed) too_many;
    next p).

(** * Handler *)

Definition dispatch (r : request) : handler response :=
  match mux r with
  | R_live => handleLive
  | R_version => protected "read" None false r (fun _ => handleVersion cfg build)
  | R_ready => protected "read" None false r (fun _ => handleReady cfg wallets)
  | R_tip => protected "read" None false r (fun _ => handleTip cfg)
  | R_addresses w => protected "address" (Some w) false r (fun _ => handleAllocateAddress cfg ledger wallets r w)
  | R_balance w a => protected "read" (Some w) false r (fun _ => handleBalance cfg wallets r w a)
  | R_note_summary w => protected "treasury" (Some w) false r (fun _ => handleNoteSummary cfg wallets r w)
  | R_note_statuses w => protected "treasury" (Some w) false r (fun _ => handleNoteStatuses cfg wallets r w)
  | R_deposits w => protected "read" (Some w) false r (fun _ => handleDeposits cfg wallets cursor_key r w)
  | R_transaction txid => protected "read" None false r (fun p => handleTransaction cfg wallets r p txid)
  | R_broadcast => protected "broadcast" None true r (fun p => handleBroadcast cfg wallets r p)
  | R_not_found => protected "read" None false r (fun _ => answer (not_found "route not found"))
  end.

Definition router (r : request) : handler response :=
  match knownRouteMethod (Path r) with
  | Some allowed =>
      if is_method allowed r then dispatch r
      else authenticated r (fun _ =>
             answer (with_header "Allow" allowed
                       (writeError 405 "method_not_allowed" "method not allowed" false [])))
  | None => dispatch r
  end.

Definition requestIDPattern (s : string) : bool :=
  ident_re is_alnum (fun c => is_alnum c || one_of "._:-" c) 127 s.

(** [strconv.FormatInt(z, 36)] of a positive [int64], which has at most 13
    digits. *)
Fixpoint base36 (fuel : nat) (z : Z) (acc : string) : string :=
  match fuel with
  | O => acc
  | S fuel' =>
      let d := z mod 36 in
      let acc := String (ascii_of_N (Z.to_N (if d <? 10 then 48 + d else 87 + d))) acc in
      if z / 36 =? 0 then acc else base36 fuel' (z / 36) acc
  end.

(** [newRequestID] over the random bytes or, without them, the clock. *)
Definition newRequestID : act string := ask (fun n =>
  match call_random (outcome n) with
  | Ok b => "req_" +:+ EncodeToString b
  | Err _ => "req_" +:+ base36 13 (call_clock (outcome n) - unix_epoch) ""
  end).

Definition request_id (r : request) : act string :=
  let id := TrimSpace (header r "X-Request-ID") in
  if requestIDPattern id then mret id else newRequestID.

(** The whole surface: one request. *)
Definition serve (r : request) : act response :=
  id ← request_id r;
  rs ← finish (router r);
  mret (with_header "X-Request-ID" id (with_header "Cache-Control" "no-store"
          (with_header "X-Content-Type-Options" "nosniff" rs))).
End router.

(** * Construction and reconciliation *)

Section lifecycle.
Context `{Upstreams} (cfg : Config.Config).

Definition or_default (s d : string) : string := if String.eqb s "" then d else s.

Definition default_build (b : BuildInfo) : BuildInfo :=
  {| Version := or_default (Version b) "dev"; Revision := or_default (Revision b) "unknown";
     BuildTime := BuildTime b; APIVersion := or_default (APIVersion b) "v1"; Components := Components b |}.

Definition reset_limits : act unit := fun g =>
  (tt, set_limits g (newLimiter (ReadRate cfg)) (newLimiter (BroadcastRate cfg))).

(** [New]: the wallet map, the cursor key and the build of the API. *)
Definition New_api (build : BuildInfo) : act (result (gmap string Config.Wallet * string * BuildInfo)) :=
  registry ← newWalletRegistry cfg;
  match registry with
  | Err e => mret (Err e)
  | Ok wallets =>
      random ← ask (fun n => call_random (outcome n));
      key ← store_call (fun _ => CursorKey random);
      _ ← reset_limits;
      mret (key ← key; Ok (wallets, key, default_build build))
  end.

(** One round of [ReconcileWallets]: when the next sync is due, and how long to
    wait.  The round is not affected by an error; it only logs it. *)
Definition ReconcileWallets_round (wallets : gmap string Config.Wallet) (nextSync : time) : act (time * Z) :=
  now ← time_Now;
  nextSync ← (if nextSync <=? now then _ ← sync wallets; mret (now + 30 * second) else mret nextSync : act time);
  health ← ask scanner_Health;
  worked ← (match health with
            | Ok health =>
                match health_ScannedHeight health with
                | Some height =>
                    if String.eqb (health_Network health) (network_name cfg)
                       && String.eqb (health_UAHRP health) (AddressHRP (Config.Network cfg))
                    then r ← backfillOne wallets height (BackfillBatchSize cfg);
                         mret (match r with Ok b => b | Err _ => false end)
                    else mret false
                | None => mret false
                end
            | Err _ => mret false
            end : act bool);
  mret (nextSync, if (worked : bool) then BackfillYield cfg else 2 * second).
End lifecycle.
