(* ===== verification/Startup.v ===== *)
(** The start of the process: [runServe] of [cmd/juno-exchange-gateway/main.go] up
    to the point where its servers listen, with [New] of [internal/api/api.go] and
    [NewService] and [NewHandler] of [internal/coordinator]. *)
From S2P Require Import Prelude Tx GoString GoTime Sha256 Json Domain Database Schema Config Environ Wallets Installation Guarded Lifecycle Addrgen Opening Main Coordinator Front Access Effects Http Gateway Triple Mock Registry Readiness Serving Router.

(** * The build's components *)

(** [json.Unmarshal] into [components := map[string]string{}]. *)
Definition into_components (j : json) (old : gmap string string) : option (gmap string string) :=
  match j with
  | JNull => Some ∅
  | JObject fields =>
      foldl (fun acc p => m ← acc; v ← into_string p.2 ""; Some (<[p.1 := v]> m)) (Some old) fields
  | _ => None
  end.

(** What the linker writes into [main]'s variables. *)
Record linked := { version : string; revision : string; buildTime : string; componentsJSON : string }.

(** A map as [encoding/json] prints it, by key. *)
Definition by_key (m : gmap string string) : list (string * string) :=
  merge_sort (fun p q => String.le p.1 q.1) (map_to_list m).

Definition build_info (l : linked) : result BuildInfo :=
  match Unmarshal into_components ∅ (componentsJSON l) with
  | None => Err (New "build_manifest_invalid")
  | Some components =>
      Ok {| Version := version l; Revision := revision l; BuildTime := buildTime l; APIVersion := "v1";
            Components := by_key components |}
  end.

(** * The servers *)

Record http_server := {
  Addr : string;
  ReadHeaderTimeout : Z;
  ReadTimeout : Z;
  WriteTimeout : Z;
  IdleTimeout : Z;
  MaxHeaderBytes : Z
}.

Definition server (cfg : Config) (listen : string) : http_server :=
  {| Addr := listen; ReadHeaderTimeout := HTTPReadHeaderTimeout cfg; ReadTimeout := HTTPReadTimeout cfg;
     WriteTimeout := HTTPWriteTimeout cfg; IdleTimeout := HTTPIdleTimeout cfg; MaxHeaderBytes := Z.shiftl 32 10 |}.

(** [NewService]: nothing queued, nothing in flight. *)
Definition NewService (d : db) : svc :=
  {| Coordinator.tables := d; queue := []; inflight := ∅; recoveryAfter := ""; Coordinator.tick := 0 |}.

(** What is running when [runServe] waits in its [select]. *)
Record servers := {
  api_state : gateway;
  api_wallets : gmap string Config.Wallet;
  api_key : string;
  api_build : BuildInfo;
  publicServer : http_server;
  coordinatorServer : option (front * http_server)
}.

Section start.
Context `{Upstreams} (build : linked).

(** An [API] before [New] has set it up. *)
Definition blank_gateway (cfg : Config) (w : world) : gateway :=
  {| stores := w; registered := ∅; readLimit := newLimiter (ReadRate cfg); broadcastLimit := newLimiter (BroadcastRate cfg);
     sent := []; lease := {| stop_err := None; finished := true |} |}.

(** [api.New] over the stores; the outcomes of its calls are those of the
    [Upstreams], as everywhere in the API. *)
Definition start_api (cfg : Config) (info : BuildInfo)
    : W (gateway * (gmap string Config.Wallet * string * BuildInfo)) := fun _ w =>
  let '(r, g) := New_api cfg info (blank_gateway cfg w) in (a ← r; Ok (g, a), stores g).

Definition start_coordinator (cfg : Config) (d : db) : option (front * http_server) :=
  if CoordinatorEnabled cfg
  then Some (NewHandler cfg (NewService d), server cfg (CoordinatorListenAddress cfg)) else None.

(** The servers, from the build's components to the second listener. *)
Definition start_servers (cfg : Config) : W servers :=
  info ← w_lift (build_info build);
  '(g, (wallets, key, info)) ← start_api cfg info;
  mret {| api_state := g; api_wallets := wallets; api_key := key; api_build := info;
          publicServer := server cfg (ListenAddress cfg);
          coordinatorServer := start_coordinator cfg (Guarded.tables (stores g)) |}.

Definition launch (cfg : Config) : W unit := _ ← start_servers cfg; mret tt.

(** [runServe], as far as its [select]. *)
Definition serving (sql_open : string -> result unit) (opening : Schema.outcomes) (cfg : Config)
    : C (Identity * Manifest * servers) :=
  _ ← open_store sql_open opening cfg;
  on_stores (
    '(ledger, manifest) ← OpenForServe cfg;
    running ← start_servers cfg;
    mret (ledger, manifest, running)).
End start.

(** * What runs is verified *)

Lemma CursorKey_stored random io d key :
  (CursorKey random io d).1 = Ok key -> db_metadata (CursorKey random io d).2 !! "cursor_hmac_key"%string = Some key.
Proof.
  destruct (CursorKey random io d) as [r d'] eqn:H. cbn. intros ->. unfold CursorKey in H.
  apply run_auto_cases in H as [(_ & e & ?)|(x & io2 & [= <-] & H)]; [done|].
  db_inv; unfold insert_metadata, select_metadata, row_of in *; repeat case_match; simplify_eq/=; try done; try (by rewrite lookup_insert_eq).
Qed.

Section theorem.
Context `{Upstreams} (cfg : Config).

Lemma New_api_ok info g wallets key b g' :
  New_api cfg info g = (Ok (wallets, key, b), g') ->
  verified_in_turn cfg (Config.Wallets cfg) g /\ maps_wallets (Config.Wallets cfg) wallets /\
  db_metadata (Guarded.tables (stores g')) !! "cursor_hmac_key"%string = Some key /\ b = default_build info /\
  readLimit g' = newLimiter (ReadRate cfg) /\ broadcastLimit g' = newLimiter (BroadcastRate cfg).
Proof.
  unfold New_api, mbind, act_bind. destruct (newWalletRegistry cfg g) as [[m|e] g1] eqn:Hreg; [|done].
  unfold ask, store_call. cbn. set (d := Guarded.tables _). set (random := call_random _).
  destruct (CursorKey random _ d) as [r d'] eqn:Hkey. intros Heq.
  destruct r as [k|e]; cbv [mret act_ret] in Heq; cbn in Heq; [|done]. injection Heq as <- <- <- <-. cbn.
  destruct (newWalletRegistry_ok cfg _ _ _ Hreg) as [Hver Hmap]. split_and!; try done.
  pose proof (CursorKey_stored random (call_io (outcome (Datatypes.S (Guarded.tick (stores g1))))) d k) as Hs.
  rewrite Hkey in Hs. by apply Hs.
Qed.

Lemma start_servers_ok build env w s w' :
  start_servers build cfg env w = (Ok s, w') ->
  verified_in_turn cfg (Config.Wallets cfg) (blank_gateway cfg w) /\ maps_wallets (Config.Wallets cfg) (api_wallets s) /\
  db_metadata (Guarded.tables w') !! "cursor_hmac_key"%string = Some (api_key s) /\
  (exists info, build_info build = Ok info /\ api_build s = default_build info) /\
  stores (api_state s) = w' /\
  readLimit (api_state s) = newLimiter (ReadRate cfg) /\ broadcastLimit (api_state s) = newLimiter (BroadcastRate cfg) /\
  publicServer s = server cfg (ListenAddress cfg) /\ coordinatorServer s = start_coordinator cfg (Guarded.tables w').
Proof.
  unfold start_servers. intros (info & w1 & [= Hinfo <-] & H1)%w_bind_ok.
  apply w_bind_ok in H1 as ([g [[m key] b]] & w2 & Hapi & [= <- <-]). unfold start_api in Hapi.
  destruct (New_api cfg info (blank_gateway cfg w)) as [[[[m' key'] b']|e] g'] eqn:Hnew; [|done].
  injection Hapi as <- <- <- <- <-. apply New_api_ok in Hnew as (? & ? & ? & ? & ? & ?). cbn. split_and!; try done. by exists info.
Qed.
End theorem.

(** C33: a gateway that comes to serve, on a database that a release left, runs on an
    installation it has verified: the manifest is there and is the configuration's
    own, the database has the current schema, is bound to the manifest and has every
    index handed out.  Then, one after another, every configured wallet was checked
    against the tables, and against the scanner where they do not name its key, and
    opened as configured; the API knows exactly these wallets.  The key that signs
    its cursors is the stored one and its rate limits are full; and the
    transaction coordinator listens, on the same tables and with nothing queued,
    exactly when the configuration enables it. *)
Theorem serving_is_verified `{Upstreams} build sql_open opening cfg before ledger m s after :
  let w := stores_of before in let w' := stores_of after in
  (forall m, file w = Some m -> unsigned m) -> released (database before) ->
  serving build sql_open opening cfg outcome before = (Ok (ledger, m, s), after) ->
  (file w = Some m /\ manifest_ok m ledger /\ ledger = canonicalIdentity (Identity_of cfg) /\
   bound_to (InstallationID m) (Guarded.tables w) /\ (forall id, covered m (Guarded.tables w) id)) /\
  legal 4 (database after) /\
  (exists w2, OpenForServe cfg outcome w = (Ok (ledger, m), w2) /\ same_stores w w2 /\
     verified_in_turn cfg (Config.Wallets cfg) (blank_gateway cfg w2)) /\
  maps_wallets (Config.Wallets cfg) (api_wallets s) /\
  db_metadata (Guarded.tables w') !! "cursor_hmac_key"%string = Some (api_key s) /\
  (stores (api_state s) = w' /\ readLimit (api_state s) = newLimiter (ReadRate cfg) /\
   broadcastLimit (api_state s) = newLimiter (BroadcastRate cfg)) /\
  publicServer s = server cfg (ListenAddress cfg) /\
  coordinatorServer s = if CoordinatorEnabled cfg
    then Some (NewHandler cfg (NewService (Guarded.tables w')), server cfg (CoordinatorListenAddress cfg)) else None.
Proof.
  intros w w' Hun Hrel. unfold serving. intros (u & m1 & Ho & Hs)%c_bind_ok. apply on_stores_ok in Hs as (w3 & Hs & ->).
  unfold open_store, storage_Open in Ho. destruct (Schema.Open _ _ _) as [r f] eqn:Hopen. injection Ho as -> <-.
  destruct u. apply Open_current in Hopen as [Hlegal Hrows]; [|done].
  assert (Hw : stores_of (set_database f before) = w) by (unfold set_database; cbn; rewrite Hrows; by destruct before as [[]]).
  rewrite Hw in Hs. apply w_bind_ok in Hs as ([st m2] & w2 & Hserve & Hs).
  apply w_bind_ok in Hs as (s1 & w4 & Hstart & [= <- <- <- <-]). pose proof Hserve as Hsound.
  apply OpenForServe_sound in Hsound as (Hsame & Hf & Hok & _ & Hst & Hb & Hcov); [|done].
  apply start_servers_ok in Hstart as (Hver & Hmap & Hkey & _ & Hstores & Hr & Hbr & Hpub & Hco).
  split; [by split_and!|]. split; [exact (legal_rows f _ Hlegal)|]. split; [by exists w2|]. by split_and!.
Qed.

(** * A concrete start *)

Definition demo_build : linked :=
  {| version := "v0.1.4"; revision := "abc"; buildTime := ""; componentsJSON := dq "{'txbuild':'v1','signer':'v2'}" |}.

(** What [init] left, in a database of the current schema. *)
Definition demo_schema : db_file := (Schema.Open (Ok tt) no_faults (new_file true)).2.
Definition demo_machine : machine := set_stores_of init_run.2 (set_database demo_schema blank).

Lemma demo_schema_released : released (database demo_machine).
Proof.
  left. exists 4. apply (legal_rows demo_schema), (Open_current (Ok tt) no_faults (new_file true)).
  - left. exists 0. apply new_file_legal.
  - assert (Hok : is_ok (Schema.Open (Ok tt) no_faults (new_file true)).1 = true) by (vm_compute; reflexivity).
    unfold demo_schema. destruct (Schema.Open _ _ _) as [[[]|e] f]; [reflexivity|discriminate Hok].
Qed.

Definition demo_start : result (Identity * Manifest * servers) * machine :=
  let mocked := mock None [] in serving demo_build (fun _ => Ok tt) no_faults demo_cfg outcome demo_machine.

(** A manifest that is no JSON object stops the start, with the registry untouched. *)
Example broken_build :
  let mocked := mock None [] in
  (start_servers {| version := ""; revision := ""; buildTime := ""; componentsJSON := "[]" |} demo_cfg outcome init_run.2).1
  = Err (New "build_manifest_invalid").
Proof. vm_compute. reflexivity. Qed.

(** The [serve] command over the installation that [init] left, until it is told to
    stop. *)
Example demo_serve :
  let mocked := mock None [] in
  exit_code (program_run (Environ.demo_env []) Environ.demo_open Config.demo_url_Parse (fun _ => Ok tt) no_faults Addrgen.demo_run
    (Ok tt) (launch demo_build) stopped [true] [] good_env initialized.2).1 = 0.
Proof. vm_compute. reflexivity. Qed.

Lemma serving_is_verified_witness :
  exists ledger m s after, demo_start = (Ok (ledger, m, s), after) /\
    bound_to (InstallationID m) (Guarded.tables init_run.2) /\
    Components (api_build s) = [("signer", "v2"); ("txbuild", "v1")]%string /\
    db_metadata (Guarded.tables (stores_of after)) !! "cursor_hmac_key"%string = Some (api_key s) /\
    legal 4 (database after).
Proof.
  assert (Hok : match demo_start.1 with
    | Ok (_, s) => bool_decide (Components (api_build s) = [("signer", "v2"); ("txbuild", "v1")]%string)
    | Err _ => false end = true) by (vm_compute; reflexivity).
  destruct demo_start as [[[[ledger m] s]|e] after] eqn:Hrun; [|discriminate Hok]. apply bool_decide_eq_true in Hok as Hc.
  assert (Hu : forall m, file init_run.2 = Some m -> unsigned m) by (intros m' H'; exact (proj1 (init_file_fresh m' H'))).
  destruct (@serving_is_verified (mock None []) demo_build (fun _ => Ok tt) no_faults demo_cfg demo_machine ledger m s after
              Hu demo_schema_released Hrun) as ((_ & _ & _ & Hb & _) & Hl & _ & _ & Hkey & _).
  exists ledger, m, s, after. exact (conj eq_refl (conj Hb (conj Hc (conj Hkey Hl)))).
Defined.
