(* ===== verification/Admission.v ===== *)
(** Who gets through the front of the public API: without a credential that has
    the scope of the route and the grant of its wallet, a request is refused and
    leaves everything as it was. *)
From S2P Require Import Prelude Tx GoString GoTime Sha256 Json Cursor Domain Database Config Wallets Installation Guarded Lifecycle Access Effects Http Gateway Triple Mock Registry Readiness Reads Deposits Transactions Broadcast Router.

Section admission.
Context `{Upstreams} (cfg : Config.Config) (ledger : Identity) (wallets : gmap string Config.Wallet)
  (cursor_key : string) (build : BuildInfo).

(** The scope and the wallet that a route asks for; liveness asks for none. *)
Definition requirement (rt : route) : option (string * option string) :=
  match rt with
  | R_live => None
  | R_addresses w => Some ("address", Some w)
  | R_balance w _ | R_deposits w => Some ("read", Some w)
  | R_note_summary w | R_note_statuses w => Some ("treasury", Some w)
  | R_broadcast => Some ("broadcast", None)
  | R_version | R_ready | R_tip | R_transaction _ | R_not_found => Some ("read", None)
  end%string.

(** The request's credential is a configured one, with the scope and the grant. *)
Definition granted (r : request) (scope : string) (wallet : option string) : Prop :=
  exists p, authenticate (auth cfg) (header r "Authorization") = Some p /\ hasScope p scope = true /\
    forall w, wallet = Some w -> hasWallet p w = true.

Definition admitted (r : request) : Prop :=
  match requirement (mux r) with None => True | Some (scope, wallet) => granted r scope wallet end.

(** Everything but the number of calls made. *)
Definition untouched (g g' : gateway) : Prop :=
  file (stores g') = file (stores g) /\ tables (stores g') = tables (stores g) /\
  registered g' = registered g /\ readLimit g' = readLimit g /\ broadcastLimit g' = broadcastLimit g /\
  sent g' = sent g /\ lease g' = lease g.

Definition refused (rs : response) : Prop := rs_status rs = 401 \/ rs_status rs = 403 \/ rs_status rs = 405.

Lemma protected_refuses scope wallet broadcast r next g :
  granted r scope wallet \/
  exists rs, protected cfg scope wallet broadcast r next g = (inl rs, g) /\ refused rs.
Proof.
  unfold protected, authenticated, granted, refused.
  destruct (authenticate (auth cfg) (header r "Authorization")) as [p|]; [|right; eexists; split; [done|by left]].
  unfold refuse_if, mbind, handler_bind.
  destruct (hasScope p scope) eqn:Hs; cbn [negb]; [|right; eexists; split; [done|by right; left]].
  destruct wallet as [w|]; cbn [set_and]; [destruct (hasWallet p w) eqn:Hw|]; cbn [negb].
  - left. exists p. naive_solver.
  - right. eexists. split; [done|by right; left].
  - left. exists p. naive_solver.
Qed.

Lemma router_refuses r g :
  admitted r \/ exists rs, router cfg ledger wallets cursor_key build r g = (inl rs, g) /\ refused rs.
Proof.
  assert (Hd : admitted r \/ exists rs, dispatch cfg ledger wallets cursor_key build r g = (inl rs, g) /\ refused rs).
  { unfold admitted, dispatch. destruct (mux r); cbn [requirement]; try apply protected_refuses. by left. }
  unfold router. destruct (knownRouteMethod (Path r)) as [allowed|]; [|exact Hd].
  destruct (is_method allowed r); [exact Hd|]. right. unfold authenticated, answer.
  destruct (authenticate (auth cfg) (header r "Authorization")); eexists; (split; [reflexivity|]); [by right; right|by left].
Qed.

Lemma request_id_untouched r g : untouched g (request_id r g).2.
Proof. unfold request_id. by destruct (requestIDPattern _). Qed.

(** C32: a request is served only with a credential that has the scope of its
    route and the grant of its wallet: otherwise the answer is 401, 403 or 405 and
    the stores, the registry, the rate limits and what was sent to the node are as
    they were. *)
Theorem only_admitted_requests_act r g rs g' :
  serve cfg ledger wallets cursor_key build r g = (rs, g') -> admitted r \/ (refused rs /\ untouched g g').
Proof.
  unfold serve. unfold mbind, act_bind. pose proof (request_id_untouched r g) as Hid.
  destruct (request_id r g) as [id g1]. cbn [snd] in Hid. unfold finish.
  destruct (router_refuses r g1) as [Ha|(rs1 & Hr & Hrs)]; [by left|]. rewrite Hr.
  intros [= <- <-]. by right.
Qed.
End admission.

(** * Witness *)

Definition mock_build : BuildInfo :=
  {| Version := "1"; Revision := "r"; BuildTime := ""; APIVersion := "v1"; Components := [] |}.
Definition mock_ledger : Identity := Identity_of demo_cfg.

Definition serve_run (r : request) : response * gateway :=
  let mocked := mock None [] in serve demo_cfg mock_ledger mock_wallets demo_key mock_build r mock_gateway.

(** The wallet [cold] is not granted; the route needs a scope; a body in place. *)
Example statuses :
  map (fun r => rs_status (serve_run r).1)
    [ mock_request "GET" "/v1/health/live" [] "";
      mock_request "GET" "/v1/health/ready" [mock_bearer] "";
      mock_request "GET" "/v1/health/ready" [] "";
      mock_request "GET" "/v1/wallets/cold/deposits" [mock_bearer] "";
      mock_request "POST" "/v1/wallets/hot/deposits" [mock_bearer] "";
      mock_request "GET" "/v1/nothing" [mock_bearer] "";
      mock_broadcast ]%string
  = [200; 200; 401; 403; 405; 404; 202].
Proof. vm_compute. reflexivity. Qed.

Definition mock_ungranted : request := mock_request "GET" "/v1/wallets/cold/deposits" [mock_bearer] "".

Lemma only_admitted_requests_act_witness :
  refused (serve_run mock_ungranted).1 /\ untouched mock_gateway (serve_run mock_ungranted).2.
Proof.
  destruct (@only_admitted_requests_act (mock None []) demo_cfg mock_ledger mock_wallets demo_key mock_build
    mock_ungranted mock_gateway (serve_run mock_ungranted).1 (serve_run mock_ungranted).2 (surjective_pairing _))
    as [Ha|Hr]; [exfalso|exact Hr].
  assert (Hm : mux mock_ungranted = R_deposits "cold") by (vm_compute; reflexivity).
  unfold admitted in Ha. rewrite Hm in Ha. destruct Ha as (p & Hp & _ & Hw). specialize (Hw _ eq_refl).
  assert (Hno : option_map (fun p => hasWallet p "cold") (authenticate (auth demo_cfg) (header mock_ungranted "Authorization"))
                = Some false) by (vm_compute; reflexivity).
  rewrite Hp in Hno. cbn [option_map] in Hno. rewrite Hw in Hno. discriminate Hno.
Defined.
